(* ===== verification/_CoqProject ===== *)
-Q . S2P
Prelude.v
Kstate.v
Spinlock.v
Mem.v
Sample.v
Kalloc.v
Sched.v
SleepConc.v
Vm.v
PageTable.v
UserMem.v
CString.v
Bytes.v
Printf.v
Console.v
Sleeplock.v
Virtio.v
Bio.v
Disk.v
VirtioRw.v
Log.v
Commit.v
Recovery.v
Fs.v
Inode.v
Writei.v
Pipe.v
File.v
FileWrite.v
Dir.v
Namei.v
Proc.v
Syscall.v
Sysproc.v
Exec.v
Sysfile.v
Trap.v
Boot.v
User.v
Ulib.v
Grep.v
Umalloc.v
Shell.v
UserCmds.v
TestLib.v
TestMem.v
TestFs.v
UserTests.v
Grind.v
Posix.v
Mkfs.v
UnixShell.v
UnixUtils.v
