(* ===== verification/Prelude.v ===== *)
(** * Verification of the programs of this repository

    The program under [src/G25_Project1_xv6CustomizeSystemCalls/] is xv6 for
    RISC-V, a small UNIX kernel, with system calls added by the project:
    [getyear], signals ([kill] with a signal number, [signal], [sigreturn]),
    [sleep], a global semaphore, user locks, and one-slot messages
    ([send]/[recv]); with it come the user programs that run on it and [mkfs], which
    builds its disk.  Under [src/G25_Project2_1/] are a shell and seven utilities for
    a UNIX host.  This library models the C code function by function and proves
    what makes the parts correct.

    ** The parts and how they fit together

    A trap from user space enters [usertrap], which dispatches a system call,
    handles a device interrupt or resolves a page fault, delivers signals and
    prepares the return.  System calls work on the current process: its page
    table, its open files, its trapframe.  Files are inodes, pipes or devices;
    inodes live in the file system, whose blocks go through the log and the buffer
    cache to the disk driver.  Everything shared is guarded by spin locks, or by
    sleep locks built on [sleep]/[wakeup].

    ** Files

    - [Prelude]: machine integers, record update, the monad and its rules, the
      hint database [kern].
    - [Kstate]: [kernel/param.h], [proc.h], [spinlock.h], [sleeplock.h], [file.h],
      [buf.h], [virtio.h]: the data structures, the global variables as one record
      [kstate], and the kernel monad [K].
    - [Spinlock]: [spinlock.c] and [cpuid]/[mycpu]/[myproc] of [proc.c]; module
      [SpinConc] is the lock protocol on several harts.
    - [Mem]: [riscv.h], [memlayout.h]: page and address arithmetic, memory words and
      bytes, the linked image (class [Image]).
    - [Sample]: a concrete image and kernel state on which the examples run.
    - [Kalloc]: [kalloc.c].
    - [Sched]: [sched], [yield], [sleep], [wakeup], [kkill], [killed], [setkilled],
      [scheduler] of [proc.c]; [sleep] and [wakeup] are lists of statements, which
      [run] composes.  [SleepConc]: the interleavings of these statements, and of the
      scheduler's around the switch, on two harts.
    - [Vm]: [vm.c], with [either_copyin]/[either_copyout] and [proc_mapstacks] of
      [proc.c]; [PageTable]: the page-table invariant, [walk], [mappages];
      [UserMem]: user memory through the page table, [copyin], [copyout],
      [copyinstr].
    - [CString]: [string.c]; [Bytes]: little-endian fields of on-disk structures.
    - [Printf]: [printf.c], [consputc], [uartputc_sync]; [Console]: [console.c],
      [uart.c], [procdump].
    - [Sleeplock]: [sleeplock.c]; [Virtio]: [virtio_disk.c]; [Bio]: [bio.c] over the
      interface [DiskDriver]; [Log]: [log.c]; [Fs]: [fs.c].
    - [Disk]: a disk that loses power between two writes (the laws [DiskLaws] of a
      driver), code specified by the writes it performs, and the buffer cache as a copy
      of the disk; [VirtioRw]: a request of the virtio driver with the device, the
      scheduler and the interrupt handler; [Commit]: the writes of commits, recovery and
      transactions; [Recovery]: crash safety.
    - [Inode]: the contents of a file as a function of its inode and of the blocks;
      [bmap] and [readi].  [Writei]: block allocation and [writei] in a transaction.
    - [Pipe]: [pipe.c]; [File]: [file.c] and [pipealloc]; [FileWrite]: [filewrite] of a
      regular file, with power failures; [Dir]: directories as finite maps, [iget],
      [dirlookup] and [dirlink]; [Namei]: the walk of [namex] along a path.
    - [Proc]: the rest of [proc.c]: process creation, exit, wait.
    - [Syscall]: argument fetching of [syscall.c]; [Sysproc]: [sysproc.c]; [Exec]:
      [exec.c]; [Sysfile]: [sysfile.c]; [Trap]: [trap.c], [syscall()], [plic.c].
    - [Boot]: [start.c], [main.c] and the initialisation of the devices in [uart.c],
      [console.c], [plic.c] and [virtio_disk.c].
    - [User]: what a user process is: a computation that makes system calls (class
      [OS]); splitting text into words and counting them.
    - [Ulib]: [user/ulib.c], [user/printf.c], [user/user.h]; [Umalloc]:
      [user/umalloc.c]; [Grep]: [user/grep.c]; [Shell]: [user/sh.c]; [UserCmds]: the
      small programs of [user/].
    - [TestLib]: programs that use raw addresses; [TestMem], [TestFs] and [UserTests]:
      [user/usertests.c], the tests of memory, of files and of processes, and the driver;
      [Grind]: [user/grind.c].
    - [Posix]: calls and library functions of a UNIX host; [Mkfs]: [mkfs/mkfs.c], over
      the on-disk structures of [Fs]; [UnixShell]: [custom_shell.c]; [UnixUtils]: the
      other programs of [src/G25_Project2_1/].

    ** How C code becomes Rocq

    A C function is a definition of the same name in the monad [K]; a loop is a
    [Fixpoint] next to it.  [K A] maps a world to one of three outcomes: [Ret],
    [Panic msg] (a call of [panic], or a kernel fault, which [kerneltrap] turns
    into a panic), or [Hang] (the computation never continues).  The world is the
    [kstate] and a list of steps of the rest of the system: whenever the code gives
    up the hart ([swtch]), spins on a lock another hart holds, or polls a device,
    one step of the list is applied to the state; with no step left the outcome is
    [Hang].  Theorems quantify over the list, so they hold for every behaviour of
    the other harts, processes and devices that their hypotheses admit; between
    those points the code runs alone, which the locks it holds justify, except in [SpinConc]
    and [SleepConc], where the steps of two or more harts interleave.

    A user program is a computation in the monad [U] over a type of calls: it returns,
    exits, executes another program, faults, or runs out of fuel.  What answers the
    calls is a parameter, the class [OS]; what a theorem relies on of it is a class of
    laws ([ReadsFile], [SbrkGrows], [ImageFile], [Directory], [Machine], ...), each with
    an instance that satisfies it.  The child of a [fork] is the run in which the call
    returns 0.  A process records its calls, so what a program
    prints or writes is read off the record.

    Integers are [Z] with the C conversions ([u32], [s32], ...) written where the
    code converts; memory is pages of 512 words; locks, sleep channels, buffers,
    inodes, files and processes are named by table index; user strings and
    on-disk blocks are byte lists.  An access outside a table or to unmapped memory
    is a fault.

    Loops have fuel that provably suffices where a theorem needs it: loops that
    sleep get one more than the number of steps the rest of the system has left, as
    each round uses one; loops over a length get the length; a scan of a table
    gets its size; the page walk has three levels; the digits of a 64-bit number
    get 64; the cyclic list of buffers gets its number plus one; loops over input get
    one more than its bytes; the shell's parser gets four times the length of the
    line; counting the free pages takes one round for each page of a 128 MB machine.
    The endless loops of test programs are observed for any number of rounds.

    ** What is proved

    - Locks and scheduling: mutual exclusion of spin locks in every interleaving of the
      lock protocol; no wakeup is lost in any interleaving of [sleep], the scheduler and
      a [wakeup] on another hart; [wakeup] wakes exactly the sleepers on its channel; sleep
      locks and the semaphore are handed over and their waits end; giving up the
      hart with a spin lock held panics.
    - Memory: [kinit] frees every page once, [kalloc]/[kfree] are inverse;
      [mappages] maps what it should, preserves the page-table invariant and panics
      rather than remap; only user pages are translated; [copyout]/[copyin] round
      trip; [copyinstr] returns the user's string, or fails only where it ends.
    - Pipes are first-in first-out queues; the console buffer refines line editing.
    - The buffer cache: [binit] builds the doubly linked recency list, [brelse] keeps
      it in order, [bget] finds the cached block or recycles the least recently used
      free buffer.
    - Crash safety: a transaction on the log and the cache is atomic and durable when
      the power fails after any of its disk writes and again during any number of
      recoveries; [initlog] replays a committed log exactly and may be interrupted; a
      log of [LOGBLOCKS] blocks cannot be committed, as it pins every buffer.
    - File system: the log header and inodes survive the trip to disk, [log_write]
      absorbs, [begin_op] never overcommits the log, the bitmap allocates the lowest
      free block, directory names and path elements are taken apart correctly, file
      references are counted.
    - Files: [readi] returns the bytes of the file and writes nothing; [bmap] and
      [balloc] keep the blocks of all files apart and the file's contents as they read;
      [writei] replaces a range of one file and nothing else; [filewrite] does so
      atomically when the power fails at any disk write.
    - Directories: [iget] finds the slot of an inode or recycles the first unused one;
      [dirlookup] computes the finite map the entries of a directory are, [dirlink] adds
      one name to it and keeps all others; [namex] ends, returns the inode a path leads
      to and gives back every other reference and lock.
    - The disk driver: a request of [virtio_disk_rw] moves one block between the buffer
      and the disk, with the interrupt handler and the scheduler in between, and gives
      its descriptors back.
    - Boot: [start] enters [main] with the privileges and interrupts set up;
      [virtio_disk_init] performs the handshake; [main] never returns.
    - Signals: delivery and [sigreturn] are inverse on the trapframe; signals
      without a handler kill; what [syscall] does to [a0] afterwards.
    - Strings and printing: [memmove] with overlap, [safestrcpy] terminates,
      [printint] prints numbers that read back.

    - The user shell's parser accepts exactly the lines of its grammar and returns their
      tree; redirections are made from right to left.
    - The user allocator keeps its free list sorted and coalesced: [malloc] returns
      memory that is nobody else's, or null only if [sbrk] fails; [free] gives back exactly the block.
    - [grep] decides the language of its pattern and prints the matching lines up to
      the first that does not fit its buffer, [wc] counts and [cat] copies, however the
      system cuts a file into reads.
    - [mkfs] builds images in which every file has its contents and no block is shared,
      with the bitmap the kernel's allocator expects.
    - The UNIX shell splits lines into words, keeps the first 63 of them, finds utilities
      in the documented order and runs the named program; the utilities list, number, copy, search, count and
      remove what they should, and [custom_cp] reports success after a failed write.

    - The regression tests: [usertests] runs each test in a child of its own, up to the
      first that fails, reports success exactly if every test exits with
      0 and no page is lost, and its count of free pages is exact and gives them back;
      the generator of [grind] is the minimal standard of Park and Miller.

    Theorems with hypotheses have a witness of the same name ending in [_witness]
    that applies them to a concrete state.

    ** What is not modelled

    Assembly ([entry.S], [swtch.S], [trampoline.S], [kernelvec.S]); the
    devices themselves, which are not in the repository: what they answer is a parameter
    (class [Device]) or a step of the rest of the system; memory ordering weaker than
    sequential consistency; the failure of [malloc] in the user shell; the script
    [test-xv6.py], which starts an emulator; the linker scripts and [usys.pl], which
    generate code.  What [usertests] expects of the kernel is modelled as the program
    states it, call by call, and is not derived from the model of the kernel.

    Modelled without theorems about their whole effect: [kfork], [kexit],
    [kwait] and [kexec] on the process table and page tables together; the images of [mkfs] read by [readi]. *)
From stdpp Require Export base list gmap strings.
From Stdlib Require Export ZArith Lia.
Local Open Scope Z_scope.

Declare Scope xv6_scope.
Delimit Scope xv6_scope with xv6.

(** ** Machine integers

    An unsigned w-bit C value is a [Z] in [0, 2^w); a signed one is a [Z] in
    [-2^(w-1), 2^(w-1)).  The functions below are the C conversions into each
    type; on RISC-V plain [char] is unsigned, so it is [u8]. *)
Definition u8 (x : Z) : Z := x mod 2 ^ 8.
Definition u16 (x : Z) : Z := x mod 2 ^ 16.
Definition u32 (x : Z) : Z := x mod 2 ^ 32.
Definition u64 (x : Z) : Z := x mod 2 ^ 64.

Definition sext (w x : Z) : Z :=
  let y := x mod 2 ^ w in if y <? 2 ^ (w - 1) then y else y - 2 ^ w.
Definition s16 (x : Z) : Z := sext 16 x.
Definition s32 (x : Z) : Z := sext 32 x.
Definition s64 (x : Z) : Z := sext 64 x.

(** C truth value of an integer. *)
Definition istrue (x : Z) : bool := negb (x =? 0).
Definition b2z (b : bool) : Z := if b then 1 else 0.

Lemma u32_range x : 0 <= u32 x < 2 ^ 32.
Proof. apply Z.mod_pos_bound; lia. Qed.
Lemma u64_range x : 0 <= u64 x < 2 ^ 64.
Proof. apply Z.mod_pos_bound; lia. Qed.
Lemma u8_range x : 0 <= u8 x < 256.
Proof. apply Z.mod_pos_bound; lia. Qed.
Lemma u32_small x : 0 <= x < 2 ^ 32 -> u32 x = x.
Proof. apply Z.mod_small. Qed.
Lemma u64_small x : 0 <= x < 2 ^ 64 -> u64 x = x.
Proof. apply Z.mod_small. Qed.
Lemma u8_small x : 0 <= x < 256 -> u8 x = x.
Proof. apply Z.mod_small. Qed.

Lemma sext_range w x : 0 < w -> - 2 ^ (w - 1) <= sext w x < 2 ^ (w - 1).
Proof.
  intros Hw. unfold sext.
  assert (2 ^ w = 2 * 2 ^ (w - 1)) as Hp
    by (rewrite <- Z.pow_succ_r by lia; f_equal; lia).
  pose proof (Z.mod_pos_bound x (2 ^ w) ltac:(apply Z.pow_pos_nonneg; lia)).
  destruct (Z.ltb_spec (x mod 2 ^ w) (2 ^ (w - 1))); lia.
Qed.

Lemma sext_small w x : 0 < w -> - 2 ^ (w - 1) <= x < 2 ^ (w - 1) -> sext w x = x.
Proof.
  intros Hw Hx. unfold sext.
  assert (2 ^ w = 2 * 2 ^ (w - 1)) as Hp
    by (rewrite <- Z.pow_succ_r by lia; f_equal; lia).
  destruct (Z.lt_ge_cases x 0) as [Hn | Hn].
  - rewrite <- (Z_mod_plus_full x 1 (2 ^ w)), Z.mod_small by lia.
    destruct (Z.ltb_spec (x + 1 * 2 ^ w) (2 ^ (w - 1))); lia.
  - rewrite Z.mod_small by lia. destruct (Z.ltb_spec x (2 ^ (w - 1))); lia.
Qed.

Lemma s32_range x : - 2 ^ 31 <= s32 x < 2 ^ 31.
Proof. apply (sext_range 32); lia. Qed.
Lemma s32_small x : - 2 ^ 31 <= x < 2 ^ 31 -> s32 x = x.
Proof. apply (sext_small 32); lia. Qed.

(** Disjoint bit fields: [a] has no bit below [k], [b] none at or above it. *)
Lemma testbit_above b k i : 0 <= k <= i -> 0 <= b < 2 ^ k -> Z.testbit b i = false.
Proof. intros Hk Hb. rewrite <- (Z.mod_small b (2 ^ k)) by done. apply Z.mod_pow2_bits_high. lia. Qed.

Lemma testbit_below a k i : 0 <= i < k -> a mod 2 ^ k = 0 -> Z.testbit a i = false.
Proof.
  intros Hk Ha. apply Z.div_exact in Ha; [| lia].
  rewrite Ha, Z.mul_comm. apply Z.mul_pow2_bits_low. lia.
Qed.

Lemma land_fields a b k : 0 <= k -> a mod 2 ^ k = 0 -> 0 <= b < 2 ^ k -> Z.land a b = 0.
Proof.
  intros Hk Ha Hb. apply Z.bits_inj'. intros i Hi. rewrite Z.land_spec, Z.bits_0.
  destruct (Z.lt_ge_cases i k).
  - by rewrite (testbit_below a k) by lia.
  - rewrite (testbit_above b k) by lia. by rewrite andb_false_r.
Qed.

Lemma lor_fields a b k :
  0 <= k -> a mod 2 ^ k = 0 -> 0 <= b < 2 ^ k -> Z.lor a b = a + b.
Proof.
  intros Hk Ha Hb. pose proof (land_fields a b k Hk Ha Hb) as Hl.
  by rewrite <- Z.lxor_lor, <- Z.add_nocarry_lxor.
Qed.

Lemma lor_bound a b k : 0 <= k -> 0 <= a < 2 ^ k -> 0 <= b < 2 ^ k -> 0 <= Z.lor a b < 2 ^ k.
Proof.
  intros Hk Ha Hb. split; [apply Z.lor_nonneg; lia |].
  destruct (Z.eq_dec (Z.lor a b) 0) as [-> |]; [lia |].
  apply Z.log2_lt_pow2; [pose proof (proj2 (Z.lor_nonneg a b)); lia |].
  rewrite Z.log2_lor by lia.
  destruct (Z.eq_dec k 0) as [-> |]; [simpl in *; assert (a = 0) by lia; assert (b = 0) by lia; subst; done |].
  apply Z.max_lub_lt.
  - destruct (Z.eq_dec a 0) as [-> |]; [simpl; lia | apply Z.log2_lt_pow2; lia].
  - destruct (Z.eq_dec b 0) as [-> |]; [simpl; lia | apply Z.log2_lt_pow2; lia].
Qed.

Lemma istrue_true x : istrue x = true <-> x <> 0.
Proof. unfold istrue. destruct (Z.eqb_spec x 0); simpl; split; congruence. Qed.
Lemma istrue_false x : istrue x = false <-> x = 0.
Proof. unfold istrue. destruct (Z.eqb_spec x 0); simpl; split; congruence. Qed.

(** The bytes of a C string literal, without its nul. *)
Definition str (s : string) : list Z := (fun c => Z.of_nat (Ascii.nat_of_ascii c)) <$> String.list_ascii_of_string s.

(** ** Record update

    [r <| f := v |>] is [r] with field [f] set to [v], [r <| f ::= g |>] applies
    [g] to the field.  A record declares its eta expansion once, with a hint
    that derives the setter of any of its fields from it. *)
Class Setter {R E : Type} (proj : R -> E) : Type := upd : (E -> E) -> R -> R.
Arguments upd {R E} proj {_} f r.
Notation "r <| f := v |>" := (upd f (fun _ => v) r)
  (at level 8, f constr at level 1, v at level 200, left associativity,
   format "r <| f  :=  v |>") : xv6_scope.
Notation "r <| f ::= g |>" := (upd f g r)
  (at level 8, f constr at level 1, g at level 200, left associativity,
   format "r <| f  ::=  g |>") : xv6_scope.

Ltac derive_setter eta proj :=
  let f := fresh "f" in
  let r := fresh "r" in
  intros f r;
  let t := eval cbv beta delta [eta] in (eta r) in
  match t with
  | context C [proj r] => let t' := context C [f (proj r)] in exact t'
  end.

(** To show [X = r <| p ::= g |>] when [X] differs from [r] in field [p] only,
    compare that field. *)
Ltac upd_eq :=
  match goal with
  | |- ?X = upd ?p ?g ?r =>
      transitivity (upd p (fun _ => p X) r);
      [reflexivity | transitivity (upd p (fun _ => g (p r)) r); [| reflexivity]];
      apply (f_equal (fun y => upd p (fun _ => y) r)); cbn
  end.

(** ** A state monad with the ways kernel code can stop

    [Ret a s] returns [a] in state [s]; [Panic msg] is a call of [panic(msg)],
    which freezes the machine; [Hang s] is a computation that never continues
    from [s]: a sleep that is never woken, or a spin on a lock that is never
    released. *)
Inductive outcome (S A : Type) : Type :=
| Ret (a : A) (s : S)
| Panic (msg : string)
| Hang (s : S).
Arguments Ret {S A} a s.
Arguments Panic {S A} msg.
Arguments Hang {S A} s.

Definition M (S A : Type) : Type := S -> outcome S A.

Definition ret {S A} (a : A) : M S A := fun s => Ret a s.
Definition bind {S A B} (m : M S A) (k : A -> M S B) : M S B := fun s =>
  match m s with
  | Ret a s' => k a s'
  | Panic msg => Panic msg
  | Hang s' => Hang s'
  end.
Definition panic {S A} (msg : string) : M S A := fun _ => Panic msg.
Definition hang {S A} : M S A := fun s => Hang s.
Definition gets {S A} (f : S -> A) : M S A := fun s => Ret (f s) s.
Definition modify {S} (f : S -> S) : M S unit := fun s => Ret tt (f s).

Notation "'let!' x ':=' m 'in' k" := (bind m (fun x => k))
  (at level 10, x name, m at level 100, k at level 200,
   format "'[v' 'let!'  x  ':='  m  'in'  '/' k ']'") : xv6_scope.
Notation "'let!' ' pat ':=' m 'in' k" := (bind m (fun x => match x with pat => k end))
  (at level 10, pat strict pattern, m at level 100, k at level 200) : xv6_scope.
Notation "m ;;; k" := (bind m (fun _ => k))
  (at level 199, k at level 200, right associativity,
   format "'[v' m  ';;;'  '/' k ']'") : xv6_scope.
Open Scope xv6_scope.

(** A C [for] loop over table indices with no early exit. *)
Fixpoint foreach {S} (l : list nat) (f : nat -> M S unit) : M S unit :=
  match l with
  | [] => ret tt
  | i :: r => f i ;;; foreach r f
  end.

(** A C [for] loop whose body may [return]: [Some a] leaves the loop. *)
Fixpoint search {S A} (l : list nat) (f : nat -> M S (option A)) : M S (option A) :=
  match l with
  | [] => ret None
  | i :: r =>
      let! o := f i in
      match o with
      | Some a => ret (Some a)
      | None => search r f
      end
  end.

(** Facts that discharge the side conditions of the exact equations of kernel
    functions: what taking, releasing and synchronising preserve. *)
Create HintDb kern discriminated.

(** ** Total and partial weakest preconditions *)

(** [wp m Q s]: [m] returns from [s], in a result and state that satisfy [Q]. *)
Definition wp {S A} (m : M S A) (Q : A -> S -> Prop) (s : S) : Prop :=
  match m s with
  | Ret a s' => Q a s'
  | _ => False
  end.

(** [wlp m Q s]: [m] does not panic from [s], and if it returns, [Q] holds. *)
Definition wlp {S A} (m : M S A) (Q : A -> S -> Prop) (s : S) : Prop :=
  match m s with
  | Ret a s' => Q a s'
  | Panic _ => False
  | Hang _ => True
  end.

Section wp_rules.
Context {S : Type}.

Lemma bind_ret {A B} (m : M S A) (k : A -> M S B) s a s' :
  m s = Ret a s' -> bind m k s = k a s'.
Proof. unfold bind. by intros ->. Qed.

Lemma bind_inv {A B} (m : M S A) (k : A -> M S B) s b s' :
  bind m k s = Ret b s' -> exists a s1, m s = Ret a s1 /\ k a s1 = Ret b s'.
Proof. unfold bind. destruct (m s); [eauto | done | done]. Qed.

Lemma wp_bind {A B} (m : M S A) (k : A -> M S B) Q s :
  wp m (fun a s' => wp (k a) Q s') s -> wp (bind m k) Q s.
Proof. unfold wp, bind. by destruct (m s). Qed.

Lemma wp_mono {A} (m : M S A) (Q R : A -> S -> Prop) s :
  wp m Q s -> (forall a s', Q a s' -> R a s') -> wp m R s.
Proof. unfold wp. destruct (m s); naive_solver. Qed.

Lemma wp_ret {A} (a : A) (Q : A -> S -> Prop) s : Q a s -> wp (ret a) Q s.
Proof. done. Qed.

Lemma wp_eq {A} (m : M S A) (Q : A -> S -> Prop) s a s' :
  m s = Ret a s' -> Q a s' -> wp m Q s.
Proof. unfold wp. by intros ->. Qed.

Lemma wp_inv {A} (m : M S A) (Q : A -> S -> Prop) s :
  wp m Q s -> exists a s', m s = Ret a s' /\ Q a s'.
Proof. unfold wp. destruct (m s); naive_solver. Qed.

Lemma wlp_bind {A B} (m : M S A) (k : A -> M S B) Q s :
  wlp m (fun a s' => wlp (k a) Q s') s -> wlp (bind m k) Q s.
Proof. unfold wlp, bind. by destruct (m s). Qed.

Lemma wlp_mono {A} (m : M S A) (Q R : A -> S -> Prop) s :
  wlp m Q s -> (forall a s', Q a s' -> R a s') -> wlp m R s.
Proof. unfold wlp. destruct (m s); naive_solver. Qed.

Lemma wp_wlp {A} (m : M S A) (Q : A -> S -> Prop) s : wp m Q s -> wlp m Q s.
Proof. unfold wp, wlp. by destruct (m s). Qed.

(** Loop rule for [foreach]: an invariant indexed by the remaining entries. *)
Lemma wp_foreach (I : list nat -> S -> Prop) (f : nat -> M S unit) l s :
  (forall i r s, I (i :: r) s -> wp (f i) (fun _ s' => I r s') s) ->
  I l s -> wp (foreach l f) (fun _ s' => I [] s') s.
Proof.
  intros Hf. revert s. induction l as [| i r IH]; intros s HI; [done |].
  simpl. apply wp_bind. eapply wp_mono; [by apply Hf |]. simpl. auto.
Qed.

(** Loop rule for [search]. *)
Lemma wp_search {A} (I : list nat -> S -> Prop) (Q : option A -> S -> Prop)
    (f : nat -> M S (option A)) l s :
  (forall i r s, I (i :: r) s ->
     wp (f i) (fun o s' => match o with Some a => Q (Some a) s' | None => I r s' end) s) ->
  (forall s, I [] s -> Q None s) ->
  I l s -> wp (search l f) Q s.
Proof.
  intros Hf Hn. revert s. induction l as [| i r IH]; intros s HI; [by apply Hn |].
  simpl. apply wp_bind. eapply wp_mono; [by apply Hf |].
  intros [a |] s'; [by apply wp_ret | apply IH].
Qed.
End wp_rules.
