(* ===== verification/Kstate.v ===== *)
(** * The kernel's data: process table, locks, memory, and the kernel monad

    The C structures of [kernel/proc.h], [kernel/spinlock.h] and
    [kernel/sleeplock.h] with their fields in order, the global variables the
    kernel code shares as one record [kstate], and the monad [K] in which every
    kernel function of the other files is written. *)
From S2P Require Import Prelude.
Local Open Scope Z_scope.

(** ** Parameters ([kernel/param.h]) *)
Definition NPROC : nat := 64.
Definition NCPU : nat := 8.
Definition NOFILE : nat := 16.
Definition NFILE : nat := 100.
Definition NINODE : nat := 50.
Definition NDEV : Z := 10.
Definition ROOTDEV : Z := 1.
Definition MAXARG : nat := 32.
Definition MAXOPBLOCKS : Z := 10.
Definition LOGBLOCKS : Z := MAXOPBLOCKS * 3.
Definition NBUF : nat := 30.
Definition FSSIZE : Z := 2000.
Definition MAXPATH : Z := 128.
Definition USERSTACK : Z := 1.
Definition MAX_LOCKS : nat := 10.

(** ** Addresses of kernel objects

    Locks and sleep channels are named by the object they belong to; the C code
    uses their addresses, which are compared only for equality. *)
Inductive slockid : Type :=
| SlBuf (i : nat)
| SlInode (i : nat).

Inductive lockid : Type :=
| LkKmem | LkPid | LkWait | LkTicks | LkSem | LkFtable | LkItable | LkBcache | LkLog
| LkCons | LkTx | LkPr | LkDisk
| LkProc (i : nat)
| LkUser (i : nat)
| LkPipe (pa : Z)
| LkSleep (l : slockid).

Inductive chan : Type :=
| ChTicks | ChSem | ChLog | ChCons | ChTx | ChDiskFree
| ChProc (i : nat)
| ChBuf (i : nat)
| ChPipeR (pa : Z)
| ChPipeW (pa : Z)
| ChSleep (l : slockid).

#[export] Instance slockid_eq_dec : EqDecision slockid.
Proof. solve_decision. Defined.
#[export] Instance lockid_eq_dec : EqDecision lockid.
Proof. solve_decision. Defined.
#[export] Instance chan_eq_dec : EqDecision chan.
Proof. solve_decision. Defined.

Definition slockid_enc (l : slockid) : nat + nat :=
  match l with SlBuf i => inl i | SlInode i => inr i end.
Definition slockid_dec (x : nat + nat) : slockid :=
  match x with inl i => SlBuf i | inr i => SlInode i end.
#[export] Instance slockid_countable : Countable slockid.
Proof. apply (inj_countable' slockid_enc slockid_dec). by intros []. Defined.

Definition lockid_enc (l : lockid) : Z + (slockid + Z) :=
  match l with
  | LkKmem => inl (-1) | LkPid => inl (-2) | LkWait => inl (-3) | LkTicks => inl (-4)
  | LkSem => inl (-5) | LkFtable => inl (-6) | LkItable => inl (-7) | LkBcache => inl (-8)
  | LkLog => inl (-9) | LkCons => inl (-10) | LkTx => inl (-11) | LkPr => inl (-12)
  | LkDisk => inl (-13)
  | LkProc i => inl (2 * Z.of_nat i)
  | LkUser i => inl (2 * Z.of_nat i + 1)
  | LkPipe a => inr (inr a)
  | LkSleep s => inr (inl s)
  end.
Definition lockid_dec (x : Z + (slockid + Z)) : lockid :=
  match x with
  | inr (inr a) => LkPipe a
  | inr (inl s) => LkSleep s
  | inl z =>
      if z =? -1 then LkKmem else if z =? -2 then LkPid else if z =? -3 then LkWait
      else if z =? -4 then LkTicks else if z =? -5 then LkSem else if z =? -6 then LkFtable
      else if z =? -7 then LkItable else if z =? -8 then LkBcache else if z =? -9 then LkLog
      else if z =? -10 then LkCons else if z =? -11 then LkTx else if z =? -12 then LkPr
      else if z =? -13 then LkDisk
      else if Z.even z then LkProc (Z.to_nat (z / 2)) else LkUser (Z.to_nat (z / 2))
  end.
Lemma lockid_dec_enc l : lockid_dec (lockid_enc l) = l.
Proof.
  destruct l as [| | | | | | | | | | | | | i | i | |]; try done; unfold lockid_enc, lockid_dec.
  - rewrite !(proj2 (Z.eqb_neq _ _)) by lia.
    rewrite Z.even_mul, Z.mul_comm, Z.div_mul, Nat2Z.id by lia. done.
  - rewrite !(proj2 (Z.eqb_neq _ _)) by lia.
    rewrite Z.even_add, Z.even_mul, Z.mul_comm, Z.div_add_l by lia. simpl.
    by rewrite Z.add_0_r, Nat2Z.id.
Qed.
#[export] Instance lockid_countable : Countable lockid.
Proof. apply (inj_countable' lockid_enc lockid_dec), lockid_dec_enc. Defined.

(** ** Spin locks and per-CPU state ([kernel/spinlock.h], [kernel/proc.h]) *)
Record spinlock : Type := mkspinlock {
  lk_locked : bool;          (** is the lock held? *)
  lk_name : string;
  lk_cpu : option nat        (** the cpu holding the lock *)
}.

(** The registers [swtch.S] saves: [ra], [sp] and [s0]..[s11]. *)
Record context : Type := mkcontext {
  ctx_ra : Z;
  ctx_sp : Z;
  ctx_s : list Z
}.

(** [struct cpu], with the hart's own interrupt-enable bit ([SSTATUS_SIE]). *)
Record cpu : Type := mkcpu {
  c_proc : option nat;       (** the process running on this cpu, or null *)
  c_noff : Z;                (** depth of push_off() nesting *)
  c_intena : bool;           (** were interrupts enabled before push_off()? *)
  c_sie : bool
}.

(** ** Sleep locks ([kernel/sleeplock.h]); the inner spin lock of [l] is [LkSleep l] *)
Record sleeplock : Type := mksleeplock {
  sl_locked : bool;
  sl_name : string;
  sl_pid : Z
}.

(** ** Processes ([kernel/proc.h]) *)
Inductive procstate : Type := UNUSED | USED | SLEEPING | RUNNABLE | RUNNING | ZOMBIE.
#[export] Instance procstate_eq_dec : EqDecision procstate.
Proof. solve_decision. Defined.

(** Null pointers are [None] or address [0].  [p_trapframe] is the physical
    address of the trapframe page; [p_signal_trapframe] is the 36 64-bit words of
    a [struct trapframe]. *)
Record proc : Type := mkproc {
  p_state : procstate;
  p_chan : option chan;
  p_killed : Z;
  p_xstate : Z;
  p_pid : Z;
  p_parent : option nat;
  p_kstack : Z;
  p_sz : Z;
  p_pagetable : Z;
  p_trapframe : Z;
  p_context : context;
  p_ofile : list (option nat);
  p_cwd : option nat;
  p_name : list Z;
  p_signal_handlers : list Z;
  p_pending_signals : Z;
  p_signal_trapframe : list Z;
  p_in_signal_handler : Z;
  p_message : list Z;
  p_has_message : Z
}.

(** ** Files and pipes ([kernel/file.h], [kernel/pipe.c]) *)
Inductive filetype : Type := FD_NONE | FD_PIPE | FD_INODE | FD_DEVICE.
#[export] Instance filetype_eq_dec : EqDecision filetype.
Proof. solve_decision. Defined.

Record file : Type := mkfile {
  f_type : filetype;
  f_ref : Z;
  f_readable : Z;
  f_writable : Z;
  f_pipe : Z;                (** address of the pipe's page, 0 if none *)
  f_ip : option nat;
  f_off : Z;
  f_major : Z
}.

Definition PIPESIZE : Z := 512.
Record pipe : Type := mkpipe {
  pi_data : list Z;
  pi_nread : Z;
  pi_nwrite : Z;
  pi_readopen : Z;
  pi_writeopen : Z
}.

(** ** In-memory inodes, buffers, log and superblock
    ([kernel/file.h], [kernel/buf.h], [kernel/log.c], [kernel/fs.h]) *)
Record inode : Type := mkinode {
  i_dev : Z;
  i_inum : Z;
  i_ref : Z;
  i_valid : Z;
  i_type : Z;
  i_major : Z;
  i_minor : Z;
  i_nlink : Z;
  i_size : Z;
  i_addrs : list Z
}.

(** [b_prev]/[b_next] are indices into the buffer array; index [NBUF] is
    [bcache.head]. *)
Record buf : Type := mkbuf {
  b_valid : Z;
  b_disk : Z;
  b_dev : Z;
  b_blockno : Z;
  b_refcnt : Z;
  b_prev : nat;
  b_next : nat;
  b_data : list Z
}.

Record log : Type := mklog {
  l_start : Z;
  l_outstanding : Z;
  l_committing : Z;
  l_dev : Z;
  lh_n : Z;
  lh_block : list Z
}.

Record superblock : Type := mksuperblock {
  sb_magic : Z;
  sb_size : Z;
  sb_nblocks : Z;
  sb_ninodes : Z;
  sb_nlog : Z;
  sb_logstart : Z;
  sb_inodestart : Z;
  sb_bmapstart : Z
}.

(** ** Console and UART ([kernel/console.c], [kernel/uart.c]); [u_out] is every
    byte written to the transmit register, [u_in] the bytes waiting to be read and
    [u_idle] the transmit-idle bit of the line status register. *)
Definition INPUT_BUF_SIZE : Z := 128.
Record cons : Type := mkcons {
  cons_buf : list Z;
  cons_r : Z;
  cons_w : Z;
  cons_e : Z
}.
Record uart : Type := mkuart {
  tx_busy : Z;
  u_out : list Z;
  u_in : list Z;
  u_idle : bool
}.

(** ** The disk driver ([kernel/virtio_disk.c], [kernel/virtio.h])

    A descriptor's address names the object it points to.  [vd_used_ring] and
    [vd_used_dev] are written by the device. *)
Inductive vaddr : Type := VNull | VOp (i : nat) | VBuf (b : nat) | VStatus (i : nat).
Record virtq_desc : Type := mkvirtq_desc {
  vq_addr : vaddr;
  vq_len : Z;
  vq_flags : Z;
  vq_next : Z
}.
Record virtio_blk_req : Type := mkvirtio_blk_req {
  vr_type : Z;
  vr_reserved : Z;
  vr_sector : Z
}.
Record vdisk : Type := mkvdisk {
  vd_desc : list virtq_desc;
  vd_avail_ring : list Z;
  vd_avail_idx : Z;
  vd_used_ring : list Z;
  vd_used_dev : Z;
  vd_free : list Z;
  vd_used_idx : Z;
  vd_info_b : list (option nat);
  vd_info_status : list Z;
  vd_ops : list virtio_blk_req
}.

(** ** Control and status registers of the running hart; [SSTATUS_SIE] is [c_sie] *)
Record csr : Type := mkcsr {
  r_stvec : Z;
  r_sepc : Z;
  r_spp : bool;
  r_spie : bool;
  r_scause : Z;
  r_stval : Z;
  r_satp : Z;
  r_stimecmp : Z;
  r_time : Z
}.

(** ** The kernel's global variables *)
Record kstate : Type := mkkstate {
  k_hart : nat;                      (** the hart executing (its [tp] register) *)
  k_cpus : list cpu;                 (** proc.c: cpus *)
  k_csr : csr;
  k_locks : gmap lockid spinlock;    (** every [struct spinlock] *)
  k_slocks : gmap slockid sleeplock; (** every [struct sleeplock] *)
  k_mem : gmap Z (list Z);           (** physical pages, 512 64-bit words each *)
  k_freelist : Z;                    (** kalloc.c: kmem.freelist *)
  k_kpgtbl : Z;                      (** vm.c: kernel_pagetable *)
  k_procs : list proc;               (** proc.c: proc *)
  k_nextpid : Z;                     (** proc.c: nextpid *)
  k_initproc : option nat;           (** proc.c: initproc *)
  k_first : Z;                       (** proc.c: forkret's static first *)
  k_ticks : Z;                       (** trap.c: ticks *)
  k_sem : Z;                         (** proc.c: global_sem.value *)
  k_lock_used : list Z;              (** proc.c: lock_used *)
  k_files : list file;               (** file.c: ftable.file *)
  k_pipes : gmap Z pipe;             (** the pipes, by the address of their page *)
  k_inodes : list inode;             (** fs.c: itable.inode *)
  k_bufs : list buf;                 (** bio.c: bcache.buf, then bcache.head *)
  k_log : log;                       (** log.c: log *)
  k_sb : superblock;                 (** fs.c: sb *)
  k_disk : gmap Z (list Z);          (** the disk's blocks *)
  k_vdisk : vdisk;                   (** virtio_disk.c: disk *)
  k_cons : cons;                     (** console.c: cons *)
  k_uart : uart;
  k_panicking : Z;                   (** printf.c: panicking *)
  k_panicked : Z;                    (** printf.c: panicked *)
  k_irq : Z;                         (** the PLIC's claim register *)
  k_irq_done : list Z;               (** interrupts completed at the PLIC, last first *)
  k_junk : list Z;                   (** uninitialised stack memory of sys_send's [msg] *)
  k_mmio : list (Z * Z);             (** device registers written, last first *)
  k_started : Z                      (** main.c: started *)
}.

(** ** Field setters *)
Definition eta_spinlock (r : spinlock) : spinlock :=
  mkspinlock (lk_locked r) (lk_name r) (lk_cpu r).
#[export] Hint Extern 0 (@Setter spinlock _ ?f) => derive_setter eta_spinlock f
  : typeclass_instances.
Definition eta_context (r : context) : context :=
  mkcontext (ctx_ra r) (ctx_sp r) (ctx_s r).
#[export] Hint Extern 0 (@Setter context _ ?f) => derive_setter eta_context f
  : typeclass_instances.
Definition eta_cpu (r : cpu) : cpu :=
  mkcpu (c_proc r) (c_noff r) (c_intena r) (c_sie r).
#[export] Hint Extern 0 (@Setter cpu _ ?f) => derive_setter eta_cpu f
  : typeclass_instances.
Definition eta_sleeplock (r : sleeplock) : sleeplock :=
  mksleeplock (sl_locked r) (sl_name r) (sl_pid r).
#[export] Hint Extern 0 (@Setter sleeplock _ ?f) => derive_setter eta_sleeplock f
  : typeclass_instances.
Definition eta_proc (r : proc) : proc :=
  mkproc (p_state r) (p_chan r) (p_killed r) (p_xstate r) (p_pid r) (p_parent r) (p_kstack r)
    (p_sz r) (p_pagetable r) (p_trapframe r) (p_context r) (p_ofile r) (p_cwd r) (p_name r)
    (p_signal_handlers r) (p_pending_signals r) (p_signal_trapframe r)
    (p_in_signal_handler r) (p_message r) (p_has_message r).
#[export] Hint Extern 0 (@Setter proc _ ?f) => derive_setter eta_proc f
  : typeclass_instances.
Definition eta_file (r : file) : file :=
  mkfile (f_type r) (f_ref r) (f_readable r) (f_writable r) (f_pipe r) (f_ip r) (f_off r)
    (f_major r).
#[export] Hint Extern 0 (@Setter file _ ?f) => derive_setter eta_file f
  : typeclass_instances.
Definition eta_pipe (r : pipe) : pipe :=
  mkpipe (pi_data r) (pi_nread r) (pi_nwrite r) (pi_readopen r) (pi_writeopen r).
#[export] Hint Extern 0 (@Setter pipe _ ?f) => derive_setter eta_pipe f
  : typeclass_instances.
Definition eta_inode (r : inode) : inode :=
  mkinode (i_dev r) (i_inum r) (i_ref r) (i_valid r) (i_type r) (i_major r) (i_minor r) (i_nlink r)
    (i_size r) (i_addrs r).
#[export] Hint Extern 0 (@Setter inode _ ?f) => derive_setter eta_inode f
  : typeclass_instances.
Definition eta_buf (r : buf) : buf :=
  mkbuf (b_valid r) (b_disk r) (b_dev r) (b_blockno r) (b_refcnt r) (b_prev r) (b_next r)
    (b_data r).
#[export] Hint Extern 0 (@Setter buf _ ?f) => derive_setter eta_buf f
  : typeclass_instances.
Definition eta_log (r : log) : log :=
  mklog (l_start r) (l_outstanding r) (l_committing r) (l_dev r) (lh_n r) (lh_block r).
#[export] Hint Extern 0 (@Setter log _ ?f) => derive_setter eta_log f
  : typeclass_instances.
Definition eta_superblock (r : superblock) : superblock :=
  mksuperblock (sb_magic r) (sb_size r) (sb_nblocks r) (sb_ninodes r) (sb_nlog r) (sb_logstart r)
    (sb_inodestart r) (sb_bmapstart r).
#[export] Hint Extern 0 (@Setter superblock _ ?f) => derive_setter eta_superblock f
  : typeclass_instances.
Definition eta_cons (r : cons) : cons :=
  mkcons (cons_buf r) (cons_r r) (cons_w r) (cons_e r).
#[export] Hint Extern 0 (@Setter cons _ ?f) => derive_setter eta_cons f
  : typeclass_instances.
Definition eta_uart (r : uart) : uart :=
  mkuart (tx_busy r) (u_out r) (u_in r) (u_idle r).
#[export] Hint Extern 0 (@Setter uart _ ?f) => derive_setter eta_uart f
  : typeclass_instances.
Definition eta_virtq_desc (r : virtq_desc) : virtq_desc :=
  mkvirtq_desc (vq_addr r) (vq_len r) (vq_flags r) (vq_next r).
#[export] Hint Extern 0 (@Setter virtq_desc _ ?f) => derive_setter eta_virtq_desc f
  : typeclass_instances.
Definition eta_vdisk (r : vdisk) : vdisk :=
  mkvdisk (vd_desc r) (vd_avail_ring r) (vd_avail_idx r) (vd_used_ring r) (vd_used_dev r)
    (vd_free r) (vd_used_idx r) (vd_info_b r) (vd_info_status r) (vd_ops r).
#[export] Hint Extern 0 (@Setter vdisk _ ?f) => derive_setter eta_vdisk f
  : typeclass_instances.
Definition eta_csr (r : csr) : csr :=
  mkcsr (r_stvec r) (r_sepc r) (r_spp r) (r_spie r) (r_scause r) (r_stval r) (r_satp r)
    (r_stimecmp r) (r_time r).
#[export] Hint Extern 0 (@Setter csr _ ?f) => derive_setter eta_csr f
  : typeclass_instances.
Definition eta_kstate (r : kstate) : kstate :=
  mkkstate (k_hart r) (k_cpus r) (k_csr r) (k_locks r) (k_slocks r) (k_mem r) (k_freelist r)
    (k_kpgtbl r) (k_procs r) (k_nextpid r) (k_initproc r) (k_first r) (k_ticks r) (k_sem r)
    (k_lock_used r) (k_files r) (k_pipes r) (k_inodes r) (k_bufs r) (k_log r) (k_sb r)
    (k_disk r) (k_vdisk r) (k_cons r) (k_uart r) (k_panicking r) (k_panicked r)
    (k_irq r) (k_irq_done r) (k_junk r) (k_mmio r) (k_started r).
#[export] Hint Extern 0 (@Setter kstate _ ?f) => derive_setter eta_kstate f
  : typeclass_instances.

(** ** The kernel monad

    A computation runs on behalf of one process on one hart.  When it gives up
    the hart ([swtch]) or spins, the rest of the system runs: [w_env] lists what
    it does at each such point, as functions on the kernel state.  Theorems
    quantify over [w_env]; an empty list is a system that never resumes the
    computation. *)
Record world : Type := mkworld {
  w_k : kstate;
  w_env : list (kstate -> kstate)
}.
Definition eta_world (r : world) : world := mkworld (w_k r) (w_env r).
#[export] Hint Extern 0 (@Setter world _ ?f) => derive_setter eta_world f
  : typeclass_instances.

Definition K (A : Type) : Type := M world A.

Definition get {A} (f : kstate -> A) : K A := gets (fun w => f (w_k w)).
Definition put (f : kstate -> kstate) : K unit := modify (fun w => w <| w_k ::= f |>).

(** Let the rest of the system run once. *)
Definition env_step : K unit := fun w =>
  match w_env w with
  | [] => Hang w
  | f :: r => Ret tt (mkworld (f (w_k w)) r)
  end.

(** ** Access to the tables; a read or write outside a table is a kernel page
    fault, which [kerneltrap] turns into a panic. *)
Definition fault {A} : K A := panic "kerneltrap".

Definition get_nth {A} (f : kstate -> list A) (i : nat) : K A := fun w =>
  match f (w_k w) !! i with
  | Some x => Ret x w
  | None => Panic "kerneltrap"
  end.

Definition get_proc (i : nat) : K proc := get_nth k_procs i.
Definition upd_proc (i : nat) (f : proc -> proc) : K unit :=
  put (fun s => s <| k_procs ::= alter f i |>).

(** All slots of the process table, in the order of [for(p = proc; p < &proc[NPROC]; p++)]. *)
Definition all_procs : list nat := seq 0 NPROC.
#[global] Arguments all_procs : simpl never.

(** ** Equations of the monad, and the tactic that runs straight-line code *)
Section equations.
Context {A B C : Type}.
Implicit Types (s : kstate) (e : list (kstate -> kstate)).

Lemma get_eq (f : kstate -> A) s e : get f (mkworld s e) = Ret (f s) (mkworld s e).
Proof. done. Qed.
Lemma put_eq f s e : put f (mkworld s e) = Ret tt (mkworld (f s) e).
Proof. done. Qed.
Lemma bind_get (f : kstate -> A) (k : A -> K B) s e :
  bind (get f) k (mkworld s e) = k (f s) (mkworld s e).
Proof. done. Qed.
Lemma bind_put f (k : unit -> K B) s e :
  bind (put f) k (mkworld s e) = k tt (mkworld (f s) e).
Proof. done. Qed.
Lemma bind_upd_proc i f (k : unit -> K B) s e :
  bind (upd_proc i f) k (mkworld s e) = k tt (mkworld (s <| k_procs ::= alter f i |>) e).
Proof. done. Qed.
Lemma bind_ret_l (a : A) (k : A -> K B) w : bind (ret a) k w = k a w.
Proof. done. Qed.
Lemma bind_assoc (m : K A) (f : A -> K B) (g : B -> K C) w :
  bind (bind m f) g w = bind m (fun a => bind (f a) g) w.
Proof. unfold bind. by destruct (m w). Qed.
Lemma bind_panic msg (k : A -> K B) w : bind (panic msg) k w = Panic msg.
Proof. done. Qed.
Lemma get_nth_eq (f : kstate -> list A) i s e x :
  f s !! i = Some x -> get_nth f i (mkworld s e) = Ret x (mkworld s e).
Proof. intros Hx. unfold get_nth. cbn. by rewrite Hx. Qed.
End equations.

Ltac kstep :=
  first [ rewrite bind_get | rewrite bind_put | rewrite bind_upd_proc | rewrite bind_ret_l
        | rewrite bind_assoc | rewrite bind_panic | rewrite get_eq | rewrite put_eq ];
  idtac.
(** Run [get], [put] and [ret]; stops at calls and tests. *)
Ltac krun := cbv beta iota; repeat (kstep; cbv beta iota).
(** Run a call whose exact result [H] gives; premises of [H] that neither [done]
    nor the hints of the database [kern] prove are left as the first goals. *)
Ltac kside := try done; try solve [eauto 3 with kern nocore].
Tactic Notation "kcall" uconstr(H) :=
  eapply eq_trans; [eapply bind_ret; eapply H; kside | cbv beta].

Lemma ret_world {A} (a : A) s s' e : s = s' -> Ret a (mkworld s e) = Ret a (mkworld s' e).
Proof. by intros ->. Qed.

(** A loop whose body has an exact result is a fold over the indices. *)
Lemma foreach_eq (I : kstate -> Prop) (f : nat -> K unit) (g : nat -> kstate -> kstate) l s e :
  (forall i s, i ∈ l -> I s -> f i (mkworld s e) = Ret tt (mkworld (g i s) e) /\ I (g i s)) ->
  I s -> foreach l f (mkworld s e) = Ret tt (mkworld (foldl (fun s i => g i s) s l) e).
Proof.
  revert s. induction l as [| i r IH]; intros s Hf HI; [done |]. simpl.
  destruct (Hf i s) as [Hi HI']; [by left | done |].
  rewrite (bind_ret _ _ _ _ _ Hi). apply IH; [| done].
  intros j s' Hj. apply Hf. by right.
Qed.
