(* ===== verification/Spinlock.v ===== *)
(** * Spin locks and interrupt nesting ([kernel/spinlock.c])

    [push_off]/[pop_off], [holding], [acquire], [release] and [initlock] as
    kernel computations, the exact state each produces, and a step relation of
    the two atomic swaps for which mutual exclusion is an invariant. *)
From S2P Require Import Prelude Kstate.
Local Open Scope Z_scope.

(** ** The code *)

(** [cpuid()] reads [tp]; [mycpu()] is the entry of [cpus] it indexes. *)
Definition cpuid : K nat := get k_hart.
Definition mycpu : K cpu := let! h := cpuid in get_nth k_cpus h.
Definition upd_mycpu (f : cpu -> cpu) : K unit :=
  put (fun s => s <| k_cpus ::= alter f (k_hart s) |>).

Definition intr_get : K bool := let! c := mycpu in ret (c_sie c).
Definition intr_on : K unit := upd_mycpu (fun c => c <| c_sie := true |>).
Definition intr_off : K unit := upd_mycpu (fun c => c <| c_sie := false |>).

Definition push_off : K unit :=
  let! old := intr_get in
  intr_off ;;;
  let! c := mycpu in
  (if c_noff c =? 0 then upd_mycpu (fun c => c <| c_intena := old |>) else ret tt) ;;;
  upd_mycpu (fun c => c <| c_noff := s32 (c_noff c + 1) |>).

Definition pop_off : K unit :=
  let! on := intr_get in
  if on then panic "pop_off - interruptible" else
  let! c := mycpu in
  if c_noff c <? 1 then panic "pop_off" else
  upd_mycpu (fun c => c <| c_noff := s32 (c_noff c - 1) |>) ;;;
  let! c := mycpu in
  if (c_noff c =? 0) && c_intena c then intr_on else ret tt.

(** A lock that was never initialised is zeroed memory: free. *)
Definition zero_lock : spinlock := mkspinlock false "" None.
Definition lock_of (s : kstate) (lk : lockid) : spinlock := default zero_lock (k_locks s !! lk).
Definition set_lock (lk : lockid) (f : spinlock -> spinlock) : K unit :=
  put (fun s => s <| k_locks ::= <[lk := f (lock_of s lk)]> |>).

Definition initlock (lk : lockid) (name : string) : K unit :=
  set_lock lk (fun _ => mkspinlock false name None).

Definition holding (lk : lockid) : K bool :=
  let! l := get (fun s => lock_of s lk) in
  let! h := cpuid in
  ret (lk_locked l && bool_decide (lk_cpu l = Some h)).

(** [__sync_lock_test_and_set(&lk->locked, 1)]: the old value. *)
Definition test_and_set (lk : lockid) : K bool :=
  let! l := get (fun s => lock_of s lk) in
  set_lock lk (fun l => l <| lk_locked := true |>) ;;;
  ret (lk_locked l).

(** The spin: while the swap finds the lock taken, the other harts run. *)
Fixpoint spin (fuel : nat) (lk : lockid) : K unit :=
  match fuel with
  | O => hang
  | S n =>
      let! old := test_and_set lk in
      if old then env_step ;;; spin n lk else ret tt
  end.

Definition acquire (lk : lockid) : K unit :=
  push_off ;;;
  let! h := holding lk in
  if h then panic "acquire" else
  (fun w => spin (S (length (w_env w))) lk w) ;;;
  let! h := cpuid in
  set_lock lk (fun l => l <| lk_cpu := Some h |>).

Definition release (lk : lockid) : K unit :=
  let! h := holding lk in
  if negb h then panic "release" else
  set_lock lk (fun l => l <| lk_cpu := None |>) ;;;
  set_lock lk (fun l => l <| lk_locked := false |>) ;;;
  pop_off.

(** [myproc()] of [kernel/proc.c]. *)
Definition myproc : K (option nat) :=
  push_off ;;;
  let! c := mycpu in
  pop_off ;;;
  ret (c_proc c).

(** ** What the primitives do to the state *)

Definition push_cpu (c : cpu) : cpu :=
  mkcpu (c_proc c) (c_noff c + 1) (if c_noff c =? 0 then c_sie c else c_intena c) false.
Definition pop_cpu (c : cpu) : cpu :=
  mkcpu (c_proc c) (c_noff c - 1) (c_intena c)
    (if (c_noff c =? 1) && c_intena c then true else false).
(** A push followed by a pop records the interrupt state when it was outermost. *)
Definition sync_cpu (c : cpu) : cpu :=
  mkcpu (c_proc c) (c_noff c) (if c_noff c =? 0 then c_sie c else c_intena c) (c_sie c).

Definition on_cpu (f : cpu -> cpu) (s : kstate) : kstate :=
  s <| k_cpus ::= alter f (k_hart s) |>.
Definition sync (s : kstate) : kstate := on_cpu sync_cpu s.
Definition lock_taken (lk : lockid) (s : kstate) : kstate :=
  (on_cpu push_cpu s)
    <| k_locks ::= <[lk := mkspinlock true (lk_name (lock_of s lk)) (Some (k_hart s))]> |>.
Definition lock_freed (lk : lockid) (s : kstate) : kstate :=
  (on_cpu pop_cpu s)
    <| k_locks ::= <[lk := mkspinlock false (lk_name (lock_of s lk)) None]> |>.

(** The running hart has an entry in [cpus], its nesting depth is in range and
    interrupts are off while it is nested. *)
Definition cpu_ok (s : kstate) (c : cpu) : Prop :=
  k_cpus s !! k_hart s = Some c /\ 0 <= c_noff c < 2 ^ 31 - 1 /\
  (0 < c_noff c -> c_sie c = false).

Definition lock_free (s : kstate) (lk : lockid) : Prop :=
  exists l, k_locks s !! lk = Some l /\ lk_locked l = false /\ lk_cpu l = None.
Definition lock_mine (s : kstate) (lk : lockid) : Prop :=
  exists l, k_locks s !! lk = Some l /\ lk_locked l = true /\ lk_cpu l = Some (k_hart s).

(** ** Lemmas *)

Lemma on_cpu_hart f s : k_hart (on_cpu f s) = k_hart s.
Proof. done. Qed.

Lemma on_cpu_compose f g s : on_cpu f (on_cpu g s) = on_cpu (fun c => f (g c)) s.
Proof. unfold on_cpu, upd. cbn. by rewrite list_alter_alter_eq. Qed.

Lemma on_cpu_ext f g s c :
  k_cpus s !! k_hart s = Some c -> f c = g c -> on_cpu f s = on_cpu g s.
Proof.
  intros Hc Hfg. unfold on_cpu, upd. f_equal.
  apply list_alter_ext; [| done]. intros y Hy. by simplify_eq.
Qed.

Lemma ret_on_cpu {A} (a : A) f g s c e :
  k_cpus s !! k_hart s = Some c -> f c = g c ->
  Ret a (mkworld (on_cpu f s) e) = Ret a (mkworld (on_cpu g s) e).
Proof. intros Hc Hfg. by rewrite (on_cpu_ext f g s c). Qed.

Lemma on_cpu_id f s c : k_cpus s !! k_hart s = Some c -> f c = c -> on_cpu f s = s.
Proof.
  intros Hc Hf. rewrite (on_cpu_ext f id s c) by done.
  unfold on_cpu, upd. destruct s; cbn. by rewrite list_alter_id.
Qed.

Lemma on_cpu_lookup f s c :
  k_cpus s !! k_hart s = Some c -> k_cpus (on_cpu f s) !! k_hart s = Some (f c).
Proof. intros Hc. unfold on_cpu. cbn. by rewrite list_lookup_alter_eq, Hc. Qed.

Lemma mycpu_eq s e c :
  k_cpus s !! k_hart s = Some c -> mycpu (mkworld s e) = Ret c (mkworld s e).
Proof. intros Hc. unfold mycpu, cpuid, get, gets, bind, get_nth. cbn. by rewrite Hc. Qed.

Lemma upd_mycpu_eq f s e : upd_mycpu f (mkworld s e) = Ret tt (mkworld (on_cpu f s) e).
Proof. done. Qed.

Lemma intr_get_eq s e c :
  k_cpus s !! k_hart s = Some c -> intr_get (mkworld s e) = Ret (c_sie c) (mkworld s e).
Proof. intros Hc. unfold intr_get. by rewrite (bind_ret _ _ _ _ _ (mycpu_eq s e c Hc)). Qed.

Lemma push_off_eq s e c :
  cpu_ok s c -> push_off (mkworld s e) = Ret tt (mkworld (on_cpu push_cpu s) e).
Proof.
  intros (Hc & Hn & Hi). unfold push_off.
  rewrite (bind_ret _ _ _ _ _ (intr_get_eq s e c Hc)).
  unfold intr_off. rewrite (bind_ret _ _ _ _ _ (upd_mycpu_eq _ s e)).
  rewrite (bind_ret _ _ _ _ _ (mycpu_eq _ e _ (on_cpu_lookup _ s c Hc))). cbn.
  destruct (Z.eqb_spec (c_noff c) 0) as [H0 | H0];
    unfold bind; rewrite ?upd_mycpu_eq; cbn; rewrite ?upd_mycpu_eq, ?on_cpu_compose;
    (apply (ret_on_cpu _ _ _ _ c); [done |]);
    unfold push_cpu; cbn; rewrite s32_small by lia;
    destruct c; cbn in *; by rewrite ?H0, ?(proj2 (Z.eqb_neq _ _) H0).
Qed.

Lemma pop_off_eq s e c :
  k_cpus s !! k_hart s = Some c -> c_sie c = false -> 1 <= c_noff c < 2 ^ 31 ->
  pop_off (mkworld s e) = Ret tt (mkworld (on_cpu pop_cpu s) e).
Proof.
  intros Hc Hs Hn. unfold pop_off.
  rewrite (bind_ret _ _ _ _ _ (intr_get_eq s e c Hc)), Hs.
  rewrite (bind_ret _ _ _ _ _ (mycpu_eq s e c Hc)).
  rewrite (proj2 (Z.ltb_ge _ _)) by lia.
  rewrite (bind_ret _ _ _ _ _ (upd_mycpu_eq _ s e)).
  rewrite (bind_ret _ _ _ _ _ (mycpu_eq _ e _ (on_cpu_lookup _ s c Hc))). cbn.
  rewrite s32_small by lia.
  assert ((c_noff c - 1 =? 0) = (c_noff c =? 1)) as He
    by (destruct (Z.eqb_spec (c_noff c - 1) 0), (Z.eqb_spec (c_noff c) 1); lia).
  rewrite He. destruct ((c_noff c =? 1) && c_intena c) eqn:Hb; unfold intr_on, ret;
    rewrite ?upd_mycpu_eq, ?on_cpu_compose; (apply (ret_on_cpu _ _ _ _ c); [done |]);
    unfold pop_cpu; cbn; rewrite s32_small, Hb by lia; destruct c; cbn in *; by subst.
Qed.

Lemma pop_push_cpu c :
  0 <= c_noff c -> (0 < c_noff c -> c_sie c = false) -> pop_cpu (push_cpu c) = sync_cpu c.
Proof.
  intros Hn Hs. unfold pop_cpu, push_cpu, sync_cpu. cbn. f_equal; [lia |].
  destruct (Z.eqb_spec (c_noff c) 0) as [-> | H0]; cbn; [by destruct (c_sie c) |].
  rewrite Hs by lia. by rewrite (proj2 (Z.eqb_neq _ _)) by lia.
Qed.

(** [myproc()] leaves the machine as it found it, up to the recorded [intena]. *)
Lemma myproc_eq s e c :
  cpu_ok s c -> myproc (mkworld s e) = Ret (c_proc c) (mkworld (sync s) e).
Proof.
  intros Hok. pose proof Hok as (Hc & Hn & Hi). unfold myproc.
  rewrite (bind_ret _ _ _ _ _ (push_off_eq s e c Hok)).
  pose proof (on_cpu_lookup push_cpu s c Hc) as Hc'.
  rewrite (bind_ret _ _ _ _ _ (mycpu_eq _ e _ Hc')).
  erewrite bind_ret by (eapply pop_off_eq; [exact Hc' | done | cbn; lia]).
  unfold ret. rewrite on_cpu_compose.
  apply (ret_on_cpu _ _ _ _ c); [done |]. apply pop_push_cpu; [lia | done].
Qed.

Lemma cpu_ok_sync s c : cpu_ok s c -> cpu_ok (sync s) (sync_cpu c).
Proof.
  intros (Hc & Hn & Hi). split; [exact (on_cpu_lookup _ _ _ Hc) | done].
Qed.

Lemma sync_idem s : sync (sync s) = sync s.
Proof.
  unfold sync. rewrite on_cpu_compose. unfold on_cpu, upd. f_equal.
  apply list_alter_ext; [| done]. intros c _. unfold sync_cpu. cbn.
  by destruct (c_noff c =? 0).
Qed.

Lemma acquire_eq s e c lk :
  cpu_ok s c -> lk_locked (lock_of s lk) = false ->
  acquire lk (mkworld s e) = Ret tt (mkworld (lock_taken lk s) e).
Proof.
  intros Hok Hl. unfold acquire. rewrite (bind_ret _ _ _ _ _ (push_off_eq s e c Hok)).
  unfold holding, cpuid, get, gets, bind at 1 2, ret at 1. cbn.
  unfold lock_of in *. cbn. rewrite Hl. cbn.
  unfold test_and_set, set_lock, put, modify, get, gets, bind, ret, cpuid. cbn.
  unfold lock_of in *. cbn. rewrite Hl. cbn.
  unfold lock_taken, lock_of, on_cpu, upd. cbn. rewrite insert_insert_eq, lookup_insert_eq. done.
Qed.

(** Acquiring a lock this hart already holds panics. *)
Lemma acquire_panic s e c lk :
  cpu_ok s c -> lk_locked (lock_of s lk) = true -> lk_cpu (lock_of s lk) = Some (k_hart s) ->
  acquire lk (mkworld s e) = Panic "acquire".
Proof.
  intros Hok Hl Hcpu. unfold acquire. rewrite (bind_ret _ _ _ _ _ (push_off_eq s e c Hok)).
  unfold holding, cpuid, get, gets, bind, ret. cbn. unfold lock_of in *. cbn.
  by rewrite Hl, Hcpu, bool_decide_true.
Qed.

Lemma release_eq s e c lk :
  k_cpus s !! k_hart s = Some c -> c_sie c = false -> 1 <= c_noff c < 2 ^ 31 ->
  lock_mine s lk ->
  release lk (mkworld s e) = Ret tt (mkworld (lock_freed lk s) e).
Proof.
  intros Hc Hs Hn (l & Hlk & Hl & Hcpu).
  assert (lock_of s lk = l) as Hof by (unfold lock_of; by rewrite Hlk).
  unfold release, holding, cpuid, get, gets, bind at 1 2 3, ret. cbn.
  rewrite Hof, Hl, Hcpu, bool_decide_true by done. cbn.
  unfold set_lock, put, modify, bind. cbn.
  match goal with |- pop_off (?w1 <| w_k ::= ?f |>) = _ =>
    change (w1 <| w_k ::= f |>) with (mkworld (f (w_k w1)) (w_env w1)) end.
  erewrite pop_off_eq; [| exact Hc | done | done].
  f_equal. f_equal. unfold lock_freed, on_cpu, lock_of, upd. cbn.
  by rewrite lookup_insert_eq, insert_insert_eq, Hlk.
Qed.

Lemma release_panic s e lk :
  lk_locked (lock_of s lk) = false \/ lk_cpu (lock_of s lk) <> Some (k_hart s) ->
  release lk (mkworld s e) = Panic "release".
Proof.
  intros H. unfold release, holding, cpuid, get, gets, bind, ret. cbn.
  destruct (lk_locked (lock_of s lk)) eqn:Hl; cbn; [| done].
  destruct H as [H | H]; [done |]. by rewrite bool_decide_false.
Qed.

(** Releasing at the end of a critical section entered from [s] restores the
    locks and the nesting of [s]. *)
Lemma release_section s s2 e c lk :
  cpu_ok s c -> lock_free s lk ->
  k_hart s2 = k_hart s -> k_cpus s2 = k_cpus (lock_taken lk s) ->
  k_locks s2 = k_locks (lock_taken lk s) ->
  release lk (mkworld s2 e) =
    Ret tt (mkworld (s2 <| k_cpus := k_cpus (sync s) |> <| k_locks := k_locks s |>) e).
Proof.
  intros (Hc & Hn & Hi) (l & Hl & Hf & Hcpu) Hh Hcs Hls.
  assert (k_cpus s2 !! k_hart s2 = Some (push_cpu c)) as Hc2
    by (rewrite Hcs, Hh; exact (on_cpu_lookup push_cpu s c Hc)).
  rewrite (release_eq s2 e (push_cpu c)); [| done | done | cbn; lia |].
  - do 2 f_equal. unfold lock_freed, on_cpu, lock_of, upd. cbn.
    rewrite Hcs, Hls, Hh. cbn. unfold lock_of. rewrite lookup_insert_eq, insert_insert_eq. cbn.
    rewrite list_alter_alter_eq, Hl. cbn.
    destruct l as [lo na lc]; cbn in *; subst. rewrite insert_id by done. f_equal.
    apply list_alter_ext; [| done]. intros x Hx. simplify_eq. apply pop_push_cpu; [lia | done].
  - unfold lock_mine. rewrite Hh, Hls. cbn. rewrite lookup_insert_eq. by eexists.
Qed.

Lemma lock_free_of s lk : lock_free s lk -> lk_locked (lock_of s lk) = false.
Proof. intros (l & Hl & Hf & _). unfold lock_of. by rewrite Hl. Qed.

Lemma cpu_ok_taken s c lk :
  cpu_ok s c -> c_noff c < 2 ^ 31 - 2 -> cpu_ok (lock_taken lk s) (push_cpu c).
Proof.
  intros (Hc & Hn & Hi) Hb. split; [exact (on_cpu_lookup _ _ _ Hc) |].
  split; [cbn; lia | done].
Qed.

Lemma lock_free_taken s lk lk' : lk <> lk' -> lock_free s lk' -> lock_free (lock_taken lk s) lk'.
Proof. intros Hne (l & Hl & Hf). exists l. cbn. by rewrite lookup_insert_ne. Qed.

#[export] Hint Resolve lock_free_of cpu_ok_sync lock_free_taken : kern.

(** ** The lock protocol on several harts

    [acquire] and [release] as the sequence of memory operations each hart
    performs: the atomic swap, the store of [lk->cpu], the clear of [lk->cpu]
    and the releasing swap, interleaved arbitrarily. *)
Module SpinConc.
Inductive pc : Type :=
| Idle       (** outside the lock *)
| Spinning   (** in the test-and-set loop of [acquire] *)
| Swapped    (** the swap returned 0; [lk->cpu] not yet set *)
| Critical   (** [acquire] has returned *)
| Releasing. (** [release] has cleared [lk->cpu], not yet [lk->locked] *)

Record st : Type := mkst { locked : bool; owner : option nat; pcs : list pc }.

Definition held_by (s : st) (i : nat) : bool :=
  locked s && bool_decide (owner s = Some i).

Inductive step : st -> st -> Prop :=
| step_begin s i :
    pcs s !! i = Some Idle -> held_by s i = false ->
    step s (mkst (locked s) (owner s) (<[i := Spinning]> (pcs s)))
| step_spin s i :
    pcs s !! i = Some Spinning -> locked s = true -> step s s
| step_swap s i :
    pcs s !! i = Some Spinning -> locked s = false ->
    step s (mkst true (owner s) (<[i := Swapped]> (pcs s)))
| step_own s i :
    pcs s !! i = Some Swapped ->
    step s (mkst (locked s) (Some i) (<[i := Critical]> (pcs s)))
| step_disown s i :
    pcs s !! i = Some Critical -> held_by s i = true ->
    step s (mkst (locked s) None (<[i := Releasing]> (pcs s)))
| step_unlock s i :
    pcs s !! i = Some Releasing ->
    step s (mkst false (owner s) (<[i := Idle]> (pcs s))).

Inductive reachable (n : nat) : st -> Prop :=
| reach_init : reachable n (mkst false None (replicate n Idle))
| reach_step s s' : reachable n s -> step s s' -> reachable n s'.

Definition inside (p : pc) : Prop :=
  match p with Swapped | Critical | Releasing => True | _ => False end.

Definition inv (s : st) : Prop :=
  (forall i p, pcs s !! i = Some p -> inside p -> locked s = true) /\
  (forall i j p q, pcs s !! i = Some p -> pcs s !! j = Some q ->
     inside p -> inside q -> i = j) /\
  (forall i, owner s = Some i <-> pcs s !! i = Some Critical).

(** Looking up the program counter of a hart after a step of hart [i]. *)
Lemma pcs_insert (l : list pc) i j p q r :
  l !! i = Some r -> <[i := p]> l !! j = Some q ->
  (j = i /\ q = p) \/ (j <> i /\ l !! j = Some q).
Proof.
  intros Hi. rewrite list_lookup_insert. case_decide; [naive_solver |].
  intros Hj. destruct (decide (j = i)) as [-> |]; [| naive_solver].
  apply lookup_lt_Some in Hi. naive_solver.
Qed.

Lemma critical_insert (l : list pc) i j p r :
  l !! i = Some r ->
  <[i := p]> l !! j = Some Critical <->
    (j = i /\ p = Critical) \/ (j <> i /\ l !! j = Some Critical).
Proof.
  intros Hi. split.
  - intros Hj. destruct (pcs_insert _ _ _ _ _ _ Hi Hj) as [[-> <-] | ]; auto.
  - intros [[-> ->] | [Hne Hj]].
    + apply list_lookup_insert_eq. by eapply lookup_lt_Some.
    + by rewrite list_lookup_insert_ne by congruence.
Qed.

Ltac pc_cases :=
  repeat match goal with
  | Hi : ?l !! ?i = Some _, H : <[?i := _]> ?l !! _ = Some _ |- _ =>
      destruct (pcs_insert _ _ _ _ _ _ Hi H) as [[-> ->] | [? ?]]; clear H; simpl in *
  end.

(** Preservation of the three parts of the invariant by a move of hart [i]
    from [r] to [p]. *)
Lemma unique_insert s i p r :
  inv s -> pcs s !! i = Some r -> (inside p -> inside r \/ locked s = false) ->
  forall j k q q', <[i := p]> (pcs s) !! j = Some q -> <[i := p]> (pcs s) !! k = Some q' ->
    inside q -> inside q' -> j = k.
Proof.
  intros (Hl & Hu & _) Hi Hpr j k q q' Hj Hk Hq Hq'. pc_cases; [done | | | by eauto].
  - destruct (Hpr Hq') as [Hr | Hf]; [by eauto |]. by rewrite (Hl j q) in Hf.
  - destruct (Hpr Hq) as [Hr | Hf]; [by eauto |]. by rewrite (Hl k q') in Hf.
Qed.

Lemma inv_step s s' : inv s -> step s s' -> inv s'.
Proof.
  intros Hinv Hst. pose proof Hinv as (Hl & Hu & Ho).
  destruct Hst as [s i Hi Hh | s i Hi Hk | s i Hi Hk | s i Hi | s i Hi Hh | s i Hi];
    [| done | | | |]; (split; [| split]; simpl;
      [| eapply unique_insert; [done | exact Hi |]; simpl; tauto |]);
    try (intros j p Hj Hp; pc_cases; by eauto using I).
  - intros j. rewrite critical_insert by done. rewrite Ho. naive_solver.
  - intros j. rewrite critical_insert by done. rewrite Ho. naive_solver.
  - intros j. rewrite critical_insert by done. split; [naive_solver |].
    intros [[-> _] | [Hne Hj]]; [done |]. exfalso. apply Hne. by apply (Hu j i Critical Swapped).
  - intros j. rewrite critical_insert by done. split; [done |].
    intros [[_ ?] | [Hne Hj]]; [done |]. exfalso. apply Hne. by apply (Hu j i Critical Critical).
  - intros j p Hj Hp. pc_cases; [done |]. exfalso.
    match goal with H : j <> i |- _ => apply H end. by apply (Hu j i p Releasing).
  - intros j. rewrite critical_insert by done. rewrite Ho. naive_solver.
Qed.

Lemma inv_reachable n s : reachable n s -> inv s.
Proof.
  induction 1 as [| s s' _ IH Hst]; [| by eapply inv_step].
  split; [| split]; simpl.
  - intros i p [-> _]%lookup_replicate. done.
  - intros i j p q [-> _]%lookup_replicate. done.
  - intros i. rewrite lookup_replicate. naive_solver.
Qed.
(** C1: Mutual exclusion.  In every interleaving of any number of harts running
    [acquire] and [release] on one lock, two harts are never both inside the
    critical section, and while one is inside the lock is marked held by it. *)
Theorem mutual_exclusion n s i j :
  reachable n s -> pcs s !! i = Some Critical -> pcs s !! j = Some Critical ->
  i = j /\ locked s = true /\ owner s = Some i.
Proof.
  intros (Hl & Hu & Ho)%inv_reachable Hi Hj. split; [by apply (Hu i j Critical Critical) |].
  split; [by apply (Hl i Critical) | by apply Ho].
Qed.

(** Two harts compete; hart 1 wins while hart 0 spins. *)
Lemma mutual_exclusion_witness :
  let s := mkst true (Some 1%nat) [Spinning; Critical] in
  reachable 2 s /\ (1%nat = 1%nat /\ locked s = true /\ owner s = Some 1%nat).
Proof.
  intros s. assert (reachable 2 s) as Hr.
  { apply (reach_step 2 (mkst true None [Spinning; Swapped])).
    2:{ apply (step_own (mkst true None [Spinning; Swapped]) 1). reflexivity. }
    apply (reach_step 2 (mkst false None [Spinning; Spinning])).
    2:{ apply (step_swap (mkst false None [Spinning; Spinning]) 1); reflexivity. }
    apply (reach_step 2 (mkst false None [Spinning; Idle])).
    2:{ apply (step_begin (mkst false None [Spinning; Idle]) 1); reflexivity. }
    apply (reach_step 2 (mkst false None [Idle; Idle])).
    2:{ apply (step_begin (mkst false None [Idle; Idle]) 0); reflexivity. }
    exact (reach_init 2). }
  split; [exact Hr |]. apply (mutual_exclusion 2 s 1 1 Hr); reflexivity.
Defined.
End SpinConc.
