(* ===== verification/Mem.v ===== *)
(** * Physical memory and the page-table constants

    The macros of [kernel/riscv.h] and [kernel/memlayout.h] the kernel code
    uses, the symbols the linker provides, and access to physical memory.  The
    kernel maps physical memory at its own address, so a kernel pointer into
    RAM is a physical address.  A page is 512 little-endian 64-bit words. *)
From S2P Require Import Prelude Kstate.
Local Open Scope Z_scope.

(** ** Constants ([kernel/riscv.h]) *)
Definition PGSIZE : Z := 4096.
Definition PGSHIFT : Z := 12.
Definition PGROUNDUP (sz : Z) : Z := Z.land (u64 (sz + PGSIZE - 1)) (Z.lnot (PGSIZE - 1)).
Definition PGROUNDDOWN (a : Z) : Z := Z.land a (Z.lnot (PGSIZE - 1)).

Definition PTE_V : Z := Z.shiftl 1 0.
Definition PTE_R : Z := Z.shiftl 1 1.
Definition PTE_W : Z := Z.shiftl 1 2.
Definition PTE_X : Z := Z.shiftl 1 3.
Definition PTE_U : Z := Z.shiftl 1 4.

Definition PA2PTE (pa : Z) : Z := u64 (Z.shiftl (Z.shiftr pa 12) 10).
Definition PTE2PA (pte : Z) : Z := u64 (Z.shiftl (Z.shiftr pte 10) 12).
Definition PTE_FLAGS (pte : Z) : Z := Z.land pte 0x3FF.

Definition PXMASK : Z := 0x1FF.
Definition PXSHIFT (level : Z) : Z := PGSHIFT + 9 * level.
Definition PX (level va : Z) : Z := Z.land (Z.shiftr va (PXSHIFT level)) PXMASK.

Definition MAXVA : Z := Z.shiftl 1 (9 + 9 + 9 + 12 - 1).
Definition SATP_SV39 : Z := Z.shiftl 8 60.
Definition MAKE_SATP (pagetable : Z) : Z := Z.lor SATP_SV39 (Z.shiftr pagetable 12).

(** ** Memory layout ([kernel/memlayout.h]) *)
Definition UART0 : Z := 0x10000000.
Definition UART0_IRQ : Z := 10.
Definition VIRTIO0 : Z := 0x10001000.
Definition VIRTIO0_IRQ : Z := 1.
Definition PLIC : Z := 0x0c000000.
Definition KERNBASE : Z := 0x80000000.
Definition PHYSTOP : Z := KERNBASE + 128 * 1024 * 1024.
Definition TRAMPOLINE : Z := MAXVA - PGSIZE.
Definition KSTACK (p : Z) : Z := TRAMPOLINE - (p + 1) * 2 * PGSIZE.
Definition TRAPFRAME : Z := TRAMPOLINE - PGSIZE.

(** ** Link-time symbols

    Addresses fixed when the kernel is linked ([kernel/kernel.ld], [trampoline.S],
    [kernelvec.S]); the code relies only on [end] and [etext] lying in RAM above
    the kernel's load address. *)
Class Image : Type := {
  kend : Z;
  etext : Z;
  trampoline : Z;
  uservec : Z;
  userret : Z;
  kernelvec : Z;
  usertrap_addr : Z;
  forkret_addr : Z;
  etext_aligned : etext mod PGSIZE = 0;
  etext_range : KERNBASE < etext;
  kend_range : etext <= kend <= PHYSTOP;
  trampoline_range : KERNBASE <= trampoline /\ trampoline + PGSIZE <= etext
}.

(** ** Words and bytes of memory *)
Definition page_base (a : Z) : Z := a - a mod PGSIZE.
Definition word_index (a : Z) : nat := Z.to_nat (a mod PGSIZE / 8).

(** The 64-bit word at the 8-byte aligned address [a]. *)
Definition mem_word (m : gmap Z (list Z)) (a : Z) : option Z :=
  m !! page_base a ≫= (fun pg => pg !! word_index a).
Definition mem_set_word (m : gmap Z (list Z)) (a v : Z) : gmap Z (list Z) :=
  alter (fun pg => <[word_index a := v]> pg) (page_base a) m.

Definition byte_shift (a : Z) : Z := 8 * (a mod 8).
Definition mem_byte (m : gmap Z (list Z)) (a : Z) : option Z :=
  (fun w => Z.land (Z.shiftr w (byte_shift a)) 255) <$> mem_word m (a - a mod 8).
Definition word_set_byte (w a v : Z) : Z :=
  Z.lor (Z.land w (Z.lnot (Z.shiftl 255 (byte_shift a)))) (Z.shiftl (u8 v) (byte_shift a)).
Definition mem_set_byte (m : gmap Z (list Z)) (a v : Z) : gmap Z (list Z) :=
  match mem_word m (a - a mod 8) with
  | Some w => mem_set_word m (a - a mod 8) (word_set_byte w a v)
  | None => m
  end.

(** A page every byte of which is [c]. *)
Definition fill_page (c : Z) : list Z := replicate 512 (u8 c * 0x0101010101010101).

#[global] Arguments fill_page _ : simpl never.
#[global] Arguments mem_word _ _ : simpl never.
#[global] Arguments mem_set_word _ _ _ : simpl never.

Definition read_word (a : Z) : K Z := fun w =>
  match mem_word (k_mem (w_k w)) a with
  | Some v => Ret v w
  | None => Panic "kerneltrap"
  end.
Definition write_word (a v : Z) : K unit := fun w =>
  match mem_word (k_mem (w_k w)) a with
  | Some _ => Ret tt (w <| w_k ::= fun s => s <| k_mem ::= fun m => mem_set_word m a v |> |>)
  | None => Panic "kerneltrap"
  end.
Definition read_byte (a : Z) : K Z := fun w =>
  match mem_byte (k_mem (w_k w)) a with
  | Some v => Ret v w
  | None => Panic "kerneltrap"
  end.
Definition write_byte (a v : Z) : K unit := fun w =>
  match mem_byte (k_mem (w_k w)) a with
  | Some _ => Ret tt (w <| w_k ::= fun s => s <| k_mem ::= fun m => mem_set_byte m a v |> |>)
  | None => Panic "kerneltrap"
  end.

(** [memset(pa, c, PGSIZE)] on a page of RAM. *)
Definition memset_page (pa c : Z) : K unit :=
  put (fun s => s <| k_mem ::= <[pa := fill_page c]> |>).
(** [memmove(dst, src, PGSIZE)] between two pages of RAM. *)
Definition memmove_page (dst src : Z) : K unit :=
  let! pg := (fun w => match k_mem (w_k w) !! src with
                       | Some pg => Ret pg w
                       | None => Panic "kerneltrap"
                       end) in
  put (fun s => s <| k_mem ::= <[dst := pg]> |>).

Lemma read_word_eq s e a v :
  mem_word (k_mem s) a = Some v -> read_word a (mkworld s e) = Ret v (mkworld s e).
Proof. intros Hv. unfold read_word. cbn. by rewrite Hv. Qed.

Lemma write_word_eq s e a v :
  is_Some (mem_word (k_mem s) a) ->
  write_word a v (mkworld s e) =
    Ret tt (mkworld (s <| k_mem ::= fun m => mem_set_word m a v |>) e).
Proof. intros [w Hv]. unfold write_word. cbn. by rewrite Hv. Qed.

Lemma read_byte_eq s e a v :
  mem_byte (k_mem s) a = Some v -> read_byte a (mkworld s e) = Ret v (mkworld s e).
Proof. intros Hv. unfold read_byte. cbn. by rewrite Hv. Qed.

Lemma write_byte_eq s e a v :
  is_Some (mem_byte (k_mem s) a) ->
  write_byte a v (mkworld s e) =
    Ret tt (mkworld (s <| k_mem ::= fun m => mem_set_byte m a v |>) e).
Proof. intros [w Hv]. unfold write_byte. cbn. by rewrite Hv. Qed.

(** ** Rounding *)
Lemma PGROUNDDOWN_eq a : PGROUNDDOWN a = a - a mod PGSIZE.
Proof.
  unfold PGROUNDDOWN. rewrite <- Z.ldiff_land. change (PGSIZE - 1) with (Z.ones 12).
  rewrite Z.ldiff_ones_r by lia. rewrite Z.shiftl_mul_pow2, Z.shiftr_div_pow2 by lia.
  change (2 ^ 12) with PGSIZE. pose proof (Z.div_mod a PGSIZE ltac:(done)). lia.
Qed.

Lemma PGROUNDUP_eq a :
  0 <= a < 2 ^ 64 - PGSIZE -> PGROUNDUP a = (a + PGSIZE - 1) / PGSIZE * PGSIZE.
Proof.
  intros Ha. unfold PGROUNDUP. fold (PGROUNDDOWN (u64 (a + PGSIZE - 1))).
  rewrite PGROUNDDOWN_eq, u64_small by (unfold PGSIZE in *; lia).
  pose proof (Z.div_mod (a + PGSIZE - 1) PGSIZE ltac:(done)). lia.
Qed.

Lemma PGROUNDUP_bounds a :
  0 <= a < 2 ^ 64 - PGSIZE -> a <= PGROUNDUP a < a + PGSIZE /\ PGROUNDUP a mod PGSIZE = 0.
Proof.
  intros Ha. rewrite PGROUNDUP_eq by done. split; [| by apply Z.mod_mul].
  pose proof (Z.div_mod (a + PGSIZE - 1) PGSIZE ltac:(done)).
  pose proof (Z.mod_pos_bound (a + PGSIZE - 1) PGSIZE ltac:(done)). unfold PGSIZE in *. lia.
Qed.

Lemma PGROUNDUP_aligned a :
  0 <= a < 2 ^ 64 - PGSIZE -> a mod PGSIZE = 0 -> PGROUNDUP a = a.
Proof.
  intros Ha Hm. destruct (PGROUNDUP_bounds a Ha) as [Hb Hm'].
  apply Z.mod_divide in Hm as [k ->]; [| done]. apply Z.mod_divide in Hm' as [k' Hk']; [| done].
  rewrite Hk' in *. unfold PGSIZE in *. lia.
Qed.

Lemma page_base_aligned a : a mod PGSIZE = 0 -> page_base a = a.
Proof. unfold page_base. lia. Qed.

Lemma word_index_aligned a : a mod PGSIZE = 0 -> word_index a = 0%nat.
Proof. unfold word_index. by intros ->. Qed.

(** ** Page-table entries *)
Lemma PA2PTE_eq pa : 0 <= pa < 2 ^ 56 -> pa mod PGSIZE = 0 -> PA2PTE pa = pa / 4096 * 1024.
Proof.
  intros Hr Ha. unfold PA2PTE. rewrite Z.shiftl_mul_pow2, Z.shiftr_div_pow2 by lia.
  change (2 ^ 12) with 4096. change (2 ^ 10) with 1024. apply u64_small.
  assert (pa / 4096 < 2 ^ 44) by (apply Z.div_lt_upper_bound; lia).
  pose proof (Z.div_pos pa 4096). lia.
Qed.

Lemma pte_value pa f :
  0 <= pa < 2 ^ 56 -> pa mod PGSIZE = 0 -> 0 <= f < 1024 ->
  Z.lor (PA2PTE pa) f = pa / 4096 * 1024 + f.
Proof.
  intros Hr Ha Hf. rewrite PA2PTE_eq by done. apply (lor_fields _ _ 10); [lia | | lia].
  change (2 ^ 10) with 1024. apply Z.mod_mul. lia.
Qed.

(** Packing a page address and flags into a PTE loses neither. *)
Lemma pte_roundtrip pa f :
  0 <= pa < 2 ^ 56 -> pa mod PGSIZE = 0 -> 0 <= f < 1024 ->
  PTE2PA (Z.lor (PA2PTE pa) f) = pa /\ PTE_FLAGS (Z.lor (PA2PTE pa) f) = f.
Proof.
  intros Hr Ha Hf. rewrite (pte_value pa f) by done. split.
  - unfold PTE2PA. rewrite Z.shiftl_mul_pow2, Z.shiftr_div_pow2 by lia.
    change (2 ^ 10) with 1024. change (2 ^ 12) with 4096.
    rewrite Z.div_add_l, (Z.div_small f), Z.add_0_r by lia.
    apply Z.mod_divide in Ha as [k ->]; [| done]. unfold PGSIZE in *.
    rewrite Z.div_mul by lia. apply u64_small. lia.
  - unfold PTE_FLAGS. change 0x3FF with (Z.ones 10). rewrite Z.land_ones by lia.
    change (2 ^ 10) with 1024. by rewrite Z.add_comm, Z_mod_plus_full, Z.mod_small by lia.
Qed.

Lemma pte_bit pa f n :
  0 <= pa < 2 ^ 56 -> pa mod PGSIZE = 0 -> 0 <= f < 1024 -> 0 <= n < 10 ->
  Z.testbit (Z.lor (PA2PTE pa) f) n = Z.testbit f n.
Proof.
  intros Hr Ha Hf Hn. rewrite Z.lor_spec.
  rewrite (testbit_below (PA2PTE pa) 10 n); [done | lia |].
  rewrite PA2PTE_eq by done. change (2 ^ 10) with 1024. apply Z.mod_mul. lia.
Qed.

Lemma land_bit v n : 0 <= n -> istrue (Z.land v (Z.shiftl 1 n)) = Z.testbit v n.
Proof.
  intros Hn. rewrite Z.shiftl_1_l. destruct (Z.testbit v n) eqn:Hb.
  - apply istrue_true. intros H0. assert (Z.testbit (Z.land v (2 ^ n)) n = false) as Hf
      by (rewrite H0; apply Z.bits_0).
    by rewrite Z.land_spec, Hb, Z.pow2_bits_true in Hf by lia.
  - apply istrue_false. apply Z.bits_inj'. intros i Hi. rewrite Z.land_spec, Z.bits_0.
    destruct (Z.eq_dec i n) as [-> | Hne]; [by rewrite Hb |].
    rewrite Z.pow2_bits_false by lia. apply andb_false_r.
Qed.

Lemma valid_testbit v : istrue (Z.land v PTE_V) = Z.testbit v 0.
Proof. by apply land_bit. Qed.
Lemma invalid_testbit v : (Z.land v PTE_V =? 0) = negb (Z.testbit v 0).
Proof. rewrite <- valid_testbit. unfold istrue. by rewrite negb_involutive. Qed.

Lemma PX_range level va : 0 <= PX level va < 512.
Proof.
  unfold PX. change PXMASK with (Z.ones 9). rewrite Z.land_ones by lia.
  change 512 with (2 ^ 9). apply Z.mod_pos_bound. lia.
Qed.

Lemma PX_eq level va : 0 <= level -> PX level va = va / 2 ^ (12 + 9 * level) mod 512.
Proof.
  intros Hl. unfold PX, PXSHIFT, PGSHIFT. change PXMASK with (Z.ones 9).
  by rewrite Z.land_ones, Z.shiftr_div_pow2 by lia.
Qed.

(** The three indices and the page offset determine a virtual address. *)
Lemma PX_inj va va' :
  0 <= va < MAXVA -> 0 <= va' < MAXVA ->
  PX 2 va = PX 2 va' -> PX 1 va = PX 1 va' -> PX 0 va = PX 0 va' ->
  va / PGSIZE = va' / PGSIZE.
Proof.
  intros Hva Hva'. rewrite !PX_eq by lia.
  change (2 ^ (12 + 9 * 2)) with 1073741824. change (2 ^ (12 + 9 * 1)) with 2097152.
  change (2 ^ (12 + 9 * 0)) with 4096. change MAXVA with 274877906944 in *.
  unfold PGSIZE. intros H2 H1 H0.
  rewrite (Z.mod_small (va / 1073741824)), (Z.mod_small (va' / 1073741824)) in H2
    by (split; [apply Z.div_pos; lia | apply Z.div_lt_upper_bound; lia]).
  Z.div_mod_to_equations. lia.
Qed.

(** The address of entry [i] of the table at [p]. *)
Lemma page_base_entry p i :
  p mod PGSIZE = 0 -> 0 <= i < 512 -> page_base (p + 8 * i) = p /\ word_index (p + 8 * i) = Z.to_nat i.
Proof.
  intros Hp Hi. unfold page_base, word_index, PGSIZE in *.
  assert ((p + 8 * i) mod 4096 = 8 * i) as ->.
  { rewrite <- Zplus_mod_idemp_l, Hp. apply Z.mod_small. lia. }
  split; [lia |]. by rewrite Z.mul_comm, Z.div_mul by lia.
Qed.
