(* ===== verification/Sample.v ===== *)
(** * A concrete machine

    A linked image and a small kernel state the examples of the other files
    evaluate on: two harts, process 3 running on hart 0, every lock initialised
    and free, ten free pages above the kernel. *)
From S2P Require Import Prelude Kstate Spinlock Mem.
Local Open Scope Z_scope.

#[export] Instance sample_image : Image.
Proof.
  refine {| kend := 0x80020000; etext := 0x80008000; trampoline := 0x80007000;
            uservec := 0x80007000; userret := 0x8000709c; kernelvec := 0x80005000;
            usertrap_addr := 0x80002000; forkret_addr := 0x80001000 |}; by vm_compute.
Defined.

Definition free_lock : spinlock := mkspinlock false "lock" None.
Definition sample_lockids : list lockid :=
  [LkKmem; LkPid; LkWait; LkTicks; LkSem; LkFtable; LkItable; LkBcache; LkLog; LkCons; LkTx; LkPr;
   LkDisk; LkPipe 0x87ffe000] ++
  (LkProc <$> seq 0 NPROC) ++ (LkUser <$> seq 0 MAX_LOCKS) ++
  ((fun i => LkSleep (SlBuf i)) <$> seq 0 NBUF) ++ ((fun i => LkSleep (SlInode i)) <$> seq 0 NINODE).
Definition sample_locks : gmap lockid spinlock :=
  list_to_map ((fun l => (l, free_lock)) <$> sample_lockids).

Definition zero_context : context := mkcontext 0 0 (replicate 12 0).
Definition zero_proc : proc :=
  mkproc UNUSED None 0 0 0 None 0 0 0 0 zero_context (replicate NOFILE None) None (replicate 16 0)
    (replicate 32 0) 0 (replicate 36 0) 0 (replicate 64 0) 0.

(** Process 3, pid 7, is running; its trapframe is the page at 0x80100000. *)
Definition sample_proc : proc :=
  zero_proc <| p_state := RUNNING |> <| p_pid := 7 |> <| p_sz := 0x1000 |>
    <| p_trapframe := 0x80100000 |> <| p_name := [115; 104] ++ replicate 14 0 |>.
(** Process 5, pid 9, sleeps on the semaphore. *)
Definition sample_sleeper : proc :=
  zero_proc <| p_state := SLEEPING |> <| p_pid := 9 |> <| p_chan := Some ChSem |>.
Definition sample_procs : list proc :=
  <[5%nat := sample_sleeper]> (<[3%nat := sample_proc]> (replicate NPROC zero_proc)).

Definition sample_cpus : list cpu :=
  mkcpu (Some 3%nat) 0 false true :: replicate 7 (mkcpu None 0 false false).

(** Ten free pages, the last freed first, and the trapframe page. *)
Definition sample_free : list Z := (fun i => 0x80020000 + 4096 * Z.of_nat i) <$> seq 0 10.
Definition free_page_words (next : Z) : list Z := next :: replicate 511 0x0101010101010101.
Definition sample_mem : gmap Z (list Z) :=
  <[0x80100000 := replicate 512 0]>
  (list_to_map (imap (fun i p => (p, free_page_words (default 0 (sample_free !! S i)))) sample_free)).

Definition zero_file : file := mkfile FD_NONE 0 0 0 0 None 0 0.
Definition zero_inode : inode := mkinode 0 0 0 0 0 0 0 0 0 (replicate 13 0).
(** The buffer list after [binit]: the last buffer is the most recent. *)
Definition sample_bufs : list buf :=
  ((fun i => mkbuf 0 0 0 0 0 (if Nat.eqb i 29 then 30 else S i)%nat (if Nat.eqb i 0 then 30 else i - 1)%nat
                (replicate 1024 0)) <$> seq 0 NBUF)
  ++ [mkbuf 0 0 0 0 0 0 29 []].

Definition sample : kstate :=
  mkkstate 0 sample_cpus (mkcsr 0 0 false false 0 0 0 0 0) sample_locks
    (list_to_map ((fun l => (l, mksleeplock false "sleep" 0)) <$>
       ((SlBuf <$> seq 0 NBUF) ++ (SlInode <$> seq 0 NINODE))))
    sample_mem 0x80020000 0 sample_procs 10 (Some 1%nat) 0 100 1 (replicate MAX_LOCKS 0)
    (replicate NFILE zero_file) ∅ (replicate NINODE zero_inode) sample_bufs
    (mklog 2 0 0 1 0 (replicate 30 0)) (mksuperblock 0x10203040 2000 1954 200 31 2 33 46)
    ∅ (mkvdisk (replicate 8 (mkvirtq_desc VNull 0 0 0)) (replicate 8 0) 0 (replicate 8 0) 0
         (replicate 8 1) 0 (replicate 8 None) (replicate 8 0) (replicate 8 (mkvirtio_blk_req 0 0 0)))
    (mkcons (replicate 128 0) 0 0 0) (mkuart 0 [] [] true) 0 0 0 [] (replicate 64 0) [] 1.

(** ** What the examples use of it *)
Definition sample_cpu : cpu := mkcpu (Some 3%nat) 0 false true.

Lemma sample_cpu_ok : cpu_ok sample sample_cpu.
Proof. by vm_compute. Defined.

Definition lock_free_b (s : kstate) (lk : lockid) : bool :=
  match k_locks s !! lk with
  | Some l => negb (lk_locked l) && bool_decide (lk_cpu l = None)
  | None => false
  end.
Lemma lock_free_dec s lk : lock_free_b s lk = true -> lock_free s lk.
Proof.
  unfold lock_free_b, lock_free. destruct (k_locks s !! lk) as [l |]; [| done].
  intros [Hl Hc]%andb_true_iff. exists l. split; [done |].
  apply bool_decide_eq_true in Hc. by destruct (lk_locked l).
Defined.
