(* ===== verification/Kalloc.v ===== *)
(** * The physical page allocator ([kernel/kalloc.c])

    The free list is threaded through the first word of each free page, as
    [struct run] is; [free_chain] relates it to the list of free pages, and
    [kalloc]/[kfree] are a stack on that list. *)
From S2P Require Import Prelude Kstate Spinlock Mem Sample.
Local Open Scope Z_scope.

Section kalloc.
Context `{Image}.

(** ** The code *)
Definition kfree (pa : Z) : K unit :=
  if negb (pa mod PGSIZE =? 0) || (pa <? kend) || (PHYSTOP <=? pa) then panic "kfree" else
  memset_page pa 1 ;;;
  acquire LkKmem ;;;
  let! fl := get k_freelist in
  write_word pa fl ;;;
  put (fun s => s <| k_freelist := pa |>) ;;;
  release LkKmem.

Definition kalloc : K Z :=
  acquire LkKmem ;;;
  let! r := get k_freelist in
  (if istrue r then
     let! nx := read_word r in
     put (fun s => s <| k_freelist := nx |>)
   else ret tt) ;;;
  release LkKmem ;;;
  (if istrue r then memset_page r 5 else ret tt) ;;;
  ret r.

(** [for(; p + PGSIZE <= pa_end; p += PGSIZE) kfree(p)]; the loop runs
    [(pa_end - p) / PGSIZE] times. *)
Fixpoint freerange_loop (fuel : nat) (p pa_end : Z) : K unit :=
  match fuel with
  | O => ret tt
  | S n =>
      if p + PGSIZE <=? pa_end then kfree p ;;; freerange_loop n (p + PGSIZE) pa_end
      else ret tt
  end.
Definition freerange (pa_start pa_end : Z) : K unit :=
  let p := PGROUNDUP pa_start in
  freerange_loop (Z.to_nat ((pa_end - p) / PGSIZE)) p pa_end.

Definition kinit : K unit :=
  initlock LkKmem "kmem" ;;;
  freerange kend PHYSTOP.

(** ** The free list *)

(** A page the allocator hands out: aligned, above the kernel, below [PHYSTOP]. *)
Definition alloc_page (pa : Z) : Prop := pa mod PGSIZE = 0 /\ kend <= pa < PHYSTOP.

Fixpoint free_chain (m : gmap Z (list Z)) (head : Z) (l : list Z) : Prop :=
  match l with
  | [] => head = 0
  | p :: r => head = p /\ alloc_page p /\
              exists nx, mem_word m p = Some nx /\ free_chain m nx r
  end.

(** [s]'s free list holds exactly the pages [l], without repetition. *)
Definition free_pages (s : kstate) (l : list Z) : Prop :=
  free_chain (k_mem s) (k_freelist s) l /\ NoDup l.

Lemma alloc_page_pos pa : alloc_page pa -> pa <> 0.
Proof.
  intros [_ Hr]. pose proof kend_range. pose proof etext_range. unfold KERNBASE in *. lia.
Qed.

Lemma free_chain_head m h l : free_chain m h l -> h = hd 0 l.
Proof. destruct l; simpl; [done | by intros [-> _]]. Qed.

Lemma free_chain_alloc m h l : free_chain m h l -> Forall alloc_page l.
Proof.
  revert h. induction l as [| p r IH]; intros h; simpl; [done |].
  intros (-> & Hp & nx & _ & Hr). constructor; [done | by eapply IH].
Qed.

Lemma mem_word_insert_ne m p pg a :
  page_base a <> p -> mem_word (<[p := pg]> m) a = mem_word m a.
Proof. intros Hne. unfold mem_word. by rewrite lookup_insert_ne by congruence. Qed.

(** Writing a page outside the list leaves the list alone. *)
Lemma free_chain_insert m h l p pg :
  free_chain m h l -> p ∉ l -> free_chain (<[p := pg]> m) h l.
Proof.
  revert h. induction l as [| q r IH]; intros h; simpl; [done |].
  intros (-> & Hq & nx & Hw & Hr) [Hne Hnin]%not_elem_of_cons.
  repeat split; [apply Hq .. |]. exists nx. split; [| auto].
  rewrite mem_word_insert_ne; [done |].
  rewrite page_base_aligned by apply Hq. congruence.
Qed.

Lemma mem_word_fill m p c : p mod PGSIZE = 0 ->
  mem_word (<[p := fill_page c]> m) p = Some (u8 c * 0x0101010101010101).
Proof.
  intros Hp. unfold mem_word. rewrite page_base_aligned, word_index_aligned by done.
  rewrite lookup_insert_eq. done.
Qed.

(** ** Exact behaviour *)

Lemma kalloc_some_eq s e c p nx :
  cpu_ok s c -> lock_free s LkKmem ->
  k_freelist s = p -> p <> 0 -> mem_word (k_mem s) p = Some nx ->
  kalloc (mkworld s e) =
    Ret p (mkworld ((sync s) <| k_freelist := nx |> <| k_mem ::= <[p := fill_page 5]> |>) e).
Proof.
  intros Hc Hl Hfl Hp Hw. unfold kalloc.
  kcall (acquire_eq s e c LkKmem). krun. cbn [k_freelist].
  change (k_freelist (lock_taken LkKmem s)) with (k_freelist s). rewrite Hfl.
  rewrite (proj2 (istrue_true p) Hp). krun.
  kcall (read_word_eq (lock_taken LkKmem s) e p nx). krun.
  kcall (release_section s _ e c LkKmem). done.
Qed.

Lemma kalloc_none_eq s e c :
  cpu_ok s c -> lock_free s LkKmem -> k_freelist s = 0 ->
  kalloc (mkworld s e) = Ret 0 (mkworld (sync s) e).
Proof.
  intros Hc Hl Hfl. unfold kalloc.
  kcall (acquire_eq s e c LkKmem). krun.
  change (k_freelist (lock_taken LkKmem s)) with (k_freelist s). rewrite Hfl.
  change (istrue 0) with false. krun.
  kcall (release_section s _ e c LkKmem). done.
Qed.

Lemma kfree_eq s e c pa :
  cpu_ok s c -> lock_free s LkKmem -> alloc_page pa ->
  kfree pa (mkworld s e) =
    Ret tt (mkworld ((sync s)
      <| k_mem ::= fun m => mem_set_word (<[pa := fill_page 1]> m) pa (k_freelist s) |>
      <| k_freelist := pa |>) e).
Proof.
  intros Hc Hl [Ha [Hlo Hhi]]. unfold kfree.
  rewrite Ha, (proj2 (Z.ltb_ge pa kend) Hlo), (proj2 (Z.leb_gt PHYSTOP pa) Hhi). cbn [Z.eqb negb orb].
  unfold memset_page. krun.
  set (s1 := s <| k_mem ::= <[pa := fill_page 1]> |>).
  kcall (acquire_eq s1 e c LkKmem). krun.
  kcall (write_word_eq (lock_taken LkKmem s1) e pa (k_freelist s)).
  { eexists. exact (mem_word_fill (k_mem s) pa 1 Ha). } krun.
  rewrite (release_section s1 _ e c LkKmem); [| done ..]. done.
Qed.

(** ** The allocator as a stack of pages *)

Lemma mem_word_set_eq m p v pg :
  p mod PGSIZE = 0 -> m !! p = Some pg -> pg <> [] -> mem_word (mem_set_word m p v) p = Some v.
Proof.
  intros Hp Hm Hne. unfold mem_word, mem_set_word.
  rewrite page_base_aligned, word_index_aligned by done.
  rewrite lookup_alter_eq, Hm. cbn. rewrite list_lookup_insert_eq; [done |].
  destruct pg; [done | simpl; lia].
Qed.

Lemma mem_set_word_insert m p pg v :
  p mod PGSIZE = 0 -> mem_set_word (<[p := pg]> m) p v = <[p := <[0%nat := v]> pg]> m.
Proof.
  intros Hp. unfold mem_set_word. rewrite page_base_aligned, word_index_aligned by done.
  by rewrite alter_insert_eq.
Qed.

(** [kalloc] pops the first free page, fills it with 5s and touches no other. *)
Lemma kalloc_pop s e c p l :
  cpu_ok s c -> lock_free s LkKmem -> free_pages s (p :: l) ->
  exists s', kalloc (mkworld s e) = Ret p (mkworld s' e) /\
    free_pages s' l /\ k_mem s' = <[p := fill_page 5]> (k_mem s) /\
    s' = (sync s) <| k_freelist := hd 0 l |> <| k_mem ::= <[p := fill_page 5]> |>.
Proof.
  intros Hc Hl [(Hp & Ha & nx & Hw & Hch) [Hnin Hnd]%NoDup_cons].
  eexists. split; [apply (kalloc_some_eq s e c p nx); try done; by apply alloc_page_pos |].
  rewrite <- (free_chain_head _ _ _ Hch). split; [| done].
  split; [| done]. cbn. by apply free_chain_insert.
Qed.

Lemma kalloc_empty s e c :
  cpu_ok s c -> lock_free s LkKmem -> free_pages s [] ->
  kalloc (mkworld s e) = Ret 0 (mkworld (sync s) e).
Proof. intros Hc Hl [Hf _]. by apply (kalloc_none_eq s e c). Qed.

(** [kfree] pushes the page. *)
Lemma kfree_push s e c pa l :
  cpu_ok s c -> lock_free s LkKmem -> free_pages s l -> alloc_page pa -> pa ∉ l ->
  exists s', kfree pa (mkworld s e) = Ret tt (mkworld s' e) /\
    free_pages s' (pa :: l) /\
    k_mem s' = <[pa := <[0%nat := k_freelist s]> (fill_page 1)]> (k_mem s) /\
    s' = (sync s) <| k_mem := k_mem s' |> <| k_freelist := pa |>.
Proof.
  intros Hc Hl [Hch Hnd] Ha Hnin. eexists. split; [by apply (kfree_eq s e c) |]. cbn.
  rewrite mem_set_word_insert by apply Ha.
  split; [| split; [done |]; unfold upd; cbn; by rewrite mem_set_word_insert by apply Ha].
  split; [| by apply NoDup_cons]. cbn. rewrite mem_set_word_insert by apply Ha.
  split; [done |]. split; [done |].
  exists (k_freelist s). split; [| by apply free_chain_insert].
  unfold mem_word. rewrite page_base_aligned, word_index_aligned by apply Ha.
  by rewrite lookup_insert_eq.
Qed.

(** The guard of [kfree]. *)
Lemma kfree_bad pa w : ~ alloc_page pa -> kfree pa w = Panic "kfree".
Proof.
  intros Hn. unfold kfree.
  destruct (Z.eqb_spec (pa mod PGSIZE) 0); [| done].
  destruct (Z.ltb_spec pa kend); [done |].
  destruct (Z.leb_spec PHYSTOP pa); [done |]. exfalso. apply Hn. split; [done | lia].
Qed.

(** ** Initialisation *)

(** The pages [kinit] frees, last freed first. *)
Fixpoint pages_down (n : nat) (p : Z) : list Z :=
  match n with
  | O => []
  | S n' => pages_down n' (p + PGSIZE) ++ [p]
  end.

Lemma freerange_loop_ok n : forall p s e c l pa_end,
  cpu_ok s c -> lock_free s LkKmem -> free_pages s l ->
  p mod PGSIZE = 0 -> kend <= p -> p + Z.of_nat n * PGSIZE <= pa_end -> pa_end <= PHYSTOP ->
  (forall q, q ∈ l -> q < p) ->
  exists s', freerange_loop n p pa_end (mkworld s e) = Ret tt (mkworld s' e) /\
    free_pages s' (pages_down n p ++ l).
Proof.
  induction n as [| n IH]; intros p s e c l pa_end Hc Hl Hf Hp Hk Hn He Hlt; simpl.
  { exists s. done. }
  unfold PGSIZE in *. rewrite (proj2 (Z.leb_le _ _)) by lia.
  destruct (kfree_push s e c p l) as (s1 & Hs1 & Hf1 & Hm1 & Hst); try done.
  { split; [done | lia]. } { intros Hin%Hlt. lia. }
  rewrite (bind_ret _ _ _ _ _ Hs1).
  destruct (IH (p + 4096) s1 e (sync_cpu c) (p :: l) pa_end) as (s' & Hs' & Hf').
  - rewrite Hst. apply (cpu_ok_sync s c Hc).
  - rewrite Hst. exact Hl.
  - done.
  - rewrite <- Zplus_mod_idemp_l, Hp. done.
  - lia.
  - lia.
  - done.
  - intros q [-> | Hq]%elem_of_cons; [lia |]. apply Hlt in Hq. lia.
  - exists s'. split; [done |]. by rewrite <- app_assoc.
Qed.

Lemma pages_down_elem n : forall p q,
  q ∈ pages_down n p <-> exists k, (k < n)%nat /\ q = p + Z.of_nat k * PGSIZE.
Proof.
  induction n as [| n IH]; intros p q; cbn [pages_down].
  { split; [by intros ?%elem_of_nil | intros (k & Hk & _); lia]. }
  rewrite elem_of_app, list_elem_of_singleton, IH. split.
  - intros [(k & Hk & ->) | ->]; [exists (S k) | exists 0%nat]; split; lia.
  - intros ([| k] & Hk & ->); [right; lia | left; exists k; split; lia].
Qed.

(** The state after [initlock(&kmem.lock, "kmem")] is ready for [freerange]. *)
Lemma kinit_lock s e :
  initlock LkKmem "kmem" (mkworld s e) =
    Ret tt (mkworld (s <| k_locks ::= <[LkKmem := mkspinlock false "kmem" None]> |>) e).
Proof. done. Qed.

(** [kinit] puts every whole page between [end] and [PHYSTOP] on the free list,
    once, and nothing else: afterwards the list holds exactly the aligned
    addresses [p] with [end <= p] and [p + PGSIZE <= PHYSTOP]. *)
Theorem kinit_frees_all s e c :
  cpu_ok s c -> k_freelist s = 0 ->
  exists s' l, kinit (mkworld s e) = Ret tt (mkworld s' e) /\ free_pages s' l /\
    forall p, p ∈ l <-> p mod PGSIZE = 0 /\ kend <= p /\ p + PGSIZE <= PHYSTOP.
Proof.
  intros Hc Hfl. unfold kinit. rewrite (bind_ret _ _ _ _ _ (kinit_lock s e)).
  set (s1 := s <| k_locks ::= _ |>).
  assert (lock_free s1 LkKmem) as Hlk
    by (eexists; subst s1; cbn; rewrite lookup_insert_eq; done).
  pose proof kend_range as Hk. pose proof etext_range as Ht.
  assert (PHYSTOP mod PGSIZE = 0) as Hps by done.
  assert (0 <= kend < 2 ^ 64 - PGSIZE) as Hkr by (unfold PHYSTOP, KERNBASE, PGSIZE in *; lia).
  destruct (PGROUNDUP_bounds kend Hkr) as [Hb Hm].
  unfold freerange. cbv zeta. set (p0 := PGROUNDUP kend) in *.
  set (n := Z.to_nat ((PHYSTOP - p0) / PGSIZE)).
  assert (p0 <= PHYSTOP) as Hp0.
  { unfold PGSIZE in *. Z.div_mod_to_equations. lia. }
  assert (Z.of_nat n = (PHYSTOP - p0) / PGSIZE) as Hn
    by (subst n; rewrite Z2Nat.id; [done | apply Z.div_pos; lia || done]).
  assert (PHYSTOP = p0 + Z.of_nat n * PGSIZE) as Hend.
  { rewrite Hn. unfold PGSIZE in *. Z.div_mod_to_equations. lia. }
  destruct (freerange_loop_ok n p0 s1 e c [] PHYSTOP) as (s' & Hs' & Hf');
    try done; try lia.
  { split; [exact Hfl | constructor]. } { by intros q ?%elem_of_nil. }
  exists s', (pages_down n p0). rewrite app_nil_r in Hf'. split; [done |]. split; [done |].
  intros p. rewrite pages_down_elem. split.
  - intros (k & Hkn & ->). split; [by rewrite Z_mod_plus_full |]. unfold PGSIZE in *. nia.
  - intros (Hpm & Hkp & Hpe). exists (Z.to_nat ((p - p0) / PGSIZE)).
    unfold PGSIZE in *. Z.div_mod_to_equations. lia.
Qed.

(** C32: The allocator never hands out a page twice.  [kalloc] on a non-empty free
    list returns its first page, filled with 5s, and leaves the rest free; freeing
    that page again restores the list; on an empty list [kalloc] returns 0. *)
Theorem kalloc_kfree s e c p l :
  cpu_ok s c -> lock_free s LkKmem -> free_pages s (p :: l) ->
  exists s1 s2, kalloc (mkworld s e) = Ret p (mkworld s1 e) /\
    free_pages s1 l /\ (p ∉ l) /\ alloc_page p /\ k_mem s1 !! p = Some (fill_page 5) /\
    (forall q, q <> p -> k_mem s1 !! q = k_mem s !! q) /\
    kfree p (mkworld s1 e) = Ret tt (mkworld s2 e) /\ free_pages s2 (p :: l).
Proof.
  intros Hc Hl Hf. pose proof Hf as [(_ & Ha & _) [Hnin _]%NoDup_cons].
  destruct (kalloc_pop s e c p l Hc Hl Hf) as (s1 & Hs1 & Hf1 & Hm1 & Hst).
  destruct (kfree_push s1 e (sync_cpu c) p l) as (s2 & Hs2 & Hf2 & _); try done.
  { rewrite Hst. apply (cpu_ok_sync s c Hc). } { by rewrite Hst. }
  exists s1, s2. rewrite Hm1. repeat split; try done; try apply Ha; try apply Hf1; try apply Hf2.
  - apply lookup_insert_eq.
  - intros q Hq. by apply lookup_insert_ne.
Qed.
End kalloc.

(** ** Examples *)

(** A decision procedure for [free_chain]. *)
Fixpoint free_chain_b `{Image} (m : gmap Z (list Z)) (head : Z) (l : list Z) : bool :=
  match l with
  | [] => head =? 0
  | p :: r => (head =? p) && (p mod PGSIZE =? 0) && (kend <=? p) && (p <? PHYSTOP) &&
      match mem_word m p with
      | Some nx => free_chain_b m nx r
      | None => false
      end
  end.
Lemma free_chain_dec `{Image} m h l : free_chain_b m h l = true -> free_chain m h l.
Proof.
  revert h. induction l as [| p r IH]; intros h; simpl; [lia |].
  intros [[[[Hh Hp]%andb_true_iff Hk]%andb_true_iff Hs]%andb_true_iff Hm]%andb_true_iff.
  split; [lia |]. split; [split; lia |]. destruct (mem_word m p) as [nx |]; [| done].
  exists nx. auto.
Qed.

Lemma sample_free_pages : free_pages sample sample_free.
Proof.
  split; [apply free_chain_dec; by vm_compute |].
  apply (bool_decide_unpack _). by vm_compute.
Qed.

Lemma kinit_frees_all_witness :
  let s := sample <| k_freelist := 0 |> in
  exists s' l, kinit (mkworld s []) = Ret tt (mkworld s' []) /\ free_pages s' l /\
    forall p, p ∈ l <-> p mod PGSIZE = 0 /\ kend <= p /\ p + PGSIZE <= PHYSTOP.
Proof.
  intros s. apply (kinit_frees_all s [] sample_cpu); [exact sample_cpu_ok | reflexivity].
Defined.

Lemma kalloc_kfree_witness :
  exists s1 s2, kalloc (mkworld sample []) = Ret 0x80020000 (mkworld s1 []) /\
    free_pages s1 (tail sample_free) /\ (0x80020000 ∉ tail sample_free) /\ alloc_page 0x80020000 /\
    k_mem s1 !! 0x80020000 = Some (fill_page 5) /\
    (forall q, q <> 0x80020000 -> k_mem s1 !! q = k_mem sample !! q) /\
    kfree 0x80020000 (mkworld s1 []) = Ret tt (mkworld s2 []) /\ free_pages s2 sample_free.
Proof.
  apply (kalloc_kfree sample [] sample_cpu 0x80020000 (tail sample_free)).
  - exact sample_cpu_ok.
  - apply lock_free_dec. by vm_compute.
  - exact sample_free_pages.
Defined.
