(* ===== verification/Sched.v ===== *)
(** * Scheduling, sleep and wakeup ([kernel/proc.c])

    [sched], [yield], [sleep], [wakeup], [kkill], [killed], [setkilled] and one
    pass of [scheduler].  [swtch] lets the rest of the system run: it is
    [env_step]. *)
From S2P Require Import Prelude Kstate Spinlock Mem Sample.
Local Open Scope Z_scope.

(** ** The code *)

(** The current process, dereferenced: a null [struct proc *] faults. *)
Definition curproc : K nat :=
  let! o := myproc in
  match o with
  | Some p => ret p
  | None => fault
  end.

Definition swtch : K unit := env_step.

Definition sched : K unit :=
  let! p := curproc in
  let! h := holding (LkProc p) in
  if negb h then panic "sched p->lock" else
  let! c := mycpu in
  if negb (c_noff c =? 1) then panic "sched locks" else
  let! pr := get_proc p in
  if bool_decide (p_state pr = RUNNING) then panic "sched RUNNING" else
  let! on := intr_get in
  if on then panic "sched interruptible" else
  let! c := mycpu in
  swtch ;;;
  upd_mycpu (fun c' => c' <| c_intena := c_intena c |>).

Definition yield : K unit :=
  let! p := curproc in
  acquire (LkProc p) ;;;
  upd_proc p (fun pr => pr <| p_state := RUNNABLE |>) ;;;
  sched ;;;
  release (LkProc p).

(** ** Code cut into its statements

    [sleep] and [wakeup] are also run interleaved with other harts (in [SleepConc]), so
    their statements are kept apart: [Act] runs one and goes on with its result, [Switch]
    is a call of [sched], which gives up the hart, [Last] is the last statement.  [run]
    runs them all. *)
Inductive code : Type :=
| Last (m : K unit)
| Act {A : Type} (m : K A) (k : A -> code)
| Switch (k : code).
Fixpoint run (c : code) : K unit :=
  match c with
  | Last m => m
  | Act m k => bind m (fun a => run (k a))
  | Switch k => bind sched (fun _ => run k)
  end.

Definition sleep_code (ch : chan) (lk : lockid) : code :=
  Act curproc (fun p =>
  Act (acquire (LkProc p)) (fun _ =>
  Act (release lk) (fun _ =>
  Act (upd_proc p (fun pr => pr <| p_chan := Some ch |>)) (fun _ =>
  Act (upd_proc p (fun pr => pr <| p_state := SLEEPING |>)) (fun _ =>
  Switch (
  Act (upd_proc p (fun pr => pr <| p_chan := None |>)) (fun _ =>
  Act (release (LkProc p)) (fun _ =>
  Last (acquire lk))))))))).
Definition sleep (ch : chan) (lk : lockid) : K unit := run (sleep_code ch lk).

(** The loop of [wakeup] over the slots [l], then [k]. *)
Fixpoint wakeup_code (ch : chan) (l : list nat) (k : code) : code :=
  match l with
  | [] => k
  | p :: r =>
      Act myproc (fun me =>
      if bool_decide (me = Some p) then wakeup_code ch r k else
      Act (acquire (LkProc p)) (fun _ =>
      Act (get_proc p) (fun pr =>
      let unlock := Act (release (LkProc p)) (fun _ => wakeup_code ch r k) in
      if bool_decide (p_state pr = SLEEPING) && bool_decide (p_chan pr = Some ch)
      then Act (upd_proc p (fun pr => pr <| p_state := RUNNABLE |>)) (fun _ => unlock)
      else unlock)))
  end.
Definition wakeup (ch : chan) : K unit := run (wakeup_code ch all_procs (Last (ret tt))).

(** [p->pending_signals |= (1 << signum)], on a C [int]. *)
Definition set_pending (signum pending : Z) : Z := s32 (Z.lor pending (s32 (Z.shiftl 1 signum))).

Definition kkill (pid signum : Z) : K Z :=
  let! r := search all_procs (fun p =>
    acquire (LkProc p) ;;;
    let! pr := get_proc p in
    if p_pid pr =? pid then
      upd_proc p (fun pr => pr <| p_pending_signals ::= set_pending signum |>) ;;;
      let! pr := get_proc p in
      (if bool_decide (p_state pr = SLEEPING)
       then upd_proc p (fun pr => pr <| p_state := RUNNABLE |>)
       else ret tt) ;;;
      release (LkProc p) ;;;
      ret (Some 0)
    else
      release (LkProc p) ;;;
      ret None) in
  ret (default (-1) r).

Definition setkilled (p : nat) : K unit :=
  acquire (LkProc p) ;;;
  upd_proc p (fun pr => pr <| p_killed := 1 |>) ;;;
  release (LkProc p).

Definition killed (p : nat) : K Z :=
  acquire (LkProc p) ;;;
  let! pr := get_proc p in
  release (LkProc p) ;;;
  ret (p_killed pr).

(** The visit of process [p] by [scheduler], up to the switch; the result says whether
    there is one. *)
Definition scheduler_enter (p : nat) : K bool :=
  acquire (LkProc p) ;;;
  let! pr := get_proc p in
  if bool_decide (p_state pr = RUNNABLE) then
    upd_proc p (fun pr => pr <| p_state := RUNNING |>) ;;;
    upd_mycpu (fun c => c <| c_proc := Some p |>) ;;;
    ret true
  else ret false.
(** What follows the switch. *)
Definition scheduler_back : K unit := upd_mycpu (fun c => c <| c_proc := None |>).

(** One iteration of the [for(;;)] of [scheduler]; the result says whether a
    process ran ([found]).  The switch to the process is [swtch]. *)
Definition scheduler_pass : K bool :=
  intr_on ;;;
  intr_off ;;;
  (fix loop (l : list nat) (found : bool) : K bool :=
     match l with
     | [] => ret found
     | p :: r =>
         let! go := scheduler_enter p in
         let! found' := (if (go : bool) then swtch ;;; scheduler_back ;;; ret true else ret found) in
         release (LkProc p) ;;;
         loop r found'
     end) all_procs false.

(** ** Invariants of the states kernel code runs in *)

(** Every process lock, except possibly that of [me], is initialised and free,
    and the table has its [NPROC] entries. *)
Definition procs_free (s : kstate) (me : option nat) : Prop :=
  length (k_procs s) = NPROC /\
  forall i, (i < NPROC)%nat -> Some i <> me -> lock_free s (LkProc i).

(** Process [p] runs on the current hart. *)
Definition running (s : kstate) (p : nat) (c : cpu) : Prop :=
  cpu_ok s c /\ c_proc c = Some p /\ (p < NPROC)%nat.

Definition wake_proc (ch : chan) (p : proc) : proc :=
  if bool_decide (p_state p = SLEEPING) && bool_decide (p_chan p = Some ch)
  then p <| p_state := RUNNABLE |> else p.

(** What [wakeup ch], called by [me], does to the process table. *)
Definition wake_all (ch : chan) (me : option nat) (l : list proc) : list proc :=
  imap (fun i p => if bool_decide (me = Some i) then p else wake_proc ch p) l.

(** ** Lemmas *)
Lemma curproc_eq s e c p :
  cpu_ok s c -> c_proc c = Some p -> curproc (mkworld s e) = Ret p (mkworld (sync s) e).
Proof. intros Hc Hp. unfold curproc. kcall (myproc_eq s e c). by rewrite Hp. Qed.

Lemma get_proc_eq s e i p :
  k_procs s !! i = Some p -> get_proc i (mkworld s e) = Ret p (mkworld s e).
Proof. apply get_nth_eq. Qed.

(** Running a section under the lock of process [i] that only changes its slot. *)
Lemma proc_section s e c i f :
  cpu_ok s c -> lock_free s (LkProc i) ->
  (let! _ := acquire (LkProc i) in let! _ := upd_proc i f in release (LkProc i)) (mkworld s e) =
    Ret tt (mkworld ((sync s) <| k_procs ::= alter f i |>) e).
Proof.
  intros Hc Hl. kcall (acquire_eq s e c (LkProc i)).
  krun. erewrite (release_section s); done.
Qed.

Definition wake_step (ch : chan) (me : option nat) (i : nat) (s : kstate) : kstate :=
  if bool_decide (me = Some i) then (sync s)
  else (sync s) <| k_procs ::= alter (wake_proc ch) i |>.

Lemma alter_same {A} (f : A -> A) (l : list A) i x :
  l !! i = Some x -> f x = x -> alter f i l = l.
Proof.
  intros Hx Hf. rewrite (list_alter_ext f id l l i); [by apply list_alter_id | | done].
  intros y Hy. by simplify_eq.
Qed.

Lemma set_procs_same s l : k_procs s = l -> s <| k_procs := l |> = s.
Proof. intros <-. by destruct s. Qed.

Lemma wake_body s e c ch i :
  cpu_ok s c -> procs_free s (c_proc c) -> (i < NPROC)%nat ->
  (let! me := myproc in
   if bool_decide (me = Some i) then ret tt else
   acquire (LkProc i) ;;;
   let! pr := get_proc i in
   (if bool_decide (p_state pr = SLEEPING) && bool_decide (p_chan pr = Some ch)
    then upd_proc i (fun pr => pr <| p_state := RUNNABLE |>)
    else ret tt) ;;;
   release (LkProc i)) (mkworld s e) = Ret tt (mkworld (wake_step ch (c_proc c) i s) e).
Proof.
  intros Hc [Hlen Hfree] Hi. unfold wake_step. kcall (myproc_eq s e c).
  destruct (bool_decide_reflect (c_proc c = Some i)) as [Hme | Hme]; [done |].
  assert (lock_free (sync s) (LkProc i)) as Hl by (apply Hfree; congruence).
  pose proof (cpu_ok_sync s c Hc) as Hc'.
  kcall (acquire_eq (sync s) e (sync_cpu c) (LkProc i)).
  destruct (lookup_lt_is_Some_2 (k_procs s) i) as [pr Hpr]; [lia |].
  kcall (get_proc_eq (lock_taken (LkProc i) (sync s)) e i pr).
  unfold wake_proc.
  destruct (bool_decide (p_state pr = SLEEPING) && bool_decide (p_chan pr = Some ch)) eqn:Hb; krun.
  - erewrite (release_section (sync s)); [| done ..]. rewrite sync_idem. apply ret_world.
    upd_eq. apply list_alter_ext; [| done].
    intros x Hx. simplify_eq. by rewrite Hb.
  - erewrite (release_section (sync s)); [| done ..]. rewrite sync_idem. apply ret_world.
    upd_eq. symmetry. apply (alter_same _ _ _ pr); [done |]. by rewrite Hb.
Qed.

Lemma wake_step_inv ch c i s :
  cpu_ok s c -> procs_free s (c_proc c) ->
  cpu_ok (wake_step ch (c_proc c) i s) (sync_cpu c) /\ procs_free (wake_step ch (c_proc c) i s) (c_proc c).
Proof.
  intros Hc [Hlen Hfree]. pose proof (cpu_ok_sync s c Hc). unfold wake_step.
  case_bool_decide; (split; [done |]); (split; [cbn; by rewrite ?length_alter | done]).
Qed.

Lemma foldl_wake ch me s n k :
  foldl (fun s i => wake_step ch me i s) s (seq k (S n)) =
  (sync s) <| k_procs := imap (fun i p => if bool_decide (k <= i < k + S n)%nat then
      (if bool_decide (me = Some i) then p else wake_proc ch p) else p) (k_procs s) |>.
Proof.
  revert k s. induction n as [| n IH]; intros k s.
  - simpl. unfold wake_step.
    assert (forall l : list proc, (if bool_decide (me = Some k) then l else alter (wake_proc ch) k l) =
      imap (fun i p => if bool_decide (k <= i < k + 1)%nat then
        (if bool_decide (me = Some i) then p else wake_proc ch p) else p) l) as Hl.
    { intros l. apply list_eq. intros i. rewrite list_lookup_imap.
      destruct (decide (i = k)) as [-> |].
      - rewrite (bool_decide_true (k <= k < k + 1)%nat) by lia.
        case_bool_decide; rewrite ?list_lookup_alter_eq; by destruct (l !! k).
      - rewrite (bool_decide_false (k <= i < k + 1)%nat) by lia.
        case_bool_decide; rewrite ?list_lookup_alter_ne by done; by destruct (l !! i). }
    rewrite <- Hl. case_bool_decide; [| done]. by destruct s.
  - change (seq k (S (S n))) with (k :: seq (S k) (S n)). cbn [foldl]. rewrite IH.
    assert (sync (wake_step ch me k s) = (sync s) <| k_procs := k_procs (wake_step ch me k s) |>) as ->.
    { unfold wake_step. case_bool_decide; rewrite <- (sync_idem s) at 2; [by destruct s | done]. }
    upd_eq. apply list_eq. intros i. rewrite !list_lookup_imap.
    unfold wake_step. destruct (decide (i = k)) as [-> |].
    + rewrite (bool_decide_false (S k <= k < S k + S n)%nat) by lia.
      rewrite (bool_decide_true (k <= k < k + S (S n))%nat) by lia.
      case_bool_decide; cbn; rewrite ?list_lookup_alter_eq; by destruct (k_procs s !! k).
    + assert (k_procs (if bool_decide (me = Some k) then (sync s)
                       else (sync s) <| k_procs ::= alter (wake_proc ch) k |>) !! i = k_procs s !! i) as ->
        by (case_bool_decide; cbn; by rewrite ?list_lookup_alter_ne).
      destruct (k_procs s !! i) as [p |]; [| done]. cbn. f_equal.
      rewrite (bool_decide_ext (S k <= i < S k + S n)%nat (k <= i < k + S (S n))%nat) by lia. done.
Qed.

Lemma bind_cong {A B} (m : K A) (k1 k2 : A -> K B) w :
  (forall a w, k1 a w = k2 a w) -> bind m k1 w = bind m k2 w.
Proof. intros Hk. unfold bind. by destruct (m w). Qed.

(** [wakeup] as a loop. *)
Lemma wakeup_code_eq ch l k w :
  run (wakeup_code ch l k) w =
  (foreach l (fun p =>
     let! me := myproc in
     if bool_decide (me = Some p) then ret tt else
     acquire (LkProc p) ;;;
     let! pr := get_proc p in
     (if bool_decide (p_state pr = SLEEPING) && bool_decide (p_chan pr = Some ch)
      then upd_proc p (fun pr => pr <| p_state := RUNNABLE |>)
      else ret tt) ;;;
     release (LkProc p)) ;;; run k) w.
Proof.
  revert w. induction l as [| p r IH]; intros w; [done |]. cbn [wakeup_code run foreach].
  rewrite !bind_assoc. apply bind_cong. intros me w1. case_bool_decide; [by rewrite bind_ret_l |]. cbn [run].
  rewrite !bind_assoc. apply bind_cong. intros _ w2. rewrite bind_assoc. apply bind_cong. intros pr w3.
  rewrite !bind_assoc. destruct (_ && _); cbn [run]; [apply bind_cong; intros _ w4 | rewrite bind_ret_l];
    apply bind_cong; intros _ w5; apply IH.
Qed.

(** [wakeup ch] makes runnable exactly the other processes sleeping on [ch]. *)
Lemma wakeup_eq s e c ch :
  cpu_ok s c -> procs_free s (c_proc c) ->
  wakeup ch (mkworld s e) =
    Ret tt (mkworld ((sync s) <| k_procs ::= wake_all ch (c_proc c) |>) e).
Proof.
  intros Hc Hf. unfold wakeup. rewrite wakeup_code_eq. cbn [run]. unfold bind at 1.
  rewrite (foreach_eq (fun s' => (exists c', cpu_ok s' c' /\ c_proc c' = c_proc c) /\
      procs_free s' (c_proc c)) _ (wake_step ch (c_proc c))); [| | by eauto].
  - apply ret_world. unfold all_procs, NPROC. rewrite foldl_wake. upd_eq.
    unfold wake_all. apply imap_ext. intros i p Hp. rewrite bool_decide_true; [done |].
    apply lookup_lt_Some in Hp. destruct Hf as [Hlen _]. unfold NPROC in Hlen. lia.
  - intros i s' Hi [(c' & Hc' & <-) Hf']. apply elem_of_seq in Hi. split.
    + apply wake_body; [done | done | lia].
    + destruct (wake_step_inv ch c' i s') as [? ?]; [done | done |]. split; [| done].
      by exists (sync_cpu c').
Qed.

(** ** [killed], [setkilled], [kkill] *)
Lemma killed_eq s e c p pr :
  cpu_ok s c -> lock_free s (LkProc p) -> k_procs s !! p = Some pr ->
  killed p (mkworld s e) = Ret (p_killed pr) (mkworld (sync s) e).
Proof.
  intros Hc Hl Hp. unfold killed.
  kcall (acquire_eq s e c (LkProc p)).
  kcall (get_proc_eq _ e p pr). kcall (release_section s). done.
Qed.

Lemma setkilled_eq s e c p :
  cpu_ok s c -> lock_free s (LkProc p) ->
  setkilled p (mkworld s e) =
    Ret tt (mkworld ((sync s) <| k_procs ::= alter (fun pr => pr <| p_killed := 1 |>) p |>) e).
Proof. intros Hc Hl. unfold setkilled. exact (proc_section s e c p _ Hc Hl). Qed.

(** What [kkill] does to its target. *)
Definition signal_proc (signum : Z) (p : proc) : proc :=
  p <| p_pending_signals ::= set_pending signum |>
    <| p_state := if bool_decide (p_state p = SLEEPING) then RUNNABLE else p_state p |>.

(** The first slot, in table order, whose pid is [pid]. *)
Fixpoint find_pid (pid : Z) (l : list proc) (i : nat) : option nat :=
  match l with
  | [] => None
  | p :: r => if p_pid p =? pid then Some i else find_pid pid r (S i)
  end.

Lemma kkill_loop s e c pid signum k n :
  cpu_ok s c -> procs_free s None -> (k + n = NPROC)%nat ->
  search (seq k n) (fun p =>
    acquire (LkProc p) ;;;
    let! pr := get_proc p in
    if p_pid pr =? pid then
      upd_proc p (fun pr => pr <| p_pending_signals ::= set_pending signum |>) ;;;
      let! pr := get_proc p in
      (if bool_decide (p_state pr = SLEEPING)
       then upd_proc p (fun pr => pr <| p_state := RUNNABLE |>)
       else ret tt) ;;;
      release (LkProc p) ;;;
      ret (Some 0)
    else
      release (LkProc p) ;;;
      ret None) (mkworld s e) =
  match find_pid pid (drop k (k_procs s)) k with
  | Some i => Ret (Some 0) (mkworld ((sync s) <| k_procs ::= alter (signal_proc signum) i |>) e)
  | None => Ret None (mkworld (if decide (n = 0%nat) then s else sync s) e)
  end.
Proof.
  revert k s c. induction n as [| n IH]; intros k s c Hc Hf Hk.
  { simpl. rewrite drop_ge; [done |]. destruct Hf as [-> _]. lia. }
  pose proof Hf as [Hlen Hfree].
  destruct (lookup_lt_is_Some_2 (k_procs s) k) as [pr Hpr]; [lia |].
  rewrite (drop_S _ pr) by done. simpl.
  assert (lock_free s (LkProc k)) as Hl by (apply Hfree; [lia | done]).
  rewrite !bind_assoc.
  kcall (acquire_eq s e c (LkProc k)).
  rewrite !bind_assoc. kcall (get_proc_eq (lock_taken (LkProc k) s) e k pr).
  destruct (p_pid pr =? pid) eqn:Hpid.
  - rewrite !bind_assoc, bind_upd_proc, bind_assoc.
    kcall (get_proc_eq _ e k (pr <| p_pending_signals ::= set_pending signum |>)).
    { cbn. by rewrite list_lookup_alter_eq, Hpr. }
    assert (forall st, (if bool_decide (st = SLEEPING) then RUNNABLE else st) = st
                       \/ st = SLEEPING) as Hst by (intros []; auto).
    change (p_state (pr <| p_pending_signals ::= set_pending signum |>)) with (p_state pr).
    destruct (bool_decide (p_state pr = SLEEPING)) eqn:Hs; krun;
      kcall (release_section s); krun; apply ret_world; upd_eq;
      rewrite ?list_alter_alter_eq; apply list_alter_ext; try done;
      intros x Hx; simplify_eq; unfold signal_proc; cbn; by rewrite Hs.
  - rewrite !bind_assoc. kcall (release_section s). krun.
    change ((lock_taken (LkProc k) s) <| k_cpus := _ |> <| k_locks := _ |>) with (sync s).
    rewrite (IH (S k) (sync s) (sync_cpu c)); [| by apply cpu_ok_sync | done | lia].
    rewrite sync_idem. change (k_procs (sync s)) with (k_procs s).
    destruct (find_pid pid (drop (S k) (k_procs s)) (S k)); [done |].
    by destruct (decide (n = 0%nat)).
Qed.

(** [kkill] signals the first slot with that pid and wakes it if it sleeps; it
    fails, changing nothing, when no slot has the pid. *)
Lemma kkill_eq s e c pid signum :
  cpu_ok s c -> procs_free s None ->
  kkill pid signum (mkworld s e) =
  match find_pid pid (k_procs s) 0 with
  | Some i => Ret 0 (mkworld ((sync s) <| k_procs ::= alter (signal_proc signum) i |>) e)
  | None => Ret (-1) (mkworld (sync s) e)
  end.
Proof.
  intros Hc Hf. unfold kkill, all_procs. unfold bind at 1.
  rewrite (kkill_loop s e c pid signum 0 NPROC) by done. rewrite drop_0.
  destruct (find_pid pid (k_procs s) 0); done.
Qed.

(** ** [sched] and its panics *)
Lemma sync_nested s c : k_cpus s !! k_hart s = Some c -> c_noff c <> 0 -> sync s = s.
Proof.
  intros Hc Hn. apply (on_cpu_id _ _ c Hc). unfold sync_cpu.
  rewrite (proj2 (Z.eqb_neq _ _) Hn). by destruct c.
Qed.

Lemma holding_eq s e lk :
  holding lk (mkworld s e) =
    Ret (lk_locked (lock_of s lk) && bool_decide (lk_cpu (lock_of s lk) = Some (k_hart s)))
        (mkworld s e).
Proof. done. Qed.

Lemma lock_mine_holding s lk : lock_mine s lk ->
  lk_locked (lock_of s lk) && bool_decide (lk_cpu (lock_of s lk) = Some (k_hart s)) = true.
Proof.
  intros (l & Hl & Hlo & Hcpu). unfold lock_of. rewrite Hl. cbn.
  by rewrite Hlo, Hcpu, bool_decide_true.
Qed.

(** Giving up the hart with any lock but [p->lock] held panics. *)
Lemma sched_locks s e c p :
  running s p c -> lock_mine s (LkProc p) -> 1 < c_noff c ->
  sched (mkworld s e) = Panic "sched locks".
Proof.
  intros (Hc & Hp & _) Hm Hn. pose proof Hc as (Hcl & _). unfold sched.
  kcall (curproc_eq s e c p). rewrite (sync_nested s c) by (done || lia).
  kcall holding_eq. rewrite lock_mine_holding by done. cbn [negb].
  kcall (mycpu_eq s e c). by rewrite (proj2 (Z.eqb_neq _ _)) by lia.
Qed.

(** The state in which the rest of the system takes over is the caller's; what
    the caller resumes in is what the system made of it. *)
Lemma sched_switch s f e c p pr :
  running s p c -> lock_mine s (LkProc p) -> c_noff c = 1 ->
  k_procs s !! p = Some pr -> p_state pr <> RUNNING ->
  sched (mkworld s (f :: e)) =
    Ret tt (mkworld (on_cpu (fun c' => c' <| c_intena := c_intena c |>) (f s)) e).
Proof.
  intros (Hc & Hp & _) Hm Hn Hpr Hst. pose proof Hc as (Hcl & _ & Hsie). unfold sched.
  kcall (curproc_eq s (f :: e) c p). rewrite (sync_nested s c) by (done || lia).
  kcall holding_eq. rewrite lock_mine_holding by done. cbn [negb].
  kcall (mycpu_eq s (f :: e) c). rewrite Hn. cbn [Z.eqb negb].
  kcall (get_proc_eq s (f :: e) p pr). rewrite bool_decide_false by done.
  kcall (intr_get_eq s (f :: e) c). rewrite Hsie by lia.
  kcall (mycpu_eq s (f :: e) c). done.
Qed.

Lemma sched_hang s c p pr :
  running s p c -> lock_mine s (LkProc p) -> c_noff c = 1 ->
  k_procs s !! p = Some pr -> p_state pr <> RUNNING ->
  sched (mkworld s []) = Hang (mkworld s []).
Proof.
  intros (Hc & Hp & _) Hm Hn Hpr Hst. pose proof Hc as (Hcl & _ & Hsie). unfold sched.
  kcall (curproc_eq s [] c p). rewrite (sync_nested s c) by (done || lia).
  kcall holding_eq. rewrite lock_mine_holding by done. cbn [negb].
  kcall (mycpu_eq s [] c). rewrite Hn. cbn [Z.eqb negb].
  kcall (get_proc_eq s [] p pr). rewrite bool_decide_false by done.
  kcall (intr_get_eq s [] c). rewrite Hsie by lia.
  kcall (mycpu_eq s [] c). done.
Qed.

Lemma lock_mine_taken lk s : lock_mine (lock_taken lk s) lk.
Proof. eexists. cbn. by rewrite lookup_insert_eq. Qed.

Lemma running_taken s p c lk :
  running s p c -> c_noff c < 2 ^ 31 - 2 -> running (lock_taken lk s) p (push_cpu c).
Proof. intros (Hc & Hp & Hlt) Hn. split; [by apply cpu_ok_taken | done]. Qed.

Lemma running_sync s p c : running s p c -> running (sync s) p (sync_cpu c).
Proof. intros (Hc & Hp & Hlt). split; [by apply cpu_ok_sync | done]. Qed.

#[export] Hint Resolve lock_mine_taken running_sync : kern.

(** A process that holds any spin lock cannot yield: the timer tick that makes
    it give up the CPU freezes the machine. *)
Lemma yield_holding s e c p :
  running s p c -> lock_free s (LkProc p) -> 1 <= c_noff c < 2 ^ 31 - 2 ->
  yield (mkworld s e) = Panic "sched locks".
Proof.
  intros Hr Hl Hn. pose proof Hr as (Hc & Hp & Hlt). pose proof Hc as (Hcl & _). unfold yield.
  kcall (curproc_eq s e c p). rewrite (sync_nested s c) by (done || lia).
  kcall (acquire_eq s e c (LkProc p)).
  rewrite bind_upd_proc. unfold bind.
  rewrite (sched_locks _ e (push_cpu c) p); [done | | apply lock_mine_taken | cbn; lia].
  apply (running_taken s p c (LkProc p) Hr). lia.
Qed.

(** ** [sleep] *)

(** The state in which a process sleeping on [ch] leaves the hart: it holds its
    own lock, has released [lk] and is marked [SLEEPING] on [ch]. *)
Definition sleep_enter (p : nat) (ch : chan) (lk : lockid) (s : kstate) : kstate :=
  (lock_freed lk (lock_taken (LkProc p) s))
    <| k_procs ::= alter (fun pr => pr <| p_chan := Some ch |> <| p_state := SLEEPING |>) p |>.

(** The state in which [sleep] returns, from the state it was resumed in. *)
Definition sleep_leave (p : nat) (lk : lockid) (intena : bool) (s : kstate) : kstate :=
  lock_taken lk (lock_freed (LkProc p)
    ((on_cpu (fun c => c <| c_intena := intena |>) s)
       <| k_procs ::= alter (fun pr => pr <| p_chan := None |>) p |>)).

(** The scheduler resumes a process on some hart, as its current process and
    with its lock held and no other. *)
Definition resumed (s : kstate) (p : nat) : Prop :=
  lock_mine s (LkProc p) /\
  exists c, k_cpus s !! k_hart s = Some c /\ c_proc c = Some p /\ c_noff c = 1 /\ c_sie c = false.

Lemma sleep_enter_running s c p ch lk :
  running s p c -> c_noff c = 1 ->
  running (sleep_enter p ch lk s) p (pop_cpu (push_cpu c)).
Proof.
  intros (Hc & Hp & Hlt) Hn. pose proof Hc as (Hcl & _ & Hs).
  split; [| done]. split.
  - unfold sleep_enter, lock_freed. cbn. rewrite !list_lookup_alter_eq, Hcl. done.
  - cbn. rewrite Hn. cbn. split; [lia |]. done.
Qed.

Lemma sleep_enter_mine s p ch lk : lk <> LkProc p -> lock_mine (sleep_enter p ch lk s) (LkProc p).
Proof. intros Hne. eexists. cbn. by rewrite lookup_insert_ne, lookup_insert_eq by done. Qed.

Lemma sleep_to_sched s e c p ch lk pr :
  running s p c -> c_noff c = 1 -> lock_mine s lk -> lock_free s (LkProc p) ->
  k_procs s !! p = Some pr ->
  sleep ch lk (mkworld s e) =
    (sched ;;;
     upd_proc p (fun pr => pr <| p_chan := None |>) ;;;
     release (LkProc p) ;;;
     acquire lk) (mkworld (sleep_enter p ch lk s) e) /\ lk <> LkProc p.
Proof.
  intros (Hc & Hp & Hlt) Hn Hm Hl Hpr. pose proof Hc as (Hcl & _).
  assert (lk <> LkProc p) as Hne.
  { intros ->. destruct Hm as (l & ? & ? & ?), Hl as (l' & ? & ? & ?). by simplify_eq. }
  split; [| done]. unfold sleep, sleep_code. cbn [run].
  kcall (curproc_eq s e c p). rewrite (sync_nested s c) by (done || lia).
  kcall (acquire_eq s e c (LkProc p)).
  kcall (release_eq (lock_taken (LkProc p) s) e (push_cpu c) lk).
  { exact (on_cpu_lookup push_cpu s c Hcl). } { cbn. lia. }
  { destruct Hm as (l & ? & ?). exists l. cbn. by rewrite lookup_insert_ne by congruence. }
  rewrite !bind_upd_proc. do 2 f_equal. unfold sleep_enter. upd_eq.
  by rewrite list_alter_alter_eq.
Qed.

(** [sleep] returns with [lk] held again once the process is resumed. *)
Lemma sleep_eq s f e c p ch lk pr :
  running s p c -> c_noff c = 1 -> lock_mine s lk -> lock_free s (LkProc p) ->
  k_procs s !! p = Some pr ->
  resumed (f (sleep_enter p ch lk s)) p -> lock_free (f (sleep_enter p ch lk s)) lk ->
  sleep ch lk (mkworld s (f :: e)) =
    Ret tt (mkworld (sleep_leave p lk (c_intena c) (f (sleep_enter p ch lk s))) e).
Proof.
  intros Hr Hn Hm Hl Hpr (Hm' & c' & Hc' & Hp' & Hn' & Hs') Hf.
  destruct (sleep_to_sched s (f :: e) c p ch lk pr Hr Hn Hm Hl Hpr) as [-> Hne].
  kcall (sched_switch _ f e (pop_cpu (push_cpu c)) p
           (pr <| p_chan := Some ch |> <| p_state := SLEEPING |>)).
  { by apply sleep_enter_running. } { by apply sleep_enter_mine. } { cbn. lia. }
  { cbn. by rewrite list_lookup_alter_eq, Hpr. }
  rewrite bind_upd_proc. set (s1 := f _) in *.
  assert (c_intena (pop_cpu (push_cpu c)) = c_intena c) as ->
    by (cbn; by rewrite Hn).
  kcall (release_eq _ e (c' <| c_intena := c_intena c |>) (LkProc p)).
  { exact (on_cpu_lookup _ s1 c' Hc'). } { cbn. lia. }
  rewrite (acquire_eq _ e (pop_cpu (c' <| c_intena := c_intena c |>)) lk); [done | | ].
  - split.
    + unfold lock_freed. cbn. by rewrite !list_lookup_alter_eq, Hc'.
    + cbn. rewrite Hn'. cbn. split; [lia | lia].
  - destruct Hf as (l & Hfl & Hlo & _). unfold lock_of. cbn.
    rewrite lookup_insert_ne by done. by rewrite Hfl.
Qed.

(** With no one to resume it, the process stays asleep. *)
Lemma sleep_hang s c p ch lk pr :
  running s p c -> c_noff c = 1 -> lock_mine s lk -> lock_free s (LkProc p) ->
  k_procs s !! p = Some pr ->
  sleep ch lk (mkworld s []) = Hang (mkworld (sleep_enter p ch lk s) []).
Proof.
  intros Hr Hn Hm Hl Hpr.
  destruct (sleep_to_sched s [] c p ch lk pr Hr Hn Hm Hl Hpr) as [-> Hne].
  unfold bind. rewrite (sched_hang _ (pop_cpu (push_cpu c)) p
     (pr <| p_chan := Some ch |> <| p_state := SLEEPING |>)); try done.
  - by apply sleep_enter_running.
  - by apply sleep_enter_mine.
  - cbn. lia.
  - cbn. by rewrite list_lookup_alter_eq, Hpr.
Qed.

(** Sleeping while a second spin lock is held panics. *)
Lemma sleep_two_locks s e c p ch lk pr :
  running s p c -> 2 <= c_noff c < 2 ^ 31 - 2 -> lock_mine s lk -> lock_free s (LkProc p) ->
  k_procs s !! p = Some pr ->
  sleep ch lk (mkworld s e) = Panic "sched locks".
Proof.
  intros (Hc & Hp & Hlt) Hn Hm Hl Hpr. pose proof Hc as (Hcl & _ & Hsie).
  assert (lk <> LkProc p) as Hne.
  { intros ->. destruct Hm as (l & ? & ? & ?), Hl as (l' & ? & ? & ?). by simplify_eq. }
  unfold sleep, sleep_code. cbn [run].
  kcall (curproc_eq s e c p). rewrite (sync_nested s c) by (done || lia).
  kcall (acquire_eq s e c (LkProc p)).
  kcall (release_eq (lock_taken (LkProc p) s) e (push_cpu c) lk).
  { exact (on_cpu_lookup push_cpu s c Hcl). } { cbn. lia. }
  { destruct Hm as (l & ? & ?). exists l. cbn. by rewrite lookup_insert_ne by congruence. }
  rewrite !bind_upd_proc. unfold bind.
  rewrite (sched_locks _ e (pop_cpu (push_cpu c)) p); [done | | | cbn; lia].
  - split; [| done]. split.
    + unfold lock_freed. cbn. by rewrite !list_lookup_alter_eq, Hcl.
    + cbn. rewrite (proj2 (Z.eqb_neq (c_noff c + 1) 1)) by lia. cbn. split; [lia | done].
  - eexists. cbn. by rewrite lookup_insert_ne, lookup_insert_eq by done.
Qed.

(** ** Sleeping in a loop

    [resumes p lk f]: the step [f] of the rest of the system, taken while [p]
    sleeps, lets [p] run again, on some hart, with the lock it slept under free. *)
Definition resumes (p : nat) (lk : lockid) (f : kstate -> kstate) : Prop :=
  forall s, resumed (f s) p /\ lock_free (f s) lk /\ is_Some (k_procs (f s) !! p).

(** Process [p] holds [lk] and no other spin lock. *)
Definition in_section (s : kstate) (p : nat) (lk : lockid) : Prop :=
  exists c pr, running s p c /\ c_noff c = 1 /\ lock_mine s lk /\ lock_free s (LkProc p) /\
    k_procs s !! p = Some pr.

Lemma in_section_taken s p c lk pr :
  running s p c -> c_noff c = 0 -> (forall i, lk <> LkProc i) -> lock_free s (LkProc p) ->
  k_procs s !! p = Some pr -> in_section (lock_taken lk s) p lk.
Proof.
  intros Hr Hn Hlk Hl Hpr. exists (push_cpu c), pr.
  split; [by apply running_taken; [| lia] |]. split; [cbn; lia |].
  split; [apply lock_mine_taken | split; [by apply lock_free_taken | done]].
Qed.

Lemma sleep_leave_section p lk i s :
  (p < NPROC)%nat -> (forall i, lk <> LkProc i) ->
  resumed s p -> is_Some (k_procs s !! p) -> in_section (sleep_leave p lk i s) p lk.
Proof.
  intros Hlt Hlk (Hm & c & Hc & Hp & Hn & Hs) [pr Hpr].
  exists (push_cpu (pop_cpu (c <| c_intena := i |>))), (pr <| p_chan := None |>).
  split; [split; [split |] |].
  - unfold sleep_leave, lock_freed. cbn. by rewrite !list_lookup_alter_eq, Hc.
  - cbn. rewrite Hn. cbn. split; [lia | done].
  - done.
  - split; [cbn; lia |]. split; [apply lock_mine_taken |]. split.
    + apply lock_free_taken; [done |]. eexists. unfold lock_freed. cbn. by rewrite lookup_insert_eq.
    + cbn. by rewrite list_lookup_alter_eq, Hpr.
Qed.

(** One round of such a loop: asleep, resumed by [f], in the section again; the
    other variables are those [f] left. *)
Lemma sleep_round s p f e ch lk :
  in_section s p lk -> (forall i, lk <> LkProc i) -> resumes p lk f ->
  exists s1 i, sleep ch lk (mkworld s (f :: e)) = Ret tt (mkworld (sleep_leave p lk i (f s1)) e) /\
    in_section (sleep_leave p lk i (f s1)) p lk.
Proof.
  intros (c & pr & Hr & Hn & Hm & Hl & Hpr) Hlk Hf.
  destruct (Hf (sleep_enter p ch lk s)) as (Hre & Hfl & Hps).
  exists (sleep_enter p ch lk s), (c_intena c). split; [by apply (sleep_eq s f e c p ch lk pr) |].
  apply sleep_leave_section; try done. by destruct Hr as (_ & _ & ?).
Qed.

(** With no step of the system left, [sleep] does not return. *)
Lemma sleep_stuck s p ch lk :
  in_section s p lk -> exists w, sleep ch lk (mkworld s []) = Hang w.
Proof.
  intros (c & pr & Hr & Hn & Hm & Hl & Hpr). eexists. by apply (sleep_hang s c p ch lk pr).
Qed.

Lemma release_in_section s p lk e :
  in_section s p lk -> release lk (mkworld s e) = Ret tt (mkworld (lock_freed lk s) e).
Proof.
  intros (c & pr & (Hc & _) & Hn & Hm & _). destruct Hc as (Hcl & _ & Hs).
  apply (release_eq s e c); [done | apply Hs; lia | lia | done].
Qed.

(** [while(!ready) sleep(ch, lk);]: the shape of the kernel's waiting loops. *)
Fixpoint wait_until (fuel : nat) (ready : kstate -> bool) (ch : chan) (lk : lockid) : K unit :=
  match fuel with
  | O => hang
  | S n =>
      let! r := get ready in
      if r then ret tt else sleep ch lk ;;; wait_until n ready ch lk
  end.

(** Such a loop ends, with the condition true and the lock held, once some step of
    the system has made the condition true; every round uses one step of the
    system, so a fuel above their number is enough. *)
Lemma wait_until_ends ready ch lk p :
  (forall i, lk <> LkProc i) -> (forall i s, ready (sleep_leave p lk i s) = ready s) ->
  forall e s n, (length e < n)%nat -> in_section s p lk -> Forall (resumes p lk) e ->
  Exists (fun f => forall s, ready (f s) = true) e \/ ready s = true ->
  exists s1 e1, wait_until n ready ch lk (mkworld s e) = Ret tt (mkworld s1 e1) /\
    in_section s1 p lk /\ ready s1 = true /\
    ((s1 = s /\ e1 = e) \/ exists f s0 i, f ∈ e /\ s1 = sleep_leave p lk i (f s0)).
Proof.
  intros Hlk Hframe. induction e as [| f e IH]; intros s n Hlen Hin Hall Hex;
    (destruct n as [| n]; [simpl in Hlen; lia |]); cbn [wait_until]; krun;
    destruct (ready s) eqn:Hr; [by eauto 10 | | by eauto 10 |].
  - destruct Hex as [Hex | ?]; [by apply Exists_nil in Hex | done].
  - apply Forall_cons in Hall as [Hf Hall].
    destruct (sleep_round s p f e ch lk) as (s1 & i & Heq & Hin'); [done | done | done |].
    rewrite (bind_ret _ _ _ _ _ Heq).
    destruct (IH (sleep_leave p lk i (f s1)) n) as (s2 & e2 & Hl & Hin2 & Hpos & Hor);
      [simpl in Hlen; lia | done | done | |].
    { destruct Hex as [[Hex | Hex]%Exists_cons | ?]; [right | by left | done]. by rewrite Hframe. }
    exists s2, e2. split; [exact Hl |]. split; [done |]. split; [done |]. right.
    destruct Hor as [[-> _] | (g & s0 & j & Hg & Hs)].
    + exists f, s1, i. split; [by left | done].
    + exists g, s0, j. split; [by right | done].
Qed.

(** [killed] inside the section: nothing changes. *)
Lemma killed_section s p lk e pr :
  in_section s p lk -> k_procs s !! p = Some pr -> killed p (mkworld s e) = Ret (p_killed pr) (mkworld s e).
Proof.
  intros (c & _ & Hr & Hn & Hm & Hl & _) Hpr. pose proof Hr as (Hc & Hp & _).
  pose proof Hc as (Hcl & _).
  rewrite (killed_eq s e c p pr) by done. by rewrite (sync_nested s c) by (done || lia).
Qed.
Lemma curproc_section s p lk e : in_section s p lk -> curproc (mkworld s e) = Ret p (mkworld s e).
Proof.
  intros (c & pr & (Hc & Hp & _) & Hn & _). pose proof Hc as (Hcl & _).
  rewrite (curproc_eq s e c p) by done. by rewrite (sync_nested s c) by (done || lia).
Qed.

Lemma procs_free_taken s lk me : (forall i, lk <> LkProc i) -> procs_free s me -> procs_free (lock_taken lk s) me.
Proof.
  intros Hne [Hl Hf]. split; [done |]. intros i Hi Him. apply lock_free_taken; [apply Hne | by apply Hf].
Qed.

(** [wakeup] then [release] at the end of a section that began in [s]. *)
Lemma wakeup_release s s2 e c ch lk :
  cpu_ok s c -> c_noff c < 2 ^ 31 - 2 -> procs_free s (c_proc c) -> lock_free s lk -> (forall i, lk <> LkProc i) ->
  k_hart s2 = k_hart s -> k_cpus s2 = k_cpus (lock_taken lk s) -> k_locks s2 = k_locks (lock_taken lk s) ->
  k_procs s2 = k_procs s ->
  (wakeup ch ;;; release lk) (mkworld s2 e) =
    Ret tt (mkworld (s2 <| k_procs ::= wake_all ch (c_proc c) |>
                        <| k_cpus := k_cpus (sync s) |> <| k_locks := k_locks s |>) e).
Proof.
  intros Hc Hn Hf Hl Hne Hh Hcs Hls Hps. pose proof Hc as (Hcl & ? & _).
  assert (k_cpus s2 !! k_hart s2 = Some (push_cpu c)) as Hc2.
  { rewrite Hcs, Hh. exact (on_cpu_lookup push_cpu s c Hcl). }
  kcall (wakeup_eq s2 e (push_cpu c) ch).
  { split; [done | cbn; split; [lia | done]]. }
  { destruct Hf as [Hlen Hf]. split; [by rewrite Hps |]. intros i Hi Him.
    destruct (lock_free_taken s lk (LkProc i) (Hne i) (Hf i Hi Him)) as (l & Hlk & ?).
    exists l. by rewrite Hls. }
  rewrite (sync_nested s2 (push_cpu c) Hc2) by (cbn; lia).
  by rewrite (release_section s _ e c lk).
Qed.

(** ** Properties *)

(** [wakeup(ch)] makes exactly the other processes that sleep on [ch]
    runnable: it returns, every slot keeps its contents except that a sleeper on
    [ch] (other than the caller) becomes [RUNNABLE], and locks, memory and the rest
    of the kernel state are as before. *)
Theorem wakeup_exact s e c ch :
  cpu_ok s c -> procs_free s (c_proc c) ->
  exists s', wakeup ch (mkworld s e) = Ret tt (mkworld s' e) /\
    s' = (sync s) <| k_procs := k_procs s' |> /\
    forall i p, k_procs s !! i = Some p ->
      k_procs s' !! i = Some (if bool_decide (c_proc c <> Some i /\ p_state p = SLEEPING /\ p_chan p = Some ch)
                              then p <| p_state := RUNNABLE |> else p).
Proof.
  intros Hc Hf. eexists. split; [by apply (wakeup_eq s e c) |]. split; [done |].
  intros i p Hp. cbn. unfold wake_all. rewrite list_lookup_imap, Hp. cbn. f_equal. unfold wake_proc.
  destruct (decide (c_proc c = Some i)).
  - rewrite bool_decide_true by done. by rewrite bool_decide_false by tauto.
  - rewrite bool_decide_false by done. repeat case_bool_decide; cbn; done || tauto.
Qed.

(** [kkill(pid, signum)] marks signal [signum] pending in the first slot of the
    table with that pid, wakes it if it sleeps and returns 0, leaving every other
    slot alone; when no slot has the pid it returns -1 and changes no process. *)
Theorem kkill_signals s e c pid signum :
  cpu_ok s c -> procs_free s None ->
  exists r s', kkill pid signum (mkworld s e) = Ret r (mkworld s' e) /\
    match find_pid pid (k_procs s) 0 with
    | Some i => r = 0 /\ k_procs s' = alter (signal_proc signum) i (k_procs s)
    | None => r = -1 /\ k_procs s' = k_procs s
    end.
Proof.
  intros Hc Hf. pose proof (kkill_eq s e c pid signum Hc Hf) as Hk.
  destruct (find_pid pid (k_procs s) 0); eauto.
Qed.

(** ** Examples *)
Definition procs_free_b (s : kstate) (me : option nat) : bool :=
  Nat.eqb (length (k_procs s)) NPROC &&
  forallb (fun i => bool_decide (Some i = me) || lock_free_b s (LkProc i)) (seq 0 NPROC).
Lemma procs_free_dec s me : procs_free_b s me = true -> procs_free s me.
Proof.
  intros [Hl Hf]%andb_true_iff. split; [by apply Nat.eqb_eq |]. intros i Hi Hne.
  rewrite forallb_forall in Hf. specialize (Hf i). rewrite orb_true_iff in Hf.
  destruct Hf as [Hd%bool_decide_eq_true | Hd]; [apply in_seq; lia | done |].
  by apply lock_free_dec.
Qed.

Lemma sample_procs_free me : procs_free sample me.
Proof.
  destruct (procs_free_dec sample None) as [Hl Hf]; [by vm_compute |].
  split; [done |]. intros i Hi _. by apply Hf.
Qed.

Lemma wakeup_exact_witness :
  exists s', wakeup ChSem (mkworld sample []) = Ret tt (mkworld s' []) /\
    s' = (sync sample) <| k_procs := k_procs s' |> /\
    forall i p, k_procs sample !! i = Some p ->
      k_procs s' !! i = Some (if bool_decide (Some 3%nat <> Some i /\ p_state p = SLEEPING /\ p_chan p = Some ChSem)
                              then p <| p_state := RUNNABLE |> else p).
Proof.
  apply (wakeup_exact sample [] sample_cpu); [exact sample_cpu_ok | apply sample_procs_free].
Defined.

Lemma kkill_signals_witness :
  exists r s', kkill 9 5 (mkworld sample []) = Ret r (mkworld s' []) /\
    r = 0 /\ k_procs s' = alter (signal_proc 5) 5%nat (k_procs sample).
Proof.
  destruct (kkill_signals sample [] sample_cpu 9 5) as (r & s' & Hk & Hr).
  - exact sample_cpu_ok.
  - apply sample_procs_free.
  - exists r, s'. split; [exact Hk | exact Hr].
Defined.
