(* ===== verification/SleepConc.v ===== *)
(** * Sleep and wakeup on two harts ([kernel/proc.c])

    One hart runs [sleep(ch, lk)], holding [lk]; another runs the code that makes the
    condition true, [acquire(lk); ...; wakeup(ch); release(lk);].  Their statements
    interleave in every order the locks allow.  When the sleeper gives up its hart the
    scheduler there takes over, and it resumes the process once it finds it runnable.
    The system cannot stop before [sleep] has returned: no wakeup is lost. *)
From S2P Require Import Prelude Kstate Spinlock Mem Sample Sched.
Local Open Scope Z_scope.

(** ** The system *)

(** The process that sleeps. *)
Inductive thread : Type :=
| Runs (c : code)                     (** its code from here on *)
| Leaving (s0 : kstate) (k : code)    (** [sched], called in [s0], has switched to the scheduler *)
| Away (s0 : kstate) (k : code)       (** the scheduler has released [p->lock] *)
| Returned.
Inductive progress (T : Type) : Type :=
| Next (t : T) (s : kstate)
| Blocked
| Crash.
#[global] Arguments Next {T} t s.
#[global] Arguments Blocked {T}.
#[global] Arguments Crash {T}.

(** One statement on hart [h]; one that spins does nothing. *)
Definition on_hart (h : nat) (s : kstate) : kstate := s <| k_hart := h |>.
Definition exec {A T} (h : nat) (m : K A) (s : kstate) (k : A -> kstate -> progress T) : progress T :=
  match m (mkworld (on_hart h s) []) with
  | Ret a w => k a (w_k w)
  | Hang _ => Blocked
  | Panic _ => Crash
  end.

Section system.
Context (h1 h2 p : nat) (ch : chan) (lk : lockid) (set_cond : kstate -> kstate).

(** A visit of the scheduler that finds [p] not runnable changes nothing. *)
Definition sleeper_exec (t : thread) (s : kstate) : progress thread :=
  match t with
  | Runs (Act m k) => exec h1 m s (fun a s' => Next (Runs (k a)) s')
  | Runs (Last m) => exec h1 m s (fun _ s' => Next Returned s')
  | Runs (Switch k) =>
      match sched (mkworld (on_hart h1 s) []) with
      | Hang w => Next (Leaving (on_hart h1 s) k) (w_k w)
      | _ => Crash
      end
  | Leaving s0 k => exec h1 (scheduler_back ;;; release (LkProc p)) s (fun _ s' => Next (Away s0 k) s')
  | Away s0 k =>
      exec h1 (scheduler_enter p) s (fun (go : bool) s' =>
        if go then
          match sched (mkworld s0 [fun _ => s']) with
          | Ret _ w => Next (Runs k) (w_k w)
          | _ => Crash
          end
        else Blocked)
  | Returned => Blocked
  end.

Definition waker_code : code :=
  Act (acquire lk) (fun _ =>
  Act (put set_cond) (fun _ =>
  wakeup_code ch all_procs (Last (release lk)))).
Definition waker_exec (t : option code) (s : kstate) : progress (option code) :=
  match t with
  | Some (Act m k) => exec h2 m s (fun a s' => Next (Some (k a)) s')
  | Some (Last m) => exec h2 m s (fun _ s' => Next None s')
  | Some (Switch _) => Crash
  | None => Blocked
  end.

Definition sys : Type := kstate * thread * option code.
Inductive step : sys -> sys -> Prop :=
| step_sleeper s t w s' t' : sleeper_exec t s = Next t' s' -> step (s, t, w) (s', t', w)
| step_waker s t w s' w' : waker_exec w s = Next w' s' -> step (s, t, w) (s', t, w').

(** ** What the state shows of a hart and of a lock *)
Definition cpu_at (s : kstate) (h : nat) (n : Z) (o : option nat) : Prop :=
  exists c, k_cpus s !! h = Some c /\ c_noff c = n /\ c_proc c = o /\ (0 < n -> c_sie c = false).
Definition owned (s : kstate) (l : lockid) (o : option nat) : Prop :=
  exists x, k_locks s !! l = Some x /\ lk_locked x = (if o then true else false) /\ lk_cpu x = o.

(** The change a statement makes: hart [h] nests by [d], locks [l] changes to [o]. *)
Definition frame (h : nat) (d : Z) (s s' : kstate) : Prop :=
  (forall n o, cpu_at s h n o -> cpu_at s' h (n + d) o) /\
  (forall h' n o, h' <> h -> cpu_at s h' n o -> cpu_at s' h' n o).
Definition locks_to (l : lockid) (o : option nat) (s s' : kstate) : Prop :=
  owned s' l o /\ forall l' o', l' <> l -> owned s l' o' -> owned s' l' o'.

Lemma cpu_at_ok s h n o : cpu_at s h n o -> 0 <= n < 10 -> exists c, cpu_ok (on_hart h s) c /\ c_proc c = o /\ c_noff c = n.
Proof.
  intros (c & Hc & Hn & Ho & Hs) Hr. exists c. split; [| done]. split; [exact Hc |]. rewrite Hn. split; [lia | done].
Qed.

Lemma acquire_at h l s n o : cpu_at s h n o -> 0 <= n < 10 -> owned s l None ->
  exists s', (forall T (k : unit -> kstate -> progress T), exec h (acquire l) s k = k tt s') /\ k_procs s' = k_procs s /\ frame h 1 s s' /\ locks_to l (Some h) s s'.
Proof.
  intros Hcpu Hn Hl. destruct (cpu_at_ok s h n o Hcpu Hn) as (c & Hok & _ & Hnc). pose proof Hok as (Hcl & _).
  exists (lock_taken l (on_hart h s)). split.
  { intros T k. unfold exec. destruct Hl as (x & Hx & Hf & _). rewrite (acquire_eq _ [] c l Hok); [done |]. unfold lock_of. cbn. by rewrite Hx. }
  split; [done |]. split; split.
  - intros n' o' (c' & Hc' & <- & <- & Hs). exists (push_cpu c'). split; [| done]. cbn. by rewrite list_lookup_alter_eq, Hc'.
  - intros h' n' o' Hne (c' & Hc' & ?). exists c'. split; [| done]. cbn. by rewrite list_lookup_alter_ne by done.
  - eexists. cbn. rewrite lookup_insert_eq. done.
  - intros l' o' Hne (x & Hx & ?). exists x. split; [| done]. cbn. by rewrite lookup_insert_ne by done.
Qed.
Lemma acquire_spins {T} h h' l s n o (k : unit -> kstate -> progress T) : cpu_at s h n o -> 0 <= n < 10 -> owned s l (Some h') -> h' <> h ->
  exec h (acquire l) s k = Blocked.
Proof.
  intros Hcpu Hn (x & Hx & Hl & Hc) Hne. destruct (cpu_at_ok s h n o Hcpu Hn) as (c & Hok & _).
  unfold exec, acquire. rewrite (bind_ret _ _ _ _ _ (push_off_eq _ [] c Hok)).
  unfold holding, cpuid, get, gets, bind, ret. cbn. unfold lock_of. cbn. rewrite Hx. cbn. rewrite Hl, Hc. cbn.
  rewrite bool_decide_false by congruence. cbn.
  unfold test_and_set, set_lock, put, modify, get, gets, bind, ret, lock_of. cbn. rewrite Hx. cbn. by rewrite Hl.
Qed.
Lemma release_at h l s n o : cpu_at s h n o -> 1 <= n < 10 -> owned s l (Some h) ->
  exists s', (forall T (k : unit -> kstate -> progress T), exec h (release l) s k = k tt s') /\ k_procs s' = k_procs s /\ frame h (-1) s s' /\ locks_to l None s s'.
Proof.
  intros Hcpu Hn Hl. destruct (cpu_at_ok s h n o Hcpu ltac:(lia)) as (c & (Hcl & Hr & Hs) & _ & Hnc).
  exists (lock_freed l (on_hart h s)). split.
  { intros T k. unfold exec. rewrite (release_eq _ [] c l Hcl); [done | apply Hs; lia | lia |]. destruct Hl as (x & Hx & Hlk & Hc). by exists x. }
  split; [done |]. split; split.
  - intros n' o' (c' & Hc' & <- & <- & Hs'). assert (c' = c) as -> by (cbn in Hcl; congruence). exists (pop_cpu c).
    cbn. rewrite list_lookup_alter_eq, Hc'. split; [done |]. split; [lia |]. split; [done |].
    intros Hpos. by rewrite (proj2 (Z.eqb_neq (c_noff c) 1)) by lia.
  - intros h' n' o' Hne (c' & Hc' & ?). exists c'. split; [| done]. cbn. by rewrite list_lookup_alter_ne by done.
  - eexists. cbn. rewrite lookup_insert_eq. done.
  - intros l' o' Hne (x & Hx & ?). exists x. split; [| done]. cbn. by rewrite lookup_insert_ne by done.
Qed.
(** Statements that change no lock and no hart. *)
Definition steady (s s' : kstate) : Prop :=
  (forall h n o, cpu_at s h n o -> cpu_at s' h n o) /\ (forall l o, owned s l o -> owned s' l o).
Lemma steady_same s s' : k_cpus s' = k_cpus s -> k_locks s' = k_locks s -> steady s s'.
Proof. intros Hc Hl. unfold steady, cpu_at, owned. rewrite Hc, Hl. done. Qed.
Lemma myproc_at h s n o : cpu_at s h n o -> 0 <= n < 10 ->
  exists s', (forall T (k : option nat -> kstate -> progress T), exec h myproc s k = k o s') /\ k_procs s' = k_procs s /\ steady s s'.
Proof.
  intros Hcpu Hn. destruct (cpu_at_ok s h n o Hcpu Hn) as (c & Hok & <- & Hnc). exists (sync (on_hart h s)).
  split; [intros T k; unfold exec; by rewrite (myproc_eq _ [] c Hok) |]. split; [done |]. split; [| done].
  intros h' n' o' (c' & Hc' & ?). unfold cpu_at. cbn. destruct (decide (h' = h)) as [-> | Hne].
  - rewrite list_lookup_alter_eq, Hc'. by exists (sync_cpu c').
  - rewrite list_lookup_alter_ne by done. by exists c'.
Qed.
Lemma curproc_at h s n q : cpu_at s h n (Some q) -> 0 <= n < 10 ->
  exists s', (forall T (k : nat -> kstate -> progress T), exec h curproc s k = k q s') /\ k_procs s' = k_procs s /\ steady s s'.
Proof.
  intros Hcpu Hn. destruct (myproc_at h s n (Some q) Hcpu Hn) as (s' & E & H).
  exists s'. split; [| exact H]. intros T k. specialize (E T (fun o s' => match o with Some q => k q s' | None => Crash end)). cbn in E. rewrite <- E. unfold exec, curproc, bind. destruct (myproc _) as [[q' |] w | |]; done.
Qed.
Lemma get_proc_at {T} h s i pr (k : proc -> kstate -> progress T) : k_procs s !! i = Some pr ->
  exec h (get_proc i) s k = k pr (on_hart h s).
Proof. intros Hp. unfold exec. by rewrite (get_proc_eq (on_hart h s) [] i pr Hp). Qed.
Lemma upd_proc_at {T} h s i f (k : unit -> kstate -> progress T) :
  exec h (upd_proc i f) s k = k tt ((on_hart h s) <| k_procs ::= alter f i |>).
Proof. done. Qed.

(** ** Where the two are *)
Inductive sphase : Type :=
| S_enter | S_acquire | S_release | S_chan | S_state | S_switch
| S_leaving (s0 : kstate) | S_away (s0 : kstate) | S_tidy | S_unlock | S_relock | S_done.
Inductive wphase : Type :=
| W_acquire | W_set
| W_scan (l : list nat)                 (** the slots still to visit *)
| W_lock (i : nat) (l : list nat) | W_test (i : nat) (l : list nat)
| W_wake (i : nat) (l : list nat) | W_unlock (i : nat) (l : list nat)
| W_done.

(** The code each has left. *)
Definition tidy_code : code :=
  Act (upd_proc p (fun pr => pr <| p_chan := None |>)) (fun _ =>
  Act (release (LkProc p)) (fun _ => Last (acquire lk))).
Definition go_code (n : nat) : code :=
  let c5 := Switch tidy_code in
  let c4 := Act (upd_proc p (fun pr => pr <| p_state := SLEEPING |>)) (fun _ => c5) in
  let c3 := Act (upd_proc p (fun pr => pr <| p_chan := Some ch |>)) (fun _ => c4) in
  let c2 := Act (release lk) (fun _ => c3) in
  match n with 5%nat => c5 | 4%nat => c4 | 3%nat => c3 | 2%nat => c2 | _ => Act (acquire (LkProc p)) (fun _ => c2) end.
Definition thread_of (sp : sphase) : thread :=
  match sp with
  | S_enter => Runs (sleep_code ch lk)
  | S_acquire => Runs (go_code 1)
  | S_release => Runs (go_code 2)
  | S_chan => Runs (go_code 3)
  | S_state => Runs (go_code 4)
  | S_switch => Runs (go_code 5)
  | S_leaving s0 => Leaving s0 tidy_code
  | S_away s0 => Away s0 tidy_code
  | S_tidy => Runs tidy_code
  | S_unlock => Runs (Act (release (LkProc p)) (fun _ => Last (acquire lk)))
  | S_relock => Runs (Last (acquire lk))
  | S_done => Returned
  end.
Definition scan_code (l : list nat) : code := wakeup_code ch l (Last (release lk)).
Definition unlock_code (i : nat) (l : list nat) : code := Act (release (LkProc i)) (fun _ => scan_code l).
Definition waker_of (wp : wphase) : option code :=
  match wp with
  | W_acquire => Some waker_code
  | W_set => Some (Act (put set_cond) (fun _ => scan_code all_procs))
  | W_scan l => Some (scan_code l)
  | W_lock i l => Some (Act (acquire (LkProc i)) (fun _ => Act (get_proc i) (fun pr =>
      if bool_decide (p_state pr = SLEEPING) && bool_decide (p_chan pr = Some ch)
      then Act (upd_proc i (fun pr => pr <| p_state := RUNNABLE |>)) (fun _ => unlock_code i l) else unlock_code i l)))
  | W_test i l => Some (Act (get_proc i) (fun pr =>
      if bool_decide (p_state pr = SLEEPING) && bool_decide (p_chan pr = Some ch)
      then Act (upd_proc i (fun pr => pr <| p_state := RUNNABLE |>)) (fun _ => unlock_code i l) else unlock_code i l))
  | W_wake i l => Some (Act (upd_proc i (fun pr => pr <| p_state := RUNNABLE |>)) (fun _ => unlock_code i l))
  | W_unlock i l => Some (unlock_code i l)
  | W_done => None
  end.

(** The locks they hold. *)
Definition s_lk (sp : sphase) : bool := match sp with S_enter | S_acquire | S_release | S_done => true | _ => false end.
Definition s_p (sp : sphase) : bool :=
  match sp with S_release | S_chan | S_state | S_switch | S_leaving _ | S_tidy | S_unlock => true | _ => false end.
Definition w_lk (wp : wphase) : bool := match wp with W_acquire | W_done => false | _ => true end.
Definition w_slot (wp : wphase) : option nat :=
  match wp with W_test i _ | W_wake i _ | W_unlock i _ => Some i | _ => None end.
Definition bit (b : bool) : Z := if b then 1 else 0.
Definition s_depth (sp : sphase) : Z := bit (s_lk sp) + bit (s_p sp).
Definition w_depth (wp : wphase) : Z := bit (w_lk wp) + bit (if w_slot wp then true else false).
Definition s_proc (sp : sphase) : option nat := match sp with S_away _ => None | _ => Some p end.
Definition lk_owner (sp : sphase) (wp : wphase) : option nat := if s_lk sp then Some h1 else if w_lk wp then Some h2 else None.
Definition slot_owner (sp : sphase) (wp : wphase) (i : nat) : option nat :=
  if bool_decide (i = p) && s_p sp then Some h1 else if bool_decide (w_slot wp = Some i) then Some h2 else None.

(** The slots [wakeup] has not tested yet. *)
Definition todo (wp : wphase) : list nat :=
  match wp with
  | W_acquire | W_set => all_procs
  | W_scan l | W_unlock _ l => l
  | W_lock i l | W_test i l | W_wake i l => i :: l
  | W_done => []
  end.
Definition asleep (pr : proc) : Prop := p_state pr = SLEEPING /\ p_chan pr = Some ch.
(** What the slot of the sleeper says. *)
Definition slot_ok (sp : sphase) (wp : wphase) (pr : proc) : Prop :=
  match sp with
  | S_enter | S_acquire | S_release => p_state pr = RUNNING /\ wp = W_acquire
  | S_chan => p_state pr = RUNNING /\ p ∈ todo wp
  | S_state => p_state pr = RUNNING /\ p_chan pr = Some ch /\ p ∈ todo wp
  | S_switch | S_leaving _ => asleep pr /\ p ∈ todo wp
  | S_away _ => (asleep pr /\ p ∈ todo wp) \/ (p_state pr = RUNNABLE /\ wp <> W_acquire)
  | _ => p_state pr = RUNNING /\ wp <> W_acquire
  end /\ (forall l, wp = W_wake p l -> exists s0, sp = S_away s0 /\ asleep pr).
(** The state [sched] was called in. *)
Definition left_in (s0 : kstate) : Prop :=
  exists c pr, running s0 p c /\ lock_mine s0 (LkProc p) /\ c_noff c = 1 /\ k_procs s0 !! p = Some pr /\ p_state pr <> RUNNING.

Context (me : option nat).
Record inv (sp : sphase) (wp : wphase) (s : kstate) : Prop := {
  iv_cpu1 : cpu_at s h1 (s_depth sp) (s_proc sp);
  iv_cpu2 : cpu_at s h2 (w_depth wp) me;
  iv_lk : owned s lk (lk_owner sp wp);
  iv_slots : forall i, (i < NPROC)%nat -> owned s (LkProc i) (slot_owner sp wp i);
  iv_excl : s_lk sp && w_lk wp = false /\ (s_p sp = true -> w_slot wp <> Some p);
  iv_len : length (k_procs s) = NPROC;
  iv_todo : Forall (fun i => i < NPROC)%nat (todo wp) /\ (forall i, w_slot wp = Some i -> i < NPROC)%nat;
  iv_slot : exists pr, k_procs s !! p = Some pr /\ slot_ok sp wp pr;
  iv_left : match sp with S_leaving s0 | S_away s0 => left_in s0 | _ => True end
}.
Hypothesis (Hh : h1 <> h2) (Hp : (p < NPROC)%nat) (Hme : me <> Some p) (Hlk : forall i, lk <> LkProc i).

Lemma s_depth_small sp : 0 <= s_depth sp <= 2.
Proof. by destruct sp. Qed.
Lemma w_depth_small wp : 0 <= w_depth wp <= 2.
Proof. by destruct wp. Qed.

(** Moves that change no lock. *)
Lemma inv_steady sp wp sp' wp' s s' : inv sp wp s -> steady s s' ->
  s_lk sp' = s_lk sp -> s_p sp' = s_p sp -> s_proc sp' = s_proc sp -> w_lk wp' = w_lk wp -> w_slot wp' = w_slot wp ->
  Forall (fun i => i < NPROC)%nat (todo wp') -> length (k_procs s') = NPROC ->
  (exists pr, k_procs s' !! p = Some pr /\ slot_ok sp' wp' pr) ->
  match sp' with S_leaving s0 | S_away s0 => left_in s0 | _ => True end -> inv sp' wp' s'.
Proof.
  intros [H1 H2 Hl Hs He _ [_ Ht] _ _] [Sc Sl] E1 E2 E3 E4 E5 Htodo Hlen Hslot Hleft. split; try done.
  - unfold s_depth. rewrite E1, E2, E3. by apply Sc.
  - unfold w_depth. rewrite E4, E5. by apply Sc.
  - unfold lk_owner. rewrite E1, E4. by apply Sl.
  - intros i Hi. unfold slot_owner. rewrite E2, E5. by apply Sl, Hs.
  - by rewrite E1, E2, E4, E5.
  - split; [done |]. by rewrite E5.
Qed.
(** Moves that take or release a lock. *)
Lemma inv_lock sp wp sp' wp' s s' l o : inv sp wp s -> locks_to l o s s' -> k_procs s' = k_procs s ->
  cpu_at s' h1 (s_depth sp') (s_proc sp') -> cpu_at s' h2 (w_depth wp') me ->
  lk_owner sp' wp' = (if decide (l = lk) then o else lk_owner sp wp) ->
  (forall i, slot_owner sp' wp' i = if decide (l = LkProc i) then o else slot_owner sp wp i) ->
  s_lk sp' && w_lk wp' = false -> (s_p sp' = true -> w_slot wp' <> Some p) ->
  Forall (fun i => i < NPROC)%nat (todo wp') -> (forall i, w_slot wp' = Some i -> i < NPROC)%nat ->
  (forall pr, slot_ok sp wp pr -> slot_ok sp' wp' pr) ->
  match sp' with S_leaving s0 | S_away s0 => left_in s0 | _ => True end -> inv sp' wp' s'.
Proof.
  intros [_ _ Hl Hs _ Hlen _ (pr & Hpr & Hok) _] [Lo Lr] Hps C1 C2 El Es X1 X2 T1 T2 Hslot Hleft. split; try done.
  - rewrite El. destruct (decide (l = lk)) as [Hd | Hd]; [by rewrite <- Hd | by apply Lr].
  - intros i Hi. rewrite Es. destruct (decide (l = LkProc i)) as [Hd | Hd]; [by rewrite <- Hd | by apply Lr, Hs].
  - by rewrite Hps.
  - exists pr. rewrite Hps. auto.
Qed.

Definition s_rank (sp : sphase) : nat :=
  match sp with
  | S_enter => 11 | S_acquire => 10 | S_release => 9 | S_chan => 8 | S_state => 7 | S_switch => 6
  | S_leaving _ => 5 | S_away _ => 4 | S_tidy => 3 | S_unlock => 2 | S_relock => 1 | S_done => 0
  end.
Definition advances (sp : sphase) (wp : wphase) (t : thread) (s : kstate) : Prop :=
  exists sp', t = thread_of sp' /\ inv sp' wp s /\ (s_rank sp' < s_rank sp)%nat.
Definition waits (sp : sphase) (wp : wphase) : Prop :=
  sp = S_done \/ (sp = S_relock /\ w_lk wp = true) \/ (exists s0, sp = S_away s0 /\ (w_slot wp = Some p \/ p ∈ todo wp)).
Definition moves (sp : sphase) (wp : wphase) (r : progress thread) : Prop :=
  match r with
  | Next t s => advances sp wp t s
  | Blocked => waits sp wp
  | Crash => False
  end.

Lemma slot_owner_p sp wp : s_p sp = false -> w_slot wp <> Some p -> slot_owner sp wp p = None.
Proof. intros H1 H2. unfold slot_owner. by rewrite H1, andb_false_r, bool_decide_false. Qed.
Lemma slot_owner_mine sp wp : s_p sp = true -> slot_owner sp wp p = Some h1.
Proof. intros H1. unfold slot_owner. by rewrite H1, bool_decide_true. Qed.
(** The other slots are not the sleeper's. *)
Lemma slot_owner_other sp sp' wp i : i <> p -> slot_owner sp wp i = slot_owner sp' wp i.
Proof. intros Hi. unfold slot_owner. by rewrite bool_decide_false. Qed.

Lemma enter_moves wp s : inv S_enter wp s -> moves S_enter wp (sleeper_exec (thread_of S_enter) s).
Proof.
  intros Hi. pose proof Hi as [H1 _ _ _ _ Hlen [Ht _] (pr & Hpr & Hok) _]. cbn [sleeper_exec thread_of sleep_code].
  destruct (curproc_at h1 s _ p H1) as (s' & -> & Hps & Hst); [done |].
  destruct Hok as [(Hrun & ->) _]. exists S_acquire. split; [done |]. split; [| cbn; lia].
  apply (inv_steady S_enter W_acquire S_acquire W_acquire s s'); try done; [by rewrite Hps |]. exists pr. by rewrite Hps.
Qed.
Lemma acquire_moves wp s : inv S_acquire wp s -> moves S_acquire wp (sleeper_exec (thread_of S_acquire) s).
Proof.
  intros Hi. pose proof Hi as [H1 H2 _ Hs [He _] _ [Ht Ht'] (pr & Hpr & Hok) _]. cbn [sleeper_exec thread_of go_code].
  destruct Hok as [(Hrun & ->) Hw].
  pose proof (Hs p Hp) as Hfree. rewrite slot_owner_p in Hfree by done.
  destruct (acquire_at h1 (LkProc p) s _ _ H1) as (s' & -> & Hps & [F1 F2] & Hlo); [done | exact Hfree |].
  exists S_release. split; [done |]. split; [| cbn; lia].
  apply (inv_lock S_acquire W_acquire S_release W_acquire s s' (LkProc p) (Some h1)); try done.
  - exact (F1 _ _ H1).
  - by apply F2.
  - by rewrite decide_False by (intros E; by apply (Hlk p)).
  - intros i. case_decide as Hd; [injection Hd as <-; by apply slot_owner_mine |]. apply slot_owner_other. congruence.
  - by intros pr' [? _].
Qed.
Lemma release_moves wp s : inv S_release wp s -> moves S_release wp (sleeper_exec (thread_of S_release) s).
Proof.
  intros Hi. pose proof Hi as [H1 H2 Hl Hs [He _] _ [Ht Ht'] (pr & Hpr & Hok) _]. cbn [sleeper_exec thread_of go_code].
  destruct Hok as [(Hrun & ->) Hw].
  destruct (release_at h1 lk s _ _ H1) as (s' & -> & Hps & [F1 F2] & Hlo); [done | exact Hl |].
  exists S_chan. split; [done |]. split; [| cbn; lia].
  apply (inv_lock S_release W_acquire S_chan W_acquire s s' lk None); try done.
  - exact (F1 _ _ H1).
  - by apply F2.
  - by rewrite decide_True.
  - intros i. rewrite decide_False by apply Hlk. done.
  - intros pr' ((Hr & _) & _). split; [| done]. split; [done |]. apply elem_of_seq. lia.
Qed.
Lemma on_slot (s : kstate) f pr : k_procs s !! p = Some pr ->
  k_procs ((on_hart h1 s) <| k_procs ::= alter f p |>) !! p = Some (f pr).
Proof. intros Hpr. cbn. by rewrite list_lookup_alter_eq, Hpr. Qed.
(** The sleeper writes its own slot. *)
Lemma slot_moves sp sp' wp s f (k : thread) : inv sp wp s -> s_lk sp' = s_lk sp -> s_p sp' = s_p sp -> s_proc sp' = s_proc sp ->
  k = thread_of sp' -> (s_rank sp' < s_rank sp)%nat ->
  (forall pr, slot_ok sp wp pr -> slot_ok sp' wp (f pr)) -> match sp' with S_leaving s0 | S_away s0 => False | _ => True end ->
  advances sp wp k ((on_hart h1 s) <| k_procs ::= alter f p |>).
Proof.
  intros Hi E1 E2 E3 -> Hrank Hf Hl. pose proof Hi as [_ _ _ _ _ Hlen [Ht _] (pr & Hpr & Hok) _]. exists sp'.
  split; [done |]. split; [| done]. apply (inv_steady sp wp sp' wp s); try done.
  - cbn. by rewrite length_alter.
  - exists (f pr). split; [by apply on_slot | by apply Hf].
  - by destruct sp'.
Qed.
Lemma chan_moves wp s : inv S_chan wp s -> moves S_chan wp (sleeper_exec (thread_of S_chan) s).
Proof.
  intros Hi. cbn [sleeper_exec thread_of go_code]. rewrite upd_proc_at. apply (slot_moves S_chan S_state); try done; [cbn; lia |].
  intros pr [(Hr & Ht) Hw]. split; [done |]. intros l Hwp. by destruct (Hw l Hwp) as (? & ? & _).
Qed.
Lemma state_moves wp s : inv S_state wp s -> moves S_state wp (sleeper_exec (thread_of S_state) s).
Proof.
  intros Hi. cbn [sleeper_exec thread_of go_code]. rewrite upd_proc_at. apply (slot_moves S_state S_switch); try done; [cbn; lia |].
  intros pr [(Hr & Hc & Ht) Hw]. split; [done |]. intros l Hwp. by destruct (Hw l Hwp) as (? & ? & _).
Qed.
Lemma tidy_moves wp s : inv S_tidy wp s -> moves S_tidy wp (sleeper_exec (thread_of S_tidy) s).
Proof.
  intros Hi. cbn [sleeper_exec thread_of tidy_code]. rewrite upd_proc_at. apply (slot_moves S_tidy S_unlock); try done; [cbn; lia |].
  intros pr [(Hr & Ht) Hw]. split; [done |]. intros l Hwp. by destruct (Hw l Hwp) as (? & ? & _).
Qed.
Lemma switch_moves wp s : inv S_switch wp s -> moves S_switch wp (sleeper_exec (thread_of S_switch) s).
Proof.
  intros Hi. pose proof Hi as [H1 _ _ Hs _ Hlen [Ht _] (pr & Hpr & ((Has & Htd) & Hw)) _]. cbn [sleeper_exec thread_of go_code].
  destruct (cpu_at_ok _ _ _ _ H1) as (c & Hok & Hcp & Hn); [done |].
  assert (lock_mine (on_hart h1 s) (LkProc p)) as Hm.
  { pose proof (Hs p Hp) as (x & Hx & Hl & Hc). rewrite slot_owner_mine in Hl, Hc by done. by exists x. }
  assert (p_state pr <> RUNNING) as Hnr by (destruct Has; congruence).
  rewrite (sched_hang (on_hart h1 s) c p pr); [| done ..]. exists (S_leaving (on_hart h1 s)). split; [done |]. split; [| cbn; lia].
  apply (inv_steady S_switch wp _ wp s); try done.
  - exists pr. split; [done |]. split; [done |]. intros l Hwp. by destruct (Hw l Hwp) as (? & ? & _).
  - by exists c, pr.
Qed.

Lemma back_at s n o : cpu_at s h1 n o -> 1 <= n < 10 -> owned s (LkProc p) (Some h1) ->
  exists s', (forall T (k : unit -> kstate -> progress T), exec h1 (scheduler_back ;;; release (LkProc p)) s k = k tt s') /\
    k_procs s' = k_procs s /\ cpu_at s' h1 (n - 1) None /\ (forall h' n o, h' <> h1 -> cpu_at s h' n o -> cpu_at s' h' n o) /\
    locks_to (LkProc p) None s s'.
Proof.
  intros Hcpu Hn Hl. set (s1 := on_cpu (fun c => c <| c_proc := None |>) (on_hart h1 s)).
  assert (cpu_at s1 h1 n None) as H1.
  { destruct Hcpu as (c & Hc & <- & _ & Hs). exists (c <| c_proc := None |>). split; [| done]. exact (on_cpu_lookup _ (on_hart h1 s) c Hc). }
  destruct (release_at h1 (LkProc p) s1 n None H1 Hn Hl) as (s' & E & Hps & [F1 F2] & Hlo).
  exists s'. split; [intros T k; rewrite <- E; done |]. split; [done |]. split; [exact (F1 _ _ H1) |]. split; [| done].
  intros h' n' o' Hne (c & Hc & Hrest). apply F2; [done |]. exists c. split; [| done]. unfold s1. cbn. by rewrite list_lookup_alter_ne.
Qed.
Lemma leaving_moves s0 wp s : inv (S_leaving s0) wp s -> moves (S_leaving s0) wp (sleeper_exec (thread_of (S_leaving s0)) s).
Proof.
  intros Hi. pose proof Hi as [H1 H2 Hl Hs [He He'] _ [Ht Ht'] (pr & Hpr & Hok) Hleft]. cbn [sleeper_exec thread_of].
  pose proof (Hs p Hp) as Hm. rewrite slot_owner_mine in Hm by done.
  destruct (back_at s _ _ H1) as (s' & -> & Hps & F1 & F2 & Hlo); [done | done |].
  exists (S_away s0). split; [done |]. split; [| cbn; lia].
  apply (inv_lock (S_leaving s0) wp (S_away s0) wp s s' (LkProc p) None); try done.
  - by apply F2.
  - by rewrite decide_False by (intros E; by apply (Hlk p)).
  - intros i. case_decide as Hd; [injection Hd as <-; by apply slot_owner_p; [| apply He'] |]. apply slot_owner_other. congruence.
  - intros pr' ((Has & Htd) & Hw). split; [by left |]. intros l Hwp. by destruct (Hw l Hwp) as (? & ? & _).
Qed.
Lemma unlock_moves wp s : inv S_unlock wp s -> moves S_unlock wp (sleeper_exec (thread_of S_unlock) s).
Proof.
  intros Hi. pose proof Hi as [H1 H2 Hl Hs [He He'] _ [Ht Ht'] (pr & Hpr & Hok) _]. cbn [sleeper_exec thread_of].
  pose proof (Hs p Hp) as Hm. rewrite slot_owner_mine in Hm by done.
  destruct (release_at h1 (LkProc p) s _ _ H1) as (s' & -> & Hps & [F1 F2] & Hlo); [done | done |].
  exists S_relock. split; [done |]. split; [| cbn; lia].
  apply (inv_lock S_unlock wp S_relock wp s s' (LkProc p) None); try done.
  - exact (F1 _ _ H1).
  - by apply F2.
  - by rewrite decide_False by (intros E; by apply (Hlk p)).
  - intros i. case_decide as Hd; [injection Hd as <-; by apply slot_owner_p; [| apply He'] |]. apply slot_owner_other. congruence.
  - intros pr' ((Hr & Htd) & Hw). split; [done |]. intros l Hwp. by destruct (Hw l Hwp) as (? & ? & _).
Qed.
Lemma relock_moves wp s : inv S_relock wp s -> moves S_relock wp (sleeper_exec (thread_of S_relock) s).
Proof.
  intros Hi. pose proof Hi as [H1 H2 Hl Hs [He He'] _ [Ht Ht'] (pr & Hpr & Hok) _]. cbn [sleeper_exec thread_of].
  unfold lk_owner in Hl. cbn [s_lk] in Hl. destruct (w_lk wp) eqn:Hw.
  { rewrite (acquire_spins h1 h2 lk s _ _ _ H1); [by right; left | done | done | congruence]. }
  destruct (acquire_at h1 lk s _ _ H1) as (s' & -> & Hps & [F1 F2] & Hlo); [done | done |].
  exists S_done. split; [done |]. split; [| cbn; lia].
  apply (inv_lock S_relock wp S_done wp s s' lk (Some h1)); try done.
  - exact (F1 _ _ H1).
  - by apply F2.
  - by rewrite decide_True.
  - intros i. rewrite decide_False by apply Hlk. done.
  - intros pr' ((Hr & Htd) & Hw'). split; [done |]. intros l Hwp. by destruct (Hw' l Hwp) as (? & ? & _).
Qed.
(** The scheduler visits the process. *)
Lemma visit_spins s s0 k n o : cpu_at s h1 n o -> 0 <= n < 10 -> owned s (LkProc p) (Some h2) -> sleeper_exec (Away s0 k) s = Blocked.
Proof.
  intros H1 Hn Ho. pose proof (acquire_spins (T := unit) h1 h2 (LkProc p) s n o (fun _ _ => Crash) H1 Hn Ho ltac:(congruence)) as E.
  cbn [sleeper_exec]. unfold exec in *. unfold scheduler_enter, bind at 1. by destruct (acquire (LkProc p) _) as [? ? | ? | ?].
Qed.
Lemma visit_at s pr : cpu_at s h1 0 None -> owned s (LkProc p) None -> k_procs s !! p = Some pr ->
  let s1 := lock_taken (LkProc p) (on_hart h1 s) in
  scheduler_enter p (mkworld (on_hart h1 s) []) =
    if bool_decide (p_state pr = RUNNABLE)
    then Ret true (mkworld (on_cpu (fun c => c <| c_proc := Some p |>) (s1 <| k_procs ::= alter (fun pr => pr <| p_state := RUNNING |>) p |>)) [])
    else Ret false (mkworld s1 []).
Proof.
  intros H1 (x & Hx & Hf & _) Hpr s1. destruct (cpu_at_ok s h1 0 None H1 ltac:(lia)) as (c & Hok & _). unfold scheduler_enter.
  rewrite (bind_ret _ _ _ _ _ (acquire_eq (on_hart h1 s) [] c (LkProc p) Hok ltac:(unfold lock_of; cbn; by rewrite Hx))).
  rewrite (bind_ret _ _ _ _ _ (get_proc_eq s1 [] p pr Hpr)). by case_bool_decide.
Qed.
Lemma away_resumes s0 s pr : cpu_at s h1 0 None -> owned s (LkProc p) None -> k_procs s !! p = Some pr -> p_state pr = RUNNABLE -> left_in s0 ->
  exists s', sleeper_exec (Away s0 tidy_code) s = Next (Runs tidy_code) s' /\
    k_procs s' = alter (fun pr => pr <| p_state := RUNNING |>) p (k_procs s) /\ cpu_at s' h1 1 (Some p) /\
    (forall h' n o, h' <> h1 -> cpu_at s h' n o -> cpu_at s' h' n o) /\ locks_to (LkProc p) (Some h1) s s'.
Proof.
  intros H1 Ho Hpr Hst (c0 & pr0 & Hr0 & Hm0 & Hn0 & Hp0 & Hs0). pose proof (visit_at s pr H1 Ho Hpr) as E. cbv zeta in E.
  rewrite bool_decide_true in E by done. set (s2 := on_cpu _ _) in E. cbn [sleeper_exec]. unfold exec. rewrite E. cbn [w_k].
  rewrite (sched_switch s0 (fun _ => s2) [] c0 p pr0) by done. eexists. split; [reflexivity |]. cbn [w_k]. split; [done |].
  destruct H1 as (c & Hc & Hn & _). split; [| split; [| split]].
  - exists ((push_cpu c) <| c_proc := Some p |> <| c_intena := c_intena c0 |>). split; [| split; [cbn; lia | done]].
    refine (on_cpu_lookup _ s2 _ (on_cpu_lookup _ (lock_taken (LkProc p) (on_hart h1 s)) (push_cpu c) _)).
    exact (on_cpu_lookup push_cpu (on_hart h1 s) c Hc).
  - intros h' n o Hne (c' & Hc' & ?). exists c'. split; [| done]. cbn. by rewrite !list_lookup_alter_ne by done.
  - eexists. cbn. rewrite lookup_insert_eq. done.
  - intros l' o' Hne (x & Hx & ?). exists x. split; [| done]. cbn. by rewrite lookup_insert_ne by done.
Qed.
Lemma away_moves s0 wp s : inv (S_away s0) wp s -> moves (S_away s0) wp (sleeper_exec (thread_of (S_away s0)) s).
Proof.
  intros Hi. pose proof Hi as [H1 H2 Hl Hs [He He'] Hlen [Ht Ht'] (pr & Hpr & Hok & Hw) Hleft]. cbn [thread_of].
  pose proof (Hs p Hp) as Hm. destruct (decide (w_slot wp = Some p)) as [Hwp | Hwp].
  { unfold slot_owner in Hm. rewrite Hwp, (bool_decide_true (Some p = _)), andb_false_r in Hm by done.
    rewrite (visit_spins s s0 _ _ _ H1) by done. right. right. exists s0. auto. }
  rewrite slot_owner_p in Hm by done. destruct Hok as [[Has Htd] | [Hrun Hne]].
  { cbn [sleeper_exec]. unfold exec. rewrite (visit_at s pr H1 Hm Hpr), bool_decide_false by (destruct Has; congruence).
    right. right. exists s0. auto. }
  destruct (away_resumes s0 s pr H1 Hm Hpr Hrun Hleft) as (s' & -> & Hps & C1 & C2 & [Lo Lr]). exists S_tidy. split; [done |]. split; [| cbn; lia].
  split; try done.
  - by apply C2.
  - apply Lr; [intros E; by apply (Hlk p) | exact Hl].
  - intros i Hi'. destruct (decide (i = p)) as [-> | Hne']; [by rewrite slot_owner_mine |].
    rewrite (slot_owner_other S_tidy (S_away s0)) by done. apply Lr; [congruence | by apply Hs].
  - by rewrite Hps, length_alter.
  - exists (pr <| p_state := RUNNING |>). rewrite Hps, list_lookup_alter_eq, Hpr. split; [done |]. split; [done |].
    intros l ->. by destruct Hwp.
Qed.

Lemma sleeper_moves sp wp s : inv sp wp s -> moves sp wp (sleeper_exec (thread_of sp) s).
Proof.
  destruct sp; [apply enter_moves | apply acquire_moves | apply release_moves | apply chan_moves | apply state_moves | apply switch_moves
    | apply leaving_moves | apply away_moves | apply tidy_moves | apply unlock_moves | apply relock_moves |]. intros _. by left.
Qed.

(** ** The waker *)
Definition w_rank (wp : wphase) : nat :=
  match wp with
  | W_acquire => 3 + 5 * NPROC | W_set => 2 + 5 * NPROC
  | W_scan l => 1 + 5 * length l
  | W_lock i l => 5 + 5 * length l | W_test i l => 4 + 5 * length l | W_wake i l => 3 + 5 * length l
  | W_unlock i l => 2 + 5 * length l | W_done => 0
  end.
Definition w_advances (sp : sphase) (wp : wphase) (w : option code) (s : kstate) : Prop :=
  exists wp', w = waker_of wp' /\ inv sp wp' s /\ (w_rank wp' < w_rank wp)%nat.
Definition w_waits (sp : sphase) (wp : wphase) : Prop :=
  wp = W_done \/ (wp = W_acquire /\ s_lk sp = true) \/ (exists l, wp = W_lock p l /\ s_p sp = true).
Definition w_moves (sp : sphase) (wp : wphase) (r : progress (option code)) : Prop :=
  match r with
  | Next w s => w_advances sp wp w s
  | Blocked => w_waits sp wp
  | Crash => False
  end.
Hypothesis (Hset : forall s, k_cpus (set_cond s) = k_cpus s /\ k_locks (set_cond s) = k_locks s /\ k_procs (set_cond s) = k_procs s).

(** Progress of [wakeup] that does not pass the sleeper. *)
Lemma slot_ok_keep sp wp wp' pr : slot_ok sp wp pr -> wp <> W_acquire \/ s_lk sp = false -> wp' <> W_acquire -> (forall l, wp' <> W_wake p l) ->
  (p ∈ todo wp -> p ∈ todo wp') -> slot_ok sp wp' pr.
Proof.
  intros [Hok _] Hne Hne' Hnw Ht. split; [| by intros l E; destruct (Hnw l)].
  destruct sp; cbn in *; try (destruct Hok as [_ ->]; by destruct Hne); naive_solver.
Qed.
Lemma w_lock_owner i l sp : (i < NPROC)%nat -> slot_owner sp (W_lock i l) i = None \/ (i = p /\ s_p sp = true /\ slot_owner sp (W_lock i l) i = Some h1).
Proof.
  intros Hi. unfold slot_owner. cbn. rewrite (bool_decide_false (None = Some i)) by done. case_bool_decide; [| by left].
  destruct (s_p sp); [by right | by left].
Qed.

Lemma w_acquire_moves sp s : inv sp W_acquire s -> w_moves sp W_acquire (waker_exec (waker_of W_acquire) s).
Proof.
  intros Hi. pose proof Hi as [H1 H2 Hl Hs [He He'] Hlen [Ht Ht'] (pr & Hpr & Hok) Hleft]. cbn [waker_exec waker_of waker_code].
  unfold lk_owner in Hl. cbn [w_lk] in Hl. destruct (s_lk sp) eqn:Hlks.
  { rewrite (acquire_spins h2 h1 lk s _ _ _ H2); [by right; left | done | done | done]. }
  destruct (acquire_at h2 lk s _ _ H2) as (s' & -> & Hps & [F1 F2] & Hlo); [done | done |].
  exists W_set. split; [exact eq_refl |]. split; [| cbn; lia].
  apply (inv_lock sp W_acquire sp W_set s s' lk (Some h2)); try done.
  - by apply F2.
  - exact (F1 _ _ H2).
  - unfold lk_owner. by rewrite Hlks, decide_True.
  - intros i. rewrite decide_False by apply Hlk. done.
  - by rewrite Hlks.
  - intros pr' Hok'. apply (slot_ok_keep sp W_acquire); try done. by right.
Qed.
Lemma w_set_moves sp s : inv sp W_set s -> w_moves sp W_set (waker_exec (waker_of W_set) s).
Proof.
  intros Hi. pose proof Hi as [H1 H2 Hl Hs [He He'] Hlen [Ht Ht'] (pr & Hpr & Hok) Hleft].
  destruct (Hset (on_hart h2 s)) as (E1 & E2 & E3).
  change (w_advances sp W_set (Some (scan_code all_procs)) (set_cond (on_hart h2 s))). exists (W_scan all_procs). split; [exact eq_refl |]. split; [| unfold w_rank, all_procs; rewrite length_seq; lia].
  apply (inv_steady sp W_set sp (W_scan all_procs) s); try done.
  - by apply steady_same.
  - by rewrite E3.
  - exists pr. rewrite E3. split; [done |]. apply (slot_ok_keep sp W_set); try done. by left.
Qed.
Lemma w_end_moves sp s : inv sp (W_scan []) s -> w_moves sp (W_scan []) (waker_exec (waker_of (W_scan [])) s).
Proof.
  intros Hi. pose proof Hi as [H1 H2 Hl Hs [He He'] Hlen [Ht Ht'] (pr & Hpr & Hok) Hleft]. cbn [waker_exec waker_of scan_code wakeup_code].
  unfold lk_owner in Hl. rewrite andb_true_r in He. rewrite He in Hl.
  destruct (release_at h2 lk s _ _ H2) as (s' & -> & Hps & [F1 F2] & Hlo); [done | done |].
  exists W_done. split; [done |]. split; [| cbn; lia].
  apply (inv_lock sp (W_scan []) sp W_done s s' lk None); try done.
  - by apply F2.
  - exact (F1 _ _ H2).
  - unfold lk_owner. by rewrite He, decide_True.
  - intros i. rewrite decide_False by apply Hlk. done.
  - by rewrite He.
  - intros pr' Hok'. apply (slot_ok_keep sp (W_scan [])); try done. by left.
Qed.
Lemma w_scan_moves i l sp s : inv sp (W_scan (i :: l)) s -> w_moves sp (W_scan (i :: l)) (waker_exec (waker_of (W_scan (i :: l))) s).
Proof.
  intros Hi. pose proof Hi as [H1 H2 Hl Hs [He He'] Hlen [Ht Ht'] (pr & Hpr & Hok) Hleft]. cbn [waker_exec waker_of scan_code wakeup_code].
  destruct (myproc_at h2 s _ _ H2) as (s' & -> & Hps & Hst); [done |].
  case_bool_decide as Hm.
  - exists (W_scan l). split; [done |]. split; [| cbn; lia]. apply (inv_steady sp (W_scan (i :: l)) sp (W_scan l) s); try done.
    + by apply Forall_cons in Ht as [_ Ht].
    + by rewrite Hps.
    + exists pr. rewrite Hps. split; [done |]. apply (slot_ok_keep sp (W_scan (i :: l))); try done; [by left |].
      cbn. intros [-> |]%elem_of_cons; [by destruct Hme | done].
  - exists (W_lock i l). split; [done |]. split; [| cbn; lia]. apply (inv_steady sp (W_scan (i :: l)) sp (W_lock i l) s); try done.
    + by rewrite Hps.
    + exists pr. rewrite Hps. split; [done |]. apply (slot_ok_keep sp (W_scan (i :: l))); try done. by left.
Qed.
Lemma w_lock_moves i l sp s : inv sp (W_lock i l) s -> w_moves sp (W_lock i l) (waker_exec (waker_of (W_lock i l)) s).
Proof.
  intros Hi. pose proof Hi as [H1 H2 Hl Hs [He He'] Hlen [Ht Ht'] (pr & Hpr & Hok) Hleft]. cbn [waker_exec waker_of].
  apply Forall_cons in Ht as [Hni Ht]. pose proof (Hs i Hni) as Ho. destruct (w_lock_owner i l sp Hni) as [Hf | (-> & Hsp & Hf)].
  2:{ rewrite Hf in Ho. rewrite (acquire_spins h2 h1 (LkProc p) s _ _ _ H2); [by right; right; exists l | done | done | done]. }
  rewrite Hf in Ho. destruct (acquire_at h2 (LkProc i) s _ _ H2) as (s' & -> & Hps & [F1 F2] & Hlo); [done | done |].
  assert (s_p sp = true -> i <> p) as Hip.
  { intros Hsp ->. unfold slot_owner in Hf. by rewrite Hsp, bool_decide_true in Hf. }
  exists (W_test i l). split; [done |]. split; [| cbn; lia].
  apply (inv_lock sp (W_lock i l) sp (W_test i l) s s' (LkProc i) (Some h2)); try done.
  - by apply F2.
  - exact (F1 _ _ H2).
  - by rewrite decide_False by (intros E; by apply (Hlk i)).
  - intros j. unfold slot_owner. cbn [w_slot]. destruct (decide (LkProc i = LkProc j)) as [[= <-] | Hne].
    + rewrite (bool_decide_true (Some i = Some i)) by done. case_bool_decide; [| done]. destruct (s_p sp); [by destruct Hip | done].
    + rewrite (bool_decide_false (Some i = Some j)) by congruence. done.
  - intros Hsp [= ->]. by apply Hip.
  - by constructor.
  - by intros j [= <-].
  - intros pr' Hok'. apply (slot_ok_keep sp (W_lock i l)); try done. by left.
Qed.
Lemma w_test_moves i l sp s : inv sp (W_test i l) s -> w_moves sp (W_test i l) (waker_exec (waker_of (W_test i l)) s).
Proof.
  intros Hi. pose proof Hi as [H1 H2 Hl Hs [He He'] Hlen [Ht Ht'] (pr & Hpr & Hok) Hleft]. cbn [waker_exec waker_of].
  destruct (lookup_lt_is_Some_2 (k_procs s) i) as [pri Hpri]; [rewrite Hlen; by apply Ht' |]. rewrite (get_proc_at h2 s i pri) by done.
  assert (i = p -> s_p sp = false /\ pri = pr) as Hip.
  { intros ->. split; [| congruence]. destruct (s_p sp); [by destruct (He' eq_refl) | done]. }
  destruct (bool_decide (p_state pri = SLEEPING) && bool_decide (p_chan pri = Some ch)) eqn:Hb.
  - apply andb_true_iff in Hb as [Hsl%bool_decide_eq_true Hch%bool_decide_eq_true].
    exists (W_wake i l). split; [done |]. split; [| cbn; lia]. apply (inv_steady sp (W_test i l) sp (W_wake i l) s); try done.
    exists pr. split; [done |]. destruct Hok as [Hok Hw]. split; [destruct sp; cbn in *; naive_solver |].
    intros l' [= -> ->]. destruct (Hip eq_refl) as [Hsp ->]. destruct sp; cbn in Hok, Hsp; try done; try (destruct Hok; congruence). by eexists.
  - exists (W_unlock i l). split; [done |]. split; [| cbn; lia]. apply (inv_steady sp (W_test i l) sp (W_unlock i l) s); try done.
    { by apply Forall_cons in Ht as [_ Ht]. }
    exists pr. split; [done |]. destruct (decide (i = p)) as [-> | Hne].
    + destruct (Hip eq_refl) as [Hsp ->]. destruct Hok as [Hok _]. split; [| done].
      destruct sp; cbn in Hok, Hsp |- *; try done; try (by destruct Hok). right. destruct Hok as [[[Ha Hc] _] | [Hr _]]; [| done].
      by rewrite Ha, Hc, !bool_decide_true in Hb.
    + apply (slot_ok_keep sp (W_test i l)); try done; [by left |]. cbn. intros [-> |]%elem_of_cons; done.
Qed.
Lemma w_wake_moves i l sp s : inv sp (W_wake i l) s -> w_moves sp (W_wake i l) (waker_exec (waker_of (W_wake i l)) s).
Proof.
  intros Hi. pose proof Hi as [H1 H2 Hl Hs [He He'] Hlen [Ht Ht'] (pr & Hpr & Hok) Hleft]. cbn [waker_exec waker_of]. rewrite upd_proc_at.
  exists (W_unlock i l). split; [done |]. split; [| cbn; lia]. apply (inv_steady sp (W_wake i l) sp (W_unlock i l) s); try done.
  - by apply Forall_cons in Ht as [_ Ht].
  - cbn. by rewrite length_alter.
  - cbn. destruct (decide (i = p)) as [-> | Hne].
    + rewrite list_lookup_alter_eq, Hpr. eexists. split; [done |]. destruct Hok as [_ Hw]. destruct (Hw l eq_refl) as (s0 & -> & _).
      split; [by right | done].
    + rewrite list_lookup_alter_ne, Hpr by done. eexists. split; [done |].
      apply (slot_ok_keep sp (W_wake i l)); try done; [by left |]. cbn. intros [-> |]%elem_of_cons; done.
Qed.
Lemma w_unlock_moves i l sp s : inv sp (W_unlock i l) s -> w_moves sp (W_unlock i l) (waker_exec (waker_of (W_unlock i l)) s).
Proof.
  intros Hi. pose proof Hi as [H1 H2 Hl Hs [He He'] Hlen [Ht Ht'] (pr & Hpr & Hok) Hleft]. cbn [waker_exec waker_of unlock_code].
  assert (bool_decide (i = p) && s_p sp = false) as Hip.
  { case_bool_decide as Hd; [| done]. destruct (s_p sp); [| done]. subst i. by destruct (He' eq_refl). }
  pose proof (Hs i (Ht' i eq_refl)) as Ho. unfold slot_owner in Ho. cbn [w_slot] in Ho. rewrite Hip, (bool_decide_true (Some i = Some i)) in Ho by done.
  destruct (release_at h2 (LkProc i) s _ _ H2) as (s' & -> & Hps & [F1 F2] & Hlo); [done | done |].
  exists (W_scan l). split; [done |]. split; [| cbn; lia].
  apply (inv_lock sp (W_unlock i l) sp (W_scan l) s s' (LkProc i) None); try done.
  - by apply F2.
  - exact (F1 _ _ H2).
  - by rewrite decide_False by (intros E; by apply (Hlk i)).
  - intros j. unfold slot_owner. cbn [w_slot]. rewrite (bool_decide_false (None = Some j)) by done. destruct (decide (LkProc i = LkProc j)) as [[= <-] | Hne].
    + by rewrite Hip.
    + by rewrite (bool_decide_false (Some i = Some j)) by congruence.
  - intros pr' Hok'. apply (slot_ok_keep sp (W_unlock i l)); try done. by left.
Qed.
Lemma waker_moves sp wp s : inv sp wp s -> w_moves sp wp (waker_exec (waker_of wp) s).
Proof.
  destruct wp as [| | [| i l] | | | | |]; [apply w_acquire_moves | apply w_set_moves | apply w_end_moves | apply w_scan_moves
    | apply w_lock_moves | apply w_test_moves | apply w_wake_moves | apply w_unlock_moves |]. intros _. by left.
Qed.

(** ** Every interleaving *)
Definition at_phase (sp : sphase) (wp : wphase) (y : sys) : Prop :=
  exists s, y = (s, thread_of sp, waker_of wp) /\ inv sp wp s.
Lemma step_phase sp wp y y' : at_phase sp wp y -> step y y' ->
  exists sp' wp', at_phase sp' wp' y' /\ (s_rank sp' + w_rank wp' < s_rank sp + w_rank wp)%nat.
Proof.
  intros (s & -> & Hi) Hst. inversion Hst as [? ? ? s' t' E | ? ? ? s' w' E]; subst.
  - pose proof (sleeper_moves sp wp s Hi) as Hm. rewrite E in Hm. destruct Hm as (sp' & -> & Hi' & Hr).
    exists sp', wp. split; [by exists s' | lia].
  - pose proof (waker_moves sp wp s Hi) as Hm. rewrite E in Hm. destruct Hm as (wp' & -> & Hi' & Hr).
    exists sp, wp'. split; [by exists s' | lia].
Qed.
Lemma steps_phase n : forall sp wp y y', at_phase sp wp y -> nsteps step n y y' ->
  exists sp' wp', at_phase sp' wp' y' /\ (s_rank sp' + w_rank wp' + n <= s_rank sp + w_rank wp)%nat.
Proof.
  induction n as [| n IH]; intros sp wp y y' Hy Hn; inversion Hn as [| ? ? y1 ? Hst Hrest]; subst.
  - exists sp, wp. split; [done | lia].
  - destruct (step_phase sp wp y y1 Hy Hst) as (sp1 & wp1 & Hy1 & Hr1). destruct (IH sp1 wp1 y1 y' Hy1 Hrest) as (sp' & wp' & Hy' & Hr').
    exists sp', wp'. split; [done | lia].
Qed.
(** Both cannot be waiting before both have finished. *)
Lemma not_both sp wp s : inv sp wp s -> waits sp wp -> w_waits sp wp -> sp = S_done /\ wp = W_done.
Proof.
  intros [_ _ _ _ [He He'] _ _ (pr & Hpr & Hok & _) _] [-> | [(-> & Hw) | (s0 & -> & Hw)]] [-> | [(-> & Hs) | (l & -> & Hs)]]; try done.
  - cbn in Hok. by destruct Hok.
  - by destruct Hw as [? | ?%elem_of_nil].
Qed.
End system.

(** C13: No wakeup is lost, in any interleaving.  A process that holds the lock [lk] and
    found its condition false calls [sleep(ch, lk)] on one hart; on another hart
    [acquire(lk)], an assignment that makes the condition true, [wakeup(ch)] and
    [release(lk)] are run.  Whatever the order in which their statements run (a statement
    runs on a hart without interruption, and one that waits for a lock runs when the lock is
    free), at most 334 statements are run and none panics; once [wakeup] and [release] are
    done the process is not [SLEEPING]; and the system stops only when [sleep] has
    returned, with [lk] held again and the process [RUNNING].  The scheduler of the
    sleeper's hart is the code of [scheduler] around the switch; only its visits to the
    process are followed. *)
Theorem sleep_no_lost_wakeup h1 h2 p ch lk set_cond me s pr n s' t w :
  h1 <> h2 -> (p < NPROC)%nat -> me <> Some p -> (forall i, lk <> LkProc i) ->
  (forall s, k_cpus (set_cond s) = k_cpus s /\ k_locks (set_cond s) = k_locks s /\ k_procs (set_cond s) = k_procs s) ->
  cpu_at s h1 1 (Some p) -> cpu_at s h2 0 me -> owned s lk (Some h1) -> (forall i, (i < NPROC)%nat -> owned s (LkProc i) None) ->
  length (k_procs s) = NPROC -> k_procs s !! p = Some pr -> p_state pr = RUNNING ->
  nsteps (step h1 h2 p) n (s, Runs (sleep_code ch lk), Some (waker_code ch lk set_cond)) (s', t, w) ->
  (n <= 334)%nat /\ sleeper_exec h1 p t s' <> Crash /\ waker_exec h2 w s' <> Crash /\
  (w = None -> p_state <$> k_procs s' !! p <> Some SLEEPING) /\
  ((exists y, step h1 h2 p (s', t, w) y) \/
   (t = Returned /\ w = None /\ owned s' lk (Some h1) /\ p_state <$> k_procs s' !! p = Some RUNNING)).
Proof.
  intros Hh Hp Hme Hlk Hset C1 C2 Ol Os Hlen Hpr Hst Hn.
  assert (at_phase h1 h2 p ch lk set_cond me S_enter W_acquire (s, Runs (sleep_code ch lk), Some (waker_code ch lk set_cond))) as Hy.
  { exists s. split; [done |]. split; try done; [| | by exists pr].
    - intros i Hi. unfold slot_owner. rewrite andb_false_r. by apply Os.
    - split; [| done]. apply Forall_forall. intros i Hi%elem_of_seq. lia. }
  destruct (steps_phase h1 h2 p ch lk set_cond me Hh Hp Hme Hlk Hset n _ _ _ _ Hy Hn) as (sp & wp & (s1 & [= -> -> ->] & Hi) & Hr).
  pose proof (sleeper_moves h1 h2 p ch lk me Hh Hp Hlk sp wp s1 Hi) as Hs.
  pose proof (waker_moves h1 h2 p ch lk set_cond me Hh Hp Hme Hlk Hset sp wp s1 Hi) as Hw.
  split; [cbn [s_rank w_rank] in Hr; unfold NPROC in Hr; lia |]. split; [by intros E; rewrite E in Hs |]. split; [by intros E; rewrite E in Hw |].
  split.
  - intros Hd. assert (wp = W_done) as -> by (by destruct wp). destruct Hi as [_ _ _ _ _ _ _ (pr' & -> & Hok & _) _]. cbn.
    destruct sp; cbn in Hok; try (destruct Hok as [? ?]; congruence); try (destruct Hok as (? & ? & ?%elem_of_nil); done);
      try (destruct Hok as [_ ?%elem_of_nil]; done). destruct Hok as [[_ ?%elem_of_nil] | [? _]]; [done | congruence].
  - destruct (sleeper_exec h1 p (thread_of p ch lk sp) s1) as [t1 s2 | |] eqn:Es; [left; eexists; by apply step_sleeper | | done].
    destruct (waker_exec h2 (waker_of ch lk set_cond wp) s1) as [w1 s2 | |] eqn:Ew; [left; eexists; by apply step_waker | | done].
    right. destruct (not_both h1 h2 p ch lk me sp wp s1 Hi Hs Hw) as [-> ->]. destruct Hi as [_ _ Hl _ _ _ _ (pr' & -> & Hok & _) _].
    split; [done |]. split; [done |]. split; [exact Hl |]. cbn. by destruct Hok as [-> _].
Qed.

(** ** Example

    Process 3 on hart 0 waits for the semaphore, whose lock it holds; hart 1, which runs
    no process, makes it positive.  The waker starts when the sleeper has released the
    lock, and waits for the sleeper's slot. *)
Section follow.
Context (h1 h2 p : nat).
Fixpoint follow (l : list bool) (y : sys) : option sys :=
  match l with
  | [] => Some y
  | b :: r =>
      let '(s, t, w) := y in
      if b then match sleeper_exec h1 p t s with Next t' s' => follow r (s', t', w) | _ => None end
      else match waker_exec h2 w s with Next w' s' => follow r (s', t, w') | _ => None end
  end.
Lemma follow_steps l : forall y y', follow l y = Some y' -> nsteps (step h1 h2 p) (length l) y y'.
Proof.
  induction l as [| b r IH]; intros [[s t] w] y' Hf; [injection Hf as <-; constructor |]. cbn in Hf. destruct b.
  - destruct (sleeper_exec h1 p t s) as [t' s' | |] eqn:E; try done. econstructor; [by apply step_sleeper | by apply IH].
  - destruct (waker_exec h2 w s) as [w' s' | |] eqn:E; try done. econstructor; [by apply step_waker | by apply IH].
Qed.
End follow.
Definition sample_start : sys :=
  (lock_taken LkSem sample, Runs (sleep_code ChSem LkSem), Some (waker_code ChSem LkSem (fun s => s <| k_sem := 1 |>))).
Definition sample_order : list bool :=
  replicate 3 true ++ replicate 15 false ++ replicate 4 true ++ replicate 246 false ++ replicate 4 true.
Definition finished (o : option sys) : bool :=
  match o with Some (_, Returned, None) => true | _ => false end.

Lemma sleep_no_lost_wakeup_witness :
  exists s', nsteps (step 0 1 3) 272 sample_start (s', Returned, None) /\
    p_state <$> k_procs s' !! 3%nat <> Some SLEEPING /\ owned s' LkSem (Some 0%nat).
Proof.
  assert (finished (follow 0 1 3 sample_order sample_start) = true) as Hf by (vm_compute; reflexivity).
  destruct (follow 0 1 3 sample_order sample_start) as [[[s' []] [|]] |] eqn:E; try discriminate Hf.
  apply follow_steps in E. change (length sample_order) with 272%nat in E. exists s'. split; [exact E |].
  destruct (sleep_no_lost_wakeup 0 1 3 ChSem LkSem (fun s => s <| k_sem := 1 |>) None (lock_taken LkSem sample) sample_proc
    272 s' Returned None) as (_ & _ & _ & Hsl & Hend).
  - discriminate.
  - unfold NPROC. lia.
  - discriminate.
  - discriminate.
  - intros s. split; [reflexivity | split; reflexivity].
  - exists (push_cpu sample_cpu). split; [reflexivity | split; [reflexivity | split; reflexivity]].
  - exists (mkcpu None 0 false false). split; [reflexivity | split; [reflexivity | split; reflexivity]].
  - eexists. split; [reflexivity | split; reflexivity].
  - intros i Hi. destruct (proj2 (sample_procs_free None) i Hi ltac:(discriminate)) as (l & Hl & H1 & H2). exists l.
    split; [| split; assumption]. etransitivity; [apply lookup_insert_ne; discriminate | exact Hl].
  - reflexivity.
  - reflexivity.
  - reflexivity.
  - exact E.
  - split; [by apply Hsl |]. destruct Hend as [[y Hy] | (_ & _ & Hl & _)]; [inversion Hy; discriminate | exact Hl].
Defined.
