(* ===== verification/Vm.v ===== *)
(** * Virtual memory ([kernel/vm.c])

    Page-table walks and mappings over physical memory, user address-space
    growth and copying, and the copies between user and kernel space. *)
From S2P Require Import Prelude Kstate Spinlock Mem Kalloc Sched.
Local Open Scope Z_scope.

Section vm.
Context `{Image}.

(** ** The code *)

(** One level of the loop of [walk] per element of [levels]. *)
Fixpoint walk_loop (levels : list Z) (pagetable va : Z) (alloc : bool) : K Z :=
  match levels with
  | [] => ret (pagetable + 8 * PX 0 va)
  | level :: r =>
      let pte := pagetable + 8 * PX level va in
      let! v := read_word pte in
      if istrue (Z.land v PTE_V) then walk_loop r (PTE2PA v) va alloc
      else if negb alloc then ret 0
      else
        let! pt := kalloc in
        if pt =? 0 then ret 0
        else
          memset_page pt 0 ;;;
          write_word pte (Z.lor (PA2PTE pt) PTE_V) ;;;
          walk_loop r pt va alloc
  end.

(** The address of the PTE of [va], [0] if there is none. *)
Definition walk (pagetable va : Z) (alloc : bool) : K Z :=
  if MAXVA <=? va then panic "walk" else walk_loop [2; 1] pagetable va alloc.

Definition walkaddr (pagetable va : Z) : K Z :=
  if MAXVA <=? va then ret 0 else
  let! pte := walk pagetable va false in
  if pte =? 0 then ret 0 else
  let! v := read_word pte in
  if Z.land v PTE_V =? 0 then ret 0 else
  if Z.land v PTE_U =? 0 then ret 0 else
  ret (PTE2PA v).

(** The [for(;;)] of [mappages]; it runs [size / PGSIZE] times. *)
Fixpoint mappages_loop (fuel : nat) (pagetable a last pa perm : Z) : K Z :=
  match fuel with
  | O => hang
  | S n =>
      let! pte := walk pagetable a true in
      if pte =? 0 then ret (-1) else
      let! v := read_word pte in
      if istrue (Z.land v PTE_V) then panic "mappages: remap" else
      write_word pte (Z.lor (Z.lor (PA2PTE pa) perm) PTE_V) ;;;
      if a =? last then ret 0
      else mappages_loop n pagetable (u64 (a + PGSIZE)) last (u64 (pa + PGSIZE)) perm
  end.

Definition mappages (pagetable va size pa perm : Z) : K Z :=
  if negb (va mod PGSIZE =? 0) then panic "mappages: va not aligned" else
  if negb (size mod PGSIZE =? 0) then panic "mappages: size not aligned" else
  if size =? 0 then panic "mappages: size" else
  mappages_loop (Z.to_nat (size / PGSIZE)) pagetable va (u64 (va + size - PGSIZE)) pa perm.

Definition kvmmap (kpgtbl va pa sz perm : Z) : K unit :=
  let! r := mappages kpgtbl va sz pa perm in
  if istrue r then panic "kvmmap" else ret tt.

Definition uvmcreate : K Z :=
  let! pagetable := kalloc in
  if pagetable =? 0 then ret 0 else
  memset_page pagetable 0 ;;;
  ret pagetable.

(** [for(a = va; a < va + npages*PGSIZE; a += PGSIZE)]. *)
Fixpoint uvmunmap_loop (npages : nat) (pagetable a : Z) (do_free : bool) : K unit :=
  match npages with
  | O => ret tt
  | S n =>
      let! pte := walk pagetable a false in
      (if pte =? 0 then ret tt else
       let! v := read_word pte in
       if Z.land v PTE_V =? 0 then ret tt else
       (if do_free then kfree (PTE2PA v) else ret tt) ;;;
       write_word pte 0) ;;;
      uvmunmap_loop n pagetable (a + PGSIZE) do_free
  end.

Definition uvmunmap (pagetable va npages : Z) (do_free : bool) : K unit :=
  if negb (va mod PGSIZE =? 0) then panic "uvmunmap: not aligned" else
  uvmunmap_loop (Z.to_nat npages) pagetable va do_free.

Definition uvmdealloc (pagetable oldsz newsz : Z) : K Z :=
  if oldsz <=? newsz then ret oldsz else
  (if PGROUNDUP newsz <? PGROUNDUP oldsz then
     let npages := s32 ((PGROUNDUP oldsz - PGROUNDUP newsz) / PGSIZE) in
     uvmunmap pagetable (PGROUNDUP newsz) npages true
   else ret tt) ;;;
  ret newsz.

(** [for(a = oldsz; a < newsz; a += PGSIZE)], with [oldsz] already rounded up. *)
Fixpoint uvmalloc_loop (fuel : nat) (pagetable oldsz a newsz xperm : Z) : K Z :=
  match fuel with
  | O => ret newsz
  | S n =>
      if newsz <=? a then ret newsz else
      let! mem := kalloc in
      if mem =? 0 then
        uvmdealloc pagetable a oldsz ;;; ret 0
      else
        memset_page mem 0 ;;;
        let! r := mappages pagetable a PGSIZE mem (Z.lor (Z.lor PTE_R PTE_U) xperm) in
        if istrue r then
          kfree mem ;;; uvmdealloc pagetable a oldsz ;;; ret 0
        else uvmalloc_loop n pagetable oldsz (a + PGSIZE) newsz xperm
  end.

Definition uvmalloc (pagetable oldsz newsz xperm : Z) : K Z :=
  if newsz <? oldsz then ret oldsz else
  let oldsz := PGROUNDUP oldsz in
  uvmalloc_loop (Z.to_nat ((newsz - oldsz + PGSIZE - 1) / PGSIZE)) pagetable oldsz oldsz newsz xperm.

(** [fuel] bounds the depth of the page-table tree, which has three levels. *)
Fixpoint freewalk (fuel : nat) (pagetable : Z) : K unit :=
  match fuel with
  | O => hang
  | S n =>
      foreach (seq 0 512) (fun i =>
        let a := pagetable + 8 * Z.of_nat i in
        let! pte := read_word a in
        if istrue (Z.land pte PTE_V) && (Z.land pte (Z.lor (Z.lor PTE_R PTE_W) PTE_X) =? 0) then
          freewalk n (PTE2PA pte) ;;;
          write_word a 0
        else if istrue (Z.land pte PTE_V) then panic "freewalk: leaf"
        else ret tt) ;;;
      kfree pagetable
  end.

Definition uvmfree (pagetable sz : Z) : K unit :=
  (if 0 <? sz then uvmunmap pagetable 0 (PGROUNDUP sz / PGSIZE) true else ret tt) ;;;
  freewalk 3 pagetable.

(** [for(i = 0; i < sz; i += PGSIZE)]. *)
Fixpoint uvmcopy_loop (fuel : nat) (old new i sz : Z) : K Z :=
  match fuel with
  | O => ret 0
  | S n =>
      if sz <=? i then ret 0 else
      let! pte := walk old i false in
      if pte =? 0 then uvmcopy_loop n old new (i + PGSIZE) sz else
      let! v := read_word pte in
      if Z.land v PTE_V =? 0 then uvmcopy_loop n old new (i + PGSIZE) sz else
      let pa := PTE2PA v in
      let flags := PTE_FLAGS v in
      let! mem := kalloc in
      if mem =? 0 then uvmunmap new 0 (i / PGSIZE) true ;;; ret (-1) else
      memmove_page mem pa ;;;
      let! r := mappages new i PGSIZE mem flags in
      if istrue r then
        kfree mem ;;; uvmunmap new 0 (i / PGSIZE) true ;;; ret (-1)
      else uvmcopy_loop n old new (i + PGSIZE) sz
  end.
Definition uvmcopy (old new sz : Z) : K Z :=
  uvmcopy_loop (Z.to_nat ((sz + PGSIZE - 1) / PGSIZE)) old new 0 sz.

Definition uvmclear (pagetable va : Z) : K unit :=
  let! pte := walk pagetable va false in
  if pte =? 0 then panic "uvmclear" else
  let! v := read_word pte in
  write_word pte (Z.land v (Z.lnot PTE_U)).

Definition ismapped (pagetable va : Z) : K bool :=
  let! pte := walk pagetable va false in
  if pte =? 0 then ret false else
  let! v := read_word pte in
  ret (istrue (Z.land v PTE_V)).

Definition vmfault (pagetable va : Z) (read : bool) : K Z :=
  let! p := curproc in
  let! pr := get_proc p in
  if p_sz pr <=? va then ret 0 else
  let va := PGROUNDDOWN va in
  let! m := ismapped pagetable va in
  if m then ret 0 else
  let! mem := kalloc in
  if mem =? 0 then ret 0 else
  memset_page mem 0 ;;;
  let! r := mappages (p_pagetable pr) va PGSIZE mem (Z.lor (Z.lor PTE_W PTE_U) PTE_R) in
  if istrue r then kfree mem ;;; ret 0 else
  ret mem.

(** [memmove] between a kernel buffer and physical memory. *)
Fixpoint write_bytes (a : Z) (l : list Z) : K unit :=
  match l with
  | [] => ret tt
  | b :: r => write_byte a b ;;; write_bytes (a + 1) r
  end.
Fixpoint read_bytes (a : Z) (n : nat) : K (list Z) :=
  match n with
  | O => ret []
  | S n' => let! b := read_byte a in let! r := read_bytes (a + 1) n' in ret (b :: r)
  end.

(** [while(len > 0)] of [copyout]: each iteration copies at least one byte. *)
Fixpoint copyout_loop (fuel : nat) (pagetable dstva : Z) (src : list Z) : K Z :=
  match fuel with
  | O => ret 0
  | S k =>
      match src with
      | [] => ret 0
      | _ =>
          let va0 := PGROUNDDOWN dstva in
          if MAXVA <=? va0 then ret (-1) else
          let! pa0 := walkaddr pagetable va0 in
          let! pa0 := (if pa0 =? 0 then vmfault pagetable va0 false else ret pa0) in
          if pa0 =? 0 then ret (-1) else
          let! pte := walk pagetable va0 false in
          let! v := read_word pte in
          if Z.land v PTE_W =? 0 then ret (-1) else
          let n := Z.min (PGSIZE - (dstva - va0)) (Z.of_nat (length src)) in
          write_bytes (pa0 + (dstva - va0)) (take (Z.to_nat n) src) ;;;
          copyout_loop k pagetable (u64 (va0 + PGSIZE)) (drop (Z.to_nat n) src)
      end
  end.
Definition copyout (pagetable dstva : Z) (src : list Z) : K Z :=
  copyout_loop (length src) pagetable dstva src.

(** The bytes copied before the end or an error come back with the status. *)
Fixpoint copyin_loop (fuel : nat) (pagetable srcva len : Z) (dst : list Z) : K (Z * list Z) :=
  match fuel with
  | O => ret (0, dst)
  | S k =>
      if len <=? 0 then ret (0, dst) else
      let va0 := PGROUNDDOWN srcva in
      let! pa0 := walkaddr pagetable va0 in
      let! pa0 := (if pa0 =? 0 then vmfault pagetable va0 false else ret pa0) in
      if pa0 =? 0 then ret (-1, dst) else
      let n := Z.min (PGSIZE - (srcva - va0)) len in
      let! bs := read_bytes (pa0 + (srcva - va0)) (Z.to_nat n) in
      copyin_loop k pagetable (u64 (va0 + PGSIZE)) (len - n) (dst ++ bs)
  end.
Definition copyin (pagetable srcva len : Z) : K (Z * list Z) :=
  copyin_loop (Z.to_nat len) pagetable srcva len [].

(** The inner [while(n > 0)] of [copyinstr]: the bytes copied and whether the
    nul was found. *)
Fixpoint copyinstr_page (n : nat) (p : Z) (dst : list Z) : K (bool * list Z) :=
  match n with
  | O => ret (false, dst)
  | S n' =>
      let! b := read_byte p in
      if b =? 0 then ret (true, dst ++ [0])
      else copyinstr_page n' (p + 1) (dst ++ [b])
  end.
Fixpoint copyinstr_loop (fuel : nat) (pagetable srcva max : Z) (dst : list Z) : K (Z * list Z) :=
  match fuel with
  | O => ret (-1, dst)
  | S k =>
      if max <=? 0 then ret (-1, dst) else
      let va0 := PGROUNDDOWN srcva in
      let! pa0 := walkaddr pagetable va0 in
      if pa0 =? 0 then ret (-1, dst) else
      let n := Z.min (PGSIZE - (srcva - va0)) max in
      let! r := copyinstr_page (Z.to_nat n) (pa0 + (srcva - va0)) dst in
      match r with
      | (true, dst') => ret (0, dst')
      | (false, dst') => copyinstr_loop k pagetable (u64 (va0 + PGSIZE)) (max - n) dst'
      end
  end.
Definition copyinstr (pagetable srcva max : Z) : K (Z * list Z) :=
  copyinstr_loop (Z.to_nat max) pagetable srcva max [].

(** ** Copies to either address space ([kernel/proc.c])

    A destination is a user address, a physical address or a kernel variable;
    a source is a user address or the contents of a kernel variable.  What
    reaches a kernel variable is returned by the callers. *)
Inductive kdst : Type := DUser (va : Z) | DPhys (pa : Z) | DVar.
Inductive ksrc : Type := SUser (va : Z) | SVar (l : list Z).

Definition kdst_add (d : kdst) (n : Z) : kdst :=
  match d with
  | DUser va => DUser (u64 (va + n))
  | DPhys pa => DPhys (u64 (pa + n))
  | DVar => DVar
  end.
Definition ksrc_add (c : ksrc) (n : Z) : ksrc :=
  match c with
  | SUser va => SUser (u64 (va + n))
  | SVar l => SVar (drop (Z.to_nat n) l)
  end.

Definition either_copyout (dst : kdst) (src : list Z) : K Z :=
  let! p := curproc in
  match dst with
  | DUser va => let! pr := get_proc p in copyout (p_pagetable pr) va src
  | DPhys pa => write_bytes pa src ;;; ret 0
  | DVar => ret 0
  end.

Definition either_copyin (src : ksrc) (len : Z) : K (Z * list Z) :=
  let! p := curproc in
  match src with
  | SUser va => let! pr := get_proc p in copyin (p_pagetable pr) va len
  | SVar l => ret (0, take (Z.to_nat len) l)
  end.

(** ** The kernel page table ([kernel/vm.c], [kernel/proc.c]) *)
Definition proc_mapstacks (kpgtbl : Z) : K unit :=
  foreach all_procs (fun p =>
    let! pa := kalloc in
    if pa =? 0 then panic "kalloc" else
    let va := KSTACK (Z.of_nat p) in
    kvmmap kpgtbl va pa PGSIZE (Z.lor PTE_R PTE_W)).

Definition kvmmake : K Z :=
  let! kpgtbl := kalloc in
  memset_page kpgtbl 0 ;;;
  kvmmap kpgtbl UART0 UART0 PGSIZE (Z.lor PTE_R PTE_W) ;;;
  kvmmap kpgtbl VIRTIO0 VIRTIO0 PGSIZE (Z.lor PTE_R PTE_W) ;;;
  kvmmap kpgtbl PLIC PLIC 0x4000000 (Z.lor PTE_R PTE_W) ;;;
  kvmmap kpgtbl KERNBASE KERNBASE (etext - KERNBASE) (Z.lor PTE_R PTE_X) ;;;
  kvmmap kpgtbl etext etext (PHYSTOP - etext) (Z.lor PTE_R PTE_W) ;;;
  kvmmap kpgtbl TRAMPOLINE trampoline PGSIZE (Z.lor PTE_R PTE_X) ;;;
  proc_mapstacks kpgtbl ;;;
  ret kpgtbl.

Definition kvminit : K unit :=
  let! t := kvmmake in
  put (fun s => s <| k_kpgtbl := t |>).

Definition kvminithart : K unit :=
  let! t := get k_kpgtbl in
  put (fun s => s <| k_csr ::= fun c => c <| r_satp := MAKE_SATP t |> |>).
End vm.
