(* ===== verification/PageTable.v ===== *)
(** * Page tables as trees

    The pages of a three-level page table are indexed by the path of entries
    that leads to them.  [pt_wf] states that physical memory holds such a tree,
    without sharing; [pt_entry] is the leaf PTE it gives a virtual address.
    [walk] and [mappages] are correct against that view. *)
From S2P Require Import Prelude Kstate Spinlock Mem Sample Kalloc Sched Vm.
Local Open Scope Z_scope.

Section pagetable.
Context `{Image}.

(** [tbl] maps the path of a page-table page ([] is the root) to its address. *)
Record pt_wf (m : gmap Z (list Z)) (root : Z) (tbl : gmap (list Z) Z) : Prop := {
  wf_root : tbl !! [] = Some root;
  wf_inj : forall a b p, tbl !! a = Some p -> tbl !! b = Some p -> a = b;
  wf_page : forall a p, tbl !! a = Some p ->
    p mod PGSIZE = 0 /\ 0 < p < 2 ^ 56 /\ exists pg, m !! p = Some pg /\ length pg = 512%nat;
  wf_link : forall a p i v, tbl !! a = Some p -> (length a < 2)%nat -> 0 <= i < 512 ->
    mem_word m (p + 8 * i) = Some v ->
    tbl !! (a ++ [i]) = if Z.testbit v 0 then Some (PTE2PA v) else None;
  wf_prefix : forall a i, is_Some (tbl !! (a ++ [i])) -> is_Some (tbl !! a)
}.

Definition leaf_path (va : Z) : list Z := [PX 2 va; PX 1 va].
Definition pt_entry (m : gmap Z (list Z)) (tbl : gmap (list Z) Z) (va : Z) : Z :=
  default 0 (tbl !! leaf_path va ≫= fun p => mem_word m (p + 8 * PX 0 va)).

(** Memory, free list and page table agree, and the tree owns its pages. *)
Definition vm_ok (s : kstate) (root : Z) (tbl : gmap (list Z) Z) (l : list Z) : Prop :=
  (exists c, cpu_ok s c) /\ lock_free s LkKmem /\ free_pages s l /\ pt_wf (k_mem s) root tbl /\
  (forall a p, tbl !! a = Some p -> p ∉ l).

(** [s'] differs from [s] in memory, the free list and the recorded [intena]. *)
Definition vm_frame (s s' : kstate) : Prop :=
  exists b : bool, s' = (if b then sync s else s)
    <| k_mem := k_mem s' |> <| k_freelist := k_freelist s' |>.

(** ** Memory lemmas *)
Lemma mem_word_set_same m a v : is_Some (mem_word m a) -> mem_word (mem_set_word m a v) a = Some v.
Proof.
  unfold mem_word, mem_set_word. rewrite lookup_alter_eq.
  destruct (m !! page_base a) as [pg |]; cbn; [| intros [? ?]; done].
  intros [x Hx]. apply list_lookup_insert_eq. by eapply lookup_lt_Some.
Qed.

Lemma mem_word_set_page_ne m a b v :
  page_base a <> page_base b -> mem_word (mem_set_word m b v) a = mem_word m a.
Proof.
  intros Hne. unfold mem_word, mem_set_word. by rewrite lookup_alter_ne by congruence.
Qed.

Lemma mem_word_set_index_ne m a b v :
  word_index a <> word_index b -> mem_word (mem_set_word m b v) a = mem_word m a.
Proof.
  intros Hne. unfold mem_word, mem_set_word.
  destruct (decide (page_base a = page_base b)) as [-> | Hp].
  - rewrite lookup_alter_eq. destruct (m !! page_base b) as [pg |]; [| done]. cbn.
    by rewrite list_lookup_insert_ne by congruence.
  - by rewrite lookup_alter_ne by congruence.
Qed.

Lemma entry_ne m p q i j v :
  p mod PGSIZE = 0 -> q mod PGSIZE = 0 -> 0 <= i < 512 -> 0 <= j < 512 ->
  (p, i) <> (q, j) -> mem_word (mem_set_word m (q + 8 * j) v) (p + 8 * i) = mem_word m (p + 8 * i).
Proof.
  intros Hp Hq Hi Hj Hne.
  destruct (page_base_entry p i Hp Hi) as [Hb Hw], (page_base_entry q j Hq Hj) as [Hb' Hw'].
  destruct (decide (p = q)) as [-> | Hpq].
  - apply mem_word_set_index_ne. rewrite Hw, Hw'. intros He. apply Hne. f_equal. lia.
  - apply mem_word_set_page_ne. by rewrite Hb, Hb'.
Qed.

Lemma mem_word_entry m p pg i :
  p mod PGSIZE = 0 -> 0 <= i < 512 -> m !! p = Some pg -> mem_word m (p + 8 * i) = pg !! Z.to_nat i.
Proof.
  intros Hp Hi Hm. unfold mem_word. destruct (page_base_entry p i Hp Hi) as [-> ->].
  by rewrite Hm.
Qed.

Lemma free_chain_set_word m h l a v :
  free_chain m h l -> page_base a ∉ l -> free_chain (mem_set_word m a v) h l.
Proof.
  revert h. induction l as [| q r IH]; intros h; simpl; [done |].
  intros (-> & Hq & nx & Hw & Hr) [Hne Hnin]%not_elem_of_cons.
  repeat split; [apply Hq .. |]. exists nx. split; [| auto].
  rewrite mem_word_set_page_ne; [done |]. rewrite page_base_aligned by apply Hq. congruence.
Qed.

Lemma mem_set_word_length m a v p pg n :
  m !! p = Some pg -> length pg = n ->
  exists pg', mem_set_word m a v !! p = Some pg' /\ length pg' = n.
Proof.
  intros Hm Hl. unfold mem_set_word. destruct (decide (p = page_base a)) as [-> | Hne].
  - rewrite lookup_alter_eq, Hm. eexists. split; [done |]. by rewrite length_insert.
  - rewrite lookup_alter_ne by congruence. eauto.
Qed.

Lemma vm_frame_refl s : vm_frame s s.
Proof. exists false. by destruct s. Qed.

Lemma vm_frame_trans s1 s2 s3 : vm_frame s1 s2 -> vm_frame s2 s3 -> vm_frame s1 s3.
Proof.
  intros [b1 H1] [b2 H2]. exists (b1 || b2). rewrite H2, H1.
  destruct b1, b2; cbn [orb]; try reflexivity.
  change (sync ((sync s1) <| k_mem := k_mem s2 |> <| k_freelist := k_freelist s2 |>))
    with ((sync (sync s1)) <| k_mem := k_mem s2 |> <| k_freelist := k_freelist s2 |>).
  by rewrite sync_idem.
Qed.

(** ** Reading the tree *)
Lemma wf_entry_some m root tbl a p i :
  pt_wf m root tbl -> tbl !! a = Some p -> 0 <= i < 512 -> is_Some (mem_word m (p + 8 * i)).
Proof.
  intros Hwf Ha Hi. destruct (wf_page _ _ _ Hwf a p Ha) as (Hp & _ & pg & Hpg & Hl).
  rewrite (mem_word_entry m p pg i) by done. apply lookup_lt_is_Some. lia.
Qed.

Lemma wf_leaf_none m root tbl i j :
  pt_wf m root tbl -> tbl !! [i] = None -> tbl !! [i; j] = None.
Proof.
  intros Hwf Hi. destruct (tbl !! [i; j]) eqn:Hj; [| done].
  destruct (wf_prefix _ _ _ Hwf [i] j); [by eexists | congruence].
Qed.

(** [walk] without allocation reads the tree and changes nothing. *)
Lemma walk_read s e root tbl va :
  pt_wf (k_mem s) root tbl -> 0 <= va < MAXVA ->
  walk root va false (mkworld s e) =
    Ret (default 0 ((fun p => p + 8 * PX 0 va) <$> tbl !! leaf_path va)) (mkworld s e).
Proof.
  intros Hwf Hva. unfold walk. rewrite (proj2 (Z.leb_gt _ _)) by lia. cbn [walk_loop].
  pose proof (wf_root _ _ _ Hwf) as Hroot.
  destruct (wf_entry_some _ _ _ [] root (PX 2 va) Hwf Hroot (PX_range _ _)) as [v2 Hv2].
  kcall (read_word_eq s e _ v2).
  pose proof (wf_link _ _ _ Hwf [] root (PX 2 va) v2 Hroot ltac:(simpl; lia) (PX_range _ _) Hv2) as Hl2.
  cbn [app] in Hl2. rewrite valid_testbit. destruct (Z.testbit v2 0).
  2:{ cbn [negb]. unfold leaf_path. by rewrite (wf_leaf_none _ _ _ _ _ Hwf Hl2). }
  destruct (wf_entry_some _ _ _ [PX 2 va] _ (PX 1 va) Hwf Hl2 (PX_range _ _)) as [v1 Hv1].
  kcall (read_word_eq s e _ v1).
  pose proof (wf_link _ _ _ Hwf [PX 2 va] _ (PX 1 va) v1 Hl2 ltac:(simpl; lia) (PX_range _ _) Hv1) as Hl1.
  cbn [app] in Hl1. rewrite valid_testbit. unfold leaf_path. rewrite Hl1.
  by destruct (Z.testbit v1 0).
Qed.

(** ** Growing the tree *)
Definition link_mem (m : gmap Z (list Z)) (q pte : Z) : gmap Z (list Z) :=
  mem_set_word (<[q := fill_page 0]> m) pte (Z.lor (PA2PTE q) PTE_V).

Lemma alloc_page_range q : alloc_page q -> q mod PGSIZE = 0 /\ 0 < q < 2 ^ 56.
Proof.
  intros [Ha Hr]. split; [done |]. pose proof kend_range. pose proof etext_range.
  unfold PHYSTOP, KERNBASE in *. lia.
Qed.

Lemma link_pte q : alloc_page q ->
  Z.testbit (Z.lor (PA2PTE q) PTE_V) 0 = true /\ PTE2PA (Z.lor (PA2PTE q) PTE_V) = q.
Proof.
  intros [Ha Hr]%alloc_page_range. change PTE_V with 1.
  rewrite pte_bit by lia. destruct (pte_roundtrip q 1) as [-> _]; [lia | done | lia | done].
Qed.

Lemma fill_page_0_lookup n : (n < 512)%nat -> fill_page 0 !! n = Some 0.
Proof. intros Hn. unfold fill_page. by rewrite lookup_replicate_2. Qed.

Lemma link_mem_word m q p i b j v :
  p mod PGSIZE = 0 -> b mod PGSIZE = 0 -> q mod PGSIZE = 0 -> b <> q ->
  0 <= i < 512 -> 0 <= j < 512 -> (b, j) <> (p, i) ->
  mem_word m (b + 8 * j) = v -> mem_word (link_mem m q (p + 8 * i)) (b + 8 * j) = v.
Proof.
  intros Hp Hb Hq Hne Hi Hj Hpi <-. unfold link_mem.
  rewrite entry_ne by done. apply mem_word_insert_ne.
  by rewrite (proj1 (page_base_entry b j Hb Hj)).
Qed.

Lemma link_mem_new m q p i j :
  p mod PGSIZE = 0 -> q mod PGSIZE = 0 -> p <> q -> 0 <= i < 512 -> 0 <= j < 512 ->
  mem_word (link_mem m q (p + 8 * i)) (q + 8 * j) = Some 0.
Proof.
  intros Hp Hq Hne Hi Hj. unfold link_mem. rewrite entry_ne by (done || congruence).
  rewrite (mem_word_entry _ q (fill_page 0)) by (done || apply lookup_insert_eq).
  apply fill_page_0_lookup. lia.
Qed.

Lemma link_mem_entry m q p i :
  p mod PGSIZE = 0 -> q mod PGSIZE = 0 -> p <> q -> 0 <= i < 512 ->
  is_Some (mem_word m (p + 8 * i)) ->
  mem_word (link_mem m q (p + 8 * i)) (p + 8 * i) = Some (Z.lor (PA2PTE q) PTE_V).
Proof.
  intros Hp Hq Hne Hi Hs. unfold link_mem. apply mem_word_set_same.
  rewrite mem_word_insert_ne; [done |]. by rewrite (proj1 (page_base_entry p i Hp Hi)).
Qed.

Lemma link_mem_page m q a p pg :
  m !! p = Some pg -> length pg = 512%nat ->
  exists pg', link_mem m q a !! p = Some pg' /\ length pg' = 512%nat.
Proof.
  intros Hm Hl. unfold link_mem. destruct (decide (p = q)) as [-> | Hne].
  - by apply (mem_set_word_length _ _ _ _ (fill_page 0)); [apply lookup_insert_eq |].
  - by apply (mem_set_word_length _ _ _ _ pg); [rewrite lookup_insert_ne by congruence |].
Qed.

Section link.
Context (m : gmap Z (list Z)) (root : Z) (tbl : gmap (list Z) Z) (a : list Z) (p i q v : Z).
Context (Hwf : pt_wf m root tbl) (Ha : tbl !! a = Some p) (Hlen : (length a < 2)%nat).
Context (Hi : 0 <= i < 512) (Hv : mem_word m (p + 8 * i) = Some v) (Hbit : Z.testbit v 0 = false).
Context (Hq : alloc_page q) (Hfresh : forall b, tbl !! b <> Some q).

Local Lemma link_absent : tbl !! (a ++ [i]) = None.
Proof.
  by rewrite (wf_link _ _ _ Hwf a p i v Ha Hlen Hi Hv), Hbit.
Qed.

Local Lemma link_below j : tbl !! ((a ++ [i]) ++ [j]) = None.
Proof.
  destruct (tbl !! ((a ++ [i]) ++ [j])) eqn:E; [| done].
  destruct (wf_prefix _ _ _ Hwf (a ++ [i]) j) as [x Hx]; [by rewrite E |].
  by rewrite link_absent in Hx.
Qed.

Local Lemma tbl_page b x : tbl !! b = Some x ->
  x mod PGSIZE = 0 /\ 0 < x < 2 ^ 56 /\ x <> q.
Proof.
  intros Hb. destruct (wf_page _ _ _ Hwf b x Hb) as (? & ? & _).
  repeat split; try lia. intros ->. by apply (Hfresh b).
Qed.

(** Linking a zeroed page at a free slot gives a page table again. *)
Lemma pt_wf_link : pt_wf (link_mem m q (p + 8 * i)) root (<[a ++ [i] := q]> tbl).
Proof.
  destruct (tbl_page a p Ha) as (Hpa & _ & Hpq).
  destruct (alloc_page_range q Hq) as [Hqa Hqr].
  split.
  - rewrite lookup_insert_ne; [by apply wf_root in Hwf | by destruct a].
  - intros b b' x [[<- <-] | [? Hb]]%lookup_insert_Some [[<- ?] | [? Hb']]%lookup_insert_Some;
      simplify_eq; try done; try (by destruct (Hfresh _ Hb)); try (by destruct (Hfresh _ Hb')).
    by apply (wf_inj _ _ _ Hwf b b' x).
  - intros b x [[<- <-] | [? Hb]]%lookup_insert_Some.
    + repeat split; [done | lia | lia |].
      apply (mem_set_word_length _ _ _ _ (fill_page 0)); [apply lookup_insert_eq | done].
    + destruct (wf_page _ _ _ Hwf b x Hb) as (? & ? & pg & Hpg & Hl).
      repeat split; [done | lia | lia |]. by apply (link_mem_page _ _ _ _ pg).
  - intros b x j w Hb Hlb Hj Hw.
    apply lookup_insert_Some in Hb as [[<- <-] | [Hab Hb]].
    + rewrite link_mem_new in Hw by done. injection Hw as <-. cbn [Z.testbit].
      rewrite lookup_insert_ne; [apply link_below |].
      intros E. apply (f_equal length) in E. rewrite !length_app in E. simpl in E. lia.
    + destruct (tbl_page b x Hb) as (Hxa & _ & Hxq).
      destruct (decide ((x, j) = (p, i))) as [E | Hne].
      * injection E as -> ->. rewrite link_mem_entry in Hw by (done || eauto).
        injection Hw as <-. destruct (link_pte q Hq) as [-> ->].
        rewrite (wf_inj _ _ _ Hwf b a p Hb Ha). apply lookup_insert_eq.
      * destruct (wf_entry_some _ _ _ b x j Hwf Hb Hj) as [w' Hw'].
        rewrite (link_mem_word m q p i x j (Some w')) in Hw by done. injection Hw as ->.
        rewrite lookup_insert_ne; [by apply (wf_link _ _ _ Hwf b x j w) |].
        intros [-> [=->]]%app_inj_2; [| done]. apply Hne. congruence.
  - intros b j Hs. destruct (decide (b = a ++ [i])) as [-> | Hne]; [by rewrite lookup_insert_eq |].
    rewrite lookup_insert_ne by done.
    destruct (decide (b ++ [j] = a ++ [i])) as [E | Hne'].
    + apply app_inj_2 in E as [-> _]; [| done]. by rewrite Ha.
    + rewrite lookup_insert_ne in Hs by done. by apply (wf_prefix _ _ _ Hwf b j).
Qed.

(** It maps every address to the same entry as before. *)
Lemma pt_entry_link va :
  pt_entry (link_mem m q (p + 8 * i)) (<[a ++ [i] := q]> tbl) va = pt_entry m tbl va.
Proof.
  destruct (tbl_page a p Ha) as (Hpa & _ & Hpq).
  destruct (alloc_page_range q Hq) as [Hqa Hqr]. unfold pt_entry.
  destruct (decide (leaf_path va = a ++ [i])) as [-> | Hne].
  - rewrite lookup_insert_eq, link_absent. cbn.
    by rewrite link_mem_new by (done || apply PX_range).
  - rewrite lookup_insert_ne by done. destruct (tbl !! leaf_path va) as [x |] eqn:Hx; [| done].
    cbn. destruct (tbl_page _ x Hx) as (Hxa & _ & Hxq).
    rewrite (link_mem_word m q p i x (PX 0 va) _) by
      (try done; try apply PX_range; intros [= -> _];
       pose proof (wf_inj _ _ _ Hwf _ _ _ Hx Ha) as <-; simpl in Hlen; lia).
    done.
Qed.
End link.

(** From [s] to [s'] the page table at [root] changed, taking pages from the
    free list: it now maps by [ent], and no page outside the table and the free
    list changed. *)
Record pt_change (root : Z) (s : kstate) (tbl : gmap (list Z) Z) (l : list Z)
    (s' : kstate) (tbl' : gmap (list Z) Z) (l' : list Z) (ent : Z -> Z) : Prop := {
  gr_frame : vm_frame s s';
  gr_ok : vm_ok s' root tbl' l';
  gr_sub : tbl ⊆ tbl';
  gr_new : forall a x, tbl' !! a = Some x -> tbl !! a = Some x \/ x ∈ l;
  gr_free : exists t, l = t ++ l';
  gr_entry : forall va, 0 <= va < MAXVA -> pt_entry (k_mem s') tbl' va = ent va;
  gr_mem : forall q, (forall a, tbl !! a <> Some q) -> q ∉ l -> k_mem s' !! q = k_mem s !! q
}.
#[local] Arguments gr_frame {_ _ _ _ _ _ _ _}.
#[local] Arguments gr_ok {_ _ _ _ _ _ _ _}.
#[local] Arguments gr_sub {_ _ _ _ _ _ _ _}.
#[local] Arguments gr_new {_ _ _ _ _ _ _ _}.
#[local] Arguments gr_free {_ _ _ _ _ _ _ _}.
#[local] Arguments gr_entry {_ _ _ _ _ _ _ _}.
#[local] Arguments gr_mem {_ _ _ _ _ _ _ _}.

(** Only table pages were added: the same addresses are mapped. *)
Definition grown root s tbl l s' tbl' l' : Prop :=
  pt_change root s tbl l s' tbl' l' (pt_entry (k_mem s) tbl).

Lemma grown_refl root s tbl l : vm_ok s root tbl l -> grown root s tbl l s tbl l.
Proof.
  intros Hok. split; try done; auto using vm_frame_refl. by exists [].
Qed.

Lemma pt_change_trans root s1 tbl1 l1 s2 tbl2 l2 s3 tbl3 l3 ent2 ent3 :
  pt_change root s1 tbl1 l1 s2 tbl2 l2 ent2 -> pt_change root s2 tbl2 l2 s3 tbl3 l3 ent3 ->
  pt_change root s1 tbl1 l1 s3 tbl3 l3 ent3.
Proof.
  intros G1 G2. destruct (gr_free G1) as [t1 ->].
  destruct (gr_free G2) as [t2 ->]. split.
  - eapply vm_frame_trans; [apply (gr_frame G1) | apply (gr_frame G2)].
  - apply (gr_ok G2).
  - etrans; [apply (gr_sub G1) | apply (gr_sub G2)].
  - intros a x [Ha | Hx]%(gr_new G2).
    + by apply (gr_new G1) in Ha.
    + right. set_solver.
  - exists (t1 ++ t2). by rewrite app_assoc.
  - apply (gr_entry G2).
  - intros q Hq Hl. rewrite (gr_mem G2), (gr_mem G1); try done.
    + intros a [Ha | Hx]%(gr_new G1); [by apply (Hq a) | set_solver].
    + set_solver.
Qed.

Lemma pt_change_entry root s tbl l s' tbl' l' ent ent' :
  pt_change root s tbl l s' tbl' l' ent -> (forall va, 0 <= va < MAXVA -> ent va = ent' va) ->
  pt_change root s tbl l s' tbl' l' ent'.
Proof. intros G Hent. destruct G. split; try done. intros va Hva. rewrite <- Hent by done. auto. Qed.

Lemma grown_trans root s1 tbl1 l1 s2 tbl2 l2 s3 tbl3 l3 :
  grown root s1 tbl1 l1 s2 tbl2 l2 -> grown root s2 tbl2 l2 s3 tbl3 l3 ->
  grown root s1 tbl1 l1 s3 tbl3 l3.
Proof.
  intros G1 G2. eapply pt_change_entry; [exact (pt_change_trans _ _ _ _ _ _ _ _ _ _ _ _ G1 G2) |].
  apply (gr_entry G1).
Qed.

(** The allocation branch of [walk]. *)
Lemma walk_grow s e root tbl a p i v q l r va :
  vm_ok s root tbl (q :: l) -> tbl !! a = Some p -> (length a < 2)%nat -> 0 <= i < 512 ->
  mem_word (k_mem s) (p + 8 * i) = Some v -> Z.testbit v 0 = false ->
  exists s',
    (let! pt := kalloc in
     if pt =? 0 then ret 0
     else
       memset_page pt 0 ;;;
       write_word (p + 8 * i) (Z.lor (PA2PTE pt) PTE_V) ;;;
       walk_loop r pt va true) (mkworld s e) = walk_loop r q va true (mkworld s' e) /\
    grown root s tbl (q :: l) s' (<[a ++ [i] := q]> tbl) l.
Proof.
  intros ([c Hc] & Hlk & Hfree & Hwf & Hown) Ha Hlen Hi Hv Hbit.
  destruct (kalloc_pop s e c q l Hc Hlk Hfree) as (s1 & Hs1 & Hfree1 & Hm1 & Hst).
  pose proof (free_chain_alloc _ _ _ (proj1 Hfree)) as [Hq _]%Forall_cons.
  pose proof (proj2 Hfree) as [Hql Hnd]%NoDup_cons.
  assert (forall b, tbl !! b <> Some q) as Hfresh by (intros b Hb; apply (Hown b q Hb); by left).
  assert (p <> q) as Hpq by (intros ->; by apply (Hfresh a)).
  destruct (wf_page _ _ _ Hwf a p Ha) as (Hpa & _ & _).
  pose proof (proj1 (page_base_entry p i Hpa Hi)) as Hbase.
  exists (s1 <| k_mem := link_mem (k_mem s) q (p + 8 * i) |>). split.
  - rewrite (bind_ret _ _ _ _ _ Hs1), (proj2 (Z.eqb_neq q 0)) by (by apply alloc_page_pos).
    unfold memset_page. krun.
    kcall (write_word_eq (s1 <| k_mem ::= <[q := fill_page 0]> |>) e _ _).
    { cbn. rewrite Hm1, !mem_word_insert_ne by (by rewrite Hbase). by rewrite Hv. }
    do 2 f_equal. upd_eq. by rewrite Hm1, insert_insert_eq.
  - split.
    + exists true. by rewrite Hst.
    + split; [exists (sync_cpu c); rewrite Hst; apply (cpu_ok_sync s c Hc) |].
      split; [by rewrite Hst |]. split; [| split].
      * split; [| done]. cbn. destruct Hfree1 as [Hch _]. rewrite Hm1 in Hch.
        rewrite Hst in *. cbn in *.
        apply free_chain_set_word; [| rewrite Hbase; intros Hin; apply (Hown a p Ha); by right].
        rewrite <- (insert_insert_eq (k_mem s) q (fill_page 0) (fill_page 5)).
        by apply free_chain_insert.
      * by apply (pt_wf_link _ root tbl a p i q v).
      * intros b x [[<- <-] | [? Hb]]%lookup_insert_Some; [done |].
        intros Hin. apply (Hown b x Hb). by right.
    + apply insert_subseteq. eapply link_absent; eauto.
    + intros b x [[<- <-] | [? Hb]]%lookup_insert_Some; [right; by left | by left].
    + by exists [q].
    + intros va' _. by apply (pt_entry_link _ root tbl a p i q v).
    + intros x Hx Hxl. cbn. unfold link_mem, mem_set_word. rewrite Hbase.
      rewrite lookup_alter_ne by (intros ->; by apply (Hx a)).
      apply lookup_insert_ne. intros ->. apply Hxl. by left.
Qed.

Lemma walk_loop_ok va root e levels : forall a p s tbl l,
  vm_ok s root tbl l -> tbl !! a = Some p -> (length a + length levels = 2)%nat ->
  exists r s' tbl' l',
    walk_loop levels p va true (mkworld s e) = Ret r (mkworld s' e) /\
    grown root s tbl l s' tbl' l' /\
    (r = 0 /\ l' = [] \/
     exists x, tbl' !! (a ++ ((fun lv => PX lv va) <$> levels)) = Some x /\ r = x + 8 * PX 0 va).
Proof.
  induction levels as [| lv levels IH]; intros a p s tbl l Hok Ha Hlen; simpl in Hlen.
  { exists (p + 8 * PX 0 va), s, tbl, l. split; [done |]. split; [by apply grown_refl |].
    right. exists p. by rewrite app_nil_r. }
  pose proof Hok as ([c Hc] & Hlk & Hfree & Hwf & _).
  destruct (wf_entry_some _ _ _ a p (PX lv va) Hwf Ha (PX_range _ _)) as [v Hv].
  pose proof (wf_link _ _ _ Hwf a p _ v Ha ltac:(lia) (PX_range _ _) Hv) as Hl.
  cbn [walk_loop fmap list_fmap]. rewrite (bind_ret _ _ _ _ _ (read_word_eq s e _ v Hv)), valid_testbit.
  rewrite cons_middle, app_assoc.
  destruct (Z.testbit v 0) eqn:Hbit; [by apply IH; [| | rewrite length_app; simpl; lia] |].
  cbn [negb]. destruct l as [| q l].
  { exists 0, (sync s), tbl, []. rewrite (bind_ret _ _ _ _ _ (kalloc_empty s e c Hc Hlk Hfree)).
    split; [done |]. split; [| by left]. split; try done; try (by exists []); auto.
    - exists true. by destruct s.
    - destruct Hok as (_ & ? & ? & ? & ?). split; [| done].
      exists (sync_cpu c). by apply cpu_ok_sync. }
  destruct (walk_grow s e root tbl a p (PX lv va) v q l levels va Hok Ha ltac:(lia)
              (PX_range _ _) Hv Hbit) as (s1 & -> & G1).
  destruct (IH (a ++ [PX lv va]) q s1 (<[a ++ [PX lv va] := q]> tbl) l)
    as (r & s' & tbl' & l' & Hr & G2 & Hpost).
  - by apply (gr_ok G1).
  - apply lookup_insert_eq.
  - rewrite length_app. simpl. lia.
  - exists r, s', tbl', l'. split; [done |]. split; [| done]. by eapply grown_trans.
Qed.

(** [walk] with allocation gives the address of the leaf entry of [va], adding
    the table pages it needs; it fails only when no page is free. *)
Lemma walk_alloc s e root tbl l va :
  vm_ok s root tbl l -> 0 <= va < MAXVA ->
  exists r s' tbl' l',
    walk root va true (mkworld s e) = Ret r (mkworld s' e) /\
    grown root s tbl l s' tbl' l' /\
    (r = 0 /\ l' = [] \/
     exists x, tbl' !! leaf_path va = Some x /\ r = x + 8 * PX 0 va).
Proof.
  intros Hok Hva. unfold walk. rewrite (proj2 (Z.leb_gt _ _)) by lia.
  apply (walk_loop_ok va root e [2; 1] [] root s tbl l Hok); [| done].
  destruct Hok as (_ & _ & _ & Hwf & _). apply (wf_root _ _ _ Hwf).
Qed.

(** An address whose table pages exist needs no allocation. *)
Lemma walk_alloc_present s e root tbl l va p :
  vm_ok s root tbl l -> 0 <= va < MAXVA -> tbl !! leaf_path va = Some p ->
  walk root va true (mkworld s e) = Ret (p + 8 * PX 0 va) (mkworld s e).
Proof.
  intros (_ & _ & _ & Hwf & _) Hva Hp. unfold walk. rewrite (proj2 (Z.leb_gt _ _)) by lia.
  cbn [walk_loop]. pose proof (wf_root _ _ _ Hwf) as Hroot. unfold leaf_path in Hp.
  destruct (wf_prefix _ _ _ Hwf [PX 2 va] (PX 1 va)) as [q Hq]; [by exists p |].
  destruct (wf_entry_some _ _ _ [] root (PX 2 va) Hwf Hroot (PX_range _ _)) as [v2 Hv2].
  pose proof (wf_link _ _ _ Hwf [] root (PX 2 va) v2 Hroot ltac:(simpl; lia) (PX_range _ _) Hv2) as Hl2.
  cbn [app] in Hl2. rewrite Hq in Hl2.
  kcall (read_word_eq s e _ v2). rewrite valid_testbit. destruct (Z.testbit v2 0); [| done].
  injection Hl2 as ->.
  destruct (wf_entry_some _ _ _ [PX 2 va] _ (PX 1 va) Hwf Hq (PX_range _ _)) as [v1 Hv1].
  pose proof (wf_link _ _ _ Hwf [PX 2 va] _ (PX 1 va) v1 Hq ltac:(simpl; lia) (PX_range _ _) Hv1) as Hl1.
  cbn [app] in Hl1. rewrite Hp in Hl1.
  kcall (read_word_eq s e _ v1). rewrite valid_testbit. destruct (Z.testbit v1 0); [| done].
  by injection Hl1 as ->.
Qed.

(** ** Writing a leaf entry *)
Definition same_page (va va' : Z) : bool := va / PGSIZE =? va' / PGSIZE.

Lemma leaf_inj va va' :
  0 <= va < MAXVA -> 0 <= va' < MAXVA -> leaf_path va = leaf_path va' -> PX 0 va = PX 0 va' ->
  va / PGSIZE = va' / PGSIZE.
Proof. intros Hva Hva' [= H2 H1] H0. by apply PX_inj. Qed.

Lemma leaf_same va va' : va / PGSIZE = va' / PGSIZE ->
  leaf_path va = leaf_path va' /\ PX 0 va = PX 0 va'.
Proof.
  intros E. unfold leaf_path. rewrite !PX_eq by lia.
  change (2 ^ (12 + 9 * 2)) with (PGSIZE * 262144). change (2 ^ (12 + 9 * 1)) with (PGSIZE * 512).
  change (2 ^ (12 + 9 * 0)) with (PGSIZE * 1). rewrite <- !Z.div_div by done. by rewrite E.
Qed.

Lemma pt_wf_leaf m root tbl a p i v :
  pt_wf m root tbl -> tbl !! a = Some p -> (2 <= length a)%nat -> 0 <= i < 512 ->
  pt_wf (mem_set_word m (p + 8 * i) v) root tbl.
Proof.
  intros Hwf Ha Hlen Hi. destruct (wf_page _ _ _ Hwf a p Ha) as (Hpa & _).
  split; try apply Hwf.
  - intros b x Hb. destruct (wf_page _ _ _ Hwf b x Hb) as (? & ? & pg & Hpg & Hl).
    repeat split; try lia. by apply (mem_set_word_length _ _ _ _ pg).
  - intros b x j w Hb Hlb Hj Hw. apply (wf_link _ _ _ Hwf b x j w); try done.
    destruct (wf_page _ _ _ Hwf b x Hb) as (Hxa & _).
    rewrite entry_ne in Hw; try done. intros [= -> ->].
    pose proof (wf_inj _ _ _ Hwf b a p Hb Ha) as ->. lia.
Qed.

Lemma pt_entry_leaf m root tbl va p v va' :
  pt_wf m root tbl -> tbl !! leaf_path va = Some p -> 0 <= va < MAXVA -> 0 <= va' < MAXVA ->
  pt_entry (mem_set_word m (p + 8 * PX 0 va) v) tbl va' =
    if same_page va va' then v else pt_entry m tbl va'.
Proof.
  intros Hwf Hp Hva Hva'. unfold same_page. destruct (Z.eqb_spec (va / PGSIZE) (va' / PGSIZE)) as [E | Hne].
  - destruct (leaf_same va va' E) as [E1 E2]. unfold pt_entry. rewrite <- E1, <- E2, Hp. cbn.
    rewrite mem_word_set_same; [done |].
    by apply (wf_entry_some m root tbl (leaf_path va)); [| | apply PX_range].
  - unfold pt_entry. destruct (tbl !! leaf_path va') as [x |] eqn:Hx; [| done]. cbn.
    destruct (wf_page _ _ _ Hwf _ p Hp) as (Hpa & _), (wf_page _ _ _ Hwf _ x Hx) as (Hxa & _).
    rewrite entry_ne; try done; try apply PX_range.
    intros [= -> E]. apply Hne. apply leaf_inj; try done.
    by apply (wf_inj _ _ _ Hwf _ _ p).
Qed.

(** ** [mappages] *)
Definition leaf_pte (pa perm : Z) : Z := Z.lor (Z.lor (PA2PTE pa) perm) PTE_V.

(** [ent] with the [n] pages from [va] mapped to those from [pa]. *)
Definition map_range (va n pa perm : Z) (ent : Z -> Z) (va' : Z) : Z :=
  let k := va' / PGSIZE - va / PGSIZE in
  if (0 <=? k) && (k <? n) then leaf_pte (pa + k * PGSIZE) perm else ent va'.

Definition valid_entry (s : kstate) (tbl : gmap (list Z) Z) (va : Z) : bool :=
  Z.testbit (pt_entry (k_mem s) tbl va) 0.

Lemma set_leaf_ok s root tbl l va p v :
  vm_ok s root tbl l -> tbl !! leaf_path va = Some p -> 0 <= va < MAXVA ->
  pt_change root s tbl l (s <| k_mem ::= fun m => mem_set_word m (p + 8 * PX 0 va) v |>) tbl l
    (fun va' => if same_page va va' then v else pt_entry (k_mem s) tbl va').
Proof.
  intros (Hc & Hlk & [Hch Hnd] & Hwf & Hown) Hp Hva.
  destruct (wf_page _ _ _ Hwf _ p Hp) as (Hpa & _).
  pose proof (proj1 (page_base_entry p (PX 0 va) Hpa (PX_range _ _))) as Hbase.
  split; try done; auto.
  - exists false. by destruct s.
  - split; [done |]. split; [done |]. split; [| split; [| done]].
    + split; [| done]. cbn. apply free_chain_set_word; [done |]. rewrite Hbase. by apply (Hown _ _ Hp).
    + by apply (pt_wf_leaf _ root tbl (leaf_path va)); [| | | apply PX_range].
  - by exists [].
  - intros va' Hva'. cbn. by apply (pt_entry_leaf _ root).
  - intros q Hq _. cbn. unfold mem_set_word. rewrite Hbase.
    rewrite lookup_alter_ne; [done |]. intros ->. by apply (Hq (leaf_path va)).
Qed.

(** The entry read through a table page is the entry of the address. *)
Lemma pt_entry_word s root tbl va p :
  pt_wf (k_mem s) root tbl -> tbl !! leaf_path va = Some p ->
  mem_word (k_mem s) (p + 8 * PX 0 va) = Some (pt_entry (k_mem s) tbl va).
Proof.
  intros Hwf Hp. unfold pt_entry. rewrite Hp. cbn.
  by destruct (wf_entry_some _ _ _ (leaf_path va) p (PX 0 va) Hwf Hp (PX_range _ _)) as [v ->].
Qed.

(** The leaf address [walk] returns is never null. *)
Lemma leaf_addr_pos m root tbl va p :
  pt_wf m root tbl -> tbl !! leaf_path va = Some p -> p + 8 * PX 0 va <> 0.
Proof.
  intros Hwf Hp. destruct (wf_page _ _ _ Hwf _ p Hp) as (_ & ? & _).
  pose proof (PX_range 0 va). lia.
Qed.

(** One iteration of [mappages]. *)
Lemma mappages_step s e root tbl l n va last pa perm :
  vm_ok s root tbl l -> 0 <= va < MAXVA -> valid_entry s tbl va = false ->
  exists s' tbl' l',
    (grown root s tbl l s' tbl' [] /\
     mappages_loop (S n) root va last pa perm (mkworld s e) = Ret (-1) (mkworld s' e)) \/
    (pt_change root s tbl l s' tbl' l'
       (fun va' => if same_page va va' then leaf_pte pa perm else pt_entry (k_mem s) tbl va') /\
     mappages_loop (S n) root va last pa perm (mkworld s e) =
       (if va =? last then ret 0
        else mappages_loop n root (u64 (va + PGSIZE)) last (u64 (pa + PGSIZE)) perm) (mkworld s' e)).
Proof.
  intros Hok Hva Hinv.
  destruct (walk_alloc s e root tbl l va Hok Hva) as (r & s1 & tbl' & l' & Hr & G & Hpost).
  cbn [mappages_loop]. rewrite (bind_ret _ _ _ _ _ Hr).
  destruct Hpost as [[-> ->] | (p & Hp & ->)].
  { exists s1, tbl', []. by left. }
  pose proof (gr_ok G) as Hok1. pose proof Hok1 as (_ & _ & _ & Hwf1 & _).
  rewrite (proj2 (Z.eqb_neq _ 0)) by (by eapply leaf_addr_pos).
  rewrite (bind_ret _ _ _ _ _ (read_word_eq s1 e _ _ (pt_entry_word s1 root tbl' va p Hwf1 Hp))).
  rewrite valid_testbit, (gr_entry G va Hva). unfold valid_entry in Hinv. rewrite Hinv.
  eexists _, tbl', l'. right. split.
  2:{ eapply eq_trans; [apply bind_ret, write_word_eq; by rewrite (pt_entry_word s1 root tbl') | reflexivity]. }
  eapply pt_change_entry; [eapply pt_change_trans; [exact G | by apply (set_leaf_ok s1)] |].
  intros va' Hva'. cbn beta. destruct (same_page va va'); [done |]. by apply (gr_entry G).
Qed.

Lemma div_add_page va : (va + PGSIZE) / PGSIZE = va / PGSIZE + 1.
Proof. by rewrite <- (Z.mul_1_l PGSIZE) at 1; rewrite Z.div_add. Qed.

Lemma map_range_step va k pa perm ent va' :
  0 <= k ->
  map_range (va + PGSIZE) k (pa + PGSIZE) perm
    (fun va' => if same_page va va' then leaf_pte pa perm else ent va') va' =
  map_range va (k + 1) pa perm ent va'.
Proof.
  intros Hk. unfold map_range, same_page. rewrite div_add_page. cbv zeta.
  set (d := va' / PGSIZE). set (b := va / PGSIZE).
  destruct (Z.leb_spec 0 (d - (b + 1))), (Z.ltb_spec (d - (b + 1)) k), (Z.eqb_spec b d),
    (Z.leb_spec 0 (d - b)), (Z.ltb_spec (d - b) (k + 1)); cbn [andb]; try lia; try done.
  - f_equal. lia.
  - f_equal. subst b. rewrite e. lia.
Qed.

Lemma map_range_one va pa perm ent va' :
  map_range va 1 pa perm ent va' = if same_page va va' then leaf_pte pa perm else ent va'.
Proof.
  unfold map_range, same_page. cbv zeta.
  destruct (Z.eqb_spec (va / PGSIZE) (va' / PGSIZE)) as [-> | ?].
  - rewrite Z.sub_diag. cbn. f_equal. lia.
  - destruct (Z.leb_spec 0 (va' / PGSIZE - va / PGSIZE)),
      (Z.ltb_spec (va' / PGSIZE - va / PGSIZE) 1); cbn; lia || done.
Qed.

Lemma map_range_none va pa perm ent va' : map_range va 0 pa perm ent va' = ent va'.
Proof.
  unfold map_range. cbv zeta.
  destruct (Z.leb_spec 0 (va' / PGSIZE - va / PGSIZE)),
    (Z.ltb_spec (va' / PGSIZE - va / PGSIZE) 0); cbn; lia || done.
Qed.

Lemma mappages_loop_ok root e perm n : forall s tbl l va pa,
  vm_ok s root tbl l -> va mod PGSIZE = 0 -> 0 <= va -> va + (Z.of_nat n + 1) * PGSIZE <= MAXVA ->
  0 <= pa -> pa + (Z.of_nat n + 1) * PGSIZE <= 2 ^ 56 ->
  (forall va', va <= va' < va + (Z.of_nat n + 1) * PGSIZE -> valid_entry s tbl va' = false) ->
  exists r s' tbl' l' k,
    mappages_loop (S n) root va (va + Z.of_nat n * PGSIZE) pa perm (mkworld s e) =
      Ret r (mkworld s' e) /\
    pt_change root s tbl l s' tbl' l' (map_range va k pa perm (pt_entry (k_mem s) tbl)) /\
    (r = 0 /\ k = Z.of_nat n + 1 \/ r = -1 /\ l' = [] /\ 0 <= k < Z.of_nat n + 1).
Proof.
  induction n as [| n IH]; intros s tbl l va pa Hok Hal Hva Hmax Hpa Hpmax Hinv;
    change MAXVA with (2 ^ 38) in *; unfold PGSIZE in Hmax, Hpmax, Hinv;
    edestruct (mappages_step s e root tbl l) as (s1 & tbl1 & l1 & [[G ->] | [G ->]]);
    try exact Hok; try (change MAXVA with (2 ^ 38); lia); try (apply Hinv; lia).
  - exists (-1), s1, tbl1, [], 0. split; [done |]. split; [| right; split; [done |]; split; [done | lia]].
    eapply pt_change_entry; [exact G |]. intros. by rewrite map_range_none.
  - rewrite (proj2 (Z.eqb_eq _ _)) by lia. exists 0, s1, tbl1, l1, 1. split; [done |].
    split; [| left; split; [done | lia]].
    eapply pt_change_entry; [exact G |]. intros. by rewrite map_range_one.
  - exists (-1), s1, tbl1, [], 0. split; [done |]. split; [| right; split; [done |]; split; [done | lia]].
    eapply pt_change_entry; [exact G |]. intros. by rewrite map_range_none.
  - unfold PGSIZE at 1. rewrite (proj2 (Z.eqb_neq _ _)) by lia. rewrite !u64_small by (unfold PGSIZE; lia).
    destruct (IH s1 tbl1 l1 (va + PGSIZE) (pa + PGSIZE)) as (r & s2 & tbl2 & l2 & k & Hr & G2 & Hpost).
    + apply (gr_ok G).
    + by rewrite <- Zplus_mod_idemp_l, Hal.
    + unfold PGSIZE. lia.
    + unfold PGSIZE. lia.
    + unfold PGSIZE. lia.
    + unfold PGSIZE. lia.
    + intros va' Hva'. unfold valid_entry. rewrite (gr_entry G) by (change MAXVA with (2 ^ 38); unfold PGSIZE in *; lia).
      unfold same_page. rewrite (proj2 (Z.eqb_neq _ _)).
      * apply Hinv. unfold PGSIZE in *. lia.
      * intros E. pose proof (Z.div_le_mono (va + PGSIZE) va' PGSIZE ltac:(done) ltac:(lia)) as Hle.
        rewrite div_add_page in Hle. lia.
    + assert (0 <= k) as Hk by (destruct Hpost as [[_ ->] | (_ & _ & ?)]; lia).
      exists r, s2, tbl2, l2, (k + 1). split.
      { by replace (va + Z.of_nat (S n) * PGSIZE) with (va + PGSIZE + Z.of_nat n * PGSIZE) by lia. }
      split; [| destruct Hpost as [[-> ->] | (-> & -> & ?)]; [left | right]; repeat split; try lia].
      eapply pt_change_entry; [eapply pt_change_trans; [exact G | exact G2] |].
      intros va' Hva'. rewrite <- (map_range_step va k pa perm _ va' Hk). unfold map_range. cbv zeta.
      by rewrite (gr_entry G) by done.
Qed.

(** A zeroed page is an empty page table. *)
Lemma pt_wf_empty m root :
  root mod PGSIZE = 0 -> 0 < root < 2 ^ 56 -> m !! root = Some (fill_page 0) ->
  pt_wf m root {[ [] := root ]}.
Proof.
  intros Hr Hrr Hm. split.
  - apply lookup_singleton_eq.
  - intros a b p [<- <-]%lookup_singleton_Some [<- _]%lookup_singleton_Some. done.
  - intros a p [<- <-]%lookup_singleton_Some. split; [done |]. split; [lia |]. by eexists.
  - intros a p i v [<- <-]%lookup_singleton_Some _ Hi Hv.
    rewrite (mem_word_entry m root (fill_page 0)), fill_page_0_lookup in Hv by (done || lia).
    injection Hv as <-. by rewrite Z.bits_0, lookup_singleton_ne by done.
  - intros a i [x [? _]%lookup_singleton_Some]. by destruct a.
Qed.

(** ** Properties *)

(** C12: [mappages] maps exactly the range it is given.  For [n] unmapped pages from
    the aligned address [va] it either returns 0 with page [i] of the range mapped
    to page [i] from [pa] with permission [perm], or runs out of memory and returns
    -1 with only a prefix of the range mapped; every other virtual address keeps
    its entry, the page table stays a tree disjoint from the free list, and no
    page outside the table and the free list is written. *)
Theorem mappages_maps s e root tbl l va n pa perm :
  vm_ok s root tbl l -> va mod PGSIZE = 0 -> 0 <= va -> 0 < n -> va + n * PGSIZE <= MAXVA ->
  0 <= pa -> pa + n * PGSIZE <= 2 ^ 56 ->
  (forall va', va <= va' < va + n * PGSIZE -> valid_entry s tbl va' = false) ->
  exists r s' tbl' l' k,
    mappages root va (n * PGSIZE) pa perm (mkworld s e) = Ret r (mkworld s' e) /\
    (r = 0 /\ k = n \/ r = -1 /\ l' = [] /\ 0 <= k < n) /\
    vm_ok s' root tbl' l' /\ vm_frame s s' /\
    (forall va', 0 <= va' < MAXVA ->
       pt_entry (k_mem s') tbl' va' = map_range va k pa perm (pt_entry (k_mem s) tbl) va') /\
    (forall q, (forall a, tbl !! a <> Some q) -> q ∉ l -> k_mem s' !! q = k_mem s !! q).
Proof.
  intros Hok Hal Hva Hn Hmax Hpa Hpmax Hinv. unfold mappages.
  assert (MAXVA = 2 ^ 38) as HM by done. rewrite HM in Hmax.
  rewrite (proj2 (Z.eqb_eq (va mod PGSIZE) 0) Hal). rewrite (Z.mod_mul n PGSIZE) by done. cbn [negb Z.eqb].
  rewrite (proj2 (Z.eqb_neq (n * PGSIZE) 0)) by (unfold PGSIZE; lia).
  rewrite Z.div_mul by done. rewrite u64_small by (unfold PGSIZE in *; lia).
  replace (va + n * PGSIZE - PGSIZE) with (va + Z.of_nat (Z.to_nat (n - 1)) * PGSIZE) by (rewrite Z2Nat.id; lia).
  replace (Z.to_nat n) with (S (Z.to_nat (n - 1))) by lia.
  destruct (mappages_loop_ok root e perm (Z.to_nat (n - 1)) s tbl l va pa) as (r & s' & tbl' & l' & k & Hr & G & Hpost);
    rewrite ?Z2Nat.id, ?Z.sub_add by lia; try done; try (rewrite HM; lia).
  rewrite Z2Nat.id in Hr by lia. rewrite Z2Nat.id, Z.sub_add in Hpost by lia.
  exists r, s', tbl', l', k. split; [exact Hr |]. split; [done |].
  split; [apply (gr_ok G) |]. split; [apply (gr_frame G) |].
  split; [apply (gr_entry G) | apply (gr_mem G)].
Qed.

(** [mappages] never overwrites a mapping: if the first page of the range is
    already mapped, the kernel panics with "mappages: remap". *)
Theorem mappages_remap_panics s e root tbl l va n pa perm :
  vm_ok s root tbl l -> va mod PGSIZE = 0 -> 0 <= va < MAXVA -> 0 < n ->
  valid_entry s tbl va = true ->
  mappages root va (n * PGSIZE) pa perm (mkworld s e) = Panic "mappages: remap".
Proof.
  intros Hok Hal Hva Hn Hv. unfold mappages.
  rewrite (proj2 (Z.eqb_eq (va mod PGSIZE) 0) Hal). rewrite (Z.mod_mul n PGSIZE) by done. cbn [negb Z.eqb].
  rewrite (proj2 (Z.eqb_neq (n * PGSIZE) 0)) by (unfold PGSIZE; lia).
  rewrite Z.div_mul by done. replace (Z.to_nat n) with (S (Z.to_nat (n - 1))) by lia.
  cbn [mappages_loop]. pose proof Hok as (_ & _ & _ & Hwf & _). unfold valid_entry in Hv.
  destruct (walk_alloc s e root tbl l va Hok Hva) as (r & s1 & tbl' & l' & Hr & G & Hpost).
  rewrite (bind_ret _ _ _ _ _ Hr).
  pose proof (gr_ok G) as (_ & _ & _ & Hwf1 & _).
  assert (exists p, tbl !! leaf_path va = Some p) as [p Hp].
  { unfold pt_entry in Hv. destruct (tbl !! leaf_path va) as [p |]; [by exists p | by rewrite Z.bits_0 in Hv]. }
  assert (tbl' !! leaf_path va = Some p) as Hp' by (by apply (lookup_weaken tbl), (gr_sub G)).
  destruct Hpost as [[-> ->] | (x & Hx & ->)].
  - rewrite (walk_alloc_present s e root tbl l va p Hok Hva Hp) in Hr. injection Hr as Hr _.
    by destruct (leaf_addr_pos (k_mem s) root tbl va p Hwf Hp).
  - simplify_eq. rewrite (proj2 (Z.eqb_neq _ 0)) by (by eapply (leaf_addr_pos (k_mem s1))).
    rewrite (bind_ret _ _ _ _ _ (read_word_eq s1 e _ _ (pt_entry_word s1 root tbl' va _ Hwf1 Hx))).
    by rewrite valid_testbit, (gr_entry G va Hva), Hv.
Qed.
End pagetable.

(** ** Examples *)

(** A decision procedure for [pt_wf]. *)
Definition pt_wf_b (m : gmap Z (list Z)) (root : Z) (tbl : gmap (list Z) Z) : bool :=
  let l := map_to_list tbl in
  bool_decide (tbl !! [] = Some root) &&
  forallb (fun x => forallb (fun y => negb (snd x =? snd y) || bool_decide (fst x = fst y)) l) l &&
  forallb (fun x => (snd x mod PGSIZE =? 0) && (0 <? snd x) && (snd x <? 2 ^ 56) &&
    match m !! snd x with Some pg => Nat.eqb (length pg) 512 | None => false end) l &&
  forallb (fun x => negb (length (fst x) <? 2)%nat ||
    forallb (fun i => match mem_word m (snd x + 8 * Z.of_nat i) with
      | Some v => bool_decide (tbl !! (fst x ++ [Z.of_nat i]) =
                    if Z.testbit v 0 then Some (PTE2PA v) else None)
      | None => true
      end) (seq 0 512)) l &&
  forallb (fun x => bool_decide (fst x = []) || bool_decide (is_Some (tbl !! removelast (fst x)))) l.

Lemma pt_wf_dec m root tbl : pt_wf_b m root tbl = true -> pt_wf m root tbl.
Proof.
  unfold pt_wf_b. rewrite !andb_true_iff, !forallb_forall. intros ((((Hr & Hi) & Hp) & Hl) & Hx).
  assert (forall a p, tbl !! a = Some p -> In (a, p) (map_to_list tbl)) as Hin.
  { intros a p Ha. apply list_elem_of_In. by apply elem_of_map_to_list. }
  split.
  - by apply bool_decide_eq_true in Hr.
  - intros a b p Ha Hb. specialize (Hi _ (Hin a p Ha)). rewrite forallb_forall in Hi.
    specialize (Hi _ (Hin b p Hb)). cbn in Hi. rewrite Z.eqb_refl in Hi. cbn in Hi.
    by apply bool_decide_eq_true in Hi.
  - intros a p Ha. specialize (Hp _ (Hin a p Ha)). cbn in Hp. rewrite !andb_true_iff in Hp.
    destruct (m !! p) as [pg |]; [| by destruct Hp]. destruct Hp as (((Hp & ?) & ?) & Hlen).
    split; [lia |]. split; [lia |]. exists pg. split; [done |]. by apply Nat.eqb_eq.
  - intros a p i v Ha Hlen Hir Hv. specialize (Hl _ (Hin a p Ha)). cbn [fst snd] in Hl.
    rewrite (proj2 (Nat.ltb_lt _ _) Hlen) in Hl. cbn [negb orb] in Hl. rewrite forallb_forall in Hl.
    specialize (Hl (Z.to_nat i)). rewrite in_seq in Hl. rewrite Z2Nat.id in Hl by lia.
    specialize (Hl ltac:(lia)). rewrite Hv in Hl. by apply bool_decide_eq_true in Hl.
  - intros a i [p Hp']. specialize (Hx _ (Hin _ p Hp')). cbn [fst] in Hx.
    rewrite orb_true_iff in Hx. destruct Hx as [Hx%bool_decide_eq_true | Hx%bool_decide_eq_true].
    + by destruct a.
    + by rewrite removelast_last in Hx.
Qed.

(** A page table at 0x80100000 that maps user page 0 to the page 0x80103000,
    readable, writable and accessible to the user. *)
Definition sample_root : Z := 0x80100000.
Definition sample_tbl : gmap (list Z) Z :=
  {[ [] := 0x80100000; [0] := 0x80101000; [0; 0] := 0x80102000 ]}.
Definition sample_vm : kstate :=
  sample <| k_mem ::= fun m =>
    <[0x80100000 := Z.lor (PA2PTE 0x80101000) PTE_V :: replicate 511 0]>
    (<[0x80101000 := Z.lor (PA2PTE 0x80102000) PTE_V :: replicate 511 0]>
    (<[0x80102000 := Z.lor (PA2PTE 0x80103000) 0x17 :: replicate 511 0]>
    (<[0x80103000 := replicate 512 0]> m))) |>.

Lemma sample_vm_ok : vm_ok sample_vm sample_root sample_tbl sample_free.
Proof.
  split; [exists sample_cpu; exact sample_cpu_ok |].
  split; [apply lock_free_dec; by vm_compute |].
  split; [split; [apply free_chain_dec; by vm_compute | apply (bool_decide_unpack _); by vm_compute] |].
  split; [apply pt_wf_dec; by vm_compute |].
  intros a p Hp. assert (p ∈ (snd <$> map_to_list sample_tbl)) as Hin.
  { apply list_elem_of_fmap. exists (a, p). split; [done |]. by apply elem_of_map_to_list. }
  clear Hp. revert p Hin. apply Forall_forall. apply (bool_decide_unpack _). by vm_compute.
Qed.

Lemma mappages_maps_witness :
  let s := sample_vm in
  exists r s' tbl' l' k,
    mappages sample_root 0x1000 (2 * PGSIZE) 0x80110000 0x16 (mkworld s []) = Ret r (mkworld s' []) /\
    (r = 0 /\ k = 2 \/ r = -1 /\ l' = [] /\ 0 <= k < 2) /\
    vm_ok s' sample_root tbl' l' /\ vm_frame s s' /\
    (forall va', 0 <= va' < MAXVA ->
       pt_entry (k_mem s') tbl' va' =
         map_range 0x1000 k 0x80110000 0x16 (pt_entry (k_mem s) sample_tbl) va') /\
    (forall q, (forall a, sample_tbl !! a <> Some q) -> q ∉ sample_free -> k_mem s' !! q = k_mem s !! q).
Proof.
  intros s. apply (mappages_maps s [] sample_root sample_tbl sample_free 0x1000 2 0x80110000 0x16).
  - exact sample_vm_ok.
  - reflexivity.
  - lia.
  - lia.
  - by vm_compute.
  - lia.
  - by vm_compute.
  - intros va' Hva'. change (2 * PGSIZE) with 8192 in Hva'. unfold valid_entry, pt_entry, leaf_path.
    rewrite !PX_eq by lia. change (2 ^ (12 + 9 * 2)) with 1073741824.
    change (2 ^ (12 + 9 * 1)) with 2097152. change (2 ^ (12 + 9 * 0)) with 4096.
    rewrite (Z.div_small va' 1073741824), (Z.div_small va' 2097152) by lia.
    assert (va' / 4096 = 1 \/ va' / 4096 = 2) as [-> | ->] by (Z.div_mod_to_equations; lia);
      by vm_compute.
Defined.

Lemma mappages_remap_panics_witness :
  mappages sample_root 0 (1 * PGSIZE) 0x80110000 0x16 (mkworld sample_vm []) = Panic "mappages: remap".
Proof.
  apply (mappages_remap_panics sample_vm [] sample_root sample_tbl sample_free 0 1).
  - exact sample_vm_ok.
  - reflexivity.
  - split; [lia | by vm_compute].
  - lia.
  - by vm_compute.
Defined.
