(* ===== verification/UserMem.v ===== *)
(** * User memory through the page table

    [copyout] and [copyin] seen from the user: a byte at virtual address [va]
    lives at the physical address [uaddr] the page table gives it.  [copyout]
    writes the bytes of its source at those addresses and changes nothing else;
    [copyin] reads them back. *)
From S2P Require Import Prelude Kstate Spinlock Mem Sample Kalloc Sched Vm PageTable.
Local Open Scope Z_scope.

(** ** Bytes of memory *)
Section bytes.
Implicit Types (m : gmap Z (list Z)).

Lemma mem_byte_set_ne_word m a b v :
  a - a mod 8 <> b - b mod 8 -> mem_byte (mem_set_byte m b v) a = mem_byte m a.
Proof.
  intros Hne. unfold mem_byte, mem_set_byte.
  destruct (mem_word m (b - b mod 8)) as [w |]; [| done].
  assert (page_base (a - a mod 8) <> page_base (b - b mod 8) \/
          word_index (a - a mod 8) <> word_index (b - b mod 8)) as [Hp | Hw].
  { destruct (decide (page_base (a - a mod 8) = page_base (b - b mod 8))) as [E | ?]; [right | by left].
    intros Hw. apply Hne. unfold page_base, word_index, PGSIZE in *.
    apply Z2Nat.inj in Hw; Z.div_mod_to_equations; lia. }
  - by rewrite mem_word_set_page_ne.
  - by rewrite mem_word_set_index_ne.
Qed.

Lemma byte_shift_range a : 0 <= byte_shift a <= 56.
Proof. unfold byte_shift. pose proof (Z.mod_pos_bound a 8 ltac:(lia)). lia. Qed.

Lemma byte_testbit w i : 0 <= i -> Z.testbit (Z.land w 255) i = (i <? 8) && Z.testbit w i.
Proof.
  intros Hi. change 255 with (Z.ones 8). rewrite Z.land_spec, Z.testbit_ones_nonneg by lia.
  by rewrite andb_comm.
Qed.

Lemma u8_testbit v i : 0 <= i -> Z.testbit (u8 v) i = (i <? 8) && Z.testbit v i.
Proof.
  intros Hi. unfold u8. destruct (Z.ltb_spec i 8).
  - by rewrite Z.mod_pow2_bits_low by lia.
  - by rewrite Z.mod_pow2_bits_high by lia.
Qed.

Lemma word_set_byte_get w a b v :
  Z.land (Z.shiftr (word_set_byte w a v) (byte_shift b)) 255 =
    if a mod 8 =? b mod 8 then u8 v else Z.land (Z.shiftr w (byte_shift b)) 255.
Proof.
  pose proof (byte_shift_range a). pose proof (byte_shift_range b).
  assert (byte_shift a = 8 * (a mod 8)) by done. assert (byte_shift b = 8 * (b mod 8)) by done.
  apply Z.bits_inj'. intros i Hi. unfold word_set_byte.
  rewrite byte_testbit, Z.shiftr_spec, Z.lor_spec, Z.land_spec, Z.lnot_spec by lia.
  rewrite !Z.shiftl_spec by lia.
  destruct (Z.ltb_spec i 8) as [Hi8 | Hi8]; cbn [andb].
  - destruct (Z.eqb_spec (a mod 8) (b mod 8)) as [E | E].
    + replace (i + byte_shift b - byte_shift a) with i by lia.
      change 255 with (Z.ones 8). rewrite Z.testbit_ones_nonneg by lia.
      rewrite (proj2 (Z.ltb_lt i 8)) by lia. cbn. by rewrite andb_false_r.
    + rewrite byte_testbit, Z.shiftr_spec by lia. rewrite (proj2 (Z.ltb_lt i 8)) by lia. cbn [andb].
      destruct (Z.lt_ge_cases (i + byte_shift b - byte_shift a) 0).
      * rewrite (Z.testbit_neg_r 255), (Z.testbit_neg_r (u8 v)) by lia. cbn. by rewrite andb_true_r, orb_false_r.
      * rewrite u8_testbit by lia. change 255 with (Z.ones 8).
        rewrite Z.testbit_ones_nonneg by lia.
        rewrite (proj2 (Z.ltb_ge (i + byte_shift b - byte_shift a) 8)) by lia. cbn.
        by rewrite andb_true_r, orb_false_r.
  - destruct (a mod 8 =? b mod 8).
    + rewrite u8_testbit by lia. by rewrite (proj2 (Z.ltb_ge i 8)) by lia.
    + rewrite byte_testbit by lia. by rewrite (proj2 (Z.ltb_ge i 8)) by lia.
Qed.

(** A byte write is seen by a read of that byte and by no other. *)
Lemma mem_byte_set m a b v :
  is_Some (mem_byte m b) ->
  mem_byte (mem_set_byte m b v) a = if a =? b then Some (u8 v) else mem_byte m a.
Proof.
  intros Hb. destruct (decide (a - a mod 8 = b - b mod 8)) as [E | Hne].
  2:{ rewrite mem_byte_set_ne_word by done. by destruct (Z.eqb_spec a b) as [-> |]. }
  unfold mem_byte, mem_set_byte in *. rewrite E.
  destruct (mem_word m (b - b mod 8)) as [w |] eqn:Hw; [| by destruct Hb].
  rewrite mem_word_set_same by (by rewrite Hw). cbn. rewrite word_set_byte_get.
  destruct (Z.eqb_spec a b) as [-> | ?]; [by rewrite Z.eqb_refl |].
  by rewrite (proj2 (Z.eqb_neq _ _)) by lia.
Qed.

Lemma mem_byte_set_some m a b v : is_Some (mem_byte m a) -> is_Some (mem_byte (mem_set_byte m b v) a).
Proof.
  intros Ha. destruct (mem_byte m b) as [x |] eqn:Hb.
  - rewrite mem_byte_set by (by rewrite Hb). destruct (a =? b); [by eexists | done].
  - unfold mem_set_byte. unfold mem_byte in Hb. by destruct (mem_word m (b - b mod 8)).
Qed.

(** A byte write stays within its page and keeps the size of the page. *)
Lemma mem_set_byte_page_ne m a v p : page_base a <> p -> mem_set_byte m a v !! p = m !! p.
Proof.
  intros Hp. unfold mem_set_byte. destruct (mem_word m (a - a mod 8)); [| done].
  unfold mem_set_word. apply lookup_alter_ne. intros E. apply Hp. rewrite <- E.
  unfold page_base, PGSIZE. Z.div_mod_to_equations. lia.
Qed.

Lemma mem_set_byte_length m a v p pg n :
  m !! p = Some pg -> length pg = n ->
  exists pg', mem_set_byte m a v !! p = Some pg' /\ length pg' = n.
Proof.
  intros Hm Hl. unfold mem_set_byte. destruct (mem_word m (a - a mod 8)); [| by eauto].
  by apply (mem_set_word_length _ _ _ _ pg).
Qed.

Lemma mem_byte_page m p pg a :
  m !! p = Some pg -> length pg = 512%nat -> page_base a = p -> is_Some (mem_byte m a).
Proof.
  intros Hm Hl Hp. unfold mem_byte, mem_word.
  assert (page_base (a - a mod 8) = p) as ->.
  { rewrite <- Hp. unfold page_base, PGSIZE. Z.div_mod_to_equations. lia. }
  rewrite Hm. cbn. destruct (lookup_lt_is_Some_2 pg (word_index (a - a mod 8))) as [w ->]; [| by eexists].
  rewrite Hl. unfold word_index, PGSIZE.
  pose proof (Z.mod_pos_bound (a - a mod 8) 4096 ltac:(lia)). Z.div_mod_to_equations. lia.
Qed.

(** [l] written from [va] on, the byte at [va + i] going to address [f (va + i)]. *)
Fixpoint uwrite (m : gmap Z (list Z)) (f : Z -> Z) (va : Z) (l : list Z) : gmap Z (list Z) :=
  match l with
  | [] => m
  | b :: r => uwrite (mem_set_byte m (f va) b) f (va + 1) r
  end.

Lemma uwrite_app m f va l1 l2 :
  uwrite m f va (l1 ++ l2) = uwrite (uwrite m f va l1) f (va + Z.of_nat (length l1)) l2.
Proof.
  revert m va. induction l1 as [| b r IH]; intros m va; simpl; [by rewrite Z.add_0_r |].
  rewrite IH. f_equal. lia.
Qed.

Lemma uwrite_ext m f g va va' l :
  (forall i, 0 <= i < Z.of_nat (length l) -> f (va + i) = g (va' + i)) ->
  uwrite m f va l = uwrite m g va' l.
Proof.
  revert m va va'. induction l as [| b r IH]; intros m va va' Hfg; simpl; [done |].
  pose proof (Hfg 0 ltac:(simpl; lia)) as H0. rewrite !Z.add_0_r in H0. rewrite H0.
  apply IH. intros i Hi. rewrite <- !Z.add_assoc. apply Hfg. simpl. lia.
Qed.

Lemma uwrite_page_ne m f va l p :
  (forall i, 0 <= i < Z.of_nat (length l) -> page_base (f (va + i)) <> p) ->
  uwrite m f va l !! p = m !! p.
Proof.
  revert m va. induction l as [| b r IH]; intros m va Hp; simpl; [done |].
  rewrite IH.
  - apply mem_set_byte_page_ne. rewrite <- (Z.add_0_r va). apply Hp. simpl. lia.
  - intros i Hi. rewrite <- Z.add_assoc. apply Hp. simpl. lia.
Qed.

Lemma uwrite_length m f va l p pg n :
  m !! p = Some pg -> length pg = n ->
  exists pg', uwrite m f va l !! p = Some pg' /\ length pg' = n.
Proof.
  revert m va pg. induction l as [| b r IH]; intros m va pg Hm Hl; simpl; [by eauto |].
  destruct (mem_set_byte_length m (f va) b p pg n Hm Hl) as (pg' & ? & ?). by apply (IH _ _ pg').
Qed.

(** What a read sees after the write, when distinct bytes have distinct addresses. *)
Lemma uwrite_get m f va l a :
  (forall i, 0 <= i < Z.of_nat (length l) -> is_Some (mem_byte m (f (va + i)))) ->
  (forall i, 0 <= i < Z.of_nat (length l) -> f (va + i) <> a) ->
  mem_byte (uwrite m f va l) a = mem_byte m a.
Proof.
  revert m va. induction l as [| b r IH]; intros m va Hs Hne; simpl; [done |].
  pose proof (Hs 0 ltac:(simpl; lia)) as Hs0. pose proof (Hne 0 ltac:(simpl; lia)) as Hne0.
  rewrite Z.add_0_r in Hs0, Hne0. rewrite IH.
  - rewrite mem_byte_set by done. by rewrite (proj2 (Z.eqb_neq _ _)) by congruence.
  - intros i Hi. apply mem_byte_set_some. rewrite <- Z.add_assoc. apply Hs. simpl. lia.
  - intros i Hi. rewrite <- Z.add_assoc. apply Hne. simpl. lia.
Qed.

Lemma uwrite_read m f va l i b :
  (forall j, 0 <= j < Z.of_nat (length l) -> is_Some (mem_byte m (f (va + j)))) ->
  (forall j k, 0 <= j < Z.of_nat (length l) -> 0 <= k < Z.of_nat (length l) ->
     f (va + j) = f (va + k) -> j = k) ->
  l !! i = Some b -> mem_byte (uwrite m f va l) (f (va + Z.of_nat i)) = Some (u8 b).
Proof.
  revert m va i. induction l as [| x r IH]; intros m va i Hs Hinj Hl; [done |]. simpl in Hs, Hinj |- *.
  assert (forall j, 0 <= j < Z.of_nat (length r) -> is_Some (mem_byte (mem_set_byte m (f va) x) (f (va + 1 + j)))).
  { intros j Hj. apply mem_byte_set_some. rewrite <- Z.add_assoc. apply Hs. lia. }
  destruct i as [| i]; simpl in Hl.
  - injection Hl as ->. rewrite Z.add_0_r, uwrite_get; [| done |].
    + rewrite mem_byte_set, Z.eqb_refl; [done |].
      rewrite <- (Z.add_0_r va). apply Hs. lia.
    + intros j Hj E. rewrite <- Z.add_assoc in E.
      replace va with (va + 0) in E at 2 by lia. apply Hinj in E; lia.
  - replace (va + Z.of_nat (S i)) with (va + 1 + Z.of_nat i) by lia. apply IH; try done.
    intros j k Hj Hk E. rewrite <- !Z.add_assoc in E. apply Hinj in E; lia.
Qed.
End bytes.

Section usermem.
Context `{Image}.

(** ** Address translation *)
Lemma pt_entry_round m tbl va : pt_entry m tbl (PGROUNDDOWN va) = pt_entry m tbl va.
Proof.
  unfold pt_entry. destruct (leaf_same (PGROUNDDOWN va) va) as [-> ->]; [| done].
  rewrite PGROUNDDOWN_eq. unfold PGSIZE. Z.div_mod_to_equations. lia.
Qed.

Definition uaddr (m : gmap Z (list Z)) (tbl : gmap (list Z) Z) (va : Z) : Z :=
  PTE2PA (pt_entry m tbl va) + va mod PGSIZE.

(** [va] is a user address backed by a page of RAM outside the page table;
    [wr] asks for write permission. *)
Record user_ok (wr : bool) (m : gmap Z (list Z)) (tbl : gmap (list Z) Z) (va : Z) : Prop := {
  uo_range : 0 <= va < MAXVA;
  uo_valid : Z.testbit (pt_entry m tbl va) 0 = true;
  uo_user : Z.testbit (pt_entry m tbl va) 4 = true;
  uo_write : wr = true -> Z.testbit (pt_entry m tbl va) 2 = true;
  uo_page : exists pg, m !! PTE2PA (pt_entry m tbl va) = Some pg /\ length pg = 512%nat;
  uo_nonnull : PTE2PA (pt_entry m tbl va) <> 0;
  uo_table : forall a, tbl !! a <> Some (PTE2PA (pt_entry m tbl va))
}.

Lemma PTE2PA_aligned v : PTE2PA v mod PGSIZE = 0.
Proof.
  unfold PTE2PA, u64, PGSIZE. rewrite Z.shiftl_mul_pow2 by lia.
  change (2 ^ 64) with (4096 * 2 ^ 52). change (2 ^ 12) with 4096. rewrite Z.mul_comm.
  rewrite Zmult_mod_distr_l, Z.mul_comm. apply Z.mod_mul. lia.
Qed.

Lemma uaddr_base m tbl va : page_base (uaddr m tbl va) = PTE2PA (pt_entry m tbl va).
Proof.
  unfold uaddr, page_base. pose proof (PTE2PA_aligned (pt_entry m tbl va)) as Ha.
  rewrite Zplus_mod, Ha, Z.add_0_l, !Z.mod_mod by done. lia.
Qed.

Lemma uaddr_byte wr m tbl va : user_ok wr m tbl va -> is_Some (mem_byte m (uaddr m tbl va)).
Proof.
  intros Hu. destruct (uo_page _ _ _ _ Hu) as (pg & Hpg & Hl).
  by apply (mem_byte_page m (PTE2PA (pt_entry m tbl va)) pg), uaddr_base.
Qed.

Lemma pt_entry_table m root tbl va : pt_wf m root tbl -> Z.testbit (pt_entry m tbl va) 0 = true ->
  exists p, tbl !! leaf_path va = Some p.
Proof.
  intros Hwf Hv. unfold pt_entry in Hv. destruct (tbl !! leaf_path va) as [p |]; [by exists p |].
  by rewrite Z.bits_0 in Hv.
Qed.

Lemma PGROUNDDOWN_range va : 0 <= va < MAXVA -> 0 <= PGROUNDDOWN va <= va.
Proof. intros Hva. rewrite PGROUNDDOWN_eq. unfold PGSIZE. Z.div_mod_to_equations. lia. Qed.

(** The value [walk] finds, with the address of the entry. *)
Lemma walk_valid s e root tbl va :
  pt_wf (k_mem s) root tbl -> 0 <= va < MAXVA -> Z.testbit (pt_entry (k_mem s) tbl va) 0 = true ->
  exists pte, walk root va false (mkworld s e) = Ret pte (mkworld s e) /\ pte <> 0 /\
    mem_word (k_mem s) pte = Some (pt_entry (k_mem s) tbl va).
Proof.
  intros Hwf Hva Hv. destruct (pt_entry_table _ root _ _ Hwf Hv) as [p Hp].
  exists (p + 8 * PX 0 va). rewrite (walk_read s e root tbl va Hwf Hva), Hp. split; [done |].
  split; [by apply (leaf_addr_pos (k_mem s) root tbl) | by apply (pt_entry_word s root)].
Qed.

Lemma bit_set v n : 0 <= n -> (Z.land v (Z.shiftl 1 n) =? 0) = negb (Z.testbit v n).
Proof. intros Hn. rewrite <- land_bit by done. unfold istrue. by rewrite negb_involutive. Qed.

(** [walkaddr] translates a user address and refuses every other. *)
Lemma walkaddr_eq s e root tbl va :
  pt_wf (k_mem s) root tbl -> 0 <= va ->
  walkaddr root va (mkworld s e) =
    Ret (if (va <? MAXVA) && Z.testbit (pt_entry (k_mem s) tbl va) 0 &&
            Z.testbit (pt_entry (k_mem s) tbl va) 4
         then PTE2PA (pt_entry (k_mem s) tbl va) else 0) (mkworld s e).
Proof.
  intros Hwf Hva. unfold walkaddr. destruct (Z.leb_spec MAXVA va) as [Hm | Hm].
  { by rewrite (proj2 (Z.ltb_ge _ _)). }
  rewrite (proj2 (Z.ltb_lt va MAXVA) Hm). cbn [andb].
  kcall (walk_read s e root tbl va). unfold pt_entry.
  destruct (tbl !! leaf_path va) as [p |] eqn:Hp; cbn [default fmap option_fmap option_map from_option mbind option_bind].
  2:{ done. }
  rewrite (proj2 (Z.eqb_neq _ 0)) by (by apply (leaf_addr_pos (k_mem s) root tbl)).
  pose proof (pt_entry_word s root tbl va p Hwf Hp) as Hw. rewrite Hw. cbn [default].
  kcall (read_word_eq s e). rewrite invalid_testbit. change PTE_U with (Z.shiftl 1 4).
  rewrite bit_set by lia. by destruct (Z.testbit _ 0), (Z.testbit _ 4).
Qed.

Lemma write_bytes_eq l : forall s e a,
  (forall i, 0 <= i < Z.of_nat (length l) -> is_Some (mem_byte (k_mem s) (a + i))) ->
  write_bytes a l (mkworld s e) =
    Ret tt (mkworld (s <| k_mem ::= fun m => uwrite m (fun x => x) a l |>) e).
Proof.
  induction l as [| b r IH]; intros s e a Hs; [by destruct s |]. cbn [write_bytes].
  pose proof (Hs 0 ltac:(simpl; lia)) as Hv. rewrite Z.add_0_r in Hv.
  kcall (write_byte_eq s e). rewrite IH; [done |]. intros i Hi. cbn. apply mem_byte_set_some.
  rewrite <- Z.add_assoc. apply Hs. simpl. lia.
Qed.

Lemma read_bytes_eq n : forall s e a,
  (forall i, 0 <= i < Z.of_nat n -> is_Some (mem_byte (k_mem s) (a + i))) ->
  read_bytes a n (mkworld s e) =
    Ret ((fun i => default 0 (mem_byte (k_mem s) (a + Z.of_nat i))) <$> seq 0 n) (mkworld s e).
Proof.
  induction n as [| n IH]; intros s e a Hs; [done |]. cbn [read_bytes].
  pose proof (Hs 0 ltac:(simpl; lia)) as [v Hv]. rewrite Z.add_0_r in Hv.
  kcall (read_byte_eq s e). kcall (IH s e).
  { intros i Hi. rewrite <- Z.add_assoc. apply Hs. lia. }
  cbn [seq fmap list_fmap]. rewrite Z.add_0_r, Hv. cbn. do 2 f_equal.
  rewrite <- (fmap_S_seq 0 n). rewrite <- list_fmap_compose. apply list_fmap_ext.
  intros i x _. cbn. do 2 f_equal. lia.
Qed.

(** ** Memory outside the table does not matter to translation *)
Lemma mem_word_page m m' p i :
  p mod PGSIZE = 0 -> 0 <= i < 512 -> m' !! p = m !! p ->
  mem_word m' (p + 8 * i) = mem_word m (p + 8 * i).
Proof. intros Hp Hi Hm. unfold mem_word. by rewrite (proj1 (page_base_entry p i Hp Hi)), Hm. Qed.

Lemma pt_wf_agree m m' root tbl :
  pt_wf m root tbl -> (forall a p, tbl !! a = Some p -> m' !! p = m !! p) -> pt_wf m' root tbl.
Proof.
  intros Hwf Hm. split; try apply Hwf.
  - intros a p Ha. rewrite (Hm a p Ha). by apply (wf_page _ _ _ Hwf a).
  - intros a p i v Ha Hlen Hi. destruct (wf_page _ _ _ Hwf a p Ha) as (Hp & _).
    rewrite (mem_word_page m m' p i) by eauto. by apply (wf_link _ _ _ Hwf a).
Qed.

Lemma pt_entry_agree m m' root tbl va :
  pt_wf m root tbl -> (forall a p, tbl !! a = Some p -> m' !! p = m !! p) ->
  pt_entry m' tbl va = pt_entry m tbl va.
Proof.
  intros Hwf Hm. unfold pt_entry. destruct (tbl !! leaf_path va) as [p |] eqn:Hp; [| done]. cbn.
  destruct (wf_page _ _ _ Hwf _ p Hp) as (Hpa & _).
  by rewrite (mem_word_page m m' p) by (eauto || apply PX_range).
Qed.

(** The part of a copy that falls in the page of [va]. *)
Definition chunk (va len : Z) : Z := Z.min (PGSIZE - (va - PGROUNDDOWN va)) len.

Lemma chunk_page va len i :
  0 <= va -> 0 <= i < chunk va len -> PGROUNDDOWN (va + i) = PGROUNDDOWN va /\
    (va + i) mod PGSIZE = va mod PGSIZE + i.
Proof.
  unfold chunk. rewrite !PGROUNDDOWN_eq. intros Hva Hi.
  assert ((va + i) mod PGSIZE = va mod PGSIZE + i) as ->; [| split; [lia | done]].
  unfold PGSIZE in *. Z.div_mod_to_equations. lia.
Qed.

Lemma chunk_uaddr m tbl va len i :
  0 <= va -> 0 <= i < chunk va len ->
  uaddr m tbl (va + i) = PTE2PA (pt_entry m tbl va) + (va - PGROUNDDOWN va) + i.
Proof.
  intros Hva Hi. destruct (chunk_page va len i Hva Hi) as [Hr Hm]. unfold uaddr.
  rewrite <- (pt_entry_round m tbl (va + i)), Hr, pt_entry_round, Hm, PGROUNDDOWN_eq. lia.
Qed.

Lemma chunk_pos va len : 0 <= va -> 0 < len -> 0 < chunk va len <= len.
Proof.
  intros Hva Hl. unfold chunk. rewrite PGROUNDDOWN_eq.
  pose proof (Z.mod_pos_bound va PGSIZE ltac:(done)). lia.
Qed.

(** The next page starts where the chunk ends, unless the copy ends there. *)
Lemma chunk_next va len : 0 <= va -> chunk va len < len ->
  PGROUNDDOWN va + PGSIZE = va + chunk va len.
Proof. intros Hva Hl. unfold chunk in *. lia. Qed.

Lemma walkaddr_user s e root tbl wr va :
  pt_wf (k_mem s) root tbl -> user_ok wr (k_mem s) tbl va ->
  walkaddr root (PGROUNDDOWN va) (mkworld s e) =
    Ret (PTE2PA (pt_entry (k_mem s) tbl va)) (mkworld s e).
Proof.
  intros Hwf Hu. pose proof (PGROUNDDOWN_range va (uo_range _ _ _ _ Hu)).
  pose proof (uo_range _ _ _ _ Hu). rewrite (walkaddr_eq s e root tbl) by (done || lia).
  rewrite (proj2 (Z.ltb_lt _ _)), pt_entry_round, (uo_valid _ _ _ _ Hu), (uo_user _ _ _ _ Hu) by lia.
  done.
Qed.

(** Writing user bytes leaves translation alone. *)
Lemma uwrite_agree m tbl wr va l :
  (forall i, 0 <= i < Z.of_nat (length l) -> user_ok wr m tbl (va + i)) ->
  forall a p, tbl !! a = Some p -> uwrite m (uaddr m tbl) va l !! p = m !! p.
Proof.
  intros Hu a p Ha. apply uwrite_page_ne. intros i Hi. rewrite uaddr_base. intros Hp.
  apply (uo_table _ _ _ _ (Hu i Hi) a). by rewrite Hp.
Qed.

Section uwrite.
Context (m : gmap Z (list Z)) (root : Z) (tbl : gmap (list Z) Z) (wr : bool) (va : Z) (l : list Z).
Context (Hwf : pt_wf m root tbl)
  (Hu : forall i, 0 <= i < Z.of_nat (length l) -> user_ok wr m tbl (va + i)).
Let m1 := uwrite m (uaddr m tbl) va l.

Lemma uwrite_wf : pt_wf m1 root tbl.
Proof. apply (pt_wf_agree m); [done |]. by apply (uwrite_agree m tbl wr). Qed.
Lemma uwrite_entry va' : pt_entry m1 tbl va' = pt_entry m tbl va'.
Proof. apply (pt_entry_agree m m1 root); [done |]. by apply (uwrite_agree m tbl wr). Qed.
Lemma uwrite_uaddr va' : uaddr m1 tbl va' = uaddr m tbl va'.
Proof. unfold uaddr. by rewrite uwrite_entry. Qed.
Lemma uwrite_user_ok wr' va' : user_ok wr' m tbl va' -> user_ok wr' m1 tbl va'.
Proof.
  intros [? ? ? ? (pg & Hpg & Hl) ? ?]. split; rewrite ?uwrite_entry; try done.
  by apply (uwrite_length _ _ _ _ _ pg).
Qed.
End uwrite.

(** One iteration of [copyout]: the bytes that fall in the page of [va]. *)
Lemma copyout_step s e root tbl k va src :
  pt_wf (k_mem s) root tbl -> 0 <= va -> src <> [] ->
  (forall i, 0 <= i < Z.of_nat (length src) -> user_ok true (k_mem s) tbl (va + i)) ->
  let n := chunk va (Z.of_nat (length src)) in
  copyout_loop (S k) root va src (mkworld s e) =
    copyout_loop k root (u64 (PGROUNDDOWN va + PGSIZE)) (drop (Z.to_nat n) src)
      (mkworld (s <| k_mem ::= fun m => uwrite m (uaddr m tbl) va (take (Z.to_nat n) src) |>) e).
Proof.
  intros Hwf Hva Hne Hu n. destruct src as [| b r]; [done |]. cbn [copyout_loop].
  set (src := b :: r) in *. set (len := Z.of_nat (length src)) in *.
  assert (0 < len) as Hlpos by (subst len src; simpl; lia).
  pose proof (Hu 0 ltac:(lia)) as Hu0. rewrite Z.add_0_r in Hu0.
  pose proof (uo_range _ _ _ _ Hu0) as Hr. pose proof (PGROUNDDOWN_range va Hr).
  pose proof (uo_nonnull _ _ _ _ Hu0) as Hnn.
  rewrite (proj2 (Z.leb_gt _ _)) by lia.
  kcall (walkaddr_user s e root tbl true va).
  rewrite (proj2 (Z.eqb_neq _ 0)) by done. rewrite bind_ret_l. cbv beta.
  rewrite (proj2 (Z.eqb_neq _ 0)) by done.
  destruct (walk_valid s e root tbl (PGROUNDDOWN va) Hwf ltac:(lia)) as (pte & Hpte & _ & Hw).
  { rewrite pt_entry_round. apply (uo_valid _ _ _ _ Hu0). }
  rewrite (bind_ret _ _ _ _ _ Hpte). rewrite pt_entry_round in Hw.
  kcall (read_word_eq s e). change PTE_W with (Z.shiftl 1 2).
  rewrite bit_set, (uo_write _ _ _ _ Hu0) by lia. cbn [negb]. cbv zeta.
  change (Z.min (PGSIZE - (va - PGROUNDDOWN va)) len) with n.
  pose proof (chunk_pos va len Hva Hlpos) as Hn. change (chunk va len) with n in Hn.
  assert (Z.of_nat (length (take (Z.to_nat n) src)) = n) as Hlt by (rewrite length_take; lia).
  kcall (write_bytes_eq (take (Z.to_nat n) src) s e).
  - rewrite Hlt. intros i Hi. rewrite <- (chunk_uaddr _ tbl va len) by done.
    eapply uaddr_byte, Hu. lia.
  - do 2 f_equal. upd_eq. apply uwrite_ext. rewrite Hlt. intros i Hi. symmetry.
    by apply (chunk_uaddr _ tbl va len).
Qed.

(** [copyout] of [src] to mapped, writable user memory writes each byte at the
    address its page table gives it. *)
Lemma copyout_loop_eq root tbl e fuel : forall s va src,
  (length src <= fuel)%nat -> pt_wf (k_mem s) root tbl -> 0 <= va ->
  (forall i, 0 <= i < Z.of_nat (length src) -> user_ok true (k_mem s) tbl (va + i)) ->
  copyout_loop fuel root va src (mkworld s e) =
    Ret 0 (mkworld (s <| k_mem ::= fun m => uwrite m (uaddr m tbl) va src |>) e).
Proof.
  induction fuel as [| k IH]; intros s va src Hlen Hwf Hva Hu.
  { destruct src; simpl in Hlen; [| lia]. by destruct s. }
  destruct (decide (src = [])) as [-> | Hne]; [by destruct s |].
  rewrite (copyout_step s e root tbl) by done.
  set (len := Z.of_nat (length src)). set (n := chunk va len).
  pose proof (chunk_pos va len Hva ltac:(destruct src; [done | subst len; simpl; lia])) as Hn.
  assert (Z.of_nat (length (take (Z.to_nat n) src)) = n) as Hlt by (rewrite length_take; lia).
  assert (forall i, 0 <= i < n -> user_ok true (k_mem s) tbl (va + i)) as Hu1 by (intros; apply Hu; lia).
  rewrite <- Hlt in Hu1.
  assert (forall m, uwrite m (uaddr m tbl) va src =
    uwrite (uwrite m (uaddr m tbl) va (take (Z.to_nat n) src)) (uaddr m tbl) (va + n)
      (drop (Z.to_nat n) src)) as Hsplit.
  { intros m. rewrite <- (take_drop (Z.to_nat n) src) at 1. by rewrite uwrite_app, Hlt. }
  destruct (Z.eq_dec n len) as [E | Hnl].
  { assert (drop (Z.to_nat n) src = []) as Hd by (apply drop_ge; lia).
    transitivity (Ret (A := Z) 0 (mkworld (s <| k_mem ::= fun m =>
      uwrite m (uaddr m tbl) va (take (Z.to_nat n) src) |>) e)); [rewrite Hd; by destruct k |].
    apply ret_world. upd_eq. by rewrite Hsplit, Hd. }
  rewrite (chunk_next va len) by (fold n; lia). fold n.
  assert (va + n < MAXVA) by (apply (uo_range _ _ _ _ (Hu n ltac:(lia)))).
  rewrite u64_small by (change MAXVA with (2 ^ 38) in *; lia).
  rewrite IH; [| rewrite length_drop; lia | by apply (uwrite_wf _ _ _ true) | lia |].
  - apply ret_world. upd_eq. rewrite Hsplit. apply uwrite_ext. intros.
    by apply (uwrite_uaddr _ root _ true).
  - intros i Hi. rewrite length_drop in Hi. rewrite <- Z.add_assoc.
    apply (uwrite_user_ok _ root _ true); [done | done |]. apply Hu. lia.
Qed.

(** The user bytes at [va .. va + n). *)
Definition ubytes (m : gmap Z (list Z)) (tbl : gmap (list Z) Z) (va : Z) (n : nat) : list Z :=
  (fun i => default 0 (mem_byte m (uaddr m tbl (va + Z.of_nat i)))) <$> seq 0 n.

Lemma ubytes_app m tbl va n k :
  ubytes m tbl va (n + k) = ubytes m tbl va n ++ ubytes m tbl (va + Z.of_nat n) k.
Proof.
  unfold ubytes. rewrite seq_app, fmap_app. f_equal. cbn [Nat.add].
  rewrite <- (Nat.add_0_r n) at 1. rewrite <- fmap_add_seq, <- list_fmap_compose.
  apply list_fmap_ext. intros i x _. cbn. do 3 f_equal. lia.
Qed.

Lemma read_chunk s e tbl va len :
  0 <= va -> 0 < len ->
  (forall i, 0 <= i < len -> user_ok false (k_mem s) tbl (va + i)) ->
  read_bytes (PTE2PA (pt_entry (k_mem s) tbl va) + (va - PGROUNDDOWN va))
    (Z.to_nat (chunk va len)) (mkworld s e) =
  Ret (ubytes (k_mem s) tbl va (Z.to_nat (chunk va len))) (mkworld s e).
Proof.
  intros Hva Hl Hu. pose proof (chunk_pos va len Hva Hl) as Hn.
  rewrite read_bytes_eq.
  - unfold ubytes. f_equal. apply list_fmap_ext. intros i x Hx.
    apply lookup_seq in Hx as [-> Hi]. rewrite (chunk_uaddr _ tbl va len) by lia. done.
  - intros i Hi. rewrite <- (chunk_uaddr _ tbl va len) by lia. eapply uaddr_byte, Hu. lia.
Qed.

(** [copyin] from mapped user memory reads the user's bytes. *)
Lemma copyin_loop_eq root tbl s e fuel : forall va len dst,
  len <= Z.of_nat fuel -> pt_wf (k_mem s) root tbl -> 0 <= va -> 0 <= len ->
  (forall i, 0 <= i < len -> user_ok false (k_mem s) tbl (va + i)) ->
  copyin_loop fuel root va len dst (mkworld s e) =
    Ret (0, dst ++ ubytes (k_mem s) tbl va (Z.to_nat len)) (mkworld s e).
Proof.
  induction fuel as [| k IH]; intros va len dst Hf Hwf Hva Hl Hu; cbn [copyin_loop].
  { replace len with 0 by lia. by rewrite app_nil_r. }
  destruct (Z.leb_spec len 0) as [H0 | Hpos].
  { replace len with 0 by lia. by rewrite app_nil_r. }
  pose proof (Hu 0 ltac:(lia)) as Hu0. rewrite Z.add_0_r in Hu0.
  pose proof (uo_nonnull _ _ _ _ Hu0) as Hnn.
  kcall (walkaddr_user s e root tbl false va).
  rewrite (proj2 (Z.eqb_neq _ 0)) by done. rewrite bind_ret_l. cbv beta zeta.
  rewrite (proj2 (Z.eqb_neq _ 0)) by done.
  change (Z.min (PGSIZE - (va - PGROUNDDOWN va)) len) with (chunk va len).
  kcall (read_chunk s e tbl va len).
  pose proof (chunk_pos va len Hva Hpos) as Hn. set (n := chunk va len) in *.
  replace (Z.to_nat len) with (Z.to_nat n + Z.to_nat (len - n))%nat by lia.
  rewrite ubytes_app, app_assoc, Z2Nat.id by lia.
  destruct (Z.eq_dec n len) as [E | Hne].
  { rewrite E, Z.sub_diag. cbn. rewrite app_nil_r. by destruct k. }
  rewrite (chunk_next va len) by (fold n; lia). fold n.
  assert (va + n < MAXVA) by (apply (uo_range _ _ _ _ (Hu n ltac:(lia)))).
  rewrite u64_small by (change MAXVA with (2 ^ 38) in *; lia).
  apply IH; try done; try lia. intros i Hi. rewrite <- Z.add_assoc. apply Hu. lia.
Qed.

(** ** [copyinstr] *)

(** The string of at most [n] bytes at [va]: the bytes up to the nul, and -1 if there is none
    or a byte before it cannot be read. *)
Fixpoint cstring (rd : Z -> option Z) (n : nat) (va : Z) : Z * list Z :=
  match n with
  | O => (-1, [])
  | S k =>
      match rd va with
      | None => (-1, [])
      | Some b => if b =? 0 then (0, [0]) else let '(r, l) := cstring rd k (va + 1) in (r, b :: l)
      end
  end.
Lemma cstring_spec rd n : forall va, let '(r, l) := cstring rd n va in
  (forall i b, l !! i = Some b -> rd (va + Z.of_nat i) = Some b) /\ (length l <= n)%nat /\
  ((r = 0 /\ exists t, l = t ++ [0] /\ Forall (fun b => b <> 0) t) \/
   (r = -1 /\ Forall (fun b => b <> 0) l /\ (length l = n \/ rd (va + Z.of_nat (length l)) = None))).
Proof.
  induction n as [| n IH]; intros va; cbn [cstring]; [split; [done |]; split; [done |]; right; auto |].
  destruct (rd va) as [b |] eqn:Hb.
  2:{ split; [done |]. split; [simpl; lia |]. right. split; [done |]. split; [done |]. right. by rewrite Z.add_0_r. }
  destruct (Z.eqb_spec b 0) as [-> | Hb0].
  { split; [| split; [simpl; lia | left; split; [done | by exists []]]].
    intros [| i] b' Hi; [| done]. injection Hi as <-. by rewrite Z.add_0_r. }
  specialize (IH (va + 1)). destruct (cstring rd n (va + 1)) as [r l]. destruct IH as (Hrd & Hlen & Hc).
  split; [| split; [simpl; lia |]].
  - intros [| i] b' Hi; [injection Hi as <-; by rewrite Z.add_0_r |].
    rewrite <- (Hrd i b' Hi). f_equal. lia.
  - destruct Hc as [(-> & t & -> & Ht) | (-> & Ht & Hend)]; [left | right].
    + split; [done |]. exists (b :: t). split; [done | by constructor].
    + split; [done |]. split; [by constructor |]. destruct Hend as [<- | Hn]; [by left | right].
      rewrite <- Hn. f_equal. cbn [length]. lia.
Qed.

(** One page of it. *)
Lemma copyinstr_page_eq s e rd k n : forall a va dst,
  (forall i, 0 <= i < Z.of_nat n -> mem_byte (k_mem s) (a + i) = rd (va + i) /\ is_Some (rd (va + i))) ->
  exists b l, copyinstr_page n a dst (mkworld s e) = Ret (b, dst ++ l) (mkworld s e) /\
    cstring rd (n + k) va = if (b : bool) then (0, l)
      else let '(r, l') := cstring rd k (va + Z.of_nat n) in (r, l ++ l').
Proof.
  induction n as [| n IH]; intros a va dst Hs.
  { exists false, []. change (Z.of_nat 0) with 0. rewrite app_nil_r, Z.add_0_r. split; [done |]. cbn [Nat.add]. by destruct (cstring rd k va). }
  cbn [copyinstr_page Nat.add cstring]. destruct (Hs 0 ltac:(lia)) as [Hm [b Hb]]. rewrite !Z.add_0_r in *. rewrite Hb in Hm |- *.
  rewrite (bind_ret _ _ _ _ _ (read_byte_eq s e a b Hm)). destruct (Z.eqb_spec b 0) as [-> | Hb0].
  { by exists true, [0]. }
  destruct (IH (a + 1) (va + 1) (dst ++ [b])) as (f & l & Hr & Hc).
  { intros i Hi. rewrite <- !Z.add_assoc. apply Hs. lia. }
  exists f, (b :: l). rewrite <- app_assoc in Hr. split; [exact Hr |]. rewrite Hc.
  replace (va + 1 + Z.of_nat n) with (va + Z.of_nat (S n)) by lia. destruct f; [done |]. by destruct (cstring rd k (va + Z.of_nat (S n))).
Qed.

(** The byte at [va], if the user may read it. *)
Definition user_byte (m : gmap Z (list Z)) (tbl : gmap (list Z) Z) (va : Z) : option Z :=
  let pte := pt_entry m tbl va in
  if (va <? MAXVA) && Z.testbit pte 0 && Z.testbit pte 4 && negb (PTE2PA pte =? 0)
  then mem_byte m (uaddr m tbl va) else None.

(** Every address the page table gives the user lies in a page of RAM. *)
Definition user_backed (m : gmap Z (list Z)) (tbl : gmap (list Z) Z) : Prop :=
  forall va, 0 <= va < MAXVA -> Z.testbit (pt_entry m tbl va) 0 = true ->
    Z.testbit (pt_entry m tbl va) 4 = true ->
    exists pg, m !! PTE2PA (pt_entry m tbl va) = Some pg /\ length pg = 512%nat.

(** The bytes of a chunk of the page at [pa] can be read. *)
Lemma chunk_bytes m pa pg va max i :
  m !! pa = Some pg -> length pg = 512%nat -> pa mod PGSIZE = 0 -> 0 <= va ->
  0 <= i < chunk va max -> is_Some (mem_byte m (pa + (va - PGROUNDDOWN va) + i)).
Proof.
  intros Hpg Hlen Ha Hva Hi. apply (mem_byte_page m pa pg); [done | done |].
  unfold chunk in Hi. unfold page_base. rewrite PGROUNDDOWN_eq in *.
  pose proof (Z.mod_pos_bound va PGSIZE ltac:(done)).
  replace (va - (va - va mod PGSIZE)) with (va mod PGSIZE) in * by lia.
  rewrite <- Z.add_assoc, Zplus_mod, Ha, Z.add_0_l, Z.mod_mod by done.
  rewrite (Z.mod_small (va mod PGSIZE + i)) by lia. lia.
Qed.

Lemma copyinstr_loop_eq root tbl s e fuel : forall va max dst,
  max <= Z.of_nat fuel -> pt_wf (k_mem s) root tbl -> user_backed (k_mem s) tbl -> 0 <= va < 2 ^ 64 ->
  copyinstr_loop fuel root va max dst (mkworld s e) =
    let '(r, l) := cstring (user_byte (k_mem s) tbl) (Z.to_nat max) va in Ret (r, dst ++ l) (mkworld s e).
Proof.
  induction fuel as [| k IH]; intros va max dst Hf Hwf Hb Hva; cbn [copyinstr_loop].
  { replace (Z.to_nat max) with O by lia. cbn [cstring]. by rewrite app_nil_r. }
  destruct (Z.leb_spec max 0) as [H0 | Hpos].
  { replace (Z.to_nat max) with O by lia. cbn [cstring]. by rewrite app_nil_r. }
  assert (0 <= PGROUNDDOWN va <= va /\ (PGROUNDDOWN va <? MAXVA) = (va <? MAXVA)) as [Hrd Hmax].
  { rewrite PGROUNDDOWN_eq. change MAXVA with (67108864 * 4096). unfold PGSIZE.
    destruct (Z.ltb_spec (va - va mod 4096) (67108864 * 4096)), (Z.ltb_spec va (67108864 * 4096)); Z.div_mod_to_equations; lia. }
  rewrite (bind_ret _ _ _ _ _ (walkaddr_eq s e root tbl (PGROUNDDOWN va) Hwf ltac:(lia))). cbv zeta. rewrite Hmax, pt_entry_round.
  assert (forall d, d = Ret (-1, dst) (mkworld s e) -> user_byte (k_mem s) tbl va = None ->
    d = let '(r, l) := cstring (user_byte (k_mem s) tbl) (Z.to_nat max) va in Ret (r, dst ++ l) (mkworld s e)) as Hstop.
  { intros d -> Hn. destruct (Z.to_nat max) as [| n]; cbn [cstring]; [| rewrite Hn]; by rewrite app_nil_r. }
  set (pte := pt_entry (k_mem s) tbl va) in *. destruct ((va <? MAXVA) && Z.testbit pte 0 && Z.testbit pte 4) eqn:Hv; cbn [Z.eqb].
  2:{ apply Hstop; [done |]. unfold user_byte. fold pte. by rewrite Hv. }
  destruct (PTE2PA pte =? 0) eqn:Hnn.
  { apply Hstop; [done |]. unfold user_byte. fold pte. by rewrite Hv, Hnn. }
  pose proof Hv as Hv'. rewrite !andb_true_iff in Hv'. destruct Hv' as [[Hm%Z.ltb_lt Hv0] Hv4].
  destruct (Hb va) as (pg & Hpg & Hlen); [lia | done | done |]. fold pte in Hpg.
  change (Z.min (PGSIZE - (va - PGROUNDDOWN va)) max) with (chunk va max).
  pose proof (chunk_pos va max ltac:(lia) Hpos) as Hn. set (n := chunk va max) in *.
  destruct (copyinstr_page_eq s e (user_byte (k_mem s) tbl) (Z.to_nat (max - n)) (Z.to_nat n) (PTE2PA pte + (va - PGROUNDDOWN va)) va dst)
    as (b & l & Hr & Hc).
  { intros i Hi. assert (user_byte (k_mem s) tbl (va + i) = mem_byte (k_mem s) (PTE2PA pte + (va - PGROUNDDOWN va) + i)) as ->.
    - destruct (chunk_page va max i) as [Hpr _]; [lia | fold n; lia |]. unfold user_byte.
      rewrite (chunk_uaddr _ _ va max i) by (fold n; lia).
      rewrite <- (pt_entry_round _ _ (va + i)), Hpr, pt_entry_round. fold pte. rewrite Hnn, Hv0, Hv4, (proj2 (Z.ltb_lt _ _)); [done |].
      revert Hpr Hm. rewrite !PGROUNDDOWN_eq. change MAXVA with (67108864 * 4096). unfold PGSIZE. Z.div_mod_to_equations. lia.
    - split; [done |]. apply (chunk_bytes _ (PTE2PA pte) pg va max); [done | done | apply PTE2PA_aligned | lia | fold n; lia]. }
  replace (Z.to_nat n + Z.to_nat (max - n))%nat with (Z.to_nat max) in Hc by lia. rewrite (bind_ret _ _ _ _ _ Hr), Hc.
  destruct b; [done |]. change MAXVA with (2 ^ 38) in Hm. rewrite u64_small by (unfold PGSIZE in *; lia).
  rewrite Z2Nat.id by lia. destruct (decide (n = max)) as [E | Hlt].
  - replace (max - n) with 0 by lia. change (Z.to_nat 0) with O. cbn [cstring]. rewrite app_nil_r. by destruct k.
  - rewrite (chunk_next va max) by (fold n; lia). fold n. rewrite (IH (va + n) (max - n)); try done; try lia.
    2:{ pose proof (chunk_next va max ltac:(lia) ltac:(fold n; lia)) as E. fold n in E. unfold PGSIZE in E. lia. }
    destruct (cstring _ _ (va + n)). by rewrite app_assoc.
Qed.

(** Bytes written through the page table read back. *)
Lemma ubytes_uwrite m root tbl va l :
  pt_wf m root tbl -> Forall (fun b => 0 <= b < 256) l ->
  (forall i, 0 <= i < Z.of_nat (length l) -> user_ok true m tbl (va + i)) ->
  (forall i j, 0 <= i < Z.of_nat (length l) -> 0 <= j < Z.of_nat (length l) ->
     uaddr m tbl (va + i) = uaddr m tbl (va + j) -> i = j) ->
  ubytes (uwrite m (uaddr m tbl) va l) tbl va (length l) = l.
Proof.
  intros Hwf Hbytes Hu Hinj. apply list_eq. intros i.
  unfold ubytes. rewrite list_lookup_fmap. destruct (decide (i < length l)%nat) as [Hi | Hi].
  - rewrite lookup_seq_lt by done. cbn. rewrite (uwrite_uaddr _ root _ true) by done.
    destruct (lookup_lt_is_Some_2 l i Hi) as [b Hb]. rewrite Hb.
    rewrite (uwrite_read _ _ _ _ i b); [| intros; eapply uaddr_byte, Hu; lia | done | done].
    cbn. rewrite u8_small; [done |]. by apply (Forall_lookup_1 _ _ _ _ Hbytes Hb).
  - rewrite lookup_seq_ge, lookup_ge_None_2 by lia. done.
Qed.

(** Writing a range in two parts. *)
Lemma uwrite_split m root tbl va l1 l2 :
  pt_wf m root tbl -> (forall i, 0 <= i < Z.of_nat (length l1) -> user_ok true m tbl (va + i)) ->
  let m1 := uwrite m (uaddr m tbl) va l1 in
  uwrite m1 (uaddr m1 tbl) (va + Z.of_nat (length l1)) l2 = uwrite m (uaddr m tbl) va (l1 ++ l2).
Proof.
  intros Hwf Hu m1. rewrite uwrite_app. apply uwrite_ext. intros i _.
  by apply (uwrite_uaddr _ root _ true).
Qed.

(** ** Properties *)

(** Address translation protects the kernel.  [walkaddr] gives a physical
    address only for a valid page-table entry with the user bit set, below
    [MAXVA]; for every other 64-bit address it returns 0, and it changes nothing. *)
Theorem walkaddr_user_only s e root tbl va :
  pt_wf (k_mem s) root tbl -> 0 <= va < 2 ^ 64 ->
  exists pa, walkaddr root va (mkworld s e) = Ret pa (mkworld s e) /\
    (pa <> 0 -> va < MAXVA /\ pa + va mod PGSIZE = uaddr (k_mem s) tbl va /\
      Z.testbit (pt_entry (k_mem s) tbl va) 0 = true /\ Z.testbit (pt_entry (k_mem s) tbl va) 4 = true).
Proof.
  intros Hwf Hva. eexists. split; [apply (walkaddr_eq s e root tbl va Hwf); lia |].
  destruct (_ && _ && _) eqn:Hb; [| done]. rewrite !andb_true_iff in Hb.
  destruct Hb as [[Hm%Z.ltb_lt Hv] Hu]. intros _. done.
Qed.

(** C11: [copyout] then [copyin] is the identity.  Copying [src] to writable user
    memory returns 0; copying the same range back returns 0 and the same bytes; and
    user bytes whose physical address is outside the range are unchanged.  The
    pages may be scattered anywhere in physical memory, as long as no two
    addresses of the range share a byte. *)
Theorem copyout_copyin s e root tbl va src :
  pt_wf (k_mem s) root tbl -> 0 <= va -> Forall (fun b => 0 <= b < 256) src ->
  (forall i, 0 <= i < Z.of_nat (length src) -> user_ok true (k_mem s) tbl (va + i)) ->
  (forall i j, 0 <= i < Z.of_nat (length src) -> 0 <= j < Z.of_nat (length src) ->
     uaddr (k_mem s) tbl (va + i) = uaddr (k_mem s) tbl (va + j) -> i = j) ->
  exists s', copyout root va src (mkworld s e) = Ret 0 (mkworld s' e) /\
    copyin root va (Z.of_nat (length src)) (mkworld s' e) = Ret (0, src) (mkworld s' e) /\
    s' = s <| k_mem := k_mem s' |> /\
    forall a, (forall i, 0 <= i < Z.of_nat (length src) -> uaddr (k_mem s) tbl (va + i) <> a) ->
      mem_byte (k_mem s') a = mem_byte (k_mem s) a.
Proof.
  intros Hwf Hva Hbytes Hu Hinj. unfold copyout, copyin.
  rewrite (copyout_loop_eq root tbl e (length src) s va src) by done.
  remember (s <| k_mem ::= fun m => uwrite m (uaddr m tbl) va src |>) as s' eqn:Hs'.
  exists s'. split; [done |].
  assert (k_mem s' = uwrite (k_mem s) (uaddr (k_mem s) tbl) va src) as Hm by (by rewrite Hs').
  assert (forall i, 0 <= i < Z.of_nat (length src) -> is_Some (mem_byte (k_mem s) (uaddr (k_mem s) tbl (va + i)))) as Hs
    by (intros; eapply uaddr_byte, Hu; lia).
  split; [| split; [by rewrite Hs' | intros a Ha; rewrite Hm; by apply uwrite_get]].
  rewrite (copyin_loop_eq root tbl s' e); [| lia | rewrite Hm; by apply (uwrite_wf _ _ _ true) | done | lia |].
  - rewrite Nat2Z.id, Hm. cbn [app]. do 2 f_equal. by apply (ubytes_uwrite _ root).
  - intros i Hi. rewrite Hm. apply (uwrite_user_ok _ root _ true); [done | done |].
    destruct (Hu i Hi). by split.
Qed.

(** C33: [copyinstr] reads the user's string.  For any 64-bit user address and any [max]
    it returns, without changing memory, bytes that are those of the user's memory from
    that address on, at most [max] of them: with 0, the string there up to and including
    its nul; or with -1, nonzero bytes only, and then either they are [max] bytes or the
    user may not read the next one. *)
Theorem copyinstr_reads s e root tbl va max :
  pt_wf (k_mem s) root tbl -> user_backed (k_mem s) tbl -> 0 <= va < 2 ^ 64 -> 0 <= max ->
  exists r l, copyinstr root va max (mkworld s e) = Ret (r, l) (mkworld s e) /\
    (forall i b, l !! i = Some b -> user_byte (k_mem s) tbl (va + Z.of_nat i) = Some b) /\ Z.of_nat (length l) <= max /\
    ((r = 0 /\ exists t, l = t ++ [0] /\ Forall (fun b => b <> 0) t) \/
     (r = -1 /\ Forall (fun b => b <> 0) l /\
      (Z.of_nat (length l) = max \/ user_byte (k_mem s) tbl (va + Z.of_nat (length l)) = None))).
Proof.
  intros Hwf Hb Hva Hmax. unfold copyinstr. rewrite (copyinstr_loop_eq root tbl s e (Z.to_nat max) va max []) by (done || lia).
  pose proof (cstring_spec (user_byte (k_mem s) tbl) (Z.to_nat max) va) as Hs. destruct (cstring _ _ va) as [r l].
  destruct Hs as (Hrd & Hlen & Hc). exists r, l. split; [done |]. split; [done |]. split; [lia |].
  destruct Hc as [? | (? & ? & Hend)]; [by left | right]. split; [done |]. split; [done |]. destruct Hend; [left; lia | by right].
Qed.
End usermem.

(** ** Examples *)
Lemma sample_vm_wf : pt_wf (k_mem sample_vm) sample_root sample_tbl.
Proof. apply sample_vm_ok. Qed.

Lemma sample_entry va : 0 <= va < 4096 -> pt_entry (k_mem sample_vm) sample_tbl va = 0x20040c17.
Proof.
  intros Hva. rewrite <- pt_entry_round, PGROUNDDOWN_eq. unfold PGSIZE.
  rewrite (Z.mod_small va) by lia. rewrite Z.sub_diag. by vm_compute.
Qed.

Lemma walkaddr_user_only_witness :
  exists pa, walkaddr sample_root 0 (mkworld sample_vm []) = Ret pa (mkworld sample_vm []) /\
    (pa <> 0 -> 0 < MAXVA /\ pa + 0 mod PGSIZE = uaddr (k_mem sample_vm) sample_tbl 0 /\
      Z.testbit (pt_entry (k_mem sample_vm) sample_tbl 0) 0 = true /\
      Z.testbit (pt_entry (k_mem sample_vm) sample_tbl 0) 4 = true).
Proof. apply (walkaddr_user_only sample_vm [] sample_root sample_tbl 0); [exact sample_vm_wf | lia]. Defined.

Lemma sample_user_ok i : 0 <= i < 3 -> user_ok true (k_mem sample_vm) sample_tbl (4 + i).
Proof.
  intros Hi. assert (MAXVA = 2 ^ 38) by done. split; rewrite ?sample_entry by lia; try done; try lia.
  - exists (replicate 512 0). by vm_compute.
  - intros a Ha. assert (0x80103000 ∈ (snd <$> map_to_list sample_tbl)) as Hin.
    { apply list_elem_of_fmap. exists (a, 0x80103000). split; [done |]. by apply elem_of_map_to_list. }
    revert Hin. apply (bool_decide_unpack _). by vm_compute.
Qed.

Lemma copyout_copyin_witness :
  exists s', copyout sample_root 4 [1; 2; 3] (mkworld sample_vm []) = Ret 0 (mkworld s' []) /\
    copyin sample_root 4 3 (mkworld s' []) = Ret (0, [1; 2; 3]) (mkworld s' []) /\
    s' = sample_vm <| k_mem := k_mem s' |> /\
    forall a, (forall i, 0 <= i < 3 -> uaddr (k_mem sample_vm) sample_tbl (4 + i) <> a) ->
      mem_byte (k_mem s') a = mem_byte (k_mem sample_vm) a.
Proof.
  apply (copyout_copyin sample_vm [] sample_root sample_tbl 4 [1; 2; 3]).
  - exact sample_vm_wf.
  - lia.
  - repeat constructor; lia.
  - exact sample_user_ok.
  - intros i j Hi Hj. change (Z.of_nat (length [1; 2; 3])) with 3 in *. unfold uaddr.
    rewrite !sample_entry by lia. unfold PGSIZE. rewrite !Z.mod_small by lia. lia.
Defined.

(** A page of user memory with the string hi at 16 and two letters at its end; the page after
    it is not mapped. *)
Definition sample_string_page : list Z := [0; 0; 0x6968] ++ replicate 508 0 ++ [0x7a7a000000000000].
Definition sample_string : kstate := sample_vm <| k_mem ::= <[0x80103000 := sample_string_page]> |>.
Lemma sample_string_backed : user_backed (k_mem sample_string) sample_tbl.
Proof.
  intros va _ Hv _. set (ent := fun i => default 0 (mem_word (k_mem sample_string) (0x80102000 + 8 * i))).
  assert (Forall (fun i => Z.testbit (ent (Z.of_nat i)) 0 = true -> k_mem sample_string !! PTE2PA (ent (Z.of_nat i)) = Some sample_string_page) (seq 0 512)) as Hall.
  { apply (bool_decide_unpack _). by vm_compute. }
  unfold pt_entry in *. destruct (sample_tbl !! leaf_path va) as [q |] eqn:Hq; [| done]. cbn [mbind option_bind] in *.
  assert (q = 0x80102000) as ->.
  { unfold sample_tbl, leaf_path in Hq. apply lookup_insert_Some in Hq as [[? _] | [_ Hq]]; [done |].
    apply lookup_insert_Some in Hq as [[? _] | [_ Hq]]; [done |]. by apply lookup_singleton_Some in Hq as [_ <-]. }
  assert (0 <= PX 0 va < 512) as Hpx.
  { unfold PX, PXMASK. change 0x1FF with (Z.ones 9). rewrite Z.land_ones by lia. apply Z.mod_pos_bound. lia. }
  rewrite Forall_forall in Hall. specialize (Hall (Z.to_nat (PX 0 va)) ltac:(apply elem_of_seq; lia)). rewrite Z2Nat.id in Hall by lia.
  exists sample_string_page. split; [by apply Hall | done].
Qed.

(** A string within one page; one that runs into the unmapped page; one that is too long. *)
Lemma copyinstr_reads_witness :
  let s := sample_string in let rd := user_byte (k_mem s) sample_tbl in
  let result va max := exists r l, copyinstr sample_root va max (mkworld s []) = Ret (r, l) (mkworld s []) /\
    (forall i b, l !! i = Some b -> rd (va + Z.of_nat i) = Some b) /\ Z.of_nat (length l) <= max /\
    ((r = 0 /\ exists t, l = t ++ [0] /\ Forall (fun b => b <> 0) t) \/
     (r = -1 /\ Forall (fun b => b <> 0) l /\ (Z.of_nat (length l) = max \/ rd (va + Z.of_nat (length l)) = None))) in
  result 16 100 /\ result 4094 100 /\ result 16 2 /\
  (let got va max := match copyinstr sample_root va max (mkworld s []) with Ret a _ => Some a | _ => None end in
   got 16 100 = Some (0, [104; 105; 0]) /\ got 4094 100 = Some (-1, [122; 122]) /\ got 16 2 = Some (-1, [104; 105])).
Proof.
  intros s rd result. assert (pt_wf (k_mem s) sample_root sample_tbl) as Hwf by (apply pt_wf_dec; vm_compute; reflexivity).
  split; [| split; [| split; [| vm_compute; split; [reflexivity | split; reflexivity]]]].
  - apply (copyinstr_reads s [] sample_root sample_tbl 16 100 Hwf sample_string_backed); lia.
  - apply (copyinstr_reads s [] sample_root sample_tbl 4094 100 Hwf sample_string_backed); lia.
  - apply (copyinstr_reads s [] sample_root sample_tbl 16 2 Hwf sample_string_backed); lia.
Defined.
