(* ===== verification/CString.v ===== *)
(** * Memory and string routines ([kernel/string.c])

    An object is the list of its bytes and a pointer an index into it; a read or
    write outside the object has no defined result, [None].  [memmove] works on
    one object that holds both ranges, so overlap is visible. *)
From S2P Require Import Prelude.
Local Open Scope Z_scope.

(** ** The code *)

(** [for(i = 0; i < n; i++) cdst[i] = c]. *)
Fixpoint memset (dst : list Z) (c : Z) (n : nat) {struct n} : option (list Z) :=
  match n, dst with
  | O, _ => Some dst
  | S _, [] => None
  | S n', _ :: r => (fun r' => u8 c :: r') <$> memset r c n'
  end.

Fixpoint memcmp (v1 v2 : list Z) (n : nat) {struct n} : option Z :=
  match n with
  | O => Some 0
  | S n' =>
      match v1, v2 with
      | a :: s1, b :: s2 => if negb (a =? b) then Some (a - b) else memcmp s1 s2 n'
      | _, _ => None
      end
  end.

Definition store (m : list Z) (d : nat) (b : Z) : option (list Z) :=
  if decide (d < length m)%nat then Some (<[d := b]> m) else None.

(** [while(n-- > 0) *d++ = *s++]. *)
Fixpoint copy_up (m : list Z) (d s n : nat) : option (list Z) :=
  match n with
  | O => Some m
  | S n' => b ← m !! s; m' ← store m d b; copy_up m' (S d) (S s) n'
  end.
(** [while(n-- > 0) *--d = *--s], with [d] and [s] already moved past the ranges. *)
Fixpoint copy_down (m : list Z) (d s n : nat) : option (list Z) :=
  match n with
  | O => Some m
  | S n' => b ← m !! (s - 1)%nat; m' ← store m (d - 1) b; copy_down m' (d - 1) (s - 1) n'
  end.
Definition memmove (m : list Z) (dst src n : nat) : option (list Z) :=
  if decide (n = 0%nat) then Some m
  else if decide (src < dst /\ dst < src + n)%nat then copy_down m (dst + n) (src + n) n
  else copy_up m dst src n.
Definition memcpy (m : list Z) (dst src n : nat) : option (list Z) := memmove m dst src n.

Fixpoint strncmp (p q : list Z) (n : nat) {struct n} : option Z :=
  match n with
  | O => Some 0
  | S n' =>
      match p, q with
      | a :: p', b :: q' =>
          if negb (a =? 0) && (a =? b) then strncmp p' q' n' else Some (u8 a - u8 b)
      | _, _ => None
      end
  end.

(** The copy loop of [strncpy], then the zero fill: the bytes written. *)
Fixpoint strncpy_bytes (t : list Z) (n : nat) {struct n} : option (list Z) :=
  match n with
  | O => Some []
  | S n' =>
      match t with
      | [] => None
      | c :: t' => if c =? 0 then Some (0 :: replicate n' 0) else cons c <$> strncpy_bytes t' n'
      end
  end.
Definition strncpy (s t : list Z) (n : nat) : option (list Z) :=
  b ← strncpy_bytes t n;
  if decide (length b <= length s)%nat then Some (b ++ drop (length b) s) else None.

(** [while(--n > 0 && the byte copied != 0);] then [*s = 0]: the bytes written. *)
Fixpoint safestrcpy_bytes (t : list Z) (n : nat) {struct n} : option (list Z) :=
  match n with
  | O => Some [0]
  | S n' =>
      match t with
      | [] => None
      | c :: t' => if c =? 0 then Some [0; 0] else cons c <$> safestrcpy_bytes t' n'
      end
  end.
Definition safestrcpy (s t : list Z) (n : Z) : option (list Z) :=
  if n <=? 0 then Some s else
  b ← safestrcpy_bytes t (Z.to_nat (n - 1));
  if decide (length b <= length s)%nat then Some (b ++ drop (length b) s) else None.

Fixpoint strlen (s : list Z) : option nat :=
  match s with
  | [] => None
  | c :: r => if c =? 0 then Some 0%nat else S <$> strlen r
  end.

(** ** Correctness *)

(** The C string stored at the start of an object. *)
Fixpoint cstr (l : list Z) : list Z :=
  match l with
  | [] => []
  | c :: r => if c =? 0 then [] else c :: cstr r
  end.
Definition bytes (l : list Z) : Prop := Forall (fun b => 0 <= b < 256) l.

Lemma memset_spec n : forall dst c, (n <= length dst)%nat ->
  memset dst c n = Some (replicate n (u8 c) ++ drop n dst).
Proof.
  induction n as [| n IH]; intros [| x dst] c Hn; simpl in *; try done; try lia.
  by rewrite IH by lia.
Qed.

Lemma store_eq m d b : (d < length m)%nat -> store m d b = Some (<[d := b]> m).
Proof. intros Hd. unfold store. by rewrite decide_True. Qed.

(** Overwriting [n] bytes at [d]. *)
Definition splice (m : list Z) (d : nat) (l : list Z) : list Z :=
  take d m ++ l ++ drop (d + length l) m.

Lemma splice_lookup m d l i : (d + length l <= length m)%nat ->
  splice m d l !! i = if decide (d <= i < d + length l)%nat then l !! (i - d)%nat else m !! i.
Proof.
  intros Hl. unfold splice. case_decide as Hi.
  - rewrite lookup_app_r by (rewrite length_take; lia).
    rewrite length_take, lookup_app_l by lia. f_equal. lia.
  - destruct (decide (i < d)%nat).
    + rewrite lookup_app_l by (rewrite length_take; lia). apply lookup_take_lt. lia.
    + rewrite lookup_app_r by (rewrite length_take; lia).
      rewrite lookup_app_r by (rewrite length_take; lia).
      rewrite length_take, lookup_drop. f_equal. lia.
Qed.

Lemma splice_length m d l : (d + length l <= length m)%nat -> length (splice m d l) = length m.
Proof. intros. unfold splice. rewrite !length_app, length_take, length_drop. lia. Qed.

(** Copying upwards reads every source byte before it is overwritten when the
    destination does not start inside the source. *)
Lemma copy_up_spec n : forall m d s,
  (s + n <= length m)%nat -> (d + n <= length m)%nat -> (d <= s \/ s + n <= d)%nat ->
  copy_up m d s n = Some (splice m d (take n (drop s m))).
Proof.
  induction n as [| n IH]; intros m d s Hs Hd Ho; cbn [copy_up].
  { rewrite take_0. unfold splice. simpl. by rewrite Nat.add_0_r, take_drop. }
  destruct (lookup_lt_is_Some_2 m s) as [b Hb]; [lia |]. rewrite Hb. cbn [mbind option_bind].
  rewrite store_eq by lia. cbn [mbind option_bind]. rewrite IH; rewrite ?length_insert; try lia.
  f_equal. apply list_eq. intros i.
  assert (forall x k, length (take k (drop x m)) = Nat.min k (length m - x)) as Hlen
    by (intros; rewrite length_take, length_drop; lia).
  rewrite !splice_lookup; rewrite ?length_take, ?length_drop, ?length_insert; try lia.
  repeat case_decide; try lia.
  - rewrite !lookup_take_lt, !lookup_drop by lia.
    rewrite list_lookup_insert_ne by lia. f_equal. lia.
  - assert (i = d) as -> by lia. rewrite Nat.sub_diag.
    rewrite list_lookup_insert_eq by lia. rewrite lookup_take_lt, lookup_drop by lia.
    by rewrite Nat.add_0_r.
  - rewrite list_lookup_insert_ne by lia. done.
Qed.

Lemma copy_down_spec n : forall m d s,
  (s + n <= length m)%nat -> (d + n <= length m)%nat -> (s <= d)%nat ->
  copy_down m (d + n) (s + n) n = Some (splice m d (take n (drop s m))).
Proof.
  induction n as [| n IH]; intros m d s Hs Hd Ho; cbn [copy_down].
  { rewrite take_0. unfold splice. simpl. by rewrite Nat.add_0_r, take_drop. }
  replace (s + S n - 1)%nat with (s + n)%nat by lia. replace (d + S n - 1)%nat with (d + n)%nat by lia.
  destruct (lookup_lt_is_Some_2 m (s + n)) as [b Hb]; [lia |]. rewrite Hb. cbn [mbind option_bind].
  rewrite store_eq by lia. cbn [mbind option_bind]. rewrite IH; rewrite ?length_insert; try lia.
  f_equal. apply list_eq. intros i.
  rewrite !splice_lookup; rewrite ?length_take, ?length_drop, ?length_insert; try lia.
  repeat case_decide; try lia.
  - rewrite !lookup_take_lt, !lookup_drop by lia. by rewrite list_lookup_insert_ne by lia.
  - assert (i = d + n)%nat as -> by lia. rewrite list_lookup_insert_eq by lia.
    rewrite lookup_take_lt, lookup_drop by lia. rewrite <- Hb. f_equal. lia.
  - rewrite list_lookup_insert_ne by lia. done.
Qed.

Lemma memmove_spec m d s n :
  (s + n <= length m)%nat -> (d + n <= length m)%nat ->
  memmove m d s n = Some (splice m d (take n (drop s m))).
Proof.
  intros Hs Hd. unfold memmove. case_decide as H0.
  { subst n. rewrite take_0. unfold splice. simpl. by rewrite Nat.add_0_r, take_drop. }
  case_decide; [apply copy_down_spec; lia | apply copy_up_spec; lia].
Qed.

Lemma memcmp_zero n : forall v1 v2, (n <= length v1)%nat -> (n <= length v2)%nat ->
  memcmp v1 v2 n = Some 0 <-> take n v1 = take n v2.
Proof.
  induction n as [| n IH]; intros [| a v1] [| b v2] H1 H2; simpl in *; try done; try lia.
  destruct (Z.eqb_spec a b) as [-> | Hne]; cbn [negb].
  - rewrite IH by lia. split; [by intros -> | by intros [=]].
  - split; [intros [=]; lia | congruence].
Qed.

(** [strncmp] is zero exactly when the two strings agree on their first [n] bytes. *)
Lemma strncmp_zero n : forall p q, bytes p -> bytes q ->
  0 ∈ p \/ (n <= length p)%nat -> 0 ∈ q \/ (n <= length q)%nat ->
  strncmp p q n = Some 0 <-> take n (cstr p) = take n (cstr q).
Proof.
  induction n as [| n IH]; intros p q Hp Hq Hpn Hqn; [by split |].
  destruct p as [| a p]; [destruct Hpn as [Hn%elem_of_nil | Hn]; [done | simpl in Hn; lia] |].
  destruct q as [| b q]; [destruct Hqn as [Hn%elem_of_nil | Hn]; [done | simpl in Hn; lia] |].
  apply Forall_cons in Hp as [Ha Hp], Hq as [Hb Hq]. cbn [strncmp cstr].
  rewrite (u8_small a), (u8_small b) by lia. simpl in Hpn, Hqn.
  destruct (Z.eqb_spec a 0) as [-> | Ha0], (Z.eqb_spec b 0) as [-> | Hb0]; cbn [negb andb take].
  - by split.
  - split; [intros [=]; lia | done].
  - destruct (Z.eqb_spec a 0); [done |]. split; [intros [=]; lia | done].
  - destruct (Z.eqb_spec a b) as [-> | Hne].
    + rewrite IH; try done.
      * split; [by intros -> | by intros [=]].
      * destruct Hpn as [[E | ?]%elem_of_cons | ?]; [congruence | by left | right; lia].
      * destruct Hqn as [[E | ?]%elem_of_cons | ?]; [congruence | by left | right; lia].
    + split; [intros [=]; lia | congruence].
Qed.

Lemma strlen_spec s : 0 ∈ s -> strlen s = Some (length (cstr s)).
Proof.
  induction s as [| c r IH]; [by intros ?%elem_of_nil |]. intros [E | Hr]%elem_of_cons; simpl.
  - by rewrite <- E.
  - destruct (Z.eqb_spec c 0); [done |]. by rewrite IH.
Qed.

(** [strncpy] writes exactly [n] bytes: the string cut at [n], then zeros. *)
Lemma strncpy_bytes_spec n : forall t, 0 ∈ t \/ (n <= length t)%nat ->
  strncpy_bytes t n = Some (take n (cstr t) ++ replicate (n - length (take n (cstr t))) 0).
Proof.
  induction n as [| n IH]; intros t Ht; [done |].
  destruct t as [| c t]; [destruct Ht as [Hn%elem_of_nil | Hn]; [done | simpl in Hn; lia] |].
  simpl. destruct (Z.eqb_spec c 0) as [-> | Hc]; [done |].
  rewrite IH; [done |]. destruct Ht as [[E | ?]%elem_of_cons | Hn]; [congruence | by left |].
  right. simpl in Hn. lia.
Qed.

(** [safestrcpy] stores the string cut at [n - 1] bytes and a nul. *)
Lemma safestrcpy_bytes_cstr n : forall t, 0 ∈ t \/ (n <= length t)%nat ->
  exists b, safestrcpy_bytes t n = Some b /\ (1 <= length b <= S n)%nat /\
    cstr b = take n (cstr t) /\ 0 ∈ b.
Proof.
  induction n as [| n IH]; intros t Ht; [exists [0]; repeat split; simpl; try lia; by left |].
  destruct t as [| c t]; [destruct Ht as [Hn%elem_of_nil | Hn]; [done | simpl in Hn; lia] |].
  simpl. destruct (Z.eqb_spec c 0) as [-> | Hc].
  { exists [0; 0]. repeat split; simpl; try lia. by left. }
  destruct (IH t) as (b & -> & Hl & Hb & Hin).
  { destruct Ht as [[E | ?]%elem_of_cons | Hn]; [congruence | by left |]. right. simpl in Hn. lia. }
  exists (c :: b). repeat split; simpl; try lia; [| by right].
  rewrite (proj2 (Z.eqb_neq c 0) Hc). by rewrite Hb.
Qed.

Lemma cstr_app b r : 0 ∈ b -> cstr (b ++ r) = cstr b.
Proof.
  induction b as [| c b IH]; [by intros ?%elem_of_nil |]. intros [E | Hb]%elem_of_cons; simpl.
  - by rewrite <- E.
  - destruct (c =? 0); [done |]. by rewrite IH.
Qed.

Lemma safestrcpy_spec s t n :
  0 < n -> n <= Z.of_nat (length s) -> 0 ∈ t \/ n - 1 <= Z.of_nat (length t) ->
  exists s', safestrcpy s t n = Some s' /\ length s' = length s /\ 0 ∈ s' /\
    cstr s' = take (Z.to_nat (n - 1)) (cstr t).
Proof.
  intros Hn Hs Ht. unfold safestrcpy. rewrite (proj2 (Z.leb_gt n 0)) by lia.
  destruct (safestrcpy_bytes_cstr (Z.to_nat (n - 1)) t) as (b & -> & Hl & Hb & Hin).
  { destruct Ht; [by left | right; lia]. }
  cbn. rewrite decide_True by lia. eexists. split; [done |].
  rewrite length_app, length_drop, cstr_app by done. split; [lia |].
  split; [apply elem_of_app; by left | done].
Qed.

(** ** Properties *)

(** [memmove] copies correctly whether or not the ranges overlap: the result is
    the object with the [n] bytes that were at [src] now at [dst], and every other
    byte unchanged. *)
Theorem memmove_overlap m dst src n :
  (src + n <= length m)%nat -> (dst + n <= length m)%nat ->
  exists m', memmove m dst src n = Some m' /\ length m' = length m /\
    take n (drop dst m') = take n (drop src m) /\
    forall i, (i < dst \/ dst + n <= i)%nat -> m' !! i = m !! i.
Proof.
  intros Hs Hd. set (l := take n (drop src m)).
  assert (length l = n) as Hl by (unfold l; rewrite length_take, length_drop; lia).
  exists (splice m dst l). split; [by apply memmove_spec |]. split; [apply splice_length; lia |]. split.
  - unfold splice. rewrite drop_app_length' by (rewrite length_take; lia). by rewrite take_app_length'.
  - intros i Hi. rewrite splice_lookup by lia. by rewrite decide_False by lia.
Qed.

(** Copying two places up inside the source range. *)
Lemma memmove_overlap_witness :
  exists m', memmove [1; 2; 3; 4; 5; 6] 2 0 4 = Some m' /\ length m' = 6%nat /\
    take 4 (drop 2 m') = [1; 2; 3; 4] /\
    forall i, (i < 2 \/ 2 + 4 <= i)%nat -> m' !! i = [1; 2; 3; 4; 5; 6] !! i.
Proof. apply (memmove_overlap [1; 2; 3; 4; 5; 6] 2 0 4); cbn; lia. Defined.

(** [safestrcpy] always leaves a terminated string: it fills at most [n] bytes of
    its destination, which then holds the source string cut at [n - 1] bytes, a nul
    included, and keeps its size. *)
Theorem safestrcpy_terminates s t n :
  0 < n -> n <= Z.of_nat (length s) -> 0 ∈ t \/ n - 1 <= Z.of_nat (length t) ->
  exists s', safestrcpy s t n = Some s' /\ length s' = length s /\ 0 ∈ s' /\
    cstr s' = take (Z.to_nat (n - 1)) (cstr t).
Proof. apply safestrcpy_spec. Qed.

Lemma safestrcpy_terminates_witness :
  exists s', safestrcpy [9; 9; 9; 9] [97; 98; 99; 100; 101; 0] 4 = Some s' /\ length s' = 4%nat /\ 0 ∈ s' /\
    cstr s' = [97; 98; 99].
Proof.
  apply (safestrcpy_terminates [9; 9; 9; 9] [97; 98; 99; 100; 101; 0] 4); cbn; lia.
Defined.
