(* ===== verification/Bytes.v ===== *)
(** * Little-endian fields in byte arrays

    The structures the kernel keeps on disk and copies to user space are read
    and written field by field at fixed offsets. *)
From S2P Require Import Prelude.
Local Open Scope Z_scope.

(** The [n]-byte little-endian value at the start of [l]; a missing byte is 0. *)
Fixpoint le_get (n : nat) (l : list Z) : Z :=
  match n with
  | O => 0
  | S k => match l with
           | [] => 0
           | b :: r => b + 256 * le_get k r
           end
  end.
Fixpoint le_put (n : nat) (v : Z) : list Z :=
  match n with
  | O => []
  | S k => v mod 256 :: le_put k (v / 256)
  end.

Definition get16 (l : list Z) (off : nat) : Z := le_get 2 (drop off l).
Definition get32 (l : list Z) (off : nat) : Z := le_get 4 (drop off l).
Definition get64 (l : list Z) (off : nat) : Z := le_get 8 (drop off l).

(** [l] with the bytes at [off] replaced by [b]. *)
Definition patch (l : list Z) (off : nat) (b : list Z) : list Z :=
  take off l ++ b ++ drop (off + length b) l.
Definition put16 (l : list Z) (off : nat) (v : Z) : list Z := patch l off (le_put 2 v).
Definition put32 (l : list Z) (off : nat) (v : Z) : list Z := patch l off (le_put 4 v).

Lemma le_put_length n v : length (le_put n v) = n.
Proof. revert v. induction n as [| n IH]; intros v; simpl; [done |]. by rewrite IH. Qed.

Lemma le_put_bytes n v : Forall (fun b => 0 <= b < 256) (le_put n v).
Proof.
  revert v. induction n as [| n IH]; intros v; simpl; constructor; [| apply IH].
  by apply Z.mod_pos_bound.
Qed.

(** A field reads back what was stored in it. *)
Lemma le_roundtrip n r : forall v, le_get n (le_put n v ++ r) = v mod 256 ^ Z.of_nat n.
Proof.
  induction n as [| n IH]; intros v; [by rewrite Z.mod_1_r |]. cbn [le_put app le_get].
  rewrite IH, Nat2Z.inj_succ, Z.pow_succ_r by lia.
  rewrite (Z.rem_mul_r v 256) by (try lia; apply Z.pow_pos_nonneg; lia). done.
Qed.

Lemma le_get_range n l : Forall (fun b => 0 <= b < 256) l -> 0 <= le_get n l < 256 ^ Z.of_nat n.
Proof.
  revert l. induction n as [| n IH]; intros [| b r] Hl; cbn [le_get]; try (split; [done |]; apply Z.pow_pos_nonneg; lia).
  apply Forall_cons in Hl as [Hb Hr]. specialize (IH r Hr).
  rewrite Nat2Z.inj_succ, Z.pow_succ_r by lia. lia.
Qed.

Lemma patch_length l off b : (off + length b <= length l)%nat -> length (patch l off b) = length l.
Proof. intros. unfold patch. rewrite !length_app, length_take, length_drop. lia. Qed.

Lemma drop_patch l off b : (off <= length l)%nat -> drop off (patch l off b) = b ++ drop (off + length b) l.
Proof.
  intros Ho. unfold patch. rewrite drop_app_ge by (rewrite length_take; lia).
  rewrite length_take. by replace (off - Nat.min off (length l))%nat with 0%nat by lia.
Qed.

Lemma get32_put32 l off v :
  (off <= length l)%nat -> get32 (put32 l off v) off = v mod 2 ^ 32.
Proof. intros Ho. unfold get32, put32. rewrite drop_patch by done. apply (le_roundtrip 4). Qed.

Lemma get16_put16 l off v :
  (off <= length l)%nat -> get16 (put16 l off v) off = v mod 2 ^ 16.
Proof. intros Ho. unfold get16, put16. rewrite drop_patch by done. apply (le_roundtrip 2). Qed.

Lemma patch_lookup l off b i : (off + length b <= length l)%nat ->
  patch l off b !! i = if decide (off <= i < off + length b)%nat then b !! (i - off)%nat else l !! i.
Proof.
  intros Hl. unfold patch. case_decide as Hi.
  - rewrite lookup_app_r by (rewrite length_take; lia).
    rewrite length_take, lookup_app_l by lia. f_equal. lia.
  - destruct (decide (i < off)%nat).
    + rewrite lookup_app_l by (rewrite length_take; lia). apply lookup_take_lt. lia.
    + rewrite lookup_app_r by (rewrite length_take; lia).
      rewrite lookup_app_r by (rewrite length_take; lia).
      rewrite length_take, lookup_drop. f_equal. lia.
Qed.

(** Bytes that a read at [o] covers are those of the array. *)
Lemma le_get_take n l : le_get n (take n l) = le_get n l.
Proof.
  revert l. induction n as [| n IH]; intros [| b r]; simpl; try done. by rewrite IH.
Qed.

Lemma take_drop_patch l off b o n :
  (off + length b <= length l)%nat -> (o + n <= off \/ off + length b <= o)%nat ->
  take n (drop o (patch l off b)) = take n (drop o l).
Proof.
  intros Hl Ho. apply list_eq. intros i. destruct (decide (i < n)%nat).
  - rewrite !lookup_take_lt, !lookup_drop by done. rewrite patch_lookup by done.
    rewrite decide_False by lia. done.
  - by rewrite !lookup_take_ge by lia.
Qed.

Lemma get32_patch_ne l off b o :
  (off + length b <= length l)%nat -> (o + 4 <= off \/ off + length b <= o)%nat ->
  get32 (patch l off b) o = get32 l o.
Proof.
  intros Hl Ho. unfold get32. rewrite <- (le_get_take 4 (drop o (patch _ _ _))).
  by rewrite take_drop_patch, le_get_take.
Qed.

Lemma get16_patch_ne l off b o :
  (off + length b <= length l)%nat -> (o + 2 <= off \/ off + length b <= o)%nat ->
  get16 (patch l off b) o = get16 l o.
Proof.
  intros Hl Ho. unfold get16. rewrite <- (le_get_take 2 (drop o (patch _ _ _))).
  by rewrite take_drop_patch, le_get_take.
Qed.
