(* ===== verification/Printf.v ===== *)
(** * Kernel output ([kernel/printf.c], [kernel/console.c], [kernel/uart.c])

    [consputc] sends a character to the UART with polling; [printf] formats its
    arguments through it under the lock [pr].  Format strings are byte lists
    without their nul. *)
From S2P Require Import Prelude Kstate Spinlock Mem Sample Sched.
Local Open Scope Z_scope.

(** ** The code *)
(** [while((ReadReg(LSR) & LSR_TX_IDLE) == 0);] lets the device run. *)
Fixpoint wait_tx_idle (fuel : nat) : K unit :=
  match fuel with
  | O => hang
  | S n =>
      let! u := get k_uart in
      if u_idle u then ret tt else env_step ;;; wait_tx_idle n
  end.

Definition write_thr (c : Z) : K unit :=
  put (fun s => s <| k_uart ::= fun u => u <| u_out ::= fun l => l ++ [u8 c] |> |>).

Definition uartputc_sync (c : Z) : K unit :=
  let! pn := get k_panicking in
  (if pn =? 0 then push_off else ret tt) ;;;
  let! pd := get k_panicked in
  if istrue pd then hang else
  (fun w => wait_tx_idle (S (length (w_env w))) w) ;;;
  write_thr c ;;;
  let! pn := get k_panicking in
  (if pn =? 0 then pop_off else ret tt).

Definition BACKSPACE : Z := 0x100.
Definition consputc (c : Z) : K unit :=
  if c =? BACKSPACE then uartputc_sync 8 ;;; uartputc_sync 32 ;;; uartputc_sync 8
  else uartputc_sync c.

Fixpoint consputs (l : list Z) : K unit :=
  match l with
  | [] => ret tt
  | c :: r => consputc c ;;; consputs r
  end.

Definition digit (d : Z) : Z := if d <? 10 then 48 + d else 87 + d.

(** [do { buf[i++] = digits[x % base]; } while((x /= base) != 0)]: the digits in
    the order they are stored, least significant first.  64 iterations bound a
    64-bit value in any base. *)
Fixpoint digits_rev (fuel : nat) (x base : Z) : list Z :=
  match fuel with
  | O => []
  | S n => digit (x mod base) :: (if x / base =? 0 then [] else digits_rev n (x / base) base)
  end.

(** The contents of [buf] when the loops of [printint] have filled it. *)
Definition printint_buf (xx base : Z) (sign : bool) : list Z :=
  let neg := sign && (xx <? 0) in
  let x := if neg then u64 (- xx) else u64 xx in
  digits_rev 64 x base ++ (if neg then [45] else []).

(** [buf] has 20 bytes; a store past its end is a fault. *)
Definition printint (xx base : Z) (sign : bool) : K unit :=
  let b := printint_buf xx base sign in
  if decide (length b <= 20)%nat then consputs (rev b) else fault.

Fixpoint printptr_digits (n : nat) (x : Z) : list Z :=
  match n with
  | O => []
  | S k => digit (Z.shiftr x 60) :: printptr_digits k (u64 (Z.shiftl x 4))
  end.
Definition printptr (x : Z) : K unit :=
  consputc 48 ;;; consputc 120 ;;; consputs (printptr_digits 16 x).

(** A variable argument: an integer register, or a string, [None] if null. *)
Inductive parg : Type := PInt (v : Z) | PStr (s : option (list Z)).

(** [va_arg] of an integer type, and of [char*]. *)
Definition arg_int (f : Z -> Z) (ap : list parg) (k : Z -> list parg -> K unit) : K unit :=
  match ap with
  | PInt v :: r => k (f v) r
  | _ => fault
  end.
Definition arg_str (ap : list parg) (k : list Z -> list parg -> K unit) : K unit :=
  match ap with
  | PStr o :: r => k (default (str "(null)") o) r
  | _ => fault
  end.

(** The character at [i], 0 at the end of the format. *)
Definition fmt_at (fmt : list Z) (i : nat) : Z := default 0 (fmt !! i).

(** The [for] loop; [fuel] bounds the characters of the format left. *)
Fixpoint printf_loop (fuel : nat) (fmt : list Z) (i : nat) (ap : list parg) : K unit :=
  match fuel with
  | O => ret tt
  | S n =>
      let cx := fmt_at fmt i in
      if cx =? 0 then ret tt else
      if negb (cx =? 37) then consputc cx ;;; printf_loop n fmt (i + 1) ap else
      let c0 := fmt_at fmt (i + 1) in
      let c1 := if istrue c0 then fmt_at fmt (i + 2) else 0 in
      let c2 := if istrue c1 then fmt_at fmt (i + 3) else 0 in
      let go k := printf_loop n fmt (i + k) in
      if c0 =? 100 then arg_int s32 ap (fun v r => printint v 10 true ;;; go 2%nat r)
      else if (c0 =? 108) && (c1 =? 100) then
        arg_int s64 ap (fun v r => printint v 10 true ;;; go 3%nat r)
      else if (c0 =? 108) && (c1 =? 108) && (c2 =? 100) then
        arg_int s64 ap (fun v r => printint v 10 true ;;; go 4%nat r)
      else if c0 =? 117 then arg_int u32 ap (fun v r => printint v 10 false ;;; go 2%nat r)
      else if (c0 =? 108) && (c1 =? 117) then
        arg_int s64 ap (fun v r => printint v 10 false ;;; go 3%nat r)
      else if (c0 =? 108) && (c1 =? 108) && (c2 =? 117) then
        arg_int s64 ap (fun v r => printint v 10 false ;;; go 4%nat r)
      else if c0 =? 120 then arg_int u32 ap (fun v r => printint v 16 false ;;; go 2%nat r)
      else if (c0 =? 108) && (c1 =? 120) then
        arg_int s64 ap (fun v r => printint v 16 false ;;; go 3%nat r)
      else if (c0 =? 108) && (c1 =? 108) && (c2 =? 120) then
        arg_int s64 ap (fun v r => printint v 16 false ;;; go 4%nat r)
      else if c0 =? 112 then arg_int u64 ap (fun v r => printptr v ;;; go 2%nat r)
      else if c0 =? 99 then arg_int s32 ap (fun v r => consputc v ;;; go 2%nat r)
      else if c0 =? 115 then arg_str ap (fun l r => consputs l ;;; go 2%nat r)
      else if c0 =? 37 then consputc 37 ;;; go 2%nat ap
      else if c0 =? 0 then ret tt
      else consputc 37 ;;; consputc c0 ;;; go 2%nat ap
  end.

Definition printf (fmt : list Z) (ap : list parg) : K Z :=
  let! pn := get k_panicking in
  (if pn =? 0 then acquire LkPr else ret tt) ;;;
  printf_loop (length fmt) fmt 0 ap ;;;
  let! pn := get k_panicking in
  (if pn =? 0 then release LkPr else ret tt) ;;;
  ret 0.

Definition printfinit : K unit := initlock LkPr "pr".

(** [panic]: prints its message without taking the lock and freezes the machine.
    The other files use the outcome [Panic] for the call. *)
Definition kpanic (s : string) : K unit :=
  put (fun k => k <| k_panicking := 1 |>) ;;;
  printf (str "panic: ") [] ;;;
  printf (str "%s" ++ [10]) [PStr (Some (str s))] ;;;
  put (fun k => k <| k_panicked := 1 |>) ;;;
  hang.

(** ** Numbers print correctly *)
Definition digit_value (c : Z) : Z := if c <? 58 then c - 48 else c - 87.
(** The number a list of digits denotes, least significant first. *)
Fixpoint digits_value (base : Z) (l : list Z) : Z :=
  match l with
  | [] => 0
  | c :: r => digit_value c + base * digits_value base r
  end.

Lemma digit_roundtrip d : 0 <= d < 16 -> digit_value (digit d) = d.
Proof.
  intros Hd. unfold digit, digit_value. destruct (Z.ltb_spec d 10).
  - destruct (Z.ltb_spec (48 + d) 58); lia.
  - destruct (Z.ltb_spec (87 + d) 58); lia.
Qed.

Lemma digits_rev_value base n : 2 <= base <= 16 -> forall x, 0 <= x < base ^ Z.of_nat n ->
  digits_value base (digits_rev n x base) = x.
Proof.
  intros Hb. induction n as [| n IH]; intros x Hx; [simpl in *; lia |]. cbn [digits_rev digits_value].
  pose proof (Z.mod_pos_bound x base ltac:(lia)) as Hm. rewrite digit_roundtrip by lia.
  pose proof (Z.div_mod x base ltac:(lia)) as Hdm.
  rewrite Nat2Z.inj_succ, Z.pow_succ_r in Hx by lia.
  destruct (Z.eqb_spec (x / base) 0) as [E | E]; cbn [digits_value]; [lia |].
  rewrite IH; [lia |]. split; [apply Z.div_pos; lia | apply Z.div_lt_upper_bound; lia].
Qed.

(** A value below [base ^ k] takes at most [k] digits, and at least one. *)
Lemma digits_rev_length base n : 2 <= base -> forall k x, (1 <= k)%nat -> (1 <= n)%nat ->
  0 <= x < base ^ Z.of_nat k -> (1 <= length (digits_rev n x base) <= k)%nat.
Proof.
  intros Hb. induction n as [| n IH]; intros k x Hk Hn Hx; [lia |]. cbn [digits_rev length].
  destruct (Z.eqb_spec (x / base) 0) as [E | E]; [simpl; lia |].
  destruct k as [| [| k]]; [lia | |].
  - change (Z.of_nat 1) with 1 in Hx. rewrite Z.pow_1_r in Hx. rewrite Z.div_small in E; lia.
  - destruct n as [| n]; [simpl; lia |]. rewrite Nat2Z.inj_succ, Z.pow_succ_r in Hx by lia.
    destruct (IH (S k) (x / base)); [lia | lia | | lia].
    split; [apply Z.div_pos; lia | apply Z.div_lt_upper_bound; lia].
Qed.

Definition bytes256 (l : list Z) : Prop := Forall (fun b => 0 <= b < 256) l.

(** ** What a print sends to the UART *)
Definition emit (l : list Z) (s : kstate) : kstate :=
  s <| k_uart ::= fun u => u <| u_out ::= fun o => o ++ l |> |>.

(** The UART accepts output, no panic is under way, and interrupts are off. *)
Definition uart_ready (s : kstate) (c : cpu) : Prop :=
  cpu_ok s c /\ 0 < c_noff c < 2 ^ 31 - 2 /\ u_idle (k_uart s) = true /\
  k_panicking s = 0 /\ k_panicked s = 0.

Definition emits (m : K unit) (l : list Z) : Prop :=
  forall s e c, uart_ready s c -> m (mkworld s e) = Ret tt (mkworld (emit l s) e).

Lemma emit_nil s : emit [] s = s.
Proof. unfold emit, upd. cbn. rewrite app_nil_r. by destruct s as [? ? ? ? ? ? ? ? ? ? ? ? ? ? ? ? ? ? ? ? ? ? ? ? [] ? ? ? ? ?]. Qed.

Lemma emit_app l l' s : emit l' (emit l s) = emit (l ++ l') s.
Proof. unfold emit, upd. cbn. by rewrite app_assoc. Qed.

Lemma emits_seq m l k l' : emits m l -> emits k l' -> emits (m ;;; k) (l ++ l').
Proof.
  intros Hm Hk s e c Hr. rewrite (bind_ret _ _ _ _ _ (Hm s e c Hr)), (Hk _ e c); [| exact Hr].
  by rewrite emit_app.
Qed.

Lemma emits_ret : emits (ret tt) [].
Proof. intros s e c _. by rewrite emit_nil. Qed.

Lemma pop_off_nested s e c :
  cpu_ok s c -> 0 < c_noff c -> 
  pop_off (mkworld (on_cpu push_cpu s) e) = Ret tt (mkworld s e).
Proof.
  intros (Hc & Hn & Hi) Hpos. rewrite (pop_off_eq _ e (push_cpu c)); try (cbn; done || lia).
  - rewrite on_cpu_compose. apply ret_world. apply (on_cpu_id _ s c Hc).
    rewrite pop_push_cpu by (lia || done). unfold sync_cpu.
    rewrite (proj2 (Z.eqb_neq (c_noff c) 0)) by lia. by destruct c.
  - exact (on_cpu_lookup push_cpu s c Hc).
Qed.

Lemma emits_putc_sync c : emits (uartputc_sync c) [u8 c].
Proof.
  intros s e k (Hc & Hn & Hidle & Hpn & Hpd). unfold uartputc_sync. krun. rewrite Hpn. cbn [Z.eqb].
  kcall (push_off_eq s e k). krun.
  change (k_panicked (on_cpu push_cpu s)) with (k_panicked s). rewrite Hpd. cbn [istrue Z.eqb negb].
  erewrite bind_ret.
  2:{ cbn [wait_tx_idle w_env]. krun.
      change (k_uart (on_cpu push_cpu s)) with (k_uart s). rewrite Hidle. reflexivity. }
  unfold write_thr. krun. cbn [k_panicking].
  change (k_panicking _) with (k_panicking s) at 1. rewrite Hpn. cbn [Z.eqb].
  exact (pop_off_nested (emit [u8 c] s) e k Hc ltac:(lia)).
Qed.

Lemma emits_consputc c : c <> BACKSPACE -> emits (consputc c) [u8 c].
Proof. intros Hc. unfold consputc. rewrite (proj2 (Z.eqb_neq _ _) Hc). apply emits_putc_sync. Qed.

Lemma emits_consputs l : bytes256 l -> emits (consputs l) l.
Proof.
  induction l as [| c r IH]; intros Hl; [apply emits_ret |].
  apply Forall_cons in Hl as [Hc Hl]. cbn [consputs].
  apply (emits_seq _ [c]); [| auto]. rewrite <- (u8_small c Hc) at 2. apply emits_consputc.
  unfold BACKSPACE. lia.
Qed.

Lemma digit_byte d : 0 <= d < 16 -> 0 <= digit d < 256.
Proof. intros. unfold digit. destruct (d <? 10); lia. Qed.

Lemma digits_rev_bytes base n x : 2 <= base <= 16 -> bytes256 (digits_rev n x base).
Proof.
  intros Hb. revert x. induction n as [| n IH]; intros x; [constructor |]. cbn [digits_rev].
  constructor.
  - apply digit_byte. pose proof (Z.mod_pos_bound x base ltac:(lia)). lia.
  - destruct (x / base =? 0); [constructor | apply IH].
Qed.

#[global] Arguments digits_rev : simpl never.

Lemma printint_buf_ok xx base sign :
  base = 10 \/ base = 16 -> - 2 ^ 63 <= xx < 2 ^ 64 ->
  (length (printint_buf xx base sign) <= 20)%nat /\ bytes256 (printint_buf xx base sign).
Proof.
  intros Hb Hx. unfold printint_buf. split.
  - rewrite length_app. pose proof (u64_range xx) as Hr.
    destruct (sign && (xx <? 0)) eqn:Hn.
    + apply andb_true_iff in Hn as [_ Hn%Z.ltb_lt].
      rewrite u64_small by lia. change (length [45]) with 1%nat.
      assert (1 <= length (digits_rev 64 (- xx) base) <= 19)%nat; [| lia].
      apply digits_rev_length; [lia | lia | lia |]. split; [lia |].
      apply (Z.lt_trans _ (2 ^ 63 + 1)); [lia |]. by destruct Hb as [-> | ->].
    + change (length (@nil Z)) with 0%nat. assert (1 <= length (digits_rev 64 (u64 xx) base) <= 20)%nat; [| lia].
      apply digits_rev_length; [lia | lia | lia |]. split; [lia |].
      apply (Z.lt_trans _ (2 ^ 64)); [lia |]. by destruct Hb as [-> | ->].
  - apply Forall_app. split; [apply digits_rev_bytes; lia |].
    destruct (sign && (xx <? 0)); repeat constructor; lia.
Qed.

Lemma emits_printint xx base sign :
  base = 10 \/ base = 16 -> - 2 ^ 63 <= xx < 2 ^ 64 ->
  emits (printint xx base sign) (rev (printint_buf xx base sign)).
Proof.
  intros Hb Hx. destruct (printint_buf_ok xx base sign Hb Hx) as [Hl Hbytes].
  unfold printint. rewrite decide_True by done. apply emits_consputs.
  by apply Forall_rev.
Qed.

(** The decimal representation of a signed value, as [printf] shows it. *)
Definition dec (v : Z) : list Z := rev (printint_buf v 10 true).

(** A run of plain characters, then [%d]. *)
Lemma emits_plain n fmt i ap c l :
  fmt !! i = Some c -> c <> 0 -> c <> 37 -> 0 <= c < 256 ->
  emits (printf_loop n fmt (i + 1) ap) l -> emits (printf_loop (S n) fmt i ap) (c :: l).
Proof.
  intros Hc H0 H37 Hr Hk. cbn [printf_loop]. cbv zeta.
  assert (fmt_at fmt i = c) as -> by (unfold fmt_at; by rewrite Hc).
  rewrite (proj2 (Z.eqb_neq c 0)), (proj2 (Z.eqb_neq c 37)) by done. cbn [negb].
  apply (emits_seq _ [c]); [| done]. rewrite <- (u8_small c Hr) at 2. apply emits_consputc.
  unfold BACKSPACE. lia.
Qed.

Lemma emits_pct_d n fmt i v ap l :
  fmt !! i = Some 37 -> fmt !! (i + 1)%nat = Some 100 ->
  emits (printf_loop n fmt (i + 2) ap) l ->
  emits (printf_loop (S n) fmt i (PInt v :: ap)) (dec (s32 v) ++ l).
Proof.
  intros Hc Hd Hk. cbn [printf_loop]. cbv zeta.
  assert (fmt_at fmt i = 37) as -> by (unfold fmt_at; by rewrite Hc).
  assert (fmt_at fmt (i + 1) = 100) as -> by (unfold fmt_at; by rewrite Hd). cbn [Z.eqb negb Pos.eqb].
  apply emits_seq; [| done]. apply emits_printint; [by left |]. pose proof (s32_range v). lia.
Qed.

Lemma emits_end fmt i ap n : fmt !! i = None -> emits (printf_loop n fmt i ap) [].
Proof.
  intros Hi. destruct n; [apply emits_ret |]. cbn [printf_loop]. cbv zeta.
  assert (fmt_at fmt i = 0) as -> by (unfold fmt_at; by rewrite Hi). apply emits_ret.
Qed.

(** A [printf] whose loop emits [l] prints [l] and returns 0. *)
Lemma printf_eq s e c fmt ap l :
  cpu_ok s c -> c_noff c < 2 ^ 31 - 3 -> u_idle (k_uart s) = true ->
  k_panicking s = 0 -> k_panicked s = 0 -> lock_free s LkPr ->
  emits (printf_loop (length fmt) fmt 0 ap) l ->
  printf fmt ap (mkworld s e) = Ret 0 (mkworld (emit l (sync s)) e).
Proof.
  intros Hc Hn Hi Hpn Hpd Hl Hem. unfold printf. krun. rewrite Hpn. cbn [Z.eqb].
  kcall (acquire_eq s e c LkPr).
  kcall (Hem (lock_taken LkPr s) e (push_cpu c)).
  { pose proof Hc as (_ & ? & _). split; [apply cpu_ok_taken; [done | lia] |].
    split; [cbn; lia | done]. }
  krun. change (k_panicking (emit l (lock_taken LkPr s))) with (k_panicking s).
  rewrite Hpn. cbn [Z.eqb]. kcall (release_section s _ e c LkPr). done.
Qed.

Lemma emits_pct_s n fmt i o ap l :
  fmt !! i = Some 37 -> fmt !! (i + 1)%nat = Some 115 -> bytes256 (default (str "(null)") o) ->
  emits (printf_loop n fmt (i + 2) ap) l ->
  emits (printf_loop (S n) fmt i (PStr o :: ap)) (default (str "(null)") o ++ l).
Proof.
  intros Hc Hd Hb Hk. cbn [printf_loop]. cbv zeta.
  assert (fmt_at fmt i = 37) as -> by (unfold fmt_at; by rewrite Hc).
  assert (fmt_at fmt (i + 1) = 115) as -> by (unfold fmt_at; by rewrite Hd).
  cbn [Z.eqb negb Pos.eqb andb arg_str].
  apply emits_seq; [| done]. by apply emits_consputs.
Qed.

(** ** Reading a printed number back, most significant digit first *)
Definition parse_int (base : Z) (l : list Z) : Z :=
  match l with
  | 45 :: r => - digits_value base (rev r)
  | _ => digits_value base (rev l)
  end.

Lemma parse_digits base b :
  (forall c, c ∈ b -> c <> 45) -> parse_int base (rev b) = digits_value base b.
Proof.
  intros Hd. rewrite <- (rev_involutive b) at 2. unfold parse_int.
  destruct (rev b) as [| c r] eqn:Hr; [done |].
  assert (c <> 45) as Hc.
  { apply Hd, list_elem_of_In, in_rev. rewrite Hr. by left. }
  repeat (case_match; try done).
Qed.

Lemma parse_minus base b : parse_int base (rev (b ++ [45])) = - digits_value base b.
Proof. rewrite rev_app_distr. cbn. by rewrite rev_involutive. Qed.

Lemma digits_rev_not_minus base n x c : 2 <= base <= 16 -> c ∈ digits_rev n x base -> c <> 45.
Proof.
  intros Hb. revert x. induction n as [| n IH]; intros x Hc; [by apply not_elem_of_nil in Hc |].
  unfold digits_rev in Hc; fold digits_rev in Hc. apply elem_of_cons in Hc as [-> | Hc].
  - pose proof (Z.mod_pos_bound x base ltac:(lia)). unfold digit. destruct (x mod base <? 10); lia.
  - destruct (x / base =? 0); [by apply not_elem_of_nil in Hc | by apply (IH (x / base))].
Qed.

(** [printint] prints a 64-bit number correctly: in base 10 or 16 it sends at
    most 20 characters (the size of its buffer), and reading them back gives the
    value, as a signed number when [sign] is set and as the unsigned 64-bit value
    otherwise. *)
Theorem printint_roundtrip xx base sign s e c :
  base = 10 \/ base = 16 -> - 2 ^ 63 <= xx < 2 ^ 63 -> uart_ready s c ->
  exists l, printint xx base sign (mkworld s e) = Ret tt (mkworld (emit l s) e) /\
    (length l <= 20)%nat /\ parse_int base l = (if sign then xx else u64 xx).
Proof.
  intros Hb Hx Hr. exists (rev (printint_buf xx base sign)).
  split; [apply (emits_printint xx base sign Hb ltac:(lia) s e c Hr) |].
  split; [rewrite length_rev; apply (printint_buf_ok xx base sign); [done | lia] |].
  unfold printint_buf.
  assert (forall x, 0 <= x < 2 ^ 64 -> digits_value base (digits_rev 64 x base) = x) as Hv.
  { intros x Hx'. apply digits_rev_value; [lia |].
    split; [lia |]. apply (Z.lt_le_trans _ (2 ^ 64)); [lia |].
    by destruct Hb as [-> | ->]; vm_compute. }
  destruct (sign && (xx <? 0)) eqn:Hn.
  - apply andb_true_iff in Hn as [-> Hn%Z.ltb_lt]. rewrite parse_minus, Hv; [| apply u64_range].
    rewrite u64_small by lia. lia.
  - rewrite app_nil_r, parse_digits; [| intros ch; apply digits_rev_not_minus; lia].
    rewrite Hv; [| apply u64_range].
    destruct sign; [| done]. cbn [andb] in Hn. apply Z.ltb_ge in Hn. apply u64_small. lia.
Qed.

Lemma printint_roundtrip_witness :
  exists l, printint (- 42) 10 true (mkworld (lock_taken LkPr sample) []) =
      Ret tt (mkworld (emit l (lock_taken LkPr sample)) []) /\
    (length l <= 20)%nat /\ parse_int 10 l = - 42.
Proof.
  apply (printint_roundtrip (- 42) 10 true (lock_taken LkPr sample) [] (push_cpu sample_cpu)).
  - by left.
  - lia.
  - split; [apply cpu_ok_taken; [exact sample_cpu_ok | by vm_compute] |]. by vm_compute.
Defined.
