(* ===== verification/Console.v ===== *)
(** * The console device ([kernel/console.c], [kernel/uart.c], [procdump] of [kernel/proc.c])

    Input arrives by interrupt into a circular buffer edited in place
    ([consoleintr]); readers sleep until a line is complete ([consoleread]).
    The indices [cons_r <= cons_w <= cons_e] run free and are reduced modulo the
    buffer size when used. *)
From S2P Require Import Prelude Kstate Spinlock Mem Sample Sched Kalloc Vm Printf.
Local Open Scope Z_scope.

Section console.
Context `{Image}.

(** ** UART driver *)

(** [while(tx_busy != 0) sleep(&tx_chan, &tx_lock);]: each sleep consumes a step
    of the rest of the system. *)
Fixpoint uartwrite_wait (fuel : nat) : K unit :=
  match fuel with
  | O => hang
  | S n =>
      let! u := get k_uart in
      if istrue (tx_busy u) then sleep ChTx LkTx ;;; uartwrite_wait n else ret tt
  end.

Fixpoint uartwrite_loop (buf : list Z) : K unit :=
  match buf with
  | [] => ret tt
  | b :: r =>
      (fun w => uartwrite_wait (S (length (w_env w))) w) ;;;
      write_thr b ;;;
      put (fun s => s <| k_uart ::= fun u => u <| tx_busy := 1 |> |>) ;;;
      uartwrite_loop r
  end.

Definition uartwrite (buf : list Z) : K unit :=
  acquire LkTx ;;;
  uartwrite_loop buf ;;;
  release LkTx.

Definition uartgetc : K Z :=
  let! u := get k_uart in
  match u_in u with
  | [] => ret (-1)
  | b :: r => put (fun s => s <| k_uart ::= fun u => u <| u_in := r |> |>) ;;; ret b
  end.

(** ** Process listing *)
Definition state_name (st : procstate) : list Z :=
  match st with
  | UNUSED => str "unused" | USED => str "used" | SLEEPING => str "sleep "
  | RUNNABLE => str "runble" | RUNNING => str "run   " | ZOMBIE => str "zombie"
  end.
(** The C string at the start of [p->name]. *)
Fixpoint name_str (l : list Z) : list Z :=
  match l with
  | [] => []
  | c :: r => if c =? 0 then [] else c :: name_str r
  end.

Definition procdump : K unit :=
  printf [10] [] ;;;
  foreach all_procs (fun p =>
    let! pr := get_proc p in
    if bool_decide (p_state pr = UNUSED) then ret tt else
    printf (str "%d %s %s")
      [PInt (p_pid pr); PStr (Some (state_name (p_state pr))); PStr (Some (name_str (p_name pr)))] ;;;
    printf [10] [] ;;;
    ret tt).

(** ** Console input *)
Definition upd_cons (f : cons -> cons) : K unit := put (fun s => s <| k_cons ::= f |>).
Definition cons_at (c : cons) (i : Z) : Z := default 0 (cons_buf c !! Z.to_nat (i mod INPUT_BUF_SIZE)).

(** [while(cons.e != cons.w && cons.buf[(cons.e-1) % INPUT_BUF_SIZE] != '\n')]; the
    line has at most [INPUT_BUF_SIZE] characters. *)
Fixpoint kill_line (fuel : nat) : K unit :=
  match fuel with
  | O => ret tt
  | S n =>
      let! c := get k_cons in
      if negb (cons_e c =? cons_w c) && negb (cons_at c (u32 (cons_e c - 1)) =? 10) then
        upd_cons (fun c => c <| cons_e := u32 (cons_e c - 1) |>) ;;;
        consputc BACKSPACE ;;;
        kill_line n
      else ret tt
  end.

Definition consoleintr_key (c : Z) : K unit :=
  if c =? 16 then procdump
  else if c =? 21 then kill_line (Z.to_nat INPUT_BUF_SIZE)
  else if (c =? 8) || (c =? 127) then
    let! k := get k_cons in
    if negb (cons_e k =? cons_w k) then
      upd_cons (fun k => k <| cons_e := u32 (cons_e k - 1) |>) ;;;
      consputc BACKSPACE
    else ret tt
  else
    let! k := get k_cons in
    if negb (c =? 0) && (u32 (cons_e k - cons_r k) <? INPUT_BUF_SIZE) then
      let c := if c =? 13 then 10 else c in
      consputc c ;;;
      upd_cons (fun k => k <| cons_buf ::= <[Z.to_nat (cons_e k mod INPUT_BUF_SIZE) := u8 c]> |>
                           <| cons_e := u32 (cons_e k + 1) |>) ;;;
      let! k := get k_cons in
      if (c =? 10) || (c =? 4) || (u32 (cons_e k - cons_r k) =? INPUT_BUF_SIZE) then
        upd_cons (fun k => k <| cons_w := cons_e k |>) ;;;
        wakeup ChCons
      else ret tt
    else ret tt.

Definition consoleintr (c : Z) : K unit :=
  acquire LkCons ;;;
  consoleintr_key c ;;;
  release LkCons.

(** [while(1) { c = uartgetc(); if(c == -1) break; consoleintr(c); }]. *)
Fixpoint uartintr_input (fuel : nat) : K unit :=
  match fuel with
  | O => ret tt
  | S n =>
      let! c := uartgetc in
      if c =? -1 then ret tt else consoleintr c ;;; uartintr_input n
  end.

Definition uartintr : K unit :=
  acquire LkTx ;;;
  let! u := get k_uart in
  (if u_idle u then
     put (fun s => s <| k_uart ::= fun u => u <| tx_busy := 0 |> |>) ;;;
     wakeup ChTx
   else ret tt) ;;;
  release LkTx ;;;
  let! u := get k_uart in
  uartintr_input (S (length (u_in u))).

(** ** Reading and writing *)

(** [while(i < n)] of [consolewrite], 32 bytes at a time. *)
Fixpoint consolewrite_loop (fuel : nat) (src : ksrc) (i n : Z) : K Z :=
  match fuel with
  | O => ret i
  | S k =>
      if i <? n then
        let nn := Z.min 32 (n - i) in
        let! r := either_copyin (ksrc_add src i) nn in
        if fst r =? -1 then ret i else
        uartwrite (snd r) ;;;
        consolewrite_loop k src (i + nn) n
      else ret i
  end.
Definition consolewrite (src : ksrc) (n : Z) : K Z :=
  consolewrite_loop (Z.to_nat n) src 0 n.

(** [while(cons.r == cons.w)]: [false] when the reader was killed; the lock is
    then released. *)
Fixpoint consoleread_wait (fuel : nat) : K bool :=
  match fuel with
  | O => hang
  | S k =>
      let! c := get k_cons in
      if cons_r c =? cons_w c then
        let! p := curproc in
        let! kl := killed p in
        if istrue kl then release LkCons ;;; ret false
        else sleep ChCons LkCons ;;; consoleread_wait k
      else ret true
  end.

(** [while(n > 0)]; the result is the value of [n] at the end, [None] when the
    call already returned -1. *)
Fixpoint consoleread_loop (fuel : nat) (dst : kdst) (n target : Z) : K (option Z) :=
  match fuel with
  | O => ret (Some n)
  | S k =>
      if n <=? 0 then ret (Some n) else
      let! ok := (fun w => consoleread_wait (S (length (w_env w))) w) in
      if negb ok then ret None else
      let! cn := get k_cons in
      let c := cons_at cn (cons_r cn) in
      upd_cons (fun k => k <| cons_r := u32 (cons_r k + 1) |>) ;;;
      if c =? 4 then
        (if n <? target then upd_cons (fun k => k <| cons_r := u32 (cons_r k - 1) |>) else ret tt) ;;;
        ret (Some n)
      else
        let! r := either_copyout dst [c] in
        if r =? -1 then ret (Some n) else
        if c =? 10 then ret (Some (n - 1))
        else consoleread_loop k (kdst_add dst 1) (n - 1) target
  end.

Definition consoleread (dst : kdst) (n : Z) : K Z :=
  let target := u32 n in
  acquire LkCons ;;;
  let! r := consoleread_loop (Z.to_nat n) dst n target in
  match r with
  | None => ret (-1)
  | Some n' => release LkCons ;;; ret (s32 (target - n'))
  end.
(** ** The input buffer as two lists *)

(** [n] bytes of a ring of 128 from index [a] on. *)
Definition ring (l : list Z) (a : Z) (n : nat) : list Z :=
  (fun k => default 0 (l !! Z.to_nat ((a + Z.of_nat k) mod INPUT_BUF_SIZE))) <$> seq 0 n.

Lemma ring_length l a n : length (ring l a n) = n.
Proof. unfold ring. by rewrite length_fmap, length_seq. Qed.

Lemma ring_S l a n : ring l a (S n) = ring l a n ++ [default 0 (l !! Z.to_nat ((a + Z.of_nat n) mod INPUT_BUF_SIZE))].
Proof. unfold ring. by rewrite seq_S, fmap_app. Qed.

Lemma ring_push l a n v :
  length l = 128%nat -> 0 <= a -> (n < 128)%nat ->
  ring (<[Z.to_nat ((a + Z.of_nat n) mod INPUT_BUF_SIZE) := v]> l) a (S n) = ring l a n ++ [v].
Proof.
  intros Hl Ha Hn. unfold INPUT_BUF_SIZE. rewrite ring_S. f_equal.
  - apply list_fmap_ext. intros i k [-> Hi]%lookup_seq. unfold INPUT_BUF_SIZE.
    rewrite list_lookup_insert_ne; [done |]. Z.div_mod_to_equations. lia.
  - unfold INPUT_BUF_SIZE. rewrite list_lookup_insert_eq; [done |]. rewrite Hl. Z.div_mod_to_equations. lia.
Qed.

Definition cons_used (k : cons) : Z := u32 (cons_e k - cons_r k).
Definition cons_done (k : cons) : Z := u32 (cons_w k - cons_r k).
Definition cons_all (k : cons) : list Z := ring (cons_buf k) (cons_r k) (Z.to_nat (cons_used k)).
(** Finished input, and the line being edited. *)
Definition committed (k : cons) : list Z := take (Z.to_nat (cons_done k)) (cons_all k).
Definition pending (k : cons) : list Z := drop (Z.to_nat (cons_done k)) (cons_all k).

Record cons_ok (k : cons) : Prop := {
  co_len : length (cons_buf k) = 128%nat;
  co_r : 0 <= cons_r k < 2 ^ 32;
  co_w : 0 <= cons_w k < 2 ^ 32;
  co_e : 0 <= cons_e k < 2 ^ 32;
  co_order : cons_done k <= cons_used k <= INPUT_BUF_SIZE;
  co_line : Forall (fun c => c <> 10) (pending k)
}.

(** What a key does to the two lists. *)
Definition edit (c : Z) (v : list Z * list Z) : list Z * list Z :=
  let '(com, pen) := v in
  if c =? 21 then (com, [])
  else if (c =? 8) || (c =? 127) then (com, removelast pen)
  else if negb (c =? 0) && (Z.of_nat (length com + length pen) <? INPUT_BUF_SIZE) then
    let c := if c =? 13 then 10 else c in
    if (c =? 10) || (c =? 4) || (Z.of_nat (length com + length pen) + 1 =? INPUT_BUF_SIZE)
    then (com ++ pen ++ [c], []) else (com, pen ++ [c])
  else (com, pen).

(** Whether the key ends a line and so wakes the readers. *)
Definition ends_line (c : Z) (v : list Z * list Z) : bool :=
  let n := Z.of_nat (length (fst v) + length (snd v)) in
  negb ((c =? 21) || (c =? 8) || (c =? 127)) && negb (c =? 0) && (n <? INPUT_BUF_SIZE) &&
  ((c =? 10) || (c =? 13) || (c =? 4) || (n + 1 =? INPUT_BUF_SIZE)).

Lemma cons_all_length k : length (cons_all k) = Z.to_nat (cons_used k).
Proof. apply ring_length. Qed.

Lemma cons_lengths k : cons_ok k -> Z.of_nat (length (committed k) + length (pending k)) = cons_used k.
Proof.
  intros Hk. unfold committed, pending. rewrite length_take, length_drop, cons_all_length.
  pose proof (u32_range (cons_e k - cons_r k)). unfold cons_used in *. lia.
Qed.

Lemma emits_backspace : emits (consputc BACKSPACE) [8; 32; 8].
Proof.
  unfold consputc. rewrite Z.eqb_refl.
  apply (emits_seq _ [8]); [apply (emits_putc_sync 8) |].
  apply (emits_seq _ [32]); [apply (emits_putc_sync 32) | apply (emits_putc_sync 8)].
Qed.

(** *** Erasing *)
Definition erase (k : cons) : cons := k <| cons_e := u32 (cons_e k - 1) |>.

Lemma cons_at_last k : cons_ok k -> cons_e k <> cons_w k ->
  exists p, pending k = p ++ [cons_at k (u32 (cons_e k - 1))] /\
    pending (erase k) = p /\ committed (erase k) = committed k /\ cons_ok (erase k).
Proof.
  intros Hk Hne. destruct Hk as [Hl Hr Hw He Ho Hline].
  assert (cons_done (erase k) = cons_done k) as Hd by done.
  assert (cons_used k = cons_used (erase k) + 1 /\ cons_done k <= cons_used (erase k)) as [Hu Hdu].
  { unfold cons_done, cons_used, erase, u32, INPUT_BUF_SIZE in *. cbn. Z.div_mod_to_equations. lia. }
  assert (cons_all k = cons_all (erase k) ++ [cons_at k (u32 (cons_e k - 1))]) as Hall.
  { assert (0 <= cons_used (erase k)) by apply u32_range.
    unfold cons_all. rewrite Hu, Z2Nat.inj_add, Nat.add_1_r, ring_S by lia.
    change (cons_buf (erase k)) with (cons_buf k). change (cons_r (erase k)) with (cons_r k).
    do 2 f_equal. unfold cons_at. do 3 f_equal. rewrite Z2Nat.id by lia.
    change (cons_used (erase k)) with (u32 (u32 (cons_e k - 1) - cons_r k)).
    generalize (u32_range (cons_e k - 1)). generalize (u32 (cons_e k - 1)). intros a Ha.
    unfold u32, INPUT_BUF_SIZE. Z.div_mod_to_equations. lia. }
  assert (Z.to_nat (cons_done k) <= length (cons_all (erase k)))%nat as Hlen by (rewrite cons_all_length; lia).
  assert (pending k = pending (erase k) ++ [cons_at k (u32 (cons_e k - 1))]) as Hp.
  { unfold pending. rewrite Hall, Hd, drop_app_le by done. done. }
  exists (pending (erase k)). split; [exact Hp |]. split; [done |]. split.
  - unfold committed. by rewrite Hall, Hd, take_app_le.
  - split; try done.
    + apply u32_range.
    + lia.
    + rewrite Hp in Hline. by apply Forall_app in Hline as [? _].
Qed.
(** *** Typing *)
Definition typed (c : Z) (k : cons) : cons :=
  k <| cons_buf ::= <[Z.to_nat (cons_e k mod INPUT_BUF_SIZE) := u8 c]> |> <| cons_e := u32 (cons_e k + 1) |>.
Definition finish (k : cons) : cons := k <| cons_w := cons_e k |>.

Lemma typed_all c k : cons_ok k -> cons_used k < INPUT_BUF_SIZE -> 0 <= c < 256 ->
  cons_all (typed c k) = cons_all k ++ [c] /\ cons_used (typed c k) = cons_used k + 1 /\
  cons_done (typed c k) = cons_done k.
Proof.
  intros Hk Hu Hc. destruct Hk as [Hl Hr Hw He Ho _].
  assert (0 <= cons_used k) as Hu0 by apply u32_range.
  assert (cons_used (typed c k) = cons_used k + 1) as Hu1.
  { unfold cons_used, typed, u32, INPUT_BUF_SIZE in *. cbn. Z.div_mod_to_equations. lia. }
  split; [| done]. unfold cons_all. rewrite Hu1, Z2Nat.inj_add, Nat.add_1_r by lia.
  change (cons_r (typed c k)) with (cons_r k).
  change (cons_buf (typed c k)) with (<[Z.to_nat (cons_e k mod INPUT_BUF_SIZE) := u8 c]> (cons_buf k)).
  rewrite u8_small by lia.
  assert (cons_e k mod INPUT_BUF_SIZE = (cons_r k + Z.of_nat (Z.to_nat (cons_used k))) mod INPUT_BUF_SIZE) as ->.
  { rewrite Z2Nat.id by lia. unfold cons_used, u32, INPUT_BUF_SIZE. Z.div_mod_to_equations. lia. }
  apply ring_push; [done | lia | unfold INPUT_BUF_SIZE in Hu; lia].
Qed.

Lemma typed_line c k : cons_ok k -> cons_used k < INPUT_BUF_SIZE -> 0 <= c < 256 -> c <> 10 ->
  committed (typed c k) = committed k /\ pending (typed c k) = pending k ++ [c] /\ cons_ok (typed c k).
Proof.
  intros Hk Hu Hc Hne. destruct (typed_all c k Hk Hu Hc) as (Ha & Hu1 & Hd).
  assert (Z.to_nat (cons_done k) <= length (cons_all k))%nat as Hlen
    by (rewrite cons_all_length; destruct Hk; lia).
  assert (pending (typed c k) = pending k ++ [c]) as Hp.
  { unfold pending. by rewrite Ha, Hd, drop_app_le. }
  split; [unfold committed; by rewrite Ha, Hd, take_app_le |]. split; [exact Hp |].
  destruct Hk as [Hl Hr Hw He Ho Hline]. split; try done.
  - cbn. by rewrite length_insert.
  - apply u32_range.
  - rewrite Hu1, Hd. lia.
  - rewrite Hp. apply Forall_app. split; [done | by constructor].
Qed.

Lemma finish_line c k : cons_ok k -> cons_used k < INPUT_BUF_SIZE -> 0 <= c < 256 ->
  committed (finish (typed c k)) = committed k ++ pending k ++ [c] /\
  pending (finish (typed c k)) = [] /\ cons_ok (finish (typed c k)).
Proof.
  intros Hk Hu Hc. destruct (typed_all c k Hk Hu Hc) as (Ha & Hu1 & Hd).
  assert (cons_done (finish (typed c k)) = cons_used (typed c k)) as Hf by done.
  assert (cons_all (finish (typed c k)) = cons_all (typed c k)) as Hfa by done.
  assert (pending (finish (typed c k)) = []) as Hp.
  { unfold pending. apply drop_ge. rewrite Hf, Hfa, cons_all_length. done. }
  split; [| split; [exact Hp |]].
  - unfold committed at 1. rewrite Hf, Hfa, take_ge by (by rewrite cons_all_length).
    rewrite Ha, app_assoc. f_equal. unfold committed, pending. by rewrite take_drop.
  - destruct Hk as [Hl Hr Hw He Ho Hline]. split; try done.
    + cbn. by rewrite length_insert.
    + apply u32_range.
    + apply u32_range.
    + rewrite Hf. change (cons_used (finish (typed c k))) with (cons_used (typed c k)). rewrite Hu1. lia.
    + by rewrite Hp.
Qed.

(** *** The key handler *)
Definition key_state (k : cons) (out : list Z) (s : kstate) : kstate := (emit out s) <| k_cons := k |>.

Lemma key_state_twice k k' o o' s : key_state k' o' (key_state k o s) = key_state k' (o ++ o') s.
Proof. unfold key_state, emit, upd. cbn. by rewrite app_assoc. Qed.
Lemma key_state_id s : key_state (k_cons s) [] s = s.
Proof. unfold key_state. rewrite emit_nil. by destruct s. Qed.

Lemma erase_eq s e c :
  uart_ready s c ->
  (upd_cons (fun k => k <| cons_e := u32 (cons_e k - 1) |>) ;;; consputc BACKSPACE) (mkworld s e) =
    Ret tt (mkworld (key_state (erase (k_cons s)) [8; 32; 8] s) e).
Proof. intros Hu. unfold upd_cons. krun. by rewrite (emits_backspace _ e c). Qed.

Lemma kill_line_eq n : forall s e c,
  uart_ready s c -> cons_ok (k_cons s) -> (length (pending (k_cons s)) <= n)%nat ->
  exists k o, kill_line n (mkworld s e) = Ret tt (mkworld (key_state k o s) e) /\
    committed k = committed (k_cons s) /\ pending k = [] /\ cons_ok k.
Proof.
  induction n as [| n IH]; intros s e c Hu Hk Hlen.
  { exists (k_cons s), []. rewrite key_state_id. split; [done |].
    destruct (pending (k_cons s)); [done | cbn in Hlen; lia]. }
  cbn [kill_line]. krun. destruct (Z.eqb_spec (cons_e (k_cons s)) (cons_w (k_cons s))) as [He | He]; cbn [negb andb].
  { exists (k_cons s), []. rewrite key_state_id. split; [done |]. split; [done |]. split; [| done].
    unfold pending. apply drop_ge. rewrite cons_all_length. unfold cons_used, cons_done. by rewrite He. }
  destruct (cons_at_last (k_cons s) Hk He) as (p & Hp & Hpe & Hce & Hoe).
  assert (cons_at (k_cons s) (u32 (cons_e (k_cons s) - 1)) <> 10) as Hne%Z.eqb_neq.
  { pose proof (co_line _ Hk) as Hl. rewrite Hp in Hl. apply Forall_app in Hl as [_ Hl].
    by apply Forall_cons in Hl as [? _]. }
  rewrite Hne. cbn [negb]. rewrite <- bind_assoc.
  rewrite (bind_ret _ _ _ _ _ (erase_eq s e c Hu)).
  destruct (IH (key_state (erase (k_cons s)) [8; 32; 8] s) e c) as (k & o & Heq & Hc & Hpk & Hok).
  - exact Hu.
  - exact Hoe.
  - change (k_cons (key_state (erase (k_cons s)) [8; 32; 8] s)) with (erase (k_cons s)).
    rewrite Hpe. rewrite Hp, length_app in Hlen. cbn in Hlen. lia.
  - exists k, ([8; 32; 8] ++ o). rewrite Heq, key_state_twice. split; [done |].
    change (k_cons (key_state (erase (k_cons s)) [8; 32; 8] s)) with (erase (k_cons s)) in Hc.
    by rewrite Hc, Hce.
Qed.
Definition view (k : cons) : list Z * list Z := (committed k, pending k).

(** The key handler, run with [cons.lock] held: buffer, echo and wakeup. *)
Lemma consoleintr_key_eq s e c ch :
  uart_ready s c -> procs_free s (c_proc c) -> cons_ok (k_cons s) -> 0 <= ch < 256 -> ch <> 16 ->
  let v := view (k_cons s) in
  exists k o, consoleintr_key ch (mkworld s e) =
      Ret tt (mkworld (if ends_line ch v then (key_state k o s) <| k_procs ::= wake_all ChCons (c_proc c) |>
                       else key_state k o s) e) /\
    cons_ok k /\ view k = edit ch v.
Proof.
  intros Hu Hf Hk Hch H16 v. pose proof (cons_lengths _ Hk) as Hlen.
  assert (0 <= cons_used (k_cons s)) as Hu0 by apply u32_range.
  unfold consoleintr_key, ends_line, edit, v, view. cbn [fst snd]. rewrite Hlen.
  rewrite (proj2 (Z.eqb_neq ch 16) H16).
  destruct (Z.eqb_spec ch 21) as [-> | H21]; cbn [orb negb andb].
  { destruct (kill_line_eq (Z.to_nat INPUT_BUF_SIZE) s e c Hu Hk) as (k & o & Heq & Hc & Hp & Hok).
    { pose proof (co_order _ Hk). unfold INPUT_BUF_SIZE in *. lia. }
    exists k, o. by rewrite Hc, Hp. }
  destruct ((ch =? 8) || (ch =? 127)) eqn:Hbs; cbn [negb andb]; krun.
  { destruct (Z.eqb_spec (cons_e (k_cons s)) (cons_w (k_cons s))) as [He | He]; cbn [negb].
    - exists (k_cons s), []. rewrite key_state_id. split; [done |]. split; [done |].
      assert (pending (k_cons s) = []) as ->; [| done].
      unfold pending. apply drop_ge. rewrite cons_all_length. unfold cons_used, cons_done. by rewrite He.
    - destruct (cons_at_last (k_cons s) Hk He) as (p & Hp & Hpe & Hce & Hoe).
      exists (erase (k_cons s)), [8; 32; 8]. split; [by apply (erase_eq s e c) |]. split; [done |].
      by rewrite Hce, Hpe, Hp, removelast_last. }
  change (u32 (cons_e (k_cons s) - cons_r (k_cons s))) with (cons_used (k_cons s)).
  destruct (negb (ch =? 0) && (cons_used (k_cons s) <? INPUT_BUF_SIZE)) eqn:Hroom; cbn [andb].
  2:{ exists (k_cons s), []. by rewrite key_state_id. }
  apply andb_true_iff in Hroom as [_ Hroom%Z.ltb_lt].
  assert (((ch =? 10) || (ch =? 13) || (ch =? 4)) = (((if ch =? 13 then 10 else ch) =? 10) || ((if ch =? 13 then 10 else ch) =? 4))) as ->.
  { destruct (Z.eqb_spec ch 13) as [-> |]; [done |]. by rewrite orb_false_r. }
  set (c' := if ch =? 13 then 10 else ch).
  assert (0 <= c' < 256) as Hc' by (unfold c'; destruct (ch =? 13); lia).
  destruct (typed_all c' (k_cons s) Hk Hroom Hc') as (_ & Hu1 & _).
  assert (consputc c' (mkworld s e) = Ret tt (mkworld (emit [u8 c'] s) e)) as Hput.
  { apply (emits_consputc c') with (c := c); [unfold BACKSPACE; lia | done]. }
  rewrite (bind_ret _ _ _ _ _ Hput). unfold upd_cons. krun.
  change ((emit [u8 c'] s) <| k_cons ::= _ |>) with (key_state (typed c' (k_cons s)) [u8 c'] s).
  change (u32 (cons_e (k_cons (key_state (typed c' (k_cons s)) [u8 c'] s)) -
               cons_r (k_cons (key_state (typed c' (k_cons s)) [u8 c'] s))))
    with (cons_used (typed c' (k_cons s))). rewrite Hu1.
  destruct ((c' =? 10) || (c' =? 4) || (cons_used (k_cons s) + 1 =? INPUT_BUF_SIZE)) eqn:Hend.
  - krun. destruct (finish_line c' (k_cons s) Hk Hroom Hc') as (Hc & Hp & Hok).
    exists (finish (typed c' (k_cons s))), [u8 c']. split; [| by rewrite Hc, Hp].
    destruct Hu as (Hcpu & Hn & _). pose proof Hcpu as (Hcl & _).
    rewrite (wakeup_eq _ e c ChCons); [| exact Hcpu | exact Hf].
    rewrite (sync_nested _ c); [done | exact Hcl | lia].
  - destruct (typed_line c' (k_cons s) Hk Hroom Hc') as (Hc & Hp & Hok).
    { apply orb_false_iff in Hend as [[?%Z.eqb_neq _]%orb_false_iff _]. done. }
    exists (typed c' (k_cons s)), [u8 c']. split; [done |]. by rewrite Hc, Hp.
Qed.

(** ** Properties *)

(** C16: The console's line discipline.  [consoleintr] refines editing of a line: an
    ordinary key is appended to the unfinished line (a carriage return as a newline)
    unless 128 characters are waiting, backspace and delete remove its last character,
    control-U all of it, and a newline, control-D or a full buffer hands the line to
    the readers and wakes them; finished input is never altered. *)
Theorem consoleintr_edits s e c ch :
  cpu_ok s c -> c_noff c < 2 ^ 31 - 4 -> lock_free s LkCons -> procs_free s (c_proc c) ->
  u_idle (k_uart s) = true -> k_panicking s = 0 -> k_panicked s = 0 ->
  cons_ok (k_cons s) -> 0 <= ch < 256 -> ch <> 16 ->
  let v := view (k_cons s) in
  exists s', consoleintr ch (mkworld s e) = Ret tt (mkworld s' e) /\
    cons_ok (k_cons s') /\ view (k_cons s') = edit ch v /\
    k_procs s' = (if ends_line ch v then wake_all ChCons (c_proc c) (k_procs s) else k_procs s) /\
    k_locks s' = k_locks s.
Proof.
  intros Hc Hn Hl Hf Hi Hpn Hpd Hk Hch H16 v. pose proof Hc as (_ & ? & _). unfold consoleintr.
  destruct (consoleintr_key_eq (lock_taken LkCons s) e (push_cpu c) ch) as (k & o & Heq & Hok & Hv);
    [| by apply (procs_free_taken s LkCons) | done | done | done |].
  { split; [apply cpu_ok_taken; [done | lia] |]. split; [cbn; lia | done]. }
  change (k_cons (lock_taken LkCons s)) with (k_cons s) in *. fold v in Heq, Hv.
  destruct (ends_line ch v) eqn:Hends;
    (eexists; split; [kcall (acquire_eq s e c LkCons);
       rewrite (bind_ret _ _ _ _ _ Heq); by rewrite (release_section s _ e c LkCons) |]); done.
Qed.
End console.

(** ** Examples *)
(** Two characters typed so far. *)
Definition sample_typing : kstate :=
  sample <| k_cons := mkcons ([104; 105] ++ replicate 126 0) 0 0 2 |>.

Lemma consoleintr_edits_witness :
  exists s', consoleintr 13 (mkworld sample_typing []) = Ret tt (mkworld s' []) /\
    cons_ok (k_cons s') /\ view (k_cons s') = ([104; 105; 10], []) /\
    k_procs s' = wake_all ChCons (Some 3%nat) (k_procs sample_typing) /\
    k_locks s' = k_locks sample_typing.
Proof.
  apply (consoleintr_edits sample_typing [] sample_cpu 13); try reflexivity.
  - exact sample_cpu_ok.
  - apply lock_free_dec. by vm_compute.
  - apply sample_procs_free.
  - split; try (by vm_compute). change (pending (k_cons sample_typing)) with [104; 105].
    repeat constructor; lia.
  - lia.
  - lia.
Defined.
