(* ===== verification/Sleeplock.v ===== *)
(** * Sleep locks ([kernel/sleeplock.c])

    A sleep lock is a flag and an owner guarded by a spin lock; a waiter sleeps
    on the lock's own address. *)
From S2P Require Import Prelude Kstate Spinlock Mem Sample Sched.
Local Open Scope Z_scope.

(** ** The code *)
Definition zero_slock : sleeplock := mksleeplock false "" 0.
Definition slock_of (s : kstate) (l : slockid) : sleeplock := default zero_slock (k_slocks s !! l).
Definition upd_slock (l : slockid) (f : sleeplock -> sleeplock) : K unit :=
  put (fun s => s <| k_slocks ::= <[l := f (slock_of s l)]> |>).

Definition initsleeplock (l : slockid) (name : string) : K unit :=
  initlock (LkSleep l) "sleep lock" ;;;
  upd_slock l (fun k => k <| sl_name := name |>) ;;;
  upd_slock l (fun k => k <| sl_locked := false |>) ;;;
  upd_slock l (fun k => k <| sl_pid := 0 |>).

(** [while (lk->locked) sleep(lk, &lk->lk);]. *)
Fixpoint acquiresleep_wait (fuel : nat) (l : slockid) : K unit :=
  match fuel with
  | O => hang
  | S n =>
      let! k := get (fun s => slock_of s l) in
      if sl_locked k then sleep (ChSleep l) (LkSleep l) ;;; acquiresleep_wait n l else ret tt
  end.

Definition acquiresleep (l : slockid) : K unit :=
  acquire (LkSleep l) ;;;
  (fun w => acquiresleep_wait (S (length (w_env w))) l w) ;;;
  upd_slock l (fun k => k <| sl_locked := true |>) ;;;
  let! p := curproc in
  let! pr := get_proc p in
  upd_slock l (fun k => k <| sl_pid := p_pid pr |>) ;;;
  release (LkSleep l).

Definition releasesleep (l : slockid) : K unit :=
  acquire (LkSleep l) ;;;
  upd_slock l (fun k => k <| sl_locked := false |>) ;;;
  upd_slock l (fun k => k <| sl_pid := 0 |>) ;;;
  wakeup (ChSleep l) ;;;
  release (LkSleep l).

(** [myproc()->pid] is read only when the lock is held. *)
Definition holdingsleep (l : slockid) : K bool :=
  acquire (LkSleep l) ;;;
  let! k := get (fun s => slock_of s l) in
  let! r := (if sl_locked k then
               let! p := curproc in
               let! pr := get_proc p in
               ret (sl_pid k =? p_pid pr)
             else ret false) in
  release (LkSleep l) ;;;
  ret r.

(** ** Lemmas *)
Definition slock_held (s : kstate) (l : slockid) : bool := sl_locked (slock_of s l).
(** The lock after [acquiresleep] by process [pid] and after [releasesleep]. *)
Definition slock_taken (l : slockid) (pid : Z) (s : kstate) : kstate :=
  s <| k_slocks ::= <[l := (slock_of s l) <| sl_locked := true |> <| sl_pid := pid |>]> |>.
Definition slock_freed (l : slockid) (s : kstate) : kstate :=
  s <| k_slocks ::= <[l := (slock_of s l) <| sl_locked := false |> <| sl_pid := 0 |>]> |>.

Lemma slock_of_set s l k : slock_of (s <| k_slocks ::= <[l := k]> |>) l = k.
Proof. unfold slock_of. cbn. by rewrite lookup_insert_eq. Qed.

Lemma upd_slock_twice s l f g :
  (s <| k_slocks ::= <[l := f (slock_of s l)]> |>)
    <| k_slocks ::= <[l := g (slock_of (s <| k_slocks ::= <[l := f (slock_of s l)]> |>) l)]> |> =
  s <| k_slocks ::= <[l := g (f (slock_of s l))]> |>.
Proof. rewrite slock_of_set. upd_eq. by rewrite insert_insert_eq. Qed.

Lemma acquiresleep_wait_until n l w :
  acquiresleep_wait n l w = wait_until n (fun s => negb (slock_held s l)) (ChSleep l) (LkSleep l) w.
Proof.
  revert w. induction n as [| n IH]; intros [s e]; [done |]. cbn [acquiresleep_wait wait_until]. krun.
  unfold slock_held. destruct (sl_locked (slock_of s l)); [by apply bind_cong | done].
Qed.

(** The end of [acquiresleep], in the section of the inner lock. *)
Lemma acquiresleep_finish s e p pr l :
  in_section s p (LkSleep l) -> k_procs s !! p = Some pr ->
  (upd_slock l (fun k => k <| sl_locked := true |>) ;;;
   let! p := curproc in
   let! pr := get_proc p in
   upd_slock l (fun k => k <| sl_pid := p_pid pr |>) ;;;
   release (LkSleep l)) (mkworld s e) =
  Ret tt (mkworld (lock_freed (LkSleep l) (slock_taken l (p_pid pr) s)) e).
Proof.
  intros Hin Hpr. unfold upd_slock. rewrite bind_put.
  kcall (curproc_section _ p (LkSleep l)). kcall (get_proc_eq _ e p pr). rewrite bind_put, upd_slock_twice.
  exact (release_in_section (slock_taken l (p_pid pr) s) p (LkSleep l) e Hin).
Qed.

(** Taking a free sleep lock. *)
Lemma acquiresleep_free_eq s e c p pr l :
  running s p c -> c_noff c < 2 ^ 31 - 2 -> k_procs s !! p = Some pr -> lock_free s (LkSleep l) ->
  slock_held s l = false ->
  acquiresleep l (mkworld s e) = Ret tt (mkworld (slock_taken l (p_pid pr) (sync s)) e).
Proof.
  intros Hr Hn Hpr Hl Hh. pose proof Hr as (Hc & Hp & _). pose proof Hc as (Hcl & ? & _). unfold acquiresleep.
  kcall (acquire_eq s e c (LkSleep l)).
  erewrite bind_ret by (cbn [w_env acquiresleep_wait]; krun; unfold slock_held, slock_of in *; cbn; by rewrite Hh).
  unfold upd_slock. rewrite bind_put.
  kcall (curproc_eq _ e (push_cpu c) p). { apply (cpu_ok_taken s c (LkSleep l) Hc). lia. }
  rewrite (sync_nested _ (push_cpu c)); [| by apply (on_cpu_lookup push_cpu s c) | cbn; lia].
  kcall (get_proc_eq _ e p pr). rewrite bind_put, upd_slock_twice.
  by rewrite (release_section s _ e c (LkSleep l)).
Qed.

Lemma holdingsleep_eq s e c p pr l :
  running s p c -> c_noff c < 2 ^ 31 - 2 -> k_procs s !! p = Some pr -> lock_free s (LkSleep l) ->
  holdingsleep l (mkworld s e) =
    Ret (slock_held s l && (sl_pid (slock_of s l) =? p_pid pr)) (mkworld (sync s) e).
Proof.
  intros Hr Hn Hpr Hl. pose proof Hr as (Hc & Hp & _). pose proof Hc as (Hcl & ? & _). unfold holdingsleep.
  kcall (acquire_eq s e c (LkSleep l)). krun.
  change (slock_of (lock_taken (LkSleep l) s) l) with (slock_of s l). unfold slock_held.
  destruct (sl_locked (slock_of s l)); krun.
  - kcall (curproc_eq (lock_taken (LkSleep l) s) e (push_cpu c) p). { by apply cpu_ok_taken. }
    rewrite (sync_nested _ (push_cpu c)); [| by apply (on_cpu_lookup push_cpu s c) | cbn; lia].
    krun. kcall (get_proc_eq _ e p pr). krun. kcall (release_section s _ e c (LkSleep l)). done.
  - kcall (release_section s _ e c (LkSleep l)). done.
Qed.

Lemma releasesleep_eq s e c l :
  cpu_ok s c -> c_noff c < 2 ^ 31 - 2 -> procs_free s (c_proc c) -> lock_free s (LkSleep l) ->
  releasesleep l (mkworld s e) =
    Ret tt (mkworld ((slock_freed l (sync s)) <| k_procs ::= wake_all (ChSleep l) (c_proc c) |>) e).
Proof.
  intros Hc Hn Hf Hl. pose proof Hc as (Hcl & ? & _). unfold releasesleep, upd_slock.
  kcall (acquire_eq s e c (LkSleep l)). rewrite !bind_put, upd_slock_twice.
  by rewrite (wakeup_release s _ e c (ChSleep l) (LkSleep l)).
Qed.

(** ** Properties *)

(** [acquiresleep] returns with the lock: once the lock is free (now, or after
    some step of the system that resumes the waiting process) the caller comes back
    with the lock marked held by its pid and the inner spin lock free. *)
Theorem acquiresleep_takes s e c p pr l :
  running s p c -> c_noff c = 0 -> lock_free s (LkSleep l) -> lock_free s (LkProc p) ->
  k_procs s !! p = Some pr ->
  Forall (fun f => forall s, p_pid <$> k_procs (f s) !! p = Some (p_pid pr)) e ->
  Forall (resumes p (LkSleep l)) e ->
  Exists (fun f => forall s, slock_held (f s) l = false) e \/ slock_held s l = false ->
  exists s1 e1, acquiresleep l (mkworld s e) = Ret tt (mkworld s1 e1) /\
    slock_held s1 l = true /\ sl_pid (slock_of s1 l) = p_pid pr /\ lock_free s1 (LkSleep l).
Proof.
  intros Hr Hn Hl Hlp Hpr Hpid Hre Hex. pose proof Hr as (Hc & _). unfold acquiresleep.
  destruct (wait_until_ends (fun s => negb (slock_held s l)) (ChSleep l) (LkSleep l) p) with
    (e := e) (s := lock_taken (LkSleep l) s) (n := S (length e)) as (s1 & e1 & Hw & Hin & Hok & Hor);
    [done | done | lia | by apply (in_section_taken s p c (LkSleep l) pr) | done | |].
  { destruct Hex as [Hex | Hex]; [left | right; by rewrite negb_true_iff].
    eapply Exists_impl; [exact Hex |]. intros f Hf s'. by rewrite negb_true_iff. }
  assert (exists pr1, k_procs s1 !! p = Some pr1 /\ p_pid pr1 = p_pid pr) as (pr1 & Hpr1 & Hpid1).
  { destruct Hor as [[-> _] | (f & s0 & i & Hf & ->)]; [by exists pr |].
    rewrite Forall_forall in Hpid. specialize (Hpid f Hf s0).
    apply fmap_Some in Hpid as (q & Hq & Hqp). exists (q <| p_chan := None |>). cbn.
    by rewrite list_lookup_alter_eq, Hq. }
  rewrite <- Hpid1. eexists _, e1. split.
  - kcall (acquire_eq s e c (LkSleep l)).
    cbn [w_env]. kcall (eq_trans (acquiresleep_wait_until _ _ _) Hw).
    by apply (acquiresleep_finish s1 e1 p pr1).
  - unfold slock_held, slock_of, lock_freed. cbn. rewrite lookup_insert_eq. split; [done |]. split; [done |].
    eexists. cbn. by rewrite lookup_insert_eq.
Qed.

(** [releasesleep] gives the lock up: afterwards it is free, no process is told it
    holds it, and every process waiting for it is runnable. *)
Theorem releasesleep_wakes s e c p pr l :
  running s p c -> c_noff c < 2 ^ 31 - 2 -> k_procs s !! p = Some pr ->
  procs_free s (Some p) -> lock_free s (LkSleep l) ->
  exists s', releasesleep l (mkworld s e) = Ret tt (mkworld s' e) /\ slock_held s' l = false /\
    holdingsleep l (mkworld s' e) = Ret false (mkworld s' e) /\
    (forall l', l' <> l -> slock_of s' l' = slock_of s l') /\
    k_procs s' = wake_all (ChSleep l) (Some p) (k_procs s).
Proof.
  intros Hr Hn Hpr Hf Hl. pose proof Hr as (Hc & Hp & Hlt). eexists.
  split; [apply (releasesleep_eq s e c l); try done; by rewrite Hp |]. rewrite Hp.
  assert (slock_held ((slock_freed l (sync s)) <| k_procs ::= wake_all (ChSleep l) (Some p) |>) l = false) as Hh.
  { unfold slock_held, slock_of. cbn. by rewrite lookup_insert_eq. }
  split; [done |]. split; [| split; [| done]].
  - rewrite (holdingsleep_eq _ e (sync_cpu c) p pr); [rewrite Hh; cbn [andb] | by apply running_sync | done | | done].
    + apply ret_world. rewrite <- (sync_idem s) at 2. done.
    + cbn. unfold wake_all. rewrite list_lookup_imap, Hpr. cbn. by rewrite bool_decide_true.
  - intros l' Hne. unfold slock_of. cbn. by rewrite lookup_insert_ne.
Qed.

(** ** Examples *)
(** The running process holds the lock of inode 0. *)
Definition sample_slocked : kstate := slock_taken (SlInode 0) 7 sample.
Lemma sample_running : running sample 3 sample_cpu.
Proof. split; [exact sample_cpu_ok | split; [done | by vm_compute; lia]]. Qed.

Lemma acquiresleep_takes_witness :
  exists s1 e1, acquiresleep (SlInode 0) (mkworld sample []) = Ret tt (mkworld s1 e1) /\
    slock_held s1 (SlInode 0) = true /\ sl_pid (slock_of s1 (SlInode 0)) = 7 /\
    lock_free s1 (LkSleep (SlInode 0)).
Proof.
  apply (acquiresleep_takes sample [] sample_cpu 3 sample_proc (SlInode 0)).
  - exact sample_running.
  - reflexivity.
  - apply lock_free_dec. by vm_compute.
  - apply lock_free_dec. by vm_compute.
  - reflexivity.
  - constructor.
  - constructor.
  - right. by vm_compute.
Defined.

Lemma releasesleep_wakes_witness :
  exists s', releasesleep (SlInode 0) (mkworld sample_slocked []) = Ret tt (mkworld s' []) /\
    slock_held s' (SlInode 0) = false /\
    holdingsleep (SlInode 0) (mkworld s' []) = Ret false (mkworld s' []) /\
    (forall l', l' <> SlInode 0 -> slock_of s' l' = slock_of sample_slocked l') /\
    k_procs s' = wake_all (ChSleep (SlInode 0)) (Some 3%nat) (k_procs sample_slocked).
Proof.
  apply (releasesleep_wakes sample_slocked [] sample_cpu 3 sample_proc (SlInode 0)).
  - exact sample_running.
  - by vm_compute.
  - reflexivity.
  - apply sample_procs_free.
  - apply lock_free_dec. by vm_compute.
Defined.
