(* ===== verification/Virtio.v ===== *)
(** * The virtio disk driver ([kernel/virtio_disk.c])

    Descriptor allocation, the three-descriptor request of [virtio_disk_rw] and
    its completion in [virtio_disk_intr].  The device itself is not part of the
    repository: it runs when the driver sleeps, as part of the environment. *)
From S2P Require Import Prelude Kstate Spinlock Mem Sched.
Local Open Scope Z_scope.

Definition NUM : nat := 8.
Definition BSIZE : Z := 1024.
Definition VRING_DESC_F_NEXT : Z := 1.
Definition VRING_DESC_F_WRITE : Z := 2.
Definition VIRTIO_BLK_T_IN : Z := 0.
Definition VIRTIO_BLK_T_OUT : Z := 1.
Definition R (r : Z) : Z := VIRTIO0 + r.
Definition VIRTIO_MMIO_MAGIC_VALUE : Z := 0x000.
Definition VIRTIO_MMIO_VERSION : Z := 0x004.
Definition VIRTIO_MMIO_DEVICE_ID : Z := 0x008.
Definition VIRTIO_MMIO_VENDOR_ID : Z := 0x00c.
Definition VIRTIO_MMIO_DEVICE_FEATURES : Z := 0x010.
Definition VIRTIO_MMIO_DRIVER_FEATURES : Z := 0x020.
Definition VIRTIO_MMIO_QUEUE_SEL : Z := 0x030.
Definition VIRTIO_MMIO_QUEUE_NUM_MAX : Z := 0x034.
Definition VIRTIO_MMIO_QUEUE_NUM : Z := 0x038.
Definition VIRTIO_MMIO_QUEUE_READY : Z := 0x044.
Definition VIRTIO_MMIO_QUEUE_NOTIFY : Z := 0x050.
Definition VIRTIO_MMIO_INTERRUPT_STATUS : Z := 0x060.
Definition VIRTIO_MMIO_INTERRUPT_ACK : Z := 0x064.
Definition VIRTIO_MMIO_STATUS : Z := 0x070.
Definition VIRTIO_MMIO_QUEUE_DESC_LOW : Z := 0x080.
Definition VIRTIO_MMIO_QUEUE_DESC_HIGH : Z := 0x084.
Definition VIRTIO_MMIO_DRIVER_DESC_LOW : Z := 0x090.
Definition VIRTIO_MMIO_DRIVER_DESC_HIGH : Z := 0x094.
Definition VIRTIO_MMIO_DEVICE_DESC_LOW : Z := 0x0a0.
Definition VIRTIO_MMIO_DEVICE_DESC_HIGH : Z := 0x0a4.
Definition VIRTIO_CONFIG_S_ACKNOWLEDGE : Z := 1.
Definition VIRTIO_CONFIG_S_DRIVER : Z := 2.
Definition VIRTIO_CONFIG_S_DRIVER_OK : Z := 4.
Definition VIRTIO_CONFIG_S_FEATURES_OK : Z := 8.
Definition VIRTIO_BLK_F_RO : Z := 5.
Definition VIRTIO_BLK_F_SCSI : Z := 7.
Definition VIRTIO_BLK_F_CONFIG_WCE : Z := 11.
Definition VIRTIO_BLK_F_MQ : Z := 12.
Definition VIRTIO_F_ANY_LAYOUT : Z := 27.
Definition VIRTIO_RING_F_INDIRECT_DESC : Z := 28.
Definition VIRTIO_RING_F_EVENT_IDX : Z := 29.

(** ** Device registers

    What a register holds when it is read may depend on the whole state of the machine,
    the writes to the devices so far included. *)
Class Device : Type := reg_value : kstate -> Z -> Z.

(** Registers have 32 bits; those of the UART have 8, and get smaller values. *)
Definition write_reg (a v : Z) : K unit := put (fun s => s <| k_mmio ::= fun l => (a, u32 v) :: l |>).
Definition read_reg `{Device} (a : Z) : K Z := get (fun s => u32 (reg_value s a)).

(** ** The code *)
Definition upd_vdisk (f : vdisk -> vdisk) : K unit := put (fun s => s <| k_vdisk ::= f |>).
Definition upd_buf (b : nat) (f : buf -> buf) : K unit := put (fun s => s <| k_bufs ::= alter f b |>).
Definition get_buf (b : nat) : K buf := get_nth k_bufs b.
Definition upd_desc (i : nat) (f : virtq_desc -> virtq_desc) : K unit :=
  upd_vdisk (fun d => d <| vd_desc ::= alter f i |>).

Definition alloc_desc : K Z :=
  let! r := search (seq 0 NUM) (fun i =>
    let! fr := get_nth (fun s => vd_free (k_vdisk s)) i in
    if istrue fr then
      upd_vdisk (fun d => d <| vd_free ::= <[i := 0]> |>) ;;; ret (Some (Z.of_nat i))
    else ret None) in
  ret (default (-1) r).

Definition free_desc (i : Z) : K unit :=
  if Z.of_nat NUM <=? i then panic "free_desc 1" else
  let! fr := get_nth (fun s => vd_free (k_vdisk s)) (Z.to_nat i) in
  if istrue fr then panic "free_desc 2" else
  upd_desc (Z.to_nat i) (fun _ => mkvirtq_desc VNull 0 0 0) ;;;
  upd_vdisk (fun d => d <| vd_free ::= <[Z.to_nat i := 1]> |>) ;;;
  wakeup ChDiskFree.

(** [while(1)] of [free_chain]; a chain has at most [NUM] descriptors, since
    [free_desc] panics on one already free. *)
Fixpoint free_chain_loop (fuel : nat) (i : Z) : K unit :=
  match fuel with
  | O => hang
  | S n =>
      let! d := get_nth (fun s => vd_desc (k_vdisk s)) (Z.to_nat i) in
      free_desc i ;;;
      if istrue (Z.land (vq_flags d) VRING_DESC_F_NEXT) then free_chain_loop n (vq_next d)
      else ret tt
  end.
Definition free_chain (i : Z) : K unit := free_chain_loop (S NUM) i.

(** [for(int i = 0; i < 3; i++)]; [got] are the descriptors allocated so far. *)
Fixpoint alloc3_loop (n : nat) (got : list Z) : K (option (list Z)) :=
  match n with
  | O => ret (Some got)
  | S k =>
      let! i := alloc_desc in
      if i <? 0 then
        foreach (Z.to_nat <$> got) (fun j => free_desc (Z.of_nat j)) ;;; ret None
      else alloc3_loop k (got ++ [i])
  end.
Definition alloc3_desc : K (option (list Z)) := alloc3_loop 3 [].

(** [while(1) { if(alloc3_desc(idx) == 0) break; sleep(...); }]. *)
Fixpoint alloc3_wait (fuel : nat) : K (list Z) :=
  match fuel with
  | O => hang
  | S n =>
      let! r := alloc3_desc in
      match r with
      | Some idx => ret idx
      | None => sleep ChDiskFree LkDisk ;;; alloc3_wait n
      end
  end.

(** [while(b->disk == 1) sleep(b, &disk.vdisk_lock);]. *)
Fixpoint rw_wait (fuel : nat) (b : nat) : K unit :=
  match fuel with
  | O => hang
  | S n =>
      let! bb := get_buf b in
      if b_disk bb =? 1 then sleep (ChBuf b) LkDisk ;;; rw_wait n b else ret tt
  end.

(** The request the three descriptors describe. *)
Definition format_request (b : nat) (write : bool) (sector : Z) (i0 i1 i2 : nat) : K unit :=
  upd_vdisk (fun d => d <| vd_ops ::=
    <[i0 := mkvirtio_blk_req (if write then VIRTIO_BLK_T_OUT else VIRTIO_BLK_T_IN) 0 sector]> |>) ;;;
  upd_desc i0 (fun _ => mkvirtq_desc (VOp i0) 16 VRING_DESC_F_NEXT (Z.of_nat i1)) ;;;
  upd_desc i1 (fun _ => mkvirtq_desc (VBuf b) BSIZE
    (Z.lor (if write then 0 else VRING_DESC_F_WRITE) VRING_DESC_F_NEXT) (Z.of_nat i2)) ;;;
  upd_vdisk (fun d => d <| vd_info_status ::= <[i0 := 0xff]> |>) ;;;
  upd_desc i2 (fun _ => mkvirtq_desc (VStatus i0) 1 VRING_DESC_F_WRITE 0).

Definition virtio_disk_rw (b : nat) (write : bool) : K unit :=
  let! bb := get_buf b in
  let sector := u32 (b_blockno bb * (BSIZE / 512)) in
  acquire LkDisk ;;;
  let! idx := (fun w => alloc3_wait (S (length (w_env w))) w) in
  match Z.to_nat <$> idx with
  | [i0; i1; i2] =>
      format_request b write sector i0 i1 i2 ;;;
      upd_buf b (fun bb => bb <| b_disk := 1 |>) ;;;
      upd_vdisk (fun d => d <| vd_info_b ::= <[i0 := Some b]> |>) ;;;
      upd_vdisk (fun d => d <| vd_avail_ring ::=
        <[Z.to_nat (vd_avail_idx d mod Z.of_nat NUM) := Z.of_nat i0]> |>) ;;;
      upd_vdisk (fun d => d <| vd_avail_idx := u16 (vd_avail_idx d + 1) |>) ;;;
      write_reg (R VIRTIO_MMIO_QUEUE_NOTIFY) 0 ;;;
      (fun w => rw_wait (S (length (w_env w))) b w) ;;;
      upd_vdisk (fun d => d <| vd_info_b ::= <[i0 := None]> |>) ;;;
      free_chain (Z.of_nat i0) ;;;
      release LkDisk
  | _ => fault
  end.

(** [while(disk.used_idx != disk.used->idx)]; the device completes at most [NUM]
    requests ahead of the driver. *)
Fixpoint intr_loop (fuel : nat) : K unit :=
  match fuel with
  | O => hang
  | S n =>
      let! d := get k_vdisk in
      if vd_used_idx d =? vd_used_dev d then ret tt else
      let! id := get_nth (fun s => vd_used_ring (k_vdisk s)) (Z.to_nat (vd_used_idx d mod Z.of_nat NUM)) in
      let! st := get_nth (fun s => vd_info_status (k_vdisk s)) (Z.to_nat id) in
      if istrue st then panic "virtio_disk_intr status" else
      let! bo := get_nth (fun s => vd_info_b (k_vdisk s)) (Z.to_nat id) in
      match bo with
      | None => fault
      | Some b =>
          upd_buf b (fun bb => bb <| b_disk := 0 |>) ;;;
          wakeup (ChBuf b) ;;;
          upd_vdisk (fun d => d <| vd_used_idx := u16 (vd_used_idx d + 1) |>) ;;;
          intr_loop n
      end
  end.
Definition virtio_disk_intr `{Device} : K unit :=
  acquire LkDisk ;;;
  let! st := read_reg (R VIRTIO_MMIO_INTERRUPT_STATUS) in
  write_reg (R VIRTIO_MMIO_INTERRUPT_ACK) (Z.land st 0x3) ;;;
  intr_loop (S NUM) ;;;
  release LkDisk.
