(* ===== verification/Bio.v ===== *)
(** * The buffer cache ([kernel/bio.c])

    Buffers are indices into [bcache.buf]; index [NBUF] is the list head, and the
    recency list is threaded through [b_prev]/[b_next] as in the C code.  The
    disk driver is used through the interface [DiskDriver]. *)
From S2P Require Import Prelude Kstate Spinlock Mem Sample Sched Sleeplock Virtio.
Local Open Scope Z_scope.

(** What the buffer cache calls to move a block: [virtio_disk_rw]. *)
Class DiskDriver : Type := disk_rw : nat -> bool -> K unit.
(** The driver of this kernel. *)
#[export] Instance virtio_driver : DiskDriver | 100 := virtio_disk_rw.

Section bio.
Context `{DiskDriver}.

(** ** The code *)
Definition bhead : nat := NBUF.

Definition binit : K unit :=
  initlock LkBcache "bcache" ;;;
  upd_buf bhead (fun h => h <| b_prev := bhead |>) ;;;
  upd_buf bhead (fun h => h <| b_next := bhead |>) ;;;
  foreach (seq 0 NBUF) (fun b =>
    let! h := get_buf bhead in
    upd_buf b (fun x => x <| b_next := b_next h |>) ;;;
    upd_buf b (fun x => x <| b_prev := bhead |>) ;;;
    initsleeplock (SlBuf b) "buffer" ;;;
    let! h := get_buf bhead in
    upd_buf (b_next h) (fun x => x <| b_prev := b |>) ;;;
    upd_buf bhead (fun h => h <| b_next := b |>)).

(** The two scans of [bget]; a list of [NBUF] buffers ends at the head after at
    most [NBUF] steps. *)
Fixpoint bget_cached (fuel : nat) (b : nat) (dev blockno : Z) : K (option nat) :=
  match fuel with
  | O => hang
  | S n =>
      if Nat.eqb b bhead then ret None else
      let! x := get_buf b in
      if (b_dev x =? dev) && (b_blockno x =? blockno) then
        upd_buf b (fun x => x <| b_refcnt := u32 (b_refcnt x + 1) |>) ;;;
        release LkBcache ;;;
        acquiresleep (SlBuf b) ;;;
        ret (Some b)
      else bget_cached n (b_next x) dev blockno
  end.
Fixpoint bget_recycle (fuel : nat) (b : nat) (dev blockno : Z) : K nat :=
  match fuel with
  | O => hang
  | S n =>
      if Nat.eqb b bhead then panic "bget: no buffers" else
      let! x := get_buf b in
      if b_refcnt x =? 0 then
        upd_buf b (fun x => x <| b_dev := dev |> <| b_blockno := blockno |>
                              <| b_valid := 0 |> <| b_refcnt := 1 |>) ;;;
        release LkBcache ;;;
        acquiresleep (SlBuf b) ;;;
        ret b
      else bget_recycle n (b_prev x) dev blockno
  end.

Definition bget (dev blockno : Z) : K nat :=
  acquire LkBcache ;;;
  let! h := get_buf bhead in
  let! r := bget_cached (S NBUF) (b_next h) dev blockno in
  match r with
  | Some b => ret b
  | None =>
      let! h := get_buf bhead in
      bget_recycle (S NBUF) (b_prev h) dev blockno
  end.

Definition bread (dev blockno : Z) : K nat :=
  let! b := bget dev blockno in
  let! x := get_buf b in
  (if b_valid x =? 0 then
     disk_rw b false ;;;
     upd_buf b (fun x => x <| b_valid := 1 |>)
   else ret tt) ;;;
  ret b.

Definition bwrite (b : nat) : K unit :=
  let! h := holdingsleep (SlBuf b) in
  if negb h then panic "bwrite" else disk_rw b true.

(** Unlink [b] and insert it behind the head. *)
Definition move_to_head (b : nat) : K unit :=
  let! x := get_buf b in
  upd_buf (b_next x) (fun y => y <| b_prev := b_prev x |>) ;;;
  let! x := get_buf b in
  upd_buf (b_prev x) (fun y => y <| b_next := b_next x |>) ;;;
  let! h := get_buf bhead in
  upd_buf b (fun x => x <| b_next := b_next h |>) ;;;
  upd_buf b (fun x => x <| b_prev := bhead |>) ;;;
  let! h := get_buf bhead in
  upd_buf (b_next h) (fun y => y <| b_prev := b |>) ;;;
  upd_buf bhead (fun h => h <| b_next := b |>).

Definition brelse (b : nat) : K unit :=
  let! h := holdingsleep (SlBuf b) in
  if negb h then panic "brelse" else
  releasesleep (SlBuf b) ;;;
  acquire LkBcache ;;;
  upd_buf b (fun x => x <| b_refcnt := u32 (b_refcnt x - 1) |>) ;;;
  let! x := get_buf b in
  (if b_refcnt x =? 0 then move_to_head b else ret tt) ;;;
  release LkBcache.

Definition bpin (b : nat) : K unit :=
  acquire LkBcache ;;;
  upd_buf b (fun x => x <| b_refcnt := u32 (b_refcnt x + 1) |>) ;;;
  release LkBcache.

Definition bunpin (b : nat) : K unit :=
  acquire LkBcache ;;;
  upd_buf b (fun x => x <| b_refcnt := u32 (b_refcnt x - 1) |>) ;;;
  release LkBcache.

(** ** Reference counts *)
Lemma get_buf_eq s e b x : k_bufs s !! b = Some x -> get_buf b (mkworld s e) = Ret x (mkworld s e).
Proof. apply get_nth_eq. Qed.

Lemma bpin_eq s e c b :
  cpu_ok s c -> lock_free s LkBcache ->
  bpin b (mkworld s e) =
    Ret tt (mkworld ((sync s) <| k_bufs ::= alter (fun x => x <| b_refcnt := u32 (b_refcnt x + 1) |>) b |>) e).
Proof.
  intros Hc Hl. unfold bpin. kcall (acquire_eq s e c LkBcache).
  unfold upd_buf. krun. by rewrite (release_section s _ e c LkBcache).
Qed.
(** ** The recency list *)

(** Following [f] from [x] visits [l] and arrives at [y]. *)
Fixpoint path (f : nat -> option nat) (x : nat) (l : list nat) (y : nat) : Prop :=
  match l with
  | [] => f x = Some y
  | z :: r => f x = Some z /\ path f z r y
  end.
Definition fset (f : nat -> option nat) (p : nat) (v : option nat) : nat -> option nat :=
  fun i => if decide (i = p) then v else f i.

Lemma path_ext f g x l y : (forall i, i ∈ x :: l -> f i = g i) -> path f x l y -> path g x l y.
Proof.
  revert x. induction l as [| z l IH]; intros x He Hp; cbn in *.
  - rewrite <- He; [done | by left].
  - destruct Hp as [Hx Hp]. split; [rewrite <- He; [done | by left] |].
    apply IH; [| done]. intros i Hi. apply He. by right.
Qed.

Lemma path_fset f x l y p v : p ∉ x :: l -> path f x l y -> path (fset f p v) x l y.
Proof.
  intros Hp. apply path_ext. intros i Hi. unfold fset. rewrite decide_False; [done |]. by intros ->.
Qed.

Lemma path_app f x l1 b l2 y : path f x (l1 ++ b :: l2) y <-> path f x l1 b /\ path f b l2 y.
Proof.
  revert x. induction l1 as [| z l1 IH]; intros x; cbn; [done |]. rewrite IH. tauto.
Qed.

(** The last node before the end. *)
Fixpoint end_of (x : nat) (l : list nat) : nat :=
  match l with
  | [] => x
  | z :: r => end_of z r
  end.
Lemma path_end f x l y : path f x l y -> f (end_of x l) = Some y.
Proof. revert x. induction l as [| z l IH]; intros x; cbn; [done |]. intros [_ Hp]. by apply IH. Qed.
Lemma end_of_in x l : end_of x l ∈ x :: l.
Proof. revert x. induction l as [| z l IH]; intros x; [by left |]. right. apply IH. Qed.

(** Taking a node out: its predecessor points to its successor. *)
Lemma path_unlink f x l1 b l2 y :
  NoDup (x :: l1 ++ b :: l2) -> path f x (l1 ++ b :: l2) y ->
  path (fset f (end_of x l1) (f b)) x (l1 ++ l2) y.
Proof.
  revert x. induction l1 as [| z l1 IH]; intros x Hnd Hp.
  - cbn in *. destruct Hp as [Hx Hp]. apply NoDup_cons in Hnd as [Hnx _].
    assert (b <> x) by (intros ->; apply Hnx; by left).
    destruct l2 as [| w l2]; cbn in *.
    + unfold fset at 1. by rewrite decide_True.
    + destruct Hp as [Hb Hp]. split; [unfold fset at 1; by rewrite decide_True |].
      apply path_fset; [| done]. intros Hin. apply Hnx. by right.
  - apply NoDup_cons in Hnd as [Hnx Hnd]. destruct Hp as [Hx Hp]. specialize (IH z Hnd Hp).
    cbn [end_of app]. split; [| exact IH]. unfold fset. rewrite decide_False; [done |].
    intros ->. apply Hnx. destruct (proj1 (elem_of_cons l1 (end_of z l1) z) (end_of_in z l1)) as [-> | Hin];
      [by left | right; apply elem_of_app; by left].
Qed.

(** Putting a node in at the front, seen forwards and backwards. *)
Lemma path_push f x l y b :
  b ∉ x :: l -> x ∉ l -> path f x l y -> path (fset (fset f b (f x)) x (Some b)) x (b :: l) y.
Proof.
  intros Hb Hx Hp. split; [unfold fset at 1; by rewrite decide_True |].
  assert (b <> x) as Hne by (intros ->; apply Hb; by left).
  destruct l as [| z l]; cbn in *.
  - unfold fset. rewrite decide_False, decide_True by done. done.
  - destruct Hp as [Hz Hp]. split; [unfold fset; by rewrite decide_False, decide_True by done |].
    apply path_fset; [done |]. apply path_fset; [| done]. intros Hin. apply Hb. by right.
Qed.
Lemma path_snoc f x l y b :
  b ∉ x :: l -> NoDup (x :: l) -> path f x l y ->
  path (fset (fset f b (Some y)) (end_of x l) (Some b)) x (l ++ [b]) y.
Proof.
  intros Hb Hnd Hp. assert (b <> end_of x l) as Hne by (intros ->; apply Hb, end_of_in).
  rewrite path_app. split.
  2:{ cbn. unfold fset. by rewrite decide_False, decide_True by done. }
  clear Hne. revert x Hb Hnd Hp. induction l as [| z l IH]; intros x Hb Hnd Hp.
  { cbn. unfold fset. by rewrite decide_True. }
  apply NoDup_cons in Hnd as [Hnx Hnd]. destruct Hp as [Hx Hp].
  cbn [end_of].
  split.
  - unfold fset. rewrite !decide_False; [done | |].
    + intros ->. apply Hb. by left.
    + intros ->. apply Hnx, end_of_in.
  - apply IH; [| done | done]. intros Hin. apply Hb. by right.
Qed.
Definition hd_or (x : nat) (l : list nat) : nat := match l with [] => x | z :: _ => z end.
Lemma path_start f x l y : path f x l y -> f x = Some (hd_or y l).
Proof. destruct l; cbn; tauto. Qed.
Lemma end_of_snoc x l z : end_of x (l ++ [z]) = z.
Proof. revert x. induction l as [| w l IH]; intros x; [done |]. apply IH. Qed.
Lemma end_of_rev x l : end_of x (rev l) = hd_or x l.
Proof. destruct l as [| z l]; [done |]. apply end_of_snoc. Qed.
Lemma hd_or_rev x l : hd_or x (rev l) = end_of x l.
Proof. by rewrite <- end_of_rev, rev_involutive. Qed.

Definition nextf (bufs : list buf) (i : nat) : option nat := b_next <$> bufs !! i.
Definition prevf (bufs : list buf) (i : nat) : option nat := b_prev <$> bufs !! i.

(** The buffers are linked, most recently used first, as [l]. *)
Definition lru (bufs : list buf) (l : list nat) : Prop :=
  NoDup (bhead :: l) /\ path (nextf bufs) bhead l bhead /\ path (prevf bufs) bhead (rev l) bhead.

(** Everything of a buffer but its links. *)
Definition payload (x : buf) : Z * Z * Z * Z * Z * list Z :=
  (b_valid x, b_disk x, b_dev x, b_blockno x, b_refcnt x, b_data x).
Definition same_payload (bufs bufs' : list buf) : Prop := payload <$> bufs' = payload <$> bufs.

Lemma alter_payload g p bufs : (forall x, payload (g x) = payload x) -> same_payload bufs (alter g p bufs).
Proof.
  intros Hg. unfold same_payload. apply list_eq. intros i. rewrite !list_lookup_fmap.
  destruct (decide (i = p)) as [-> |].
  - rewrite list_lookup_alter_eq. destruct (bufs !! p); [cbn; by rewrite Hg | done].
  - by rewrite list_lookup_alter_ne.
Qed.

Lemma nextf_set_next bufs p v i : is_Some (bufs !! p) ->
  nextf (alter (fun x => x <| b_next := v |>) p bufs) i = fset (nextf bufs) p (Some v) i.
Proof.
  intros [x Hx]. unfold nextf, fset. case_decide as Hi; [subst; by rewrite list_lookup_alter_eq, Hx |].
  by rewrite list_lookup_alter_ne.
Qed.
Lemma prevf_set_prev bufs p v i : is_Some (bufs !! p) ->
  prevf (alter (fun x => x <| b_prev := v |>) p bufs) i = fset (prevf bufs) p (Some v) i.
Proof.
  intros [x Hx]. unfold prevf, fset. case_decide as Hi; [subst; by rewrite list_lookup_alter_eq, Hx |].
  by rewrite list_lookup_alter_ne.
Qed.
Lemma nextf_set_prev bufs p v i : nextf (alter (fun x => x <| b_prev := v |>) p bufs) i = nextf bufs i.
Proof.
  unfold nextf. destruct (decide (i = p)) as [-> |]; [rewrite list_lookup_alter_eq; by destruct (bufs !! p) |].
  by rewrite list_lookup_alter_ne.
Qed.
Lemma prevf_set_next bufs p v i : prevf (alter (fun x => x <| b_next := v |>) p bufs) i = prevf bufs i.
Proof.
  unfold prevf. destruct (decide (i = p)) as [-> |]; [rewrite list_lookup_alter_eq; by destruct (bufs !! p) |].
  by rewrite list_lookup_alter_ne.
Qed.

(** The six stores of [move_to_head]. *)
Definition unlinked (n p : nat) (bufs : list buf) : list buf :=
  alter (fun x => x <| b_next := n |>) p (alter (fun x => x <| b_prev := p |>) n bufs).
Definition relinked (b hn : nat) (bufs : list buf) : list buf :=
  alter (fun x => x <| b_next := b |>) bhead (alter (fun x => x <| b_prev := b |>) hn
    (alter (fun x => x <| b_prev := bhead |>) b (alter (fun x => x <| b_next := hn |>) b bufs))).

Lemma path_defined f x l y i : path f x l y -> i ∈ x :: l -> is_Some (f i).
Proof.
  revert x. induction l as [| z l IH]; intros x Hp Hi; cbn in *.
  - apply elem_of_cons in Hi as [-> | Hi]; [by eexists | by apply elem_of_nil in Hi].
  - destruct Hp as [Hx Hp]. apply elem_of_cons in Hi as [-> | Hi]; [by eexists | by apply (IH z)].
Qed.
Lemma lru_defined bufs l i : lru bufs l -> i ∈ bhead :: l -> is_Some (bufs !! i).
Proof.
  intros (_ & Hp & _) Hi. destruct (path_defined _ _ _ _ i Hp Hi) as [v Hv].
  unfold nextf in Hv. destruct (bufs !! i); [by eexists | done].
Qed.

Lemma hd_or_in x l : hd_or x l ∈ x :: l.
Proof. destruct l; [by left | right; by left]. Qed.

Lemma lru_neighbours bufs l1 b l2 :
  lru bufs (l1 ++ b :: l2) ->
  nextf bufs b = Some (hd_or bhead l2) /\ prevf bufs b = Some (end_of bhead l1).
Proof.
  intros (_ & Hn & Hp). rewrite path_app in Hn. destruct Hn as [_ Hn]. split; [by apply path_start |].
  rewrite rev_app_distr in Hp. cbn [rev] in Hp. rewrite <- app_assoc in Hp. cbn [app] in Hp.
  rewrite path_app in Hp. destruct Hp as [_ Hp]. rewrite <- hd_or_rev. by apply path_start.
Qed.

Lemma lru_unlink bufs l1 b l2 :
  lru bufs (l1 ++ b :: l2) -> lru (unlinked (hd_or bhead l2) (end_of bhead l1) bufs) (l1 ++ l2).
Proof.
  intros Hl. pose proof Hl as (Hnd & Hn & Hp). destruct (lru_neighbours _ _ _ _ Hl) as [Hbn Hbp].
  assert (is_Some (bufs !! end_of bhead l1)) as He.
  { apply (lru_defined _ _ _ Hl). pose proof (end_of_in bhead l1). set_solver. }
  assert (is_Some (bufs !! hd_or bhead l2)) as Hh.
  { apply (lru_defined _ _ _ Hl). pose proof (hd_or_in bhead l2). set_solver. }
  split; [| split].
  - apply (sublist_NoDup _ (bhead :: l1 ++ b :: l2)); [done |]. apply sublist_skip, sublist_app; [reflexivity |].
    by apply sublist_cons.
  - eapply path_ext; [| exact (path_unlink _ _ _ _ _ _ Hnd Hn)]. intros i _. unfold unlinked.
    rewrite nextf_set_next by (by apply lookup_lt_is_Some; rewrite length_alter; apply lookup_lt_is_Some).
    unfold fset. rewrite Hbn. by rewrite nextf_set_prev.
  - rewrite rev_app_distr in *. cbn [rev] in Hp. rewrite <- app_assoc in Hp. cbn [app] in Hp.
    assert (NoDup (bhead :: rev l2 ++ b :: rev l1)) as Hnd'.
    { revert Hnd. apply NoDup_Permutation_proper. constructor. rewrite <- !Permutation_rev.
      rewrite Permutation_app_comm. cbn. rewrite <- Permutation_middle. done. }
    eapply path_ext; [| exact (path_unlink _ _ _ _ _ _ Hnd' Hp)]. intros i _. unfold unlinked.
    rewrite prevf_set_next, prevf_set_prev by done. by rewrite end_of_rev, Hbp.
Qed.
Lemma alter_defined (g : buf -> buf) (p : nat) (bufs : list buf) (i : nat) :
  is_Some (bufs !! i) -> is_Some (alter g p bufs !! i).
Proof. rewrite !lookup_lt_is_Some, length_alter. done. Qed.

Lemma lru_relink bufs l b :
  lru bufs l -> b ∉ bhead :: l -> is_Some (bufs !! b) ->
  lru (relinked b (hd_or bhead l) bufs) (b :: l).
Proof.
  intros Hl Hb Hdef. pose proof Hl as (Hnd & Hn & Hp). unfold relinked.
  assert (is_Some (bufs !! bhead)) as Hh by (apply (lru_defined _ _ _ Hl); by left).
  assert (is_Some (bufs !! hd_or bhead l)) as Hhd by (apply (lru_defined _ _ _ Hl), hd_or_in).
  pose proof (path_start _ _ _ _ Hn) as Hstart.
  split; [| split].
  - apply NoDup_cons in Hnd as [Hh' Hnd]. apply NoDup_cons. split; [set_solver |].
    apply NoDup_cons. split; [set_solver | done].
  - apply NoDup_cons in Hnd as [Hh' _].
    eapply path_ext; [| exact (path_push _ _ _ _ b Hb Hh' Hn)]. intros i _.
    rewrite nextf_set_next by (by repeat apply alter_defined). unfold fset at 1 3.
    case_decide; [done |]. rewrite !nextf_set_prev, nextf_set_next by done. by rewrite Hstart.
  - cbn [rev]. assert (NoDup (bhead :: rev l)) as Hnd' by (revert Hnd; apply NoDup_Permutation_proper; by rewrite <- Permutation_rev).
    assert (b ∉ bhead :: rev l) as Hb'.
    { rewrite elem_of_cons in *. rewrite list_elem_of_In, <- in_rev, <- list_elem_of_In. done. }
    eapply path_ext; [| exact (path_snoc _ _ _ _ b Hb' Hnd' Hp)]. intros i _.
    rewrite prevf_set_next, prevf_set_prev by (by repeat apply alter_defined).
    rewrite end_of_rev. unfold fset at 1 3. case_decide; [done |].
    rewrite prevf_set_prev by (by apply alter_defined). unfold fset. by rewrite prevf_set_next.
Qed.

Lemma same_payload_trans a b c : same_payload a b -> same_payload b c -> same_payload a c.
Proof. unfold same_payload. congruence. Qed.

Lemma get_buf_next s e b n : nextf (k_bufs s) b = Some n ->
  exists x, get_buf b (mkworld s e) = Ret x (mkworld s e) /\ k_bufs s !! b = Some x /\ b_next x = n.
Proof.
  unfold nextf. destruct (k_bufs s !! b) as [x |] eqn:Hx; [| done]. intros [= <-]. exists x.
  split; [by apply get_buf_eq | done].
Qed.

(** [move_to_head] takes the buffer out of its place and puts it first. *)
Lemma move_to_head_eq s e l1 b l2 :
  lru (k_bufs s) (l1 ++ b :: l2) ->
  exists bufs, move_to_head b (mkworld s e) = Ret tt (mkworld (s <| k_bufs := bufs |>) e) /\
    lru bufs (b :: l1 ++ l2) /\ same_payload (k_bufs s) bufs.
Proof.
  intros Hl. destruct (lru_neighbours _ _ _ _ Hl) as [Hbn Hbp]. pose proof Hl as (Hnd & _).
  set (n := hd_or bhead l2) in *. set (p := end_of bhead l1) in *.
  pose proof (lru_unlink _ _ _ _ Hl) as Hu. fold n p in Hu.
  assert (is_Some (k_bufs s !! b)) as Hdef by (apply (lru_defined _ _ _ Hl); set_solver).
  assert (b ∉ bhead :: l1 ++ l2) as Hb.
  { apply NoDup_cons in Hnd as [Hh Hnd]. apply NoDup_app in Hnd as (_ & Hd & Hnd2).
    apply NoDup_cons in Hnd2 as [Hb2 _]. set_solver. }
  exists (relinked b (hd_or bhead (l1 ++ l2)) (unlinked n p (k_bufs s))).
  split; [| split; [apply lru_relink; [done | done | by repeat apply alter_defined] |]].
  2:{ unfold relinked, unlinked. by repeat (eapply same_payload_trans; [| apply alter_payload; done]). }
  unfold move_to_head. destruct (get_buf_next s e b n Hbn) as (x & Hx & Hxb & Hxn).
  rewrite (bind_ret _ _ _ _ _ Hx). unfold prevf in Hbp. rewrite Hxb in Hbp. injection Hbp as Hxp.
  rewrite Hxn, Hxp. unfold upd_buf. rewrite bind_put.
  assert (n <> b) as Hnb by (intros E; apply Hb; rewrite <- E; pose proof (hd_or_in bhead l2); set_solver).
  kcall (get_buf_eq _ e b x). { cbn. by rewrite list_lookup_alter_ne. }
  rewrite Hxn, Hxp, bind_put.
  match goal with |- context [mkworld ?s1 e] => set (s2 := s1) end.
  assert (k_bufs s2 = unlinked n p (k_bufs s)) as Hs2 by done.
  pose proof Hu as (_ & Hun & _). apply path_start in Hun. rewrite <- Hs2 in Hun.
  destruct (get_buf_next s2 e bhead _ Hun) as (h & Hh & Hhb & Hhn).
  rewrite (bind_ret _ _ _ _ _ Hh), Hhn, !bind_put.
  assert (b <> bhead) as Hbh by (intros E; apply Hb; rewrite E; by left).
  kcall (get_buf_eq _ e bhead h). { cbn. by rewrite !list_lookup_alter_ne by done. }
  rewrite Hhn, bind_put. done.
Qed.
(** ** Looking a block up *)
Definition hit (dev blockno : Z) (x : buf) : bool := (b_dev x =? dev) && (b_blockno x =? blockno).
Definition unused (x : buf) : bool := b_refcnt x =? 0.
(** The first buffer of [l] that satisfies [P]. *)
Fixpoint find_buf (P : buf -> bool) (bufs : list buf) (l : list nat) : option nat :=
  match l with
  | [] => None
  | b :: r => if from_option P false (bufs !! b) then Some b else find_buf P bufs r
  end.

Definition tail_path (f : nat -> option nat) (l : list nat) : Prop :=
  match l with
  | [] => True
  | z :: r => path f z r bhead
  end.
Lemma path_tail f x l : path f x l bhead -> tail_path f l.
Proof. destruct l; cbn; tauto. Qed.
Lemma tail_path_next f z r : path f z r bhead -> f z = Some (hd_or bhead r) /\ tail_path f r.
Proof. intros Hp. split; [by apply path_start | by apply path_tail in Hp]. Qed.

Lemma bget_cached_eq s e dev blockno l : forall fuel,
  (length l < fuel)%nat -> bhead ∉ l -> tail_path (nextf (k_bufs s)) l ->
  bget_cached fuel (hd_or bhead l) dev blockno (mkworld s e) =
  match find_buf (hit dev blockno) (k_bufs s) l with
  | Some b => (upd_buf b (fun x => x <| b_refcnt := u32 (b_refcnt x + 1) |>) ;;;
               release LkBcache ;;; acquiresleep (SlBuf b) ;;; ret (Some b)) (mkworld s e)
  | None => Ret None (mkworld s e)
  end.
Proof.
  induction l as [| z r IH]; intros fuel Hf Hh Hp; (destruct fuel as [| fuel]; [cbn in Hf; lia |]);
    cbn [bget_cached hd_or find_buf].
  { by rewrite Nat.eqb_refl. }
  destruct (Nat.eqb_spec z bhead) as [-> | _]; [exfalso; apply Hh; by left |].
  destruct (tail_path_next _ _ _ Hp) as [Hn Ht].
  destruct (get_buf_next s e z _ Hn) as (x & Hx & Hxb & Hxn). rewrite (bind_ret _ _ _ _ _ Hx), Hxb.
  change (from_option (hit dev blockno) false (Some x)) with ((b_dev x =? dev) && (b_blockno x =? blockno)).
  destruct ((b_dev x =? dev) && (b_blockno x =? blockno)); [done |].
  rewrite Hxn. apply IH; [cbn in Hf; lia | set_solver | done].
Qed.

Lemma get_buf_prev s e b n : prevf (k_bufs s) b = Some n ->
  exists x, get_buf b (mkworld s e) = Ret x (mkworld s e) /\ k_bufs s !! b = Some x /\ b_prev x = n.
Proof.
  unfold prevf. destruct (k_bufs s !! b) as [x |] eqn:Hx; [| done]. intros [= <-]. exists x.
  split; [by apply get_buf_eq | done].
Qed.

Definition recycle (dev blockno : Z) (x : buf) : buf :=
  x <| b_dev := dev |> <| b_blockno := blockno |> <| b_valid := 0 |> <| b_refcnt := 1 |>.

Lemma bget_recycle_eq s e dev blockno l : forall fuel,
  (length l < fuel)%nat -> bhead ∉ l -> tail_path (prevf (k_bufs s)) l ->
  bget_recycle fuel (hd_or bhead l) dev blockno (mkworld s e) =
  match find_buf unused (k_bufs s) l with
  | Some b => (upd_buf b (recycle dev blockno) ;;;
               release LkBcache ;;; acquiresleep (SlBuf b) ;;; ret b) (mkworld s e)
  | None => Panic "bget: no buffers"
  end.
Proof.
  induction l as [| z r IH]; intros fuel Hf Hh Hp; (destruct fuel as [| fuel]; [cbn in Hf; lia |]);
    cbn [bget_recycle hd_or find_buf].
  { by rewrite Nat.eqb_refl. }
  destruct (Nat.eqb_spec z bhead) as [-> | _]; [exfalso; apply Hh; by left |].
  destruct (tail_path_next _ _ _ Hp) as [Hn Ht].
  destruct (get_buf_prev s e z _ Hn) as (x & Hx & Hxb & Hxn). rewrite (bind_ret _ _ _ _ _ Hx), Hxb.
  change (from_option unused false (Some x)) with (b_refcnt x =? 0).
  destruct (b_refcnt x =? 0); [done |].
  rewrite Hxn. apply IH; [cbn in Hf; lia | set_solver | done].
Qed.

(** The end of both scans: the buffer is updated, the cache unlocked, the buffer
    locked. *)
Lemma bget_finish {A} s e c p pr b g (r : A) :
  running s p c -> c_noff c = 0 -> k_procs s !! p = Some pr -> lock_free s LkBcache ->
  lock_free s (LkSleep (SlBuf b)) -> slock_held s (SlBuf b) = false ->
  (upd_buf b g ;;; release LkBcache ;;; acquiresleep (SlBuf b) ;;; ret r) (mkworld (lock_taken LkBcache s) e) =
    Ret r (mkworld (slock_taken (SlBuf b) (p_pid pr) ((sync s) <| k_bufs ::= alter g b |>)) e).
Proof.
  intros Hr Hn Hpr Hl Hls Hh. pose proof Hr as (Hc & _). unfold upd_buf. rewrite bind_put.
  kcall (release_section s _ e c LkBcache).
  change ((lock_taken LkBcache s) <| k_bufs ::= _ |> <| k_cpus := _ |> <| k_locks := _ |>)
    with ((sync s) <| k_bufs ::= alter g b |>).
  kcall (acquiresleep_free_eq ((sync s) <| k_bufs ::= alter g b |>) e (sync_cpu c) p pr (SlBuf b)).
  { exact (running_sync s p c Hr). } { cbn. lia. }
  assert (sync ((sync s) <| k_bufs ::= alter g b |>) = (sync s) <| k_bufs ::= alter g b |>) as ->; [| done].
  rewrite <- (sync_idem s) at 2. done.
Qed.

(** The cache holds no more buffers than there are. *)
Lemma lru_length bufs l : lru bufs l -> length bufs = S NBUF -> (length l <= NBUF)%nat.
Proof.
  intros Hl Hlen. pose proof Hl as (Hnd & _).
  assert (bhead :: l ⊆ seq 0 (S NBUF)) as Hsub.
  { intros i Hi. apply elem_of_seq. destruct (lru_defined _ _ i Hl Hi) as [x Hx].
    apply lookup_lt_Some in Hx. lia. }
  pose proof (submseteq_length _ _ (NoDup_submseteq _ _ Hnd Hsub)) as Hle.
  rewrite length_seq in Hle. cbn in Hle. lia.
Qed.
(** ** Initialisation *)

(** The body of the loop of [binit] puts its buffer first. *)
Lemma binit_link s e l b :
  lru (k_bufs s) l -> b ∉ bhead :: l -> is_Some (k_bufs s !! b) ->
  wp (let! h := get_buf bhead in
      upd_buf b (fun x => x <| b_next := b_next h |>) ;;;
      upd_buf b (fun x => x <| b_prev := bhead |>) ;;;
      initsleeplock (SlBuf b) "buffer" ;;;
      let! h := get_buf bhead in
      upd_buf (b_next h) (fun x => x <| b_prev := b |>) ;;;
      upd_buf bhead (fun h => h <| b_next := b |>))
    (fun _ w => w_env w = e /\ k_bufs (w_k w) = relinked b (hd_or bhead l) (k_bufs s)) (mkworld s e).
Proof.
  intros Hl Hb Hdef. pose proof Hl as (_ & Hn & _). apply path_start in Hn.
  destruct (get_buf_next s e bhead _ Hn) as (h & Hh & Hhb & Hhn).
  assert (b <> bhead) as Hbh by (intros E; apply Hb; rewrite E; by left).
  unfold wp. rewrite (bind_ret _ _ _ _ _ Hh), Hhn. unfold initsleeplock, initlock, set_lock, upd_slock, upd_buf.
  rewrite !bind_put. erewrite bind_ret by reflexivity.
  erewrite bind_ret by (apply (get_buf_eq _ e bhead h); cbn; by rewrite !list_lookup_alter_ne by done).
  rewrite Hhn, bind_put. done.
Qed.

(** [binit] establishes the recency list: all buffers, the last one first. *)
Lemma binit_lru s e :
  length (k_bufs s) = S NBUF ->
  wp binit (fun _ w => w_env w = e /\ length (k_bufs (w_k w)) = S NBUF /\
                       lru (k_bufs (w_k w)) (rev (seq 0 NBUF))) (mkworld s e).
Proof.
  intros Hlen. unfold binit, wp, initlock, set_lock, upd_buf at 1 2. rewrite !bind_put.
  match goal with |- match foreach _ _ (mkworld ?s1 e) with _ => _ end => set (s2 := s1) end.
  set (I := fun (r : list nat) (w : world) => exists j, (j <= NBUF)%nat /\ r = seq j (NBUF - j) /\ w_env w = e /\
    length (k_bufs (w_k w)) = S NBUF /\ lru (k_bufs (w_k w)) (rev (seq 0 j))).
  match goal with |- match foreach ?l ?f ?w with _ => _ end => apply (wp_mono (foreach l f) (fun _ => I [])) end.
  - apply wp_foreach.
    + intros i r [s1 e1] (j & Hj & Hr & He & Hl1 & Hlru). cbn in He, Hl1, Hlru. subst e1.
      assert (j < NBUF)%nat as Hlt by (destruct (decide (j = NBUF)) as [-> |]; [by rewrite Nat.sub_diag in Hr | lia]).
      replace (NBUF - j)%nat with (S (NBUF - S j)) in Hr by lia. cbn [seq] in Hr. injection Hr as -> ->.
      assert (j ∉ bhead :: rev (seq 0 j)) as Hnin.
      { rewrite elem_of_cons, list_elem_of_In, <- in_rev, <- list_elem_of_In, elem_of_seq. unfold bhead. lia. }
      assert (is_Some (k_bufs s1 !! j)) as Hd by (apply lookup_lt_is_Some; lia).
      eapply wp_mono; [apply (binit_link s1 e _ _ Hlru Hnin Hd) |].
      intros _ [s3 e3] [He3 Hb3]. cbn in He3, Hb3. exists (S j). split; [lia |]. split; [done |]. split; [done |].
      cbn [w_k]. rewrite Hb3. split; [unfold relinked; by rewrite !length_alter |].
      rewrite seq_S, rev_app_distr. by apply lru_relink.
    + exists 0%nat. split; [lia |]. split; [done |]. split; [done |]. unfold s2. cbn [w_k].
      split; [cbn; by rewrite !length_alter |].
      assert (is_Some (k_bufs s !! bhead)) as [x Hx] by (apply lookup_lt_is_Some; unfold bhead; lia).
      split; [apply NoDup_singleton |]. cbn. unfold nextf, prevf. by rewrite !list_lookup_alter_eq, Hx.
  - intros _ [s1 e1] (j & Hj & Hr & He & Hl1 & Hlru).
    assert (j = NBUF) as -> by (destruct (NBUF - j)%nat eqn:E; [lia | done]). done.
Qed.

(** ** The exact result of [bget] and [brelse] *)

Lemma find_buf_in P bufs l b : find_buf P bufs l = Some b -> b ∈ l.
Proof.
  induction l as [| z l IH]; [done |]. cbn.
  destruct (from_option P false (bufs !! z)); [intros [= ->]; by left | intros Hb; right; by apply IH].
Qed.

(** The buffer [bget] returns for a block: the one that caches it, or else the least
    recently used one nobody refers to. *)
Definition bget_choice (bufs : list buf) (l : list nat) (dev blockno : Z) : option (nat * bool) :=
  match find_buf (hit dev blockno) bufs l with
  | Some b => Some (b, true)
  | None => (fun b => (b, false)) <$> find_buf unused bufs (rev l)
  end.
(** What it does to the buffer. *)
Definition bget_claim (cached : bool) (dev blockno : Z) (x : buf) : buf :=
  if cached then x <| b_refcnt := u32 (b_refcnt x + 1) |> else recycle dev blockno x.

Lemma bget_eq s e c p pr l dev blockno :
  running s p c -> c_noff c = 0 -> k_procs s !! p = Some pr -> lock_free s LkBcache ->
  length (k_bufs s) = S NBUF -> lru (k_bufs s) l ->
  match bget_choice (k_bufs s) l dev blockno with
  | Some (b, h) =>
      lock_free s (LkSleep (SlBuf b)) -> slock_held s (SlBuf b) = false ->
      bget dev blockno (mkworld s e) = Ret b (mkworld (slock_taken (SlBuf b) (p_pid pr)
        ((sync s) <| k_bufs ::= alter (bget_claim h dev blockno) b |>)) e)
  | None => bget dev blockno (mkworld s e) = Panic "bget: no buffers"
  end.
Proof.
  intros Hr Hn Hpr Hl Hlen Hlru. pose proof Hr as (Hc & _). pose proof Hlru as (Hnd & Hnx & Hpv).
  pose proof (lru_length _ _ Hlru Hlen) as Hll. apply NoDup_cons in Hnd as [Hh _].
  assert (bhead ∉ rev l) as Hh' by (by rewrite list_elem_of_In, <- in_rev, <- list_elem_of_In).
  destruct (get_buf_next (lock_taken LkBcache s) e bhead _ (path_start _ _ _ _ Hnx)) as (h & Hg & _ & Hhn).
  destruct (get_buf_prev (lock_taken LkBcache s) e bhead _ (path_start _ _ _ _ Hpv)) as (h' & Hg' & _ & Hhp).
  assert (Hstart : bget dev blockno (mkworld s e) =
    bind (bget_cached (S NBUF) (hd_or bhead l) dev blockno) (fun r => match r with
      | Some b => ret b
      | None => let! h := get_buf bhead in bget_recycle (S NBUF) (b_prev h) dev blockno
      end) (mkworld (lock_taken LkBcache s) e)).
  { unfold bget. kcall (acquire_eq s e c LkBcache). rewrite (bind_ret _ _ _ _ _ Hg), Hhn. done. }
  pose proof (bget_cached_eq (lock_taken LkBcache s) e dev blockno l (S NBUF) ltac:(lia) Hh (path_tail _ _ _ Hnx)) as Hcached.
  pose proof (bget_recycle_eq (lock_taken LkBcache s) e dev blockno (rev l) (S NBUF)
    ltac:(rewrite length_rev; lia) Hh' (path_tail _ _ _ Hpv)) as Hrec.
  change (k_bufs (lock_taken LkBcache s)) with (k_bufs s) in Hcached, Hrec.
  unfold bind at 1 in Hstart. rewrite Hcached in Hstart. unfold bget_choice.
  destruct (find_buf (hit dev blockno) (k_bufs s) l) as [b |] eqn:Hf.
  - intros Hls Hhe. rewrite Hstart. by rewrite (bget_finish s e c p pr b _ (Some b)).
  - cbv beta iota in Hstart. rewrite (bind_ret _ _ _ _ _ Hg'), Hhp, Hrec in Hstart.
    destruct (find_buf unused (k_bufs s) (rev l)) as [b |] eqn:Hu; cbn [fmap option_fmap option_map]; [| done].
    intros Hls Hhe. rewrite Hstart. by rewrite (bget_finish s e c p pr b _ b).
Qed.

Lemma lru_payload bufs g b l :
  (forall x, b_next (g x) = b_next x /\ b_prev (g x) = b_prev x) -> lru bufs l -> lru (alter g b bufs) l.
Proof.
  intros Hg (Hnd & Hnx & Hpv). split; [done |].
  split; (eapply path_ext; [| first [exact Hnx | exact Hpv]]); intros i _; unfold nextf, prevf;
    (destruct (decide (i = b)) as [-> |];
     [rewrite list_lookup_alter_eq; destruct (bufs !! b) as [x |]; [cbn; by rewrite ?(proj1 (Hg x)), ?(proj2 (Hg x)) | done]
     | by rewrite list_lookup_alter_ne]).
Qed.

(** The state [brelse] leaves, but for the links of the buffers. *)
Definition released (p b : nat) (bufs : list buf) (s : kstate) : kstate :=
  (slock_freed (SlBuf b) (sync s)) <| k_procs ::= wake_all (ChSleep (SlBuf b)) (Some p) |> <| k_bufs := bufs |>.

Lemma brelse_eq s e c p pr l1 b l2 x :
  running s p c -> c_noff c = 0 -> k_procs s !! p = Some pr -> procs_free s (Some p) ->
  lock_free s LkBcache -> lock_free s (LkSleep (SlBuf b)) ->
  slock_held s (SlBuf b) = true -> sl_pid (slock_of s (SlBuf b)) = p_pid pr ->
  lru (k_bufs s) (l1 ++ b :: l2) -> k_bufs s !! b = Some x -> 1 <= b_refcnt x < 2 ^ 32 ->
  exists bufs, brelse b (mkworld s e) = Ret tt (mkworld (released p b bufs s) e) /\
    lru bufs (if b_refcnt x =? 1 then b :: l1 ++ l2 else l1 ++ b :: l2) /\
    same_payload (alter (fun x => x <| b_refcnt := b_refcnt x - 1 |>) b (k_bufs s)) bufs.
Proof.
  intros Hr Hn Hpr Hf Hl Hls Hheld Hpid Hlru Hx Href. pose proof Hr as (Hc & Hp & Hlt).
  set (dec := fun x : buf => x <| b_refcnt := u32 (b_refcnt x - 1) |>).
  assert (alter (fun x => x <| b_refcnt := b_refcnt x - 1 |>) b (k_bufs s) = alter dec b (k_bufs s)) as ->.
  { apply list_alter_ext; [| done]. intros y Hy. assert (y = x) as -> by congruence. unfold dec.
    by rewrite u32_small by lia. }
  assert (lru (alter dec b (k_bufs s)) (l1 ++ b :: l2)) as Hlru' by (by apply lru_payload).
  set (s1 := (slock_freed (SlBuf b) (sync s)) <| k_procs ::= wake_all (ChSleep (SlBuf b)) (Some p) |>).
  assert (Hcut : brelse b (mkworld s e) =
    (acquire LkBcache ;;; upd_buf b dec ;;; let! x := get_buf b in
     (if b_refcnt x =? 0 then move_to_head b else ret tt) ;;; release LkBcache) (mkworld s1 e)).
  { unfold brelse. kcall (holdingsleep_eq s e c p pr (SlBuf b)). { lia. } rewrite Hheld, Hpid, Z.eqb_refl. cbn [andb negb].
    kcall (releasesleep_eq (sync s) e (sync_cpu c) (SlBuf b)). { cbn. lia. } { cbn. by rewrite Hp. }
    rewrite sync_idem. cbn [c_proc sync_cpu]. rewrite Hp. done. }
  rewrite Hcut. assert (cpu_ok s1 (sync_cpu c)) as Hc1 by (exact (cpu_ok_sync s c Hc)).
  assert (lock_free s1 LkBcache) as Hl1 by exact Hl.
  assert (k_cpus (sync s1) = k_cpus s1) as Hs1.
  { assert (sync s1 = s1) as ->; [| done]. unfold s1. rewrite <- (sync_idem s) at 2. done. }
  erewrite bind_ret by (apply (acquire_eq s1 e (sync_cpu c) LkBcache); [done | by apply lock_free_of]).
  unfold upd_buf at 1. rewrite bind_put.
  erewrite bind_ret by (apply get_buf_eq; cbn; rewrite list_lookup_alter_eq, Hx; reflexivity).
  change (b_refcnt (dec x)) with (u32 (b_refcnt x - 1)). rewrite u32_small by lia.
  assert ((b_refcnt x - 1 =? 0) = (b_refcnt x =? 1)) as ->
    by (destruct (Z.eqb_spec (b_refcnt x - 1) 0), (Z.eqb_spec (b_refcnt x) 1); lia).
  destruct (b_refcnt x =? 1).
  - destruct (move_to_head_eq ((lock_taken LkBcache s1) <| k_bufs ::= alter dec b |>) e l1 b l2)
      as (bufs & Heq & Hlru2 & Hsame); [exact Hlru' |].
    exists bufs. split; [| done]. rewrite (bind_ret _ _ _ _ _ Heq).
    rewrite (release_section s1 _ e (sync_cpu c) LkBcache); try done. by rewrite Hs1.
  - krun. exists (alter dec b (k_bufs s)). split; [| done].
    rewrite (release_section s1 _ e (sync_cpu c) LkBcache); try done. by rewrite Hs1.
Qed.

(** ** Properties *)

(** C19: [bget] finds the cached copy of a block, and otherwise recycles the least
    recently used buffer nobody refers to.  With the list in recency order and no
    buffer locked it returns the buffer that caches the block, with one more
    reference; or else the last unreferenced buffer of the list, now labelled with
    the block, invalid, with one reference; in both cases locked by the caller.  It
    panics exactly when the block is not cached and every buffer is in use. *)
Theorem bget_lru s e c p pr l dev blockno :
  running s p c -> c_noff c = 0 -> k_procs s !! p = Some pr -> lock_free s LkBcache ->
  length (k_bufs s) = S NBUF -> lru (k_bufs s) l ->
  (forall b, b ∈ l -> lock_free s (LkSleep (SlBuf b)) /\ slock_held s (SlBuf b) = false) ->
  match find_buf (hit dev blockno) (k_bufs s) l, find_buf unused (k_bufs s) (rev l) with
  | Some b, _ => bget dev blockno (mkworld s e) = Ret b (mkworld (slock_taken (SlBuf b) (p_pid pr)
      ((sync s) <| k_bufs ::= alter (fun x => x <| b_refcnt := u32 (b_refcnt x + 1) |>) b |>)) e)
  | None, Some b => bget dev blockno (mkworld s e) = Ret b (mkworld (slock_taken (SlBuf b) (p_pid pr)
      ((sync s) <| k_bufs ::= alter (fun x => x <| b_dev := dev |> <| b_blockno := blockno |>
                                               <| b_valid := 0 |> <| b_refcnt := 1 |>) b |>)) e)
  | None, None => bget dev blockno (mkworld s e) = Panic "bget: no buffers"
  end.
Proof.
  intros Hr Hn Hpr Hl Hlen Hlru Hfree.
  pose proof (bget_eq s e c p pr l dev blockno Hr Hn Hpr Hl Hlen Hlru) as Hb. unfold bget_choice in Hb.
  destruct (find_buf (hit dev blockno) (k_bufs s) l) as [b |] eqn:Hf.
  - apply Hb; apply Hfree; by apply find_buf_in in Hf.
  - destruct (find_buf unused (k_bufs s) (rev l)) as [b |] eqn:Hu; [| done].
    apply find_buf_in in Hu. rewrite list_elem_of_In, <- in_rev, <- list_elem_of_In in Hu.
    apply Hb; by apply Hfree.
Qed.

(** C20: [brelse] keeps the list in recency order: releasing the last reference to a
    buffer moves it to the front and leaves the order of the others, and no release
    changes anything else of any buffer but its reference count. *)
Theorem brelse_lru s e c p pr l1 b l2 x :
  running s p c -> c_noff c = 0 -> k_procs s !! p = Some pr -> procs_free s (Some p) ->
  lock_free s LkBcache -> lock_free s (LkSleep (SlBuf b)) ->
  slock_held s (SlBuf b) = true -> sl_pid (slock_of s (SlBuf b)) = p_pid pr ->
  lru (k_bufs s) (l1 ++ b :: l2) -> k_bufs s !! b = Some x -> 1 <= b_refcnt x < 2 ^ 32 ->
  exists s', brelse b (mkworld s e) = Ret tt (mkworld s' e) /\ slock_held s' (SlBuf b) = false /\
    lru (k_bufs s') (if b_refcnt x =? 1 then b :: l1 ++ l2 else l1 ++ b :: l2) /\
    same_payload (alter (fun x => x <| b_refcnt := b_refcnt x - 1 |>) b (k_bufs s)) (k_bufs s').
Proof.
  intros Hr Hn Hpr Hf Hl Hls Hheld Hpid Hlru Hx Href.
  destruct (brelse_eq s e c p pr l1 b l2 x) as (bufs & Heq & Hb); try done.
  eexists. split; [exact Heq |]. split; [unfold slock_held, slock_of; cbn; by rewrite lookup_insert_eq | done].
Qed.
End bio.

(** ** The properties at a concrete state *)
Definition sample_order : list nat := rev (seq 0 NBUF).

Lemma sample_lru : lru (k_bufs sample) sample_order.
Proof.
  split; [apply NoDup_ListNoDup; vm_compute; repeat constructor; cbn; lia |].
  split; vm_compute; repeat split.
Defined.

Lemma bget_lru_witness :
  bget 1 33 (mkworld sample []) = Ret 0%nat (mkworld (slock_taken (SlBuf 0) 7
    ((sync sample) <| k_bufs ::= alter (fun x => x <| b_dev := 1 |> <| b_blockno := 33 |>
                                             <| b_valid := 0 |> <| b_refcnt := 1 |>) 0%nat |>)) []).
Proof.
  pose proof (bget_lru sample [] sample_cpu 3 sample_proc sample_order 1 33 sample_running eq_refl eq_refl
    (lock_free_dec sample LkBcache eq_refl) eq_refl sample_lru) as Hb.
  assert (find_buf (hit 1 33) (k_bufs sample) sample_order = None) as Hm by (vm_compute; reflexivity).
  assert (find_buf unused (k_bufs sample) (rev sample_order) = Some 0%nat) as Hu by (vm_compute; reflexivity).
  rewrite Hm, Hu in Hb. apply Hb. clear.
  assert (Forall (fun b => lock_free_b sample (LkSleep (SlBuf b)) && negb (slock_held sample (SlBuf b)) = true)
    sample_order) as Hall by (vm_compute; repeat constructor).
  intros b Hb. rewrite Forall_forall in Hall. apply Hall, andb_true_iff in Hb as [Hl Hh].
  split; [by apply lock_free_dec | by apply negb_true_iff].
Defined.

(** Buffer 4 is referred to once and locked by process 7. *)
Definition sample_held : kstate :=
  slock_taken (SlBuf 4) 7 (sample <| k_bufs ::= alter (fun x => x <| b_refcnt := 1 |>) 4%nat |>).

Lemma brelse_lru_witness :
  exists s', brelse 4 (mkworld sample_held []) = Ret tt (mkworld s' []) /\ slock_held s' (SlBuf 4) = false /\
    lru (k_bufs s') (4%nat :: rev (seq 5 25) ++ rev (seq 0 4)) /\
    same_payload (alter (fun x => x <| b_refcnt := b_refcnt x - 1 |>) 4%nat (k_bufs sample_held)) (k_bufs s').
Proof.
  apply (brelse_lru sample_held [] sample_cpu 3 sample_proc (rev (seq 5 25)) 4 (rev (seq 0 4))
    (mkbuf 0 0 0 0 1 5 3 (replicate 1024 0))).
  - exact sample_running.
  - reflexivity.
  - reflexivity.
  - apply sample_procs_free.
  - apply lock_free_dec. by vm_compute.
  - apply lock_free_dec. by vm_compute.
  - by vm_compute.
  - by vm_compute.
  - split; [apply NoDup_ListNoDup; vm_compute; repeat constructor; cbn; lia |].
    split; vm_compute; repeat split.
  - by vm_compute.
  - vm_compute. by split.
Defined.
