(* ===== verification/Disk.v ===== *)
(** * The disk under the buffer cache

    What the log relies on and the buffer cache provides.  The disk is a sequence
    of blocks that loses power between two writes; code is specified by the
    writes it performs ([performs]), so that the states a crash can expose are the
    prefixes of that list.  The cache ([kernel/bio.c]) is an up-to-date copy of some
    blocks ([bstate]): [bread], [bwrite], [brelse] and [bunpin] are specified
    against it. *)
From S2P Require Import Prelude Kstate Spinlock Mem Sample Sched Sleeplock Virtio Bio Printf.
Local Open Scope Z_scope.

(** ** Blocks and writes *)
Definition view : Type := Z -> list Z.
Definition zero_block : list Z := replicate 1024 0.
Definition disk_view (d : gmap Z (list Z)) : view := fun n => default zero_block (d !! n).
Definition vset (n : Z) (x : list Z) (v : view) : view := fun m => if decide (m = n) then x else v m.

(** A view, and a disk, after a list of writes. *)
Definition after (W : list (Z * list Z)) (v : view) : view := foldl (fun v w => vset w.1 w.2 v) v W.
Definition disk_after (W : list (Z * list Z)) (d : gmap Z (list Z)) : gmap Z (list Z) :=
  foldl (fun d w => <[w.1 := w.2]> d) d W.

Lemma vset_eq n x v : vset n x v n = x.
Proof. unfold vset. by rewrite decide_True. Qed.
Lemma vset_ne n x v m : m <> n -> vset n x v m = v m.
Proof. intros Hm. unfold vset. by rewrite decide_False. Qed.

Lemma after_cons w W v : after (w :: W) v = after W (vset w.1 w.2 v).
Proof. done. Qed.
Lemma disk_after_cons w W d : disk_after (w :: W) d = disk_after W (<[w.1 := w.2]> d).
Proof. done. Qed.
Lemma after_ext W v v' n : (forall m, v m = v' m) -> after W v n = after W v' n.
Proof.
  revert v v'. induction W as [| w W IH]; intros v v' Hv; [by apply Hv |].
  rewrite !after_cons. apply IH. intros m. unfold vset.
  by destruct (decide (m = w.1)).
Qed.
Lemma after_app W1 W2 v : after (W1 ++ W2) v = after W2 (after W1 v).
Proof. apply foldl_app. Qed.
Lemma disk_after_app W1 W2 d : disk_after (W1 ++ W2) d = disk_after W2 (disk_after W1 d).
Proof. apply foldl_app. Qed.
Lemma disk_view_insert d m x n : disk_view (<[m := x]> d) n = vset m x (disk_view d) n.
Proof.
  unfold disk_view, vset. case_decide as Hn; [subst; by rewrite lookup_insert_eq | by rewrite lookup_insert_ne].
Qed.
Lemma disk_view_after W d n : disk_view (disk_after W d) n = after W (disk_view d) n.
Proof.
  revert d. induction W as [| w W IH]; intros d; [done |].
  rewrite disk_after_cons, after_cons, IH. apply after_ext. intros m.
  apply disk_view_insert.
Qed.
(** A block no write names keeps its contents; one whose writes agree gets them. *)
Lemma after_notin W v n : n ∉ W.*1 -> after W v n = v n.
Proof.
  revert v. induction W as [| w W IH]; intros v Hn; [done |].
  rewrite after_cons, IH by set_solver.
  apply vset_ne. set_solver.
Qed.
Lemma after_in W v n x : n ∈ W.*1 -> (forall y, (n, y) ∈ W -> y = x) -> after W v n = x.
Proof.
  induction W as [| w W IH] using rev_ind; intros Hn Hx; [set_solver |]. rewrite after_app, after_cons.
  destruct w as [m y]. cbn [fst snd after foldl]. destruct (decide (n = m)) as [-> | Hne].
  - rewrite vset_eq. apply Hx. set_solver.
  - rewrite vset_ne by done. apply IH; [| set_solver]. rewrite fmap_app in Hn. set_solver.
Qed.

(** ** The disk *)

(** What the driver does for the cache: a read copies the block into the buffer; a
    write stores the buffer, unless the power fails first.  Each entry of the
    environment is one write the machine completes before the failure. *)
Class DiskLaws `{DiskDriver} : Prop := {
  disk_read s e b x : k_bufs s !! b = Some x ->
    disk_rw b false (mkworld s e) = Ret tt (mkworld
      (s <| k_bufs ::= alter (fun x => x <| b_data := disk_view (k_disk s) (b_blockno x) |>) b |>) e);
  disk_write s f e b x : k_bufs s !! b = Some x ->
    disk_rw b true (mkworld s (f :: e)) = Ret tt (mkworld (s <| k_disk ::= <[b_blockno x := b_data x]> |>) e);
  disk_fails s b x : k_bufs s !! b = Some x -> disk_rw b true (mkworld s []) = Hang (mkworld s [])
}.

(** A driver with these laws. *)
Definition plain_disk : DiskDriver := fun b write =>
  let! x := get_buf b in
  if write then
    (fun w => match w_env w with [] => Hang w | _ :: r => Ret tt (mkworld (w_k w) r) end) ;;;
    put (fun s => s <| k_disk ::= <[b_blockno x := b_data x]> |>)
  else put (fun s => s <| k_bufs ::= alter (fun x => x <| b_data := disk_view (k_disk s) (b_blockno x) |>) b |>).
Lemma plain_disk_laws : @DiskLaws plain_disk.
Proof.
  split; intros; unfold disk_rw, plain_disk;
    (erewrite bind_ret by (by apply get_buf_eq)); done.
Qed.

(** ** Code and the writes it performs *)

(** From [s], [m] performs exactly the writes [W], in order, and returns in a state
    that satisfies [Q]; with power for fewer writes it stops after as many. *)
Definition performs {A} (m : K A) (W : list (Z * list Z)) (Q : A -> kstate -> Prop) (s : kstate) : Prop :=
  forall e, match m (mkworld s e) with
  | Ret a w => length e = (length W + length (w_env w))%nat /\ k_disk (w_k w) = disk_after W (k_disk s) /\ Q a (w_k w)
  | Hang w => (length e < length W)%nat /\ k_disk (w_k w) = disk_after (take (length e) W) (k_disk s)
  | Panic _ => False
  end.

Lemma performs_ret {A} (m : K A) a s s' (Q : A -> kstate -> Prop) :
  (forall e, m (mkworld s e) = Ret a (mkworld s' e)) -> k_disk s' = k_disk s -> Q a s' -> performs m [] Q s.
Proof. intros Hm Hd HQ e. by rewrite Hm. Qed.

Lemma performs_bind {A B} (m : K A) (k : A -> K B) W1 W2 Q R s :
  performs m W1 Q s -> (forall a s', Q a s' -> performs (k a) W2 R s') -> performs (bind m k) (W1 ++ W2) R s.
Proof.
  intros Hm Hk e. specialize (Hm e). unfold bind. destruct (m (mkworld s e)) as [a [s1 e1] | | [s1 e1]]; cbn in *.
  - destruct Hm as (Hlen & Hd & HQ). specialize (Hk a s1 HQ e1). rewrite length_app.
    destruct (k a (mkworld s1 e1)) as [b w | | w]; [| done |].
    + destruct Hk as (Hlen2 & Hd2 & HR). rewrite disk_after_app, <- Hd. split; [lia | done].
    + destruct Hk as (Hlen2 & Hd2). split; [lia |]. rewrite take_app_ge by lia.
      rewrite disk_after_app, <- Hd, Hd2. do 2 f_equal. lia.
  - done.
  - destruct Hm as (Hlen & Hd). rewrite length_app. split; [lia |]. by rewrite take_app_le by lia.
Qed.
Lemma performs_seq {A B} (m : K A) (k : A -> K B) W Q R s :
  performs m [] Q s -> (forall a s', Q a s' -> performs (k a) W R s') -> performs (bind m k) W R s.
Proof. apply performs_bind. Qed.

Lemma performs_mono {A} (m : K A) W Q R s :
  performs m W Q s -> (forall a s', Q a s' -> R a s') -> performs m W R s.
Proof. intros Hm HQ e. specialize (Hm e). destruct (m (mkworld s e)); naive_solver. Qed.

Lemma performs_put f s (Q : unit -> kstate -> Prop) :
  k_disk (f s) = k_disk s -> Q tt (f s) -> performs (put f) [] Q s.
Proof. intros Hd HQ. by apply (performs_ret _ tt s (f s)). Qed.

(** ** The machine the code runs on

    Process [p] with pid [pid] runs alone on the hart: the locks of the cache, its
    buffers, the log, the inode table and the console are free, and the console accepts output. *)
Definition quiet_locks : list lockid :=
  [LkBcache; LkLog; LkPr; LkItable] ++ ((fun b => LkSleep (SlBuf b)) <$> seq 0 NBUF).
Definition machine (p : nat) (pid : Z) (s : kstate) : Prop :=
  exists c pr, running s p c /\ c_noff c = 0 /\ k_procs s !! p = Some pr /\ p_pid pr = pid /\
    procs_free s (Some p) /\ Forall (lock_free s) quiet_locks /\
    u_idle (k_uart s) = true /\ k_panicking s = 0 /\ k_panicked s = 0.

Lemma quiet_lock s lk : Forall (lock_free s) quiet_locks -> lk ∈ quiet_locks -> lock_free s lk.
Proof. rewrite Forall_forall. auto. Qed.
Lemma quiet_buf b : (b < NBUF)%nat -> LkSleep (SlBuf b) ∈ quiet_locks.
Proof.
  intros Hb. apply elem_of_app. right. apply list_elem_of_fmap. exists b. split; [done |].
  apply elem_of_seq. lia.
Qed.

Lemma machine_sync p pid s : machine p pid s -> machine p pid (sync s).
Proof.
  intros (c & pr & Hr & Hn & Hrest). exists (sync_cpu c), pr.
  split; [by apply running_sync |]. split; [done | exact Hrest].
Qed.
(** Waking other processes up leaves the machine as it was. *)
Lemma machine_wake p pid s ch : machine p pid s -> machine p pid (s <| k_procs ::= wake_all ch (Some p) |>).
Proof.
  intros (c & pr & Hr & Hn & Hpr & Hpid & [Hlen Hf] & Hrest). exists c, pr.
  split; [exact Hr |]. split; [done |]. split.
  - cbn. unfold wake_all. rewrite list_lookup_imap, Hpr. cbn. by rewrite bool_decide_true.
  - split; [done |]. split; [| exact Hrest]. split; [| exact Hf]. cbn. unfold wake_all. by rewrite length_imap.
Qed.

(** What the cache and the log leave alone. *)
Definition ilocks (s : kstate) : list (sleeplock * option spinlock) :=
  (fun i => (slock_of s (SlInode i), k_locks s !! LkSleep (SlInode i))) <$> seq 0 NINODE.
Definition fs_env (s : kstate) :=
  (k_sb s, k_mem s, k_files s, (fun pr => (p_pagetable pr, p_sz pr)) <$> k_procs s, ilocks s).
Definition fs_rest (s : kstate) := (k_inodes s, fs_env s).
Lemma ilocks_buf b k s : ilocks (s <| k_slocks ::= <[SlBuf b := k]> |>) = ilocks s.
Proof. unfold ilocks, slock_of. apply list_fmap_ext. intros i x _. cbn. by rewrite lookup_insert_ne. Qed.
Lemma fs_rest_buf b k s : fs_rest (s <| k_slocks ::= <[SlBuf b := k]> |>) = fs_rest s.
Proof. unfold fs_rest, fs_env. by rewrite ilocks_buf. Qed.
Lemma fs_rest_wake ch me s : fs_rest (s <| k_procs ::= wake_all ch me |>) = fs_rest s.
Proof.
  unfold fs_rest, fs_env. cbn. do 3 f_equal. apply list_eq. intros i. unfold wake_all. rewrite !list_lookup_fmap, list_lookup_imap.
  destruct (k_procs s !! i) as [pr |]; [| done]. cbn. case_bool_decide; [done |]. unfold wake_proc.
  by destruct (_ && _).
Qed.

(** ** The cache as a copy of the disk

    [mem] is the current contents of every block of [dev], [dirty] the blocks whose
    contents are not on the disk yet, [P] the pinned blocks, and [own] the buffers
    this process has locked, with their block numbers. *)
Section bstate.
Context `{DiskLaws} (p : nat) (pid : Z) (dev : Z).
Implicit Types (P dirty : gset Z) (own : list (nat * Z)) (mem : view).

Definition refs (P : gset Z) (own : list (nat * Z)) (b : nat) (x : buf) : Z :=
  (if decide (b_dev x = dev /\ b_blockno x ∈ P) then 1 else 0) + (if decide (b ∈ own.*1) then 1 else 0).

Record cached (bufs : list buf) (d : gmap Z (list Z)) P own dirty mem : Prop := {
  ca_len : length bufs = S NBUF;
  ca_uniq b1 b2 x1 x2 : (b1 < NBUF)%nat -> (b2 < NBUF)%nat -> bufs !! b1 = Some x1 -> bufs !! b2 = Some x2 ->
    b_dev x1 = dev -> b_dev x2 = dev -> b_blockno x1 = b_blockno x2 -> b1 = b2;
  ca_data b x : (b < NBUF)%nat -> bufs !! b = Some x -> b_dev x = dev -> b_valid x <> 0 ->
    b_data x = mem (b_blockno x);
  ca_ref b x : (b < NBUF)%nat -> bufs !! b = Some x -> b_refcnt x = refs P own b x;
  ca_pin n : n ∈ P -> exists b x, (b < NBUF)%nat /\ bufs !! b = Some x /\
    b_dev x = dev /\ b_blockno x = n /\ b_valid x <> 0;
  ca_own b n : (b, n) ∈ own -> exists x, (b < NBUF)%nat /\ bufs !! b = Some x /\
    b_dev x = dev /\ b_blockno x = n /\ b_valid x <> 0;
  ca_nodup : NoDup own.*1;
  ca_clean n : n ∉ dirty -> mem n = disk_view d n;
  ca_dirty n : n ∈ dirty -> n ∈ P \/ n ∈ own.*2;
  ca_size n : length (mem n) = 1024%nat
}.

Definition bstate (L : log) P own dirty mem (s : kstate) : Prop :=
  machine p pid s /\ k_log s = L /\
  (exists l, lru (k_bufs s) l /\ forall b, b ∈ l <-> (b < NBUF)%nat) /\
  (forall b, (b < NBUF)%nat -> slock_held s (SlBuf b) = bool_decide (b ∈ own.*1) /\
     (b ∈ own.*1 -> sl_pid (slock_of s (SlBuf b)) = pid)) /\
  cached (k_bufs s) (k_disk s) P own dirty mem.

(** The links of the buffers do not matter. *)
Lemma payload_lookup bufs bufs' b x : same_payload bufs bufs' -> bufs' !! b = Some x ->
  exists y, bufs !! b = Some y /\ payload x = payload y.
Proof.
  intros Hs Hx. assert ((payload <$> bufs') !! b = (payload <$> bufs) !! b) as He by (by rewrite Hs).
  rewrite !list_lookup_fmap, Hx in He. destruct (bufs !! b) as [y |]; [| done]. injection He as He.
  exists y. split; [done |]. unfold payload. congruence.
Qed.
Lemma same_payload_sym bufs bufs' : same_payload bufs bufs' -> same_payload bufs' bufs.
Proof. unfold same_payload. congruence. Qed.

Lemma cached_payload bufs bufs' d P own dirty mem :
  same_payload bufs bufs' -> cached bufs d P own dirty mem -> cached bufs' d P own dirty mem.
Proof.
  intros Hs [Hlen Hu Hd Hr Hp Ho Hnd Hc Hdi Hsz]. split; try done.
  - rewrite <- Hlen. rewrite <- (length_fmap payload bufs'), <- (length_fmap payload bufs). by rewrite Hs.
  - intros b1 b2 x1 x2 ?? H1 H2. destruct (payload_lookup _ _ _ _ Hs H1) as (y1 & Hy1 & [= ? ? -> -> ? ?]).
    destruct (payload_lookup _ _ _ _ Hs H2) as (y2 & Hy2 & [= ? ? -> -> ? ?]). eauto.
  - intros b x ? H1. destruct (payload_lookup _ _ _ _ Hs H1) as (y & Hy & [= -> ? -> -> ? ->]). eauto.
  - intros b x ? H1. destruct (payload_lookup _ _ _ _ Hs H1) as (y & Hy & [= ? ? Hv Hb -> ?]).
    rewrite (Hr b y) by done. unfold refs. by rewrite Hv, Hb.
  - intros n Hn. destruct (Hp n Hn) as (b & x & Hb & Hx & Hrest).
    destruct (payload_lookup _ _ _ _ (same_payload_sym _ _ Hs) Hx) as (y & Hy & [= Hv ? Hdv Hbn ? ?]).
    exists b, y. rewrite <- Hv, <- Hdv, <- Hbn. done.
  - intros b n Hn. destruct (Ho b n Hn) as (x & Hb & Hx & Hrest).
    destruct (payload_lookup _ _ _ _ (same_payload_sym _ _ Hs) Hx) as (y & Hy & [= Hv ? Hdv Hbn ? ?]).
    exists y. rewrite <- Hv, <- Hdv, <- Hbn. done.
Qed.

(** While fewer than [NBUF] buffers are pinned or locked, one is unreferenced. *)
Lemma cached_room bufs d P own dirty mem :
  cached bufs d P own dirty mem -> (size P + length own < NBUF)%nat ->
  exists b x, (b < NBUF)%nat /\ bufs !! b = Some x /\ b_refcnt x = 0.
Proof.
  intros Hca Hroom. pose proof (ca_len _ _ _ _ _ _ Hca) as Hlen.
  assert (Hdef : forall b, (b < NBUF)%nat -> exists x, bufs !! b = Some x).
  { intros b Hb. apply lookup_lt_is_Some. lia. }
  set (idle := filter (fun b => b ∉ own.*1) (seq 0 NBUF)).
  assert (NBUF <= length idle + length own)%nat as Hidle.
  { assert (seq 0 NBUF ⊆+ idle ++ own.*1) as Hsub.
    { apply NoDup_submseteq; [apply NoDup_seq |]. intros b Hb. apply elem_of_app.
      destruct (decide (b ∈ own.*1)); [by right | left]. by apply list_elem_of_filter. }
    apply submseteq_length in Hsub. rewrite length_seq, length_app, length_fmap in Hsub. done. }
  destruct (decide (Forall (fun b => from_option b_refcnt 0 (bufs !! b) <> 0) idle)) as [Hall | Hex].
  2:{ apply not_Forall_Exists in Hex; [| solve_decision]. apply Exists_exists in Hex as (b & Hb & Hz).
      apply list_elem_of_filter in Hb as [_ Hb%elem_of_seq]. destruct (Hdef b) as [x Hx]; [lia |].
      exists b, x. cbn in Hz. rewrite Hx in Hz. cbn in Hz. split; [lia | split; [done | lia]]. }
  exfalso. set (lab := fun b => from_option b_blockno 0 (bufs !! b)).
  assert (Hin : forall b, b ∈ idle -> exists x, (b < NBUF)%nat /\ bufs !! b = Some x /\ b_dev x = dev /\ b_blockno x ∈ P).
  { intros b Hb. rewrite Forall_forall in Hall. specialize (Hall b Hb).
    apply list_elem_of_filter in Hb as [Ho Hb%elem_of_seq]. destruct (Hdef b) as [x Hx]; [lia |].
    exists x. split; [lia |]. split; [done |]. rewrite Hx in Hall. cbn in Hall.
    rewrite (ca_ref _ _ _ _ _ _ Hca b x) in Hall by (lia || done). unfold refs in Hall.
    rewrite (decide_False (P := b ∈ own.*1)) in Hall by done. case_decide; [done | lia]. }
  assert (NoDup (lab <$> idle)) as Hnd.
  { apply NoDup_fmap_2_strong; [| apply NoDup_filter, NoDup_seq].
    intros b1 b2 H1 H2. destruct (Hin b1 H1) as (x1 & ? & Hx1 & ? & ?). destruct (Hin b2 H2) as (x2 & ? & Hx2 & ? & ?).
    unfold lab. rewrite Hx1, Hx2. cbn. eapply (ca_uniq _ _ _ _ _ _ Hca); done. }
  assert (lab <$> idle ⊆+ elements P) as Hsub.
  { apply NoDup_submseteq; [done |]. intros n Hn. apply list_elem_of_fmap in Hn as (b & -> & Hb).
    destruct (Hin b Hb) as (x & ? & Hx & ? & ?). apply elem_of_elements. unfold lab. by rewrite Hx. }
  apply submseteq_length in Hsub. rewrite length_fmap in Hsub.
  change (length (elements P)) with (size P) in Hsub. lia.
Qed.

(** ** Locking a buffer *)
Lemma refs_cons P own b n i x : i <> b -> refs P ((b, n) :: own) i x = refs P own i x.
Proof. intros Hi. unfold refs. f_equal. apply decide_ext. set_solver. Qed.
Lemma refs_nonneg P own b x : 0 <= refs P own b x <= 2.
Proof. unfold refs. repeat case_decide; lia. Qed.

(** The buffer [b] caches [n] already, or is unreferenced and relabelled. *)
Lemma cached_take bufs bufs' d P own dirty mem b n x y :
  cached bufs d P own dirty mem -> (b < NBUF)%nat -> b ∉ own.*1 -> bufs !! b = Some x -> bufs' !! b = Some y ->
  (forall i, i <> b -> bufs' !! i = bufs !! i) -> length bufs' = length bufs ->
  b_dev y = dev -> b_blockno y = n -> b_valid y <> 0 -> b_data y = mem n ->
  b_refcnt y = refs P ((b, n) :: own) b y ->
  (b_dev x = dev /\ b_blockno x = n) \/
  (b_refcnt x = 0 /\ forall i z, (i < NBUF)%nat -> bufs !! i = Some z -> b_dev z = dev -> b_blockno z <> n) ->
  cached bufs' d P ((b, n) :: own) dirty mem.
Proof.
  intros Hca Hb Hbo Hx Hy Hother Hlen Hdy Hny Hvy Hdata Href Hcase.
  assert (Hlab : forall i z, (i < NBUF)%nat -> i <> b -> bufs !! i = Some z -> b_dev z = dev -> b_blockno z <> n).
  { intros i z Hi Hne Hz Hdz Hnz. destruct Hcase as [[Hdx Hnx] | [_ Hno]]; [| by apply (Hno i z)].
    apply Hne. apply (ca_uniq _ _ _ _ _ _ Hca i b z x); congruence. }
  destruct Hca as [Hl Hu Hd Hr Hp Ho Hnd Hc Hdi Hsz]. split; try done.
  - congruence.
  - intros i1 i2 z1 z2 H1 H2 Hz1 Hz2 Hd1 Hd2 Hn.
    destruct (decide (i1 = b)) as [-> | N1], (decide (i2 = b)) as [-> | N2]; [done | | |].
    + rewrite Hother in Hz2 by done. exfalso. apply (Hlab i2 z2); congruence.
    + rewrite Hother in Hz1 by done. exfalso. apply (Hlab i1 z1); congruence.
    + rewrite Hother in Hz1, Hz2 by done. by apply (Hu i1 i2 z1 z2).
  - intros i z Hi Hz Hdz Hvz. destruct (decide (i = b)) as [-> | Hne]; [congruence |].
    rewrite Hother in Hz by done. by apply (Hd i z).
  - intros i z Hi Hz. destruct (decide (i = b)) as [-> | Hne]; [congruence |].
    rewrite Hother in Hz by done. rewrite refs_cons by done. by apply Hr.
  - intros m Hm. destruct (Hp m Hm) as (i & z & Hi & Hz & Hdz & Hnz & Hvz).
    destruct (decide (i = b)) as [-> | Hne]; [| exists i, z; by rewrite Hother].
    assert (z = x) as -> by congruence. destruct Hcase as [[_ Hnx] | [Hrx _]].
    + exists b, y. naive_solver congruence.
    + exfalso. rewrite (Hr b x Hi Hz) in Hrx. unfold refs in Hrx.
      rewrite decide_True in Hrx by (by rewrite Hnz). case_decide; lia.
  - intros i m [[= -> ->] | Him]%elem_of_cons; [by exists y |].
    destruct (Ho i m Him) as (z & Hi & Hz & Hrest). exists z. rewrite Hother; [done |].
    intros ->. apply Hbo. apply list_elem_of_fmap. by exists (b, m).
  - cbn. by constructor.
  - intros m Hm. destruct (Hdi m Hm) as [? | ?]; [by left | right; cbn; by right].
Qed.

Lemma find_buf_true Q bufs l b : find_buf Q bufs l = Some b -> exists x, bufs !! b = Some x /\ Q x = true.
Proof.
  induction l as [| z l IH]; [done |]. cbn. destruct (bufs !! z) as [x |] eqn:Hz; cbn; [| done].
  destruct (Q x) eqn:HQ; [intros [= <-]; eauto | done].
Qed.
Lemma find_buf_none Q bufs l b x : find_buf Q bufs l = None -> b ∈ l -> bufs !! b = Some x -> Q x = false.
Proof.
  induction l as [| z l IH]; [set_solver |]. cbn. intros Hf [-> | Hb]%elem_of_cons Hx.
  - rewrite Hx in Hf. cbn in Hf. by destruct (Q x).
  - apply IH; [| done | done]. by destruct (from_option Q false (bufs !! z)).
Qed.

(** The sleep locks when [b] is locked, and when it is unlocked. *)
Definition locks_ok (own : list (nat * Z)) (s : kstate) : Prop :=
  forall b, (b < NBUF)%nat -> slock_held s (SlBuf b) = bool_decide (b ∈ own.*1) /\
    (b ∈ own.*1 -> sl_pid (slock_of s (SlBuf b)) = pid).
Lemma locks_taken own b n s s' :
  locks_ok own s -> k_slocks s' = k_slocks (slock_taken (SlBuf b) pid s) -> locks_ok ((b, n) :: own) s'.
Proof.
  intros Hl Hs i Hi. unfold slock_held, slock_of. rewrite Hs. cbn. destruct (decide (i = b)) as [-> | Hne].
  - rewrite lookup_insert_eq. cbn. split; [symmetry; apply bool_decide_eq_true; set_solver | done].
  - rewrite lookup_insert_ne by congruence. destruct (Hl i Hi) as [Hh Hp]. unfold slock_held, slock_of in *.
    rewrite Hh. split; [apply bool_decide_ext; set_solver | intros Hio; apply Hp; set_solver].
Qed.

(** ** [bread] *)

(** What [bget] finds: a buffer that is not locked, which it labels and counts. *)
Lemma bget_finds L P own dirty mem n s l :
  bstate L P own dirty mem s -> lru (k_bufs s) l -> (forall b, b ∈ l <-> (b < NBUF)%nat) ->
  n ∉ own.*2 -> n ∈ P \/ (size P + length own < NBUF)%nat ->
  exists b h x, bget_choice (k_bufs s) l dev n = Some (b, h) /\ (b < NBUF)%nat /\ (b ∉ own.*1) /\
    k_bufs s !! b = Some x /\
    ((b_dev x = dev /\ b_blockno x = n) \/
     (b_refcnt x = 0 /\ forall i z, (i < NBUF)%nat -> k_bufs s !! i = Some z -> b_dev z = dev -> b_blockno z <> n)) /\
    let y := bget_claim h dev n x in
    b_dev y = dev /\ b_blockno y = n /\ b_refcnt y = refs P ((b, n) :: own) b y /\
    (b_valid y <> 0 -> b_data y = mem n) /\ (b_valid y = 0 -> disk_view (k_disk s) n = mem n).
Proof.
  intros (_ & _ & _ & _ & Hca) Hlru Hl Hno Hroom. unfold bget_choice.
  assert (Hown : forall b x, (b < NBUF)%nat -> k_bufs s !! b = Some x -> b_blockno x = n -> b ∉ own.*1).
  { intros b x Hb Hx Hbn Hin. apply list_elem_of_fmap in Hin as ([b' m] & -> & Hin).
    destruct (ca_own _ _ _ _ _ _ Hca _ _ Hin) as (x' & _ & Hx' & _ & Hm & _). cbn in *.
    apply Hno. apply list_elem_of_fmap. exists (b', m). split; [| done]. cbn. congruence. }
  assert (Hclean : n ∉ P -> disk_view (k_disk s) n = mem n).
  { intros HnP. symmetry. apply (ca_clean _ _ _ _ _ _ Hca). intros Hd.
    by destruct (ca_dirty _ _ _ _ _ _ Hca n Hd). }
  destruct (find_buf (hit dev n) (k_bufs s) l) as [b |] eqn:Hf.
  - destruct (find_buf_true _ _ _ _ Hf) as (x & Hx & [Hd%Z.eqb_eq Hbn%Z.eqb_eq]%andb_true_iff).
    apply find_buf_in, Hl in Hf. pose proof (Hown b x Hf Hx Hbn) as Hbo.
    exists b, true, x. split; [done |]. split; [done |]. split; [done |]. split; [done |].
    split; [by left |]. cbn. split; [done |]. split; [done |]. split; [| split].
    + rewrite (ca_ref _ _ _ _ _ _ Hca b x) by done. pose proof (refs_nonneg P own b x).
      rewrite u32_small by lia. unfold refs. cbn.
      rewrite (decide_False (P := b ∈ own.*1)), (decide_True (P := b ∈ (b :: (own.*1)))) by (done || by left). lia.
    + intros Hv. rewrite <- Hbn. by apply (ca_data _ _ _ _ _ _ Hca b x).
    + intros Hv. apply Hclean. intros HnP. destruct (ca_pin _ _ _ _ _ _ Hca n HnP) as (i & z & Hi & Hz & Hdz & Hnz & Hvz).
      assert (i = b) as -> by (apply (ca_uniq _ _ _ _ _ _ Hca i b z x); congruence). congruence.
  - assert (Hmiss : forall i z, (i < NBUF)%nat -> k_bufs s !! i = Some z -> b_dev z = dev -> b_blockno z <> n).
    { intros i z Hi Hz Hd Hz'. apply Hl in Hi. pose proof (find_buf_none _ _ _ _ _ Hf Hi Hz) as Hhit.
      unfold hit in Hhit. by rewrite Hd, Hz', !Z.eqb_refl in Hhit. }
    assert (n ∉ P) as HnP.
    { intros HnP. destruct (ca_pin _ _ _ _ _ _ Hca n HnP) as (i & z & Hi & Hz & Hdz & Hnz & _).
      by apply (Hmiss i z). }
    destruct Hroom as [? | Hroom]; [done |]. destruct (cached_room _ _ _ _ _ _ Hca Hroom) as (b0 & x0 & Hb0 & Hx0 & Hr0).
    destruct (find_buf unused (k_bufs s) (rev l)) as [b |] eqn:Hu.
    2:{ exfalso. pose proof (find_buf_none _ _ _ b0 x0 Hu) as Hnone. unfold unused in Hnone. rewrite Hr0 in Hnone.
        discriminate Hnone; [| done]. rewrite list_elem_of_In, <- in_rev, <- list_elem_of_In. by apply Hl. }
    destruct (find_buf_true _ _ _ _ Hu) as (x & Hx & Hrx%Z.eqb_eq). apply find_buf_in in Hu.
    rewrite list_elem_of_In, <- in_rev, <- list_elem_of_In in Hu. apply Hl in Hu.
    assert (b ∉ own.*1) as Hbo.
    { intros Hin. rewrite (ca_ref _ _ _ _ _ _ Hca b x) in Hrx by done. unfold refs in Hrx.
      rewrite (decide_True (P := b ∈ own.*1)) in Hrx by done. case_decide; lia. }
    exists b, false, x. split; [done |]. split; [done |]. split; [done |]. split; [done |].
    split; [by right |]. cbn. split; [done |]. split; [done |]. split; [| by split; [| auto]].
    unfold refs. cbn. rewrite (decide_True (P := b ∈ (b :: (own.*1)))) by (by left).
    by rewrite decide_False by (by intros [_ ?]).
Qed.

(** A buffer brought up to date; nothing else of the machine changes. *)
Lemma bstate_take L P own dirty mem s s' b n x y :
  bstate L P own dirty mem s -> (b < NBUF)%nat -> b ∉ own.*1 -> k_bufs s !! b = Some x ->
  ((b_dev x = dev /\ b_blockno x = n) \/
   (b_refcnt x = 0 /\ forall i z, (i < NBUF)%nat -> k_bufs s !! i = Some z -> b_dev z = dev -> b_blockno z <> n)) ->
  machine p pid s' -> k_log s' = L -> k_disk s' = k_disk s ->
  k_slocks s' = k_slocks (slock_taken (SlBuf b) pid s) ->
  (forall l, lru (k_bufs s) l -> lru (k_bufs s') l) -> length (k_bufs s') = length (k_bufs s) ->
  (forall i, i <> b -> k_bufs s' !! i = k_bufs s !! i) -> k_bufs s' !! b = Some y ->
  b_dev y = dev -> b_blockno y = n -> b_valid y <> 0 -> b_data y = mem n ->
  b_refcnt y = refs P ((b, n) :: own) b y ->
  bstate L P ((b, n) :: own) dirty mem s'.
Proof.
  intros (Hm & HL & (l & Hlru & Hl) & Hsl & Hca) Hb Hbo Hx Hcase Hm' HL' Hd' Hsl' Hlru' Hlen' Hoth Hy Hdy Hny Hvy Hda Hry.
  split; [done |]. split; [done |]. split; [exists l; auto |]. split; [by apply (locks_taken own b n s) |].
  rewrite Hd'. by apply (cached_take (k_bufs s) _ _ P own dirty mem b n x y).
Qed.

Lemma bread_keeps L P own dirty mem n s :
  bstate L P own dirty mem s -> n ∉ own.*2 -> n ∈ P \/ (size P + length own < NBUF)%nat ->
  performs (bread dev n) [] (fun b s' => bstate L P ((b, n) :: own) dirty mem s' /\ fs_rest s' = fs_rest s) s.
Proof.
  intros Hs Hno Hroom. pose proof Hs as (Hm & HL & (l & Hlru & Hl) & Hsl & Hca).
  pose proof Hm as (c & pr & Hr & Hn & Hpr & Hpid & Hpf & Hlk & Hu).
  destruct (bget_finds L P own dirty mem n s l) as (b & h & x & Hch & Hb & Hbo & Hx & Hcase & Hdy & Hny & Hry & Hv1 & Hv0);
    try done.
  set (y := bget_claim h dev n x) in *.
  set (s1 := slock_taken (SlBuf b) pid ((sync s) <| k_bufs ::= alter (bget_claim h dev n) b |>)).
  assert (Hget : forall e, bget dev n (mkworld s e) = Ret b (mkworld s1 e)).
  { intros e. pose proof (bget_eq s e c p pr l dev n Hr Hn Hpr
      (quiet_lock s LkBcache Hlk ltac:(apply elem_of_app; left; by left)) (ca_len _ _ _ _ _ _ Hca) Hlru) as Hg.
    rewrite Hch, Hpid in Hg. apply Hg; [by apply (quiet_lock s _ Hlk), quiet_buf |].
    destruct (Hsl b Hb) as [-> _]. by apply bool_decide_eq_false. }
  assert (Hy : k_bufs s1 !! b = Some y) by (cbn; by rewrite list_lookup_alter_eq, Hx).
  assert (Hcl : forall z, b_next (bget_claim h dev n z) = b_next z /\ b_prev (bget_claim h dev n z) = b_prev z)
    by (by destruct h).
  pose proof (machine_sync p pid s Hm) as Hm1.
  destruct (decide (b_valid y = 0)) as [Hv | Hv].
  - set (s2 := s1 <| k_bufs ::= alter (fun x => x <| b_data := disk_view (k_disk s1) (b_blockno x) |>) b |>).
    set (s3 := s2 <| k_bufs ::= alter (fun x => x <| b_valid := 1 |>) b |>).
    apply (performs_ret _ b s s3); [| done |].
    + intros e. unfold bread. rewrite (bind_ret _ _ _ _ _ (Hget e)).
      erewrite bind_ret by (by apply get_buf_eq). rewrite Hv. cbn [Z.eqb].
      rewrite bind_assoc. rewrite (bind_ret _ _ _ _ _ (disk_read s1 e b y Hy)). done.
    + split; [| exact (fs_rest_buf b _ (sync s))]. apply (bstate_take L P own dirty mem s s3 b n x
        (y <| b_data := disk_view (k_disk s) (b_blockno y) |> <| b_valid := 1 |>)); try done.
      * intros l' Hl'. by repeat apply lru_payload.
      * cbn. by rewrite !length_alter.
      * intros i Hi. cbn. by rewrite !list_lookup_alter_ne by done.
      * cbn. by rewrite !list_lookup_alter_eq, Hx.
      * cbn. rewrite Hny. by apply Hv0.
  - apply (performs_ret _ b s s1); [| done |].
    + intros e. unfold bread. rewrite (bind_ret _ _ _ _ _ (Hget e)).
      erewrite bind_ret by (by apply get_buf_eq). by rewrite (proj2 (Z.eqb_neq _ _) Hv).
    + split; [| exact (fs_rest_buf b _ (sync s))]. apply (bstate_take L P own dirty mem s s1 b n x y); try done.
      * intros l' Hl'. by apply lru_payload.
      * cbn. by rewrite length_alter.
      * intros i Hi. cbn. by rewrite list_lookup_alter_ne by done.
      * auto.
Qed.
Lemma bread_performs L P own dirty mem n s :
  bstate L P own dirty mem s -> n ∉ own.*2 -> n ∈ P \/ (size P + length own < NBUF)%nat ->
  performs (bread dev n) [] (fun b s' => bstate L P ((b, n) :: own) dirty mem s') s.
Proof. intros Hs Hn Hr. eapply performs_mono; [by apply bread_keeps | by intros b s' [? _]]. Qed.

(** ** A locked buffer *)
Lemma get_buf_performs L P own dirty mem b n s :
  bstate L P own dirty mem s -> (b, n) ∈ own ->
  performs (get_buf b) [] (fun x s' => b_data x = mem n /\ b_blockno x = n /\ s' = s) s.
Proof.
  intros (_ & _ & _ & _ & Hca) Hin. destruct (ca_own _ _ _ _ _ _ Hca b n Hin) as (x & Hb & Hx & Hd & Hn & Hv).
  apply (performs_ret _ x s s); [intros e; by apply get_buf_eq | done |].
  split; [| done]. rewrite <- Hn. by apply (ca_data _ _ _ _ _ _ Hca b x).
Qed.

(** Updating the buffer [b] of block [n] in the cache. *)
Lemma own_label bufs d P own dirty mem b n i z :
  cached bufs d P own dirty mem -> (b, n) ∈ own -> (i < NBUF)%nat -> bufs !! i = Some z -> b_dev z = dev ->
  b_blockno z = n <-> i = b.
Proof.
  intros Hca Hin Hi Hz Hdz. destruct (ca_own _ _ _ _ _ _ Hca b n Hin) as (x & Hb & Hx & Hd & Hn & Hv). split.
  - intros Hzn. apply (ca_uniq _ _ _ _ _ _ Hca i b z x); congruence.
  - intros ->. congruence.
Qed.
Lemma cached_store bufs d P own dirty mem b n dat :
  cached bufs d P own dirty mem -> (b, n) ∈ own -> length dat = 1024%nat ->
  cached (alter (fun x => x <| b_data := dat |>) b bufs) d P own (dirty ∪ {[n]}) (vset n dat mem).
Proof.
  intros Hca Hin Hdat. pose proof (fun i z => own_label _ _ _ _ _ _ b n i z Hca Hin) as Hlab.
  assert (Hlk : forall i z, alter (fun x => x <| b_data := dat |>) b bufs !! i = Some z ->
    exists x, bufs !! i = Some x /\ z = if decide (i = b) then x <| b_data := dat |> else x).
  { intros i z. case_decide as Hi; [subst; rewrite list_lookup_alter_eq | rewrite list_lookup_alter_ne by done; eauto].
    intros (x & Hx & ->)%fmap_Some. eauto. }
  assert (Hbk : forall i x, bufs !! i = Some x -> exists z, alter (fun x => x <| b_data := dat |>) b bufs !! i = Some z /\
    b_valid z = b_valid x /\ b_dev z = b_dev x /\ b_blockno z = b_blockno x).
  { intros i x Hx. destruct (decide (i = b)) as [-> |]; [rewrite list_lookup_alter_eq, Hx | rewrite list_lookup_alter_ne by done];
      eauto. }
  destruct Hca as [Hl Hu Hd Hr Hp Ho Hnd Hc Hdi Hsz]. split; try done.
  - by rewrite length_alter.
  - intros b1 b2 z1 z2 ?? H1 H2. destruct (Hlk _ _ H1) as (x1 & Hx1 & ->), (Hlk _ _ H2) as (x2 & Hx2 & ->).
    specialize (Hu b1 b2 x1 x2). repeat case_decide; cbn; auto.
  - intros i z Hi Hz. destruct (Hlk _ _ Hz) as (x & Hx & ->). specialize (Hlab i x Hi Hx). specialize (Hd i x Hi Hx).
    case_decide as Hib; cbn; intros Hdx Hvx; unfold vset.
    + rewrite decide_True; [done |]. by apply Hlab.
    + rewrite decide_False; [auto |]. rewrite Hlab; done.
  - intros i z Hi Hz. destruct (Hlk _ _ Hz) as (x & Hx & ->). specialize (Hr i x Hi Hx). unfold refs in *.
    case_decide as Hib; cbn; done.
  - intros m Hm. destruct (Hp m Hm) as (i & x & Hi & Hx & Hrest). destruct (Hbk i x Hx) as (z & Hz & Hvz & Hdz & Hnz).
    exists i, z. rewrite Hvz, Hdz, Hnz. naive_solver.
  - intros i m Him. destruct (Ho i m Him) as (x & Hi & Hx & Hrest). destruct (Hbk i x Hx) as (z & Hz & Hvz & Hdz & Hnz).
    exists z. rewrite Hvz, Hdz, Hnz. naive_solver.
  - intros m Hm. rewrite vset_ne by set_solver. apply Hc. set_solver.
  - intros m [Hm | ->%elem_of_singleton]%elem_of_union; [auto |]. right. apply list_elem_of_fmap. by exists (b, n).
  - intros m. unfold vset. case_decide; auto.
Qed.

Lemma store_keeps L P own dirty mem b n dat s :
  bstate L P own dirty mem s -> (b, n) ∈ own -> length dat = 1024%nat ->
  performs (upd_buf b (fun x => x <| b_data := dat |>)) []
    (fun _ s' => bstate L P own (dirty ∪ {[n]}) (vset n dat mem) s' /\ fs_rest s' = fs_rest s) s.
Proof.
  intros (Hm & HL & (l & Hlru & Hl) & Hsl & Hca) Hin Hdat. apply performs_put; [done |]. split; [| done].
  split; [exact Hm |]. split; [exact HL |]. split; [exists l; split; [by apply lru_payload | done] |].
  split; [exact Hsl |]. by apply cached_store.
Qed.
Lemma store_performs L P own dirty mem b n dat s :
  bstate L P own dirty mem s -> (b, n) ∈ own -> length dat = 1024%nat ->
  performs (upd_buf b (fun x => x <| b_data := dat |>)) []
    (fun _ s' => bstate L P own (dirty ∪ {[n]}) (vset n dat mem) s') s.
Proof. intros Hs Hn Hd. eapply performs_mono; [by apply store_keeps | by intros u s' [? _]]. Qed.

(** ** [bwrite] *)
Lemma bwrite_performs L P own dirty mem b n s :
  bstate L P own dirty mem s -> (b, n) ∈ own ->
  performs (bwrite b) [(n, mem n)] (fun _ s' => bstate L P own (dirty ∖ {[n]}) mem s') s.
Proof.
  intros (Hm & HL & Hlru & Hsl & Hca) Hin. pose proof Hm as (c & pr & Hr & Hn & Hpr & Hpid & Hpf & Hlk & Hu).
  destruct (ca_own _ _ _ _ _ _ Hca b n Hin) as (x & Hb & Hx & Hd & Hbn & Hv).
  assert (b ∈ own.*1) as Hbo by (apply list_elem_of_fmap; by exists (b, n)).
  assert (Hstart : forall e, bwrite b (mkworld s e) = disk_rw b true (mkworld (sync s) e)).
  { intros e. unfold bwrite. kcall (holdingsleep_eq s e c p pr (SlBuf b)); [lia | |].
    { by apply (quiet_lock s _ Hlk), quiet_buf. }
    destruct (Hsl b Hb) as [Hh Hp]. by rewrite Hh, bool_decide_true, Hp, Hpid, Z.eqb_refl by done. }
  assert (b_data x = mem n) as Hdat by (rewrite <- Hbn; by apply (ca_data _ _ _ _ _ _ Hca b x)).
  intros e. rewrite Hstart. destruct e as [| f e].
  - rewrite (disk_fails (sync s) b x) by done. cbn. split; [lia | done].
  - rewrite (disk_write (sync s) f e b x) by done. cbn [w_env w_k length]. split; [lia |].
    rewrite Hbn, Hdat. split; [done |].
    split; [exact (machine_sync p pid s Hm) |]. split; [exact HL |]. split; [exact Hlru |]. split; [exact Hsl |].
    destruct Hca as [Hl' Hu' Hd' Hr' Hp' Ho' Hnd' Hc' Hdi' Hsz']. split; try done.
    + intros m Hmd. cbn. rewrite disk_view_insert. unfold vset. case_decide as Hmn; [by subst |]. apply Hc'. set_solver.
    + intros m Hmd. apply Hdi'. set_solver.
Qed.

(** ** Reference counts *)
Lemma cached_count bufs d P P' own own' dirty mem b x r :
  cached bufs d P own dirty mem -> (b < NBUF)%nat -> bufs !! b = Some x ->
  (forall i z, (i < NBUF)%nat -> i <> b -> bufs !! i = Some z -> refs P' own' i z = refs P own i z) ->
  r = refs P' own' b x ->
  (forall n, n ∈ P' -> n ∈ P \/ (b_dev x = dev /\ b_blockno x = n /\ b_valid x <> 0)) ->
  (forall o, o ∈ own' -> o ∈ own) -> NoDup own'.*1 -> (forall n, n ∈ dirty -> n ∈ P' \/ n ∈ own'.*2) ->
  cached (alter (fun x => x <| b_refcnt := r |>) b bufs) d P' own' dirty mem.
Proof.
  intros Hca Hb Hx Hoth Hr' HP Hown Hnd' Hdi'.
  assert (Hlk : forall i z, alter (fun x => x <| b_refcnt := r |>) b bufs !! i = Some z ->
    exists y, bufs !! i = Some y /\ z = if decide (i = b) then y <| b_refcnt := r |> else y).
  { intros i z. case_decide as Hi; [subst; rewrite list_lookup_alter_eq | rewrite list_lookup_alter_ne by done; eauto].
    intros (y & Hy & ->)%fmap_Some. eauto. }
  assert (Hbk : forall i y, bufs !! i = Some y -> exists z, alter (fun x => x <| b_refcnt := r |>) b bufs !! i = Some z /\
    b_valid z = b_valid y /\ b_dev z = b_dev y /\ b_blockno z = b_blockno y).
  { intros i y Hy. destruct (decide (i = b)) as [-> |]; [rewrite list_lookup_alter_eq, Hy | rewrite list_lookup_alter_ne by done];
      eauto. }
  destruct Hca as [Hl Hu Hd Hr Hp Ho Hnd Hc Hdi Hsz]. split; try done.
  - by rewrite length_alter.
  - intros b1 b2 z1 z2 ?? H1 H2. destruct (Hlk _ _ H1) as (x1 & Hx1 & ->), (Hlk _ _ H2) as (x2 & Hx2 & ->).
    specialize (Hu b1 b2 x1 x2). repeat case_decide; cbn; auto.
  - intros i z Hi Hz. destruct (Hlk _ _ Hz) as (y & Hy & ->). specialize (Hd i y Hi Hy). case_decide; done.
  - intros i z Hi Hz. destruct (Hlk _ _ Hz) as (y & Hy & ->). case_decide as Hib.
    + subst i. assert (y = x) as -> by congruence. cbn. exact Hr'.
    + rewrite Hoth by done. by apply Hr.
  - intros m Hm. destruct (HP m Hm) as [HmP | Hmx].
    + destruct (Hp m HmP) as (i & y & Hi & Hy & Hrest). destruct (Hbk i y Hy) as (z & Hz & Hvz & Hdz & Hnz).
      exists i, z. rewrite Hvz, Hdz, Hnz. naive_solver.
    + destruct (Hbk b x Hx) as (z & Hz & Hvz & Hdz & Hnz). exists b, z. rewrite Hvz, Hdz, Hnz. naive_solver.
  - intros i m Him. destruct (Ho i m (Hown _ Him)) as (y & Hi & Hy & Hrest).
    destruct (Hbk i y Hy) as (z & Hz & Hvz & Hdz & Hnz). exists z. rewrite Hvz, Hdz, Hnz. naive_solver.
Qed.

Lemma bunpin_eq s e c b :
  cpu_ok s c -> lock_free s LkBcache ->
  bunpin b (mkworld s e) =
    Ret tt (mkworld ((sync s) <| k_bufs ::= alter (fun x => x <| b_refcnt := u32 (b_refcnt x - 1) |>) b |>) e).
Proof.
  intros Hc Hl. unfold bunpin. kcall (acquire_eq s e c LkBcache).
  unfold upd_buf. krun. by rewrite (release_section s _ e c LkBcache).
Qed.

Lemma alter_count (f : Z -> Z) b x (bufs : list buf) r :
  bufs !! b = Some x -> f (b_refcnt x) = r ->
  alter (fun x => x <| b_refcnt := f (b_refcnt x) |>) b bufs = alter (fun x => x <| b_refcnt := r |>) b bufs.
Proof.
  intros Hx Hr. apply list_alter_ext; [| done]. intros y Hy. assert (y = x) as -> by congruence. cbv beta. by rewrite Hr.
Qed.

(** Pinning a locked block, and giving up a pin while the block is locked. *)
Lemma refs_pin bufs d P P' own dirty mem b n i z :
  cached bufs d P own dirty mem -> (b, n) ∈ own -> (forall m, m <> n -> m ∈ P' <-> m ∈ P) ->
  (i < NBUF)%nat -> i <> b -> bufs !! i = Some z -> refs P' own i z = refs P own i z.
Proof.
  intros Hca Hin HP Hi Hne Hz. unfold refs. f_equal. apply decide_ext. split; intros [Hd Hm]; (split; [done |]);
    (apply HP in Hm || apply HP); try done; intros Hzn; apply Hne; by apply (own_label _ _ _ _ _ _ b n i z Hca).
Qed.
Lemma bunpin_performs L P own dirty mem b n s :
  bstate L P own dirty mem s -> (b, n) ∈ own -> n ∈ P ->
  performs (bunpin b) [] (fun _ s' => bstate L (P ∖ {[n]}) own dirty mem s') s.
Proof.
  intros (Hm & HL & (l & Hlru & Hl) & Hsl & Hca) Hin HnP.
  pose proof Hm as (c & pr & Hr & Hn & Hpr & Hpid & Hpf & Hlk & Hu). pose proof Hr as (Hc & _).
  destruct (ca_own _ _ _ _ _ _ Hca b n Hin) as (x & Hb & Hx & Hd & Hbn & Hv).
  assert (b ∈ own.*1) as Hbo by (apply list_elem_of_fmap; by exists (b, n)).
  eapply performs_ret; [intros e; apply (bunpin_eq s e c b Hc); apply (quiet_lock s _ Hlk); apply elem_of_app; left; by left
                       | done |].
  split; [exact (machine_sync p pid s Hm) |]. split; [exact HL |].
  split; [exists l; split; [by apply lru_payload | done] |]. split; [exact Hsl |]. cbn.
  assert (b_refcnt x = 2) as Hrx.
  { rewrite (ca_ref _ _ _ _ _ _ Hca b x) by done. unfold refs. by rewrite !decide_True by (done || by rewrite Hbn). }
  rewrite (alter_count (fun r => u32 (r - 1)) b x _ 1) by (done || by rewrite Hrx).
  eapply cached_count; try done.
  - intros i z Hi Hne Hz. by apply (refs_pin (k_bufs s) (k_disk s) P _ own dirty mem b n); [| | set_solver | | |].
  - unfold refs. rewrite decide_False, decide_True; [done | done |]. rewrite Hbn. set_solver.
  - set_solver.
  - by apply (ca_nodup _ _ _ _ _ _ Hca).
  - intros m Hmd. destruct (decide (m = n)) as [-> |]; [right; apply list_elem_of_fmap; by exists (b, n) |].
    destruct (ca_dirty _ _ _ _ _ _ Hca m Hmd); [left; set_solver | by right].
Qed.

(** ** [brelse] *)
Lemma locks_freed o1 b n o2 s s' :
  locks_ok (o1 ++ (b, n) :: o2) s -> NoDup (o1 ++ (b, n) :: o2).*1 ->
  k_slocks s' = k_slocks (slock_freed (SlBuf b) s) -> locks_ok (o1 ++ o2) s'.
Proof.
  intros Hl Hnd Hs i Hi. unfold slock_held, slock_of. rewrite Hs. cbn. rewrite fmap_app in Hnd. cbn in Hnd.
  rewrite <- Permutation_middle, NoDup_cons in Hnd. destruct Hnd as [Hnb _]. rewrite fmap_app.
  destruct (decide (i = b)) as [-> | Hne].
  - rewrite lookup_insert_eq. cbn. split; [symmetry; by apply bool_decide_eq_false | done].
  - rewrite lookup_insert_ne by congruence. destruct (Hl i Hi) as [Hh Hp]. unfold slock_held, slock_of in *.
    rewrite fmap_app in Hh, Hp. cbn in Hh, Hp. rewrite Hh.
    split; [apply bool_decide_ext; set_solver | intros Hio; apply Hp; set_solver].
Qed.

Lemma brelse_keeps L P o1 b n o2 dirty mem s :
  bstate L P (o1 ++ (b, n) :: o2) dirty mem s -> n ∈ P \/ n ∉ dirty ->
  performs (brelse b) [] (fun _ s' => bstate L P (o1 ++ o2) dirty mem s' /\ fs_rest s' = fs_rest s) s.
Proof.
  intros (Hm & HL & (l & Hlru & Hl) & Hsl & Hca) Hclean. set (own := o1 ++ (b, n) :: o2) in *.
  pose proof Hm as (c & pr & Hr & Hn & Hpr & Hpid & Hpf & Hlk & Hu).
  assert ((b, n) ∈ own) as Hin by (unfold own; set_solver).
  destruct (ca_own _ _ _ _ _ _ Hca b n Hin) as (x & Hb & Hx & Hd & Hbn & Hv).
  assert (b ∈ own.*1) as Hbo by (apply list_elem_of_fmap; by exists (b, n)).
  pose proof (ca_nodup _ _ _ _ _ _ Hca) as Hnd. pose proof Hnd as Hnd'. unfold own in Hnd'.
  rewrite fmap_app in Hnd'. cbn in Hnd'. rewrite <- Permutation_middle, <- fmap_app, NoDup_cons in Hnd'.
  destruct Hnd' as [Hnb Hnd'].
  pose proof (ca_ref _ _ _ _ _ _ Hca b x Hb Hx) as Hrx. unfold refs in Hrx.
  rewrite (decide_True (P := b ∈ own.*1)) in Hrx by done.
  assert (exists l1 l2, l = l1 ++ b :: l2) as (l1 & l2 & ->) by (by apply list_elem_of_split, Hl).
  destruct (Hsl b Hb) as [Hh Hp]. intros e.
  destruct (brelse_eq s e c p pr l1 b l2 x) as (bufs & Heq & Hlru' & Hsame); try done.
  { apply (quiet_lock s _ Hlk). apply elem_of_app. left. by left. }
  { by apply (quiet_lock s _ Hlk), quiet_buf. }
  { by rewrite Hh, bool_decide_true. }
  { by rewrite Hp. }
  { case_decide; lia. }
  rewrite Heq. cbn [w_env w_k length]. split; [lia |]. split; [done |]. split; [| etrans; [exact (fs_rest_wake _ _ (slock_freed (SlBuf b) (sync s))) | exact (fs_rest_buf b _ (sync s))]].
  split; [exact (machine_wake p pid _ _ (machine_sync p pid s Hm)) |]. split; [exact HL |].
  split; [eexists; split; [exact Hlru' |]; intros i; rewrite <- Hl; destruct (b_refcnt x =? 1); set_solver |].
  split; [by apply (locks_freed o1 b n o2 s) |].
  apply (cached_payload _ _ _ _ _ _ _ Hsame).
  rewrite (alter_count (fun r => r - 1) b x _ (b_refcnt x - 1)) by done.
  eapply cached_count; try done.
  - intros i z Hi Hne Hz. unfold refs, own. f_equal. apply decide_ext. rewrite !fmap_app. cbn. set_solver.
  - rewrite Hrx. unfold refs. rewrite (decide_False (P := b ∈ (o1 ++ o2).*1)) by done. case_decide; lia.
  - intros m HmP. by left.
  - unfold own. set_solver.
  - intros m Hmd. destruct (decide (m = n)) as [-> |]; [left; by destruct Hclean |].
    destruct (ca_dirty _ _ _ _ _ _ Hca m Hmd) as [? | Hmo]; [by left | right].
    unfold own in Hmo. rewrite fmap_app in *. cbn in Hmo. set_solver.
Qed.
Lemma brelse_performs L P o1 b n o2 dirty mem s :
  bstate L P (o1 ++ (b, n) :: o2) dirty mem s -> n ∈ P \/ n ∉ dirty ->
  performs (brelse b) [] (fun _ s' => bstate L P (o1 ++ o2) dirty mem s') s.
Proof. intros Hs Hd. eapply performs_mono; [by eapply brelse_keeps | by intros u s' [? _]]. Qed.
End bstate.
