(* ===== verification/VirtioRw.v ===== *)
(** * A disk request from start to finish

    [virtio_disk_rw] with everything it needs to return: the scheduler that takes the
    hart when the process sleeps, the device, and the interrupt handler
    [virtio_disk_intr].  The device is not in the repository: what is assumed of it is
    the class [BlockDevice], how a virtio block device reads the descriptors and rings
    the driver filled in. *)
From S2P Require Import Prelude Kstate Spinlock Mem Sample Sched Sleeplock Virtio Bio Disk.
Local Open Scope Z_scope.

(** ** Code that keeps the hart

    From every state with [P], [m] returns in one with [Q] and lets nobody else run. *)
Definition runs {A} (P : kstate -> Prop) (m : K A) (Q : A -> kstate -> Prop) : Prop :=
  forall s e, P s -> exists a s', m (mkworld s e) = Ret a (mkworld s' e) /\ Q a s'.

Section runs.
Context {A B : Type}.
Lemma runs_bind P (m : K A) Q (k : A -> K B) R :
  runs P m Q -> (forall a, runs (Q a) (k a) R) -> runs P (bind m k) R.
Proof.
  intros Hm Hk s e HP. destruct (Hm s e HP) as (a & s1 & H1 & HQ). rewrite (bind_ret _ _ _ _ _ H1).
  by apply Hk.
Qed.
Lemma runs_get P (f : kstate -> A) (k : A -> K B) R :
  (forall a, runs (fun s => P s /\ f s = a) (k a) R) -> runs P (bind (get f) k) R.
Proof. intros Hk s e HP. rewrite bind_get. by apply Hk. Qed.
Lemma runs_get_nth P (f : kstate -> list A) i x (k : A -> K B) R :
  (forall s, P s -> f s !! i = Some x) -> runs P (k x) R -> runs P (bind (get_nth f i) k) R.
Proof.
  intros Hf Hk s e HP. rewrite (bind_ret _ _ _ _ _ (get_nth_eq f i s e x (Hf s HP))). by apply Hk.
Qed.
Lemma runs_pre (P P' : kstate -> Prop) (m : K A) Q : (forall s, P s -> P' s) -> runs P' m Q -> runs P m Q.
Proof. intros HP Hm s e Hs. by apply Hm, HP. Qed.
Lemma runs_post P (m : K A) (Q Q' : A -> kstate -> Prop) : runs P m Q -> (forall a s, Q a s -> Q' a s) -> runs P m Q'.
Proof. intros Hm HQ s e HP. destruct (Hm s e HP) as (a & s' & ? & ?). eauto. Qed.
Lemma runs_ret P (a : A) (Q : A -> kstate -> Prop) : (forall s, P s -> Q a s) -> runs P (ret a) Q.
Proof. intros HQ s e HP. exists a, s. auto. Qed.
End runs.
Lemma runs_put P f (Q : unit -> kstate -> Prop) : (forall s, P s -> Q tt (f s)) -> runs P (put f) Q.
Proof. intros HQ s e HP. exists tt, (f s). auto. Qed.

(** ** What the driver and the device share *)
Record dview : Type := mkdview {
  dv_vd : vdisk;
  dv_bufs : list buf;
  dv_disk : gmap Z (list Z);
  dv_mmio : list (Z * Z)
}.
Definition eta_dview (r : dview) : dview := mkdview (dv_vd r) (dv_bufs r) (dv_disk r) (dv_mmio r).
#[export] Hint Extern 0 (@Setter dview _ ?f) => derive_setter eta_dview f : typeclass_instances.
Definition dview_of (s : kstate) : dview := mkdview (k_vdisk s) (k_bufs s) (k_disk s) (k_mmio s).

(** No request is under way: every descriptor is free and the driver has seen every
    completion. *)
Definition idle_queue (d : vdisk) : Prop :=
  vd_free d = replicate NUM 1 /\ length (vd_desc d) = NUM /\ length (vd_avail_ring d) = NUM /\
  length (vd_used_ring d) = NUM /\ length (vd_info_b d) = NUM /\ length (vd_info_status d) = NUM /\
  length (vd_ops d) = NUM /\ vd_avail_idx d = vd_used_dev d /\ vd_used_idx d = vd_used_dev d /\ 0 <= vd_used_dev d < 2 ^ 16.

(** How a device reads the chain that begins at descriptor [i]: a command header, a
    buffer it may write exactly if it is asked to read, and a status byte to write. *)
Definition request_at (d : vdisk) (i : nat) : option (Z * Z * nat * nat) :=
  d0 ← vd_desc d !! i;
  d1 ← vd_desc d !! Z.to_nat (vq_next d0);
  d2 ← vd_desc d !! Z.to_nat (vq_next d1);
  match vq_addr d0, vq_addr d1, vq_addr d2 with
  | VOp o, VBuf b, VStatus st =>
      op ← vd_ops d !! o;
      if (vr_reserved op =? 0) && (vq_len d0 =? 16) && (vq_flags d0 =? VRING_DESC_F_NEXT) && (vq_len d1 =? BSIZE) &&
         (vq_flags d1 =? Z.lor (if vr_type op =? VIRTIO_BLK_T_IN then VRING_DESC_F_WRITE else 0) VRING_DESC_F_NEXT) &&
         (vq_len d2 =? 1) && (vq_flags d2 =? VRING_DESC_F_WRITE)
      then Some (vr_type op, vr_sector op, b, st) else None
  | _, _, _ => None
  end.

(** The transfer of a block, the status and the completion: the buffer gets sectors
    [sector] and [sector + 1], or the disk gets the buffer. *)
Definition transfer (ty sector : Z) (b : nat) (x : dview) : dview :=
  if ty =? VIRTIO_BLK_T_IN then
    x <| dv_bufs ::= alter (fun bb => bb <| b_data := disk_view (dv_disk x) (sector / 2) |>) b |>
  else match dv_bufs x !! b with
       | Some bb => x <| dv_disk ::= <[sector / 2 := b_data bb]> |>
       | None => x
       end.
Definition complete (i : Z) (st : nat) (d : vdisk) : vdisk :=
  d <| vd_info_status ::= <[st := 0]> |>
    <| vd_used_ring ::= <[Z.to_nat (vd_used_dev d mod Z.of_nat NUM) := i]> |>
    <| vd_used_dev := u16 (vd_used_dev d + 1) |>.
Definition set_dview (x : dview) (s : kstate) : kstate :=
  s <| k_vdisk := dv_vd x |> <| k_bufs := dv_bufs x |> <| k_disk := dv_disk x |> <| k_mmio := dv_mmio x |>.

(** A device with [nblocks] blocks that has been notified of its queue and has one
    request waiting there serves it. *)
Class BlockDevice (nblocks : Z) (dev : kstate -> kstate) : Prop :=
  device_serves s i ty sector b st h :
    k_mmio s = (R VIRTIO_MMIO_QUEUE_NOTIFY, 0) :: h ->
    vd_avail_idx (k_vdisk s) = u16 (vd_used_dev (k_vdisk s) + 1) ->
    vd_avail_ring (k_vdisk s) !! Z.to_nat (vd_used_dev (k_vdisk s) mod Z.of_nat NUM) = Some i ->
    request_at (k_vdisk s) (Z.to_nat i) = Some (ty, sector, b, st) ->
    ty = VIRTIO_BLK_T_IN \/ ty = VIRTIO_BLK_T_OUT -> sector mod 2 = 0 -> 0 <= sector / 2 < nblocks ->
    dev s = set_dview ((transfer ty sector b (dview_of s)) <| dv_vd ::= complete i st |>) s.

(** ** The rest of the system while the process sleeps *)
Section idle.
Context `{Device} (dev : kstate -> kstate) (p : nat).

(** [scheduler] from the switch on, until it leaves [p]. *)
Definition scheduler_after : K unit := scheduler_back ;;; release (LkProc p).
(** [scheduler] until it switches to [p], if [p] can run. *)
Definition scheduler_until : K unit :=
  let! go := scheduler_enter p in
  if (go : bool) then ret tt else hang.
(** The hart goes idle, the device serves its queue and interrupts, and the scheduler
    finds [p] again. *)
Definition disk_round : K unit :=
  scheduler_after ;;; put dev ;;; virtio_disk_intr ;;; scheduler_until.
Definition disk_step (s : kstate) : kstate :=
  match disk_round (mkworld s []) with
  | Ret _ w => w_k w
  | _ => s
  end.
End idle.

(** ** In the driver, with its lock held *)
Definition at_disk (p : nat) (x : dview) (s : kstate) : Prop :=
  in_section s p LkDisk /\ procs_free s (Some p) /\ dview_of s = x.

Lemma at_upd_vdisk p x g : runs (at_disk p x) (upd_vdisk g) (fun _ => at_disk p (x <| dv_vd ::= g |>)).
Proof. apply runs_put. intros s (Hs & Hf & <-). done. Qed.
Lemma at_upd_buf p x b g : runs (at_disk p x) (upd_buf b g) (fun _ => at_disk p (x <| dv_bufs ::= alter g b |>)).
Proof. apply runs_put. intros s (Hs & Hf & <-). done. Qed.
Lemma at_write_reg p x a v :
  runs (at_disk p x) (write_reg a v) (fun _ => at_disk p (x <| dv_mmio ::= fun h => (a, u32 v) :: h |>)).
Proof. apply runs_put. intros s (Hs & Hf & <-). done. Qed.
Lemma at_get_nth {A B} p x (f : dview -> list A) i a (k : A -> K B) Q :
  f x !! i = Some a -> runs (at_disk p x) (k a) Q ->
  runs (at_disk p x) (bind (get_nth (fun s => f (dview_of s)) i) k) Q.
Proof. intros Hf. apply runs_get_nth. by intros s (_ & _ & ->). Qed.

(** Waking others changes nothing the driver sees. *)
Lemma at_wakeup p x ch : runs (at_disk p x) (wakeup ch) (fun _ => at_disk p x).
Proof.
  intros s e (Hs & Hf & Hx). pose proof Hs as (c & pr & (Hc & Hp & Hlt) & Hn & Hm & Hl & Hpr). pose proof Hc as (Hcl & _).
  eexists tt, _. split; [apply (wakeup_eq s e c ch Hc); by rewrite Hp |].
  rewrite (sync_nested s c) by (done || lia). rewrite Hp. split; [| split; [| done]].
  - exists c, pr. repeat split; try done; try apply Hc.
    cbn. unfold wake_all. rewrite list_lookup_imap, Hpr. cbn. by rewrite bool_decide_true.
  - destruct Hf as [Hlen Hf]. split; [| exact Hf]. cbn. unfold wake_all. by rewrite length_imap.
Qed.

Lemma alloc_search p x k : vd_free (dv_vd x) !! k = Some 1 -> forall n j, (k = j + n)%nat -> (k < NUM)%nat ->
  (forall i, (j <= i < k)%nat -> vd_free (dv_vd x) !! i = Some 0) ->
  runs (at_disk p x) (search (seq j (NUM - j)) (fun i =>
    let! fr := get_nth (fun s => vd_free (k_vdisk s)) i in
    if istrue fr then
      upd_vdisk (fun d => d <| vd_free ::= <[i := 0]> |>) ;;; ret (Some (Z.of_nat i))
    else ret None))
    (fun r s => r = Some (Z.of_nat k) /\ at_disk p (x <| dv_vd ::= fun d => d <| vd_free ::= <[k := 0]> |> |>) s).
Proof.
  intros Hk. induction n as [| n IH]; intros j Hj Hlt Hz;
    (replace (NUM - j)%nat with (S (NUM - S j)) by (unfold NUM in *; lia)); cbn [seq search].
  - replace j with k by lia. apply (runs_bind _ _ (fun r s => r = Some (Z.of_nat k) /\
      at_disk p (x <| dv_vd ::= fun d => d <| vd_free ::= <[k := 0]> |> |>) s)).
    + eapply (at_get_nth p x (fun x => vd_free (dv_vd x)) k 1); [done |]. cbn [istrue Z.eqb negb].
      eapply runs_bind; [apply at_upd_vdisk |]. intros u. by apply runs_ret.
    + intros a s e [-> Hs]. exists (Some (Z.of_nat k)), s. done.
  - apply (runs_bind _ _ (fun r s => r = None /\ at_disk p x s)).
    + eapply (at_get_nth p x (fun x => vd_free (dv_vd x)) j 0); [apply Hz; lia |]. by apply runs_ret.
    + intros a s e [-> Hs]. apply (IH (S j)); [lia | lia | | done]. intros i Hi. apply Hz. lia.
Qed.
Lemma at_alloc_desc p x k : (k < NUM)%nat -> vd_free (dv_vd x) !! k = Some 1 ->
  (forall i, (i < k)%nat -> vd_free (dv_vd x) !! i = Some 0) ->
  runs (at_disk p x) alloc_desc
    (fun r s => r = Z.of_nat k /\ at_disk p (x <| dv_vd ::= fun d => d <| vd_free ::= <[k := 0]> |> |>) s).
Proof.
  intros Hlt Hk Hz. unfold alloc_desc. eapply runs_bind.
  - apply (alloc_search p x k Hk k 0); [lia | lia |]. intros i Hi. apply Hz. lia.
  - intros a s e [-> Hs]. eauto.
Qed.

(** A free descriptor is refused, another is cleared and freed. *)
Lemma at_free_desc p x i d : (i < NUM)%nat -> vd_free (dv_vd x) !! i = Some 0 -> vd_desc (dv_vd x) !! i = Some d ->
  runs (at_disk p x) (free_desc (Z.of_nat i)) (fun _ => at_disk p (x <| dv_vd ::= fun d =>
    d <| vd_desc ::= alter (fun _ => mkvirtq_desc VNull 0 0 0) i |> <| vd_free ::= <[i := 1]> |> |>)).
Proof.
  intros Hlt Hf Hd. unfold free_desc. rewrite Nat2Z.id, (proj2 (Z.leb_gt _ _)) by (unfold NUM in *; lia).
  eapply (at_get_nth p x (fun x => vd_free (dv_vd x)) i 0); [done |]. cbn [istrue Z.eqb negb].
  eapply runs_bind; [apply at_upd_vdisk |]. intros u. eapply runs_bind; [apply at_upd_vdisk |].
  intros u'. apply at_wakeup.
Qed.

(** ** A request is made *)
Definition busy : list Z := replicate 3 0 ++ replicate 5 1.
Definition op_of (write : bool) : Z := if write then VIRTIO_BLK_T_OUT else VIRTIO_BLK_T_IN.

Lemma at_alloc3 p x : vd_free (dv_vd x) = replicate NUM 1 ->
  runs (at_disk p x) (fun w => alloc3_wait (S (length (w_env w))) w)
    (fun r s => r = [0; 1; 2] /\ at_disk p (x <| dv_vd ::= fun d => d <| vd_free := busy |> |>) s).
Proof.
  intros Hfr.
  assert (alloc_two : x <| dv_vd ::= fun d => d <| vd_free ::= <[0%nat := 0]> |> |> <| dv_vd ::= fun d => d <| vd_free ::= <[1%nat := 0]> |> |> =
    x <| dv_vd ::= fun d => d <| vd_free := replicate 2 0 ++ replicate 6 1 |> |>).
  { destruct x as [[]]. cbn in Hfr. by subst. }
  assert (runs (at_disk p x) alloc3_desc (fun r s => r = Some [0; 1; 2] /\
    at_disk p (x <| dv_vd ::= fun d => d <| vd_free := busy |> |>) s)) as Ha.
  { unfold alloc3_desc. cbn [alloc3_loop].
    eapply runs_bind; [apply (at_alloc_desc p x 0); rewrite ?Hfr; [unfold NUM; lia | done | intros i ?; lia] |].
    intros a s e [-> Hs]. change (Z.of_nat 0 <? 0) with false. cbn iota. revert Hs. apply runs_bind with
      (Q := fun r s => r = 1 /\ at_disk p (x <| dv_vd ::= fun d => d <| vd_free := replicate 2 0 ++ replicate 6 1 |> |>) s).
    { eapply runs_post; [apply (at_alloc_desc p _ 1); cbn; rewrite ?Hfr; [unfold NUM; lia | done | by intros [|] ?; [| lia]] |].
      intros a s1 [-> Hs]. split; [done |]. by rewrite <- alloc_two. }
    clear s e. intros a s e [-> Hs]. change (1 <? 0) with false. cbn iota. revert Hs. apply runs_bind with
      (Q := fun r s => r = 2 /\ at_disk p (x <| dv_vd ::= fun d => d <| vd_free := busy |> |>) s).
    { eapply runs_post; [apply (at_alloc_desc p _ 2); cbn; [unfold NUM; lia | done | by intros [|[|]] ?; [| | lia]] |].
      intros a s1 [-> Hs]. by split. }
    clear s e. intros a s e [-> Hs]. change (2 <? 0) with false. cbn iota. by eexists _, s. }
  intros s e Hs. cbn [alloc3_wait]. destruct (Ha s e Hs) as (r & s1 & H1 & -> & Hs1).
  exists [0; 1; 2], s1. cbn [w_env]. by rewrite (bind_ret _ _ _ _ _ H1).
Qed.

(** The three descriptors. *)
Definition chain (b : nat) (write : bool) (l : list virtq_desc) : list virtq_desc :=
  alter (fun _ => mkvirtq_desc (VStatus 0) 1 VRING_DESC_F_WRITE 0) 2%nat
    (alter (fun _ => mkvirtq_desc (VBuf b) BSIZE (Z.lor (if write then 0 else VRING_DESC_F_WRITE) VRING_DESC_F_NEXT) 2) 1%nat
    (alter (fun _ => mkvirtq_desc (VOp 0) 16 VRING_DESC_F_NEXT 1) 0%nat l)).
(** The descriptors, the command header and the ring of a request to move block buffer
    [b] from or to [sector]. *)
Definition request_made (b : nat) (write : bool) (sector : Z) (d : vdisk) : vdisk :=
  d <| vd_free := busy |> <| vd_ops ::= <[0%nat := mkvirtio_blk_req (op_of write) 0 sector]> |>
    <| vd_desc ::= chain b write |>
    <| vd_info_status ::= <[0%nat := 0xff]> |> <| vd_info_b ::= <[0%nat := Some b]> |>
    <| vd_avail_ring ::= <[Z.to_nat (vd_avail_idx d mod Z.of_nat NUM) := 0]> |>
    <| vd_avail_idx := u16 (vd_avail_idx d + 1) |>.
Definition published (b : nat) (write : bool) (sector : Z) (x : dview) : dview :=
  mkdview (request_made b write sector (dv_vd x)) (alter (fun bb => bb <| b_disk := 1 |>) b (dv_bufs x)) (dv_disk x)
    ((R VIRTIO_MMIO_QUEUE_NOTIFY, 0) :: dv_mmio x).

Lemma at_format p x b write sector :
  runs (at_disk p x) (format_request b write sector 0 1 2) (fun _ => at_disk p (x <| dv_vd ::= fun d =>
    d <| vd_ops ::= <[0%nat := mkvirtio_blk_req (op_of write) 0 sector]> |>
      <| vd_desc ::= chain b write |>
      <| vd_info_status ::= <[0%nat := 0xff]> |> |>)).
Proof.
  unfold format_request, upd_desc. do 4 (eapply runs_bind; [apply at_upd_vdisk | intros ?]).
  eapply runs_post; [apply at_upd_vdisk | intros u s Hs; exact Hs].
Qed.

(** What is left of [virtio_disk_rw] once the device is notified. *)
Definition rw_rest (b : nat) : K unit :=
  (fun w => rw_wait (S (length (w_env w))) b w) ;;;
  upd_vdisk (fun d => d <| vd_info_b ::= <[0%nat := None]> |>) ;;;
  free_chain 0 ;;;
  release LkDisk.

Lemma runs_seq {A B} P (m : K A) Q (k : A -> K B) s e : runs P m Q -> P s ->
  exists a s', bind m k (mkworld s e) = k a (mkworld s' e) /\ Q a s'.
Proof.
  intros Hm HP. destruct (Hm s e HP) as (a & s' & H & HQ). exists a, s'. split; [| done].
  exact (bind_ret _ _ _ _ _ H).
Qed.

(** Run the first call of the goal's computation by its specification [L], in the state
    [H] speaks of. *)
Tactic Notation "vstep" uconstr(L) hyp(H) "as" simple_intropattern(H') :=
  match goal with
  | |- context [bind ?m ?k (mkworld ?s ?e)] =>
      let s' := fresh "s" in destruct (runs_seq _ m _ k s e L H) as (? & s' & -> & H')
  end.

(** The process runs, holds no lock and nobody else holds one it needs. *)
Definition at_user (p : nat) (x : dview) (s : kstate) : Prop :=
  (exists c pr, running s p c /\ c_noff c = 0 /\ k_procs s !! p = Some pr) /\
  procs_free s None /\ lock_free s LkDisk /\ dview_of s = x.

Lemma at_acquire p x : runs (at_user p x) (acquire LkDisk) (fun _ => at_disk p x).
Proof.
  intros s e ((c & pr & Hr & Hn & Hpr) & [Hlen Hf] & Hl & Hx). pose proof Hr as (Hc & Hp & Hlt).
  exists tt, (lock_taken LkDisk s). split; [apply (acquire_eq s e c); [done | by apply lock_free_of] |].
  assert (lock_free s (LkProc p)) by (by apply Hf).
  split; [by apply (in_section_taken s p c LkDisk pr) |]. split; [| done].
  apply procs_free_taken; [done |]. split; [done |]. intros i Hi _. by apply Hf.
Qed.

Lemma rw_publishes p x b bb write s e :
  at_user p x s -> idle_queue (dv_vd x) -> dv_bufs x !! b = Some bb -> 0 <= b_blockno bb < 2 ^ 31 ->
  exists s', virtio_disk_rw b write (mkworld s e) = rw_rest b (mkworld s' e) /\
    at_disk p (published b write (2 * b_blockno bb) x) s'.
Proof.
  intros Hs (Hfr & _) Hb Hbn. unfold virtio_disk_rw.
  assert (k_bufs s !! b = Some bb) as Hsb by (by destruct Hs as (_ & _ & _ & <-)).
  rewrite (bind_ret _ _ _ _ _ (get_buf_eq s e b bb Hsb)). cbv zeta.
  assert (u32 (b_blockno bb * (BSIZE / 512)) = 2 * b_blockno bb) as ->.
  { change (BSIZE / 512) with 2. rewrite u32_small by lia. lia. }
  vstep (at_acquire p x) Hs as H1.
  vstep (at_alloc3 p x Hfr) H1 as [-> H2].
  change (Z.to_nat <$> [0; 1; 2]) with [0%nat; 1%nat; 2%nat]. cbn iota.
  vstep (at_format _ _ _ _ _) H2 as H3. vstep (at_upd_buf _ _ _ _) H3 as H4.
  vstep (at_upd_vdisk _ _ _) H4 as H5. vstep (at_upd_vdisk _ _ _) H5 as H6. vstep (at_upd_vdisk _ _ _) H6 as H7.
  vstep (at_write_reg _ _ _ _) H7 as H8. eexists. split; [reflexivity |].
  destruct H8 as (Hi & Hf & Hx). split; [exact Hi |]. split; [exact Hf |]. rewrite Hx. by destruct x as [[]].
Qed.

(** ** The hart is idle, or in the interrupt handler

    [depth] is the number of locks the hart holds, none of them a process's; [p] waits
    on [ch] in state [st]. *)
Definition at_idle (depth : Z) (p : nat) (ch : chan) (st : procstate) (x : dview) (s : kstate) : Prop :=
  (exists c pr, cpu_ok s c /\ c_noff c = depth /\ c_proc c = None /\ (p < NPROC)%nat /\
     k_procs s !! p = Some pr /\ p_state pr = st /\ p_chan pr = Some ch) /\
  procs_free s None /\ (if depth =? 0 then lock_free s LkDisk else lock_mine s LkDisk) /\ dview_of s = x.

Lemma idle_acquire p ch st x : runs (at_idle 0 p ch st x) (acquire LkDisk) (fun _ => at_idle 1 p ch st x).
Proof.
  intros s e ((c & pr & Hc & Hn & Hp & Hlt & Hpr & Hst & Hch) & Hf & Hl & Hx). cbn in Hl.
  exists tt, (lock_taken LkDisk s). split; [apply (acquire_eq s e c); [done | by apply lock_free_of] |].
  split; [exists (push_cpu c), pr; split; [apply cpu_ok_taken; [done | lia] |]; split; [cbn; lia | done] |].
  split; [by apply procs_free_taken |]. split; [apply lock_mine_taken | done].
Qed.
Lemma lock_freed_free lk lk' s : lk <> lk' -> lock_free s lk' -> lock_free (lock_freed lk s) lk'.
Proof. intros Hne (l & Hl & ?). exists l. cbn. by rewrite lookup_insert_ne. Qed.
Lemma lock_freed_self lk s : lock_free (lock_freed lk s) lk.
Proof. exists (mkspinlock false (lk_name (lock_of s lk)) None). cbn. by rewrite lookup_insert_eq. Qed.

Lemma idle_release p ch st x : runs (at_idle 1 p ch st x) (release LkDisk) (fun _ => at_idle 0 p ch st x).
Proof.
  intros s e ((c & pr & Hc & Hn & Hp & Hlt & Hpr & Hst & Hch) & [Hlen Hf] & Hl & Hx). cbn in Hl.
  pose proof Hc as (Hcl & Hr & Hsie). exists tt, (lock_freed LkDisk s).
  split; [apply (release_eq s e c); [done | apply Hsie; lia | lia | done] |].
  split; [| split; [split; [done |] |]].
  - exists (pop_cpu c), pr. split; [| split; [cbn; lia | done]].
    split; [exact (on_cpu_lookup pop_cpu s c Hcl) |]. cbn. split; [lia | intros ?; lia].
  - intros i Hi Hne. apply lock_freed_free; [done | by apply Hf].
  - split; [apply lock_freed_self | done].
Qed.

(** What the handler changes, and what [wakeup] does to the sleeper. *)
Lemma idle_put depth p ch st x x' f : (forall s, dview_of s = x -> f s = set_dview x' s) ->
  runs (at_idle depth p ch st x) (put f) (fun _ => at_idle depth p ch st x').
Proof. intros Hf. apply runs_put. intros s (Hc & Hp & Hl & Hx). rewrite (Hf s Hx).
  split; [exact Hc |]. split; [exact Hp |]. split; [exact Hl | by destruct x'].
Qed.
Lemma idle_wakeup p ch x :
  runs (at_idle 1 p ch SLEEPING x) (wakeup ch) (fun _ => at_idle 1 p ch RUNNABLE x).
Proof.
  intros s e ((c & pr & Hc & Hn & Hp & Hlt & Hpr & Hst & Hch) & Hf & Hl & Hx). pose proof Hc as (Hcl & _).
  eexists tt, _. split; [apply (wakeup_eq s e c ch Hc); by rewrite Hp |].
  rewrite (sync_nested s c), Hp by (done || lia). split; [| split; [| done]].
  - exists c, (pr <| p_state := RUNNABLE |>). repeat split; try done; try apply Hc.
    change (wake_all ch None (k_procs s) !! p = Some (pr <| p_state := RUNNABLE |>)).
    unfold wake_all. rewrite list_lookup_imap, Hpr. cbn [fmap option_fmap option_map]. unfold wake_proc.
    by rewrite Hst, Hch, (bool_decide_false (None = _)), !bool_decide_true.
  - destruct Hf as [Hlen Hf]. split; [| exact Hf]. cbn. unfold wake_all. by rewrite length_imap.
Qed.

(** The process leaves the hart. *)
Lemma scheduler_after_idle p x ch s e : at_disk p x s ->
  exists s', scheduler_after p (mkworld (sleep_enter p ch LkDisk s) e) = Ret tt (mkworld s' e) /\
    at_idle 0 p ch SLEEPING x s'.
Proof.
  intros ((c & pr & Hr & Hn & Hm & Hl & Hpr) & [Hlen Hf] & Hx).
  pose proof (sleep_enter_running s c p ch LkDisk Hr Hn) as (Hc1 & Hp1 & Hlt). pose proof Hc1 as (Hcl & _ & Hsie).
  pose proof (sleep_enter_mine s p ch LkDisk ltac:(done)) as Hm1.
  set (s1 := sleep_enter p ch LkDisk s) in *. set (c1 := pop_cpu (push_cpu c)) in *.
  assert (c_noff c1 = 1) as Hn1 by (cbn; lia).
  unfold scheduler_after, scheduler_back. erewrite bind_ret by apply upd_mycpu_eq.
  eexists. split; [apply (release_eq _ e (c1 <| c_proc := None |>)); [exact (on_cpu_lookup _ s1 c1 Hcl) | apply Hsie; lia | cbn; lia |] |].
  { exact Hm1. }
  split; [| split; [split |]].
  - exists (pop_cpu (c1 <| c_proc := None |>)), (pr <| p_chan := Some ch |> <| p_state := SLEEPING |>).
    split; [split |]; [unfold lock_freed; cbn; rewrite list_lookup_alter_eq | cbn; rewrite Hn; cbn; lia |].
    { change (pop_cpu <$> (k_cpus (on_cpu (fun c => c <| c_proc := None |>) s1) !! k_hart s1) = Some (pop_cpu (c1 <| c_proc := None |>))).
      by rewrite (on_cpu_lookup _ s1 c1 Hcl). }
    split; [cbn; lia |]. split; [done |]. split; [done |].
    split; [cbn; by rewrite list_lookup_alter_eq, Hpr | done].
  - cbn. by rewrite length_alter.
  - intros i Hi _. destruct (decide (i = p)) as [-> | Hne]; [apply lock_freed_self |].
    apply lock_freed_free; [congruence |]. change (lock_free (lock_freed LkDisk (lock_taken (LkProc p) s)) (LkProc i)).
    apply lock_freed_free; [done |]. apply lock_free_taken; [congruence |]. apply Hf; congruence.
  - split; [| done]. cbn [Z.eqb]. apply lock_freed_free; [done |]. apply lock_freed_self.
Qed.

(** The interrupt handler with one completion to see. *)
Definition acked `{Device} (s : kstate) : Z * Z :=
  (R VIRTIO_MMIO_INTERRUPT_ACK, u32 (Z.land (u32 (reg_value s (R VIRTIO_MMIO_INTERRUPT_STATUS))) 3)).
Definition handled (b : nat) (x : dview) : dview :=
  x <| dv_bufs ::= alter (fun bb => bb <| b_disk := 0 |>) b |>
    <| dv_vd ::= fun d => d <| vd_used_idx := u16 (vd_used_idx d + 1) |> |>.

Lemma idle_get_nth {A B} n p ch st x (f : dview -> list A) i a (k : A -> K B) Q :
  f x !! i = Some a -> runs (at_idle n p ch st x) (k a) Q ->
  runs (at_idle n p ch st x) (bind (get_nth (fun s => f (dview_of s)) i) k) Q.
Proof. intros Hf. apply runs_get_nth. by intros s (_ & _ & _ & ->). Qed.

Lemma handler_loop p b x i :
  vd_used_idx (dv_vd x) <> vd_used_dev (dv_vd x) -> u16 (vd_used_idx (dv_vd x) + 1) = vd_used_dev (dv_vd x) ->
  vd_used_ring (dv_vd x) !! Z.to_nat (vd_used_idx (dv_vd x) mod Z.of_nat NUM) = Some (Z.of_nat i) ->
  vd_info_status (dv_vd x) !! i = Some 0 -> vd_info_b (dv_vd x) !! i = Some (Some b) ->
  runs (at_idle 1 p (ChBuf b) SLEEPING x) (intr_loop (S NUM)) (fun _ => at_idle 1 p (ChBuf b) RUNNABLE (handled b x)).
Proof.
  intros Hne Hnext Hring Hst Hb. cbn [intr_loop]. apply runs_get. intros d.
  intros s e [Hs <-]. assert (k_vdisk s = dv_vd x) as -> by (by destruct Hs as (_ & _ & _ & <-)).
  rewrite (proj2 (Z.eqb_neq _ _) Hne). revert s e Hs.
  change (runs (at_idle 1 p (ChBuf b) SLEEPING x) (bind (get_nth (fun s => vd_used_ring (dv_vd (dview_of s)))
    (Z.to_nat (vd_used_idx (dv_vd x) mod Z.of_nat NUM))) (fun id =>
      let! st := get_nth (fun s => vd_info_status (dv_vd (dview_of s))) (Z.to_nat id) in
      if istrue st then panic "virtio_disk_intr status" else
      let! bo := get_nth (fun s => vd_info_b (dv_vd (dview_of s))) (Z.to_nat id) in
      match bo with
      | None => fault
      | Some b =>
          upd_buf b (fun bb => bb <| b_disk := 0 |>) ;;;
          wakeup (ChBuf b) ;;;
          upd_vdisk (fun d => d <| vd_used_idx := u16 (vd_used_idx d + 1) |>) ;;;
          intr_loop NUM
      end)) (fun _ => at_idle 1 p (ChBuf b) RUNNABLE (handled b x))).
  eapply (idle_get_nth _ _ _ _ _ (fun x => vd_used_ring (dv_vd x))); [exact Hring |]. rewrite Nat2Z.id.
  eapply (idle_get_nth _ _ _ _ _ (fun x => vd_info_status (dv_vd x))); [exact Hst |]. cbn [istrue Z.eqb negb].
  eapply (idle_get_nth _ _ _ _ _ (fun x => vd_info_b (dv_vd x))); [exact Hb |].
  eapply runs_bind; [apply (idle_put _ _ _ _ _ (x <| dv_bufs ::= alter (fun bb => bb <| b_disk := 0 |>) b |>)); intros s Hx; rewrite <- Hx; by destruct s |].
  intros ?. eapply runs_bind; [apply idle_wakeup |]. intros ?.
  eapply runs_bind; [apply (idle_put _ _ _ _ _ (handled b x)); intros s Hx |].
  { unfold handled. rewrite <- Hx. by destruct s. }
  intros ?. cbn [intr_loop NUM]. apply runs_get. intros d s e [Hs <-].
  assert (k_vdisk s = dv_vd (handled b x)) as -> by (by destruct Hs as (_ & _ & _ & <-)).
  change (vd_used_idx (dv_vd (handled b x))) with (u16 (vd_used_idx (dv_vd x) + 1)).
  change (vd_used_dev (dv_vd (handled b x))) with (vd_used_dev (dv_vd x)).
  rewrite Hnext, Z.eqb_refl. by exists tt, s.
Qed.

Lemma handler_runs `{Device} p b x i :
  vd_used_idx (dv_vd x) <> vd_used_dev (dv_vd x) -> u16 (vd_used_idx (dv_vd x) + 1) = vd_used_dev (dv_vd x) ->
  vd_used_ring (dv_vd x) !! Z.to_nat (vd_used_idx (dv_vd x) mod Z.of_nat NUM) = Some (Z.of_nat i) ->
  vd_info_status (dv_vd x) !! i = Some 0 -> vd_info_b (dv_vd x) !! i = Some (Some b) ->
  runs (at_idle 0 p (ChBuf b) SLEEPING x) virtio_disk_intr (fun _ s => exists r,
    at_idle 0 p (ChBuf b) RUNNABLE ((handled b x) <| dv_mmio ::= fun h => (R VIRTIO_MMIO_INTERRUPT_ACK, r) :: h |>) s).
Proof.
  intros Hne Hnext Hring Hst Hb. unfold virtio_disk_intr. eapply runs_bind; [apply idle_acquire |]. intros ?.
  unfold read_reg. apply runs_get. intros v.
  set (x' := x <| dv_mmio ::= fun h => (R VIRTIO_MMIO_INTERRUPT_ACK, u32 (Z.land v 3)) :: h |>).
  eapply runs_bind; [eapply runs_pre; [| apply (idle_put 1 p (ChBuf b) SLEEPING x x')] |].
  { intros s [Hs _]. exact Hs. } { intros s Hx. unfold x'. rewrite <- Hx. by destruct s. }
  intros ?. eapply runs_bind; [apply (handler_loop p b x' i); done |]. intros ?.
  eapply runs_post; [apply idle_release |]. intros u s Hs. exists (u32 (Z.land v 3)). exact Hs.
Qed.

(** The scheduler switches back to a process that can run. *)
Lemma scheduler_until_resumes p ch x :
  runs (at_idle 0 p ch RUNNABLE x) (scheduler_until p) (fun _ s =>
    resumed s p /\ lock_free s LkDisk /\ is_Some (k_procs s !! p) /\ procs_free s (Some p) /\ dview_of s = x).
Proof.
  intros s e ((c & pr & Hc & Hn & Hp & Hlt & Hpr & Hst & Hch) & [Hlen Hf] & Hl & Hx). cbn in Hl.
  assert (lock_free s (LkProc p)) as Hfp by (by apply Hf). unfold scheduler_until, scheduler_enter.
  rewrite bind_assoc, (bind_ret _ _ _ _ _ (acquire_eq s e c (LkProc p) Hc (lock_free_of _ _ Hfp))).
  rewrite bind_assoc, (bind_ret _ _ _ _ _ (get_proc_eq (lock_taken (LkProc p) s) e p pr Hpr)).
  rewrite Hst, bool_decide_true, bind_assoc, bind_upd_proc, bind_assoc by done. eexists tt, _. split; [done |].
  pose proof Hc as (Hcl & _). split; [split |].
  - exact (lock_mine_taken (LkProc p) s).
  - exists ((push_cpu c) <| c_proc := Some p |>). split; [| split; [done | split; [cbn; lia | done]]].
    exact (on_cpu_lookup (fun c => c <| c_proc := Some p |>) (lock_taken (LkProc p) s) _ (on_cpu_lookup push_cpu s c Hcl)).
  - split; [apply (lock_free_taken s (LkProc p)); done |]. split; [cbn; rewrite list_lookup_alter_eq, Hpr; by eexists |].
    split; [split; [cbn; by rewrite length_alter |] | done].
    intros i Hi Hne. apply (lock_free_taken s (LkProc p)); [congruence | by apply Hf].
Qed.

(** Back in the driver. *)
Lemma sleep_leave_at p i x s : (p < NPROC)%nat -> resumed s p -> is_Some (k_procs s !! p) -> procs_free s (Some p) ->
  dview_of s = x -> at_disk p x (sleep_leave p LkDisk i s).
Proof.
  intros Hlt Hr Hp [Hlen Hf] Hx. split; [by apply sleep_leave_section |]. split; [| done].
  split; [cbn; by rewrite length_alter |]. intros j Hj Hne.
  apply lock_free_taken; [done |]. apply lock_freed_free; [congruence |]. exact (Hf j Hj Hne).
Qed.

(** ** The descriptors are given back *)
Lemma at_free_chain p x d0 d1 d2 : vd_free (dv_vd x) = busy ->
  vd_desc (dv_vd x) !! 0%nat = Some d0 -> vd_desc (dv_vd x) !! 1%nat = Some d1 -> vd_desc (dv_vd x) !! 2%nat = Some d2 ->
  vq_next d0 = 1 -> vq_next d1 = 2 -> istrue (Z.land (vq_flags d0) VRING_DESC_F_NEXT) = true ->
  istrue (Z.land (vq_flags d1) VRING_DESC_F_NEXT) = true -> istrue (Z.land (vq_flags d2) VRING_DESC_F_NEXT) = false ->
  runs (at_disk p x) (free_chain 0) (fun _ s => exists x', at_disk p x' s /\ dv_bufs x' = dv_bufs x /\ dv_disk x' = dv_disk x /\
    vd_free (dv_vd x') = replicate NUM 1 /\ length (vd_desc (dv_vd x')) = length (vd_desc (dv_vd x)) /\
    dv_vd x' = (dv_vd x) <| vd_free := vd_free (dv_vd x') |> <| vd_desc := vd_desc (dv_vd x') |>).
Proof.
  intros Hfr H0 H1 H2 Hn0 Hn1 Hf0 Hf1 Hf2. unfold free_chain. cbn [free_chain_loop].
  eapply (at_get_nth p x (fun x => vd_desc (dv_vd x)) 0 d0); [exact H0 |].
  eapply runs_bind; [apply (at_free_desc p x 0 d0); [unfold NUM; lia | by rewrite Hfr | exact H0] |]. intros ?.
  rewrite Hf0, Hn0. cbn [free_chain_loop NUM].
  eapply (at_get_nth p _ (fun x => vd_desc (dv_vd x)) 1 d1); [cbn; by rewrite list_lookup_alter_ne |].
  eapply runs_bind; [apply (at_free_desc p _ 1 d1); [unfold NUM; lia | cbn; by rewrite Hfr | cbn; by rewrite list_lookup_alter_ne] |]. intros ?.
  rewrite Hf1, Hn1. cbn [free_chain_loop].
  eapply (at_get_nth p _ (fun x => vd_desc (dv_vd x)) 2 d2); [cbn; by rewrite !list_lookup_alter_ne |].
  eapply runs_bind; [apply (at_free_desc p _ 2 d2); [unfold NUM; lia | cbn; by rewrite Hfr | cbn; by rewrite !list_lookup_alter_ne] |].
  intros ?. rewrite Hf2. apply runs_ret. intros s Hs. eexists. split; [exact Hs |].
  split; [done |]. split; [done |]. split; [cbn; by rewrite Hfr |]. split; [cbn; by rewrite !length_alter | done].
Qed.

Lemma at_release p x : runs (at_disk p x) (release LkDisk) (fun _ => at_user p x).
Proof.
  intros s e (Hs & [Hlen Hf] & Hx). exists tt, (lock_freed LkDisk s). split; [by apply (release_in_section s p) |].
  destruct Hs as (c & pr & (Hc & Hp & Hlt) & Hn & Hm & Hl & Hpr). pose proof Hc as (Hcl & _).
  split; [exists (pop_cpu c), pr; split; [| split; [cbn; lia | done]] |].
  { split; [| done]. split; [exact (on_cpu_lookup pop_cpu s c Hcl) |]. cbn. split; [lia | intros ?; lia]. }
  split; [| split; [apply lock_freed_self | done]]. split; [done |]. intros i Hi _. apply lock_freed_free; [done |].
  destruct (decide (i = p)) as [-> | Hne]; [done |]. apply Hf; congruence.
Qed.

(** ** The request is served *)
Definition sector_of (bb : buf) : Z := 2 * b_blockno bb.
Definition served (b : nat) (bb : buf) (write : bool) (x : dview) : dview :=
  (transfer (op_of write) (sector_of bb) b (published b write (sector_of bb) x)) <| dv_vd ::= complete 0 0 |>.

Lemma request_readable b write sector d : length (vd_desc d) = NUM -> length (vd_ops d) = NUM ->
  request_at (request_made b write sector d) 0 = Some (op_of write, sector, b, 0%nat).
Proof.
  intros Hd Ho. unfold request_at, request_made. cbn -[NUM BSIZE VRING_DESC_F_NEXT VRING_DESC_F_WRITE chain].
  destruct (vd_desc d) as [| d0 [| d1 [| d2 l]]]; [done | done | done |]. destruct (vd_ops d) as [| o r]; [done |].
  by destruct write.
Qed.

Lemma transfer_vd ty sector b x : dv_vd (transfer ty sector b x) = dv_vd x.
Proof. unfold transfer. destruct (ty =? _); [done |]. by destruct (dv_bufs x !! b). Qed.
Lemma transfer_mmio ty sector b x : dv_mmio (transfer ty sector b x) = dv_mmio x.
Proof. unfold transfer. destruct (ty =? _); [done |]. by destruct (dv_bufs x !! b). Qed.

Section served.
Context `{Device} {nblocks : Z} {dev : kstate -> kstate} `{!BlockDevice nblocks dev}.

Lemma idle_device p b bb write x :
  idle_queue (dv_vd x) -> 0 <= b_blockno bb < nblocks ->
  runs (at_idle 0 p (ChBuf b) SLEEPING (published b write (sector_of bb) x)) (put dev)
    (fun _ => at_idle 0 p (ChBuf b) SLEEPING (served b bb write x)).
Proof.
  intros (Hfr & Hd & Ha & Hu & Hib & His & Ho & Hai & Hui & Hr) Hbn. apply idle_put. intros s Hx.
  assert (k_vdisk s = request_made b write (sector_of bb) (dv_vd x)) as Hvd by exact (f_equal dv_vd Hx).
  unfold served. rewrite <- Hx. apply (device_serves s 0 (op_of write) (sector_of bb) b 0 (dv_mmio x)).
  - exact (f_equal dv_mmio Hx).
  - rewrite Hvd. cbn. by rewrite Hai.
  - rewrite Hvd. cbn -[Z.modulo]. rewrite Hai. apply list_lookup_insert_eq. rewrite Ha. unfold NUM. 
    pose proof (Z.mod_pos_bound (vd_used_dev (dv_vd x)) 8). lia.
  - rewrite Hvd. by apply request_readable.
  - destruct write; auto.
  - unfold sector_of. rewrite Z.mul_comm. by rewrite Z.mod_mul.
  - unfold sector_of. rewrite Z.mul_comm, Z.div_mul; lia.
Qed.

(** The round of the rest of the system ends with the process back on the hart. *)
Lemma disk_step_serves p b bb write x s :
  idle_queue (dv_vd x) -> 0 <= b_blockno bb < nblocks -> at_disk p (published b write (sector_of bb) x) s ->
  exists r, let s' := disk_step dev p (sleep_enter p (ChBuf b) LkDisk s) in
    resumed s' p /\ lock_free s' LkDisk /\ is_Some (k_procs s' !! p) /\ procs_free s' (Some p) /\
    dview_of s' = (handled b (served b bb write x)) <| dv_mmio ::= fun h => (R VIRTIO_MMIO_INTERRUPT_ACK, r) :: h |>.
Proof.
  intros Hq Hbn Hs. destruct (scheduler_after_idle p _ (ChBuf b) s [] Hs) as (s1 & H1 & Hi1).
  destruct (idle_device p b bb write x Hq Hbn s1 [] Hi1) as (? & s2 & H2 & Hi2).
  destruct Hq as (Hfr & Hd & Ha & Hu & Hib & His & Ho & Hai & Hui & Hr).
  assert (Hvd : dv_vd (served b bb write x) = complete 0 0 (request_made b write (sector_of bb) (dv_vd x))).
  { unfold served. cbn. by rewrite transfer_vd. }
  assert (Hm : (Z.to_nat (vd_used_dev (dv_vd x) mod Z.of_nat NUM) < NUM)%nat).
  { unfold NUM. pose proof (Z.mod_pos_bound (vd_used_dev (dv_vd x)) 8). lia. }
  destruct (handler_runs p b (served b bb write x) 0) with (s := s2) (e := @nil (kstate -> kstate)) as (? & s3 & H3 & r & Hi3); rewrite ?Hvd; try done.
  - cbn -[u16]. rewrite Hui. unfold u16. intros Heq. pose proof (Z.mod_eq (vd_used_dev (dv_vd x) + 1) (2 ^ 16)). lia.
  - cbn -[u16]. by rewrite Hui.
  - cbn -[Z.modulo u16]. rewrite Hui. apply list_lookup_insert_eq. by rewrite Hu.
  - cbn. destruct (vd_info_status (dv_vd x)); done.
  - cbn. destruct (vd_info_b (dv_vd x)); done.
  - exists r. destruct (scheduler_until_resumes p (ChBuf b) _ s3 [] Hi3) as (? & s4 & H4 & Hres).
    assert (disk_step dev p (sleep_enter p (ChBuf b) LkDisk s) = s4) as ->; [| exact Hres].
    unfold disk_step, disk_round. rewrite (bind_ret _ _ _ _ _ H1), (bind_ret _ _ _ _ _ H2), (bind_ret _ _ _ _ _ H3).
    by rewrite H4.
Qed.
End served.

(** The buffer once its request is over. *)
Definition moved (write : bool) (D : gmap Z (list Z)) (bb : buf) : buf :=
  bb <| b_disk := 0 |> <| b_data := if write then b_data bb else disk_view D (b_blockno bb) |>.

Lemma alter_lookup {A} (f : A -> A) (l : list A) (i : nat) x : l !! i = Some x -> alter f i l !! i = Some (f x).
Proof. intros Hx. by rewrite list_lookup_alter_eq, Hx. Qed.

Lemma served_disk b bb write x : dv_bufs x !! b = Some bb ->
  dv_disk (served b bb write x) = if write then <[b_blockno bb := b_data bb]> (dv_disk x) else dv_disk x.
Proof.
  intros Hb. unfold served, transfer, sector_of. rewrite Z.mul_comm. cbn [op_of].
  destruct write; cbn -[Z.div Z.mul]; [| done]. rewrite (alter_lookup _ _ _ bb Hb). cbn -[Z.div Z.mul].
  by rewrite Z.div_mul.
Qed.
Lemma served_bufs b bb write x : dv_bufs x !! b = Some bb ->
  dv_bufs (handled b (served b bb write x)) = alter (moved write (dv_disk x)) b (dv_bufs x).
Proof.
  intros Hb. unfold served, transfer, sector_of. rewrite Z.mul_comm. cbn [op_of].
  destruct write; cbn -[Z.div Z.mul]; [rewrite (alter_lookup _ _ _ bb Hb) |]; cbn -[Z.div Z.mul];
    rewrite ?list_alter_alter_eq; apply list_alter_ext; try done.
  intros y Hy. simplify_eq. unfold moved. cbn -[Z.div Z.mul]. by rewrite Z.div_mul.
Qed.

Lemma rw_wait_ends p x b bb n s e : at_disk p x s -> dv_bufs x !! b = Some bb -> b_disk bb <> 1 ->
  rw_wait (S n) b (mkworld s e) = Ret tt (mkworld s e).
Proof.
  intros (_ & _ & <-) Hb Hd. cbn [rw_wait]. rewrite (bind_ret _ _ _ _ _ (get_buf_eq s e b bb Hb)).
  by rewrite (proj2 (Z.eqb_neq _ _) Hd).
Qed.

(** The end of [virtio_disk_rw]: the queue is idle again. *)
Lemma rw_gives_back p x x2 b write sector s e : idle_queue (dv_vd x) ->
  dv_vd x2 = (complete 0 0 (request_made b write sector (dv_vd x))) <| vd_used_idx := u16 (vd_used_idx (dv_vd x) + 1) |> ->
  at_disk p x2 s ->
  exists s' x', (upd_vdisk (fun d => d <| vd_info_b ::= <[0%nat := None]> |>) ;;; free_chain 0 ;;; release LkDisk) (mkworld s e) =
      Ret tt (mkworld s' e) /\
    at_user p x' s' /\ idle_queue (dv_vd x') /\ dv_bufs x' = dv_bufs x2 /\ dv_disk x' = dv_disk x2.
Proof.
  intros (Hfr & Hd & Ha & Hu & Hib & His & Ho & Hai & Hui & Hr) Hvd H2.
  vstep (at_upd_vdisk p x2 (fun d => d <| vd_info_b ::= <[0%nat := None]> |>)) H2 as H3.
  destruct (vd_desc (dv_vd x)) as [| d0 [| d1 [| d2 dl]]] eqn:Hdesc; [done | done | done |].
  set (x3 := x2 <| dv_vd ::= _ |>) in H3.
  assert (Hd3 : vd_desc (dv_vd x3) = chain b write (d0 :: d1 :: d2 :: dl)).
  { change (vd_desc (dv_vd x3)) with (vd_desc (dv_vd x2)). rewrite Hvd, <- Hdesc. done. }
  destruct (at_free_chain p x3 (mkvirtq_desc (VOp 0) 16 VRING_DESC_F_NEXT 1)
    (mkvirtq_desc (VBuf b) BSIZE (Z.lor (if write then 0 else VRING_DESC_F_WRITE) VRING_DESC_F_NEXT) 2)
    (mkvirtq_desc (VStatus 0) 1 VRING_DESC_F_WRITE 0)) with (s := s0) (e := e)
    as (? & s4 & H4 & x4 & Hx4 & Hb4 & Hk4 & Hf4 & Hl4 & Hv4); rewrite ?Hd3; try done; [| by destruct write |].
  { change (vd_free (dv_vd x3)) with (vd_free (dv_vd x2)). by rewrite Hvd. }
  rewrite (bind_ret _ _ _ _ _ H4). destruct (at_release p x4 s4 e Hx4) as ([] & s5 & H5 & Hu5).
  exists s5, x4. split; [done |]. split; [done |]. split; [| by rewrite Hb4, Hk4].
  rewrite Hd3 in Hl4.
  assert (dv_vd x3 = (dv_vd x2) <| vd_info_b ::= <[0%nat := None]> |>) as H3v by done. clearbody x3.
  rewrite Hv4, H3v, Hvd. split; [exact Hf4 |]. cbn -[NUM u16 chain] in Hl4 |- *. rewrite !length_insert, Hl4. unfold chain.
  rewrite !length_alter. rewrite Hai, Hui. repeat (split; [done |]). apply Z.mod_pos_bound. lia.
Qed.

Section rw.
Context `{Device} {nblocks : Z} {dev : kstate -> kstate} `{!BlockDevice nblocks dev}.

Lemma rw_waits p x b bb write s e : idle_queue (dv_vd x) -> dv_bufs x !! b = Some bb -> 0 <= b_blockno bb < nblocks ->
  at_disk p (published b write (sector_of bb) x) s ->
  exists s' r, rw_wait (S (S (length e))) b (mkworld s (disk_step dev p :: e)) = Ret tt (mkworld s' e) /\
    at_disk p ((handled b (served b bb write x)) <| dv_mmio ::= fun h => (R VIRTIO_MMIO_INTERRUPT_ACK, r) :: h |>) s'.
Proof.
  intros Hq Hb Hbn Hs. set (n := S (length e)). cbn [rw_wait].
  assert (k_bufs s !! b = Some (bb <| b_disk := 1 |>)) as Hsb.
  { destruct Hs as (_ & _ & Hx). change (k_bufs s) with (dv_bufs (dview_of s)). rewrite Hx. exact (alter_lookup _ _ _ bb Hb). }
  rewrite (bind_ret _ _ _ _ _ (get_buf_eq s _ b _ Hsb)). cbn [b_disk Z.eqb].
  destruct (disk_step_serves p b bb write x s Hq Hbn Hs) as (r & Hres & Hl & Hp & Hf & Hx).
  pose proof Hs as ((c & pr & Hr & Hn & Hm & Hlp & Hpr) & _). pose proof Hr as (_ & _ & Hlt).
  change (b_disk (bb <| b_disk := 1 |>) =? 1) with true. cbn iota.
  rewrite (bind_ret _ _ _ _ _ (sleep_eq s (disk_step dev p) e c p (ChBuf b) LkDisk pr Hr Hn Hm Hlp Hpr Hres Hl)).
  eexists _, r. assert (at_disk p _ (sleep_leave p LkDisk (c_intena c) (disk_step dev p (sleep_enter p (ChBuf b) LkDisk s)))) as Hat
    by (by apply sleep_leave_at).
  split; [| exact Hat]. unfold n.
  apply (rw_wait_ends p _ b (moved write (dv_disk x) bb) (length e) _ e Hat); [| done].
  change (dv_bufs (handled b (served b bb write x)) !! b = Some (moved write (dv_disk x) bb)).
  rewrite served_bufs by done. by apply alter_lookup.
Qed.

(** C5: [virtio_disk_rw] moves one block and gives back what it used.  With an idle queue and
    a device of [nblocks] blocks that follows the virtio specification, the request the
    driver builds is one the device understands, its completion reaches the sleeping
    process through the interrupt handler and the scheduler, and the call returns: a
    read has put the block of the disk in the buffer, a write has put the buffer in the
    block, nothing else of the disk or of any buffer has changed, every descriptor is
    free again and no lock is held. *)
Theorem virtio_rw_transfers p x b bb write s e :
  at_user p x s -> idle_queue (dv_vd x) -> dv_bufs x !! b = Some bb -> 0 <= b_blockno bb < nblocks -> nblocks <= 2 ^ 31 ->
  exists s' x', virtio_disk_rw b write (mkworld s (disk_step dev p :: e)) = Ret tt (mkworld s' e) /\
    at_user p x' s' /\ idle_queue (dv_vd x') /\
    dv_disk x' = (if write then <[b_blockno bb := b_data bb]> (dv_disk x) else dv_disk x) /\
    dv_bufs x' = alter (moved write (dv_disk x)) b (dv_bufs x).
Proof.
  intros Hs Hq Hb Hbn Hnb. destruct (rw_publishes p x b bb write s (disk_step dev p :: e) Hs Hq Hb ltac:(lia)) as (s1 & -> & H1).
  destruct (rw_waits p x b bb write s1 e Hq Hb Hbn H1) as (s2 & r & Hw & H2).
  unfold rw_rest. rewrite (bind_ret (fun w => rw_wait (S (length (w_env w))) b w) _ _ _ _ Hw). clear Hw. set (x2 := (handled b _) <| dv_mmio ::= _ |>) in H2.
  assert (Hvd : dv_vd x2 = (complete 0 0 (request_made b write (sector_of bb) (dv_vd x)))
    <| vd_used_idx := u16 (vd_used_idx (dv_vd x) + 1) |>).
  { unfold x2, served. cbn -[complete request_made u16]. by rewrite transfer_vd. }
  assert (Hb2 : dv_bufs x2 = alter (moved write (dv_disk x)) b (dv_bufs x)) by (by apply served_bufs).
  assert (Hk2 : dv_disk x2 = if write then <[b_blockno bb := b_data bb]> (dv_disk x) else dv_disk x) by (by apply served_disk).
  clearbody x2. destruct (rw_gives_back p x x2 b write (sector_of bb) s2 e Hq Hvd H2) as (s3 & x3 & Hrun & Hu3 & Hq3 & Hb3 & Hk3).
  exists s3, x3. rewrite Hb3, Hk3. done.
Qed.
End rw.

(** ** Examples *)

(** A device with the laws: it serves the last request of its queue. *)
Definition serving_disk (s : kstate) : kstate :=
  let d := k_vdisk s in
  match vd_avail_ring d !! Z.to_nat (vd_used_dev d mod Z.of_nat NUM) with
  | Some i =>
      match request_at d (Z.to_nat i) with
      | Some (ty, sector, b, st) =>
          set_dview ((transfer ty sector b (dview_of s)) <| dv_vd ::= complete i st |>) s
      | None => s
      end
  | None => s
  end.
#[export] Instance serving_disk_laws : BlockDevice 2000 serving_disk.
Proof. intros s i ty sector b st h Hm Ha Hr Hq Hty Hs Hn. unfold serving_disk. by rewrite Hr, Hq. Qed.
(** The device of the example is as silent as the drivers allow. *)
Definition silent_device : Device := fun _ _ => 1.
(** Buffer 0 is to be filled with block 33. *)
Definition sample_request : kstate :=
  sample <| k_bufs ::= alter (fun bb => bb <| b_blockno := 33 |>) 0%nat |> <| k_disk := {[33 := replicate 1024 7]} |>.
Lemma sample_request_at : at_user 3 (dview_of sample_request) sample_request.
Proof.
  split; [exists sample_cpu, sample_proc; split; [split; [exact sample_cpu_ok | split; [done | unfold NPROC; lia]] | done] |].
  split; [apply sample_procs_free |]. split; [apply lock_free_dec; by vm_compute | done].
Qed.

Lemma virtio_rw_transfers_witness :
  exists s' x', virtio_disk_rw 0 false (mkworld sample_request [@disk_step silent_device serving_disk 3]) = Ret tt (mkworld s' []) /\
    at_user 3 x' s' /\ idle_queue (dv_vd x') /\ dv_disk x' = {[33 := replicate 1024 7]} /\
    dv_bufs x' = alter (moved false {[33 := replicate 1024 7]}) 0%nat (k_bufs sample_request).
Proof.
  apply (@virtio_rw_transfers silent_device 2000 serving_disk serving_disk_laws 3 (dview_of sample_request) 0
    (mkbuf 0 0 0 33 0 1 30 (replicate 1024 0)) false sample_request []).
  - exact sample_request_at.
  - repeat split; by vm_compute.
  - by vm_compute.
  - cbn. lia.
  - lia.
Defined.
