(* ===== verification/Log.v ===== *)
(** * The write-ahead log ([kernel/log.c])

    Transactions group the block writes of file-system calls; [commit] writes the
    blocks to the log, the header (the commit point), the home locations, and
    an empty header.  An access outside [log.lh.block] stops the model. *)
From S2P Require Import Prelude Kstate Bytes Spinlock Mem Sample Sched Sleeplock Virtio Bio Printf.
Local Open Scope Z_scope.

Section log.
Context `{DiskDriver}.

(** ** The code *)
Definition upd_log (f : log -> log) : K unit := put (fun s => s <| k_log ::= f |>).
Definition get_log : K log := get k_log.
Definition log_block (i : Z) : K Z := get_nth (fun s => lh_block (k_log s)) (Z.to_nat i).
Definition set_log_block (i v : Z) : K unit :=
  if (0 <=? i) && (i <? LOGBLOCKS) then
    upd_log (fun l => l <| lh_block ::= <[Z.to_nat i := s32 v]> |>)
  else fault.

Definition buf_data (b : nat) : K (list Z) := let! x := get_buf b in ret (b_data x).
Definition set_buf_data (b : nat) (d : list Z) : K unit := upd_buf b (fun x => x <| b_data := d |>).

(** [for (tail = 0; tail < log.lh.n; tail++)]. *)
Fixpoint install_trans_loop (fuel : nat) (recovering : bool) (tail : Z) : K unit :=
  match fuel with
  | O => ret tt
  | S n =>
      let! l := get_log in
      if lh_n l <=? tail then ret tt else
      (if recovering then
         let! blk := log_block tail in
         printf (str "recovering tail %d dst %d" ++ [10]) [PInt tail; PInt blk] ;;; ret tt
       else ret tt) ;;;
      let! lbuf := bread (u32 (l_dev l)) (u32 (l_start l + tail + 1)) in
      let! blk := log_block tail in
      let! dbuf := bread (u32 (l_dev l)) (u32 blk) in
      let! d := buf_data lbuf in
      set_buf_data dbuf d ;;;
      bwrite dbuf ;;;
      (if recovering then ret tt else bunpin dbuf) ;;;
      brelse lbuf ;;;
      brelse dbuf ;;;
      install_trans_loop n recovering (tail + 1)
  end.
Definition install_trans (recovering : bool) : K unit :=
  let! l := get_log in
  install_trans_loop (Z.to_nat (lh_n l)) recovering 0.

(** [log.lh.block[i] = lh->block[i]] for the [n] entries of a header block. *)
Fixpoint read_blocks (n : nat) (i : nat) (d : list Z) : K unit :=
  match n with
  | O => ret tt
  | S k => set_log_block (Z.of_nat i) (get32 d (4 + 4 * i)) ;;; read_blocks k (S i) d
  end.
Definition read_head : K unit :=
  let! l := get_log in
  let! b := bread (u32 (l_dev l)) (u32 (l_start l)) in
  let! d := buf_data b in
  upd_log (fun l => l <| lh_n := s32 (get32 d 0) |>) ;;;
  read_blocks (Z.to_nat (s32 (get32 d 0))) 0 d ;;;
  brelse b.

(** [hb->block[i] = log.lh.block[i]]. *)
Fixpoint write_blocks (n : nat) (i : nat) (blocks : list Z) (d : list Z) : list Z :=
  match n with
  | O => d
  | S k => write_blocks k (S i) blocks (put32 d (4 + 4 * i) (default 0 (blocks !! i)))
  end.
Definition write_head : K unit :=
  let! l := get_log in
  let! b := bread (u32 (l_dev l)) (u32 (l_start l)) in
  let! d := buf_data b in
  set_buf_data b (write_blocks (Z.to_nat (lh_n l)) 0 (lh_block l) (put32 d 0 (lh_n l))) ;;;
  bwrite b ;;;
  brelse b.

Definition recover_from_log : K unit :=
  read_head ;;;
  install_trans true ;;;
  upd_log (fun l => l <| lh_n := 0 |>) ;;;
  write_head.

(** [sizeof(struct logheader)] is [4 + 4 * LOGBLOCKS], below [BSIZE]. *)
Definition initlog (dev : Z) (sb : superblock) : K unit :=
  if BSIZE <=? 4 + 4 * LOGBLOCKS then panic "initlog: too big logheader" else
  initlock LkLog "log" ;;;
  upd_log (fun l => l <| l_start := s32 (sb_logstart sb) |>) ;;;
  upd_log (fun l => l <| l_dev := dev |>) ;;;
  recover_from_log.

(** The [while(1)] of [begin_op]: every iteration but the last sleeps. *)
Fixpoint begin_op_loop (fuel : nat) : K unit :=
  match fuel with
  | O => hang
  | S n =>
      let! l := get_log in
      if istrue (l_committing l) then sleep ChLog LkLog ;;; begin_op_loop n
      else if LOGBLOCKS <? lh_n l + (l_outstanding l + 1) * MAXOPBLOCKS then
        sleep ChLog LkLog ;;; begin_op_loop n
      else
        upd_log (fun l => l <| l_outstanding := s32 (l_outstanding l + 1) |>) ;;;
        release LkLog
  end.
Definition begin_op : K unit :=
  acquire LkLog ;;;
  (fun w => begin_op_loop (S (length (w_env w))) w).

Fixpoint write_log_loop (fuel : nat) (tail : Z) : K unit :=
  match fuel with
  | O => ret tt
  | S n =>
      let! l := get_log in
      if lh_n l <=? tail then ret tt else
      let! to := bread (u32 (l_dev l)) (u32 (l_start l + tail + 1)) in
      let! blk := log_block tail in
      let! from := bread (u32 (l_dev l)) (u32 blk) in
      let! d := buf_data from in
      set_buf_data to d ;;;
      bwrite to ;;;
      brelse from ;;;
      brelse to ;;;
      write_log_loop n (tail + 1)
  end.
Definition write_log : K unit :=
  let! l := get_log in
  write_log_loop (Z.to_nat (lh_n l)) 0.

Definition commit : K unit :=
  let! l := get_log in
  if 0 <? lh_n l then
    write_log ;;;
    write_head ;;;
    install_trans false ;;;
    upd_log (fun l => l <| lh_n := 0 |>) ;;;
    write_head
  else ret tt.

Definition end_op : K unit :=
  acquire LkLog ;;;
  upd_log (fun l => l <| l_outstanding := s32 (l_outstanding l - 1) |>) ;;;
  let! l := get_log in
  if istrue (l_committing l) then panic "log.committing" else
  let! do_commit :=
    (if l_outstanding l =? 0 then
       upd_log (fun l => l <| l_committing := 1 |>) ;;; ret true
     else wakeup ChLog ;;; ret false) in
  release LkLog ;;;
  if (do_commit : bool) then
    commit ;;;
    acquire LkLog ;;;
    upd_log (fun l => l <| l_committing := 0 |>) ;;;
    wakeup ChLog ;;;
    release LkLog
  else ret tt.

(** The index of [blockno] among the first [n] logged blocks, [n] if absent. *)
Fixpoint find_block (l : list Z) (n : nat) (blockno : Z) : nat :=
  match n, l with
  | S k, b :: r => if u32 b =? blockno then 0%nat else S (find_block r k blockno)
  | _, _ => 0%nat
  end.

Definition log_write (b : nat) : K unit :=
  acquire LkLog ;;;
  let! l := get_log in
  if LOGBLOCKS <=? lh_n l then panic "too big a transaction" else
  if l_outstanding l <? 1 then panic "log_write outside of trans" else
  let! x := get_buf b in
  let i := Z.of_nat (find_block (lh_block l) (Z.to_nat (lh_n l)) (b_blockno x)) in
  set_log_block i (b_blockno x) ;;;
  (if i =? lh_n l then
     bpin b ;;;
     upd_log (fun l => l <| lh_n := s32 (lh_n l + 1) |>)
   else ret tt) ;;;
  release LkLog.
(** ** The header block *)
Lemma put32_length d o v : (o + 4 <= length d)%nat -> length (put32 d o v) = length d.
Proof. intros Hd. unfold put32. apply patch_length. rewrite le_put_length. lia. Qed.

Lemma write_blocks_length n : forall i bl d, (4 + 4 * (i + n) <= length d)%nat ->
  length (write_blocks n i bl d) = length d.
Proof.
  induction n as [| n IH]; intros i bl d Hd; [done |]. cbn [write_blocks].
  rewrite IH; rewrite ?put32_length; lia.
Qed.

(** Words before entry [i] are not touched, entries from [i] on are stored. *)
Lemma write_blocks_below n : forall i bl d o, (4 + 4 * (i + n) <= length d)%nat -> (o + 4 <= 4 + 4 * i)%nat ->
  get32 (write_blocks n i bl d) o = get32 d o.
Proof.
  induction n as [| n IH]; intros i bl d o Hd Ho; [done |]. cbn [write_blocks].
  rewrite IH; [| rewrite put32_length; lia | lia]. unfold put32.
  apply get32_patch_ne; rewrite le_put_length; lia.
Qed.

Lemma write_blocks_get n : forall i bl d j, (4 + 4 * (i + n) <= length d)%nat -> (i <= j < i + n)%nat ->
  get32 (write_blocks n i bl d) (4 + 4 * j) = u32 (default 0 (bl !! j)).
Proof.
  induction n as [| n IH]; intros i bl d j Hd Hj; [lia |]. cbn [write_blocks].
  destruct (decide (j = i)) as [-> |].
  - rewrite write_blocks_below; [| rewrite put32_length; lia | lia]. apply get32_put32. lia.
  - apply IH; [rewrite put32_length; lia | lia].
Qed.

(** Loading [n] entries from [i] on. *)
Lemma read_blocks_eq n : forall i d s e,
  (i + n <= 30)%nat -> length (lh_block (k_log s)) = 30%nat ->
  exists bl, read_blocks n i d (mkworld s e) = Ret tt (mkworld (s <| k_log ::= fun l => l <| lh_block := bl |> |>) e) /\
    length bl = 30%nat /\
    forall j, bl !! j = if decide (i <= j < i + n)%nat then Some (s32 (get32 d (4 + 4 * j))) else lh_block (k_log s) !! j.
Proof.
  induction n as [| n IH]; intros i d s e Hi Hl.
  { exists (lh_block (k_log s)). split; [| split; [done |]].
    - cbn. apply ret_world. by destruct s as [? ? ? ? ? ? ? ? ? ? ? ? ? ? ? ? ? ? ? [] ? ? ? ? ? ? ? ? ? ?].
    - intros j. by rewrite decide_False by lia. }
  cbn [read_blocks]. unfold set_log_block.
  rewrite (proj2 (Z.leb_le 0 (Z.of_nat i))), (proj2 (Z.ltb_lt (Z.of_nat i) LOGBLOCKS))
    by (unfold LOGBLOCKS, MAXOPBLOCKS; lia).
  cbn [andb]. unfold upd_log. rewrite bind_put, Nat2Z.id.
  edestruct (IH (S i) d) as (bl & Heq & Hbl & Hlk); [lia | | exists bl; split; [exact Heq |]].
  { cbn. by rewrite length_insert. }
  split; [done |]. intros j. rewrite Hlk. cbn. destruct (decide (j = i)) as [-> |].
  - rewrite decide_False, decide_True by lia. apply list_lookup_insert_eq. lia.
  - rewrite (decide_ext (S i <= j < S i + n)%nat (i <= j < i + S n)%nat) by lia.
    case_decide; [done |]. by rewrite list_lookup_insert_ne by done.
Qed.
Lemma s32_u32 x : s32 (u32 x) = s32 x.
Proof. unfold s32, sext, u32. by rewrite Z.mod_mod. Qed.

(** ** Admission *)

(** [begin_op] lets a transaction in. *)
Definition log_admits (s : kstate) : bool :=
  negb (istrue (l_committing (k_log s))) &&
  (lh_n (k_log s) + (l_outstanding (k_log s) + 1) * MAXOPBLOCKS <=? LOGBLOCKS).

Lemma begin_op_loop_until n w :
  begin_op_loop n w =
    (wait_until n log_admits ChLog LkLog ;;;
     upd_log (fun l => l <| l_outstanding := s32 (l_outstanding l + 1) |>) ;;;
     release LkLog) w.
Proof.
  revert w. induction n as [| n IH]; intros [s e]; [done |].
  cbn [begin_op_loop wait_until]. unfold get_log. krun. unfold log_admits at 1.
  destruct (istrue (l_committing (k_log s))); cbn [negb andb]; krun.
  { by apply bind_cong. }
  rewrite Z.leb_antisym.
  destruct (LOGBLOCKS <? lh_n (k_log s) + (l_outstanding (k_log s) + 1) * MAXOPBLOCKS); cbn [negb]; krun.
  - by apply bind_cong.
  - done.
Qed.

(** ** Logged blocks *)
Lemma find_block_spec l n b : (n <= length l)%nat ->
  let i := find_block l n b in
  (i <= n)%nat /\
  (if decide ((i < n)%nat) then u32 <$> (l !! i) = Some b else Forall (fun x => u32 x <> b) (take n l)).
Proof.
  revert n. induction l as [| x l IH]; intros [| n] Hn; simpl in *; try lia; try (split; [lia | constructor]).
  destruct (Z.eqb_spec (u32 x) b) as [Hx | Hx].
  - split; [lia |]. rewrite decide_True by lia. cbn. by rewrite Hx.
  - destruct (IH n) as [Hle Hc]; [lia |]. split; [lia |].
    destruct (decide (find_block l n b < n)%nat).
    + by rewrite decide_True by lia.
    + rewrite decide_False by lia. by constructor.
Qed.
(** What [log_write] makes of the log and of the buffer. *)
Definition logged (i : nat) (blockno : Z) (l : log) : log := l <| lh_block ::= <[i := blockno]> |>.

Lemma log_write_eq s e c b x :
  cpu_ok s c -> c_noff c < 2 ^ 31 - 3 -> lock_free s LkLog -> lock_free s LkBcache ->
  0 <= lh_n (k_log s) < LOGBLOCKS -> 1 <= l_outstanding (k_log s) -> k_bufs s !! b = Some x ->
  0 <= b_blockno x < 2 ^ 31 ->
  let n := Z.to_nat (lh_n (k_log s)) in
  let i := find_block (lh_block (k_log s)) n (b_blockno x) in
  (i <= n)%nat ->
  log_write b (mkworld s e) = Ret tt (mkworld
    (if decide (i = n) then
       (sync s) <| k_log ::= logged i (b_blockno x) |>
         <| k_bufs ::= alter (fun x => x <| b_refcnt := u32 (b_refcnt x + 1) |>) b |>
         <| k_log ::= fun l => l <| lh_n := lh_n l + 1 |> |>
     else (sync s) <| k_log ::= logged i (b_blockno x) |>) e).
Proof.
  intros Hc Hn Hl Hlb Hlen Ho Hx Hb n i Hi. pose proof Hc as (Hcl & ? & _). unfold log_write.
  kcall (acquire_eq s e c LkLog). unfold get_log. krun.
  change (k_log (lock_taken LkLog s)) with (k_log s).
  rewrite (proj2 (Z.leb_gt LOGBLOCKS _)), (proj2 (Z.ltb_ge _ 1)) by lia.
  kcall (get_buf_eq (lock_taken LkLog s) e b x). fold n. fold i. unfold set_log_block.
  unfold LOGBLOCKS, MAXOPBLOCKS in *.
  rewrite (proj2 (Z.leb_le 0 (Z.of_nat i))), (proj2 (Z.ltb_lt (Z.of_nat i) (10 * 3))) by (unfold n in *; lia).
  cbn [andb]. unfold upd_log. rewrite bind_put, Nat2Z.id, s32_small by lia.
  assert ((Z.of_nat i =? lh_n (k_log s)) = bool_decide (i = n)) as ->.
  { unfold n. case_bool_decide; [apply Z.eqb_eq | apply Z.eqb_neq]; lia. }
  case_decide as Hin; [rewrite bool_decide_true by done | rewrite bool_decide_false by done].
  - rewrite bind_assoc. kcall (bpin_eq _ e (push_cpu c) b).
    { apply (cpu_ok_taken s c LkLog Hc). lia. } { by apply (lock_free_taken s LkLog). }
    rewrite (sync_nested _ (push_cpu c)); [| by apply (on_cpu_lookup push_cpu s c) | cbn; lia].
    rewrite bind_put. rewrite (release_section s _ e c LkLog); try done. apply ret_world.
    assert (s32 (lh_n (k_log s) + 1) = lh_n (k_log s) + 1) as Hs by (apply s32_small; lia).
    upd_eq. unfold logged. by rewrite Hs.
  - krun. by rewrite (release_section s _ e c LkLog).
Qed.

(** ** Properties *)

(** The log header survives the trip to disk: for any log of at most
    [LOGBLOCKS] blocks, the header block [write_head] builds, read back by the code
    of [read_head], gives the same count and the same block numbers. *)
Theorem log_header_roundtrip l d s e :
  0 <= lh_n l <= LOGBLOCKS -> length (lh_block l) = 30%nat -> length d = Z.to_nat BSIZE ->
  Forall (fun b => - 2 ^ 31 <= b < 2 ^ 31) (lh_block l) -> length (lh_block (k_log s)) = 30%nat ->
  let n := Z.to_nat (lh_n l) in
  let d' := write_blocks n 0 (lh_block l) (put32 d 0 (lh_n l)) in
  length d' = Z.to_nat BSIZE /\ s32 (get32 d' 0) = lh_n l /\
  exists bl, read_blocks n 0 d' (mkworld s e) =
      Ret tt (mkworld (s <| k_log ::= fun l => l <| lh_block := bl |> |>) e) /\
    take n bl = take n (lh_block l).
Proof.
  intros Hn Hbl Hd Hr Hs n d'. unfold LOGBLOCKS, MAXOPBLOCKS in Hn.
  assert (length (put32 d 0 (lh_n l)) = 1024%nat) as Hp by (rewrite put32_length; rewrite Hd; unfold BSIZE; lia).
  split; [unfold d'; rewrite write_blocks_length; rewrite Hp; unfold BSIZE; lia |]. split.
  { unfold d'. rewrite write_blocks_below by lia. rewrite get32_put32 by lia.
    change (lh_n l mod 2 ^ 32) with (u32 (lh_n l)). rewrite s32_u32. apply s32_small. lia. }
  destruct (read_blocks_eq n 0 d' s e) as (bl & Heq & Hlen & Hlk); [lia | done |].
  exists bl. split; [exact Heq |]. apply list_eq. intros j. destruct (decide (j < n)%nat) as [Hj | Hj].
  - rewrite !lookup_take_lt, Hlk, decide_True by lia. unfold d'. rewrite write_blocks_get by lia.
    destruct (lookup_lt_is_Some_2 (lh_block l) j) as [b Hb]; [lia |].
    rewrite Hb. cbn. rewrite s32_u32, s32_small; [done |]. by apply (Forall_lookup_1 _ _ _ _ Hr Hb).
  - by rewrite !lookup_take_ge by lia.
Qed.

(** C21: [log_write] absorbs repeated writes: inside a transaction with room in the
    log it returns, the logged block numbers stay distinct, a block already logged
    keeps its one place, and a new one is appended and its buffer pinned in the cache
    until the commit. *)
Theorem log_write_absorbs s e c b x :
  cpu_ok s c -> c_noff c < 2 ^ 31 - 3 -> lock_free s LkLog -> lock_free s LkBcache ->
  0 <= lh_n (k_log s) < LOGBLOCKS -> 1 <= l_outstanding (k_log s) -> length (lh_block (k_log s)) = 30%nat ->
  k_bufs s !! b = Some x -> 0 <= b_blockno x < 2 ^ 31 ->
  let old := take (Z.to_nat (lh_n (k_log s))) (lh_block (k_log s)) in
  Forall (fun b => 0 <= b < 2 ^ 31) old -> NoDup old ->
  exists s', log_write b (mkworld s e) = Ret tt (mkworld s' e) /\
    let new := take (Z.to_nat (lh_n (k_log s'))) (lh_block (k_log s')) in
    NoDup new /\ lh_n (k_log s') = Z.of_nat (length new) /\
    (b_blockno x ∈ old -> new = old /\ k_bufs s' = k_bufs s) /\
    (b_blockno x ∉ old -> new = old ++ [b_blockno x] /\
       k_bufs s' = alter (fun x => x <| b_refcnt := u32 (b_refcnt x + 1) |>) b (k_bufs s)).
Proof.
  intros Hc Hn Hl Hlb Hlen Ho Hbl Hx Hb old Hold Hnd. unfold LOGBLOCKS, MAXOPBLOCKS in Hlen.
  set (n := Z.to_nat (lh_n (k_log s))) in *.
  destruct (find_block_spec (lh_block (k_log s)) n (b_blockno x)) as [Hi Hcase]; [lia |].
  set (i := find_block (lh_block (k_log s)) n (b_blockno x)) in *.
  eexists. split; [by apply (log_write_eq s e c b x) |]. fold n. fold i.
  assert (length old = n) as Hlo by (unfold old; rewrite length_take; lia).
  destruct (decide (i = n)) as [Hin | Hin]; cbn.
  - rewrite decide_False in Hcase by lia.
    assert (b_blockno x ∉ old) as Hnot.
    { intros Hbo. rewrite Forall_forall in Hcase. apply (Hcase _ Hbo). apply u32_small. lia. }
    assert (take (Z.to_nat (lh_n (k_log s) + 1)) (<[i := b_blockno x]> (lh_block (k_log s))) = old ++ [b_blockno x]) as ->.
    { replace (Z.to_nat (lh_n (k_log s) + 1)) with (S n) by lia. rewrite Hin.
      rewrite (take_S_r _ n (b_blockno x)) by (apply list_lookup_insert_eq; lia).
      by rewrite take_insert_ge by lia. }
    split; [| split; [rewrite length_app, Hlo; cbn; lia | by split]].
    apply NoDup_app. split; [done |]. split; [| apply NoDup_singleton].
    intros y Hy ->%list_elem_of_singleton. done.
  - rewrite decide_True in Hcase by lia.
    destruct (lh_block (k_log s) !! i) as [y |] eqn:Hy; [| done]. cbn in Hcase. injection Hcase as Hyb.
    assert (y = b_blockno x) as ->.
    { rewrite <- Hyb, u32_small; [done |].
      assert (old !! i = Some y) as Hoi by (unfold old; rewrite lookup_take_lt by lia; done).
      assert (0 <= y < 2 ^ 31) by exact (Forall_lookup_1 _ _ _ _ Hold Hoi). lia. }
    rewrite list_insert_id by done. fold n. fold old.
    split; [done |]. split; [lia |]. split; [done |]. intros Hnot. exfalso. apply Hnot.
    apply list_elem_of_lookup. exists i. unfold old. by rewrite lookup_take_lt by lia.
Qed.

End log.

(** ** Examples *)

(** A transaction is open and block 45 is logged; buffer 0 caches block 46. *)
Definition sample_logging : kstate :=
  sample <| k_log := mklog 2 1 0 1 1 (45 :: replicate 29 0) |>
         <| k_bufs ::= alter (fun b => b <| b_blockno := 46 |> <| b_refcnt := 1 |>) 0%nat |>.

Lemma log_header_roundtrip_witness :
  let l := k_log sample_logging in
  let d' := write_blocks 1 0 (lh_block l) (put32 (replicate 1024 0) 0 1) in
  length d' = Z.to_nat BSIZE /\ s32 (get32 d' 0) = 1 /\
  exists bl, read_blocks 1 0 d' (mkworld sample []) =
      Ret tt (mkworld (sample <| k_log ::= fun l => l <| lh_block := bl |> |>) []) /\
    take 1 bl = [45].
Proof.
  apply (log_header_roundtrip (k_log sample_logging) (replicate 1024 0) sample []).
  - by vm_compute.
  - by vm_compute.
  - by vm_compute.
  - repeat constructor; lia.
  - by vm_compute.
Defined.

Lemma log_write_absorbs_witness :
  exists s', log_write 0 (mkworld sample_logging []) = Ret tt (mkworld s' []) /\
    let new := take (Z.to_nat (lh_n (k_log s'))) (lh_block (k_log s')) in
    NoDup new /\ lh_n (k_log s') = Z.of_nat (length new) /\
    (46 ∈ [45] -> new = [45] /\ k_bufs s' = k_bufs sample_logging) /\
    (46 ∉ [45] -> new = [45] ++ [46] /\
       k_bufs s' = alter (fun x => x <| b_refcnt := u32 (b_refcnt x + 1) |>) 0%nat (k_bufs sample_logging)).
Proof.
  apply (log_write_absorbs sample_logging [] sample_cpu 0
           (mkbuf 0 0 0 46 1 1 30 (replicate 1024 0))).
  - exact sample_cpu_ok.
  - by vm_compute.
  - apply lock_free_dec. by vm_compute.
  - apply lock_free_dec. by vm_compute.
  - by vm_compute.
  - by vm_compute.
  - reflexivity.
  - reflexivity.
  - by vm_compute.
  - repeat constructor; lia.
  - vm_compute. apply NoDup_singleton.
Defined.

