(* ===== verification/Commit.v ===== *)
(** * Commit and recovery ([kernel/log.c])

    The disk writes of [commit] and of [recover_from_log], and what a power failure
    between any two of them leaves: recovery restores all of a transaction or
    none of it. *)
From S2P Require Import Prelude Kstate Bytes Spinlock Mem Sample Sched Sleeplock Virtio Bio Printf Disk Log.
Local Open Scope Z_scope.

(** ** The log on disk *)
Definition slot (L : log) (j : nat) : Z := l_start L + Z.of_nat j + 1.
Definition home (L : log) (j : nat) : Z := default 0 (lh_block L !! j).
Definition homes (L : log) : list Z := take (Z.to_nat (lh_n L)) (lh_block L).
Definition log_area (L : log) (m : Z) : Prop := l_start L <= m <= l_start L + LOGBLOCKS.

(** The log is in range and logs no block of its own. *)
Record log_ok (L : log) : Prop := {
  lo_start : 0 <= l_start L /\ l_start L + LOGBLOCKS < 2 ^ 31;
  lo_n : 0 <= lh_n L <= LOGBLOCKS;
  lo_len : length (lh_block L) = 30%nat;
  lo_home j : (j < Z.to_nat (lh_n L))%nat -> 0 <= home L j < 2 ^ 31 /\ ~ log_area L (home L j)
}.

(** The header block [write_head] makes. *)
Definition header (L : log) (d : list Z) : list Z :=
  write_blocks (Z.to_nat (lh_n L)) 0 (lh_block L) (put32 d 0 (lh_n L)).

(** The writes of [write_log], of [install_trans] from entry [i] on, and of [commit]. *)
Definition log_writes (L : log) (mem : view) (i k : nat) : list (Z * list Z) :=
  (fun j => (slot L j, mem (home L j))) <$> seq i k.
Definition inst_writes (L : log) (mem : view) (i k : nat) : list (Z * list Z) :=
  (fun j => (home L j, mem (slot L j))) <$> seq i k.

(** ** The blocks of the log *)
Lemma slot_area L j : (j < Z.to_nat LOGBLOCKS)%nat -> log_area L (slot L j).
Proof. unfold log_area, slot, LOGBLOCKS, MAXOPBLOCKS. lia. Qed.
Lemma slot_u32 L j : log_ok L -> (j < Z.to_nat (lh_n L))%nat -> u32 (l_start L + Z.of_nat j + 1) = slot L j.
Proof.
  intros Hok Hj. pose proof (lo_start L Hok). pose proof (lo_n L Hok). unfold slot.
  apply u32_small. unfold LOGBLOCKS, MAXOPBLOCKS in *. lia.
Qed.

Lemma homes_drop L i : log_ok L -> (i < Z.to_nat (lh_n L))%nat -> drop i (homes L) = home L i :: drop (S i) (homes L).
Proof.
  intros Hok Hi. apply drop_S. unfold homes, home. rewrite lookup_take_lt by done.
  destruct (lookup_lt_is_Some_2 (lh_block L) i) as [v Hv]; [| by rewrite Hv].
  rewrite (lo_len L Hok). pose proof (lo_n L Hok). unfold LOGBLOCKS, MAXOPBLOCKS in *. lia.
Qed.
Lemma homes_length L : log_ok L -> length (homes L) = Z.to_nat (lh_n L).
Proof.
  intros Hok. unfold homes. rewrite length_take, (lo_len L Hok). pose proof (lo_n L Hok).
  unfold LOGBLOCKS, MAXOPBLOCKS in *. lia.
Qed.
Lemma homes_lookup L m : log_ok L -> m ∈ homes L -> exists j, (j < Z.to_nat (lh_n L))%nat /\ home L j = m.
Proof.
  intros Hok [j Hj]%list_elem_of_lookup. pose proof (lookup_lt_Some _ _ _ Hj) as Hlt. rewrite homes_length in Hlt by done.
  exists j. split; [done |]. unfold homes in Hj. rewrite lookup_take_lt in Hj by done. unfold home. by rewrite Hj.
Qed.
Lemma home_in L j : log_ok L -> (j < Z.to_nat (lh_n L))%nat -> home L j ∈ homes L.
Proof. intros Hok Hj. rewrite <- (take_drop j (homes L)), homes_drop by done. set_solver. Qed.
Lemma homes_not_area L m : log_ok L -> m ∈ homes L -> ~ log_area L m.
Proof. intros Hok (j & Hj & <-)%homes_lookup; [| done]. by apply (lo_home L Hok). Qed.

Lemma header_length L d : 0 <= lh_n L <= LOGBLOCKS -> length d = 1024%nat -> length (header L d) = 1024%nat.
Proof.
  intros Hn Hd. unfold header, LOGBLOCKS, MAXOPBLOCKS in *.
  rewrite write_blocks_length; rewrite put32_length by lia; lia.
Qed.

(** ** The writes of a commit *)
Definition emptied (L : log) : log := L <| lh_n := 0 |>.
(** Everything of the log but its entries. *)
Definition log_frame (L L' : log) : Prop :=
  l_start L' = l_start L /\ l_dev L' = l_dev L /\ l_outstanding L' = l_outstanding L /\ l_committing L' = l_committing L.
Definition home_writes (L : log) (mem : view) : list (Z * list Z) :=
  (fun j => (home L j, mem (home L j))) <$> seq 0 (Z.to_nat (lh_n L)).
(** The log, the header (the commit point), the home locations, an empty header. *)
Definition commit_writes (L : log) (mem : view) : list (Z * list Z) :=
  let hd := header L (mem (l_start L)) in
  log_writes L mem 0 (Z.to_nat (lh_n L)) ++ [(l_start L, hd)] ++
  home_writes L mem ++ [(l_start L, header (emptied L) hd)].

Lemma emptied_ok L : log_ok L -> log_ok (emptied L).
Proof. intros [Hs Hn Hl Hh]. split; cbn; [done | unfold LOGBLOCKS, MAXOPBLOCKS; lia | done | lia]. Qed.
Lemma log_writes_in L mem i k m : m ∈ (log_writes L mem i k).*1 <-> exists j, (i <= j < i + k)%nat /\ m = slot L j.
Proof.
  unfold log_writes. rewrite <- list_fmap_compose, list_elem_of_fmap. cbn.
  split; intros (j & Hm & Hj); [apply elem_of_seq in Hj; eauto | exists j; by rewrite elem_of_seq].
Qed.
Lemma home_writes_in L mem m : log_ok L -> m ∈ (home_writes L mem).*1 <-> m ∈ homes L.
Proof.
  intros Hok. unfold home_writes. rewrite <- list_fmap_compose, list_elem_of_fmap. cbn. split.
  - intros (j & -> & Hj%elem_of_seq). apply home_in; [done | lia].
  - intros (j & Hj & <-)%homes_lookup; [| done]. exists j. split; [done |]. apply elem_of_seq. lia.
Qed.
Lemma after_log_slot L mem i k v j : (i <= j < i + k)%nat ->
  after (log_writes L mem i k) v (slot L j) = mem (home L j).
Proof.
  intros Hj. apply after_in; [apply log_writes_in; eauto |].
  intros y (j' & [= Hs ->] & _)%list_elem_of_fmap. unfold slot in Hs. by replace j' with j by lia.
Qed.
Lemma after_log_start L mem i k v : after (log_writes L mem i k) v (l_start L) = v (l_start L).
Proof. apply after_notin. intros (j & _ & Hs)%log_writes_in. unfold slot in Hs. lia. Qed.
Lemma after_log_home L mem i k v m : (i + k <= Z.to_nat LOGBLOCKS)%nat -> ~ log_area L m ->
  after (log_writes L mem i k) v m = v m.
Proof. intros Hk Hm. apply after_notin. intros (j & Hj & ->)%log_writes_in. apply Hm, slot_area. lia. Qed.

Lemma start_area L : log_area L (l_start L).
Proof. unfold log_area, LOGBLOCKS, MAXOPBLOCKS. lia. Qed.
Lemma after_home_area L mem v m : log_ok L -> log_area L m -> after (home_writes L mem) v m = v m.
Proof.
  intros Hok Hm. apply after_notin. rewrite home_writes_in by done. intros Hin. by apply (homes_not_area L m).
Qed.

(** ** Recovery, as a function of the disk *)

(** The number of logged blocks and their homes, from the header block. *)
Definition logged_n (start : Z) (v : view) : Z := s32 (get32 (v start) 0).
Definition logged_home (start : Z) (v : view) (j : nat) : Z := get32 (v start) (4 + 4 * j).
Definition rec_writes (start : Z) (v : view) : list (Z * list Z) :=
  (fun j => (logged_home start v j, v (start + Z.of_nat j + 1))) <$> seq 0 (Z.to_nat (logged_n start v)).
(** What the disk holds once the log is replayed. *)
Definition recovered (start : Z) (v : view) : view := after (rec_writes start v) v.

Definition in_log (start m : Z) : Prop := start <= m <= start + LOGBLOCKS.
Record log_wf (start : Z) (v : view) : Prop := {
  wf_n : 0 <= logged_n start v <= LOGBLOCKS;
  wf_home j : (j < Z.to_nat (logged_n start v))%nat ->
    0 <= logged_home start v j < 2 ^ 31 /\ ~ in_log start (logged_home start v j);
  wf_len : length (v start) = 1024%nat
}.
Lemma log_wf_empty start v : logged_n start v = 0 -> length (v start) = 1024%nat -> log_wf start v.
Proof. intros Hn Hl. split; [rewrite Hn; unfold LOGBLOCKS, MAXOPBLOCKS; lia | rewrite Hn; lia | done]. Qed.
Lemma recovered_empty start v m : logged_n start v = 0 -> recovered start v m = v m.
Proof. intros Hn. unfold recovered, rec_writes. by rewrite Hn. Qed.

(** Replaying the log again, or a log of which a part was replayed, makes no
    difference. *)
Lemma after_agree W v v' m : (m ∉ W.*1 -> v m = v' m) -> after W v m = after W v' m.
Proof.
  intros Hv. destruct (decide (m ∈ W.*1)) as [Hin | Hout]; [| by rewrite !after_notin, Hv].
  clear Hv. induction W as [| w W IH] using rev_ind; [by apply not_elem_of_nil in Hin |].
  rewrite !after_app, !after_cons. destruct w as [n x]. cbn [fst snd after foldl].
  destruct (decide (m = n)) as [-> | Hne]; [by rewrite !vset_eq |]. rewrite !vset_ne by done. apply IH.
  rewrite fmap_app in Hin. set_solver.
Qed.
Lemma after_prefix W k v m : after W (after (take k W) v) m = after W v m.
Proof.
  apply after_agree. intros Hm. apply after_notin. intros Hin. apply Hm. rewrite fmap_take in Hin.
  rewrite <- (take_drop k W.*1). set_solver.
Qed.

(** The disk agrees with [v] on the header and the logged blocks. *)
Lemma rec_writes_ext start v v' :
  v' start = v start -> (forall j, (j < Z.to_nat (logged_n start v))%nat -> v' (start + Z.of_nat j + 1) = v (start + Z.of_nat j + 1)) ->
  rec_writes start v' = rec_writes start v.
Proof.
  intros Hh Hj. unfold rec_writes, logged_home. assert (logged_n start v' = logged_n start v) as Hn.
  { unfold logged_n. by rewrite Hh. }
  rewrite Hn, Hh. apply list_fmap_ext. intros k j [-> Hk]%lookup_seq. f_equal. apply Hj. lia.
Qed.
Lemma rec_writes_in start v m : m ∈ (rec_writes start v).*1 ->
  exists j, (j < Z.to_nat (logged_n start v))%nat /\ m = logged_home start v j.
Proof.
  unfold rec_writes. rewrite <- list_fmap_compose, list_elem_of_fmap. cbn.
  intros (j & -> & Hj%elem_of_seq). exists j. split; [lia | done].
Qed.
Lemma rec_writes_out start v m : log_wf start v -> in_log start m -> m ∉ (rec_writes start v).*1.
Proof. intros Hwf Hm (j & Hj & ->)%rec_writes_in. by destruct (wf_home _ _ Hwf j Hj). Qed.

(** ** The header on disk *)
Lemma header_n L d : 0 <= lh_n L <= LOGBLOCKS -> length d = 1024%nat -> s32 (get32 (header L d) 0) = lh_n L.
Proof.
  intros Hn Hd. unfold header, LOGBLOCKS, MAXOPBLOCKS in *.
  rewrite write_blocks_below; [| rewrite put32_length; lia | lia]. rewrite get32_put32 by lia.
  change (lh_n L mod 2 ^ 32) with (u32 (lh_n L)). rewrite s32_u32. apply s32_small. lia.
Qed.
Lemma header_home L d j : log_ok L -> length d = 1024%nat -> (j < Z.to_nat (lh_n L))%nat ->
  get32 (header L d) (4 + 4 * j) = home L j.
Proof.
  intros Hok Hd Hj. pose proof (lo_n L Hok) as Hn. unfold header, LOGBLOCKS, MAXOPBLOCKS in *.
  rewrite write_blocks_get; [| rewrite put32_length; lia | lia]. apply u32_small.
  fold (home L j). destruct (lo_home L Hok j Hj) as [Hr _]. lia.
Qed.
Lemma log_area_in L m : log_area L m <-> in_log (l_start L) m.
Proof. done. Qed.

(** A disk whose header is that of [L]. *)
Lemma header_wf L v d : log_ok L -> length d = 1024%nat -> v (l_start L) = header L d -> log_wf (l_start L) v.
Proof.
  intros Hok Hd Hv. pose proof (lo_n L Hok) as Hn.
  assert (logged_n (l_start L) v = lh_n L) as Hln by (unfold logged_n; by rewrite Hv, header_n).
  split; rewrite ?Hln; [done | | rewrite Hv; by apply header_length].
  intros j Hj. unfold logged_home. rewrite Hv, header_home by done. by apply (lo_home L Hok).
Qed.
Lemma header_rec_writes L v d mem : log_ok L -> length d = 1024%nat -> v (l_start L) = header L d ->
  (forall j, (j < Z.to_nat (lh_n L))%nat -> v (slot L j) = mem (home L j)) -> rec_writes (l_start L) v = home_writes L mem.
Proof.
  intros Hok Hd Hv Hs. unfold rec_writes, home_writes. pose proof (lo_n L Hok) as Hn.
  assert (logged_n (l_start L) v = lh_n L) as -> by (unfold logged_n; by rewrite Hv, header_n).
  apply list_fmap_ext. intros k j [-> Hk]%lookup_seq. cbn [Nat.add]. unfold logged_home. rewrite Hv, header_home by done.
  f_equal. by apply Hs.
Qed.

Lemma after_homes L mem v m : log_ok L -> (m ∉ homes L -> v m = mem m) -> after (home_writes L mem) v m = mem m.
Proof.
  intros Hok Hv. destruct (decide (m ∈ homes L)) as [Hin | Hout].
  - apply after_in; [by apply (proj2 (home_writes_in L mem m Hok)) |]. intros y (j & [= -> ->] & _)%list_elem_of_fmap. done.
  - rewrite after_notin; [auto |]. by rewrite home_writes_in.
Qed.

Lemma elem_of_take_in {A} (x : A) k l : x ∈ take k l -> x ∈ l.
Proof. intros (i & Hi & _)%elem_of_take. by apply list_elem_of_lookup_2 in Hi. Qed.

(** Before the commit point: part of the log is written. *)
Lemma commit_before L mem v k :
  log_ok L -> logged_n (l_start L) v = 0 -> length (v (l_start L)) = 1024%nat ->
  let vk := after (take k (log_writes L mem 0 (Z.to_nat (lh_n L)))) v in
  log_wf (l_start L) vk /\ forall m, ~ log_area L m -> recovered (l_start L) vk m = v m.
Proof.
  intros Hok Hv Hlen vk. pose proof (lo_n L Hok) as Hn. set (n := Z.to_nat (lh_n L)) in *.
  assert (Hst : vk (l_start L) = v (l_start L)).
  { apply after_notin. rewrite fmap_take. intros Hin%elem_of_take_in.
    apply log_writes_in in Hin as (j & _ & Hs). unfold slot in Hs. lia. }
  assert (Hz : logged_n (l_start L) vk = 0) by (unfold logged_n in *; by rewrite Hst).
  split; [apply log_wf_empty; [done | by rewrite Hst] |]. intros m Hm. rewrite recovered_empty by done.
  apply after_notin. rewrite fmap_take. intros Hin%elem_of_take_in.
  apply log_writes_in in Hin as (j & Hj & ->). apply Hm, slot_area. lia.
Qed.

(** The disk at the commit point. *)
Definition commit_point (L : log) (mem v : view) : view :=
  vset (l_start L) (header L (mem (l_start L))) (after (log_writes L mem 0 (Z.to_nat (lh_n L))) v).
Lemma commit_point_slot L mem v j : (j < Z.to_nat (lh_n L))%nat -> commit_point L mem v (slot L j) = mem (home L j).
Proof.
  intros Hj. unfold commit_point. rewrite vset_ne by (unfold slot; lia). apply after_log_slot. lia.
Qed.
Lemma commit_point_out L mem v m : log_ok L -> ~ log_area L m -> commit_point L mem v m = v m.
Proof.
  intros Hok Hm. pose proof (lo_n L Hok). unfold commit_point.
  rewrite vset_ne by (intros ->; by apply Hm, start_area). apply after_log_home; [lia | done].
Qed.

(** After the commit point: part of the blocks is installed. *)
Lemma commit_between L mem v k :
  log_ok L -> length (mem (l_start L)) = 1024%nat -> (forall m, ~ log_area L m -> m ∉ homes L -> v m = mem m) ->
  let vk := after (take k (home_writes L mem)) (commit_point L mem v) in
  log_wf (l_start L) vk /\ forall m, ~ log_area L m -> recovered (l_start L) vk m = mem m.
Proof.
  intros Hok Hml Hclean vk. pose proof (lo_n L Hok) as Hn.
  assert (Hvk : forall m, log_area L m -> vk m = commit_point L mem v m).
  { intros m Hm. apply after_notin. rewrite fmap_take. intros Hin%elem_of_take_in.
    apply (proj1 (home_writes_in L mem m Hok)) in Hin. by apply (homes_not_area L m). }
  assert (vk (l_start L) = header L (mem (l_start L))) as Hhd by (rewrite Hvk by apply start_area; apply vset_eq).
  split; [by apply (header_wf L vk (mem (l_start L)))|]. intros m Hm. unfold recovered.
  rewrite (header_rec_writes L vk (mem (l_start L)) mem); try done.
  2:{ intros j Hj. rewrite Hvk by (apply slot_area; lia). by apply commit_point_slot. }
  unfold vk. rewrite after_prefix. apply after_homes; [done |]. intros Hout. rewrite commit_point_out by done. by apply Hclean.
Qed.

(** The log is emptied. *)
Lemma commit_after L mem v :
  log_ok L -> length (mem (l_start L)) = 1024%nat -> (forall m, ~ log_area L m -> m ∉ homes L -> v m = mem m) ->
  let v3 := vset (l_start L) (header (emptied L) (header L (mem (l_start L)))) (after (home_writes L mem) (commit_point L mem v)) in
  log_wf (l_start L) v3 /\ forall m, ~ log_area L m -> recovered (l_start L) v3 m = mem m.
Proof.
  intros Hok Hml Hclean v3. pose proof (header_length L _ (lo_n L Hok) Hml) as Hhd.
  assert (Hv3 : v3 (l_start L) = header (emptied L) (header L (mem (l_start L)))) by apply vset_eq.
  split; [by apply (header_wf (emptied L) v3 _ (emptied_ok L Hok) Hhd) |]. intros m Hm. rewrite recovered_empty.
  2:{ unfold logged_n. rewrite Hv3. apply header_n; [| done]. by apply (lo_n _ (emptied_ok L Hok)). }
  unfold v3. rewrite vset_ne by (intros ->; by apply Hm, start_area).
  apply after_homes; [done |]. intros Hout. rewrite commit_point_out by done. by apply Hclean.
Qed.

(** After any number [k] of the writes of a commit, recovery gives the old contents
    of the disk up to the write of the header, and the new contents from it on. *)
Lemma commit_prefix L mem v k :
  log_ok L -> logged_n (l_start L) v = 0 -> length (v (l_start L)) = 1024%nat -> length (mem (l_start L)) = 1024%nat ->
  (forall m, ~ log_area L m -> m ∉ homes L -> v m = mem m) ->
  let vk := after (take k (commit_writes L mem)) v in
  log_wf (l_start L) vk /\
  forall m, ~ log_area L m -> recovered (l_start L) vk m = if decide (k <= Z.to_nat (lh_n L))%nat then v m else mem m.
Proof.
  intros Hok Hv Hlen Hml Hclean vk. unfold vk, commit_writes. set (n := Z.to_nat (lh_n L)).
  assert (length (log_writes L mem 0 n) = n) as Hll by (unfold log_writes; by rewrite length_fmap, length_seq).
  assert (length (home_writes L mem) = n) as Hlh by (unfold home_writes; by rewrite length_fmap, length_seq).
  case_decide as Hk; [rewrite take_app_le by lia; by apply commit_before |].
  rewrite take_app_ge by lia. rewrite Hll. destruct (k - n)%nat as [| k'] eqn:Hkn; [lia |].
  cbn [app take]. rewrite after_app, after_cons. cbn [fst snd]. unfold n. fold (commit_point L mem v).
  destruct (decide (k' <= n)%nat) as [Hk' | Hk']; [rewrite take_app_le by lia; by apply commit_between |].
  rewrite take_app_ge by lia. rewrite Hlh. destruct (k' - n)%nat as [| k2] eqn:Hk2; [lia |].
  cbn [take]. rewrite take_nil, after_app, after_cons. by apply commit_after.
Qed.

(** ** Sequences of steps *)
Lemma performs_get {A B} (f : kstate -> A) (k : A -> K B) W Q s :
  performs (k (f s)) W Q s -> performs (bind (get f) k) W Q s.
Proof. intros Hk e. exact (Hk e). Qed.
Lemma performs_upd {B} f (k : unit -> K B) W Q s :
  k_disk (f s) = k_disk s -> performs (k tt) W Q (f s) -> performs (bind (put f) k) W Q s.
Proof. intros Hd Hk e. specialize (Hk e). rewrite Hd in Hk. exact Hk. Qed.
Lemma performs_skip {B} (k : unit -> K B) W Q s : performs (k tt) W Q s -> performs (bind (ret tt) k) W Q s.
Proof. intros Hk e. exact (Hk e). Qed.

Lemma bind_seq4 {A B C D E} (m1 : K A) (m2 : K B) (m3 : K C) (m4 : K D) (k : K E) w :
  (m1 ;;; m2 ;;; m3 ;;; m4 ;;; k) w = ((m1 ;;; m2 ;;; m3 ;;; m4) ;;; k) w.
Proof. unfold bind. by repeat (case_match; try done). Qed.
Lemma performs_ext {A} (m m' : K A) W Q s : (forall w, m w = m' w) -> performs m' W Q s -> performs m W Q s.
Proof. intros Hm Hp e. rewrite Hm. apply Hp. Qed.

Section commit.
Context `{DiskLaws} (p : nat) (pid : Z) (dev : Z).
Local Abbreviation bstate := (bstate p pid dev).

Lemma bstate_log L P own dirty mem s : bstate L P own dirty mem s -> k_log s = L.
Proof. by intros (_ & ? & _). Qed.
Lemma bstate_room L P dirty mem s n : bstate L P [] dirty mem s -> n ∈ dirty -> n ∈ P.
Proof. intros (_ & _ & _ & _ & Hca) Hn. by destruct (ca_dirty _ _ _ _ _ _ _ Hca n Hn) as [? | ?%not_elem_of_nil]. Qed.
Lemma bstate_size L P own dirty mem s n : bstate L P own dirty mem s -> length (mem n) = 1024%nat.
Proof. intros (_ & _ & _ & _ & Hca). by apply (ca_size _ _ _ _ _ _ _ Hca). Qed.

Lemma performs_log_block {B} L (k : Z -> K B) W Q s j :
  k_log s = L -> log_ok L -> (j < Z.to_nat (lh_n L))%nat ->
  performs (k (home L j)) W Q s -> performs (bind (log_block (Z.of_nat j)) k) W Q s.
Proof.
  intros HL Hok Hj Hk e. unfold log_block. rewrite Nat2Z.id.
  destruct (lookup_lt_is_Some_2 (lh_block L) j) as [v Hv].
  { rewrite (lo_len L Hok). pose proof (lo_n L Hok). unfold LOGBLOCKS, MAXOPBLOCKS in *. lia. }
  erewrite bind_ret by (apply get_nth_eq; by rewrite HL).
  specialize (Hk e). unfold home in Hk. rewrite Hv in Hk. exact Hk.
Qed.
Lemma performs_data {B} L P own dirty mem b n (k : list Z -> K B) W Q s :
  bstate L P own dirty mem s -> (b, n) ∈ own -> performs (k (mem n)) W Q s -> performs (bind (buf_data b) k) W Q s.
Proof.
  intros Hs Hin Hk. eapply performs_seq.
  - unfold buf_data. eapply performs_seq; [by eapply get_buf_performs |]. intros x s' (Hd & _ & ->).
    by apply (performs_ret _ (b_data x) s s (fun d s' => d = mem n /\ s' = s)).
  - by intros d s' (-> & ->).
Qed.

Lemma u32_dev L s P own dirty mem : bstate L P own dirty mem s -> u32 (l_dev L) = dev -> u32 (l_dev (k_log s)) = dev.
Proof. by intros ->%bstate_log. Qed.

(** ** [write_log] *)
Lemma write_log_performs L P dirty fuel : forall i mem s,
  bstate L P [] dirty mem s -> log_ok L -> u32 (l_dev L) = dev -> (i + fuel = Z.to_nat (lh_n L))%nat ->
  (forall j, (j < Z.to_nat (lh_n L))%nat -> home L j ∈ P) -> (forall m, m ∈ P -> ~ log_area L m) -> (size P < NBUF)%nat ->
  performs (write_log_loop fuel (Z.of_nat i)) (log_writes L mem i fuel)
    (fun _ s' => bstate L P [] dirty (after (log_writes L mem i fuel) mem) s') s.
Proof.
  induction fuel as [| fuel IH]; intros i mem s Hs Hok Hdev Hi Hhome HP Hsz.
  { by apply (performs_ret _ tt s s). }
  cbn [write_log_loop]. apply performs_get. fold get_log.
  rewrite (bstate_log _ _ _ _ _ _ Hs), (proj2 (Z.leb_gt _ _)), slot_u32, Hdev by (done || lia).
  assert (Hsl : slot L i ∉ P).
  { intros Hin. apply (HP _ Hin), slot_area. pose proof (lo_n L Hok). lia. }
  destruct (lo_home L Hok i) as [Hrange _]; [lia |].
  eapply performs_seq; [apply (bread_performs p pid dev L P [] dirty mem (slot L i) s Hs); [set_solver | right; cbn; lia] |].
  intros to s1 Hs1. cbv beta.
  apply (performs_log_block L); [exact (bstate_log _ _ _ _ _ _ Hs1) | done | lia |]. rewrite u32_small by lia.
  eapply performs_seq; [apply (bread_performs p pid dev L P _ dirty mem (home L i) s1 Hs1); [| left; apply Hhome; lia] |].
  { cbn. intros [Heq | ?%not_elem_of_nil]%elem_of_cons; [| done]. apply Hsl. rewrite <- Heq. apply Hhome. lia. }
  intros from s2 Hs2. cbv beta.
  eapply performs_data; [exact Hs2 | by left |].
  eapply performs_seq; [apply (store_performs p pid dev L P _ dirty mem to (slot L i) _ s2 Hs2); [right; by left | exact (bstate_size _ _ _ _ _ _ _ Hs)] |].
  intros [] s3 Hs3. cbv beta in Hs3 |- *. set (mem1 := vset (slot L i) (mem (home L i)) mem) in *.
  change (log_writes L mem i (S fuel)) with ([(slot L i, mem (home L i))] ++ log_writes L mem (S i) fuel).
  eapply performs_bind.
  { replace (mem (home L i)) with (mem1 (slot L i)) by (unfold mem1; by rewrite vset_eq).
    apply (bwrite_performs p pid dev L P _ _ mem1 to (slot L i) s3 Hs3). right. by left. }
  intros [] s4 Hs4. cbv beta in Hs4 |- *.
  assert ((dirty ∪ {[slot L i]}) ∖ {[slot L i]} = dirty) as Hdi.
  { apply set_eq. intros m. pose proof (bstate_room L P dirty mem s m Hs). set_solver. }
  rewrite Hdi in Hs4.
  eapply performs_seq; [apply (brelse_performs p pid dev L P [] from (home L i) _ dirty mem1 s4 Hs4); left; apply Hhome; lia |].
  intros [] s5 Hs5. cbv beta in Hs5 |- *.
  eapply performs_seq; [apply (brelse_performs p pid dev L P [] to (slot L i) [] dirty mem1 s5 Hs5); right |].
  { intros Hin. apply Hsl. by apply (bstate_room L P dirty mem s). }
  intros [] s6 Hs6. cbv beta in Hs6 |- *. cbn [app] in Hs6.
  assert (log_writes L mem (S i) fuel = log_writes L mem1 (S i) fuel) as ->.
  { apply list_fmap_ext. intros k j [-> Hk]%lookup_seq. f_equal. unfold mem1. rewrite vset_ne; [done |].
    intros Heq. apply Hsl. rewrite <- Heq. apply Hhome. lia. }
  replace (Z.of_nat i + 1) with (Z.of_nat (S i)) by lia.
  apply IH; try done. lia.
Qed.

(** ** [write_head] *)
Lemma write_head_performs L P dirty mem s :
  bstate L P [] dirty mem s -> log_ok L -> u32 (l_dev L) = dev -> l_start L ∉ P -> (size P < NBUF)%nat ->
  performs write_head [(l_start L, header L (mem (l_start L)))]
    (fun _ s' => bstate L P [] dirty (after [(l_start L, header L (mem (l_start L)))] mem) s') s.
Proof.
  intros Hs Hok Hdev HP Hsz. unfold write_head. apply performs_get. fold get_log.
  pose proof (lo_start L Hok) as Hst. pose proof (lo_n L Hok) as Hn. unfold LOGBLOCKS, MAXOPBLOCKS in Hst.
  rewrite (bstate_log _ _ _ _ _ _ Hs), (u32_small (l_start L)), Hdev by lia.
  eapply performs_seq; [apply (bread_performs p pid dev L P [] dirty mem (l_start L) s Hs); [set_solver | right; cbn; lia] |].
  intros b s1 Hs1. cbv beta in Hs1 |- *. eapply performs_data; [exact Hs1 | by left |].
  set (hd := header L (mem (l_start L))).
  eapply performs_seq; [apply (store_performs p pid dev L P _ dirty mem b (l_start L) hd s1 Hs1); [by left |] |].
  { by apply header_length; [| exact (bstate_size _ _ _ _ _ _ _ Hs)]. }
  intros [] s2 Hs2. cbv beta in Hs2 |- *. change ([(l_start L, hd)]) with ([(l_start L, hd)] ++ []) at 1.
  set (mem1 := vset (l_start L) hd mem) in *. eapply performs_bind.
  { replace hd with (mem1 (l_start L)) by (unfold mem1; by rewrite vset_eq).
    apply (bwrite_performs p pid dev L P _ _ mem1 b (l_start L) s2 Hs2). by left. }
  intros [] s3 Hs3. cbv beta in Hs3 |- *.
  assert (l_start L ∉ dirty) as Hnd by (intros Hin; by apply HP, (bstate_room L P dirty mem s)).
  assert ((dirty ∪ {[l_start L]}) ∖ {[l_start L]} = dirty) as Hdi by (apply set_eq; set_solver). rewrite Hdi in Hs3.
  exact (brelse_performs p pid dev L P [] b (l_start L) [] dirty mem1 s3 Hs3 (or_intror Hnd)).
Qed.

(** ** [install_trans] *)
Definition recovering_msg (i blk : Z) : K unit :=
  printf (str "recovering tail %d dst %d" ++ [10]) [PInt i; PInt blk] ;;; ret tt.
Lemma bstate_emit L P own dirty mem l s : bstate L P own dirty mem s -> bstate L P own dirty mem (emit l (sync s)).
Proof.
  intros (Hm & Hrest). split; [| exact Hrest].
  destruct (machine_sync p pid s Hm) as (c & pr & Hm'). exists c, pr. exact Hm'.
Qed.
Lemma recovering_performs L P own dirty mem i blk s :
  bstate L P own dirty mem s -> performs (recovering_msg i blk) [] (fun _ s' => bstate L P own dirty mem s') s.
Proof.
  intros Hs. pose proof Hs as ((c & pr & Hr & Hn & Hpr & Hpid & Hpf & Hlk & Hui & Hpn & Hpd) & _).
  pose proof Hr as (Hc & _).
  assert (exists l, emits (printf_loop 26 (str "recovering tail %d dst %d" ++ [10]) 0 [PInt i; PInt blk]) l) as [l Hl].
  { eexists. do 16 (eapply emits_plain; [by vm_compute | done | done | lia |]).
    eapply emits_pct_d; [reflexivity | reflexivity |].
    do 5 (eapply emits_plain; [by vm_compute | done | done | lia |]).
    eapply emits_pct_d; [reflexivity | reflexivity |].
    eapply emits_plain; [by vm_compute | done | done | lia |]. by apply emits_end. }
  apply (performs_ret _ tt s (emit l (sync s))); [| done | by apply bstate_emit].
  intros e. unfold recovering_msg. erewrite bind_ret; [reflexivity |].
  apply (printf_eq s e c); try done; [lia |]. apply (quiet_lock s _ Hlk). apply elem_of_app. left. right. right. by left.
Qed.

(** The pinned blocks when [i] entries are installed. *)
Definition to_install (recovering : bool) (L : log) (i : nat) : gset Z :=
  if recovering then ∅ else list_to_set (drop i (homes L)).
(** An entry that is installed is given up. *)
Lemma to_install_step L i : log_ok L -> NoDup (homes L) -> (i < Z.to_nat (lh_n L))%nat ->
  home L i ∈ to_install false L i /\ to_install false L i ∖ {[home L i]} = to_install false L (S i).
Proof.
  intros Hok Hnd Hi. unfold to_install. rewrite homes_drop by done.
  assert (NoDup (drop i (homes L))) as Hnd' by (rewrite <- (take_drop i (homes L)) in Hnd; by apply NoDup_app in Hnd as (_ & _ & ?)).
  rewrite homes_drop, NoDup_cons in Hnd' by done. destruct Hnd' as [Hni _]. split; [set_solver |].
  apply set_eq. intros m. rewrite elem_of_difference, !elem_of_list_to_set. set_solver.
Qed.
Lemma to_install_small r L i : log_ok L -> (r = false -> NoDup (homes L) /\ (Z.to_nat (lh_n L) < NBUF)%nat) ->
  (size (to_install r L i) < NBUF)%nat /\ forall m, m ∈ to_install r L i -> m ∈ homes L.
Proof.
  intros Hok Hr. unfold to_install. destruct r; [split; [rewrite size_empty; unfold NBUF; lia | set_solver] |].
  destruct (Hr eq_refl) as [Hnd Hn]. rewrite <- (take_drop i (homes L)) in Hnd. apply NoDup_app in Hnd as (_ & _ & Hnd).
  split.
  - rewrite size_list_to_set by done. rewrite length_drop, homes_length by done. lia.
  - intros m Hm%elem_of_list_to_set. rewrite <- (take_drop i (homes L)). set_solver.
Qed.

(** The block of entry [i] is written home and released. *)
Lemma install_finish r L i lbuf dbuf dirty mem s :
  let P := to_install r L i in
  bstate L P [(dbuf, home L i); (lbuf, slot L i)] dirty mem s -> log_ok L -> (i < Z.to_nat (lh_n L))%nat ->
  (r = false -> NoDup (homes L) /\ (Z.to_nat (lh_n L) < NBUF)%nat) -> slot L i ∉ dirty -> home L i <> slot L i ->
  performs (bwrite dbuf ;;; (if r then ret tt else bunpin dbuf) ;;; brelse lbuf ;;; brelse dbuf)
    [(home L i, mem (home L i))]
    (fun _ s' => bstate L (to_install r L (S i)) [] (dirty ∖ {[home L i]}) mem s') s.
Proof.
  intros P Hs Hok Hi Hr Hsd Hne. change ([(home L i, mem (home L i))]) with ([(home L i, mem (home L i))] ++ []).
  eapply performs_bind; [apply (bwrite_performs p pid dev L P _ dirty mem dbuf (home L i) s Hs); by left |].
  intros [] s1 Hs1. cbv beta in Hs1 |- *.
  eapply performs_seq with (Q := fun _ s' => bstate L (to_install r L (S i)) [(dbuf, home L i); (lbuf, slot L i)]
    (dirty ∖ {[home L i]}) mem s').
  { destruct r; [by apply (performs_ret _ tt s1 s1) |].
    destruct (to_install_step L i Hok (proj1 (Hr eq_refl)) Hi) as [Hin Hstep]. rewrite <- Hstep.
    apply (bunpin_performs p pid dev L P _ _ mem dbuf (home L i) s1 Hs1); [by left | exact Hin]. }
  intros [] s2 Hs2. cbv beta in Hs2 |- *.
  eapply performs_seq; [apply (brelse_performs p pid dev L _ [(dbuf, home L i)] lbuf (slot L i) [] _ mem s2 Hs2); right; set_solver |].
  intros [] s3 Hs3. cbv beta in Hs3 |- *. cbn [app] in Hs3.
  apply (brelse_performs p pid dev L _ [] dbuf (home L i) [] _ mem s3 Hs3). right. set_solver.
Qed.

Lemma install_performs r L fuel : forall i mem dirty s,
  bstate L (to_install r L i) [] dirty mem s -> log_ok L -> u32 (l_dev L) = dev -> (i + fuel = Z.to_nat (lh_n L))%nat ->
  (r = false -> NoDup (homes L) /\ (Z.to_nat (lh_n L) < NBUF)%nat) ->
  performs (install_trans_loop fuel r (Z.of_nat i)) (inst_writes L mem i fuel)
    (fun _ s' => exists dirty', bstate L ∅ [] dirty' (after (inst_writes L mem i fuel) mem) s') s.
Proof.
  induction fuel as [| fuel IH]; intros i mem dirty s Hs Hok Hdev Hi Hr.
  { apply (performs_ret _ tt s s); [done | done |]. exists dirty. cbn.
    assert (to_install r L i = ∅) as <-; [| done]. unfold to_install. destruct r; [done |].
    by rewrite drop_ge by (rewrite homes_length by done; lia). }
  cbn [install_trans_loop]. apply performs_get. fold get_log.
  rewrite (bstate_log _ _ _ _ _ _ Hs), (proj2 (Z.leb_gt _ _)), slot_u32, Hdev by (done || lia).
  destruct (to_install_small r L i Hok Hr) as [Hsz Hsub]. destruct (lo_home L Hok i) as [Hrange Hna]; [lia |].
  assert (Harea : log_area L (slot L i)) by (apply slot_area; pose proof (lo_n L Hok); lia).
  assert (Hsl : slot L i ∉ homes L) by (intros Hin; by apply (homes_not_area L (slot L i) Hok Hin)).
  assert (home L i <> slot L i) as Hne by congruence.
  eapply performs_seq with (Q := fun _ s' => bstate L (to_install r L i) [] dirty mem s').
  { destruct r; [| by apply (performs_ret _ tt s s)].
    apply (performs_log_block L); [exact (bstate_log _ _ _ _ _ _ Hs) | done | lia |]. by apply recovering_performs. }
  clear s Hs. intros [] s Hs. cbv beta in Hs |- *.
  eapply performs_seq; [apply (bread_performs p pid dev L _ [] dirty mem (slot L i) s Hs); [set_solver | right; cbn; lia] |].
  intros lbuf s1 Hs1. cbv beta in Hs1 |- *.
  apply (performs_log_block L); [exact (bstate_log _ _ _ _ _ _ Hs1) | done | lia |]. rewrite u32_small by lia.
  eapply performs_seq; [apply (bread_performs p pid dev L _ _ dirty mem (home L i) s1 Hs1); [cbn; set_solver |] |].
  { destruct r; [right; change (to_install true L i) with (∅ : gset Z); rewrite size_empty; cbn; unfold NBUF; lia | left; by apply to_install_step; [| apply Hr | lia]]. }
  intros dbuf s2 Hs2. cbv beta in Hs2 |- *.
  eapply performs_data; [exact Hs2 | right; by left |].
  eapply performs_seq; [apply (store_performs p pid dev L _ _ dirty mem dbuf (home L i) _ s2 Hs2); [by left | exact (bstate_size _ _ _ _ _ _ _ Hs)] |].
  intros [] s3 Hs3. cbv beta in Hs3 |- *. set (mem1 := vset (home L i) (mem (slot L i)) mem) in *.
  change (inst_writes L mem i (S fuel)) with ([(home L i, mem (slot L i))] ++ inst_writes L mem (S i) fuel).
  assert (Hslm : mem1 (home L i) = mem (slot L i)) by apply vset_eq.
  eapply performs_ext; [intros w; apply bind_seq4 |]. eapply performs_bind.
  { rewrite <- Hslm. apply install_finish; [exact Hs3 | done | lia | done | | done].
    intros [Hin | Heq%elem_of_singleton]%elem_of_union; [| congruence].
    by apply Hsl, Hsub, (bstate_room L _ dirty mem s). }
  intros [] s4 Hs4. cbv beta in Hs4 |- *.
  assert (inst_writes L mem (S i) fuel = inst_writes L mem1 (S i) fuel) as ->.
  { apply list_fmap_ext. intros k j [-> Hk]%lookup_seq. f_equal. unfold mem1. rewrite vset_ne; [done |].
    intros Heq. apply Hna. rewrite <- Heq. apply slot_area. pose proof (lo_n L Hok). lia. }
  replace (Z.of_nat i + 1) with (Z.of_nat (S i)) by lia.
  eapply performs_mono; [apply (IH (S i) mem1 _ s4 Hs4); try done; lia |].
  intros [] s' Hs'. exact Hs'.
Qed.

(** ** [commit] *)
Lemma commit_performs L dirty mem s :
  bstate L (list_to_set (homes L)) [] dirty mem s -> log_ok L -> u32 (l_dev L) = dev -> 0 < lh_n L ->
  NoDup (homes L) -> (Z.to_nat (lh_n L) < NBUF)%nat ->
  performs commit (commit_writes L mem)
    (fun _ s' => exists dirty', bstate (emptied L) ∅ [] dirty' (after (commit_writes L mem) mem) s') s.
Proof.
  intros Hs Hok Hdev Hpos Hnd Hnb. unfold commit, commit_writes. apply performs_get. fold get_log.
  rewrite (bstate_log _ _ _ _ _ _ Hs), (proj2 (Z.ltb_lt _ _) Hpos). cbv zeta. set (hd := header L (mem (l_start L))).
  set (n := Z.to_nat (lh_n L)) in *. destruct (to_install_small false L 0 Hok ltac:(done)) as [Hsz Hsub].
  assert (to_install false L 0 = list_to_set (homes L)) as HP by done. rewrite HP in Hsz, Hsub.
  assert (Hst : l_start L ∉ (list_to_set (homes L) : gset Z)).
  { intros Hin. by apply (homes_not_area L (l_start L) Hok (Hsub _ Hin)), start_area. }
  rewrite !after_app. eapply performs_bind.
  { unfold write_log. apply performs_get. fold get_log. rewrite (bstate_log _ _ _ _ _ _ Hs). fold n.
    apply (write_log_performs L (list_to_set (homes L)) dirty n 0 mem s); try done.
    - intros j Hj. apply elem_of_list_to_set. by apply home_in.
    - intros m Hm. apply homes_not_area; [done | by apply Hsub]. }
  intros [] s1 Hs1. cbv beta in Hs1 |- *. set (mem1 := after (log_writes L mem 0 n) mem) in *.
  assert (hd = header L (mem1 (l_start L))) as Hhd by (unfold mem1; by rewrite after_log_start).
  eapply performs_bind. { rewrite Hhd. by apply (write_head_performs L (list_to_set (homes L)) dirty mem1 s1). }
  intros [] s2 Hs2. cbv beta in Hs2 |- *. rewrite <- Hhd in Hs2. set (mem2 := after [(l_start L, hd)] mem1) in *.
  assert (home_writes L mem = inst_writes L mem2 0 n) as Hw.
  { apply list_fmap_ext. intros k j [-> Hk]%lookup_seq. f_equal. cbn [Nat.add]. unfold mem2. cbn.
    rewrite vset_ne by (unfold slot; lia). symmetry. apply after_log_slot. lia. }
  eapply performs_bind.
  { rewrite Hw. unfold install_trans. apply performs_get. fold get_log. rewrite (bstate_log _ _ _ _ _ _ Hs2). fold n.
    apply (install_performs false L n 0 mem2 dirty s2); try done. }
  intros [] s3 (dirty' & Hs3). cbv beta in Hs3 |- *. rewrite <- Hw in Hs3.
  set (mem3 := after (home_writes L mem) mem2) in *. apply performs_upd; [done |].
  assert (mem3 (l_start L) = hd) as Hm3.
  { unfold mem3. rewrite after_home_area by (done || apply start_area). unfold mem2. cbn. apply vset_eq. }
  match goal with |- performs _ _ _ ?s4 => assert (bstate (emptied L) ∅ [] dirty' mem3 s4) as Hs4 end.
  { destruct Hs3 as (Hm & HL & Hrest). split; [exact Hm |]. split; [cbn; by rewrite HL | exact Hrest]. }
  rewrite <- Hm3. change (l_start L) with (l_start (emptied L)).
  eapply performs_mono; [apply (write_head_performs (emptied L) ∅ dirty' mem3) |].
  - exact Hs4.
  - by apply emptied_ok.
  - exact Hdev.
  - set_solver.
  - rewrite size_empty. unfold NBUF. lia.
  - intros [] s' Hs'. exists dirty'. exact Hs'.
Qed.

(** ** [read_head] *)
Lemma bstate_set_log f L P own dirty mem s :
  bstate L P own dirty mem s -> bstate (f L) P own dirty mem (s <| k_log ::= f |>).
Proof. intros (Hm & HL & Hrest). split; [exact Hm |]. split; [cbn; by rewrite HL | exact Hrest]. Qed.

(** The log [read_head] makes of the header [d]. *)
Definition loaded (L : log) (d : list Z) (bl : list Z) : log := L <| lh_n := s32 (get32 d 0) |> <| lh_block := bl |>.

Lemma read_head_performs L dirty mem s :
  bstate L ∅ [] dirty mem s -> 0 <= l_start L < 2 ^ 31 -> u32 (l_dev L) = dev -> length (lh_block L) = 30%nat ->
  log_wf (l_start L) mem ->
  performs read_head []
    (fun _ s' => exists bl, bstate (loaded L (mem (l_start L)) bl) ∅ [] dirty mem s' /\ length bl = 30%nat /\
       forall j, (j < Z.to_nat (logged_n (l_start L) mem))%nat -> bl !! j = Some (logged_home (l_start L) mem j)) s.
Proof.
  intros Hs Hst Hdev Hbl Hwf. unfold read_head. apply performs_get. fold get_log.
  rewrite (bstate_log _ _ _ _ _ _ Hs), (u32_small (l_start L)), Hdev by lia.
  assert (l_start L ∉ dirty) as Hnd by (intros Hin; by apply (bstate_room L ∅ dirty mem s) in Hin).
  eapply performs_seq; [apply (bread_performs p pid dev L ∅ [] dirty mem (l_start L) s Hs); [set_solver | right] |].
  { rewrite size_empty. cbn. unfold NBUF. lia. }
  intros b s1 Hs1. cbv beta in Hs1 |- *. eapply performs_data; [exact Hs1 | by left |].
  set (d := mem (l_start L)) in *. apply performs_upd; [done |].
  pose proof (bstate_set_log (fun l => l <| lh_n := s32 (get32 d 0) |>) _ _ _ _ _ _ Hs1) as Hs2.
  set (L2 := L <| lh_n := s32 (get32 d 0) |>) in *.
  pose proof (wf_n _ _ Hwf) as Hn. unfold LOGBLOCKS, MAXOPBLOCKS in Hn.
  eapply performs_seq with (Q := fun _ s' => exists bl,
    bstate (loaded L d bl) ∅ [(b, l_start L)] dirty mem s' /\ length bl = 30%nat /\
    forall j, (j < Z.to_nat (logged_n (l_start L) mem))%nat -> bl !! j = Some (logged_home (l_start L) mem j)).
  { intros e. edestruct (read_blocks_eq (Z.to_nat (logged_n (l_start L) mem)) 0 d) as (bl & Heq & Hlen & Hlk); [lia | |].
    2:{ unfold logged_n in Heq. fold d in Heq. rewrite Heq. cbn [w_env w_k length]. split; [done |]. split; [done |].
        exists bl. split; [| split; [done |]].
        - pose proof (bstate_set_log (fun l => l <| lh_block := bl |>) _ _ _ _ _ _ Hs2) as Hs3. exact Hs3.
        - intros j Hj. rewrite Hlk, decide_True by lia. f_equal. destruct (wf_home _ _ Hwf j Hj) as [Hr _].
          unfold logged_home in *. fold d in Hr |- *. apply s32_small. lia. }
    destruct Hs2 as (_ & -> & _). done. }
  intros [] s3 (bl & Hs3 & Hbl' & Hlk). cbv beta.
  eapply performs_mono; [apply (brelse_performs p pid dev _ ∅ [] b (l_start L) [] dirty mem s3 Hs3); by right |].
  intros [] s4 Hs4. exists bl. done.
Qed.

(** ** [recover_from_log] *)
Definition recover_writes (start : Z) (mem : view) : list (Z * list Z) :=
  rec_writes start mem ++ [(start, put32 (mem start) 0 0)].

Lemma loaded_ok L mem bl :
  0 <= l_start L /\ l_start L + LOGBLOCKS < 2 ^ 31 -> log_wf (l_start L) mem -> length bl = 30%nat ->
  (forall j, (j < Z.to_nat (logged_n (l_start L) mem))%nat -> bl !! j = Some (logged_home (l_start L) mem j)) ->
  let L' := loaded L (mem (l_start L)) bl in
  log_ok L' /\ inst_writes L' mem 0 (Z.to_nat (lh_n L')) = rec_writes (l_start L) mem.
Proof.
  intros Hst Hwf Hbl Hlk L'.
  assert (Hh : forall j, (j < Z.to_nat (logged_n (l_start L) mem))%nat -> home L' j = logged_home (l_start L) mem j)
    by (intros j Hj; unfold home; cbn; by rewrite Hlk).
  split.
  - split; [exact Hst | by apply (wf_n _ _ Hwf) | done |]. intros j Hj. change (lh_n L') with (logged_n (l_start L) mem) in Hj.
    rewrite Hh by done. by apply (wf_home _ _ Hwf).
  - apply list_fmap_ext. intros k j [-> Hk]%lookup_seq. cbn [Nat.add]. by rewrite Hh.
Qed.

Lemma recover_performs L dirty mem s :
  bstate L ∅ [] dirty mem s -> 0 <= l_start L /\ l_start L + LOGBLOCKS < 2 ^ 31 -> u32 (l_dev L) = dev ->
  length (lh_block L) = 30%nat -> log_wf (l_start L) mem ->
  performs recover_from_log (recover_writes (l_start L) mem)
    (fun _ s' => exists L' dirty', bstate L' ∅ [] dirty' (after (recover_writes (l_start L) mem) mem) s' /\
       log_frame L L' /\ log_ok L' /\ lh_n L' = 0) s.
Proof.
  intros Hs Hst Hdev Hbl Hwf. unfold recover_from_log.
  eapply performs_seq; [apply (read_head_performs L dirty mem s Hs); try done; unfold LOGBLOCKS, MAXOPBLOCKS in Hst; lia |].
  intros [] s1 (bl & Hs1 & Hbl' & Hlk). cbv beta.
  destruct (loaded_ok L mem bl Hst Hwf Hbl' Hlk) as [Hok Hw]. cbv zeta in Hok, Hw.
  set (L1 := loaded L (mem (l_start L)) bl) in *.
  unfold recover_writes. rewrite after_app. eapply performs_bind.
  { unfold install_trans. apply performs_get. fold get_log. rewrite (bstate_log _ _ _ _ _ _ Hs1), <- Hw.
    apply (install_performs true L1 (Z.to_nat (lh_n L1)) 0 mem dirty s1); done. }
  intros [] s2 (dirty' & Hs2). cbv beta. apply performs_upd; [done |]. rewrite Hw in Hs2.
  set (mem2 := after (rec_writes (l_start L) mem) mem) in *.
  assert (mem2 (l_start L) = mem (l_start L)) as Hm2.
  { apply after_notin, rec_writes_out; [done |]. unfold in_log, LOGBLOCKS, MAXOPBLOCKS. lia. }
  rewrite <- Hm2. change (put32 (mem2 (l_start L)) 0 0) with (header (emptied L1) (mem2 (l_start (emptied L1)))).
  eapply performs_mono; [apply (write_head_performs (emptied L1) ∅ dirty' mem2) |].
  - exact (bstate_set_log (fun l => l <| lh_n := 0 |>) _ _ _ _ _ _ Hs2).
  - by apply emptied_ok.
  - exact Hdev.
  - set_solver.
  - rewrite size_empty. unfold NBUF. lia.
  - intros [] s' Hs'. exists (emptied L1), dirty'. split; [exact Hs' |]. split; [done |].
    split; [by apply emptied_ok | done].
Qed.

(** ** [log_write] *)

(** The log after block [n] is logged. *)
Definition log_add (n : Z) (L : log) : log :=
  if decide (n ∈ homes L) then L
  else L <| lh_block ::= <[Z.to_nat (lh_n L) := n]> |> <| lh_n ::= fun k => k + 1 |>.

Lemma log_add_homes n L : log_ok L -> lh_n L < LOGBLOCKS ->
  homes (log_add n L) = if decide (n ∈ homes L) then homes L else homes L ++ [n].
Proof.
  intros Hok Hn. unfold log_add. case_decide; [done |]. unfold homes. cbn. pose proof (lo_n L Hok).
  replace (Z.to_nat (lh_n L + 1)) with (S (Z.to_nat (lh_n L))) by lia.
  rewrite (take_S_r _ _ n); [by rewrite take_insert_ge by lia |]. apply list_lookup_insert_eq.
  rewrite (lo_len L Hok). unfold LOGBLOCKS, MAXOPBLOCKS in *. lia.
Qed.
Lemma log_add_ok n L : log_ok L -> lh_n L < LOGBLOCKS -> 0 <= n < 2 ^ 31 -> ~ log_area L n -> log_ok (log_add n L).
Proof.
  intros Hok Hn Hr Ha. pose proof (log_add_homes n L Hok Hn) as Hh. unfold log_add in *. case_decide; [done |].
  pose proof Hok as [Hs Hl Hlen Hho].
  split; cbn; [done | unfold LOGBLOCKS, MAXOPBLOCKS in *; lia | by rewrite length_insert |].
  intros j Hj. destruct (decide (j = Z.to_nat (lh_n L))) as [-> | Hne].
  - unfold home. cbn. rewrite list_lookup_insert_eq by (rewrite Hlen; unfold LOGBLOCKS, MAXOPBLOCKS in *; lia). done.
  - unfold home. cbn. rewrite list_lookup_insert_ne by done. apply Hho. lia.
Qed.

Lemma log_write_finds L n : log_ok L -> 0 <= n < 2 ^ 31 ->
  let i := find_block (lh_block L) (Z.to_nat (lh_n L)) n in
  (i <= Z.to_nat (lh_n L))%nat /\ (i = Z.to_nat (lh_n L) <-> n ∉ homes L) /\
  (n ∈ homes L -> logged i n L = L).
Proof.
  intros Hok Hn i. pose proof (lo_n L Hok) as Hl. pose proof (lo_len L Hok) as Hlen. unfold LOGBLOCKS, MAXOPBLOCKS in Hl.
  destruct (find_block_spec (lh_block L) (Z.to_nat (lh_n L)) n) as [Hi Hc]; [lia |]. fold i in Hi, Hc.
  split; [done |]. case_decide as Hlt.
  - destruct (lh_block L !! i) as [y |] eqn:Hy; [| done]. injection Hc as Hc.
    assert (y = n) as ->.
    { destruct (lo_home L Hok i Hlt) as [Hr _]. unfold home in Hr. rewrite Hy in Hr. cbn in Hr.
      rewrite u32_small in Hc by lia. done. }
    assert (n ∈ homes L) as Hin.
    { apply list_elem_of_lookup. exists i. unfold homes. by rewrite lookup_take_lt. }
    split; [split; [lia | done] |]. intros _. unfold logged. destruct L as [a b c d e f]. cbn in *. unfold upd. cbn.
    by rewrite list_insert_id.
  - assert (n ∉ homes L) as Hout.
    { intros Hin. rewrite Forall_forall in Hc. apply (Hc n Hin). apply u32_small. lia. }
    split; [split; [done | lia] | done].
Qed.

Lemma bstate_sync L P own dirty mem s : bstate L P own dirty mem s -> bstate L P own dirty mem (sync s).
Proof. intros (Hm & Hrest). split; [by apply machine_sync | exact Hrest]. Qed.

Lemma log_write_keeps L own dirty mem b n s :
  bstate L (list_to_set (homes L)) own dirty mem s -> (b, n) ∈ own -> log_ok L -> lh_n L < LOGBLOCKS ->
  1 <= l_outstanding L -> 0 <= n < 2 ^ 31 ->
  performs (log_write b) [] (fun _ s' => bstate (log_add n L) (list_to_set (homes (log_add n L))) own dirty mem s' /\
    fs_rest s' = fs_rest s) s.
Proof.
  intros (Hm & HL & (l & Hlru & Hl) & Hsl & Hca) Hin Hok Hn Ho Hr.
  pose proof Hm as (c & pr & Hrun & Hnf & Hpr & Hpid & Hpf & Hlk & Hu). pose proof Hrun as (Hc & _).
  destruct (ca_own _ _ _ _ _ _ _ Hca b n Hin) as (x & Hb & Hx & Hd & Hbn & Hv).
  assert (b ∈ own.*1) as Hbo by (apply list_elem_of_fmap; by exists (b, n)).
  destruct (log_write_finds L n Hok Hr) as (Hi & Hiff & Hsame).
  pose proof (lo_n L Hok) as Hn0. rewrite log_add_homes by done.
  assert (lock_free s LkLog) as HlL by (apply (quiet_lock s _ Hlk), elem_of_app; left; right; by left).
  assert (lock_free s LkBcache) as HlB by (apply (quiet_lock s _ Hlk), elem_of_app; left; by left).
  eapply performs_ret.
  - intros e. apply (log_write_eq s e c b x); rewrite ?HL, ?Hbn; try done; lia.
  - case_decide; done.
  - split; [| case_decide; done]. rewrite HL, Hbn. unfold log_add. case_decide as Hin'.
    + rewrite decide_False by (by intros ?%Hiff).
      rewrite <- (Hsame Hin') at 1. apply (bstate_set_log (logged _ n)), bstate_sync. split; [done |].
      split; [done |]. split; [by exists l |]. done.
    + rewrite decide_True by (by apply Hiff). rewrite (proj2 Hiff Hin').
      split; [exact (machine_sync p pid s Hm) |].
      split; [cbn; by rewrite HL |]. split; [exists l; split; [by apply lru_payload | done] |]. split; [exact Hsl |].
      change (cached dev (alter (fun x => x <| b_refcnt := u32 (b_refcnt x + 1) |>) b (k_bufs s)) (k_disk s)
        (list_to_set (homes L ++ [n])) own dirty mem).
      assert (b_refcnt x = 1) as Hrx.
      { rewrite (ca_ref _ _ _ _ _ _ _ Hca b x) by done. unfold refs. rewrite decide_False, decide_True; [done | done |].
        rewrite Hbn, elem_of_list_to_set. tauto. }
      rewrite (alter_count (fun r => u32 (r + 1)) b x _ 2) by (done || by rewrite Hrx).
      eapply cached_count; try done.
      * intros i z Hi' Hne Hz. apply (refs_pin dev (k_bufs s) (k_disk s) _ _ own dirty mem b n); try done.
        intros m Hmn. rewrite !elem_of_list_to_set. set_solver.
      * unfold refs. rewrite !decide_True; [done | done |]. rewrite Hbn, elem_of_list_to_set. set_solver.
      * intros m. rewrite !elem_of_list_to_set, elem_of_app, list_elem_of_singleton. naive_solver.
      * by apply (ca_nodup _ _ _ _ _ _ _ Hca).
      * intros m Hmd. destruct (ca_dirty _ _ _ _ _ _ _ Hca m Hmd) as [HmP | ?]; [left | by right].
        rewrite elem_of_list_to_set in *. set_solver.
Qed.
Lemma log_write_performs L own dirty mem b n s :
  bstate L (list_to_set (homes L)) own dirty mem s -> (b, n) ∈ own -> log_ok L -> lh_n L < LOGBLOCKS ->
  1 <= l_outstanding L -> 0 <= n < 2 ^ 31 ->
  performs (log_write b) [] (fun _ s' => bstate (log_add n L) (list_to_set (homes (log_add n L))) own dirty mem s') s.
Proof.
  intros Hs Hin Hok Hn Ho Hr. eapply performs_mono; [by apply log_write_keeps | by intros u s' [? _]].
Qed.

(** ** [begin_op] and [end_op] *)
Lemma performs_to {A} (m m' : K A) W Q s s1 :
  (forall e, m (mkworld s e) = m' (mkworld s1 e)) -> k_disk s1 = k_disk s -> performs m' W Q s1 -> performs m W Q s.
Proof. intros Hm Hd Hp e. rewrite Hm. specialize (Hp e). by rewrite Hd in Hp. Qed.

Lemma quiet_log s : Forall (lock_free s) quiet_locks -> lock_free s LkLog.
Proof. intros Hlk. apply (quiet_lock s _ Hlk), elem_of_app. left. right. by left. Qed.

Lemma begin_op_keeps L P own dirty mem s :
  bstate L P own dirty mem s -> l_committing L = 0 -> 0 <= l_outstanding L ->
  lh_n L + (l_outstanding L + 1) * MAXOPBLOCKS <= LOGBLOCKS -> 0 <= lh_n L ->
  performs begin_op [] (fun _ s' => bstate (L <| l_outstanding ::= fun k => k + 1 |>) P own dirty mem s' /\ fs_rest s' = fs_rest s) s.
Proof.
  intros Hs Hc0 Ho Hroom Hn. pose proof Hs as ((c & pr & Hr & Hnf & Hpr & Hpid & Hpf & Hlk & Hu) & HL & _).
  pose proof Hr as (Hc & _). unfold LOGBLOCKS, MAXOPBLOCKS in Hroom.
  apply (performs_ret _ tt s ((sync s) <| k_log ::= fun l => l <| l_outstanding ::= fun k => k + 1 |> |>)); [| done |].
  - intros e. unfold begin_op. kcall (acquire_eq s e c LkLog); [by apply lock_free_of, quiet_log |].
    cbn [begin_op_loop w_env]. unfold get_log. krun. change (k_log (lock_taken LkLog s)) with (k_log s).
    rewrite HL, Hc0. cbn [istrue Z.eqb negb]. unfold LOGBLOCKS, MAXOPBLOCKS.
    rewrite (proj2 (Z.ltb_ge _ _)) by lia. unfold upd_log. rewrite bind_put.
    rewrite (release_section s _ e c LkLog); try done; [| by apply quiet_log]. apply ret_world.
    assert (s32 (l_outstanding L + 1) = l_outstanding L + 1) as Hs32 by (apply s32_small; lia).
    upd_eq. by rewrite HL, Hs32.
  - split; [| done]. by apply (bstate_set_log (fun l => l <| l_outstanding ::= fun k => k + 1 |>)), bstate_sync.
Qed.
Lemma begin_op_performs L P own dirty mem s :
  bstate L P own dirty mem s -> l_committing L = 0 -> 0 <= l_outstanding L ->
  lh_n L + (l_outstanding L + 1) * MAXOPBLOCKS <= LOGBLOCKS -> 0 <= lh_n L ->
  performs begin_op [] (fun _ s' => bstate (L <| l_outstanding ::= fun k => k + 1 |>) P own dirty mem s') s.
Proof. intros. eapply performs_mono; [by apply begin_op_keeps | by intros u s' [? _]]. Qed.

Definition committing (L : log) : log := L <| l_outstanding := 0 |> <| l_committing := 1 |>.
Definition committed (L : log) : log := (emptied L) <| l_outstanding := 0 |> <| l_committing := 0 |>.

Lemma end_op_start L P own dirty mem s :
  bstate L P own dirty mem s -> l_committing L = 0 -> l_outstanding L = 1 ->
  forall e, end_op (mkworld s e) =
    (commit ;;; acquire LkLog ;;; upd_log (fun l => l <| l_committing := 0 |>) ;;; wakeup ChLog ;;; release LkLog)
      (mkworld ((sync s) <| k_log := committing L |>) e).
Proof.
  intros ((c & pr & Hr & Hnf & Hpr & Hpid & Hpf & Hlk & Hu) & HL & _) Hc0 Ho e. pose proof Hr as (Hc & _).
  unfold end_op. kcall (acquire_eq s e c LkLog); [by apply lock_free_of, quiet_log |].
  unfold upd_log at 1. rewrite bind_put. unfold get_log. rewrite bind_get. cbv beta.
  match goal with |- context [mkworld ?s1 e] => set (s2 := s1) end.
  assert (k_log s2 = L <| l_outstanding := 0 |>) as Hs2 by (cbn; by rewrite HL, Ho). rewrite Hs2. cbn [l_committing l_outstanding].
  change (l_committing (L <| l_outstanding := 0 |>)) with (l_committing L).
  change (l_outstanding (L <| l_outstanding := 0 |>)) with 0. rewrite Hc0. cbn [istrue Z.eqb negb].
  unfold upd_log at 1. rewrite bind_assoc, bind_put, bind_ret_l.
  kcall (release_section s _ e c LkLog); [by apply quiet_log |]. apply (f_equal (fun s => _ (mkworld s e))).
  unfold s2, committing. upd_eq. by rewrite HL, Ho.
Qed.

Lemma end_op_performs L dirty mem s :
  bstate L (list_to_set (homes L)) [] dirty mem s -> log_ok L -> u32 (l_dev L) = dev ->
  NoDup (homes L) -> (Z.to_nat (lh_n L) < NBUF)%nat -> l_committing L = 0 -> l_outstanding L = 1 ->
  let W := if 0 <? lh_n L then commit_writes L mem else [] in
  performs end_op W (fun _ s' => exists dirty', bstate (committed L) ∅ [] dirty' (after W mem) s') s.
Proof.
  intros Hs Hok Hdev Hnd Hnb Hc0 Ho W.
  apply (performs_to _ _ _ _ s _ (end_op_start L _ [] dirty mem s Hs Hc0 Ho) eq_refl).
  assert (Hs1 : bstate (committing L) (list_to_set (homes L)) [] dirty mem ((sync s) <| k_log := committing L |>)).
  { apply (bstate_set_log (fun _ => committing L) L). by apply bstate_sync. }
  rewrite <- (app_nil_r W). eapply performs_bind with (Q := fun _ s' => exists dirty',
    bstate (emptied (committing L)) ∅ [] dirty' (after W mem) s').
  { unfold W. destruct (Z.ltb_spec 0 (lh_n L)) as [Hpos | Hz].
    - apply (commit_performs (committing L) dirty mem); try done. by destruct Hok; split.
    - unfold commit. apply performs_get. fold get_log.
      change (lh_n (k_log _)) with (lh_n L). rewrite (proj2 (Z.ltb_ge _ _)) by lia.
      apply (performs_ret _ tt _ _ _ (fun e => eq_refl)); [done |]. exists dirty.
      assert (lh_n L = 0) as Hn0 by (pose proof (lo_n L Hok); lia).
      assert (homes L = []) as Hh by (unfold homes; by rewrite Hn0). rewrite Hh in Hs1.
      assert (emptied (committing L) = committing L) as ->; [| exact Hs1].
      unfold emptied, committing. destruct L; cbn in *. by subst. }
  intros [] s2 (dirty' & Hs2). cbv beta. pose proof Hs2 as ((c & pr & Hr & Hnf & Hpr & Hpid & Hpf & Hlk & Hu) & HL & _).
  pose proof Hr as (Hc & Hcp & _). eapply performs_ret.
  - intros e. kcall (acquire_eq s2 e c LkLog); [by apply lock_free_of, quiet_log |]. unfold upd_log. rewrite bind_put.
    rewrite (wakeup_release s2 _ e c ChLog LkLog); try done; [lia | by rewrite Hcp | by apply quiet_log].
  - done.
  - exists dirty'. rewrite Hcp, app_nil_r.
    pose proof (bstate_set_log (fun l => l <| l_committing := 0 |>) _ _ _ _ _ _ (bstate_sync _ _ _ _ _ _ Hs2)) as (Hm & Hrest).
    split; [exact (machine_wake p pid _ ChLog Hm) | exact Hrest].
Qed.

(** ** Transactions

    What a file-system call does between [begin_op] and [end_op]: it reads blocks,
    changes them, logs them and releases them. *)
Fixpoint update_blocks (us : list (Z * list Z)) : K unit :=
  match us with
  | [] => ret tt
  | (n, d) :: r =>
      let! b := bread dev n in
      set_buf_data b d ;;;
      log_write b ;;;
      brelse b ;;;
      update_blocks r
  end.
Definition transaction (us : list (Z * list Z)) : K unit := begin_op ;;; update_blocks us ;;; end_op.

(** The updates are of blocks outside the log. *)
Definition updates_ok (start : Z) (us : list (Z * list Z)) : Prop :=
  Forall (fun u => 0 <= u.1 < 2 ^ 31 /\ ~ in_log start u.1 /\ length u.2 = 1024%nat) us.
Definition log_adds (us : list (Z * list Z)) (L : log) : log := foldl (fun L u => log_add u.1 L) L us.

Lemma log_add_frame n L : log_frame L (log_add n L) /\ lh_n (log_add n L) <= lh_n L + 1.
Proof. unfold log_add. case_decide; (split; [done | cbn; lia]). Qed.
Lemma log_add_entries n L : log_ok L -> lh_n L < LOGBLOCKS -> NoDup (homes L) ->
  NoDup (homes (log_add n L)) /\ (forall m, m ∈ homes (log_add n L) <-> m ∈ homes L \/ m = n).
Proof.
  intros Hok Hn Hnd. rewrite log_add_homes by done. case_decide as Hin; [split; [done |]; set_solver |].
  split; [| intros m; rewrite elem_of_app, list_elem_of_singleton; done].
  apply NoDup_app. split; [done |]. split; [| apply NoDup_singleton]. intros y Hy ->%list_elem_of_singleton. done.
Qed.

Lemma log_adds_facts us : forall L, log_ok L -> NoDup (homes L) -> lh_n L + Z.of_nat (length us) <= LOGBLOCKS ->
  updates_ok (l_start L) us ->
  let L' := log_adds us L in
  log_ok L' /\ log_frame L L' /\ NoDup (homes L') /\ (forall m, m ∈ homes L' <-> m ∈ homes L \/ m ∈ us.*1) /\
  lh_n L' <= lh_n L + Z.of_nat (length us).
Proof.
  induction us as [| [n d] us IH]; intros L Hok Hnd Hlen Hus.
  { cbn in *. split; [done |]. split; [done |]. split; [done |]. split; [| lia]. intros m. rewrite elem_of_nil. tauto. }
  apply Forall_cons in Hus as [(Hr & Ha & Hd) Hus]. cbn [fst snd length] in *. pose proof (lo_n L Hok) as Hn0.
  assert (lh_n L < LOGBLOCKS) as Hn by lia.
  destruct (log_add_frame n L) as [(Hf1 & Hf2 & Hf3 & Hf4) Hn']. destruct (log_add_entries n L Hok Hn Hnd) as [Hnd' Hin'].
  change (log_adds ((n, d) :: us) L) with (log_adds us (log_add n L)).
  destruct (IH (log_add n L)) as (Hok' & (G1 & G2 & G3 & G4) & Hnd2 & Hin2 & Hn2);
    [by apply log_add_ok | done | lia | by rewrite Hf1 |].
  split; [done |]. split; [repeat split; congruence |]. split; [done |]. split; [| lia].
  intros m. cbn [fmap list_fmap fst]. rewrite Hin2, Hin', elem_of_cons. tauto.
Qed.

Lemma update_performs us : forall L dirty mem s,
  bstate L (list_to_set (homes L)) [] dirty mem s -> log_ok L -> u32 (l_dev L) = dev -> NoDup (homes L) ->
  1 <= l_outstanding L -> lh_n L + Z.of_nat (length us) <= LOGBLOCKS -> updates_ok (l_start L) us ->
  performs (update_blocks us) []
    (fun _ s' => exists dirty', bstate (log_adds us L) (list_to_set (homes (log_adds us L))) [] dirty' (after us mem) s') s.
Proof.
  induction us as [| [n d] us IH]; intros L dirty mem s Hs Hok Hdev Hnd Ho Hlen Hus.
  { apply (performs_ret _ tt s s); [done | done |]. by exists dirty. }
  apply Forall_cons in Hus as [(Hr & Ha & Hd) Hus]. cbn [fst snd] in Hr, Ha, Hd. cbn [length] in Hlen.
  cbn [update_blocks]. pose proof (lo_n L Hok) as Hn0.
  assert (lh_n L < LOGBLOCKS) as Hn by lia.
  eapply performs_seq; [apply (bread_performs p pid dev L _ [] dirty mem n s Hs); [apply not_elem_of_nil | right] |].
  { rewrite size_list_to_set, homes_length by done. cbn. unfold NBUF, LOGBLOCKS, MAXOPBLOCKS in *. lia. }
  intros b s1 Hs1. cbv beta in Hs1 |- *. unfold set_buf_data.
  eapply performs_seq; [apply (store_performs p pid dev L _ _ dirty mem b n d s1 Hs1); [by left | done] |].
  intros [] s2 Hs2. cbv beta in Hs2 |- *.
  eapply performs_seq; [apply (log_write_performs L _ _ _ b n s2 Hs2); [by left | done | done | done | done] |].
  intros [] s3 Hs3. cbv beta in Hs3 |- *.
  destruct (log_add_frame n L) as [(Hf1 & Hf2 & Hf3 & Hf4) Hn']. destruct (log_add_entries n L Hok Hn Hnd) as [Hnd' Hin'].
  eapply performs_seq; [apply (brelse_performs p pid dev _ _ [] b n [] _ _ s3 Hs3); left; apply elem_of_list_to_set; rewrite Hin'; by right |].
  intros [] s4 Hs4. cbv beta in Hs4 |- *. cbn [app] in Hs4.
  eapply performs_mono; [apply (IH (log_add n L) _ _ s4 Hs4); rewrite ?Hf1, ?Hf2, ?Hf3; try done |].
  { by apply log_add_ok. } { lia. }
  done.
Qed.

(** With no block pinned or locked, the disk is up to date. *)
Lemma cached_view bufs d P own dirty dirty' mem mem' :
  (forall n, mem n = mem' n) -> (forall n, n ∈ dirty' <-> n ∈ dirty) ->
  cached dev bufs d P own dirty mem -> cached dev bufs d P own dirty' mem'.
Proof.
  intros Hm Hdi [Hl Hu Hd Hr Hp Ho Hnd Hc Hdd Hsz]. split; try done.
  - intros b x Hb Hx Hdx Hv. rewrite <- Hm. eauto.
  - intros n Hn. rewrite <- Hm. apply Hc. by rewrite <- Hdi.
  - intros n Hn. apply Hdd. by rewrite <- Hdi.
  - intros n. by rewrite <- Hm.
Qed.
Lemma bstate_clean L dirty mem s : bstate L ∅ [] dirty mem s -> bstate L ∅ [] ∅ (disk_view (k_disk s)) s.
Proof.
  intros Hs. pose proof Hs as (Hm & HL & Hlru & Hsl & Hca).
  assert (forall n, n ∉ dirty) as Hnd by (intros n Hn; by apply (bstate_room L ∅ dirty mem s) in Hn).
  split; [done |]. split; [done |]. split; [done |]. split; [done |].
  eapply cached_view; [| | exact Hca].
  - intros n. apply (ca_clean _ _ _ _ _ _ _ Hca), Hnd.
  - intros n. split; [by intros ?%not_elem_of_empty | by intros ?%Hnd].
Qed.

(** An idle log: nothing logged, no transaction open. *)
Definition idle (L : log) (s : kstate) : Prop :=
  bstate L ∅ [] ∅ (disk_view (k_disk s)) s /\ log_ok L /\ u32 (l_dev L) = dev /\
  lh_n L = 0 /\ l_outstanding L = 0 /\ l_committing L = 0.

Lemma idle_homes L : lh_n L = 0 -> homes L = [].
Proof. intros Hn. unfold homes. by rewrite Hn. Qed.

(** The writes of a transaction are those of the commit of its blocks. *)
Definition txn_log (L : log) (us : list (Z * list Z)) : log := log_adds us (L <| l_outstanding ::= fun k => k + 1 |>).
Definition txn_writes (L : log) (us : list (Z * list Z)) (v : view) : list (Z * list Z) :=
  if 0 <? lh_n (txn_log L us) then commit_writes (txn_log L us) (after us v) else [].

Lemma txn_log_facts L us s :
  idle L s -> updates_ok (l_start L) us -> Z.of_nat (length us) <= MAXOPBLOCKS ->
  let L' := txn_log L us in
  log_ok L' /\ log_frame (L <| l_outstanding ::= fun k => k + 1 |>) L' /\ NoDup (homes L') /\
  (forall m, m ∈ homes L' <-> m ∈ us.*1) /\ lh_n L' <= MAXOPBLOCKS.
Proof.
  intros (Hs & Hok & Hdev & Hn & Ho & Hc0) Hus Hlen. unfold txn_log. set (L1 := L <| l_outstanding ::= _ |>).
  assert (Hh1 : homes L1 = []) by (by apply idle_homes).
  destruct (log_adds_facts us L1) as (Hok' & Hf & Hnd & Hin & Hn'); try done.
  - by destruct Hok; split.
  - rewrite Hh1. constructor.
  - cbn. unfold LOGBLOCKS, MAXOPBLOCKS in *. lia.
  - split; [done |]. split; [done |]. split; [done |]. split; [| cbn in Hn'; lia].
    intros m. rewrite Hin, Hh1, elem_of_nil. tauto.
Qed.

Lemma transaction_performs L us s :
  idle L s -> updates_ok (l_start L) us -> Z.of_nat (length us) <= MAXOPBLOCKS ->
  let W := txn_writes L us (disk_view (k_disk s)) in
  performs (transaction us) W (fun _ s' => exists dirty',
    bstate (committed (txn_log L us)) ∅ [] dirty' (after W (after us (disk_view (k_disk s)))) s') s.
Proof.
  intros Hid Hus Hlen W. destruct (txn_log_facts L us s Hid Hus Hlen) as (Hok' & (G1 & G2 & G3 & G4) & Hnd & Hin & Hn').
  destruct Hid as (Hs & Hok & Hdev & Hn & Ho & Hc0). set (v := disk_view (k_disk s)) in *.
  unfold transaction. set (L1 := L <| l_outstanding ::= fun k => k + 1 |>) in *.
  assert (Hh1 : homes L1 = []) by (by apply idle_homes).
  eapply performs_seq; [apply (begin_op_performs L ∅ [] ∅ v s Hs); try lia; rewrite Hn, Ho; done |].
  intros [] s1 Hs1. cbv beta in Hs1 |- *. change (L <| l_outstanding ::= _ |>) with L1 in Hs1.
  eapply performs_seq.
  { apply (update_performs us L1 ∅ v s1); try done.
    - by rewrite Hh1.
    - by destruct Hok; split.
    - rewrite Hh1. constructor.
    - cbn. lia.
    - cbn. unfold LOGBLOCKS, MAXOPBLOCKS in *. lia. }
  intros [] s2 (dirty2 & Hs2). cbv beta in Hs2 |- *.
  apply (end_op_performs (log_adds us L1) dirty2 (after us v) s2 Hs2); try done.
  - exact (eq_trans (f_equal u32 G2) Hdev).
  - change (lh_n (txn_log L us)) with (lh_n (log_adds us L1)) in Hn'. unfold MAXOPBLOCKS, NBUF in *. lia.
  - exact (eq_trans G4 Hc0).
  - refine (eq_trans G3 _). cbn. lia.
Qed.
End commit.
