(* ===== verification/Recovery.v ===== *)
(** * Crash safety of the file system's log ([kernel/log.c] on [kernel/bio.c])

    A power failure in the middle of a transaction, any number of failures while
    the kernel boots and recovers, and a boot that succeeds: the disk then holds all
    of the transaction or none of it. *)
From S2P Require Import Prelude Kstate Bytes Spinlock Mem Sample Sched Sleeplock Virtio Bio Printf Disk Log Commit.
Local Open Scope Z_scope.

(** ** Recovery that is itself interrupted *)
Lemma put32_zero_n d : length d = 1024%nat -> s32 (get32 (put32 d 0 0) 0) = 0.
Proof. intros Hd. rewrite get32_put32 by lia. done. Qed.

Lemma recover_prefix start v k :
  log_wf start v ->
  let vk := after (take k (recover_writes start v)) v in
  log_wf start vk /\
  (forall m, ~ in_log start m -> recovered start vk m = recovered start v m) /\
  ((length (rec_writes start v) < k)%nat -> logged_n start vk = 0).
Proof.
  intros Hwf vk. set (R := rec_writes start v).
  assert (Hin : forall m, in_log start m -> after (take k R) v m = v m).
  { intros m Hm. apply after_notin. rewrite fmap_take. intros Hx%elem_of_take_in. by apply (rec_writes_out start v m). }
  assert (Hst : in_log start start) by (unfold in_log, LOGBLOCKS, MAXOPBLOCKS; lia).
  unfold vk, recover_writes. fold R. destruct (decide (k <= length R)%nat) as [Hk | Hk].
  - rewrite take_app_le by done. set (v1 := after (take k R) v) in *.
    assert (Hn : logged_n start v1 = logged_n start v) by (unfold logged_n; by rewrite Hin).
    split; [| split; [| lia]].
    + split; [rewrite Hn; by apply (wf_n _ _ Hwf) | | rewrite Hin by done; by apply (wf_len _ _ Hwf)].
      intros j Hj. rewrite Hn in Hj. unfold logged_home. rewrite Hin by done. by apply (wf_home _ _ Hwf).
    + intros m Hm. unfold recovered. rewrite (rec_writes_ext start v v1); [apply after_prefix | by apply Hin |].
      intros j Hj. apply Hin. pose proof (wf_n _ _ Hwf). unfold in_log. lia.
  - rewrite take_ge by (rewrite length_app; cbn; lia). rewrite after_app. cbn [after foldl fst snd].
    change (foldl _ v R) with (after R v). set (v2 := vset start _ (after R v)).
    assert (logged_n start v2 = 0) as Hz.
    { unfold logged_n, v2. rewrite vset_eq. apply put32_zero_n, (wf_len _ _ Hwf). }
    split; [apply log_wf_empty; [done |]; unfold v2; rewrite vset_eq, put32_length; rewrite (wf_len _ _ Hwf); lia |].
    split; [| done]. intros m Hm. rewrite recovered_empty by done. unfold v2. apply vset_ne. intros ->. by apply Hm.
Qed.

(** ** Blocks of the right size *)
Definition blocks_ok (d : gmap Z (list Z)) : Prop := forall n, length (disk_view d n) = 1024%nat.
Lemma blocks_ok_after W d : blocks_ok d -> Forall (fun w => length w.2 = 1024%nat) W -> blocks_ok (disk_after W d).
Proof.
  intros Hd HW n. rewrite disk_view_after. destruct (decide (n ∈ W.*1)) as [Hin | Hout].
  2:{ by rewrite after_notin. }
  revert Hin. induction W as [| [m x] W IH] using rev_ind; intros Hin; [by apply not_elem_of_nil in Hin |].
  apply Forall_app in HW as [HW Hx]. apply Forall_cons in Hx as [Hx _]. rewrite after_app, after_cons.
  change (length (vset m x (after W (disk_view d)) n) = 1024%nat).
  destruct (decide (n = m)) as [-> | Hnm]; [rewrite vset_eq; exact Hx | rewrite vset_ne by done]. apply IH; [done |]. rewrite fmap_app in Hin. set_solver.
Qed.
Lemma Forall_take_le {A} (P : A -> Prop) k l : Forall P l -> Forall P (take k l).
Proof. rewrite !Forall_forall. intros Hl x Hx%elem_of_take_in. auto. Qed.

(** The disk a run of the kernel leaves, whether it returns or loses power. *)
Definition disk_of {A} (o : outcome world A) : option (gmap Z (list Z)) :=
  match o with
  | Ret _ w | Hang w => Some (k_disk (w_k w))
  | Panic _ => None
  end.
Lemma performs_disk {A} (m : K A) W Q s e :
  performs m W Q s -> disk_of (m (mkworld s e)) = Some (disk_after (take (length e) W) (k_disk s)).
Proof.
  intros Hp. specialize (Hp e). destruct (m (mkworld s e)) as [a w | | w]; [| done |]; cbn.
  - destruct Hp as (Hlen & -> & _). by rewrite take_ge by lia.
  - by destruct Hp as (_ & ->).
Qed.

Section recovery.
Context `{DiskLaws} (p : nat) (pid : Z) (dev : Z) (sb : superblock).

(** A machine that has just booted: the buffers are empty and unlocked. *)
Definition booted (s : kstate) : Prop :=
  machine p pid s /\ length (lh_block (k_log s)) = 30%nat /\
  l_outstanding (k_log s) = 0 /\ l_committing (k_log s) = 0 /\
  (exists l, lru (k_bufs s) l /\ forall b, b ∈ l <-> (b < NBUF)%nat) /\ length (k_bufs s) = S NBUF /\
  (forall b, (b < NBUF)%nat -> slock_held s (SlBuf b) = false) /\
  (forall b x, (b < NBUF)%nat -> k_bufs s !! b = Some x -> b_valid x = 0 /\ b_refcnt x = 0 /\ b_dev x <> dev).

Lemma booted_bstate s : booted s -> blocks_ok (k_disk s) ->
  bstate p pid dev (k_log s) ∅ [] ∅ (disk_view (k_disk s)) s.
Proof.
  intros (Hm & Hbl & _ & _ & Hlru & Hlen & Hsl & Hb) Hd. split; [done |]. split; [done |]. split; [done |]. split.
  - intros b Hlt. rewrite Hsl by done. split; [symmetry; by apply bool_decide_eq_false, not_elem_of_nil | by intros ?%not_elem_of_nil].
  - split; try done.
    + intros b1 b2 x1 x2 H1 H2 Hx1 Hx2 Hd1. by destruct (Hb b1 x1 H1 Hx1) as (_ & _ & []).
    + intros b x Hlt Hx Hd1. by destruct (Hb b x Hlt Hx) as (_ & _ & []).
    + intros b x Hlt Hx. destruct (Hb b x Hlt Hx) as (_ & -> & Hdx). unfold refs.
      rewrite !decide_False; [done | apply not_elem_of_nil | tauto].
    + intros b n Hin. by apply not_elem_of_nil in Hin.
    + constructor.
Qed.

Definition log_start : Z := s32 (sb_logstart sb).
Definition sb_ok : Prop := 0 <= log_start /\ log_start + LOGBLOCKS < 2 ^ 31 /\ u32 dev = dev.

(** The machine when [initlog] has initialised its lock and the log's place. *)
Lemma initlog_start s : booted s ->
  exists s1, (forall e, initlog dev sb (mkworld s e) = recover_from_log (mkworld s1 e)) /\
    booted s1 /\ k_disk s1 = k_disk s /\ l_start (k_log s1) = log_start /\ l_dev (k_log s1) = dev.
Proof.
  intros (Hm & Hbl & Ho & Hc & Hrest).
  exists (s <| k_locks ::= <[LkLog := mkspinlock false "log" None]> |>
            <| k_log ::= fun l => l <| l_start := log_start |> |> <| k_log ::= fun l => l <| l_dev := dev |> |>).
  split.
  { intros e. unfold initlog. change (BSIZE <=? 4 + 4 * LOGBLOCKS) with false. cbv iota.
    unfold initlock, set_lock, upd_log. rewrite !bind_put. reflexivity. }
  split; [| done]. split; [| done].
  destruct Hm as (c & pr & Hr & Hnf & Hpr & Hpid & [Hpl Hpf] & Hlk & Hu). exists c, pr.
  split; [exact Hr |]. split; [done |]. split; [done |]. split; [done |]. split; [| split; [| exact Hu]].
  - split; [exact Hpl |]. intros i Hi Him. destruct (Hpf i Hi Him) as (lk & Hl & ?). exists lk. cbn.
    by rewrite lookup_insert_ne.
  - rewrite Forall_forall in Hlk |- *. intros lk Hin. destruct (decide (lk = LkLog)) as [-> | Hne].
    + eexists. cbn. by rewrite lookup_insert_eq.
    + destruct (Hlk lk Hin) as (x & Hx & ?). exists x. cbn. by rewrite lookup_insert_ne.
Qed.

Lemma initlog_performs s :
  booted s -> sb_ok -> blocks_ok (k_disk s) -> log_wf log_start (disk_view (k_disk s)) ->
  performs (initlog dev sb) (recover_writes log_start (disk_view (k_disk s)))
    (fun _ s' => exists L, idle p pid dev L s' /\ l_start L = log_start) s.
Proof.
  intros Hb (Hst & Hend & Hdev) Hd Hwf. destruct (initlog_start s Hb) as (s1 & Heq & Hb1 & Hd1 & Hs1 & Hdv).
  rewrite <- Hd1 in Hd, Hwf |- *. apply (performs_to _ _ _ _ s s1 Heq Hd1).
  set (v := disk_view (k_disk s1)) in *.
  assert (bstate p pid dev (k_log s1) ∅ [] ∅ v s1) as Hbs by (by apply booted_bstate).
  pose proof Hb1 as (_ & Hbl & Ho & Hc & _).
  intros e. pose proof (recover_performs p pid dev (k_log s1) ∅ v s1 Hbs) as Hp. rewrite Hs1, Hdv in Hp.
  specialize (Hp ltac:(done) Hdev Hbl Hwf e). destruct (recover_from_log (mkworld s1 e)) as [[] w | | w]; [| done | done].
  destruct Hp as (Hlen & Hd' & L' & dirty' & Hs' & (G1 & G2 & G3 & G4) & Hok & Hn). split; [done |]. split; [done |].
  exists L'. split; [| congruence]. split; [| rewrite G2, G3, G4, Hdv; done].
  apply (bstate_clean p pid dev L' dirty' (after (recover_writes log_start v) v) (w_k w) Hs').
Qed.

(** A sequence of boots from the disk [d]: any number that lose power while they
    recover, then one that completes and leaves the disk [d']. *)
Inductive boots : gmap Z (list Z) -> gmap Z (list Z) -> Prop :=
| boot_ok s e w :
    booted s -> initlog dev sb (mkworld s e) = Ret tt w -> boots (k_disk s) (k_disk (w_k w))
| boot_fails s e w d :
    booted s -> initlog dev sb (mkworld s e) = Hang w -> boots (k_disk (w_k w)) d -> boots (k_disk s) d.

Lemma recovered_ext start v v' m : (forall n, v' n = v n) -> recovered start v' m = recovered start v m.
Proof. intros Hv. unfold recovered. rewrite (rec_writes_ext start v v') by auto. by apply after_ext. Qed.
Lemma log_wf_ext start v v' : (forall n, v' n = v n) -> log_wf start v -> log_wf start v'.
Proof.
  intros Hv [Hn Hh Hl]. assert (logged_n start v' = logged_n start v) as He by (unfold logged_n; by rewrite Hv).
  split; rewrite ?He; [done | | by rewrite Hv]. intros j Hj. unfold logged_home in *. rewrite Hv. by apply Hh.
Qed.
Lemma recover_writes_size start d : blocks_ok d -> log_wf start (disk_view d) ->
  Forall (fun w => length w.2 = 1024%nat) (recover_writes start (disk_view d)).
Proof.
  intros Hd Hwf. apply Forall_app. split.
  - apply Forall_forall. intros w (j & -> & _)%list_elem_of_fmap. apply Hd.
  - constructor; [| constructor]. cbn. rewrite put32_length; rewrite Hd; lia.
Qed.

(** The disk after part of a recovery. *)
Lemma recovering_disk start d k :
  blocks_ok d -> log_wf start (disk_view d) ->
  let d' := disk_after (take k (recover_writes start (disk_view d))) d in
  blocks_ok d' /\ log_wf start (disk_view d') /\
  (forall m, ~ in_log start m -> recovered start (disk_view d') m = recovered start (disk_view d) m) /\
  ((length (rec_writes start (disk_view d)) < k)%nat -> logged_n start (disk_view d') = 0).
Proof.
  intros Hd Hwf d'. destruct (recover_prefix start (disk_view d) k Hwf) as (Hwf' & Hrec & Hz).
  assert (Hv : forall n, disk_view d' n = after (take k (recover_writes start (disk_view d))) (disk_view d) n)
    by (intros n; apply disk_view_after).
  split; [by apply blocks_ok_after, Forall_take_le, recover_writes_size |]. split; [by eapply log_wf_ext |]. split.
  - intros m Hm. rewrite (recovered_ext start _ _ m Hv). by apply Hrec.
  - intros Hk. unfold logged_n in *. rewrite Hv. by apply Hz.
Qed.

Lemma boots_recover d d' :
  sb_ok -> boots d d' -> blocks_ok d -> log_wf log_start (disk_view d) ->
  forall m, ~ in_log log_start m -> disk_view d' m = recovered log_start (disk_view d) m.
Proof.
  intros Hsb Hboots.
  induction Hboots as [s e w Hb Heq | s e w d Hb Heq Hboots IH]; intros Hd Hwf m Hm;
    pose proof (initlog_performs s Hb Hsb Hd Hwf e) as Hp; rewrite Heq in Hp.
  - destruct Hp as (Hlen & Hd' & _).
    destruct (recovering_disk log_start (k_disk s) (length (recover_writes log_start (disk_view (k_disk s)))) Hd Hwf)
      as (_ & _ & Hrec & Hz). rewrite firstn_all, <- Hd' in Hrec, Hz.
    rewrite <- Hrec by done. symmetry. apply recovered_empty, Hz. unfold recover_writes. rewrite length_app. cbn. lia.
  - destruct Hp as (Hlen & Hd'). destruct (recovering_disk log_start (k_disk s) (length e) Hd Hwf) as (Hd1 & Hwf1 & Hrec & _).
    rewrite <- Hd' in Hd1, Hwf1, Hrec. rewrite <- Hrec by done. by apply IH.
Qed.

(** ** The writes of a transaction *)
Lemma commit_writes_size L mem : log_ok L -> (forall n, length (mem n) = 1024%nat) ->
  Forall (fun w => length w.2 = 1024%nat) (commit_writes L mem).
Proof.
  intros Hok Hm. unfold commit_writes. pose proof (lo_n L Hok) as Hn.
  assert (length (header L (mem (l_start L))) = 1024%nat) as Hh by (by apply header_length).
  rewrite !Forall_app. repeat split.
  - apply Forall_forall. intros w (j & -> & _)%list_elem_of_fmap. apply Hm.
  - by constructor.
  - apply Forall_forall. intros w (j & -> & _)%list_elem_of_fmap. apply Hm.
  - constructor; [| constructor]. cbn. apply header_length; [| done]. by apply (lo_n _ (emptied_ok L Hok)).
Qed.

(** What [end_op] writes when the transaction was the only one: the commit of the
    logged blocks, if there are any. *)
Definition end_writes (L : log) (mem : view) : list (Z * list Z) := if 0 <? lh_n L then commit_writes L mem else [].

(** The disk [d] when a commit has performed [k] writes: recovery gives the old
    contents up to the commit point and the new ones after it. *)
Lemma commit_disk L mem d k :
  log_ok L -> blocks_ok d -> (forall n, length (mem n) = 1024%nat) -> logged_n (l_start L) (disk_view d) = 0 ->
  (forall m, m ∉ homes L -> disk_view d m = mem m) ->
  let d' := disk_after (take k (end_writes L mem)) d in
  blocks_ok d' /\ log_wf (l_start L) (disk_view d') /\
  forall m, ~ in_log (l_start L) m ->
    recovered (l_start L) (disk_view d') m = if decide (k <= Z.to_nat (lh_n L))%nat then disk_view d m else mem m.
Proof.
  intros Hok Hbl Hmem Hn Hclean d'.
  assert (Hv : forall n, disk_view d' n = after (take k (end_writes L mem)) (disk_view d) n) by (intros n; apply disk_view_after).
  unfold end_writes in Hv. destruct (Z.ltb_spec 0 (lh_n L)) as [Hpos | Hz].
  - destruct (commit_prefix L mem (disk_view d) k Hok) as (Hwf & Hrec); [done | apply Hbl | done | auto |].
    split; [| split; [by eapply log_wf_ext |]].
    + apply blocks_ok_after; [done |]. apply Forall_take_le. unfold end_writes.
      rewrite (proj2 (Z.ltb_lt _ _) Hpos). by apply commit_writes_size.
    + intros m Hm. rewrite (recovered_ext _ _ _ m Hv). by apply Hrec.
  - rewrite take_nil in Hv. cbn in Hv. split; [intros n; rewrite Hv; apply Hbl |]. split.
    + eapply log_wf_ext; [exact Hv |]. apply log_wf_empty; [done | apply Hbl].
    + intros m Hm. rewrite (recovered_ext _ _ _ m Hv), recovered_empty by done. destruct (decide _); [done |].
      apply Hclean. rewrite idle_homes by (pose proof (lo_n L Hok); lia). apply not_elem_of_nil.
Qed.

Lemma transaction_disk L us s k :
  idle p pid dev L s -> updates_ok (l_start L) us -> Z.of_nat (length us) <= MAXOPBLOCKS ->
  logged_n (l_start L) (disk_view (k_disk s)) = 0 ->
  let v := disk_view (k_disk s) in
  let d := disk_after (take k (txn_writes L us v)) (k_disk s) in
  blocks_ok d /\ log_wf (l_start L) (disk_view d) /\
  forall m, ~ in_log (l_start L) m ->
    recovered (l_start L) (disk_view d) m =
      if decide (k <= size (list_to_set us.*1 : gset Z))%nat then v m else after us v m.
Proof.
  intros Hid Hus Hlen Hn v d. destruct (txn_log_facts p pid dev L us s Hid Hus Hlen) as (Hok & (G1 & _) & Hnd & Hin & Hmax).
  set (L' := txn_log L us) in *. change (l_start L' = l_start L) in G1.
  assert (Hbl : blocks_ok (k_disk s)).
  { destruct Hid as ((_ & _ & _ & _ & Hca) & _). exact (ca_size _ _ _ _ _ _ _ Hca). }
  assert (Hblu : forall n, length (after us v n) = 1024%nat).
  { intros n. unfold v. rewrite <- disk_view_after. apply blocks_ok_after; [done |]. eapply Forall_impl; [exact Hus | by intros ? (_ & _ & ?)]. }
  assert (Hsize : size (list_to_set us.*1 : gset Z) = Z.to_nat (lh_n L')).
  { rewrite <- homes_length by done. rewrite <- (size_list_to_set (C := gset Z) (homes L')) by done.
    f_equal. apply set_eq. intros m. by rewrite !elem_of_list_to_set, Hin. }
  rewrite Hsize, <- G1 in *. apply commit_disk; try done.
  intros m Hm. symmetry. apply after_notin. by rewrite <- Hin.
Qed.

(** ** Properties *)

(** C2: A transaction is atomic and durable across power failures.  From an idle log,
    run the transaction (begin, log the new contents of at most [MAXOPBLOCKS] blocks,
    end) on a machine that loses power after an arbitrary number of disk writes; it
    never panics.  Boot as many times as it takes, each boot possibly losing power
    during recovery: once a boot completes, every block outside the log has its old
    contents, or every block has its new contents.  The new contents are there exactly
    if the power lasted past the commit point, the write that follows those of the
    distinct logged blocks. *)
Theorem transaction_atomic L us s e :
  idle p pid dev L s -> sb_ok -> l_start L = log_start -> updates_ok log_start us ->
  Z.of_nat (length us) <= MAXOPBLOCKS -> logged_n log_start (disk_view (k_disk s)) = 0 ->
  exists d, disk_of (transaction dev us (mkworld s e)) = Some d /\ blocks_ok d /\ log_wf log_start (disk_view d) /\
    forall d', boots d d' -> forall m, ~ in_log log_start m ->
      disk_view d' m = if decide (length e <= size (list_to_set us.*1 : gset Z))%nat
                       then disk_view (k_disk s) m else after us (disk_view (k_disk s)) m.
Proof.
  intros Hid Hsb Hst Hus Hlen Hn. rewrite <- Hst in Hus, Hn.
  destruct (transaction_disk L us s (length e) Hid Hus Hlen Hn) as (Hbl & Hwf & Hrec). rewrite Hst in Hwf, Hrec.
  eexists. split; [apply (performs_disk _ _ _ s e (transaction_performs p pid dev L us s Hid Hus Hlen)) |].
  split; [done |]. split; [done |]. intros d' Hboots m Hm. rewrite <- Hrec by done. by apply boots_recover.
Qed.

(** C4: Recovery installs a committed transaction exactly and can be interrupted
    anywhere.  On a disk with a well-formed log, [initlog] on a freshly booted machine
    never panics; with power for all its writes it returns with an idle log, an empty
    header on disk, and every block outside the log as the log says; with less power
    it stops at a disk whose log is well formed and recovers to the same contents. *)
Theorem initlog_recovers s e :
  booted s -> sb_ok -> blocks_ok (k_disk s) -> log_wf log_start (disk_view (k_disk s)) ->
  let v := disk_view (k_disk s) in
  match initlog dev sb (mkworld s e) with
  | Ret _ w =>
      (exists L, idle p pid dev L (w_k w) /\ l_start L = log_start) /\
      logged_n log_start (disk_view (k_disk (w_k w))) = 0 /\
      forall m, ~ in_log log_start m -> disk_view (k_disk (w_k w)) m = recovered log_start v m
  | Hang w =>
      (length e <= Z.to_nat (logged_n log_start v))%nat /\ blocks_ok (k_disk (w_k w)) /\
      log_wf log_start (disk_view (k_disk (w_k w))) /\
      forall m, ~ in_log log_start m -> recovered log_start (disk_view (k_disk (w_k w))) m = recovered log_start v m
  | Panic _ => False
  end.
Proof.
  intros Hb Hsb Hd Hwf v. pose proof (initlog_performs s Hb Hsb Hd Hwf e) as Hp. fold v in Hp.
  assert (length (rec_writes log_start v) = Z.to_nat (logged_n log_start v)) as Hlr
    by (unfold rec_writes; by rewrite length_fmap, length_seq).
  assert (length (recover_writes log_start v) = S (Z.to_nat (logged_n log_start v))) as Hlw
    by (unfold recover_writes; rewrite length_app, Hlr; cbn; lia).
  destruct (initlog dev sb (mkworld s e)) as [[] w | | w] eqn:Heq; [| done |].
  - destruct Hp as (Hlen & Hd' & HL). split; [done |].
    destruct (recovering_disk log_start (k_disk s) (length (recover_writes log_start v)) Hd Hwf) as (_ & _ & Hrec & Hz).
    fold v in Hrec, Hz. rewrite firstn_all, <- Hd' in Hrec, Hz. assert (logged_n log_start (disk_view (k_disk (w_k w))) = 0) as Hz'
      by (apply Hz; lia).
    split; [done |]. intros m Hm. rewrite <- Hrec by done. symmetry. by apply recovered_empty.
  - destruct Hp as (Hlen & Hd'). split; [lia |]. rewrite Hd'.
    destruct (recovering_disk log_start (k_disk s) (length e) Hd Hwf) as (Hd1 & Hwf1 & Hrec & _). done.
Qed.

(** ** A full log *)

(** With [NBUF] blocks pinned, every buffer caches a pinned block. *)
Lemma full_cache bufs d P dirty mem :
  cached dev bufs d P [] dirty mem -> size P = NBUF ->
  forall b x, (b < NBUF)%nat -> bufs !! b = Some x -> b_dev x = dev /\ b_blockno x ∈ P.
Proof.
  intros Hca Hsz. set (at_buf := fun n => default 0%nat (find_buf (hit dev n) bufs (seq 0 NBUF))).
  assert (Hof : forall n, n ∈ P -> exists x, (at_buf n < NBUF)%nat /\ bufs !! at_buf n = Some x /\ b_dev x = dev /\ b_blockno x = n).
  { intros n Hn. destruct (ca_pin _ _ _ _ _ _ _ Hca n Hn) as (b & x & Hb & Hx & Hd & Hbn & _). unfold at_buf.
    destruct (find_buf (hit dev n) bufs (seq 0 NBUF)) as [b' |] eqn:Hf.
    - destruct (find_buf_true _ _ _ _ Hf) as (y & Hy & [Hyd%Z.eqb_eq Hyn%Z.eqb_eq]%andb_true_iff).
      apply find_buf_in, elem_of_seq in Hf. exists y. cbn. split; [lia | done].
    - exfalso. assert (b ∈ seq 0 NBUF) as Hbs by (apply elem_of_seq; lia).
      pose proof (find_buf_none _ _ _ _ _ Hf Hbs Hx) as Hhit. unfold hit in Hhit.
      by rewrite Hd, Hbn, !Z.eqb_refl in Hhit. }
  assert (NoDup (at_buf <$> elements P)) as Hnd.
  { apply NoDup_fmap_2_strong; [| apply NoDup_elements]. intros n1 n2 H1%elem_of_elements H2%elem_of_elements Heq.
    destruct (Hof n1 H1) as (x1 & _ & Hx1 & _ & <-), (Hof n2 H2) as (x2 & _ & Hx2 & _ & <-).
    rewrite Heq, Hx2 in Hx1. congruence. }
  assert (seq 0 NBUF ⊆+ at_buf <$> elements P) as Hsub.
  { assert (at_buf <$> elements P ⊆+ seq 0 NBUF) as Hle.
    { apply NoDup_submseteq; [done |]. intros b (n & -> & Hn%elem_of_elements)%list_elem_of_fmap.
      destruct (Hof n Hn) as (_ & Hb & _). apply elem_of_seq. lia. }
    apply submseteq_length_Permutation in Hle; [by rewrite Hle |].
    rewrite length_seq, length_fmap. change (length (elements P)) with (size P). lia. }
  intros b x Hb Hx. assert (b ∈ at_buf <$> elements P) as Hin.
  { eapply elem_of_submseteq; [| exact Hsub]. apply elem_of_seq. lia. }
  apply list_elem_of_fmap in Hin as (n & -> & Hn%elem_of_elements).
  destruct (Hof n Hn) as (y & _ & Hy & Hd & Hbn). assert (y = x) as -> by congruence. split; [done |]. by rewrite Hbn.
Qed.

Lemma full_bread_panics L P dirty mem s n e :
  bstate p pid dev L P [] dirty mem s -> size P = NBUF -> n ∉ P -> bread dev n (mkworld s e) = Panic "bget: no buffers".
Proof.
  intros (Hm & HL & (l & Hlru & Hl) & Hsl & Hca) Hsz Hn.
  pose proof Hm as (c & pr & Hr & Hnf & Hpr & Hpid & Hpf & Hlk & Hu).
  pose proof (bget_eq s e c p pr l dev n Hr Hnf Hpr
    (quiet_lock s LkBcache Hlk ltac:(apply elem_of_app; left; by left)) (ca_len _ _ _ _ _ _ _ Hca) Hlru) as Hg.
  pose proof (full_cache _ _ _ _ _ Hca Hsz) as Hfull.
  assert (Hnone : bget_choice (k_bufs s) l dev n = None).
  { unfold bget_choice. destruct (find_buf (hit dev n) (k_bufs s) l) as [b |] eqn:Hf.
    - exfalso. destruct (find_buf_true _ _ _ _ Hf) as (x & Hx & [_ Hxn%Z.eqb_eq]%andb_true_iff).
      apply find_buf_in, Hl in Hf. destruct (Hfull b x Hf Hx) as [_ HP]. congruence.
    - destruct (find_buf unused (k_bufs s) (rev l)) as [b |] eqn:Hu'; [| done]. exfalso.
      destruct (find_buf_true _ _ _ _ Hu') as (x & Hx & Hrx%Z.eqb_eq). apply find_buf_in in Hu'.
      rewrite list_elem_of_In, <- in_rev, <- list_elem_of_In in Hu'. apply Hl in Hu'.
      rewrite (ca_ref _ _ _ _ _ _ _ Hca b x) in Hrx by done. unfold refs in Hrx.
      rewrite decide_True in Hrx by (by apply (Hfull b x)). case_decide; lia. }
  rewrite Hnone in Hg. unfold bread, bind. by rewrite Hg.
Qed.

(** C38: A full log cannot be committed.  [NBUF] and [LOGBLOCKS] are equal, so a
    group of transactions that logs [LOGBLOCKS] distinct blocks, which [begin_op] admits,
    pins every buffer of the cache: [commit] then finds no buffer for the first block
    of the log and panics. *)
Theorem full_log_panics L us s e :
  bstate p pid dev L ∅ [] ∅ (disk_view (k_disk s)) s -> log_ok L -> u32 (l_dev L) = dev ->
  lh_n L = 0 -> 1 <= l_outstanding L -> updates_ok (l_start L) us ->
  NoDup us.*1 -> Z.of_nat (length us) = LOGBLOCKS ->
  (update_blocks dev us ;;; commit) (mkworld s e) = Panic "bget: no buffers".
Proof.
  intros Hs Hok Hdev Hn Ho Hus Hnd Hlen. assert (Hh : homes L = []) by (by apply idle_homes).
  assert (NoDup (homes L)) as Hnd0 by (rewrite Hh; constructor).
  destruct (log_adds_facts us L Hok Hnd0 ltac:(lia) Hus) as (Hok' & (G1 & G2 & _) & Hnd' & Hin & _).
  set (L' := log_adds us L) in *.
  assert (length (homes L') = length us) as Hll.
  { rewrite <- (length_fmap fst us). apply Permutation_length, NoDup_Permutation; [done | done |].
    intros m. rewrite Hin, Hh, elem_of_nil. tauto. }
  assert (lh_n L' = LOGBLOCKS) as Hn' by (rewrite homes_length in Hll by done; pose proof (lo_n L' Hok'); lia).
  rewrite <- (list_to_set_nil (C := gset Z)) in Hs at 1. rewrite <- Hh in Hs.
  pose proof (update_performs p pid dev us L ∅ _ s Hs Hok Hdev Hnd0 Ho ltac:(lia) Hus e) as Hp. fold L' in Hp.
  unfold bind. destruct (update_blocks dev us (mkworld s e)) as [[] [s1 e1] | | w];
    [| done | destruct Hp as [Hp _]; cbn in Hp; lia].
  destruct Hp as (_ & _ & dirty' & Hs1). cbn [w_k] in Hs1. pose proof Hs1 as (_ & HL & _).
  assert (Hb : bread dev (slot L' 0) (mkworld s1 e1) = Panic "bget: no buffers").
  { apply (full_bread_panics L' _ _ _ s1 _ e1 Hs1).
    - rewrite size_list_to_set, Hll by done. unfold LOGBLOCKS, MAXOPBLOCKS, NBUF in *. lia.
    - intros Hx%elem_of_list_to_set. apply (homes_not_area L' _ Hok' Hx), slot_area. unfold LOGBLOCKS, MAXOPBLOCKS. lia. }
  assert (Hw : write_log (mkworld s1 e1) = Panic "bget: no buffers").
  { unfold write_log, get_log. rewrite bind_get, HL, Hn'. change (Z.to_nat LOGBLOCKS) with 30%nat.
    cbn [write_log_loop]. unfold get_log. rewrite bind_get, HL, Hn'. change (LOGBLOCKS <=? 0) with false. cbv iota.
    change (l_start L' + 0 + 1) with (l_start L' + Z.of_nat 0 + 1).
    rewrite slot_u32 by (done || rewrite Hn'; unfold LOGBLOCKS, MAXOPBLOCKS; lia).
    rewrite G2, Hdev. unfold bind. by rewrite Hb. }
  unfold commit, get_log. rewrite bind_get, HL, Hn'. change (0 <? LOGBLOCKS) with true. cbv iota. unfold bind. by rewrite Hw.
Qed.
End recovery.

(** ** Examples *)
(** Process 3 of the example machine, on the plain disk; the log is in blocks 2 to 32. *)
Lemma sample_machine : machine 3 7 sample.
Proof.
  exists sample_cpu, sample_proc. split; [exact sample_running |]. split; [done |]. split; [done |]. split; [done |].
  split; [apply sample_procs_free |]. split; [| done].
  assert (Forall (fun lk => lock_free_b sample lk = true) quiet_locks) as Hall by (vm_compute; repeat constructor).
  eapply Forall_impl; [exact Hall | intros lk; apply lock_free_dec].
Qed.
Lemma sample_cold d : booted 3 7 1 (sample <| k_disk := d |>).
Proof.
  split; [exact sample_machine |]. split; [by vm_compute |]. split; [done |]. split; [done |].
  split; [| split; [by vm_compute | split]].
  - exists sample_order. split; [exact sample_lru |]. intros b. unfold sample_order.
    rewrite list_elem_of_In, <- in_rev, <- list_elem_of_In, elem_of_seq. lia.
  - intros b Hb.
    assert (Forall (fun b => slock_held sample (SlBuf b) = false) (seq 0 NBUF)) as Hall by (vm_compute; repeat constructor).
    rewrite Forall_forall in Hall. apply (Hall b). apply elem_of_seq. lia.
  - assert (Forall (fun x => b_valid x = 0 /\ b_refcnt x = 0 /\ b_dev x <> 1) (k_bufs sample)) as Hall
      by (vm_compute; repeat constructor; done).
    intros b x _ Hx. exact (Forall_lookup_1 _ _ _ _ Hall Hx).
Qed.
Lemma blocks_ok_empty : blocks_ok ∅.
Proof. intros n. done. Qed.

(** The log of the example machine, with [k] transactions open. *)
Definition sample_log (k : Z) : log := mklog 2 k 0 1 0 (replicate 30 0).
Lemma sample_log_ok k : log_ok (sample_log k).
Proof. split; cbn; [unfold LOGBLOCKS, MAXOPBLOCKS; lia | unfold LOGBLOCKS, MAXOPBLOCKS; lia | done | lia]. Qed.
Lemma sample_idle : idle 3 7 1 (sample_log 0) sample.
Proof.
  split; [exact (booted_bstate 3 7 1 sample (sample_cold ∅) blocks_ok_empty) |].
  split; [apply sample_log_ok | done].
Qed.
Lemma sample_sb_ok : sb_ok 1 (k_sb sample).
Proof. by vm_compute. Qed.
Definition sample_us : list (Z * list Z) := [(46, replicate 1024 7)].

(** A write of block 46 with power for three disk writes: past the commit point. *)
Lemma transaction_atomic_witness :
  exists d, disk_of (@transaction plain_disk 1 sample_us (mkworld sample [id; id; id])) = Some d /\
    blocks_ok d /\ log_wf 2 (disk_view d) /\
    forall d', @boots plain_disk 3 7 1 (k_sb sample) d d' -> forall m, ~ in_log 2 m ->
      disk_view d' m = if decide (3 <= size (list_to_set sample_us.*1 : gset Z))%nat
                       then disk_view ∅ m else after sample_us (disk_view ∅) m.
Proof.
  apply (@transaction_atomic plain_disk plain_disk_laws 3 7 1 (k_sb sample) (sample_log 0) sample_us sample [id; id; id]).
  - exact sample_idle.
  - exact sample_sb_ok.
  - by vm_compute.
  - repeat constructor; cbn; unfold in_log, log_start; vm_compute; intuition discriminate.
  - by vm_compute.
  - by vm_compute.
Defined.

(** The power failed right after the commit point of that transaction. *)
Definition sample_committed : gmap Z (list Z) :=
  <[2 := put32 (put32 zero_block 0 1) 4 46]> (<[3 := replicate 1024 7]> ∅).
Lemma sample_committed_ok : blocks_ok sample_committed.
Proof.
  intros n. unfold sample_committed. rewrite disk_view_insert. unfold vset. case_decide; [by vm_compute |].
  rewrite disk_view_insert. unfold vset. by case_decide.
Qed.
Lemma sample_committed_wf : log_wf 2 (disk_view sample_committed).
Proof.
  assert (logged_n 2 (disk_view sample_committed) = 1) as Hn by (by vm_compute).
  split; rewrite ?Hn; [by vm_compute | | by vm_compute].
  intros j Hj. change (Z.to_nat 1) with 1%nat in Hj. assert (j = 0%nat) as -> by lia.
  assert (logged_home 2 (disk_view sample_committed) 0 = 46) as -> by (by vm_compute).
  unfold in_log, LOGBLOCKS, MAXOPBLOCKS. lia.
Qed.

Lemma initlog_recovers_witness :
  let s := sample <| k_disk := sample_committed |> in
  let v := disk_view sample_committed in
  match @initlog plain_disk 1 (k_sb sample) (mkworld s [id; id]) with
  | Ret _ w =>
      (exists L, idle 3 7 1 L (w_k w) /\ l_start L = 2) /\ logged_n 2 (disk_view (k_disk (w_k w))) = 0 /\
      forall m, ~ in_log 2 m -> disk_view (k_disk (w_k w)) m = recovered 2 v m
  | Hang w =>
      (2 <= Z.to_nat (logged_n 2 v))%nat /\ blocks_ok (k_disk (w_k w)) /\ log_wf 2 (disk_view (k_disk (w_k w))) /\
      forall m, ~ in_log 2 m -> recovered 2 (disk_view (k_disk (w_k w))) m = recovered 2 v m
  | Panic _ => False
  end.
Proof.
  intros s v.
  apply (@initlog_recovers plain_disk plain_disk_laws 3 7 1 (k_sb sample) s [id; id]).
  - apply sample_cold.
  - exact sample_sb_ok.
  - exact sample_committed_ok.
  - exact sample_committed_wf.
Defined.

(** Three transactions are open and log blocks 100 to 129. *)
Definition sample_full : kstate := sample <| k_log := sample_log 3 |>.
Definition sample_many : list (Z * list Z) := (fun i => (100 + Z.of_nat i, replicate 1024 7)) <$> seq 0 30.
Lemma full_log_panics_witness :
  (@update_blocks plain_disk 1 sample_many ;;; @commit plain_disk) (mkworld sample_full []) = Panic "bget: no buffers".
Proof.
  apply (@full_log_panics plain_disk plain_disk_laws 3 7 1 (sample_log 3) sample_many sample_full []).
  - apply (bstate_set_log 3 7 1 (fun _ => sample_log 3) (k_log sample)).
    exact (booted_bstate 3 7 1 sample (sample_cold ∅) blocks_ok_empty).
  - apply sample_log_ok.
  - by vm_compute.
  - by vm_compute.
  - by vm_compute.
  - apply Forall_forall. intros u (i & -> & Hi%elem_of_seq)%list_elem_of_fmap. cbn [fst snd].
    unfold in_log, sample_log, LOGBLOCKS, MAXOPBLOCKS. cbn [l_start]. split; [lia |]. split; [lia |]. by rewrite length_replicate.
  - unfold sample_many. rewrite <- list_fmap_compose. apply NoDup_fmap_2_strong; [| apply NoDup_seq].
    intros x y _ _ Hxy. cbn in Hxy. lia.
  - by vm_compute.
Defined.
