(* ===== verification/Fs.v ===== *)
(** * The file system ([kernel/fs.c], [kernel/fs.h])

    Block allocation, inodes, inode contents, directories and path names, over
    the buffer cache and the log.  On-disk structures are byte arrays accessed
    at their field offsets; an in-memory inode is an index into the inode table. *)
From S2P Require Import Prelude Kstate Bytes CString Spinlock Sched Sleeplock Virtio Bio Printf Log Mem Kalloc Vm.
Local Open Scope Z_scope.

(** ** Constants ([kernel/fs.h], [kernel/stat.h]) *)
Definition ROOTINO : Z := 1.
Definition FSMAGIC : Z := 0x10203040.
Definition NDIRECT : nat := 12.
Definition NINDIRECT : Z := BSIZE / 4.
Definition MAXFILE : Z := Z.of_nat NDIRECT + NINDIRECT.
Definition IPB : Z := BSIZE / 64.
Definition IBLOCK (i : Z) (sb : superblock) : Z := u32 (i / IPB + sb_inodestart sb).
Definition BPB : Z := BSIZE * 8.
Definition BBLOCK (b : Z) (sb : superblock) : Z := u32 (b / BPB + sb_bmapstart sb).
Definition DIRSIZ : nat := 14.
Definition T_DIR : Z := 1.
Definition T_FILE : Z := 2.
Definition T_DEVICE : Z := 3.

(** ** On-disk structures *)
Record dinode : Type := mkdinode {
  di_type : Z;
  di_major : Z;
  di_minor : Z;
  di_nlink : Z;
  di_size : Z;
  di_addrs : list Z
}.
(** The inode at byte offset [o] of a block. *)
Definition read_dinode (d : list Z) (o : nat) : dinode :=
  mkdinode (s16 (get16 d o)) (s16 (get16 d (o + 2))) (s16 (get16 d (o + 4))) (s16 (get16 d (o + 6)))
    (get32 d (o + 8)) ((fun i => get32 d (o + 12 + 4 * i)) <$> seq 0 (S NDIRECT)).
Definition put_words (d : list Z) (o : nat) (l : list Z) : list Z :=
  patch d o (flat_map (le_put 4) l).
Definition write_dinode (d : list Z) (o : nat) (x : dinode) : list Z :=
  put_words (put32 (put16 (put16 (put16 (put16 d o (di_type x)) (o + 2) (di_major x))
    (o + 4) (di_minor x)) (o + 6) (di_nlink x)) (o + 8) (di_size x)) (o + 12) (di_addrs x).
(** The offset of inode [inum] in its block. *)
Definition dinode_off (inum : Z) : nat := Z.to_nat (inum mod IPB * 64).

Definition read_superblock (d : list Z) : superblock :=
  mksuperblock (get32 d 0) (get32 d 4) (get32 d 8) (get32 d 12) (get32 d 16) (get32 d 20)
    (get32 d 24) (get32 d 28).

Section fs.
Context `{Image} `{DiskDriver}.

(** ** Access to the inode table *)
Definition get_inode (i : nat) : K inode := get_nth k_inodes i.
Definition upd_inode (i : nat) (f : inode -> inode) : K unit :=
  put (fun s => s <| k_inodes ::= alter f i |>).

(** ** Blocks *)
Definition readsb (dev : Z) : K unit :=
  let! bp := bread dev 1 in
  let! d := buf_data bp in
  put (fun s => s <| k_sb := read_superblock d |>) ;;;
  brelse bp.

Definition bzero (dev bno : Z) : K unit :=
  let! bp := bread dev bno in
  set_buf_data bp (replicate (Z.to_nat BSIZE) 0) ;;;
  log_write bp ;;;
  brelse bp.

Definition bit_mask (bi : Z) : Z := Z.shiftl 1 (bi mod 8).
Definition bit_byte (d : list Z) (bi : Z) : Z := default 0 (d !! Z.to_nat (bi / 8)).

(** [for(bi = 0; bi < BPB && b + bi < sb.size; bi++)]: the first clear bit. *)
Fixpoint find_free_bit (fuel : nat) (d : list Z) (b bi size : Z) : option Z :=
  match fuel with
  | O => None
  | S n =>
      if (bi <? BPB) && (b + bi <? size) then
        if Z.land (bit_byte d bi) (bit_mask bi) =? 0 then Some bi
        else find_free_bit n d b (bi + 1) size
      else None
  end.
Definition set_bit (d : list Z) (bi : Z) : list Z :=
  <[Z.to_nat (bi / 8) := u8 (Z.lor (bit_byte d bi) (bit_mask bi))]> d.
Definition clear_bit (d : list Z) (bi : Z) : list Z :=
  <[Z.to_nat (bi / 8) := u8 (Z.land (bit_byte d bi) (Z.lnot (bit_mask bi)))]> d.

(** [for(b = 0; b < sb.size; b += BPB)]. *)
Fixpoint balloc_loop (fuel : nat) (dev b : Z) : K Z :=
  match fuel with
  | O => ret 0
  | S n =>
      let! sb := get k_sb in
      if b <? sb_size sb then
        let! bp := bread dev (BBLOCK b sb) in
        let! d := buf_data bp in
        match find_free_bit (Z.to_nat BPB) d b 0 (sb_size sb) with
        | Some bi =>
            set_buf_data bp (set_bit d bi) ;;;
            log_write bp ;;;
            brelse bp ;;;
            bzero dev (b + bi) ;;;
            ret (b + bi)
        | None => brelse bp ;;; balloc_loop n dev (b + BPB)
        end
      else
        printf (str "balloc: out of blocks" ++ [10]) [] ;;;
        ret 0
  end.
Definition balloc (dev : Z) : K Z :=
  let! sb := get k_sb in
  balloc_loop (Z.to_nat (sb_size sb / BPB + 2)) dev 0.

Definition bfree (dev b : Z) : K unit :=
  let! sb := get k_sb in
  let! bp := bread dev (BBLOCK b sb) in
  let bi := b mod BPB in
  let! d := buf_data bp in
  if Z.land (bit_byte d bi) (bit_mask bi) =? 0 then panic "freeing free block" else
  set_buf_data bp (clear_bit d bi) ;;;
  log_write bp ;;;
  brelse bp.

(** ** Inodes *)
Definition iinit : K unit :=
  initlock LkItable "itable" ;;;
  foreach (seq 0 NINODE) (fun i => initsleeplock (SlInode i) "inode").

(** The scan of [iget] and its end; [empty] is the first free slot seen. *)
Fixpoint iget_scan (l : list nat) (empty : option nat) (dev inum : Z) : K nat :=
  match l with
  | [] =>
      match empty with
      | None => panic "iget: no inodes"
      | Some i =>
          upd_inode i (fun ip => ip <| i_dev := dev |> <| i_inum := inum |>
                                    <| i_ref := 1 |> <| i_valid := 0 |>) ;;;
          release LkItable ;;;
          ret i
      end
  | i :: r =>
      let! ip := get_inode i in
      if (0 <? i_ref ip) && (i_dev ip =? dev) && (i_inum ip =? inum) then
        upd_inode i (fun ip => ip <| i_ref := s32 (i_ref ip + 1) |>) ;;;
        release LkItable ;;;
        ret i
      else
        iget_scan r (match empty with
                     | None => if i_ref ip =? 0 then Some i else None
                     | Some _ => empty
                     end) dev inum
  end.
Definition iget (dev inum : Z) : K nat :=
  acquire LkItable ;;;
  iget_scan (seq 0 NINODE) None dev inum.

Fixpoint ialloc_loop (fuel : nat) (dev type inum : Z) : K (option nat) :=
  match fuel with
  | O => ret None
  | S n =>
      let! sb := get k_sb in
      if inum <? sb_ninodes sb then
        let! bp := bread dev (IBLOCK inum sb) in
        let! d := buf_data bp in
        let o := dinode_off inum in
        if di_type (read_dinode d o) =? 0 then
          set_buf_data bp (put16 (patch d o (replicate 64 0)) o type) ;;;
          log_write bp ;;;
          brelse bp ;;;
          let! i := iget dev inum in
          ret (Some i)
        else brelse bp ;;; ialloc_loop n dev type (inum + 1)
      else
        printf (str "ialloc: no inodes" ++ [10]) [] ;;;
        ret None
  end.
Definition ialloc (dev type : Z) : K (option nat) :=
  let! sb := get k_sb in
  ialloc_loop (S (Z.to_nat (sb_ninodes sb))) dev type 1.

Definition dinode_of (ip : inode) : dinode :=
  mkdinode (i_type ip) (i_major ip) (i_minor ip) (i_nlink ip) (i_size ip) (i_addrs ip).

Definition iupdate (i : nat) : K unit :=
  let! ip := get_inode i in
  let! sb := get k_sb in
  let! bp := bread (i_dev ip) (IBLOCK (i_inum ip) sb) in
  let! d := buf_data bp in
  let! ip := get_inode i in
  set_buf_data bp (write_dinode d (dinode_off (i_inum ip)) (dinode_of ip)) ;;;
  log_write bp ;;;
  brelse bp.

Definition idup (i : nat) : K nat :=
  acquire LkItable ;;;
  upd_inode i (fun ip => ip <| i_ref := s32 (i_ref ip + 1) |>) ;;;
  release LkItable ;;;
  ret i.

Definition load_dinode (x : dinode) (ip : inode) : inode :=
  ip <| i_type := di_type x |> <| i_major := di_major x |> <| i_minor := di_minor x |>
     <| i_nlink := di_nlink x |> <| i_size := di_size x |> <| i_addrs := di_addrs x |>.

Definition ilock (o : option nat) : K unit :=
  match o with
  | None => panic "ilock"
  | Some i =>
      let! ip := get_inode i in
      if i_ref ip <? 1 then panic "ilock" else
      acquiresleep (SlInode i) ;;;
      let! ip := get_inode i in
      if i_valid ip =? 0 then
        let! sb := get k_sb in
        let! bp := bread (i_dev ip) (IBLOCK (i_inum ip) sb) in
        let! d := buf_data bp in
        let! ip := get_inode i in
        upd_inode i (load_dinode (read_dinode d (dinode_off (i_inum ip)))) ;;;
        brelse bp ;;;
        upd_inode i (fun ip => ip <| i_valid := 1 |>) ;;;
        let! ip := get_inode i in
        if i_type ip =? 0 then panic "ilock: no type" else ret tt
      else ret tt
  end.

Definition iunlock (o : option nat) : K unit :=
  match o with
  | None => panic "iunlock"
  | Some i =>
      let! h := holdingsleep (SlInode i) in
      if negb h then panic "iunlock" else
      let! ip := get_inode i in
      if i_ref ip <? 1 then panic "iunlock" else
      releasesleep (SlInode i)
  end.

(** The data blocks an inode lists, freed one by one. *)
Definition itrunc (i : nat) : K unit :=
  foreach (seq 0 NDIRECT) (fun k =>
    let! ip := get_inode i in
    let a := default 0 (i_addrs ip !! k) in
    if istrue a then
      bfree (i_dev ip) a ;;;
      upd_inode i (fun ip => ip <| i_addrs ::= <[k := 0]> |>)
    else ret tt) ;;;
  let! ip := get_inode i in
  let a := default 0 (i_addrs ip !! NDIRECT) in
  (if istrue a then
     let! bp := bread (i_dev ip) a in
     foreach (seq 0 (Z.to_nat NINDIRECT)) (fun j =>
       let! d := buf_data bp in
       let x := get32 d (4 * j) in
       if istrue x then bfree (i_dev ip) x else ret tt) ;;;
     brelse bp ;;;
     bfree (i_dev ip) a ;;;
     upd_inode i (fun ip => ip <| i_addrs ::= <[NDIRECT := 0]> |>)
   else ret tt) ;;;
  upd_inode i (fun ip => ip <| i_size := 0 |>) ;;;
  iupdate i.

Definition iput (i : nat) : K unit :=
  acquire LkItable ;;;
  let! ip := get_inode i in
  (if (i_ref ip =? 1) && istrue (i_valid ip) && (i_nlink ip =? 0) then
     acquiresleep (SlInode i) ;;;
     release LkItable ;;;
     itrunc i ;;;
     upd_inode i (fun ip => ip <| i_type := 0 |>) ;;;
     iupdate i ;;;
     upd_inode i (fun ip => ip <| i_valid := 0 |>) ;;;
     releasesleep (SlInode i) ;;;
     acquire LkItable
   else ret tt) ;;;
  upd_inode i (fun ip => ip <| i_ref := s32 (i_ref ip - 1) |>) ;;;
  release LkItable.

Definition iunlockput (i : nat) : K unit :=
  iunlock (Some i) ;;;
  iput i.

(** One inode of the loop of [ireclaim]. *)
Definition ireclaim_one (dev inum : Z) : K unit :=
  let! sb := get k_sb in
  let! bp := bread dev (IBLOCK inum sb) in
  let! d := buf_data bp in
  let dip := read_dinode d (dinode_off inum) in
  let! o := (if istrue (di_type dip) && (di_nlink dip =? 0) then
               printf (str "ireclaim: orphaned inode %d" ++ [10]) [PInt inum] ;;;
               let! ip := iget dev inum in
               ret (Some ip)
             else ret None) in
  brelse bp ;;;
  match o with
  | Some ip => begin_op ;;; ilock (Some ip) ;;; iunlock (Some ip) ;;; iput ip ;;; end_op
  | None => ret tt
  end.
Definition ireclaim (dev : Z) : K unit :=
  let! sb := get k_sb in
  foreach (seq 1 (Z.to_nat (sb_ninodes sb - 1))) (fun inum => ireclaim_one dev (Z.of_nat inum)).

Definition fsinit (dev : Z) : K unit :=
  readsb dev ;;;
  let! sb := get k_sb in
  if negb (sb_magic sb =? FSMAGIC) then panic "invalid file system" else
  initlog dev sb ;;;
  ireclaim dev.

(** ** Inode contents *)

(** The disk block of block [bn] of the file, allocated if absent; 0 if the
    disk is full. *)
Definition bmap (i : nat) (bn : Z) : K Z :=
  let! ip := get_inode i in
  if bn <? Z.of_nat NDIRECT then
    let addr := default 0 (i_addrs ip !! Z.to_nat bn) in
    if addr =? 0 then
      let! addr := balloc (i_dev ip) in
      if addr =? 0 then ret 0 else
      upd_inode i (fun ip => ip <| i_addrs ::= <[Z.to_nat bn := addr]> |>) ;;;
      ret addr
    else ret addr
  else
    let bn := bn - Z.of_nat NDIRECT in
    if bn <? NINDIRECT then
      let addr := default 0 (i_addrs ip !! NDIRECT) in
      let! addr :=
        (if addr =? 0 then
           let! addr := balloc (i_dev ip) in
           if addr =? 0 then ret 0 else
           upd_inode i (fun ip => ip <| i_addrs ::= <[NDIRECT := addr]> |>) ;;;
           ret addr
         else ret addr) in
      if addr =? 0 then ret 0 else
      let! bp := bread (i_dev ip) addr in
      let! d := buf_data bp in
      let addr := get32 d (4 * Z.to_nat bn) in
      let! addr :=
        (if addr =? 0 then
           let! addr := balloc (i_dev ip) in
           if istrue addr then
             let! d := buf_data bp in
             set_buf_data bp (put32 d (4 * Z.to_nat bn) addr) ;;;
             log_write bp ;;;
             ret addr
           else ret addr
         else ret addr) in
      brelse bp ;;;
      ret addr
    else panic "bmap: out of range".

Record stat : Type := mkstat {
  st_dev : Z;
  st_ino : Z;
  st_type : Z;
  st_nlink : Z;
  st_size : Z
}.
Definition stati (i : nat) : K stat :=
  let! ip := get_inode i in
  ret (mkstat (s32 (i_dev ip)) (i_inum ip) (i_type ip) (i_nlink ip) (i_size ip)).

(** [for(tot=0; tot<n; tot+=m, off+=m, dst+=m)]: each iteration but the last ends
    at a block boundary.  The second result is what was delivered so far. *)
Fixpoint readi_loop (fuel : nat) (i : nat) (dst : kdst) (off n tot : Z) (acc : list Z)
    : K (Z * list Z) :=
  match fuel with
  | O => ret (s32 tot, acc)
  | S k =>
      if tot <? n then
        let! addr := bmap i (off / BSIZE) in
        if addr =? 0 then ret (s32 tot, acc) else
        let! ip := get_inode i in
        let! bp := bread (i_dev ip) addr in
        let m := Z.min (n - tot) (BSIZE - off mod BSIZE) in
        let! d := buf_data bp in
        let bytes := take (Z.to_nat m) (drop (Z.to_nat (off mod BSIZE)) d) in
        let! r := either_copyout dst bytes in
        if r =? -1 then brelse bp ;;; ret (-1, acc)
        else
          brelse bp ;;;
          readi_loop k i (kdst_add dst m) (u32 (off + m)) n (tot + m) (acc ++ bytes)
      else ret (s32 tot, acc)
  end.
Definition readi (i : nat) (dst : kdst) (off n : Z) : K (Z * list Z) :=
  let! ip := get_inode i in
  if (i_size ip <? off) || (u32 (off + n) <? off) then ret (0, []) else
  let n := if i_size ip <? u32 (off + n) then u32 (i_size ip - off) else n in
  readi_loop (Z.to_nat (n / BSIZE + 2)) i dst off n 0 [].

(** The loop of [writei]: the bytes written and the final offset.  A failed copy
    leaves the bytes it did copy in the buffer. *)
Fixpoint writei_loop (fuel : nat) (i : nat) (src : ksrc) (off n tot : Z) : K (Z * Z) :=
  match fuel with
  | O => ret (tot, off)
  | S k =>
      if tot <? n then
        let! addr := bmap i (off / BSIZE) in
        if addr =? 0 then ret (tot, off) else
        let! ip := get_inode i in
        let! bp := bread (i_dev ip) addr in
        let m := Z.min (n - tot) (BSIZE - off mod BSIZE) in
        let! r := either_copyin src m in
        let! d := buf_data bp in
        set_buf_data bp (patch d (Z.to_nat (off mod BSIZE)) (snd r)) ;;;
        if fst r =? -1 then brelse bp ;;; ret (tot, off)
        else
          log_write bp ;;;
          brelse bp ;;;
          writei_loop k i (ksrc_add src m) (u32 (off + m)) n (tot + m)
      else ret (tot, off)
  end.
Definition writei (i : nat) (src : ksrc) (off n : Z) : K Z :=
  let! ip := get_inode i in
  if (i_size ip <? off) || (u32 (off + n) <? off) then ret (-1) else
  if MAXFILE * BSIZE <? u32 (off + n) then ret (-1) else
  let! r := writei_loop (Z.to_nat (n / BSIZE + 2)) i src off n 0 in
  let! ip := get_inode i in
  (if i_size ip <? snd r then upd_inode i (fun ip => ip <| i_size := snd r |>) else ret tt) ;;;
  iupdate i ;;;
  ret (s32 (fst r)).

(** ** Directories *)
Definition DIRENT : Z := 16.
Definition de_inum (de : list Z) : Z := get16 de 0.
Definition de_name (de : list Z) : list Z := take DIRSIZ (drop 2 de).

Definition namecmp (s t : list Z) : option Z := strncmp s t DIRSIZ.

(** [for(off = 0; off < dp->size; off += sizeof(de))]. *)
Fixpoint dirlookup_loop (fuel : nat) (dp : nat) (name : list Z) (off : Z) : K (option (nat * Z)) :=
  match fuel with
  | O => ret None
  | S k =>
      let! ip := get_inode dp in
      if off <? i_size ip then
        let! r := readi dp DVar off DIRENT in
        if negb (fst r =? DIRENT) then panic "dirlookup read" else
        let de := snd r in
        if de_inum de =? 0 then dirlookup_loop k dp name (u32 (off + DIRENT)) else
        match namecmp name (de_name de) with
        | None => fault
        | Some c =>
            if c =? 0 then
              let! ip := get_inode dp in
              let! i := iget (i_dev ip) (de_inum de) in
              ret (Some (i, off))
            else dirlookup_loop k dp name (u32 (off + DIRENT))
        end
      else ret None
  end.
Definition dirlookup (dp : nat) (name : list Z) : K (option (nat * Z)) :=
  let! ip := get_inode dp in
  if negb (i_type ip =? T_DIR) then panic "dirlookup not DIR" else
  dirlookup_loop (S (Z.to_nat (i_size ip / DIRENT + 1))) dp name 0.

(** The search for an empty entry: its offset, and the entry last read. *)
Fixpoint dirlink_find (fuel : nat) (dp : nat) (off : Z) (de : list Z) : K (Z * list Z) :=
  match fuel with
  | O => ret (off, de)
  | S k =>
      let! ip := get_inode dp in
      if u32 off <? i_size ip then
        let! r := readi dp DVar off DIRENT in
        if negb (fst r =? DIRENT) then panic "dirlink read" else
        if de_inum (snd r) =? 0 then ret (off, snd r)
        else dirlink_find k dp (off + DIRENT) (snd r)
      else ret (off, de)
  end.
Definition dirlink (dp : nat) (name : list Z) (inum : Z) : K Z :=
  let! o := dirlookup dp name in
  match o with
  | Some (ip, _) => iput ip ;;; ret (-1)
  | None =>
      let! ip := get_inode dp in
      let! r := dirlink_find (S (Z.to_nat (i_size ip / DIRENT + 1))) dp 0 (replicate 16 0) in
      match strncpy_bytes name DIRSIZ with
      | None => fault
      | Some nm =>
          let de := put16 (patch (snd r) 2 nm) 0 inum in
          let! w := writei dp (SVar de) (fst r) DIRENT in
          if negb (w =? DIRENT) then ret (-1) else ret 0
      end
  end.

(** ** Paths; a path is its bytes before the nul *)
Fixpoint skip_slashes (path : list Z) : list Z :=
  match path with
  | c :: r => if c =? 47 then skip_slashes r else path
  | [] => []
  end.
(** [while( *path != '/' && *path != 0) path++]: the element and what follows. *)
Fixpoint take_elem (path : list Z) : list Z * list Z :=
  match path with
  | c :: r => if c =? 47 then ([], path) else let '(e, t) := take_elem r in (c :: e, t)
  | [] => ([], [])
  end.

(** The rest of the path and the new contents of [name]. *)
Definition skipelem (path name : list Z) : option (list Z * list Z) :=
  let path := skip_slashes path in
  match path with
  | [] => None
  | _ =>
      let '(s, path) := take_elem path in
      let len := length s in
      let name := if decide (DIRSIZ <= len)%nat then patch name 0 (take DIRSIZ s)
                  else patch name 0 (s ++ [0]) in
      Some (skip_slashes path, name)
  end.

(** The [while] of [namex]; each iteration consumes a path element. *)
Fixpoint namex_loop (fuel : nat) (ip : nat) (path : list Z) (parent : bool) (name : list Z)
    : K (option nat * list Z) :=
  match fuel with
  | O => hang
  | S k =>
      match skipelem path name with
      | None =>
          if parent then iput ip ;;; ret (None, name) else ret (Some ip, name)
      | Some (path, name) =>
          ilock (Some ip) ;;;
          let! x := get_inode ip in
          if negb (i_type x =? T_DIR) then iunlockput ip ;;; ret (None, name) else
          if parent && bool_decide (path = []) then iunlock (Some ip) ;;; ret (Some ip, name) else
          let! next := dirlookup ip name in
          match next with
          | None => iunlockput ip ;;; ret (None, name)
          | Some (nx, _) => iunlockput ip ;;; namex_loop k nx path parent name
          end
      end
  end.

(** [p->cwd] of the current process; a null one faults in [idup]. *)
Definition namex (path : list Z) (parent : bool) (name : list Z) : K (option nat * list Z) :=
  let! ip :=
    (if bool_decide (head path = Some 47) then iget ROOTDEV ROOTINO
     else
       let! p := curproc in
       let! pr := get_proc p in
       match p_cwd pr with
       | None => fault
       | Some c => idup c
       end) in
  namex_loop (S (length path)) ip path parent name.

Definition namei (path : list Z) : K (option nat) :=
  let! r := namex path false (replicate DIRSIZ 0) in
  ret (fst r).
Definition nameiparent (path name : list Z) : K (option nat * list Z) := namex path true name.
End fs.

(** ** On-disk inodes *)
Lemma flat_words_length l : length (flat_map (le_put 4) l) = (4 * length l)%nat.
Proof. induction l as [| x l IH]; [done |]. cbn [flat_map]. rewrite length_app, le_put_length, IH. cbn. lia. Qed.

Lemma flat_words_drop l i x : l !! i = Some x ->
  drop (4 * i) (flat_map (le_put 4) l) = le_put 4 x ++ flat_map (le_put 4) (drop (S i) l).
Proof.
  revert i. induction l as [| y l IH]; intros [| i] Hx; try done.
  - by injection Hx as ->.
  - cbn [flat_map]. replace (4 * S i)%nat with (length (le_put 4 y) + 4 * i)%nat by (rewrite le_put_length; lia).
    rewrite drop_app_add. by apply IH.
Qed.

Lemma put_words_get d o l i x : (o <= length d)%nat -> l !! i = Some x ->
  get32 (put_words d o l) (o + 4 * i) = x mod 2 ^ 32.
Proof.
  intros Ho Hx. unfold get32, put_words. rewrite <- drop_drop, drop_patch by done.
  pose proof (lookup_lt_Some _ _ _ Hx).
  rewrite drop_app_le by (rewrite flat_words_length; lia).
  rewrite (flat_words_drop l i x Hx), <- app_assoc. apply (le_roundtrip 4).
Qed.

Lemma s16_u16 x : - 2 ^ 15 <= x < 2 ^ 15 -> s16 (x mod 2 ^ 16) = x.
Proof.
  intros Hx. unfold s16. rewrite <- (sext_small 16 x) at 2 by lia. unfold sext. by rewrite Z.mod_mod.
Qed.

(** The values the fields of a [struct dinode] can hold. *)
Definition dinode_ok (x : dinode) : Prop :=
  Forall (fun v => - 2 ^ 15 <= v < 2 ^ 15) [di_type x; di_major x; di_minor x; di_nlink x] /\
  0 <= di_size x < 2 ^ 32 /\ length (di_addrs x) = S NDIRECT /\
  Forall (fun v => 0 <= v < 2 ^ 32) (di_addrs x).

(** Replaced bytes at [o .. o + k) of a block do not show outside. *)
Definition block_same (o k : nat) (d d' : list Z) : Prop :=
  length d' = length d /\ forall i, (i < o \/ o + k <= i)%nat -> d' !! i = d !! i.

Lemma block_same_refl o k d : block_same o k d d.
Proof. done. Qed.
Lemma block_same_patch o k d d' off b :
  block_same o k d d' -> (o <= off)%nat -> (off + length b <= o + k)%nat -> (o + k <= length d)%nat ->
  block_same o k d (patch d' off b).
Proof.
  intros [Hl Hs] Ho Hb Hk. split; [rewrite patch_length; lia |]. intros i Hi.
  rewrite patch_lookup, decide_False by lia. by apply Hs.
Qed.
Lemma block_same_get16 o k d d' a :
  block_same o k d d' -> (a + 2 <= o \/ o + k <= a)%nat -> get16 d' a = get16 d a.
Proof.
  intros [Hl Hs] Ha. unfold get16. rewrite <- (le_get_take 2 (drop a d')), <- (le_get_take 2 (drop a d)).
  f_equal. apply list_eq. intros i. destruct (decide (i < 2)%nat).
  - rewrite !lookup_take_lt, !lookup_drop by done. apply Hs. lia.
  - by rewrite !lookup_take_ge by lia.
Qed.
Lemma block_same_get32 o k d d' a :
  block_same o k d d' -> (a + 4 <= o \/ o + k <= a)%nat -> get32 d' a = get32 d a.
Proof.
  intros [Hl Hs] Ha. unfold get32. rewrite <- (le_get_take 4 (drop a d')), <- (le_get_take 4 (drop a d)).
  f_equal. apply list_eq. intros i. destruct (decide (i < 4)%nat).
  - rewrite !lookup_take_lt, !lookup_drop by done. apply Hs. lia.
  - by rewrite !lookup_take_ge by lia.
Qed.

(** A field write, seen by a read elsewhere. *)
Lemma put16_same d o v : (o + 2 <= length d)%nat -> block_same o 2 d (put16 d o v).
Proof. intros Hd. apply block_same_patch; [apply block_same_refl | rewrite ?le_put_length; lia ..]. Qed.
Lemma put32_same d o v : (o + 4 <= length d)%nat -> block_same o 4 d (put32 d o v).
Proof. intros Hd. apply block_same_patch; [apply block_same_refl | rewrite ?le_put_length; lia ..]. Qed.
Lemma put_words_same d o l k : k = (4 * length l)%nat -> (o + k <= length d)%nat -> block_same o k d (put_words d o l).
Proof. intros -> Hd. apply block_same_patch; [apply block_same_refl | rewrite ?flat_words_length; lia ..]. Qed.
Lemma block_same_trans o k o1 k1 o2 k2 d d1 d2 :
  block_same o1 k1 d d1 -> block_same o2 k2 d1 d2 ->
  (o <= o1)%nat -> (o <= o2)%nat -> (o1 + k1 <= o + k)%nat -> (o2 + k2 <= o + k)%nat -> block_same o k d d2.
Proof.
  intros [Hl1 H1] [Hl2 H2] ? ? ? ?. split; [lia |]. intros i Hi. rewrite H2, H1 by lia. done.
Qed.

(** The six writes of [iupdate], in order. *)
Section dinode.
Context (d : list Z) (o : nat) (x : dinode) (Hd : (o + 64 <= length d)%nat) (Hx : dinode_ok x).
Let d1 := put16 d o (di_type x).
Let d2 := put16 d1 (o + 2) (di_major x).
Let d3 := put16 d2 (o + 4) (di_minor x).
Let d4 := put16 d3 (o + 6) (di_nlink x).
Let d5 := put32 d4 (o + 8) (di_size x).
Let d6 := put_words d5 (o + 12) (di_addrs x).

Local Lemma steps :
  block_same o 2 d d1 /\ block_same (o + 2) 2 d1 d2 /\ block_same (o + 4) 2 d2 d3 /\
  block_same (o + 6) 2 d3 d4 /\ block_same (o + 8) 4 d4 d5 /\ block_same (o + 12) 52 d5 d6.
Proof.
  assert (B1 : block_same o 2 d d1) by (apply put16_same; lia). pose proof B1 as [L1 _].
  assert (B2 : block_same (o + 2) 2 d1 d2) by (apply put16_same; lia). pose proof B2 as [L2 _].
  assert (B3 : block_same (o + 4) 2 d2 d3) by (apply put16_same; lia). pose proof B3 as [L3 _].
  assert (B4 : block_same (o + 6) 2 d3 d4) by (apply put16_same; lia). pose proof B4 as [L4 _].
  assert (B5 : block_same (o + 8) 4 d4 d5) by (apply put32_same; lia). pose proof B5 as [L5 _].
  destruct Hx as (_ & _ & Hlen & _).
  assert (B6 : block_same (o + 12) 52 d5 d6) by (apply put_words_same; [rewrite Hlen; done | lia]).
  auto 10.
Qed.

Lemma write_dinode_same : block_same o 64 d (write_dinode d o x).
Proof.
  destruct steps as (B1 & B2 & B3 & B4 & B5 & B6).
  pose proof (block_same_trans o 64 _ _ _ _ _ _ _ B1 B2 ltac:(lia) ltac:(lia) ltac:(lia) ltac:(lia)) as C2.
  pose proof (block_same_trans o 64 _ _ _ _ _ _ _ C2 B3 ltac:(lia) ltac:(lia) ltac:(lia) ltac:(lia)) as C3.
  pose proof (block_same_trans o 64 _ _ _ _ _ _ _ C3 B4 ltac:(lia) ltac:(lia) ltac:(lia) ltac:(lia)) as C4.
  pose proof (block_same_trans o 64 _ _ _ _ _ _ _ C4 B5 ltac:(lia) ltac:(lia) ltac:(lia) ltac:(lia)) as C5.
  exact (block_same_trans o 64 _ _ _ _ _ _ _ C5 B6 ltac:(lia) ltac:(lia) ltac:(lia) ltac:(lia)).
Qed.

Lemma read_write_dinode : read_dinode (write_dinode d o x) o = x.
Proof.
  destruct steps as (B1 & B2 & B3 & B4 & B5 & B6). destruct Hx as (Hf & Hs & Hlen & Ha).
  repeat (apply Forall_cons in Hf as [? Hf]).
  pose proof B1 as [L1 _]. pose proof B2 as [L2 _]. pose proof B3 as [L3 _].
  pose proof B4 as [L4 _]. pose proof B5 as [L5 _].
  unfold read_dinode, write_dinode. fold d1 d2 d3 d4 d5 d6.
  rewrite !(block_same_get16 _ _ _ _ _ B6) by lia. rewrite !(block_same_get16 _ _ _ _ _ B5) by lia.
  rewrite (block_same_get32 _ _ _ _ _ B6) by lia.
  unfold d4 at 4. unfold d5 at 1. rewrite get32_put32, get16_put16 by lia.
  rewrite !(block_same_get16 _ _ _ _ _ B4) by lia.
  unfold d3 at 3. rewrite get16_put16 by lia. rewrite !(block_same_get16 _ _ _ _ _ B3) by lia.
  unfold d2 at 2. rewrite get16_put16 by lia. rewrite !(block_same_get16 _ _ _ _ _ B2) by lia.
  unfold d1. rewrite get16_put16 by lia. rewrite !s16_u16, (Z.mod_small (di_size x)) by done.
  destruct x as [ty ma mi nl sz ad]; cbn [di_type di_major di_minor di_nlink di_size di_addrs] in *.
  f_equal. apply list_eq. intros i. rewrite list_lookup_fmap.
  destruct (decide (i < S NDIRECT)%nat) as [Hi | Hi].
  - rewrite lookup_seq_lt by done. cbn [fmap option_fmap option_map Nat.add].
    destruct (lookup_lt_is_Some_2 ad i) as [v Hv]; [lia |]. rewrite Hv. f_equal. unfold d6.
    rewrite (put_words_get _ _ _ _ v) by (done || lia). apply Z.mod_small. by apply (Forall_lookup_1 _ _ _ _ Ha Hv).
  - rewrite lookup_seq_ge, lookup_ge_None_2 by lia. done.
Qed.
End dinode.

Lemma dinode_off_bound inum : (dinode_off inum + 64 <= 1024)%nat.
Proof. unfold dinode_off. change IPB with 16. pose proof (Z.mod_pos_bound inum 16 ltac:(lia)). lia. Qed.

Lemma dinode_off_apart i j : dinode_off i <> dinode_off j ->
  (dinode_off i + 64 <= dinode_off j \/ dinode_off j + 64 <= dinode_off i)%nat.
Proof.
  unfold dinode_off. change IPB with 16.
  pose proof (Z.mod_pos_bound i 16 ltac:(lia)). pose proof (Z.mod_pos_bound j 16 ltac:(lia)). lia.
Qed.

(** A write outside inode [o] leaves it alone. *)
Lemma read_dinode_same o k d d' a :
  block_same o k d d' -> (a + 64 <= o \/ o + k <= a)%nat -> read_dinode d' a = read_dinode d a.
Proof.
  intros Hs Ha. unfold read_dinode.
  rewrite !(block_same_get16 _ _ _ _ _ Hs), !(block_same_get32 _ _ _ _ _ Hs) by lia.
  f_equal. apply list_fmap_ext. intros i j [-> Hi]%lookup_seq. apply (block_same_get32 _ _ _ _ _ Hs).
  unfold NDIRECT in Hi. lia.
Qed.

(** ** The free-block bitmap *)

(** Bit [bi] of a bitmap block: the block is in use. *)
Definition bit_set (d : list Z) (bi : Z) : bool := Z.testbit (bit_byte d bi) (bi mod 8).

Lemma bit_test d bi : (Z.land (bit_byte d bi) (bit_mask bi) =? 0) = negb (bit_set d bi).
Proof.
  unfold bit_mask, bit_set. pose proof (Z.mod_pos_bound bi 8 ltac:(lia)).
  rewrite <- land_bit by lia. unfold istrue. by rewrite negb_involutive.
Qed.

(** The first clear bit from [bi] on. *)
Lemma find_free_bit_spec fuel : forall d b bi size, 0 <= bi -> BPB - bi <= Z.of_nat fuel ->
  match find_free_bit fuel d b bi size with
  | Some r => bi <= r < BPB /\ b + r < size /\ bit_set d r = false /\ forall j, bi <= j < r -> bit_set d j = true
  | None => forall j, bi <= j < BPB -> b + j < size -> bit_set d j = true
  end.
Proof.
  induction fuel as [| n IH]; intros d b bi size Hb Hf; cbn [find_free_bit].
  { intros j Hj. lia. }
  destruct (Z.ltb_spec bi BPB), (Z.ltb_spec (b + bi) size); cbn [andb]; try (intros; lia).
  rewrite bit_test. destruct (bit_set d bi) eqn:Hbit; cbn [negb].
  - specialize (IH d b (bi + 1) size ltac:(lia) ltac:(lia)).
    destruct (find_free_bit n d b (bi + 1) size) as [r |].
    + destruct IH as (? & ? & ? & Hlow). split; [lia |]. split; [done |]. split; [done |].
      intros j Hj. destruct (decide (j = bi)) as [-> |]; [done | apply Hlow; lia].
    + intros j Hj Hs. destruct (decide (j = bi)) as [-> |]; [done | apply IH; lia].
  - split; [lia |]. split; [done |]. split; [done |]. intros j Hj. lia.
Qed.

(** Changing the byte of bit [bi] as [set_bit] and [clear_bit] do. *)
Lemma bit_update d bi j v (w : bool) :
  length d = 1024%nat -> 0 <= bi < BPB -> 0 <= j < BPB ->
  (forall k, 0 <= k < 8 -> Z.testbit v k = if k =? bi mod 8 then w else Z.testbit (bit_byte d bi) k) ->
  bit_set (<[Z.to_nat (bi / 8) := u8 v]> d) j = if j =? bi then w else bit_set d j.
Proof.
  unfold BPB, BSIZE. intros Hd Hb Hj Hv. unfold bit_set, bit_byte.
  pose proof (Z.mod_pos_bound j 8 ltac:(lia)). pose proof (Z.div_mod j 8). pose proof (Z.div_mod bi 8).
  destruct (decide (j / 8 = bi / 8)) as [Heq | Hne].
  - rewrite Heq, list_lookup_insert_eq by (rewrite Hd; Z.div_mod_to_equations; lia). cbn.
    unfold u8. rewrite Z.mod_pow2_bits_low, Hv by lia. unfold bit_byte.
    assert ((j mod 8 =? bi mod 8) = (j =? bi)) as ->; [| done].
    destruct (Z.eqb_spec (j mod 8) (bi mod 8)), (Z.eqb_spec j bi); try done; exfalso; lia.
  - rewrite list_lookup_insert_ne by (Z.div_mod_to_equations; lia).
    destruct (Z.eqb_spec j bi) as [-> |]; [lia | done].
Qed.

Lemma mask_testbit bi k : 0 <= k -> Z.testbit (bit_mask bi) k = (k =? bi mod 8).
Proof.
  intros Hk. unfold bit_mask. pose proof (Z.mod_pos_bound bi 8 ltac:(lia)).
  rewrite Z.shiftl_1_l, Z.pow2_bits_eqb by lia. apply Z.eqb_sym.
Qed.

Lemma set_bit_spec d bi j : length d = 1024%nat -> 0 <= bi < BPB -> 0 <= j < BPB ->
  bit_set (set_bit d bi) j = (j =? bi) || bit_set d j.
Proof.
  intros Hd Hb Hj. unfold set_bit. rewrite (bit_update d bi j _ true) by
    (done || (intros k Hk; rewrite Z.lor_spec, mask_testbit by lia;
      destruct (k =? bi mod 8); [by rewrite orb_true_r | by rewrite orb_false_r])).
  by destruct (j =? bi).
Qed.

Lemma clear_bit_spec d bi j : length d = 1024%nat -> 0 <= bi < BPB -> 0 <= j < BPB ->
  bit_set (clear_bit d bi) j = negb (j =? bi) && bit_set d j.
Proof.
  intros Hd Hb Hj. unfold clear_bit. rewrite (bit_update d bi j _ false) by
    (done || (intros k Hk; rewrite Z.land_spec, Z.lnot_spec, mask_testbit by lia;
      destruct (k =? bi mod 8); cbn; [by rewrite andb_false_r | by rewrite andb_true_r])).
  by destruct (j =? bi).
Qed.

(** ** Path elements *)

(** The elements of a path: the maximal runs without a slash. *)
Definition flush (acc : list Z) : list (list Z) := match acc with [] => [] | _ => [acc] end.
Fixpoint elements_from (acc path : list Z) : list (list Z) :=
  match path with
  | [] => flush acc
  | c :: r => if c =? 47 then flush acc ++ elements_from [] r else elements_from (acc ++ [c]) r
  end.
Definition elements (path : list Z) : list (list Z) := elements_from [] path.

Lemma elements_skip path : elements (skip_slashes path) = elements path.
Proof.
  induction path as [| c r IH]; [done |]. cbn [skip_slashes]. destruct (c =? 47) eqn:Hc; [| done].
  unfold elements in *. cbn [elements_from]. by rewrite Hc, IH.
Qed.

Lemma take_elem_elements path : forall acc,
  elements_from acc path = flush (acc ++ fst (take_elem path)) ++ elements (snd (take_elem path)).
Proof.
  induction path as [| c r IH]; intros acc; cbn [take_elem elements_from].
  { by rewrite !app_nil_r. }
  destruct (c =? 47) eqn:Hc; cbn [fst snd].
  - rewrite app_nil_r. unfold elements. cbn [elements_from]. by rewrite Hc.
  - rewrite IH. destruct (take_elem r) as [e t]. cbn [fst snd]. by rewrite <- app_assoc.
Qed.

Lemma take_elem_length path : (length (fst (take_elem path)) + length (snd (take_elem path)) = length path)%nat.
Proof.
  induction path as [| c r IH]; [done |]. cbn [take_elem]. destruct (c =? 47); [done |].
  destruct (take_elem r). cbn in *. lia.
Qed.

Lemma skip_slashes_head path c r : skip_slashes path = c :: r -> (c =? 47) = false.
Proof.
  induction path as [| d p IH]; [done |]. cbn [skip_slashes]. destruct (d =? 47) eqn:Hd; [done |].
  by intros [= -> ->].
Qed.
Lemma skip_slashes_length path : (length (skip_slashes path) <= length path)%nat.
Proof. induction path as [| d p IH]; [done |]. cbn [skip_slashes]. destruct (d =? 47); cbn; lia. Qed.

(** ** Properties *)

(** C29: An inode survives the trip to disk: what [iupdate] writes in the inode's slot
    of its block, [ilock] reads back, and the other inodes of the block keep their
    contents. *)
Theorem dinode_roundtrip d inum x :
  length d = Z.to_nat BSIZE -> dinode_ok x ->
  let d' := write_dinode d (dinode_off inum) x in
  length d' = length d /\ read_dinode d' (dinode_off inum) = x /\
  forall inum', dinode_off inum' <> dinode_off inum ->
    read_dinode d' (dinode_off inum') = read_dinode d (dinode_off inum').
Proof.
  intros Hd Hx d'. change (Z.to_nat BSIZE) with 1024%nat in Hd. pose proof (dinode_off_bound inum).
  assert (block_same (dinode_off inum) 64 d d') as Hs by (apply write_dinode_same; [lia | done]).
  split; [apply Hs |]. split; [apply read_write_dinode; [lia | done] |].
  intros inum' Hne. apply (read_dinode_same _ _ _ _ _ Hs).
  destruct (dinode_off_apart _ _ Hne); lia.
Qed.

(** The block bitmap.  [balloc]'s scan of a bitmap block returns the lowest block
    of the device that is free there, or nothing when all are used; marking that block
    used and, in [bfree], free again changes its bit and no other. *)
Theorem bitmap_alloc_free d b size :
  length d = Z.to_nat BSIZE ->
  match find_free_bit (Z.to_nat BPB) d b 0 size with
  | Some bi =>
      0 <= bi < BPB /\ b + bi < size /\ bit_set d bi = false /\ (forall j, 0 <= j < bi -> bit_set d j = true) /\
      forall j, 0 <= j < BPB ->
        bit_set (set_bit d bi) j = (j =? bi) || bit_set d j /\
        bit_set (clear_bit (set_bit d bi) bi) j = bit_set d j
  | None => forall j, 0 <= j < BPB -> b + j < size -> bit_set d j = true
  end.
Proof.
  intros Hd. change (Z.to_nat BSIZE) with 1024%nat in Hd.
  assert (HB : BPB - 0 <= Z.of_nat (Z.to_nat BPB)) by (unfold BPB, BSIZE; lia).
  pose proof (find_free_bit_spec (Z.to_nat BPB) d b 0 size ltac:(lia) HB) as Hs.
  destruct (find_free_bit (Z.to_nat BPB) d b 0 size) as [bi |]; [| done].
  destruct Hs as (Hr & Hsz & Hf & Hlow). do 4 (split; [done |]). intros j Hj.
  rewrite clear_bit_spec, set_bit_spec by (done || (unfold set_bit; by rewrite length_insert)).
  split; [done |]. destruct (Z.eqb_spec j bi) as [-> |]; [done |]. done.
Qed.

(** Directory names.  The name field [dirlink] stores (the name cut at 14 bytes,
    padded with zeros) compares equal under [namecmp] exactly with the names that
    agree on their first 14 bytes. *)
Theorem dirent_name_found name q :
  bytes name -> bytes q -> 0 ∈ name -> 0 ∈ q ->
  exists nm, strncpy_bytes name DIRSIZ = Some nm /\ length nm = DIRSIZ /\
    (namecmp q nm = Some 0 <-> take DIRSIZ (cstr q) = take DIRSIZ (cstr name)).
Proof.
  intros Hn Hq Hn0 Hq0. eexists. split; [by apply strncpy_bytes_spec; left |].
  set (t := take DIRSIZ (cstr name)). assert (length t <= DIRSIZ)%nat as Hlt by (unfold t; rewrite length_take; lia).
  assert (length (t ++ replicate (DIRSIZ - length t) 0) = DIRSIZ) as Hlen
    by (rewrite length_app, length_replicate; lia).
  split; [done |]. unfold namecmp.
  assert (Hnz : Forall (fun b => b <> 0) t).
  { apply Forall_take. clear. induction name as [| c r IH]; [done |]. cbn [cstr].
    destruct (Z.eqb_spec c 0); [done |]. by constructor. }
  assert (Hc : forall l k, Forall (fun b => b <> 0) l -> cstr (l ++ replicate k 0) = l).
  { clear. intros l k. induction 1 as [| c r Hc _ IH]; [by destruct k |]. cbn.
    by rewrite (proj2 (Z.eqb_neq c 0) Hc), IH. }
  assert (bytes t) as Hbt.
  { apply Forall_take. clear -Hn. induction Hn as [| c r Hc _ IH]; [done |]. cbn [cstr].
    destruct (c =? 0); [done |]. by constructor. }
  rewrite strncmp_zero; [| done | | by left | right; lia].
  - rewrite (Hc t _ Hnz), (take_ge t) by done. done.
  - apply Forall_app. split; [done |]. apply Forall_replicate. lia.
Qed.

(** [skipelem] takes a path apart element by element: it fails exactly when no
    element is left, and otherwise removes the first one, puts it (cut at 14 bytes, a
    nul after it if it is shorter) at the start of [name], and returns a strictly
    shorter path, so the loop of [namex] ends after at most one round per byte. *)
Theorem skipelem_spec path name :
  length name = DIRSIZ ->
  match elements path with
  | [] => skipelem path name = None
  | el :: rest => exists path' name', skipelem path name = Some (path', name') /\
      elements path' = rest /\ (length path' < length path)%nat /\ length name' = DIRSIZ /\
      take (Nat.min DIRSIZ (length el)) name' = take DIRSIZ el /\
      ((length el < DIRSIZ)%nat -> name' !! length el = Some 0)
  end.
Proof.
  intros Hn. rewrite <- elements_skip. unfold skipelem. pose proof (skip_slashes_length path) as Hsl.
  destruct (skip_slashes path) as [| c r] eqn:Hp; [done |].
  pose proof (skip_slashes_head _ _ _ Hp) as Hc.
  unfold elements. rewrite take_elem_elements. pose proof (take_elem_length (c :: r)) as Htl.
  destruct (take_elem (c :: r)) as [el t] eqn:Hte. cbn [fst snd app] in *.
  assert (exists el', el = c :: el') as [el' Hel].
  { cbn [take_elem] in Hte. rewrite Hc in Hte. destruct (take_elem r). injection Hte as <- <-. eauto. }
  assert (flush el = [el]) as -> by (by rewrite Hel). cbn [app]. pose proof (skip_slashes_length t).
  assert (1 <= length el)%nat by (rewrite Hel; cbn; lia).
  eexists _, _. split; [reflexivity |]. split; [apply elements_skip |]. split; [cbn in *; lia |].
  case_decide as Hd.
  - split; [rewrite patch_length; rewrite ?length_take; lia |]. split; [| lia].
    rewrite Nat.min_l by done. unfold patch. rewrite take_0. cbn [app]. apply take_app_length'.
    rewrite length_take. lia.
  - split; [rewrite patch_length; rewrite ?length_app; cbn; lia |].
    rewrite Nat.min_r by lia. rewrite (take_ge el) by lia. unfold patch. rewrite take_0. cbn [app].
    rewrite <- app_assoc. split; [by apply take_app_length' |]. intros _.
    rewrite lookup_app_r, Nat.sub_diag by lia. done.
Qed.

(** ** Examples *)
Lemma dinode_roundtrip_witness :
  let d := replicate 1024 0 in let x := mkdinode 2 0 0 1 5 (46 :: replicate 12 0) in
  let d' := write_dinode d (dinode_off 3) x in
  length d' = length d /\ read_dinode d' (dinode_off 3) = x /\
  forall inum', dinode_off inum' <> dinode_off 3 ->
    read_dinode d' (dinode_off inum') = read_dinode d (dinode_off inum').
Proof.
  intros d x. apply (dinode_roundtrip d 3 x); [by vm_compute |].
  split; [repeat constructor; cbn; lia |]. split; [cbn; lia |]. split; [done |]. repeat constructor; lia.
Defined.

(** The first nine blocks are used. *)
Lemma bitmap_alloc_free_witness :
  let d := 255 :: 1 :: replicate 1022 0 in
  0 <= 9 < BPB /\ 0 + 9 < 2000 /\ bit_set d 9 = false /\ (forall j, 0 <= j < 9 -> bit_set d j = true) /\
  forall j, 0 <= j < BPB ->
    bit_set (set_bit d 9) j = (j =? 9) || bit_set d j /\ bit_set (clear_bit (set_bit d 9) 9) j = bit_set d j.
Proof.
  intros d. pose proof (bitmap_alloc_free d 0 2000 ltac:(by vm_compute)) as Hb.
  assert (find_free_bit (Z.to_nat BPB) d 0 0 2000 = Some 9) as Hf by (by vm_compute).
  rewrite Hf in Hb. exact Hb.
Defined.

Lemma dirent_name_found_witness :
  exists nm, strncpy_bytes (str "init" ++ [0]) DIRSIZ = Some nm /\ length nm = DIRSIZ /\
    (namecmp (str "init" ++ [0]) nm = Some 0 <->
       take DIRSIZ (cstr (str "init" ++ [0])) = take DIRSIZ (cstr (str "init" ++ [0]))).
Proof.
  apply (dirent_name_found (str "init" ++ [0]) (str "init" ++ [0])).
  - repeat constructor; cbn; lia.
  - repeat constructor; cbn; lia.
  - apply elem_of_app. right. by left.
  - apply elem_of_app. right. by left.
Defined.

Lemma skipelem_spec_witness :
  exists path' name', skipelem (str "//a/bb") (replicate 14 1) = Some (path', name') /\
    elements path' = [str "bb"] /\ (length path' < 6)%nat /\ length name' = DIRSIZ /\
    take (Nat.min DIRSIZ 1) name' = take DIRSIZ (str "a") /\ ((1 < DIRSIZ)%nat -> name' !! 1%nat = Some 0).
Proof. exact (skipelem_spec (str "//a/bb") (replicate 14 1) eq_refl). Defined.
