(* ===== verification/Inode.v ===== *)
(** * Inode contents ([kernel/fs.c])

    What a file holds, as a function of its inode and of the contents of the disk
    blocks: [bmap] finds the blocks, [readi] returns the bytes, [dirlookup] searches
    directories.  The specifications are those of the buffer cache ([Disk]): reading
    writes nothing to the disk, whenever the power fails. *)
From S2P Require Import Prelude Kstate Bytes CString Spinlock Mem Sample Kalloc Sched PageTable UserMem Vm Sleeplock Virtio Bio Printf Disk Log Commit Recovery Fs.
Local Open Scope Z_scope.

(** ** The blocks and bytes of a file *)
Definition indirect (ip : inode) : Z := default 0 (i_addrs ip !! NDIRECT).
Definition block_addr (mem : view) (ip : inode) (bn : Z) : Z :=
  if bn <? Z.of_nat NDIRECT then default 0 (i_addrs ip !! Z.to_nat bn)
  else if indirect ip =? 0 then 0
  else get32 (mem (indirect ip)) (4 * Z.to_nat (bn - Z.of_nat NDIRECT)).
(** A block that is not there reads as zeroes. *)
Definition nth_block (mem : view) (ip : inode) (bn : Z) : list Z :=
  if block_addr mem ip bn =? 0 then zero_block else mem (block_addr mem ip bn).
(** All the blocks an inode can list, one after the other, and the file they hold. *)
Definition extent (mem : view) (ip : inode) : list Z := concat ((fun k => nth_block mem ip (Z.of_nat k)) <$> seq 0 (Z.to_nat MAXFILE)).
Definition content (mem : view) (ip : inode) : list Z := take (Z.to_nat (i_size ip)) (extent mem ip).

Lemma concat_blocks {A} (l : list (list A)) q r m b :
  Forall (fun x => length x = 1024%nat) l -> l !! q = Some b -> (r + m <= 1024)%nat ->
  take m (drop (1024 * q + r) (concat l)) = take m (drop r b).
Proof.
  intros Hl. revert q. induction l as [| x l IH]; intros q Hq Hrm; [done |].
  apply Forall_cons in Hl as [Hx Hl]. cbn [concat]. destruct q as [| q].
  - injection Hq as ->. replace (1024 * 0 + r)%nat with r by lia. rewrite drop_app_le by lia.
    apply take_app_le. rewrite length_drop. lia.
  - rewrite drop_app_ge by lia. replace (1024 * S q + r - length x)%nat with (1024 * q + r)%nat by lia. by apply IH.
Qed.
Lemma length_blocks {A} (l : list (list A)) : Forall (fun x => length x = 1024%nat) l ->
  length (concat l) = (1024 * length l)%nat.
Proof. induction 1 as [| x l Hx _ IH]; [done |]. cbn [concat length]. rewrite length_app. lia. Qed.

Section content.
Context (mem : view) (ip : inode) (Hsize : forall n, length (mem n) = 1024%nat).

Lemma extent_blocks : Forall (fun x => length x = 1024%nat) ((fun k => nth_block mem ip (Z.of_nat k)) <$> seq 0 (Z.to_nat MAXFILE)).
Proof. apply Forall_fmap, Forall_true. intros k. cbn. unfold nth_block. destruct (_ =? 0); [done | apply Hsize]. Qed.
Lemma length_extent : Z.of_nat (length (extent mem ip)) = MAXFILE * BSIZE.
Proof.
  unfold extent. rewrite length_blocks by apply extent_blocks. rewrite length_fmap, length_seq.
  assert (0 <= MAXFILE) by done. unfold BSIZE. lia.
Qed.
Lemma extent_slice off m : 0 <= off -> off / BSIZE < MAXFILE -> 0 <= m -> off mod BSIZE + m <= BSIZE ->
  take (Z.to_nat m) (drop (Z.to_nat (off mod BSIZE)) (nth_block mem ip (off / BSIZE))) =
  take (Z.to_nat m) (drop (Z.to_nat off) (extent mem ip)).
Proof.
  intros Ho Hq Hm Hr. unfold extent. pose proof (Z.mod_pos_bound off BSIZE ltac:(done)).
  pose proof (Z.div_pos off BSIZE ltac:(done) ltac:(done)).
  replace (Z.to_nat off) with (1024 * Z.to_nat (off / BSIZE) + Z.to_nat (off mod BSIZE))%nat.
  2:{ pose proof (Z.div_mod off BSIZE ltac:(done)). unfold BSIZE in *. lia. }
  symmetry. apply concat_blocks; [apply extent_blocks | | unfold BSIZE in *; lia].
  rewrite list_lookup_fmap, lookup_seq_lt by lia. cbn. by rewrite Z2Nat.id by done.
Qed.
Lemma take_more off (m k : nat) : (off + m <= length (extent mem ip))%nat ->
  take m (drop off (extent mem ip)) ++ take k (drop (off + m) (extent mem ip)) = take (m + k) (drop off (extent mem ip)).
Proof. intros Hl. rewrite <- drop_drop, take_take_drop. done. Qed.
End content.

(** ** Reading a block of the cache *)
Section inode.
Context {Im : Image} `{DiskLaws} (p : nat) (pid : Z) (dev : Z).
Notation bstate := (bstate p pid dev).
Implicit Types (P dirty : gset Z) (own : list (nat * Z)) (mem : view).

(** A free buffer for block [n], which the process has not locked. *)
Definition can_read P own (n : Z) : Prop := n ∉ own.*2 /\ (n ∈ P \/ (size P + length own < NBUF)%nat).

Lemma bread_then {B} L P own dirty mem n (k : nat -> K B) W Q s :
  bstate L P own dirty mem s -> can_read P own n ->
  (forall b s', bstate L P ((b, n) :: own) dirty mem s' -> fs_rest s' = fs_rest s -> performs (k b) W Q s') ->
  performs (bind (bread dev n) k) W Q s.
Proof.
  intros Hs [Hn Hr] Hk. eapply performs_seq; [by eapply bread_keeps |]. intros b s' [Hb Hf]. by apply Hk.
Qed.
Lemma brelse_then {B} L P own dirty mem b n (k : unit -> K B) W Q s :
  bstate L P ((b, n) :: own) dirty mem s -> n ∈ P \/ n ∉ dirty ->
  (forall s', bstate L P own dirty mem s' -> fs_rest s' = fs_rest s -> performs (k tt) W Q s') ->
  performs (bind (brelse b) k) W Q s.
Proof.
  intros Hs Hn Hk. eapply performs_seq; [by apply (brelse_keeps p pid dev L P [] b n own) |].
  intros [] s' [Hb Hf]. by apply Hk.
Qed.
(** A block that is not locked can be given back once it was read. *)
Lemma bstate_unlocked L P own dirty mem s n : bstate L P own dirty mem s -> n ∉ own.*2 -> n ∈ P \/ n ∉ dirty.
Proof.
  intros (_ & _ & _ & _ & Hca) Hn. destruct (decide (n ∈ dirty)) as [Hd |]; [| by right].
  destruct (ca_dirty _ _ _ _ _ _ _ Hca n Hd); [by left | done].
Qed.
Lemma bstate_dsync L P own dirty mem s : bstate L P own dirty mem s -> bstate L P own dirty mem (sync s).
Proof. intros (Hm & Hrest). split; [by apply machine_sync | exact Hrest]. Qed.

Lemma performs_done {A} (a : A) (Q : A -> kstate -> Prop) s : Q a s -> performs (ret a) [] Q s.
Proof. intros HQ. by apply (performs_ret _ a s s). Qed.
Lemma performs_value {A B} (a : A) (k : A -> K B) W Q s : performs (k a) W Q s -> performs (bind (ret a) k) W Q s.
Proof. intros Hk e. exact (Hk e). Qed.
Lemma performs_inode {B} i ip (k : inode -> K B) W Q s :
  k_inodes s !! i = Some ip -> performs (k ip) W Q s -> performs (bind (get_inode i) k) W Q s.
Proof.
  intros Hi Hk e. unfold get_inode. rewrite (bind_ret _ _ _ _ _ (get_nth_eq _ _ _ _ _ Hi)). apply Hk.
Qed.
Lemma fs_rest_inodes s s' : fs_rest s' = fs_rest s -> k_inodes s' = k_inodes s.
Proof. unfold fs_rest. congruence. Qed.

(** Block [bn] of the file is there. *)
Definition mapped mem (ip : inode) (bn : Z) : Prop := 0 <= bn < MAXFILE /\ block_addr mem ip bn <> 0.
Lemma mapped_block mem ip bn : mapped mem ip bn -> nth_block mem ip bn = mem (block_addr mem ip bn).
Proof. intros [_ Hb]. unfold nth_block. by rewrite (proj2 (Z.eqb_neq _ _) Hb). Qed.

Lemma bmap_performs L P dirty mem i ip bn s :
  bstate L P [] dirty mem s -> (size P < NBUF)%nat -> k_inodes s !! i = Some ip -> i_dev ip = dev -> mapped mem ip bn ->
  performs (bmap i bn) [] (fun a s' => a = block_addr mem ip bn /\ bstate L P [] dirty mem s' /\ fs_rest s' = fs_rest s) s.
Proof.
  intros Hs Hroom Hi Hdev (Hbn & Hb). unfold bmap. eapply performs_inode; [done |].
  unfold block_addr in *. destruct (Z.ltb_spec bn (Z.of_nat NDIRECT)) as [Hlt | Hge].
  - cbv zeta. rewrite (proj2 (Z.eqb_neq _ _) Hb). by apply performs_done.
  - cbv zeta. unfold MAXFILE in Hbn. rewrite (proj2 (Z.ltb_lt _ _)) by lia.
    destruct (Z.eqb_spec (indirect ip) 0) as [| Hind]; [done |].
    change (default 0 (i_addrs ip !! NDIRECT)) with (indirect ip).
    rewrite (proj2 (Z.eqb_neq _ _) Hind).
    apply performs_value. rewrite (proj2 (Z.eqb_neq _ _) Hind), Hdev.
    eapply bread_then; [done | split; [apply not_elem_of_nil | right; cbn; lia] |]. intros b s1 H1 Hf1.
    eapply performs_data; [done | by left |]. cbv zeta. rewrite (proj2 (Z.eqb_neq _ _) Hb).
    apply performs_value. eapply brelse_then; [done | by apply (bstate_unlocked L P [] dirty mem s); [| apply not_elem_of_nil] |].
    intros s2 H2 Hf2. apply performs_done. split; [done |]. split; [done | congruence].
Qed.

(** ** [readi]

    Where the bytes go: a variable of the kernel, or user memory.  [at_ n] is the
    destination after [n] of at most [N] bytes, and [D acc] holds of a state in which
    [acc] has been delivered. *)
Record sink (N : Z) (at_ : Z -> kdst) (D : list Z -> kstate -> Prop) : Prop := {
  sk_add n m : 0 <= n -> 0 <= m -> n + m <= N -> kdst_add (at_ n) m = at_ (n + m);
  sk_stable acc s s' : D acc s -> fs_rest s' = fs_rest s -> D acc s';
  sk_copy acc bytes L P own dirty mem s : Z.of_nat (length acc + length bytes) <= N ->
    Forall (fun b => 0 <= b < 256) bytes -> bstate L P own dirty mem s -> D acc s ->
    performs (either_copyout (at_ (Z.of_nat (length acc))) bytes) []
      (fun r s' => r = 0 /\ bstate L P own dirty mem s' /\ k_inodes s' = k_inodes s /\ D (acc ++ bytes) s') s
}.

Lemma bstate_proc L P own dirty mem s e : bstate L P own dirty mem s -> curproc (mkworld s e) = Ret p (mkworld (sync s) e).
Proof. intros ((c & pr & (Hc & Hp & _) & _) & _). by apply (curproc_eq s e c). Qed.

(** A variable. *)
Lemma var_sink N : sink N (fun _ => DVar) (fun _ _ => True).
Proof.
  split; [done | done |]. intros acc bytes L P own dirty mem s _ _ Hs _.
  apply (performs_ret _ 0 s (sync s)); [| done |].
  - intros e. unfold either_copyout. by rewrite (bind_ret _ _ _ _ _ (bstate_proc L P own dirty mem s e Hs)).
  - split; [done |]. split; [by apply bstate_dsync | done].
Qed.

Definition bytes_ok (mem : view) : Prop := forall n, Forall (fun b => 0 <= b < 256) (mem n).
(** Every block of the file is there. *)
Definition file_ok mem (ip : inode) : Prop :=
  i_dev ip = dev /\ 0 <= i_size ip <= MAXFILE * BSIZE /\ (forall bn, 0 <= bn -> bn * BSIZE < i_size ip -> mapped mem ip bn).

Lemma bytes_slice mem n a b : bytes_ok mem -> Forall (fun x => 0 <= x < 256) (take a (drop b (mem n))).
Proof. intros Hm. by apply Forall_take, Forall_drop. Qed.

Section readi.
Context (N : Z) (at_ : Z -> kdst) (D : list Z -> kstate -> Prop) (Hsink : sink N at_ D).
Context (L : log) (P dirty : gset Z) (mem : view) (i : nat) (ip : inode).
Hypothesis (Hroom : (size P < NBUF)%nat) (Hbytes : bytes_ok mem) (Hfile : file_ok mem ip).

Definition reading (acc : list Z) (s : kstate) : Prop :=
  bstate L P [] dirty mem s /\ k_inodes s !! i = Some ip /\ D acc s.

(** One block of the loop. *)
Lemma read_block {B} off m acc (k : list Z -> K B) (e1 : K B) (e2 : nat -> K B) W Q s :
  reading acc s -> 0 <= off -> 0 < m -> off mod BSIZE + m <= BSIZE -> off + m <= i_size ip ->
  Z.of_nat (length acc) + m <= N ->
  let bytes := take (Z.to_nat m) (drop (Z.to_nat off) (extent mem ip)) in
  (forall s', reading (acc ++ bytes) s' -> performs (k bytes) W Q s') ->
  performs (let! addr := bmap i (off / BSIZE) in
    if addr =? 0 then e1 else
    let! ip := get_inode i in
    let! bp := bread (i_dev ip) addr in
    let! d := buf_data bp in
    let bytes := take (Z.to_nat m) (drop (Z.to_nat (off mod BSIZE)) d) in
    let! r := either_copyout (at_ (Z.of_nat (length acc))) bytes in
    if r =? -1 then e2 bp else brelse bp ;;; k bytes) W Q s.
Proof.
  intros (Hs & Hi & HD) Ho Hm Hend Hsz Hlen bytes Hk. destruct Hfile as (Hdev & Hisz & Hmap).
  assert (forall n, length (mem n) = 1024%nat) as Hsize by (intros n; by eapply bstate_size).
  assert (mapped mem ip (off / BSIZE)) as Hmapped.
  { apply Hmap; [apply Z.div_pos; done |]. pose proof (Z.div_mod off BSIZE ltac:(done)).
    pose proof (Z.mod_pos_bound off BSIZE ltac:(done)). lia. }
  pose proof Hmapped as (Hbn & Hb).
  eapply performs_seq; [by eapply bmap_performs |]. intros a s1 (-> & H1 & Hf1).
  rewrite (proj2 (Z.eqb_neq _ _) Hb).
  assert (k_inodes s1 !! i = Some ip) as Hi1 by (by rewrite (fs_rest_inodes _ _ Hf1)).
  eapply performs_inode; [done |]. rewrite Hdev.
  eapply bread_then; [done | split; [apply not_elem_of_nil | right; cbn; lia] |]. intros b s2 H2 Hf2.
  eapply performs_data; [done | by left |].
  eapply performs_seq.
  { apply (sk_copy _ _ _ Hsink acc); [rewrite length_take; lia | by apply bytes_slice | exact H2 |].
    eapply sk_stable; [done | exact HD | congruence]. }
  intros r s3 (-> & H3 & Hi3 & HD3). change (0 =? -1) with false. cbn iota.
  eapply brelse_then; [done | by apply (bstate_unlocked L P [] dirty mem s1); [| apply not_elem_of_nil] |].
  intros s4 H4 Hf4. rewrite <- mapped_block, extent_slice in HD3 |- * by (done || lia). apply Hk. split; [done |]. split.
  - rewrite (fs_rest_inodes _ _ Hf4), Hi3. by rewrite (fs_rest_inodes _ _ Hf2).
  - eapply sk_stable; [done | exact HD3 | done].
Qed.

(** The number of iterations is the number of blocks the range meets. *)
Lemma readi_loop_performs fuel : forall off n tot acc s,
  reading acc s -> 0 <= off -> tot = Z.of_nat (length acc) -> tot <= n <= N -> n < 2 ^ 31 -> off + (n - tot) <= i_size ip ->
  tot = n \/ off mod BSIZE + (n - tot) <= BSIZE * Z.of_nat fuel ->
  performs (readi_loop fuel i (at_ tot) off n tot acc) [] (fun r s' =>
    let data := acc ++ take (Z.to_nat (n - tot)) (drop (Z.to_nat off) (extent mem ip)) in
    r = (n, data) /\ reading data s') s.
Proof.
  assert (MAXFILE * BSIZE < 2 ^ 31) as Hbig by done. pose proof Hfile as (_ & Hisz & _).
  induction fuel as [| k IH]; intros off n tot acc s Hs Ho Htot Hn Hn31 Hend Hfuel; cbn [readi_loop];
    pose proof (Z.mod_pos_bound off BSIZE ltac:(done)) as Hmod.
  - assert (tot = n) as Heq by lia. replace (n - tot) with 0 by lia. rewrite take_0, app_nil_r.
    apply performs_done. split; [| done]. rewrite s32_small by lia. by rewrite Heq.
  - destruct (Z.ltb_spec tot n) as [Hlt | Hge].
    2:{ assert (tot = n) as Heq by lia. replace (n - tot) with 0 by lia. rewrite take_0, app_nil_r.
        apply performs_done. split; [| done]. rewrite s32_small by lia. by rewrite Heq. }
    set (m := Z.min (n - tot) (BSIZE - off mod BSIZE)).
    pose proof Hs as (Hst & _). assert (forall n, length (mem n) = 1024%nat) as Hsize by (intros ?; by eapply bstate_size).
    pose proof (length_extent mem ip Hsize) as Hext.
    rewrite Htot. apply (read_block off m acc
      (fun bytes => readi_loop k i (kdst_add (at_ (Z.of_nat (length acc))) m) (u32 (off + m)) n (Z.of_nat (length acc) + m) (acc ++ bytes))
      (ret (s32 (Z.of_nat (length acc)), acc)) (fun bp => brelse bp ;;; ret (-1, acc)));
      [exact Hs | exact Ho | lia | lia | lia | lia |]. intros s' Hs'.
    set (bytes := take (Z.to_nat m) (drop (Z.to_nat off) (extent mem ip))) in *.
    assert (Z.of_nat (length bytes) = m) as Hlb by (unfold bytes; rewrite length_take, length_drop; lia).
    rewrite u32_small, (sk_add _ _ _ Hsink) by lia. rewrite <- Htot.
    eapply performs_mono; [apply (IH (off + m) n (tot + m) (acc ++ bytes)); [exact Hs' | lia | | lia | lia | lia |] |].
    + rewrite length_app. lia.
    + destruct (Z.eq_dec m (n - tot)) as [Hm | Hm]; [left; lia | right].
      assert (m = BSIZE - off mod BSIZE) as Hm' by lia. assert ((off + m) mod BSIZE = 0) as ->; [| lia].
      rewrite Hm'. unfold BSIZE in *. Z.div_mod_to_equations. lia.
    + intros r s2 [-> Hr]. cbv zeta.
      assert ((acc ++ bytes) ++ take (Z.to_nat (n - (tot + m))) (drop (Z.to_nat (off + m)) (extent mem ip)) =
        acc ++ take (Z.to_nat (n - tot)) (drop (Z.to_nat off) (extent mem ip))) as <-; [| done].
      rewrite <- app_assoc. f_equal. unfold bytes.
      replace (Z.to_nat (off + m)) with (Z.to_nat off + Z.to_nat m)%nat by lia. rewrite take_more by lia. f_equal. lia.
Qed.

(** [readi] delivers the bytes of the file from [off] on, at most [n] of them. *)
Lemma readi_performs off n s :
  reading [] s -> 0 <= off -> 0 <= n <= N -> off + n < 2 ^ 32 ->
  performs (readi i (at_ 0) off n) [] (fun r s' =>
    let data := take (Z.to_nat n) (drop (Z.to_nat off) (content mem ip)) in
    r = (Z.of_nat (length data), data) /\ reading data s') s.
Proof.
  intros Hs Ho Hn Hover. pose proof Hs as (Hst & Hi & _). unfold readi. eapply performs_inode; [done |].
  pose proof Hfile as (_ & Hisz & _). assert (MAXFILE * BSIZE < 2 ^ 31) as Hbig by done.
  assert (forall n, length (mem n) = 1024%nat) as Hsize by (intros ?; by eapply bstate_size).
  pose proof (length_extent mem ip Hsize) as Hext.
  assert (Z.of_nat (length (content mem ip)) = i_size ip) as Hlen by (unfold content; rewrite length_take; lia).
  rewrite u32_small by lia. rewrite (proj2 (Z.ltb_ge (off + n) off)), orb_false_r by lia.
  destruct (Z.ltb_spec (i_size ip) off) as [Hpast | Hin].
  { apply performs_done. cbv zeta. rewrite drop_ge, take_nil by lia. done. }
  cbv zeta. set (n' := if i_size ip <? off + n then u32 (i_size ip - off) else n).
  assert (n' = Z.min n (i_size ip - off)) as Hn'.
  { unfold n'. destruct (Z.ltb_spec (i_size ip) (off + n)); rewrite ?u32_small by lia; lia. }
  clearbody n'. eapply performs_mono.
  { apply (readi_loop_performs (Z.to_nat (n' / BSIZE + 2)) off n' 0 [] s); [done | lia | done | lia | lia | lia |].
    right. pose proof (Z.mod_pos_bound off BSIZE ltac:(done)). unfold BSIZE in *. Z.div_mod_to_equations. lia. }
  intros r s' [-> Hr]. cbn [app] in Hr |- *. rewrite Z.sub_0_r in Hr |- *.
  assert (take (Z.to_nat n) (drop (Z.to_nat off) (content mem ip)) = take (Z.to_nat n') (drop (Z.to_nat off) (extent mem ip))) as ->.
  { unfold content. rewrite skipn_firstn_comm, take_take. f_equal. lia. }
  split; [| done]. f_equal. rewrite length_take, length_drop. lia.
Qed.
End readi.

(** User memory: the pages of the table [tbl] at [root], the bytes from [va] on. *)
Section user_sink.
Context (m0 : gmap Z (list Z)) (root : Z) (tbl : gmap (list Z) Z) (va N : Z).
Hypothesis (Hwf : pt_wf m0 root tbl) (Hva : 0 <= va < MAXVA) (HN : 0 <= N).
Hypothesis (Huser : forall i, 0 <= i < N -> user_ok true m0 tbl (va + i)).

Definition user_holds (acc : list Z) (s : kstate) : Prop :=
  (exists pr, k_procs s !! p = Some pr /\ p_pagetable pr = root) /\ k_mem s = uwrite m0 (uaddr m0 tbl) va acc /\
  Z.of_nat (length acc) <= N.

Lemma user_range k : 0 <= k <= N -> 0 <= va + k < 2 ^ 64.
Proof.
  intros Hk. assert (MAXVA < 2 ^ 63) by done. destruct (decide (N = 0)); [lia |].
  destruct (Huser (N - 1)); lia.
Qed.
Lemma user_sink : sink N (fun n => DUser (va + n)) user_holds.
Proof.
  split.
  - intros n m Hn Hm Hnm. unfold kdst_add. rewrite u64_small; [f_equal; lia |]. rewrite <- Z.add_assoc. apply user_range. lia.
  - intros acc s s' ((pr & Hp & Hr) & Hm & Hl) Hf. unfold fs_rest, fs_env in Hf. injection Hf as Hi Hsb Hmem Hfl Hprocs _.
    split; [| split; [congruence | done]].
    assert (((fun pr => (p_pagetable pr, p_sz pr)) <$> k_procs s') !! p = Some (root, p_sz pr)) as Hp'.
    { rewrite Hprocs, list_lookup_fmap, Hp. cbn. by rewrite Hr. }
    rewrite list_lookup_fmap in Hp'. destruct (k_procs s' !! p) as [pr' |]; [| done]. injection Hp' as ? ?. by exists pr'.
  - intros acc bytes L P own dirty mem s Hlen Hb Hs ((pr & Hp & Hr) & Hm & Hl).
    set (s1 := (sync s) <| k_mem ::= fun m => uwrite m (uaddr m tbl) (va + Z.of_nat (length acc)) bytes |>).
    assert (Hu : forall i, 0 <= i < Z.of_nat (length acc) -> user_ok true m0 tbl (va + i)) by (intros; apply Huser; lia).
    apply (performs_ret _ 0 s s1); [| done |].
    + intros e. unfold either_copyout. rewrite (bind_ret _ _ _ _ _ (bstate_proc L P own dirty mem s e Hs)).
      rewrite (bind_ret _ _ _ _ _ (get_proc_eq (sync s) e p pr Hp)). rewrite Hr. unfold copyout.
      apply (copyout_loop_eq root tbl e); [lia | change (pt_wf (k_mem s) root tbl); rewrite Hm; by apply (uwrite_wf _ _ _ true) | lia |].
      intros i Hi. change (user_ok true (k_mem s) tbl (va + Z.of_nat (length acc) + i)). rewrite Hm.
      apply (uwrite_user_ok _ root _ true); [done | done |]. rewrite <- Z.add_assoc. apply Huser. lia.
    + split; [done |]. split; [| split; [done |]].
      * destruct (bstate_dsync _ _ _ _ _ _ Hs) as (Hma & Hrest). split; [exact Hma | exact Hrest].
      * split; [by exists pr |]. split; [| rewrite length_app; lia].
        change (uwrite (k_mem s) (uaddr (k_mem s) tbl) (va + Z.of_nat (length acc)) bytes = uwrite m0 (uaddr m0 tbl) va (acc ++ bytes)).
        rewrite uwrite_app, Hm. apply uwrite_ext. intros i Hi. by apply (uwrite_uaddr _ root _ true).
Qed.
End user_sink.

(** C6: [readi] to user memory returns the file.  For a file all of whose blocks are
    allocated, [readi(ip, 1, va, off, n)] returns the number of bytes between [off] and
    the smaller of [off + n] and the end of the file, and has put exactly these bytes at
    [va]; no other byte of memory changes, no block, cached or on the disk, changes, and
    nothing is written to the disk. *)
Theorem readi_returns_content L P dirty mem i ip s pr root tbl va off n :
  bstate L P [] dirty mem s -> (size P < NBUF)%nat -> bytes_ok mem -> k_inodes s !! i = Some ip -> file_ok mem ip ->
  0 <= off -> 0 <= n -> off + n < 2 ^ 32 ->
  k_procs s !! p = Some pr -> p_pagetable pr = root -> pt_wf (k_mem s) root tbl -> 0 <= va < MAXVA ->
  (forall k, 0 <= k < n -> user_ok true (k_mem s) tbl (va + k)) ->
  (forall j k, 0 <= j < n -> 0 <= k < n -> uaddr (k_mem s) tbl (va + j) = uaddr (k_mem s) tbl (va + k) -> j = k) ->
  performs (readi i (DUser va) off n) [] (fun r s' =>
    let data := take (Z.to_nat n) (drop (Z.to_nat off) (content mem ip)) in
    r = (Z.of_nat (length data), data) /\
    ubytes (k_mem s') tbl va (length data) = data /\
    (forall a, (forall k, 0 <= k < n -> uaddr (k_mem s) tbl (va + k) <> a) -> mem_byte (k_mem s') a = mem_byte (k_mem s) a) /\
    bstate L P [] dirty mem s' /\ k_inodes s' !! i = Some ip) s.
Proof.
  intros Hs Hroom Hbytes Hi Hfile Ho Hn Hover Hp Hr Hwf Hva Hu Hinj.
  pose proof (user_sink (k_mem s) root tbl va n Hwf Hva Hn Hu) as Hsink.
  pose proof (readi_performs n _ _ Hsink L P dirty mem i ip Hroom Hbytes Hfile off n s) as Hread.
  cbv beta in Hread. rewrite Z.add_0_r in Hread. eapply performs_mono; [apply Hread; [| done | lia | done] |].
  - split; [done |]. split; [done |]. split; [by exists pr | by split].
  - intros r s' [-> (Hs' & Hi' & _ & Hm & Hl)]. cbv zeta in *. set (data := take _ _) in *.
    assert (Forall (fun b => 0 <= b < 256) data) as Hd.
    { unfold data, content, extent. apply Forall_take, Forall_drop, Forall_take, Forall_concat, Forall_fmap, Forall_true.
      intros k. cbn. unfold nth_block. destruct (_ =? 0); [| apply Hbytes]. by apply Forall_replicate. }
    split; [done |]. rewrite Hm. split; [| split; [| done]].
    + apply (ubytes_uwrite _ root); [done | done | intros; apply Hu; lia | intros; apply Hinj; (done || lia)].
    + intros a Ha. apply uwrite_get; [intros k Hk; eapply uaddr_byte, Hu; lia | intros k Hk; apply Ha; lia].
Qed.
End inode.

(** ** Examples

    Process 3 has the page of [sample_vm]; inode 3, in slot 0 of the table, is a file
    of five bytes, open at their end, whose only block is block 47. *)
Definition sample_fs_inode : inode := mkinode 1 3 1 1 2 0 0 1 5 (47 :: replicate 12 0).
Definition sample_hello : list Z := str "hello" ++ replicate 1019 0.
Definition sample_fs_disk : gmap Z (list Z) :=
  <[33 := write_dinode (replicate 1024 0) (dinode_off 3) (dinode_of sample_fs_inode)]>
  (<[46 := replicate 6 255 ++ replicate 1018 0]> (<[47 := sample_hello]> ∅)).
Definition sample_fs_open : file := mkfile FD_INODE 1 1 1 0 (Some 0%nat) 5 0.
Definition sample_fs : kstate :=
  sample_vm <| k_disk := sample_fs_disk |> <| k_inodes ::= <[0%nat := sample_fs_inode]> |> <| k_files ::= <[0%nat := sample_fs_open]> |>
    <| k_procs ::= alter (fun pr => pr <| p_pagetable := sample_root |>) 3%nat |>.

Lemma sample_fs_machine : machine 3 7 sample_fs.
Proof.
  exists sample_cpu, (sample_proc <| p_pagetable := sample_root |>). split; [exact sample_running |].
  split; [done |]. split; [done |]. split; [done |]. split; [| split; [| done]].
  - destruct (sample_procs_free (Some 3%nat)) as [Hl Hf]. split; [done | exact Hf].
  - destruct sample_machine as (c & pr & _ & _ & _ & _ & _ & Hq & _). exact Hq.
Qed.
Lemma disk_view_all (P : list Z -> Prop) d : P zero_block -> map_Forall (fun _ b => P b) d -> forall n, P (disk_view d n).
Proof. intros Hz Hd n. unfold disk_view. destruct (d !! n) as [b |] eqn:Hb; [by apply (Hd n) | exact Hz]. Qed.
Lemma sample_fs_blocks : blocks_ok sample_fs_disk /\ bytes_ok (disk_view sample_fs_disk).
Proof.
  split.
  - intros n. apply (disk_view_all (fun b => length b = 1024%nat)); [by vm_compute |]. apply (bool_decide_unpack _). by vm_compute.
  - intros n. apply (disk_view_all (fun b => Forall (fun x => 0 <= x < 256) b)); [by apply Forall_replicate |].
    apply (bool_decide_unpack _). by vm_compute.
Qed.
Lemma sample_fs_booted : booted 3 7 1 sample_fs.
Proof. destruct (sample_cold ∅) as (_ & Hrest). split; [exact sample_fs_machine | exact Hrest]. Qed.

(** Three bytes from the second on, to address 4. *)
Lemma readi_returns_content_witness :
  let mem := disk_view (k_disk sample_fs) in
  performs (@readi _ plain_disk 0 (DUser 4) 1 3) [] (fun r s' =>
    let data := take 3 (drop 1 (content mem sample_fs_inode)) in
    r = (Z.of_nat (length data), data) /\
    ubytes (k_mem s') sample_tbl 4 (length data) = data /\
    (forall a, (forall k, 0 <= k < 3 -> uaddr (k_mem sample_fs) sample_tbl (4 + k) <> a) ->
      mem_byte (k_mem s') a = mem_byte (k_mem sample_fs) a) /\
    bstate 3 7 1 (k_log sample_fs) ∅ [] ∅ mem s' /\ k_inodes s' !! 0%nat = Some sample_fs_inode) sample_fs.
Proof.
  intros mem. apply (@readi_returns_content _ plain_disk plain_disk_laws 3 7 1 (k_log sample_fs) ∅ ∅ mem 0 sample_fs_inode sample_fs
    (sample_proc <| p_pagetable := sample_root |>) sample_root sample_tbl 4 1 3).
  - exact (booted_bstate 3 7 1 sample_fs sample_fs_booted (proj1 sample_fs_blocks)).
  - rewrite size_empty. unfold NBUF, MAXOPBLOCKS. lia.
  - exact (proj2 sample_fs_blocks).
  - done.
  - split; [done |]. split; [by vm_compute |]. intros bn H0 Hs. change (i_size sample_fs_inode) with 5 in Hs. unfold BSIZE in Hs.
    assert (bn = 0) as -> by lia. split; [done |]. by vm_compute.
  - lia.
  - lia.
  - lia.
  - done.
  - done.
  - exact sample_vm_wf.
  - by vm_compute.
  - exact sample_user_ok.
  - intros j k Hj Hk. change (k_mem sample_fs) with (k_mem sample_vm). unfold uaddr.
    rewrite !sample_entry by lia. unfold PGSIZE. rewrite !Z.mod_small by lia. lia.
Defined.
