(* ===== verification/Writei.v ===== *)
(** * Writing files ([kernel/fs.c])

    Block allocation and [writei] inside a transaction.  A transaction that began with
    the log [L0] has logged the blocks [T]; [writei] changes the contents of one file
    and nothing of any other. *)
From S2P Require Import Prelude Kstate Bytes CString Spinlock Mem Sample Kalloc Sched PageTable UserMem Vm Sleeplock Virtio Bio Printf Disk Log Commit Recovery Fs Inode.
Local Open Scope Z_scope.

(** ** Inside a transaction *)
Section txn.
Context {Im : Image} `{DiskLaws} (p : nat) (pid : Z) (dev : Z) (L0 : log).
Notation bstate := (bstate p pid dev).
Implicit Types (T U : gset Z) (own : list (nat * Z)) (mem : view).
(** [set_solver] without the hypotheses on states. *)
Ltac sets :=
  repeat match goal with
  | F : fs_rest _ = _ |- _ => clear F
  | F : fs_env _ = _ |- _ => clear F
  | F : Disk.bstate _ _ _ _ _ _ _ _ _ |- _ => clear F
  end; set_solver.

(** [mem] is the current contents of the blocks; the process has locked [own], logged
    the blocks [T] since the log was [L0], and changed [U] without logging them yet. *)
Definition in_txn T U own mem (s : kstate) : Prop :=
  exists L dirty, bstate L (list_to_set (homes L)) own dirty mem s /\ log_ok L /\ NoDup (homes L) /\
    1 <= l_outstanding L /\ log_frame L0 L /\
    (forall m, m ∈ homes L -> m ∈ homes L0 \/ m ∈ T) /\ (forall n, n ∈ dirty -> n ∈ homes L \/ n ∈ U).

(** Blocks there is room for in the log and in the cache. *)
Definition room T own : Prop := log_ok L0 /\ lh_n L0 + Z.of_nat (size T + length own) < LOGBLOCKS.

Lemma txn_count T L : log_ok L -> log_ok L0 -> NoDup (homes L) -> (forall m, m ∈ homes L -> m ∈ homes L0 \/ m ∈ T) ->
  lh_n L <= lh_n L0 + Z.of_nat (size T).
Proof.
  intros Hok Hok0 Hnd Hin. assert (homes L ⊆+ homes L0 ++ base.elements T) as Hsub.
  { apply NoDup_submseteq; [done |]. intros m Hm. apply elem_of_app. rewrite elem_of_elements. auto. }
  apply submseteq_length in Hsub. rewrite length_app, !homes_length in Hsub by done.
  change (length (base.elements T)) with (size T) in Hsub. pose proof (lo_n L Hok). pose proof (lo_n L0 Hok0). lia.
Qed.

Lemma txn_bread T U own mem n s :
  in_txn T U own mem s -> n ∉ own.*2 -> room T own ->
  performs (bread dev n) [] (fun b s' => in_txn T U ((b, n) :: own) mem s' /\ fs_rest s' = fs_rest s) s.
Proof.
  intros (L & dirty & Hs & Hok & Hnd & Ho & Hst & Hin & Hdi) Hn [Hok0 Hroom].
  eapply performs_mono; [apply (bread_keeps p pid dev L _ own dirty mem n s Hs Hn) |].
  - right. rewrite size_list_to_set, homes_length by done. pose proof (txn_count T L Hok Hok0 Hnd Hin). pose proof (lo_n L Hok).
    unfold NBUF, LOGBLOCKS, MAXOPBLOCKS in *. lia.
  - intros b s' [Hs' Hf]. split; [| done]. by exists L, dirty.
Qed.
Lemma txn_data {B} T U own mem b n (k : list Z -> K B) W Q s :
  in_txn T U own mem s -> (b, n) ∈ own -> performs (k (mem n)) W Q s -> performs (bind (buf_data b) k) W Q s.
Proof. intros (L & dirty & Hs & _) Hin Hk. by eapply performs_data. Qed.
Lemma txn_store T U own mem b n d s :
  in_txn T U own mem s -> (b, n) ∈ own -> length d = 1024%nat ->
  performs (set_buf_data b d) [] (fun _ s' => in_txn T (U ∪ {[n]}) own (vset n d mem) s' /\ fs_rest s' = fs_rest s) s.
Proof.
  intros (L & dirty & Hs & Hok & Hnd & Ho & Hst & Hin & Hdi) Hb Hd. unfold set_buf_data.
  eapply performs_mono; [by apply (store_keeps p pid dev L _ own dirty mem b n d s Hs Hb) |].
  intros [] s' [Hs' Hf]. split; [| done]. exists L, (dirty ∪ {[n]}). do 6 (split; [done |]).
  intros m [Hm | ->%elem_of_singleton]%elem_of_union; [destruct (Hdi m Hm); sets | sets].
Qed.
Lemma txn_log_write T U own mem b n s :
  in_txn T U own mem s -> (b, n) ∈ own -> room T [] -> 0 <= n < 2 ^ 31 -> ~ log_area L0 n ->
  performs (log_write b) [] (fun _ s' => in_txn (T ∪ {[n]}) (U ∖ {[n]}) own mem s' /\ fs_rest s' = fs_rest s) s.
Proof.
  intros (L & dirty & Hs & Hok & Hnd & Ho & Hst & Hin & Hdi) Hb [Hok0 Hroom] Hn Ha.
  pose proof (txn_count T L Hok Hok0 Hnd Hin) as Hcount. cbn in Hroom.
  assert (lh_n L < LOGBLOCKS) as Hlt by lia. assert (~ log_area L n) as Ha' by (unfold log_area in *; by rewrite (proj1 Hst)).
  eapply performs_mono; [by apply (log_write_keeps p pid dev L own dirty mem b n s Hs Hb) |].
  intros [] s' [Hs' Hf]. split; [| done]. exists (log_add n L), dirty.
  destruct (log_add_frame n L) as [(F1 & F2 & F3 & F4) _]. destruct (log_add_entries n L Hok Hlt Hnd) as [Hnd' Hin'].
  split; [done |]. split; [by apply log_add_ok |]. split; [done |]. split; [by rewrite F3 |].
  split; [destruct Hst as (S1 & S2 & S3 & S4); repeat split; congruence |].
  split; [intros m [Hm | ->]%Hin'; [destruct (Hin m Hm); sets | sets] |].
  intros m Hm. rewrite Hin'. destruct (decide (m = n)) as [-> |]; [left; by right |]. destruct (Hdi m Hm); sets.
Qed.
Lemma txn_brelse T U own mem b n s :
  in_txn T U ((b, n) :: own) mem s -> n ∉ U ->
  performs (brelse b) [] (fun _ s' => in_txn T U own mem s' /\ fs_rest s' = fs_rest s) s.
Proof.
  intros (L & dirty & Hs & Hok & Hnd & Ho & Hst & Hin & Hdi) Hn.
  eapply performs_mono; [apply (brelse_keeps p pid dev L _ [] b n own dirty mem s Hs) |].
  - destruct (decide (n ∈ dirty)) as [Hd |]; [left | by right]. apply elem_of_list_to_set. by destruct (Hdi n Hd).
  - intros [] s' [Hs' Hf]. split; [| done]. by exists L, dirty.
Qed.

(** A change of a locked block, logged and unlocked. *)
Lemma txn_update T own mem b n d s :
  in_txn T ∅ ((b, n) :: own) mem s -> length d = 1024%nat -> room T [] -> 0 <= n < 2 ^ 31 -> ~ log_area L0 n ->
  performs (set_buf_data b d ;;; log_write b ;;; brelse b) []
    (fun _ s' => in_txn (T ∪ {[n]}) ∅ own (vset n d mem) s' /\ fs_rest s' = fs_rest s) s.
Proof.
  intros Hs Hd Hroom Hn Ha. eapply performs_seq; [by apply (txn_store T ∅ _ mem b n d s Hs); [left |] |].
  intros [] s1 [H1 F1]. eapply performs_seq; [apply (txn_log_write T _ _ _ b n s1 H1); [by left | done | done | done] |].
  intros [] s2 [H2 F2]. replace ((∅ ∪ {[n]}) ∖ {[n]}) with (∅ : gset Z) in H2 by (apply set_eq; sets).
  eapply performs_mono; [apply (txn_brelse _ _ own _ b n s2 H2); sets |].
  intros [] s3 [H3 F3]. split; [done | congruence].
Qed.
Lemma txn_sync T U own mem s : in_txn T U own mem s -> in_txn T U own mem (sync s).
Proof. intros (L & dirty & Hs & Hrest). exists L, dirty. split; [by apply bstate_sync | done]. Qed.
Lemma txn_set_inode T U own mem i f s : in_txn T U own mem s -> in_txn T U own mem (s <| k_inodes ::= alter f i |>).
Proof. intros (L & dirty & Hs & Hrest). exists L, dirty. split; [exact Hs | done]. Qed.
Lemma txn_size T U own mem s n : in_txn T U own mem s -> length (mem n) = 1024%nat.
Proof. intros (L & dirty & Hs & _). by eapply bstate_size. Qed.

(** ** Allocating a block *)
Lemma bind_seq3 {A B C D} (m1 : K A) (m2 : K B) (m3 : K C) (k : K D) w :
  (m1 ;;; m2 ;;; m3 ;;; k) w = ((m1 ;;; m2 ;;; m3) ;;; k) w.
Proof. unfold bind. by repeat (case_match; try done). Qed.

Section balloc.
Context (sb : superblock).
Definition bmap_block : Z := sb_bmapstart sb.
(** One bitmap block is enough, and it is not in the log. *)
Definition sb_fits : Prop := 0 <= sb_size sb <= BPB /\ 0 < bmap_block < 2 ^ 31 /\ ~ log_area L0 bmap_block.
Definition used mem (b : Z) : bool := bit_set (mem bmap_block) b.
Definition allocated (a : Z) mem : view := vset a zero_block (vset bmap_block (set_bit (mem bmap_block) a) mem).

Lemma BBLOCK_one b : sb_fits -> 0 <= b < BPB -> BBLOCK b sb = bmap_block.
Proof.
  intros (_ & Hb & _) Hr. unfold BBLOCK, bmap_block in *. rewrite Z.div_small, Z.add_0_l by done. apply u32_small. lia.
Qed.
Lemma set_bit_length d a : length (set_bit d a) = length d.
Proof. apply length_insert. Qed.

Lemma bzero_performs T own mem b s :
  in_txn T ∅ own mem s -> b ∉ own.*2 -> room T own -> 0 <= b < 2 ^ 31 -> ~ log_area L0 b ->
  performs (bzero dev b) [] (fun _ s' => in_txn (T ∪ {[b]}) ∅ own (vset b zero_block mem) s' /\ fs_rest s' = fs_rest s) s.
Proof.
  intros Hs Hb Hroom Hr Ha. unfold bzero. eapply performs_seq; [by apply txn_bread |]. intros bp s1 [H1 F1].
  eapply performs_mono; [apply (txn_update T own mem bp b _ s1 H1); try done |].
  - destruct Hroom as [? Hroom]. split; [done |]. cbn in *. lia.
  - intros [] s2 [H2 F2]. split; [exact H2 | congruence].
Qed.

Lemma full_performs T own mem s : in_txn T ∅ own mem s ->
  performs (printf (str "balloc: out of blocks" ++ [10]) [] ;;; ret 0) []
    (fun a s' => a = 0 /\ in_txn T ∅ own mem s' /\ fs_rest s' = fs_rest s) s.
Proof.
  intros Ht. pose proof Ht as (L & dirty & Hs & Hrest).
  pose proof Hs as ((c & pr & Hr & Hn & Hpr & Hpid & Hpf & Hlk & Hui & Hpn & Hpd) & _).
  pose proof Hr as (Hc & _).
  assert (exists l, emits (printf_loop 22 (str "balloc: out of blocks" ++ [10]) 0 []) l) as [l Hl].
  { eexists. do 22 (eapply emits_plain; [by vm_compute | done | done | lia |]). by apply emits_end. }
  apply (performs_ret _ 0 s (emit l (sync s))); [| done |].
  - intros e. erewrite bind_ret; [reflexivity |]. apply (printf_eq s e c); try done; [lia |].
    apply (quiet_lock s _ Hlk). apply elem_of_app. left. right. right. by left.
  - split; [done |]. split; [| done]. exists L, dirty. split; [by apply bstate_emit | done].
Qed.

(** Blocks that are not to be handed out are marked as used. *)
Definition reserved mem own : Prop :=
  used mem 0 = true /\ used mem bmap_block = true /\ (forall n, n ∈ own.*2 -> used mem n = true) /\
  (forall n, log_area L0 n -> used mem n = true).

(** [balloc] returns the lowest unused block, zeroed and marked as used, or 0 if every
    block is in use. *)
Lemma balloc_performs T own mem s :
  in_txn T ∅ own mem s -> k_sb s = sb -> sb_fits -> reserved mem own -> bmap_block ∉ own.*2 -> room (T ∪ {[bmap_block]}) own ->
  performs (balloc dev) [] (fun a s' => fs_rest s' = fs_rest s /\
    ((0 < a < sb_size sb /\ used mem a = false /\ a <> bmap_block /\
      in_txn (T ∪ {[bmap_block]} ∪ {[a]}) ∅ own (allocated a mem) s') \/
     (a = 0 /\ (forall j, 0 <= j < sb_size sb -> used mem j = true) /\ in_txn T ∅ own mem s'))) s.
Proof.
  intros Hs Hsb Hfits (Hz & Hbb & Hown & Hlog) Hnb Hroom.
  assert (room T own) as Hroom'.
  { destruct Hroom as [? Hr]. split; [done |]. assert (size T <= size (T ∪ {[bmap_block]}))%nat by (apply subseteq_size; sets). lia. }
  assert (room T []) as Hroom0 by (destruct Hroom' as [? Hr]; split; [done |]; cbn in *; lia).
  pose proof Hfits as (Hsz & Hbr & Hba). unfold balloc. apply performs_get. rewrite Hsb.
  destruct (Z.to_nat (sb_size sb / BPB + 2)) as [| [| fuel]] eqn:Hfuel.
  1-2: assert (0 <= sb_size sb / BPB) by (apply Z.div_pos; [lia | done]); lia.
  cbn [balloc_loop]. apply performs_get. rewrite Hsb. destruct (Z.ltb_spec 0 (sb_size sb)) as [Hpos | Hzero].
  2:{ eapply performs_mono; [by apply full_performs |]. intros a s1 (-> & H1 & F1). split; [done |]. right.
      split; [done |]. split; [intros j Hj; lia | done]. }
  rewrite BBLOCK_one by done. eapply performs_seq; [by apply txn_bread |]. intros bp s1 [H1 F1].
  eapply txn_data; [exact H1 | by left |].
  pose proof (find_free_bit_spec (Z.to_nat BPB) (mem bmap_block) 0 0 (sb_size sb) ltac:(lia) ltac:(done)) as Hfind.
  destruct (find_free_bit _ _ 0 0 _) as [bi |].
  - destruct Hfind as (Hbi & Hbs & Hfree & _). rewrite Z.add_0_l in Hbs |- *.
    assert (length (mem bmap_block) = 1024%nat) as Hlen by (by eapply txn_size).
    assert (bi <> 0) as Hnz by (intros ->; unfold used in Hz; congruence).
    assert (bi <> bmap_block) as Hnbb by (intros ->; unfold used in Hbb; congruence).
    assert (~ log_area L0 bi) as Hna by (intros Hna; apply Hlog in Hna; unfold used in Hna; congruence).
    assert (bi ∉ own.*2) as Hno by (intros Hno; apply Hown in Hno; unfold used in Hno; congruence).
    assert (BPB < 2 ^ 31) as Hbpb by done.
    eapply performs_ext; [intros w; apply bind_seq3 |].
    eapply performs_seq; [apply (txn_update T own mem bp bmap_block (set_bit (mem bmap_block) bi) s1 H1); try done; [by rewrite set_bit_length | lia] |].
    intros [] s2 [H2 F2]. eapply performs_seq; [apply (bzero_performs _ own _ bi s2 H2 Hno Hroom); (done || lia) |].
    intros [] s3 [H3 F3]. apply performs_done. split; [congruence |]. left. split; [lia |]. done.
  - eapply performs_seq; [apply (txn_brelse T ∅ own mem bp bmap_block s1 H1); sets |]. intros [] s2 [H2 F2].
    cbn [balloc_loop]. apply performs_get.
    assert (k_sb s2 = sb) as -> by (rewrite <- Hsb; unfold fs_rest, fs_env in *; congruence).
    rewrite (proj2 (Z.ltb_ge _ _)) by lia.
    eapply performs_mono; [apply (full_performs T own mem s2 H2) |]. intros a s3 (-> & H3 & F3). split; [congruence |].
    right. split; [done |]. split; [| done]. intros j Hj. apply Hfind; lia.
Qed.

(** ** The blocks of one file, and all others

    [O] are the blocks of the rest of the disk: of other files, inodes, the bitmap, the
    log. *)
Section owned.
Context (O : gset Z).

Definition taken mem (a : Z) : Prop := 0 < a < sb_size sb /\ used mem a = true /\ a ∉ O.
(** The file's blocks are in use, its own, and each listed once. *)
Record owned mem (ip : inode) : Prop := {
  ow_len : length (i_addrs ip) = S NDIRECT;
  ow_ind : indirect ip <> 0 -> taken mem (indirect ip);
  ow_blk k : 0 <= k < MAXFILE -> block_addr mem ip k <> 0 ->
    taken mem (block_addr mem ip k) /\ block_addr mem ip k <> indirect ip;
  ow_inj k k' : 0 <= k < MAXFILE -> 0 <= k' < MAXFILE -> block_addr mem ip k <> 0 ->
    block_addr mem ip k = block_addr mem ip k' -> k = k'
}.
Record meta mem : Prop := {
  me_used n : n ∈ O -> used mem n = true /\ 0 <= n < sb_size sb;
  me_zero : 0 ∈ O;
  me_bmap : bmap_block ∈ O;
  me_log n : log_area L0 n -> n ∈ O
}.
(** A file that got blocks reads as before. *)
Record grows mem (ip : inode) mem' (ip' : inode) : Prop := {
  gr_owned : owned mem' ip';
  gr_meta : meta mem';
  gr_other n : n ∈ O -> n <> bmap_block -> mem' n = mem n;
  gr_used j : 0 <= j < BPB -> used mem j = true -> used mem' j = true;
  gr_block k : 0 <= k < MAXFILE -> nth_block mem' ip' k = nth_block mem ip k;
  gr_mapped k : mapped mem ip k -> mapped mem' ip' k;
  gr_ip : ip' = ip <| i_addrs := i_addrs ip' |>;
  gr_ind : indirect ip <> 0 -> indirect ip' = indirect ip
}.

Lemma grows_refl mem ip : owned mem ip -> meta mem -> grows mem ip mem ip.
Proof. intros Ho Hm. split; try done. by destruct ip. Qed.
Lemma grows_trans m1 i1 m2 i2 m3 i3 : grows m1 i1 m2 i2 -> grows m2 i2 m3 i3 -> grows m1 i1 m3 i3.
Proof.
  intros [H1 M1 A1 U1 B1 P1 I1 N1] [H2 M2 A2 U2 B2 P2 I2 N2]. split; try done.
  - intros n Hn Hb. rewrite A2, A1 by done. done.
  - auto.
  - intros k Hk. by rewrite B2, B1.
  - auto.
  - rewrite I2, I1. done.
  - intros Hi. rewrite N2, N1; [done | done |]. by rewrite N1.
Qed.

Section alloc.
Context (mem : view) (ip : inode) (a : Z).
Hypothesis (Hfits : sb_fits) (Hsize : forall n, length (mem n) = 1024%nat).
Hypothesis (Hown : owned mem ip) (Hmeta : meta mem).
Hypothesis (Ha : 0 < a < sb_size sb) (Hfree : used mem a = false).

Lemma fresh_O : a ∉ O.
Proof. intros Hin. apply (me_used _ Hmeta) in Hin as [Hin _]. congruence. Qed.
Lemma fresh_bmap : a <> bmap_block.
Proof. intros Heq. apply fresh_O. rewrite Heq. apply (me_bmap _ Hmeta). Qed.
Lemma fresh_taken b : taken mem b -> b <> a /\ b <> bmap_block.
Proof.
  intros (_ & Hu & HO). split; intros Heq; [congruence |]. apply HO. rewrite Heq. apply (me_bmap _ Hmeta).
Qed.
Lemma allocated_same n : n <> a -> n <> bmap_block -> allocated a mem n = mem n.
Proof. intros Hna Hnb. unfold allocated. by rewrite !vset_ne. Qed.
Lemma allocated_new : allocated a mem a = zero_block.
Proof. unfold allocated. apply vset_eq. Qed.
Lemma allocated_used j : 0 <= j < BPB -> used (allocated a mem) j = (j =? a) || used mem j.
Proof.
  intros Hj. unfold used, allocated. rewrite vset_ne, vset_eq by (symmetry; apply fresh_bmap).
  apply set_bit_spec; [apply Hsize | | done]. destruct Hfits as (Hs & _). lia.
Qed.
Lemma taken_allocated b : taken mem b -> taken (allocated a mem) b.
Proof.
  intros (Hb & Hu & HO). split; [done |]. split; [| done]. destruct Hfits as (Hs & _).
  rewrite allocated_used, Hu by lia. apply orb_true_r.
Qed.
Lemma taken_new : taken (allocated a mem) a.
Proof.
  split; [done |]. split; [| apply fresh_O]. destruct Hfits as (Hs & _). rewrite allocated_used by lia. by rewrite Z.eqb_refl.
Qed.
Lemma meta_allocated : meta (allocated a mem).
Proof.
  destruct Hmeta as [Hu Hz Hb Hl]. split; try done. intros n Hn. destruct (Hu n Hn) as [Hn1 Hn2]. split; [| done].
  destruct Hfits as (Hs & _). rewrite allocated_used, Hn1 by lia. apply orb_true_r.
Qed.
(** A new block of the file: its contents are zeroes, as they read before. *)
Lemma grow_block mem' ip' bn :
  0 <= bn < MAXFILE -> block_addr mem ip bn = 0 ->
  (forall k, 0 <= k < MAXFILE -> block_addr mem' ip' k = if k =? bn then a else block_addr mem ip k) ->
  indirect ip' = indirect ip -> length (i_addrs ip') = S NDIRECT -> ip' = ip <| i_addrs := i_addrs ip' |> ->
  (forall n, n <> a -> n <> bmap_block -> indirect ip = 0 \/ n <> indirect ip -> mem' n = mem n) ->
  mem' a = zero_block -> mem' bmap_block = allocated a mem bmap_block ->
  grows mem ip mem' ip'.
Proof.
  intros Hbn Hnone Haddr Hind Hlen Hip Hsame Hnew Hbm.
  assert (forall j, used mem' j = used (allocated a mem) j) as Hused by (intros j; unfold used; by rewrite Hbm).
  assert (forall b, taken mem b -> taken mem' b) as Htk.
  { intros b Hb. destruct (taken_allocated b Hb) as (? & ? & ?). split; [done |]. by rewrite Hused. }
  assert (taken mem' a) as Hta by (destruct taken_new as (? & ? & ?); split; [done |]; by rewrite Hused).
  assert (indirect ip <> 0 -> indirect ip <> a) as Hia by (intros Hi; by apply (fresh_taken (indirect ip)), (ow_ind _ _ Hown)).
  split; [split | | | | | | |].
  - done.
  - rewrite Hind. intros Hi. by apply Htk, (ow_ind _ _ Hown).
  - intros k Hk. rewrite (Haddr k Hk), Hind. destruct (k =? bn).
    + intros Hnz. split; [done |]. destruct (decide (indirect ip = 0)); [lia |]. symmetry. auto.
    + intros Hnz. destruct (ow_blk _ _ Hown k Hk Hnz) as [Ht Hni]. split; [by apply Htk | done].
  - intros k k' Hk Hk'. rewrite (Haddr k Hk), (Haddr k' Hk').
    destruct (Z.eqb_spec k bn), (Z.eqb_spec k' bn); [lia | | |].
    + intros Hnz Heq. destruct (fresh_taken (block_addr mem ip k')) as [Hne _]; [apply (ow_blk _ _ Hown k' Hk'); lia |]. lia.
    + intros Hnz Heq. destruct (fresh_taken (block_addr mem ip k)) as [Hne _]; [by apply (ow_blk _ _ Hown k Hk) |]. lia.
    + by apply (ow_inj _ _ Hown).
  - destruct meta_allocated as [Hu Hz Hb Hl]. split; try done. intros n Hn. destruct (Hu n Hn). by rewrite Hused.
  - intros n Hn Hne. apply Hsame; [| done |].
    + intros Heq. apply fresh_O. by rewrite <- Heq.
    + destruct (decide (indirect ip = 0)) as [| Hi]; [by left | right]. intros Heq.
      destruct (ow_ind _ _ Hown Hi) as (_ & _ & HO). apply HO. by rewrite <- Heq.
  - intros j Hj Hu. rewrite Hused, allocated_used, Hu by done. apply orb_true_r.
  - intros k Hk. unfold nth_block. rewrite (Haddr k Hk). destruct (Z.eqb_spec k bn) as [-> | Hne].
    + rewrite (proj2 (Z.eqb_neq a 0)) by lia. by rewrite Hnone.
    + destruct (Z.eqb_spec (block_addr mem ip k) 0) as [| Hnz]; [done |].
      destruct (ow_blk _ _ Hown k Hk Hnz) as [Ht Hni]. destruct (fresh_taken _ Ht). apply Hsame; auto.
  - intros k [Hk Hnz]. split; [done |]. rewrite (Haddr k Hk). destruct (k =? bn); [lia | done].
  - done.
  - done.
Qed.

Lemma indirect_same : indirect ip <> 0 -> allocated a mem (indirect ip) = mem (indirect ip).
Proof. intros Hi. destruct (fresh_taken _ (ow_ind _ _ Hown Hi)). by apply allocated_same. Qed.

Lemma grow_direct bn : 0 <= bn < Z.of_nat NDIRECT -> block_addr mem ip bn = 0 ->
  let ip' := ip <| i_addrs ::= <[Z.to_nat bn := a]> |> in
  grows mem ip (allocated a mem) ip' /\ block_addr (allocated a mem) ip' bn = a.
Proof.
  intros Hbn Hnone ip'. pose proof (ow_len _ _ Hown) as Hlen.
  assert (indirect ip' = indirect ip) as Hind.
  { unfold indirect. cbn. rewrite list_lookup_insert_ne; [done | lia]. }
  assert (forall k, 0 <= k < MAXFILE -> block_addr (allocated a mem) ip' k = if k =? bn then a else block_addr mem ip k) as Haddr.
  { intros k Hk. unfold block_addr. rewrite Hind. destruct (Z.ltb_spec k (Z.of_nat NDIRECT)) as [Hlt | Hge].
    - cbn. destruct (Z.eqb_spec k bn) as [-> | Hne].
      + rewrite list_lookup_insert_eq by (rewrite Hlen; lia). done.
      + rewrite list_lookup_insert_ne by lia. done.
    - rewrite (proj2 (Z.eqb_neq k bn)) by lia. destruct (Z.eqb_spec (indirect ip) 0) as [| Hi]; [done |].
      by rewrite indirect_same. }
  split.
  - apply (grow_block _ ip' bn); try done.
    + unfold MAXFILE. split; [lia |]. assert (0 <= NINDIRECT) by done. lia.
    + cbn. by rewrite length_insert.
    + intros n Hna Hnb _. by apply allocated_same.
    + apply allocated_new.
  - rewrite Haddr by (unfold MAXFILE; assert (0 <= NINDIRECT) by done; lia). by rewrite Z.eqb_refl.
Qed.

Lemma get32_zero o : get32 zero_block o = 0.
Proof.
  unfold get32, zero_block. rewrite drop_replicate. generalize (1024 - o)%nat. intros n.
  do 4 (destruct n as [| n]; [done |]). done.
Qed.
(** An indirect block lists nothing yet. *)
Lemma grow_indirect : indirect ip = 0 ->
  let ip' := ip <| i_addrs ::= <[NDIRECT := a]> |> in
  grows mem ip (allocated a mem) ip' /\ indirect ip' = a /\
  (forall k, 0 <= k < MAXFILE -> block_addr (allocated a mem) ip' k = block_addr mem ip k).
Proof.
  intros Hnone ip'. pose proof (ow_len _ _ Hown) as Hlen.
  assert (indirect ip' = a) as Hind by (unfold indirect; cbn; rewrite list_lookup_insert_eq by lia; done).
  assert (forall k, 0 <= k < MAXFILE -> block_addr (allocated a mem) ip' k = block_addr mem ip k) as Haddr.
  { intros k Hk. unfold block_addr. rewrite Hind, Hnone. destruct (Z.ltb_spec k (Z.of_nat NDIRECT)) as [Hlt | Hge].
    - cbn. rewrite list_lookup_insert_ne by lia. done.
    - rewrite (proj2 (Z.eqb_neq a 0)), allocated_new by lia. apply get32_zero. }
  split; [| done]. split; [split | | | | | | |].
  - cbn. by rewrite length_insert.
  - intros _. rewrite Hind. apply taken_new.
  - intros k Hk. rewrite (Haddr k Hk). intros Hnz. destruct (ow_blk _ _ Hown k Hk Hnz) as [Ht _].
    split; [by apply taken_allocated |]. rewrite Hind. by apply fresh_taken.
  - intros k k' Hk Hk'. rewrite (Haddr k Hk), (Haddr k' Hk'). by apply (ow_inj _ _ Hown).
  - apply meta_allocated.
  - intros n Hn Hb. apply allocated_same; [| done]. intros Heq. apply fresh_O. by rewrite <- Heq.
  - intros j Hj Hu. rewrite allocated_used, Hu by done. apply orb_true_r.
  - intros k Hk. unfold nth_block. rewrite (Haddr k Hk). destruct (Z.eqb_spec (block_addr mem ip k) 0) as [| Hnz]; [done |].
    destruct (ow_blk _ _ Hown k Hk Hnz) as [Ht _]. destruct (fresh_taken _ Ht). by apply allocated_same.
  - intros k [Hk Hnz]. split; [done |]. by rewrite (Haddr k Hk).
  - done.
  - done.
Qed.

(** An entry of the indirect block. *)
Lemma grow_entry j : 0 <= j < NINDIRECT -> indirect ip <> 0 -> block_addr mem ip (Z.of_nat NDIRECT + j) = 0 ->
  let mem' := vset (indirect ip) (put32 (allocated a mem (indirect ip)) (4 * Z.to_nat j) a) (allocated a mem) in
  grows mem ip mem' ip /\ block_addr mem' ip (Z.of_nat NDIRECT + j) = a.
Proof.
  intros Hj Hi Hnone mem'. pose proof (ow_len _ _ Hown) as Hlen. change NINDIRECT with 256 in Hj.
  destruct (fresh_taken _ (ow_ind _ _ Hown Hi)) as [Hia Hib].
  assert (sb_size sb <= BPB) as Hsb by (destruct Hfits as (? & _); lia). assert (BPB < 2 ^ 32) as Hbpb by done.
  assert (mem' (indirect ip) = put32 (mem (indirect ip)) (4 * Z.to_nat j) a) as Hmi.
  { unfold mem'. rewrite vset_eq. by rewrite indirect_same. }
  assert (forall k, 0 <= k < MAXFILE -> block_addr mem' ip k = if k =? Z.of_nat NDIRECT + j then a else block_addr mem ip k) as Haddr.
  { intros k Hk. unfold block_addr. change MAXFILE with 268 in Hk. destruct (Z.ltb_spec k (Z.of_nat NDIRECT)) as [Hlt | Hge].
    - by rewrite (proj2 (Z.eqb_neq k _)) by lia.
    - rewrite (proj2 (Z.eqb_neq _ _) Hi), Hmi. destruct (Z.eqb_spec k (Z.of_nat NDIRECT + j)) as [-> | Hne].
      + replace (Z.of_nat NDIRECT + j - Z.of_nat NDIRECT) with j by lia.
        rewrite get32_put32 by (rewrite Hsize; lia). apply Z.mod_small. lia.
      + unfold put32. apply get32_patch_ne; rewrite le_put_length; [rewrite Hsize; lia | unfold NDIRECT in *; lia]. }
  split; [| rewrite Haddr by (change MAXFILE with 268; unfold NDIRECT; lia); by rewrite Z.eqb_refl].
  apply (grow_block mem' ip (Z.of_nat NDIRECT + j)); try done.
  - change MAXFILE with 268. unfold NDIRECT. lia.
  - by destruct ip.
  - intros n Hna Hnb [? | Hni]; [done |]. unfold mem'. rewrite vset_ne by done. by apply allocated_same.
  - unfold mem'. rewrite vset_ne by done. apply allocated_new.
  - unfold mem'. by rewrite vset_ne by done.
Qed.
End alloc.

(** ** [bmap] *)
Definition spare T (k : nat) : Prop := log_ok L0 /\ lh_n L0 + Z.of_nat (size T + k) < LOGBLOCKS.
Lemma spare_add T x k : spare T (S k) -> spare (T ∪ {[x]}) k.
Proof.
  intros [Hok Hs]. split; [done |]. assert (size (T ∪ {[x]}) <= S (size T))%nat; [| lia].
  destruct (decide (x ∈ T)) as [Hin | Hout].
  - replace (T ∪ {[x]}) with T by (apply set_eq; sets). lia.
  - rewrite size_union, size_singleton by sets. lia.
Qed.
Lemma spare_le T k j : (j <= k)%nat -> spare T k -> spare T j.
Proof. intros Hj [Hok Hs]. split; [done | lia]. Qed.

Lemma meta_reserved mem own : meta mem -> (forall n, n ∈ own.*2 -> used mem n = true) -> reserved mem own.
Proof.
  intros [Hu Hz Hb Hl] Ho. split; [by apply Hu |]. split; [by apply Hu |]. split; [done |]. intros n Hn. by apply Hu, Hl.
Qed.

Definition full mem : Prop := forall j, 0 <= j < sb_size sb -> used mem j = true.

(** The file system code is at inode [ip] in slot [i] of the table. *)
Definition at_inode T mem (i : nat) (ip : inode) (s0 s : kstate) : Prop :=
  in_txn T ∅ [] mem s /\ k_inodes s = <[i := ip]> (k_inodes s0) /\ (i < length (k_inodes s0))%nat /\
  fs_env s = fs_env s0 /\ k_sb s0 = sb /\ i_dev ip = dev.

Lemma at_inode_lookup T mem i ip s0 s : at_inode T mem i ip s0 s -> k_inodes s !! i = Some ip.
Proof. intros (_ & -> & Hi & _). by apply list_lookup_insert_eq. Qed.
Lemma at_inode_sb T mem i ip s0 s : at_inode T mem i ip s0 s -> k_sb s = sb.
Proof. intros (_ & _ & _ & He & Hsb & _). unfold fs_env in He. injection He as He _ _ _ _. congruence. Qed.
Lemma at_inode_step T T' mem mem' i ip s0 s s' : at_inode T mem i ip s0 s -> in_txn T' ∅ [] mem' s' -> fs_rest s' = fs_rest s ->
  at_inode T' mem' i ip s0 s'.
Proof.
  intros (_ & Hi & Hl & He & Hsb & Hd) Ht Hf. pose proof (f_equal fst Hf) as Hf1. pose proof (f_equal snd Hf) as Hf2. cbn [fst snd fs_rest] in Hf1, Hf2.
  split; [done |]. split; [congruence |]. split; [done |]. split; [congruence | done].
Qed.
Lemma at_inode_set T mem i ip f s0 s : at_inode T mem i ip s0 s -> i_dev (f ip) = dev ->
  at_inode T mem i (f ip) s0 (s <| k_inodes ::= alter f i |>).
Proof.
  intros (Ht & Hi & Hl & He & Hsb & Hd) Hf. split; [by apply txn_set_inode |]. split; [| done].
  cbn. rewrite Hi. apply list_eq. intros j. destruct (decide (j = i)) as [-> | Hne].
  - rewrite list_lookup_alter_eq, !list_lookup_insert_eq by done. done.
  - rewrite list_lookup_alter_ne, !list_lookup_insert_ne by done. done.
Qed.

(** What [bmap] may have logged. *)
Definition bmap_logs T mem (ip : inode) (bn : Z) : gset Z :=
  T ∪ {[bmap_block; indirect ip; block_addr mem ip bn]}.

Definition bmap_post T mem (i : nat) (ip : inode) (bn : Z) (s0 : kstate) (a : Z) (s : kstate) : Prop :=
  exists mem' ip' T', at_inode T' mem' i ip' s0 s /\ grows mem ip mem' ip' /\ T' ⊆ bmap_logs T mem' ip' bn /\
    (0 ∉ T -> 0 ∉ T') /\ a = block_addr mem' ip' bn /\ (a = 0 -> full mem').

Lemma bmap_direct T mem i ip bn s0 s :
  at_inode T mem i ip s0 s -> sb_fits -> owned mem ip -> meta mem -> 0 <= bn < Z.of_nat NDIRECT -> spare (T ∪ {[bmap_block]}) 0 ->
  performs (bmap i bn) [] (bmap_post T mem i ip bn s0) s.
Proof.
  intros Hs Hfits Hown Hmeta Hbn Hroom. unfold bmap. eapply performs_inode; [by eapply at_inode_lookup |].
  rewrite (proj2 (Z.ltb_lt _ _)) by lia. cbv zeta.
  assert (default 0 (i_addrs ip !! Z.to_nat bn) = block_addr mem ip bn) as ->.
  { unfold block_addr. by rewrite (proj2 (Z.ltb_lt _ _)) by lia. }
  destruct (Z.eqb_spec (block_addr mem ip bn) 0) as [Hnone | Hsome].
  2:{ apply performs_done. exists mem, ip, T. split; [done |]. split; [by apply grows_refl |]. split; [sets |]. done. }
  pose proof Hs as (Ht & _ & _ & _ & _ & Hd). rewrite Hd.
  eapply performs_seq; [apply (balloc_performs T [] mem s Ht); [by eapply at_inode_sb | done | | sets | done] |].
  { apply meta_reserved; [done |]. sets. }
  intros a s1 (F1 & [(Ha & Hfree & Hnb & H1) | (-> & Hfull & H1)]).
  - rewrite (proj2 (Z.eqb_neq a 0)) by lia.
    assert (forall n, length (mem n) = 1024%nat) as Hsize by (intros n; by eapply txn_size).
    destruct (grow_direct mem ip a Hfits Hsize Hown Hmeta Ha Hfree bn Hbn Hnone) as [Hg Hb].
    apply performs_upd; [done |]. apply performs_done. eexists _, _, _.
    split; [apply (at_inode_set _ _ i ip (fun ip => ip <| i_addrs ::= <[Z.to_nat bn := a]> |>)); [by eapply at_inode_step | done] |].
    split; [exact Hg |]. unfold bmap_logs. rewrite Hb. destruct Hfits as (_ & Hbr & _).
    split; [sets |]. split; [intros HT; apply not_elem_of_union; split; [apply not_elem_of_union; split; [done |] |];
      rewrite elem_of_singleton; lia |]. split; [done | lia].
  - change (0 =? 0) with true. cbn iota. apply performs_done. exists mem, ip, T.
    split; [by eapply at_inode_step |]. split; [by apply grows_refl |]. split; [sets |]. done.
Qed.

Lemma spare_sub T T' k : T ⊆ T' -> spare T' k -> spare T k.
Proof. intros Hsub [Hok Hs]. split; [done |]. apply subseteq_size in Hsub. lia. Qed.
Lemma not_zero_add T a : 0 < a -> sb_fits -> 0 ∉ T -> 0 ∉ T ∪ {[bmap_block]} ∪ {[a]}.
Proof.
  intros Ha (_ & Hb & _) HT. rewrite !not_elem_of_union, !not_elem_of_singleton. split; [split; [done |] |]; lia.
Qed.

(** The indirect block, allocated if there is none. *)
Lemma bmap_indirect T mem i ip s0 s :
  at_inode T mem i ip s0 s -> sb_fits -> owned mem ip -> meta mem -> spare (T ∪ {[bmap_block]}) 0 ->
  performs (if indirect ip =? 0 then
      let! addr := balloc (i_dev ip) in
      if addr =? 0 then ret 0 else
      upd_inode i (fun ip => ip <| i_addrs ::= <[NDIRECT := addr]> |>) ;;;
      ret addr
    else ret (indirect ip)) []
    (fun a s' => exists mem' ip' T', at_inode T' mem' i ip' s0 s' /\ grows mem ip mem' ip' /\ T' ⊆ T ∪ {[bmap_block]} ∪ {[a]} /\
       (0 ∉ T -> 0 ∉ T') /\ a = indirect ip' /\ (a = 0 -> full mem') /\
       (forall k, 0 <= k < MAXFILE -> block_addr mem' ip' k = block_addr mem ip k)) s.
Proof.
  intros Hs Hfits Hown Hmeta Hroom. destruct (Z.eqb_spec (indirect ip) 0) as [Hnone | Hsome].
  2:{ apply performs_done. exists mem, ip, T. split; [done |]. split; [by apply grows_refl |]. split; [sets |]. done. }
  pose proof Hs as (Ht & _ & _ & _ & _ & Hd). rewrite Hd.
  eapply performs_seq; [apply (balloc_performs T [] mem s Ht); [by eapply at_inode_sb | done | | sets | done] |].
  { apply meta_reserved; [done |]. sets. }
  intros a s1 (F1 & [(Ha & Hfree & Hnb & H1) | (-> & Hfull & H1)]).
  - rewrite (proj2 (Z.eqb_neq a 0)) by lia.
    assert (forall n, length (mem n) = 1024%nat) as Hsize by (intros n; by eapply txn_size).
    destruct (grow_indirect mem ip a Hfits Hsize Hown Hmeta Ha Hfree Hnone) as (Hg & Hi & Hb).
    apply performs_upd; [done |]. apply performs_done. eexists _, _, _.
    split; [apply (at_inode_set _ _ i ip (fun ip => ip <| i_addrs ::= <[NDIRECT := a]> |>)); [by eapply at_inode_step | done] |].
    split; [exact Hg |]. split; [done |]. split; [apply not_zero_add; [lia | done] |]. split; [done |]. split; [lia | exact Hb].
  - change (0 =? 0) with true. cbn iota. apply performs_done. exists mem, ip, T.
    split; [by eapply at_inode_step |]. split; [by apply grows_refl |]. split; [sets |]. done.
Qed.

(** A new entry of the locked indirect block [ind], in buffer [bp]. *)
Definition new_entry T mem (bp : nat) (ind j : Z) (s : kstate) (a : Z) (s' : kstate) : Prop :=
  fs_rest s' = fs_rest s /\
  ((0 < a < sb_size sb /\ used mem a = false /\
    in_txn (T ∪ {[bmap_block]} ∪ {[a]} ∪ {[ind]}) ∅ [(bp, ind)]
      (vset ind (put32 (allocated a mem ind) (4 * Z.to_nat j) a) (allocated a mem)) s') \/
   (a = 0 /\ full mem /\ in_txn T ∅ [(bp, ind)] mem s')).
Lemma new_entry_performs T mem bp ind j s :
  in_txn T ∅ [(bp, ind)] mem s -> k_sb s = sb -> sb_fits -> meta mem -> taken mem ind -> 0 <= j < NINDIRECT -> spare (T ∪ {[bmap_block]}) 1 ->
  performs (let! addr := balloc dev in
    if istrue addr then
      let! d := buf_data bp in
      set_buf_data bp (put32 d (4 * Z.to_nat j) addr) ;;;
      log_write bp ;;;
      ret addr
    else ret addr) [] (new_entry T mem bp ind j s) s.
Proof.
  intros H1 Hsb Hfits Hmeta (Hir & Hiu & HiO) Hj Hroom.
  assert (ind <> bmap_block) as Hib by (intros Heq; apply HiO; rewrite Heq; by apply (me_bmap _ Hmeta)).
  eapply performs_seq; [apply (balloc_performs T _ mem s H1 Hsb Hfits) |].
  { apply meta_reserved; [done |]. cbn. intros n ->%list_elem_of_singleton. done. }
  { cbn. sets. } { done. }
  intros a s2 (F2 & [(Ha & Hfree & Hnb & H2) | (-> & Hfull & H2)]).
  2:{ change (istrue 0) with false. cbn iota. apply performs_done. split; [done |]. by right. }
  unfold istrue. rewrite (proj2 (Z.eqb_neq a 0)) by lia. cbn [negb]. eapply txn_data; [exact H2 | by left |].
  eapply performs_seq; [apply (txn_store _ ∅ _ _ bp ind (put32 (allocated a mem ind) (4 * Z.to_nat j) a) s2 H2); [by left |] |].
  { unfold put32. rewrite patch_length; [by eapply txn_size |]. rewrite (txn_size _ _ _ _ _ _ H2), le_put_length.
    change NINDIRECT with 256 in Hj. lia. }
  intros [] s3 [H3 F3]. assert (BPB < 2 ^ 31) as Hbpb by done. pose proof Hfits as (Hsz & _).
  eapply performs_seq; [apply (txn_log_write _ _ _ _ bp ind s3 H3); [by left | | lia | intros Hla; by apply HiO, (me_log _ Hmeta)] |].
  { by apply (spare_add _ a 0). }
  intros [] s4 [H4 F4]. apply performs_done.
  replace ((∅ ∪ {[ind]}) ∖ {[ind]}) with (∅ : gset Z) in H4 by (apply set_eq; sets).
  split; [congruence |]. left. done.
Qed.

(** The block's entry of the indirect block, allocated if there is none. *)
Lemma bmap_entry T mem i ip j s0 s :
  at_inode T mem i ip s0 s -> sb_fits -> owned mem ip -> meta mem -> 0 <= j < NINDIRECT -> indirect ip <> 0 -> spare (T ∪ {[bmap_block]}) 1 ->
  performs (let! bp := bread dev (indirect ip) in
    let! d := buf_data bp in
    let addr := get32 d (4 * Z.to_nat j) in
    let! addr :=
      (if addr =? 0 then
         let! addr := balloc dev in
         if istrue addr then
           let! d := buf_data bp in
           set_buf_data bp (put32 d (4 * Z.to_nat j) addr) ;;;
           log_write bp ;;;
           ret addr
         else ret addr
       else ret addr) in
    brelse bp ;;;
    ret addr) [] (bmap_post T mem i ip (Z.of_nat NDIRECT + j) s0) s.
Proof.
  intros Hs Hfits Hown Hmeta Hj Hi Hroom. pose proof Hs as (Ht & _ & _ & _ & _ & Hd).
  assert (block_addr mem ip (Z.of_nat NDIRECT + j) = get32 (mem (indirect ip)) (4 * Z.to_nat j)) as Haddr.
  { unfold block_addr. rewrite (proj2 (Z.ltb_ge _ _)), (proj2 (Z.eqb_neq _ _) Hi) by lia. do 2 f_equal. lia. }
  eapply performs_seq; [apply (txn_bread T ∅ [] mem (indirect ip) s Ht); [sets |] |].
  { apply (spare_sub T (T ∪ {[bmap_block]})); [sets | by apply (spare_le _ 1); [cbn; lia |]]. }
  intros bp s1 [H1 F1]. eapply txn_data; [exact H1 | by left |]. cbv zeta. rewrite <- Haddr.
  destruct (Z.eqb_spec (block_addr mem ip (Z.of_nat NDIRECT + j)) 0) as [Hnone | Hsome].
  2:{ apply performs_value. eapply performs_seq; [apply (txn_brelse T ∅ [] mem bp _ s1 H1); sets |]. intros [] s2 [H2 F2].
      apply performs_done. exists mem, ip, T. split; [eapply at_inode_step; [done | done | congruence] |].
      split; [by apply grows_refl |]. split; [sets |]. done. }
  assert (forall n, length (mem n) = 1024%nat) as Hsize by (intros n; by eapply txn_size).
  eapply performs_seq; [apply (new_entry_performs T mem bp (indirect ip) j s1 H1); try done; [| by apply (ow_ind _ _ Hown)] |].
  { rewrite <- (at_inode_sb _ _ _ _ _ _ Hs). unfold fs_rest, fs_env in F1. congruence. }
  intros a s2 (F2 & [(Ha & Hfree & H2) | (-> & Hfull & H2)]).
  - destruct (grow_entry mem ip a Hfits Hsize Hown Hmeta Ha Hfree j Hj Hi Hnone) as [Hg Hb].
    eapply performs_seq; [apply (txn_brelse _ ∅ [] _ bp _ s2 H2); sets |]. intros [] s3 [H3 F3].
    apply performs_done. eexists _, ip, _. split; [eapply at_inode_step; [done | exact H3 | congruence] |].
    split; [exact Hg |]. unfold bmap_logs. rewrite Hb. split; [sets |]. split; [| split; [done | lia]].
    intros HT. apply not_elem_of_union. split; [by apply not_zero_add; [lia | |] |]. by apply not_elem_of_singleton.
  - eapply performs_seq; [apply (txn_brelse T ∅ [] mem bp _ s2 H2); sets |]. intros [] s3 [H3 F3].
    apply performs_done. exists mem, ip, T. split; [eapply at_inode_step; [done | exact H3 | congruence] |].
    split; [by apply grows_refl |]. split; [sets |]. done.
Qed.

Lemma bmap_txn T mem i ip bn s0 s :
  at_inode T mem i ip s0 s -> sb_fits -> owned mem ip -> meta mem -> 0 <= bn < MAXFILE -> spare (T ∪ {[bmap_block]}) 2 ->
  performs (bmap i bn) [] (bmap_post T mem i ip bn s0) s.
Proof.
  intros Hs Hfits Hown Hmeta Hbn Hroom. destruct (Z.ltb_spec bn (Z.of_nat NDIRECT)) as [Hlt | Hge].
  { apply bmap_direct; [done | done | done | done | lia |]. by apply (spare_le _ 2); [lia |]. }
  unfold bmap. eapply performs_inode; [by eapply at_inode_lookup |].
  rewrite (proj2 (Z.ltb_ge _ _)) by lia. cbv zeta. unfold MAXFILE in Hbn. rewrite (proj2 (Z.ltb_lt _ _)) by lia.
  change (default 0 (i_addrs ip !! NDIRECT)) with (indirect ip). pose proof Hs as (_ & _ & _ & _ & _ & Hd).
  eapply performs_seq; [apply (bmap_indirect T mem i ip s0 s Hs); try done; by apply (spare_le _ 2); [lia |] |].
  intros a s1 (mem1 & ip1 & T1 & H1 & Hg1 & HT1 & Hz1 & -> & Hfull1 & Hsame).
  destruct (Z.eqb_spec (indirect ip1) 0) as [Hnone | Hsome].
  { apply performs_done. exists mem1, ip1, T1. split; [done |]. split; [done |]. split; [unfold bmap_logs; sets |].
    split; [done |]. split; [| by intros; apply Hfull1]. unfold block_addr. by rewrite (proj2 (Z.ltb_ge _ _)), Hnone by lia. }
  rewrite Hd. eapply performs_mono; [apply (bmap_entry T1 mem1 i ip1 (bn - Z.of_nat NDIRECT) s0 s1 H1 Hfits) |].
  { apply (gr_owned _ _ _ _ Hg1). } { apply (gr_meta _ _ _ _ Hg1). } { lia. } { done. }
  { apply (spare_sub _ (T ∪ {[bmap_block]} ∪ {[indirect ip1]})); [| by apply spare_add].
    apply union_least; [exact HT1 | clear; set_solver]. }
  intros a s2 (mem2 & ip2 & T2 & H2 & Hg2 & HT2 & Hz2 & -> & Hfull2).
  replace (Z.of_nat NDIRECT + (bn - Z.of_nat NDIRECT)) with bn in * by lia.
  exists mem2, ip2, T2. split; [done |]. split; [by eapply grows_trans |]. split; [| auto].
  etrans; [exact HT2 |]. unfold bmap_logs. rewrite (gr_ind _ _ _ _ Hg2 Hsome).
  apply union_least; [etrans; [exact HT1 |] |]; clear; set_solver.
Qed.

(** ** Changing the contents *)

(** Replacing part of one block replaces that part of the whole. *)
Lemma blocks_patch (l : list (list Z)) q r b d :
  Forall (fun x => length x = 1024%nat) l -> l !! q = Some b -> (r + length d <= 1024)%nat ->
  concat (<[q := patch b r d]> l) = patch (concat l) (1024 * q + r) d.
Proof.
  intros Hl. revert q. induction l as [| x l IH]; intros q Hq Hrd; [done |].
  apply Forall_cons in Hl as [Hx Hl]. destruct q as [| q]; cbn [concat list_insert].
  - injection Hq as ->. replace (1024 * 0 + r)%nat with r by lia. cbn. unfold patch.
    rewrite take_app_le by lia. rewrite drop_app_le by lia. by rewrite <- !app_assoc.
  - change (<[S q := patch b r d]> (x :: l)) with (x :: <[q := patch b r d]> l). cbn [concat].
    rewrite (IH Hl q Hq Hrd). unfold patch. replace (1024 * S q + r)%nat with (length x + (1024 * q + r))%nat by lia.
    replace (length x + (1024 * q + r) + length d)%nat with (length x + (1024 * q + r + length d))%nat by lia.
    rewrite take_app_add, drop_app_add. by rewrite <- app_assoc.
Qed.

(** [mem'] differs from [mem] in one block of the file, which is changed from byte [r]
    of block [bn] on. *)
Lemma extent_patch mem mem' (ip : inode) bn r d :
  (forall n, length (mem n) = 1024%nat) -> 0 <= bn < MAXFILE -> 0 <= r -> (Z.to_nat r + length d <= 1024)%nat ->
  (forall k, 0 <= k < MAXFILE -> nth_block mem' ip k = if k =? bn then patch (nth_block mem ip bn) (Z.to_nat r) d else nth_block mem ip k) ->
  extent mem' ip = patch (extent mem ip) (Z.to_nat (bn * BSIZE + r)) d.
Proof.
  intros Hsize Hbn Hr Hd Hblk. unfold extent.
  replace (Z.to_nat (bn * BSIZE + r)) with (1024 * Z.to_nat bn + Z.to_nat r)%nat by (unfold BSIZE; lia).
  rewrite <- (blocks_patch _ _ _ (nth_block mem ip bn)); [| by apply extent_blocks | | done].
  - f_equal. apply list_eq. intros k. rewrite list_lookup_fmap. destruct (decide (k < Z.to_nat MAXFILE)%nat) as [Hk | Hk].
    + rewrite lookup_seq_lt by done. cbn [fmap option_fmap option_map Nat.add]. rewrite Hblk by lia.
      destruct (Z.eqb_spec (Z.of_nat k) bn) as [Heq | Hne].
      * rewrite <- Heq, Nat2Z.id, list_lookup_insert_eq by (by rewrite length_fmap, length_seq). done.
      * rewrite list_lookup_insert_ne, list_lookup_fmap, lookup_seq_lt by lia. done.
    + rewrite lookup_seq_ge by lia. symmetry. apply lookup_ge_None_2. rewrite length_insert, length_fmap, length_seq. lia.
  - rewrite list_lookup_fmap, lookup_seq_lt by lia. cbn. by rewrite Z2Nat.id by lia.
Qed.

(** A block of the file, rewritten. *)
Lemma write_block mem (ip : inode) bn d :
  owned mem ip -> meta mem -> 0 <= bn < MAXFILE -> block_addr mem ip bn <> 0 -> length d = 1024%nat ->
  let mem' := vset (block_addr mem ip bn) d mem in
  owned mem' ip /\ meta mem' /\ (forall n, n ∈ O -> mem' n = mem n) /\ (forall j, used mem' j = used mem j) /\
  (forall k, block_addr mem' ip k = block_addr mem ip k) /\
  (forall k, 0 <= k < MAXFILE -> nth_block mem' ip k = if k =? bn then d else nth_block mem ip k).
Proof.
  intros Hown Hmeta Hbn Hb Hd mem'. destruct (ow_blk _ _ Hown bn Hbn Hb) as ((Hr & Hu & HO) & Hni).
  assert (forall n, n ∈ O -> mem' n = mem n) as Hsame by (intros n Hn; apply vset_ne; intros ->; done).
  assert (forall j, used mem' j = used mem j) as Hused by (intros j; unfold used; rewrite Hsame by apply (me_bmap _ Hmeta); done).
  assert (forall k, block_addr mem' ip k = block_addr mem ip k) as Haddr.
  { intros k. unfold block_addr. destruct (k <? _); [done |]. destruct (_ =? 0); [done |]. unfold mem'.
    by rewrite vset_ne by (intros ?; congruence). }
  assert (forall b, taken mem b -> taken mem' b) as Htk by (intros b (? & ? & ?); split; [done |]; by rewrite Hused).
  split; [| split; [| split; [done | split; [done | split; [done |]]]]].
  - destruct Hown as [Hl Hi Hk Hj]. split; [done | auto | |].
    + intros k Hkr. rewrite Haddr. intros Hnz. destruct (Hk k Hkr Hnz). auto.
    + intros k k' Hkr Hkr'. rewrite !Haddr. auto.
  - destruct Hmeta as [Hmu Hz Hbm Hl]. split; try done. intros n Hn. rewrite Hused. auto.
  - intros k Hk. unfold nth_block. rewrite Haddr. destruct (Z.eqb_spec k bn) as [-> | Hne].
    + rewrite (proj2 (Z.eqb_neq _ _) Hb). unfold mem'. apply vset_eq.
    + destruct (Z.eqb_spec (block_addr mem ip k) 0) as [| Hnz]; [done |]. unfold mem'. apply vset_ne.
      intros Heq. apply Hne. by apply (ow_inj _ _ Hown).
Qed.

(** ** [writei]

    Where the bytes come from: a variable of the kernel, or user memory.  [at_ n] is
    the source after [n] of its [N] bytes [data], in a state in which [D] holds. *)
Record source (N : Z) (at_ : Z -> ksrc) (data : list Z) (D : kstate -> Prop) : Prop := {
  so_len : Z.of_nat (length data) = N;
  so_add n m : 0 <= n -> 0 <= m -> n + m <= N -> ksrc_add (at_ n) m = at_ (n + m);
  so_stable s s' : D s -> fs_env s' = fs_env s -> D s';
  so_copy n m T U own mem s : 0 <= n -> 0 <= m -> n + m <= N -> in_txn T U own mem s -> D s ->
    forall e, either_copyin (at_ n) m (mkworld s e) =
      Ret (0, take (Z.to_nat m) (drop (Z.to_nat n) data)) (mkworld (sync s) e)
}.

Lemma txn_proc T U own mem s e : in_txn T U own mem s -> curproc (mkworld s e) = Ret p (mkworld (sync s) e).
Proof. intros (L & dirty & Hs & _). by eapply bstate_proc. Qed.
(** A variable. *)
Lemma var_source l : source (Z.of_nat (length l)) (fun n => SVar (drop (Z.to_nat n) l)) l (fun _ => True).
Proof.
  split; [done | | done |].
  - intros n m Hn Hm _. cbn. rewrite drop_drop. do 2 f_equal. lia.
  - intros n m T U own mem s Hn Hm _ Hs _ e. unfold either_copyin. by rewrite (bind_ret _ _ _ _ _ (txn_proc _ _ _ _ _ e Hs)).
Qed.
(** User memory. *)
Lemma user_source m0 root tbl va N :
  pt_wf m0 root tbl -> 0 <= va < MAXVA -> 0 <= N -> (forall i, 0 <= i < N -> user_ok false m0 tbl (va + i)) ->
  source N (fun n => SUser (va + n)) (ubytes m0 tbl va (Z.to_nat N))
    (fun s => (exists pr, k_procs s !! p = Some pr /\ p_pagetable pr = root) /\ k_mem s = m0).
Proof.
  intros Hwf Hva HN Hu. split.
  - unfold ubytes. rewrite length_fmap, length_seq. lia.
  - intros n m Hn Hm Hnm. unfold ksrc_add. rewrite u64_small; [f_equal; lia |]. assert (MAXVA < 2 ^ 63) by done.
    destruct (decide (N = 0)); [lia |]. destruct (Hu (N - 1)); lia.
  - intros s s' ((pr & Hp & Hr) & Hm) Hf. unfold fs_env in Hf. injection Hf as Hsb Hmem Hfl Hprocs _. split; [| congruence].
    assert (((fun pr => (p_pagetable pr, p_sz pr)) <$> k_procs s') !! p = Some (root, p_sz pr)) as Hp'.
    { rewrite Hprocs, list_lookup_fmap, Hp. cbn. by rewrite Hr. }
    rewrite list_lookup_fmap in Hp'. destruct (k_procs s' !! p) as [pr' |]; [| done]. injection Hp' as ? ?. by exists pr'.
  - intros n m T U own mem s Hn Hm Hnm Hs ((pr & Hp & Hr) & Hmem) e. unfold either_copyin.
    rewrite (bind_ret _ _ _ _ _ (txn_proc _ _ _ _ _ e Hs)), (bind_ret _ _ _ _ _ (get_proc_eq (sync s) e p pr Hp)), Hr.
    unfold copyin. rewrite (copyin_loop_eq root tbl (sync s) e); [| lia | by rewrite <- Hmem in Hwf | lia | done |].
    2:{ intros i Hi. change (k_mem (sync s)) with (k_mem s). rewrite Hmem, <- Z.add_assoc. apply Hu. lia. }
    change (k_mem (sync s)) with (k_mem s). rewrite Hmem. do 2 f_equal. cbn [app].
    replace (Z.to_nat N) with (Z.to_nat n + (Z.to_nat m + Z.to_nat (N - n - m)))%nat by lia. rewrite !ubytes_app.
    rewrite drop_app_length', take_app_length'; [f_equal; lia | |]; unfold ubytes; rewrite length_fmap, length_seq; lia.
Qed.

Lemma patch_app (E : list Z) o w d : (o + length w <= length E)%nat -> patch (patch E o w) (o + length w) d = patch E o (w ++ d).
Proof.
  intros Hl. assert (length (take o E) = o) as Ht by (rewrite length_take; lia). unfold patch at 1.
  assert (take (o + length w) (patch E o w) = take o E ++ w) as ->.
  { unfold patch. rewrite app_assoc. apply take_app_length'. rewrite length_app. lia. }
  assert (drop (o + length w + length d) (patch E o w) = drop (o + length (w ++ d)) E) as ->.
  { unfold patch. rewrite app_assoc, drop_app_ge by (rewrite length_app; lia). rewrite length_app, drop_drop, length_app, Ht.
    f_equal. lia. }
  unfold patch. by rewrite <- !app_assoc.
Qed.

(** The file after [w] was written at [off]: nothing else changed. *)
Record wrote (off : Z) (w : list Z) mem (ip : inode) mem' (ip' : inode) : Prop := {
  wr_owned : owned mem' ip';
  wr_meta : meta mem';
  wr_other n : n ∈ O -> n <> bmap_block -> mem' n = mem n;
  wr_used j : 0 <= j < BPB -> used mem j = true -> used mem' j = true;
  wr_extent : extent mem' ip' = patch (extent mem ip) (Z.to_nat off) w;
  wr_mapped k : mapped mem ip k -> mapped mem' ip' k;
  wr_new x : off <= x < off + Z.of_nat (length w) -> mapped mem' ip' (x / BSIZE);
  wr_ip : ip' = ip <| i_addrs := i_addrs ip' |>
}.
Lemma grows_extent mem ip mem' ip' : grows mem ip mem' ip' -> extent mem' ip' = extent mem ip.
Proof.
  intros Hg. unfold extent. f_equal. apply list_fmap_ext. intros i k [-> Hk]%lookup_seq. apply (gr_block _ _ _ _ Hg). lia.
Qed.
Lemma wrote_grows off w mem ip m1 i1 m2 i2 : wrote off w mem ip m1 i1 -> grows m1 i1 m2 i2 -> wrote off w mem ip m2 i2.
Proof.
  intros [Ho Hm Hn Hu He Hp Hw Hi] Hg. split.
  - apply (gr_owned _ _ _ _ Hg).
  - apply (gr_meta _ _ _ _ Hg).
  - intros n HnO Hnb. rewrite (gr_other _ _ _ _ Hg) by done. auto.
  - intros j Hj Huj. apply (gr_used _ _ _ _ Hg); auto.
  - by rewrite (grows_extent _ _ _ _ Hg).
  - intros k Hk. by apply (gr_mapped _ _ _ _ Hg), Hp.
  - intros x Hx. by apply (gr_mapped _ _ _ _ Hg), Hw.
  - rewrite (gr_ip _ _ _ _ Hg), Hi. done.
Qed.
Lemma wrote_nil off mem ip : owned mem ip -> meta mem -> 0 <= off -> wrote off [] mem ip mem ip.
Proof.
  intros Ho Hm Hoff. split; try done.
  - unfold patch. cbn. rewrite Nat.add_0_r. by rewrite take_drop.
  - intros x Hx. cbn in Hx. lia.
  - by destruct ip.
Qed.
(** The next bytes, within a block. *)
Lemma wrote_more off w d mem ip m1 i1 :
  let bn := (off + Z.of_nat (length w)) / BSIZE in let r := (off + Z.of_nat (length w)) mod BSIZE in
  wrote off w mem ip m1 i1 -> (forall n, length (mem n) = 1024%nat) -> (forall n, length (m1 n) = 1024%nat) ->
  0 <= off -> 0 <= bn < MAXFILE -> mapped m1 i1 bn -> r + Z.of_nat (length d) <= BSIZE ->
  let m2 := vset (block_addr m1 i1 bn) (patch (m1 (block_addr m1 i1 bn)) (Z.to_nat r) d) m1 in
  wrote off (w ++ d) mem ip m2 i1.
Proof.
  intros bn r [Ho Hm Hn Hu He Hp Hw Hi] Hsize Hsize1 Hoff Hbn Hmap Hr m2. pose proof Hmap as [_ Hnz].
  pose proof (Z.mod_pos_bound (off + Z.of_nat (length w)) BSIZE ltac:(done)) as Hrb. fold r in Hrb.
  pose proof (Z.div_mod (off + Z.of_nat (length w)) BSIZE ltac:(done)) as Hdm. fold bn r in Hdm.
  assert (length (patch (m1 (block_addr m1 i1 bn)) (Z.to_nat r) d) = 1024%nat) as Hlen.
  { rewrite patch_length; rewrite Hsize1; [done |]. unfold BSIZE in *. lia. }
  destruct (write_block m1 i1 bn _ Ho Hm Hbn Hnz Hlen) as (Ho2 & Hm2 & Hn2 & Hu2 & Ha2 & Hb2). fold m2 in Ho2, Hm2, Hn2, Hu2, Ha2, Hb2.
  assert (forall k, mapped m1 i1 k -> mapped m2 i1 k) as Hp2 by (intros k [? ?]; split; [done |]; by rewrite Ha2).
  split; try done.
  - intros n HnO Hnb. rewrite Hn2 by done. auto.
  - intros j Hj Huj. rewrite Hu2. auto.
  - rewrite (extent_patch m1 m2 i1 bn r d Hsize1 Hbn ltac:(lia)) by
      (first [unfold BSIZE in *; lia | intros k Hk; rewrite (mapped_block m1 i1 bn Hmap); by apply Hb2]).
    rewrite He. replace (bn * BSIZE + r) with (off + Z.of_nat (length w)) by lia.
    replace (Z.to_nat (off + Z.of_nat (length w))) with (Z.to_nat off + length w)%nat by lia. apply patch_app.
    pose proof (length_extent mem ip Hsize) as Hext. unfold BSIZE in *. lia.
  - auto.
  - intros x Hx. rewrite length_app in Hx. apply Hp2. destruct (decide (x < off + Z.of_nat (length w))) as [Hlt | Hge].
    + apply Hw. lia.
    + assert (x / BSIZE = bn) as ->; [| done]. symmetry. apply (Z.div_unique x BSIZE bn (x - bn * BSIZE)); lia.
Qed.

(** What [writei] may have logged besides [T0]: the bitmap, the indirect block and [j]
    blocks of the file. *)
Definition budget (T0 : gset Z) (j : nat) T (ip : inode) : Prop :=
  0 ∉ T /\ exists B : gset Z, (size B <= j)%nat /\ T ⊆ T0 ∪ {[bmap_block; indirect ip]} ∪ B.
Lemma size_union_le (X Y : gset Z) : (size (X ∪ Y) <= size X + size Y)%nat.
Proof. rewrite size_union_alt. pose proof (subseteq_size (Y ∖ X) Y ltac:(sets)). lia. Qed.
Lemma spare_more T A j k : (size A <= j)%nat -> spare T (k + j) -> spare (T ∪ A) k.
Proof. intros Hj [Hok Hs]. split; [done |]. pose proof (size_union_le T A). lia. Qed.
Lemma budget_spare T0 j T ip k : budget T0 j T ip -> spare T0 (k + j + 2) -> spare (T ∪ {[bmap_block]}) k.
Proof.
  intros (_ & B & HB & HT) Hs. apply (spare_sub _ (T0 ∪ {[bmap_block; indirect ip]} ∪ B)).
  - apply union_least; [done |]. clear. set_solver.
  - apply (spare_more _ B j k HB), (spare_more _ _ 2); [| done].
    etrans; [apply size_union_le |]. by rewrite !size_singleton.
Qed.
Lemma budget_next T0 j T ip T' ip' mem' bn :
  budget T0 j T ip -> (indirect ip <> 0 -> indirect ip' = indirect ip) -> T' ⊆ bmap_logs T mem' ip' bn -> 0 ∉ T' ->
  budget T0 (S j) T' ip'.
Proof.
  intros (Hz & B & HB & HT) Hi HT' Hz'. split; [done |].
  exists (B ∪ {[block_addr mem' ip' bn]}). split.
  - etrans; [apply size_union_le |]. rewrite size_singleton. lia.
  - intros x Hx. unfold bmap_logs in HT'. destruct (decide (x = block_addr mem' ip' bn)) as [-> | Hne]; [sets |].
    assert (x ∈ T ∪ {[bmap_block; indirect ip']}) as Hx' by sets.
    destruct (decide (x ∈ T)) as [HxT |]; [| sets].
    destruct (decide (x = indirect ip)) as [-> |]; [| sets].
    destruct (decide (indirect ip = 0)) as [Hi0 | Hi0]; [by rewrite Hi0 in HxT |]. rewrite <- Hi by done. sets.
Qed.

Section writei.
Context (N : Z) (at_ : Z -> ksrc) (data : list Z) (D : kstate -> Prop) (Hsource : source N at_ data D).
Context (T0 : gset Z) (i : nat) (ip0 : inode) (mem0 : view) (s0 : kstate) (off0 : Z).
Hypothesis (Hfits : sb_fits) (Hoff0 : 0 <= off0) (Hsize0 : forall n, length (mem0 n) = 1024%nat).

(** [w] was written so far, in [j] iterations. *)
Definition writing (j : nat) (w : list Z) T mem (ip : inode) (s : kstate) : Prop :=
  at_inode T mem i ip s0 s /\ wrote off0 w mem0 ip0 mem ip /\ budget T0 j T ip /\ D s.

Lemma at_inode_size T mem ip s n : at_inode T mem i ip s0 s -> length (mem n) = 1024%nat.
Proof. intros (Ht & _). by eapply txn_size. Qed.
Lemma writing_stable s s' : D s -> fs_rest s' = fs_rest s -> D s'.
Proof. intros HD Hf. eapply so_stable; [done | exact HD |]. exact (f_equal snd Hf). Qed.
Lemma env_stable s s' : D s -> fs_env s = fs_env s0 -> fs_env s' = fs_env s0 -> D s'.
Proof. intros HD He He'. eapply so_stable; [done | exact HD |]. congruence. Qed.
Lemma taken_logs mem a : meta mem -> taken mem a -> 0 <= a < 2 ^ 31 /\ ~ log_area L0 a.
Proof.
  intros Hm (Ha & _ & HO). pose proof Hfits as (Hsz & _). assert (BPB < 2 ^ 31) by done. split; [lia |].
  intros Hl. by apply HO, (me_log _ Hm).
Qed.

(** The block [bp] of the file is locked: it is changed, logged and released. *)
Lemma write_locked {B} w T mem ip bp m (e2 : K B) (k : K B) j W Q s1 s :
  let tot := Z.of_nat (length w) in let off := off0 + tot in let a := block_addr mem ip (off / BSIZE) in
  wrote off0 w mem0 ip0 mem ip -> at_inode T mem i ip s0 s1 -> mapped mem ip (off / BSIZE) ->
  in_txn T ∅ [(bp, a)] mem s -> fs_rest s = fs_rest s1 -> D s -> budget T0 j (T ∪ {[a]}) ip -> room T [] ->
  0 < m -> off mod BSIZE + m <= BSIZE -> tot + m <= N ->
  let bytes := take (Z.to_nat m) (drop (length w) data) in
  (forall s', writing j (w ++ bytes) (T ∪ {[a]}) (vset a (patch (mem a) (Z.to_nat (off mod BSIZE)) bytes) mem) ip s' -> performs k W Q s') ->
  performs (let! r := either_copyin (at_ tot) m in
    let! d := buf_data bp in
    set_buf_data bp (patch d (Z.to_nat (off mod BSIZE)) (snd r)) ;;;
    if fst r =? -1 then e2 else log_write bp ;;; brelse bp ;;; k) W Q s.
Proof.
  intros tot off a Hw Hat Hmap Hs Hf HD Hbud Hroom Hm Hend Htot bytes Hk.
  pose proof (so_len _ _ _ _ Hsource) as HN.
  assert (Z.of_nat (length bytes) = m) as Hlb by (unfold bytes; rewrite length_take, length_drop; lia).
  pose proof (Z.mod_pos_bound off BSIZE ltac:(done)) as Hmod.
  destruct Hmap as [Hbn Hnz] eqn:Hmap'. clear Hmap'.
  destruct (ow_blk _ _ (wr_owned _ _ _ _ _ _ Hw) _ Hbn Hnz) as [Htk _].
  destruct (taken_logs mem a (wr_meta _ _ _ _ _ _ Hw) Htk) as [Har Hal].
  eapply performs_to.
  { intros e. rewrite (bind_ret _ _ _ _ _ (so_copy _ _ _ _ Hsource tot m T ∅ _ mem s ltac:(lia) ltac:(lia) Htot Hs HD e)). reflexivity. }
  { done. }
  replace (Z.to_nat tot) with (length w) by lia. fold bytes. cbn [fst snd].
  eapply txn_data; [by apply txn_sync | by left |].
  eapply performs_seq; [apply (txn_store T ∅ _ mem bp a _ (sync s) (txn_sync _ _ _ _ _ Hs)); [by left |] |].
  { rewrite patch_length; [by eapply txn_size |]. rewrite (txn_size _ _ _ _ _ a Hs). unfold BSIZE in *. lia. }
  intros [] s2 [H2 F2]. change (0 =? -1) with false. cbn iota.
  eapply performs_seq; [apply (txn_log_write T _ _ _ bp a s2 H2); [by left | done | done | done] |]. intros [] s3 [H3 F3].
  replace ((∅ ∪ {[a]}) ∖ {[a]}) with (∅ : gset Z) in H3 by (apply set_eq; sets).
  eapply performs_seq; [apply (txn_brelse _ ∅ [] _ bp a s3 H3); sets |]. intros [] s4 [H4 F4].
  assert (fs_rest s4 = fs_rest s1) as F by (change (fs_rest (sync s)) with (fs_rest s) in F2; congruence).
  apply Hk. split; [by eapply at_inode_step |]. split; [| split; [done |]].
  - apply (wrote_more off0 w bytes mem0 ip0 mem ip Hw); try done; [intros n; by eapply at_inode_size | rewrite Hlb; done].
  - eapply writing_stable; [exact HD | congruence].
Qed.

(** One block of the loop. *)
Lemma write_step {B} w T mem ip m (e1 : K B) (e2 : nat -> K B) (k : K B) j W Q s :
  let tot := Z.of_nat (length w) in let off := off0 + tot in
  writing j w T mem ip s -> spare T0 (j + 4) -> off < MAXFILE * BSIZE ->
  0 < m -> off mod BSIZE + m <= BSIZE -> tot + m <= N ->
  (forall T' mem' ip' s', writing (S j) w T' mem' ip' s' -> full mem' -> performs e1 W Q s') ->
  (forall T' mem' ip' s', writing (S j) (w ++ take (Z.to_nat m) (drop (length w) data)) T' mem' ip' s' -> performs k W Q s') ->
  performs (let! addr := bmap i (off / BSIZE) in
    if addr =? 0 then e1 else
    let! ip := get_inode i in
    let! bp := bread (i_dev ip) addr in
    let! r := either_copyin (at_ tot) m in
    let! d := buf_data bp in
    set_buf_data bp (patch d (Z.to_nat (off mod BSIZE)) (snd r)) ;;;
    if fst r =? -1 then e2 bp else log_write bp ;;; brelse bp ;;; k) W Q s.
Proof.
  intros tot off (Hat & Hw & Hbud & HD) Hspare Hoff Hm Hend Htot Hfull Hk.
  assert (0 <= off / BSIZE < MAXFILE) as Hbn.
  { split; [apply Z.div_pos; [lia | done] | apply Z.div_lt_upper_bound; [done |]; lia]. }
  eapply performs_seq.
  { apply (bmap_txn T mem i ip (off / BSIZE) s0 s Hat Hfits); [apply Hw | apply Hw | done |].
    apply (budget_spare T0 j T ip 2 Hbud). by replace (2 + j + 2)%nat with (j + 4)%nat by lia. }
  intros a s1 (mem1 & ip1 & T1 & Hat1 & Hg & HT1 & Hz1 & -> & Hf1).
  pose proof (wrote_grows _ _ _ _ _ _ _ _ Hw Hg) as Hw1.
  pose proof Hat as (_ & _ & _ & He & _). pose proof Hat1 as (Ht1 & _ & _ & He1 & _ & Hd1).
  assert (D s1) as HD1 by (by eapply env_stable). pose proof Hbud as (Hz & _).
  assert (budget T0 (S j) T1 ip1) as Hbud1.
  { eapply (budget_next T0 j T ip); [done | apply Hg | exact HT1 | auto]. }
  destruct (Z.eqb_spec (block_addr mem1 ip1 (off / BSIZE)) 0) as [Hnone | Hsome].
  { apply (Hfull T1 mem1 ip1); [done | auto]. }
  set (a := block_addr mem1 ip1 (off / BSIZE)) in *.
  assert (spare (T1 ∪ {[bmap_block]}) 0) as Hsp by (apply (budget_spare T0 (S j) T1 ip1 0 Hbud1); by apply (spare_le _ (j + 4)); [lia |]).
  assert (room T1 []) as Hroom by (apply (spare_sub T1 (T1 ∪ {[bmap_block]}) 0); [sets | done]).
  eapply performs_inode; [by eapply at_inode_lookup |]. rewrite Hd1.
  eapply performs_seq; [apply (txn_bread T1 ∅ [] mem1 a s1 Ht1); [sets | done] |]. intros bp s2 [H2 F2].
  apply (write_locked w T1 mem1 ip1 bp m (e2 bp) k (S j) W Q s1 s2); try done.
  - eapply writing_stable; [exact HD1 | done].
  - eapply (budget_next T0 j T ip _ ip1 mem1 (off / BSIZE)); [done | apply Hg | | ].
    + apply union_least; [exact HT1 |]. unfold bmap_logs. fold a. clear. set_solver.
    + apply not_elem_of_union. split; [auto | by apply not_elem_of_singleton].
  - intros s' Hs'. by eapply Hk.
Qed.

Lemma budget_le T j j' ip : (j <= j')%nat -> budget T0 j T ip -> budget T0 j' T ip.
Proof. intros Hj (Hz & B & HB & HT). split; [done |]. exists B. split; [lia | done]. Qed.
Lemma writing_le j j' w T mem ip s : (j <= j')%nat -> writing j w T mem ip s -> writing j' w T mem ip s.
Proof. intros Hj (Hat & Hw & Hb & HD). split; [done |]. split; [done |]. split; [by eapply budget_le | done]. Qed.

(** The loop, when the rest of the range meets [c] blocks. *)
Lemma writei_loop_performs fuel : forall c j tot T mem ip s,
  writing j (take (Z.to_nat tot) data) T mem ip s -> 0 <= tot <= N -> off0 + N <= MAXFILE * BSIZE ->
  tot = N \/ (off0 + tot) mod BSIZE + (N - tot) <= BSIZE * Z.of_nat c -> (c <= fuel)%nat -> spare T0 (j + c + 3) ->
  performs (writei_loop fuel i (at_ tot) (off0 + tot) N tot) [] (fun r s' => exists k T' mem' ip',
    0 <= k <= N /\ r = (k, off0 + k) /\ writing (j + c) (take (Z.to_nat k) data) T' mem' ip' s' /\ (k < N -> full mem')) s.
Proof.
  pose proof (so_len _ _ _ _ Hsource) as HN.
  assert (MAXFILE * BSIZE < 2 ^ 31) as Hbig by done.
  induction fuel as [| fuel IH]; intros c j tot T mem ip s Hs Htot Hend Hc Hfuel Hspare; cbn [writei_loop];
    pose proof (Z.mod_pos_bound (off0 + tot) BSIZE ltac:(done)) as Hmod.
  { apply performs_done. exists tot, T, mem, ip. split; [done |]. split; [done |].
    split; [by eapply writing_le; [| exact Hs]; lia | unfold BSIZE in *; lia]. }
  destruct (Z.ltb_spec tot N) as [Hlt | Hge].
  2:{ apply performs_done. exists tot, T, mem, ip. split; [done |]. split; [done |]. split; [by eapply writing_le; [| exact Hs]; lia | lia]. }
  destruct c as [| c]; [lia |].
  set (m := Z.min (N - tot) (BSIZE - (off0 + tot) mod BSIZE)).
  set (w := take (Z.to_nat tot) data) in *.
  assert (length w = Z.to_nat tot) as Hlw by (unfold w; rewrite length_take; lia).
  assert (Z.of_nat (length w) = tot) as Hlw' by lia. rewrite <- Hlw'.
  apply (write_step w T mem ip m (ret (Z.of_nat (length w), off0 + Z.of_nat (length w)))
    (fun bp => brelse bp ;;; ret (Z.of_nat (length w), off0 + Z.of_nat (length w))) _ j [] _ s Hs); rewrite ?Hlw'; try lia.
  - by apply (spare_le _ (j + S c + 3)); [lia |].
  - intros T1 mem1 ip1 s1 H1 Hf1. apply performs_done. exists tot, T1, mem1, ip1. split; [done |]. split; [done |].
    split; [eapply writing_le; [| exact H1]; lia | done].
  - intros T1 mem1 ip1 s1 H1. rewrite u32_small, (so_add _ _ _ _ Hsource) by lia. rewrite Hlw, <- Z.add_assoc in *.
    assert (w ++ take (Z.to_nat m) (drop (Z.to_nat tot) data) = take (Z.to_nat (tot + m)) data) as Hw'.
    { unfold w. rewrite take_take_drop. f_equal. lia. }
    rewrite Hw' in H1.
    eapply performs_mono; [apply (IH c (S j) (tot + m) T1 mem1 ip1 s1 H1); try lia |].
    + destruct (Z.eq_dec m (N - tot)) as [Hm | Hm]; [left; lia | right].
      assert (m = BSIZE - (off0 + tot) mod BSIZE) as Hm' by lia. rewrite Z.add_assoc.
      assert ((off0 + tot + m) mod BSIZE = 0) as ->; [| lia]. rewrite Hm'. unfold BSIZE in *. Z.div_mod_to_equations. lia.
    + by apply (spare_le _ (j + S c + 3)); [lia |].
    + intros r s2 (k & T2 & mem2 & ip2 & Hk & -> & H2 & Hf2). exists k, T2, mem2, ip2. split; [done |]. split; [done |].
      split; [by replace (j + S c)%nat with (S j + c)%nat by lia | done].
Qed.
End writei.

(** ** [iupdate] *)
Section iupdate.
Context (Hfits : sb_fits) (mem : view) (ip : inode) (Hown : owned mem ip) (Hmeta : meta mem).
Hypothesis (Hsize : forall n, length (mem n) = 1024%nat).

(** A block of another file or of the inodes, rewritten. *)
Lemma other_block n d : n ∈ O -> n <> bmap_block ->
  let mem' := vset n d mem in
  owned mem' ip /\ meta mem' /\ (forall j, used mem' j = used mem j) /\
  (forall k, mapped mem ip k -> mapped mem' ip k) /\ extent mem' ip = extent mem ip.
Proof.
  intros Hn Hnb mem'.
  assert (forall j, used mem' j = used mem j) as Hused by (intros j; unfold used, mem'; by rewrite vset_ne).
  assert (forall b, taken mem b -> taken mem' b /\ mem' b = mem b) as Htk.
  { intros b (Hb & Hu & HO). split; [split; [done |]; by rewrite Hused |]. apply vset_ne. intros ->. done. }
  assert (forall k, block_addr mem' ip k = block_addr mem ip k) as Haddr.
  { intros k. unfold block_addr. destruct (k <? _); [done |]. destruct (Z.eqb_spec (indirect ip) 0) as [| Hi]; [done |].
    by rewrite (proj2 (Htk _ (ow_ind _ _ Hown Hi))). }
  split; [| split; [| split; [done | split]]].
  - destruct Hown as [Hl Hi Hk Hj]. split; [done | intros; by apply Htk, Hi | |].
    + intros k Hkr. rewrite Haddr. intros Hnz. destruct (Hk k Hkr Hnz). split; [by apply Htk | done].
    + intros k k' Hkr Hkr'. rewrite !Haddr. auto.
  - destruct Hmeta as [Hmu Hz Hbm Hl]. split; try done. intros m Hm. rewrite Hused. auto.
  - intros k [Hk Hnz]. split; [done |]. by rewrite Haddr.
  - unfold extent. f_equal. apply list_fmap_ext. intros j k [-> Hk]%lookup_seq. unfold nth_block. rewrite Haddr.
    destruct (Z.eqb_spec (block_addr mem ip (Z.of_nat (0 + j))) 0) as [| Hnz]; [done |].
    apply Htk, (ow_blk _ _ Hown); [lia | done].
Qed.

(** The inode's fields fit the disk's. *)
Definition inode_ok : Prop :=
  Forall (fun v => - 2 ^ 15 <= v < 2 ^ 15) [i_type ip; i_major ip; i_minor ip; i_nlink ip] /\ 0 <= i_size ip < 2 ^ 32.
Lemma owned_dinode : inode_ok -> dinode_ok (dinode_of ip).
Proof.
  intros [Hf Hs]. split; [done |]. split; [done |]. split; [apply Hown |]. apply Forall_lookup_2. intros k a Ha. cbn in Ha.
  pose proof Hfits as (Hsz & _). assert (BPB < 2 ^ 32) as Hb by done. pose proof (lookup_lt_Some _ _ _ Ha) as Hk. rewrite (ow_len _ _ Hown) in Hk.
  destruct (decide (a = 0)) as [-> | Hnz]; [lia |]. assert (taken mem a) as (Hr & _); [| lia].
  destruct (decide (k = NDIRECT)) as [-> | Hne].
  - assert (indirect ip = a) as Hi by (unfold indirect; by rewrite Ha). rewrite <- Hi in Hnz |- *. by apply (ow_ind _ _ Hown).
  - assert (block_addr mem ip (Z.of_nat k) = a) as Hi.
    { unfold block_addr. rewrite (proj2 (Z.ltb_lt _ _)) by lia. by rewrite Nat2Z.id, Ha. }
    rewrite <- Hi in Hnz |- *. apply (ow_blk _ _ Hown); [| done]. unfold MAXFILE. assert (0 <= NINDIRECT) by done. lia.
Qed.

(** The inode on the disk: its own entry changes, the others of the block do not. *)
Definition inode_block : Z := IBLOCK (i_inum ip) sb.
Record updated mem' : Prop := {
  up_entry : read_dinode (mem' inode_block) (dinode_off (i_inum ip)) = dinode_of ip;
  up_others o : (o + 64 <= dinode_off (i_inum ip) \/ dinode_off (i_inum ip) + 64 <= o)%nat ->
    read_dinode (mem' inode_block) o = read_dinode (mem inode_block) o
}.
Lemma iupdate_performs T i s0 s :
  at_inode T mem i ip s0 s -> inode_ok -> inode_block ∈ O -> ~ log_area L0 inode_block -> room T [] ->
  performs (iupdate i) [] (fun _ s' => exists d, at_inode (T ∪ {[inode_block]}) (vset inode_block d mem) i ip s0 s' /\
    updated (vset inode_block d mem)) s.
Proof.
  intros Hat Hok Hin Hlog Hroom. pose proof Hat as (Ht & _ & _ & _ & _ & Hd).
  pose proof (owned_dinode Hok) as Hdi. pose proof (dinode_off_bound (i_inum ip)) as Hbound.
  pose proof (Hsize inode_block) as Hlen.
  pose proof (write_dinode_same (mem inode_block) (dinode_off (i_inum ip)) (dinode_of ip) ltac:(lia) Hdi) as Hsame.
  pose proof Hsame as [Hlen' _]. destruct (me_used _ Hmeta _ Hin) as [_ Hr]. pose proof Hfits as (Hsz & _). assert (BPB < 2 ^ 31) as Hb by done.
  unfold iupdate. eapply performs_inode; [by eapply at_inode_lookup |]. apply performs_get.
  rewrite (at_inode_sb _ _ _ _ _ _ Hat), Hd. fold inode_block.
  eapply performs_seq; [apply (txn_bread T ∅ [] mem inode_block s Ht); [sets | done] |]. intros bp s1 [H1 F1].
  eapply txn_data; [exact H1 | by left |]. eapply performs_inode.
  { rewrite (fs_rest_inodes _ _ F1). by eapply at_inode_lookup. }
  eapply performs_mono; [apply (txn_update T [] mem bp inode_block _ s1 H1); [by rewrite Hlen' | done | lia | done] |].
  intros [] s2 [H2 F2]. eexists. split; [eapply at_inode_step; [done | exact H2 | congruence] |].
  split; rewrite vset_eq.
  - apply read_write_dinode; [lia | done].
  - intros o Ho. by eapply read_dinode_same.
Qed.
End iupdate.

(** [w] was written at [off] of the file [ip]. *)
Record written (off : Z) (w : list Z) mem (ip : inode) mem' (ip' : inode) : Prop := {
  wn_content : content mem' ip' = take (Z.to_nat off) (content mem ip) ++ w ++ drop (Z.to_nat off + length w) (content mem ip);
  wn_ip : ip' = ip <| i_addrs := i_addrs ip' |> <| i_size := Z.max (i_size ip) (off + Z.of_nat (length w)) |>;
  wn_owned : owned mem' ip';
  wn_meta : meta mem';
  wn_file : file_ok dev mem' ip';
  wn_inode : updated mem ip' mem';
  wn_other n : n ∈ O -> n <> bmap_block -> n <> inode_block ip -> mem' n = mem n;
  wn_used j : 0 <= j < BPB -> used mem j = true -> used mem' j = true
}.

Lemma content_patch (E : list Z) (size off : nat) w :
  (off <= size)%nat -> (size <= length E)%nat -> (off + length w <= length E)%nat ->
  take (size `max` (off + length w)) (patch E off w) = take off (take size E) ++ w ++ drop (off + length w) (take size E).
Proof.
  intros Ho Hs Hw. unfold patch. assert (length (take off E) = off) as Ht by (rewrite length_take; lia).
  rewrite take_app_ge by (rewrite Ht; lia). rewrite Ht, take_app_ge by lia. rewrite take_take, Nat.min_l by done.
  do 2 f_equal. rewrite skipn_firstn_comm. f_equal. lia.
Qed.

(** The size and the inode's block are up to date. *)
Lemma written_intro off w mem ip m1 i1 d :
  let ip' := i1 <| i_size := Z.max (i_size ip) (off + Z.of_nat (length w)) |> in
  wrote off w mem ip m1 i1 -> (forall n, length (mem n) = 1024%nat) -> file_ok dev mem ip -> 0 <= off <= i_size ip ->
  off + Z.of_nat (length w) <= MAXFILE * BSIZE -> inode_block ip ∈ O -> inode_block ip <> bmap_block ->
  updated m1 ip' (vset (inode_block ip) d m1) ->
  written off w mem ip (vset (inode_block ip) d m1) ip'.
Proof.
  intros ip' [Ho Hm Hn Hu He Hp Hw Hi] Hsize (Hdev & Hisz & Hall) Hoff Hmax HinO Hnb Hup.
  assert (owned m1 ip') as Ho' by (destruct Ho; by split).
  destruct (other_block m1 ip' Ho' Hm _ d HinO Hnb) as (Ho2 & Hm2 & Hu2 & Hp2 & He2).
  pose proof (length_extent mem ip Hsize) as Hext.
  split; try done.
  - unfold content. rewrite He2. change (extent m1 ip') with (extent m1 i1). rewrite He.
    change (i_size ip') with (Z.max (i_size ip) (off + Z.of_nat (length w))).
    replace (Z.to_nat (Z.max (i_size ip) (off + Z.of_nat (length w)))) with (Z.to_nat (i_size ip) `max` (Z.to_nat off + length w))%nat by lia.
    apply content_patch; lia.
  - unfold ip'. cbn. by rewrite Hi.
  - split; [unfold ip'; by rewrite Hi |]. change (i_size ip') with (Z.max (i_size ip) (off + Z.of_nat (length w))).
    split; [lia |]. intros bn Hbn Hlt. apply Hp2. change (mapped m1 i1 bn).
    destruct (decide (bn * BSIZE < i_size ip)) as [Hold | Hnew]; [by apply Hp, Hall |].
    rewrite <- (Z.div_mul bn BSIZE) by done. apply Hw. lia.
  - destruct Hup as [Hup1 Hup2]. split; [done |]. intros o Hx. rewrite (Hup2 o Hx). f_equal. apply Hn; unfold inode_block, ip'; by rewrite Hi.
  - intros n HnO Hnb' Hni. rewrite vset_ne by done. auto.
  - intros j Hj Huj. rewrite Hu2. auto.
Qed.

Lemma max_size (x : inode) sz : 0 <= i_size x ->
  (if i_size x <? sz then x <| i_size := sz |> else x) = x <| i_size := Z.max (i_size x) sz |>.
Proof.
  intros Hx. destruct (Z.ltb_spec (i_size x) sz); [by rewrite Z.max_r by lia |]. rewrite Z.max_l by lia. by destruct x.
Qed.

(** The last part of [writei]. *)
Lemma writei_end N at_ data D T0 mem i ip off k c s0 T1 mem1 ip1 s :
  file_ok dev mem ip -> inode_ok ip -> sb_fits -> 0 <= off <= i_size ip -> inode_block ip ∈ O -> inode_block ip <> bmap_block ->
  ~ log_area L0 (inode_block ip) -> (forall n, length (mem n) = 1024%nat) -> spare T0 (c + 2) ->
  0 <= k <= Z.of_nat (length data) -> off + k <= MAXFILE * BSIZE -> source N at_ data D ->
  writing D T0 i ip mem s0 off c (take (Z.to_nat k) data) T1 mem1 ip1 s ->
  performs (let! ip := get_inode i in
    (if i_size ip <? off + k then upd_inode i (fun ip => ip <| i_size := off + k |>) else ret tt) ;;;
    iupdate i ;;;
    ret (s32 k)) []
   (fun r s' => r = k /\ exists T' mem' ip', at_inode T' mem' i ip' s0 s' /\ written off (take (Z.to_nat k) data) mem ip mem' ip' /\
      (size T' <= size T0 + c + 3)%nat /\ (full mem1 -> full mem')) s.
Proof.
  intros Hfile Hok Hfits Hoff HinO Hnb Hlog Hsize Hspare Hk Hmax Hsrc (Hat & Hw & Hbud & HD).
  assert (Z.of_nat (length (take (Z.to_nat k) data)) = k) as Hlen by (rewrite length_take; lia).
  assert (MAXFILE * BSIZE < 2 ^ 31) as Hbig by done. pose proof Hfile as (Hdev & Hisz & _).
  pose proof (wr_ip _ _ _ _ _ _ Hw) as Hip1.
  assert (i_size ip1 = i_size ip) as Hsz1 by (by rewrite Hip1). pose proof Hat as (_ & _ & _ & _ & _ & Hd1).
  set (ip' := ip1 <| i_size := Z.max (i_size ip) (off + Z.of_nat (length (take (Z.to_nat k) data))) |>).
  assert (inode_block ip' = inode_block ip) as Hib by (unfold inode_block, ip'; by rewrite Hip1).
  eapply performs_inode; [by eapply at_inode_lookup |].
  apply (performs_seq _ _ _ (fun _ s1 => at_inode T1 mem1 i ip' s0 s1)).
  { unfold ip'. rewrite Hlen, <- Hsz1, <- max_size by lia. destruct (i_size ip1 <? off + k).
    - apply performs_put; [done |]. by apply (at_inode_set T1 mem1 i ip1 (fun ip => ip <| i_size := off + k |>)).
    - by apply performs_done. }
  intros [] s1 Hat1.
  assert (owned mem1 ip') as Ho' by (destruct (wr_owned _ _ _ _ _ _ Hw); by split).
  assert (room T1 []) as Hroom.
  { apply (spare_sub T1 (T1 ∪ {[bmap_block]}) 0); [clear; set_solver |]. by apply (budget_spare T0 c T1 ip1 0 Hbud). }
  eapply performs_seq; [apply (iupdate_performs Hfits mem1 ip' Ho' (wr_meta _ _ _ _ _ _ Hw)) with (T := T1) (s0 := s0) |].
  - intros n. destruct Hat as (Ht & _). by eapply txn_size.
  - done.
  - destruct Hok as [Hf _]. split; [unfold ip'; by rewrite Hip1 |]. unfold ip'. cbn. lia.
  - by rewrite Hib.
  - by rewrite Hib.
  - done.
  - intros [] s2 (d & Hat2 & Hup). rewrite Hib in Hat2, Hup. apply performs_done. split; [apply s32_small; lia |].
    eexists _, _, ip'. split; [exact Hat2 |]. split; [apply written_intro; try done; lia |]. split.
    + etrans; [apply size_union_le |]. rewrite size_singleton. destruct Hbud as (_ & B & HB & HT).
      apply subseteq_size in HT. pose proof (size_union_le (T0 ∪ {[bmap_block; indirect ip1]}) B).
      pose proof (size_union_le T0 {[bmap_block; indirect ip1]}). pose proof (size_union_le {[bmap_block]} {[indirect ip1]}) as Hpair.
      rewrite !size_singleton in Hpair. lia.
    + intros Hfull j Hj. unfold used. rewrite vset_ne by done. by apply Hfull.
Qed.

(** [writei] of at most three blocks' worth of bytes, from any source: it fails without
    effect, or writes a prefix of the data, shorter only if the disk is full. *)
Lemma writei_performs N at_ data D T0 mem i ip off s :
  source N at_ data D -> D s -> in_txn T0 ∅ [] mem s -> k_inodes s !! i = Some ip -> k_sb s = sb -> 0 ∉ T0 ->
  sb_fits -> owned mem ip -> meta mem -> file_ok dev mem ip -> inode_ok ip ->
  inode_block ip ∈ O -> inode_block ip <> bmap_block -> ~ log_area L0 (inode_block ip) ->
  0 <= off -> 0 <= N <= 3 * BSIZE -> off + N < 2 ^ 32 -> spare T0 7 ->
  performs (writei i (at_ 0) off N) [] (fun r s' =>
    if decide (off <= i_size ip /\ off + N <= MAXFILE * BSIZE)
    then 0 <= r <= N /\ exists T' mem' ip', at_inode T' mem' i ip' s s' /\ (size T' <= size T0 + 7)%nat /\
           written off (take (Z.to_nat r) data) mem ip mem' ip' /\ (r < N -> full mem')
    else r = -1 /\ s' = s) s.
Proof.
  intros Hsrc HD Ht Hi Hsb Hz Hfits Hown Hmeta Hfile Hok HinO Hnb Hlog Hoff HN Hover Hspare.
  pose proof Hfile as (Hdev & Hisz & _). assert (MAXFILE * BSIZE < 2 ^ 31) as Hbig by done.
  pose proof (so_len _ _ _ _ Hsrc) as Hlen.
  unfold writei. eapply performs_inode; [done |]. rewrite u32_small by lia.
  rewrite (proj2 (Z.ltb_ge (off + N) off)), orb_false_r by lia.
  destruct (Z.ltb_spec (i_size ip) off) as [Hpast | Hin]; [apply performs_done; rewrite decide_False by lia; done |].
  destruct (Z.ltb_spec (MAXFILE * BSIZE) (off + N)) as [Htoo | Hmax]; [apply performs_done; rewrite decide_False by lia; done |].
  assert (forall n, length (mem n) = 1024%nat) as Hsize by (intros n; by eapply txn_size).
  assert (at_inode T0 mem i ip s s) as Hat.
  { split; [done |]. split; [by rewrite list_insert_id |]. split; [by eapply lookup_lt_Some |]. done. }
  pose proof (Z.mod_pos_bound off BSIZE ltac:(done)) as Hmod.
  set (c := Z.to_nat ((off mod BSIZE + N + (BSIZE - 1)) / BSIZE)).
  assert (c <= 4 /\ c <= Z.to_nat (N / BSIZE + 2))%nat as [Hc4 Hcf].
  { unfold c, BSIZE in *. Z.div_mod_to_equations. lia. }
  assert (off mod BSIZE + N <= BSIZE * Z.of_nat c) as Hcover.
  { unfold c, BSIZE in *. Z.div_mod_to_equations. lia. }
  pose proof (writei_loop_performs N at_ data D Hsrc T0 i ip mem s off Hfits Hoff Hsize (Z.to_nat (N / BSIZE + 2)) c
    0 0 T0 mem ip s) as Hloop. rewrite Z.add_0_r, Z.sub_0_r in Hloop. clearbody c.
  eapply performs_seq; [apply Hloop; [| lia | done | by right | done |] |].
  - split; [done |]. split; [by apply wrote_nil |]. split; [split; [done |]; exists ∅; split; [by rewrite size_empty | clear; set_solver] | done].
  - by apply (spare_le _ 7); [lia |].
  - intros r s1 (k & T1 & mem1 & ip1 & Hk & -> & Hw & Hfull). cbn [fst snd].
    eapply performs_mono; [apply (writei_end N at_ data D T0 mem i ip off k c s T1 mem1 ip1 s1); try done; try lia |].
    + by apply (spare_le _ 7); [lia |].
    + intros r s2 (-> & T2 & mem2 & ip2 & Hat2 & Hwr & HT2 & Hf2). rewrite decide_True by lia.
      split; [done |]. exists T2, mem2, ip2. split; [done |]. split; [lia |]. split; [done |]. auto.
Qed.
(** C7: [bmap] keeps the allocation of blocks well formed.  In a transaction with room in
    the log, [bmap] of a block number of a file returns the address of that block,
    allocated if need be together with the indirect block, or 0, and then every block of
    the disk is in use.  Every block of the file stays marked as used, listed once and
    apart from the blocks [O] of everything else; the file reads as before, a new block
    as zeroes; no other block but the bitmap changes and no used block becomes free. *)
Theorem bmap_allocates T mem i ip bn s :
  in_txn T ∅ [] mem s -> k_inodes s !! i = Some ip -> i_dev ip = dev -> k_sb s = sb ->
  sb_fits -> owned mem ip -> meta mem -> 0 <= bn < MAXFILE -> spare (T ∪ {[bmap_block]}) 2 ->
  performs (bmap i bn) [] (fun a s' => exists mem' ip' T',
    in_txn T' ∅ [] mem' s' /\ k_inodes s' = <[i := ip']> (k_inodes s) /\ grows mem ip mem' ip' /\
    a = block_addr mem' ip' bn /\ (a = 0 -> full mem')) s.
Proof.
  intros Ht Hi Hdev Hsb Hfits Hown Hmeta Hbn Hspare.
  assert (at_inode T mem i ip s s) as Hat.
  { split; [done |]. split; [by rewrite list_insert_id |]. split; [by eapply lookup_lt_Some |]. done. }
  eapply performs_mono; [by apply (bmap_txn T mem i ip bn s s) |].
  intros a s' (mem' & ip' & T' & (Ht' & Hi' & _) & Hg & _ & _ & Ha & Hf). by exists mem', ip', T'.
Qed.
End owned.
End balloc.
End txn.

(** ** Example: the open transaction of [sample_fs]

    The rest of the disk are the blocks up to the bitmap, block 46. *)
Definition sample_O : gset Z := list_to_set (Z.of_nat <$> seq 0 47).
Lemma sample_O_in n : n ∈ sample_O <-> 0 <= n < 47.
Proof.
  unfold sample_O. rewrite elem_of_list_to_set, list_elem_of_fmap. split.
  - intros (k & -> & Hk%elem_of_seq). lia.
  - intros Hn. exists (Z.to_nat n). rewrite elem_of_seq. lia.
Qed.
Lemma sample_addr k : 0 <= k -> block_addr (disk_view sample_fs_disk) sample_fs_inode k = if k =? 0 then 47 else 0.
Proof.
  intros Hk. unfold block_addr. change (indirect sample_fs_inode =? 0) with true. cbn iota. destruct (Z.eqb_spec k 0) as [-> | Hne]; [done |].
  destruct (_ <? _); [| done]. change (i_addrs sample_fs_inode) with (47 :: replicate 12 0).
  replace (Z.to_nat k) with (S (Z.to_nat (k - 1))) by lia. cbn [lookup list_lookup].
  destruct (replicate 12 0 !! Z.to_nat (k - 1)) as [a |] eqn:Ha; [| done]. by apply lookup_replicate in Ha as [-> _].
Qed.
Lemma sample_used n : 0 <= n < 48 -> used (k_sb sample) (disk_view sample_fs_disk) n = true.
Proof.
  intros Hn. assert (Forall (fun k => used (k_sb sample) (disk_view sample_fs_disk) (Z.of_nat k) = true) (seq 0 48)) as Hall
    by (apply (bool_decide_unpack _); by vm_compute).
  rewrite Forall_forall in Hall. rewrite <- (Z2Nat.id n) by lia. apply Hall, elem_of_seq. lia.
Qed.
Lemma sample_owned : owned (k_sb sample) sample_O (disk_view sample_fs_disk) sample_fs_inode.
Proof.
  split.
  - done.
  - by intros [].
  - intros k Hk. rewrite sample_addr by lia. destruct (k =? 0); [| done]. intros _. split; [| done].
    split; [by vm_compute |]. split; [by apply sample_used |]. rewrite sample_O_in. lia.
  - intros k k' Hk Hk'. rewrite !sample_addr by lia. destruct (Z.eqb_spec k 0), (Z.eqb_spec k' 0); lia.
Qed.
Lemma sample_log_area k n : log_area (sample_log k) n <-> 2 <= n <= 32.
Proof. done. Qed.
Lemma sample_fits k : sb_fits (sample_log k) (k_sb sample).
Proof.
  split; [by vm_compute |]. split; [by vm_compute |]. rewrite sample_log_area. change (bmap_block (k_sb sample)) with 46. lia.
Qed.
Lemma sample_meta k : meta (sample_log k) (k_sb sample) sample_O (disk_view sample_fs_disk).
Proof.
  split.
  - intros n Hn%sample_O_in. split; [apply sample_used; lia |]. change (sb_size (k_sb sample)) with 2000. lia.
  - apply sample_O_in. lia.
  - apply sample_O_in. by vm_compute.
  - intros n Hn. apply sample_O_in. unfold log_area in Hn. change (l_start (sample_log k)) with 2 in Hn.
    unfold LOGBLOCKS, MAXOPBLOCKS in Hn. lia.
Qed.
Definition sample_fs_txn : kstate := sample_fs <| k_log := sample_log 1 |>.

(** Block 20 of the file: an indirect block and a data block are allocated. *)
Lemma bmap_allocates_witness :
  let sb := k_sb sample in let L := sample_log 1 in let s := sample_fs_txn in let mem := disk_view sample_fs_disk in
  performs (@bmap plain_disk 0 20) [] (fun a s' => exists mem' ip' T',
    in_txn 3 7 1 L T' ∅ [] mem' s' /\ k_inodes s' = <[0%nat := ip']> (k_inodes s) /\
    grows L sb sample_O mem sample_fs_inode mem' ip' /\ a = block_addr mem' ip' 20 /\ (a = 0 -> full sb mem')) s.
Proof.
  intros sb L s mem.
  apply (@bmap_allocates plain_disk plain_disk_laws 3 7 1 L sb sample_O ∅ mem 0 sample_fs_inode 20 s).
  - exists L, ∅. split; [| split; [apply sample_log_ok |]].
    + apply (bstate_set_log 3 7 1 (fun _ => L) (k_log sample_fs)).
      exact (booted_bstate 3 7 1 sample_fs sample_fs_booted (proj1 sample_fs_blocks)).
    + split; [constructor |]. split; [by vm_compute |]. split; [done |].
      split; intros m Hm; [by apply not_elem_of_nil in Hm | by apply elem_of_empty in Hm].
  - done.
  - done.
  - done.
  - apply sample_fits.
  - exact sample_owned.
  - apply sample_meta.
  - by vm_compute.
  - split; [apply sample_log_ok |]. by vm_compute.
Defined.
