(* ===== verification/Pipe.v ===== *)
(** * Pipes ([kernel/pipe.c])

    A pipe is a ring buffer in a page of its own, named by the page's address.
    [pi_nread] and [pi_nwrite] count modulo 2^32 and the ring is indexed modulo
    [PIPESIZE]. *)
From S2P Require Import Prelude Kstate Spinlock Mem Sample Kalloc Sched Vm PageTable UserMem.
Local Open Scope Z_scope.

Section pipe.
Context `{Image}.

(** ** The code *)
Definition get_pipe (pi : Z) : K pipe := fun w =>
  match k_pipes (w_k w) !! pi with
  | Some p => Ret p w
  | None => Panic "kerneltrap"
  end.
Definition upd_pipe (pi : Z) (f : pipe -> pipe) : K unit :=
  put (fun s => s <| k_pipes ::= alter f pi |>).

(** The part of [pipealloc] after [kalloc] gave the page [pi]: its initial
    contents are the junk [kalloc] fills a page with. *)
Definition pipe_init (pi : Z) : K unit :=
  put (fun s => s <| k_pipes ::= <[pi := mkpipe (replicate (Z.to_nat PIPESIZE) 5) 0 0 1 1]> |>) ;;;
  initlock (LkPipe pi) "pipe".

Definition pipeclose (pi : Z) (writable : Z) : K unit :=
  acquire (LkPipe pi) ;;;
  (if istrue writable then
     upd_pipe pi (fun p => p <| pi_writeopen := 0 |>) ;;;
     wakeup (ChPipeR pi)
   else
     upd_pipe pi (fun p => p <| pi_readopen := 0 |>) ;;;
     wakeup (ChPipeW pi)) ;;;
  let! p := get_pipe pi in
  if (pi_readopen p =? 0) && (pi_writeopen p =? 0) then
    release (LkPipe pi) ;;;
    kfree pi ;;;
    put (fun s => s <| k_pipes ::= delete pi |>)
  else release (LkPipe pi).

(** [pi->nwrite == pi->nread + PIPESIZE] on [uint]. *)
Definition pipe_full (p : pipe) : bool := pi_nwrite p =? u32 (pi_nread p + PIPESIZE).
Definition pipe_push (ch : Z) (p : pipe) : pipe :=
  p <| pi_data ::= <[Z.to_nat (pi_nwrite p mod PIPESIZE) := ch]> |>
    <| pi_nwrite := u32 (pi_nwrite p + 1) |>.
Definition pipe_byte (p : pipe) : Z := default 0 (pi_data p !! Z.to_nat (pi_nread p mod PIPESIZE)).
Definition pipe_pop (p : pipe) : pipe := p <| pi_nread := u32 (pi_nread p + 1) |>.

(** [while(i < n)]; [None] when the call already returned -1.  Each iteration
    copies a byte or sleeps. *)
Fixpoint pipewrite_loop (fuel : nat) (pi : Z) (pr : nat) (addr i n : Z) : K (option Z) :=
  match fuel with
  | O => hang
  | S k =>
      if i <? n then
        let! p := get_pipe pi in
        let! stop := (if pi_readopen p =? 0 then ret 1 else killed pr) in
        if istrue stop then release (LkPipe pi) ;;; ret None else
        let! p := get_pipe pi in
        if pipe_full p then
          wakeup (ChPipeR pi) ;;;
          sleep (ChPipeW pi) (LkPipe pi) ;;;
          pipewrite_loop k pi pr addr i n
        else
          let! pp := get_proc pr in
          let! r := copyin (p_pagetable pp) (u64 (addr + i)) 1 in
          if fst r =? -1 then ret (Some i) else
          upd_pipe pi (pipe_push (default 0 (head (snd r)))) ;;;
          pipewrite_loop k pi pr addr (i + 1) n
      else ret (Some i)
  end.

Definition pipewrite (pi addr n : Z) : K Z :=
  let! pr := curproc in
  acquire (LkPipe pi) ;;;
  let! r := (fun w => pipewrite_loop (S (Z.to_nat n + length (w_env w))) pi pr addr 0 n w) in
  match r with
  | None => ret (-1)
  | Some i =>
      wakeup (ChPipeR pi) ;;;
      release (LkPipe pi) ;;;
      ret i
  end.

(** [while(pi->nread == pi->nwrite && pi->writeopen)]: [false] when killed. *)
Fixpoint piperead_wait (fuel : nat) (pi : Z) (pr : nat) : K bool :=
  match fuel with
  | O => hang
  | S k =>
      let! p := get_pipe pi in
      if (pi_nread p =? pi_nwrite p) && istrue (pi_writeopen p) then
        let! kl := killed pr in
        if istrue kl then release (LkPipe pi) ;;; ret false
        else sleep (ChPipeR pi) (LkPipe pi) ;;; piperead_wait k pi pr
      else ret true
  end.

(** [for(i = 0; i < n; i++)]. *)
Fixpoint piperead_loop (fuel : nat) (pi : Z) (pr : nat) (addr i n : Z) : K Z :=
  match fuel with
  | O => ret i
  | S k =>
      if i <? n then
        let! p := get_pipe pi in
        if pi_nread p =? pi_nwrite p then ret i else
        let ch := pipe_byte p in
        let! pp := get_proc pr in
        let! r := copyout (p_pagetable pp) (u64 (addr + i)) [ch] in
        if r =? -1 then ret (if i =? 0 then -1 else i) else
        upd_pipe pi pipe_pop ;;;
        piperead_loop k pi pr addr (i + 1) n
      else ret i
  end.

Definition piperead (pi addr n : Z) : K Z :=
  let! pr := curproc in
  acquire (LkPipe pi) ;;;
  let! ok := (fun w => piperead_wait (S (length (w_env w))) pi pr w) in
  if negb ok then ret (-1) else
  let! i := piperead_loop (Z.to_nat n) pi pr addr 0 n in
  wakeup (ChPipeW pi) ;;;
  release (LkPipe pi) ;;;
  ret i.

(** ** The ring as a queue *)

(** The bytes in the pipe, oldest first. *)
Definition pipe_count (p : pipe) : Z := u32 (pi_nwrite p - pi_nread p).
Definition pipe_contents (p : pipe) : list Z :=
  (fun k => default 0 (pi_data p !! Z.to_nat ((pi_nread p + Z.of_nat k) mod PIPESIZE)))
    <$> seq 0 (Z.to_nat (pipe_count p)).
Definition pipe_ok (p : pipe) : Prop :=
  length (pi_data p) = Z.to_nat PIPESIZE /\ 0 <= pi_nread p < 2 ^ 32 /\ 0 <= pi_nwrite p < 2 ^ 32 /\
  pipe_count p <= PIPESIZE.

Lemma pipe_full_count p : pipe_ok p -> pipe_full p = (pipe_count p =? PIPESIZE).
Proof.
  intros (_ & Hr & Hw & _). unfold pipe_full, pipe_count, u32, PIPESIZE.
  destruct (Z.eqb_spec (pi_nwrite p) ((pi_nread p + 512) mod 2 ^ 32)),
    (Z.eqb_spec ((pi_nwrite p - pi_nread p) mod 2 ^ 32) 512); try done;
    exfalso; Z.div_mod_to_equations; lia.
Qed.

Lemma pipe_empty_count p : pipe_ok p -> (pi_nread p =? pi_nwrite p) = (pipe_count p =? 0).
Proof.
  intros (_ & Hr & Hw & _). unfold pipe_count, u32.
  destruct (Z.eqb_spec (pi_nread p) (pi_nwrite p)),
    (Z.eqb_spec ((pi_nwrite p - pi_nread p) mod 2 ^ 32) 0); try done;
    exfalso; Z.div_mod_to_equations; lia.
Qed.

Lemma pipe_push_count p ch : pipe_ok p -> pipe_full p = false ->
  pipe_count (pipe_push ch p) = pipe_count p + 1.
Proof.
  intros Hok Hf. rewrite pipe_full_count in Hf by done. apply Z.eqb_neq in Hf.
  destruct Hok as (_ & Hr & Hw & Hc). unfold pipe_count, pipe_push, u32, PIPESIZE in *. cbn.
  Z.div_mod_to_equations. lia.
Qed.

(** A position of the ring below the write index, seen from the read index. *)
Lemma ring_index p k : pipe_ok p -> 0 <= k < pipe_count p -> pipe_count p < PIPESIZE ->
  (pi_nread p + k) mod PIPESIZE <> pi_nwrite p mod PIPESIZE.
Proof.
  intros (_ & Hr & Hw & _) Hk Hc. unfold pipe_count, u32, PIPESIZE in *.
  Z.div_mod_to_equations. lia.
Qed.

Lemma ring_end p : pipe_ok p -> (pi_nread p + pipe_count p) mod PIPESIZE = pi_nwrite p mod PIPESIZE.
Proof.
  intros (_ & Hr & Hw & _). unfold pipe_count, u32, PIPESIZE in *. Z.div_mod_to_equations. lia.
Qed.

Lemma pipe_push_contents p ch : pipe_ok p -> pipe_full p = false ->
  pipe_contents (pipe_push ch p) = pipe_contents p ++ [ch] /\ pipe_ok (pipe_push ch p).
Proof.
  intros Hok Hf. pose proof Hok as (Hl & Hr & Hw & Hc).
  pose proof (pipe_push_count p ch Hok Hf) as Hcount. split.
  2:{ rewrite pipe_full_count in Hf by done. apply Z.eqb_neq in Hf.
      unfold pipe_ok. rewrite Hcount. unfold pipe_push. cbn. rewrite length_insert.
      pose proof (u32_range (pi_nwrite p + 1)). lia. }
  rewrite pipe_full_count in Hf by done. apply Z.eqb_neq in Hf.
  pose proof (u32_range (pi_nwrite p - pi_nread p)) as Hu. change (u32 _) with (pipe_count p) in Hu.
  unfold pipe_contents at 1. rewrite Hcount, Z2Nat.inj_add, Nat.add_1_r, seq_S by lia.
  rewrite fmap_app. cbn [fmap list_fmap Nat.add]. f_equal.
  - unfold pipe_contents. apply list_fmap_ext. intros i k Hk.
    apply lookup_seq in Hk as [-> Hi]. cbn. rewrite list_lookup_insert_ne; [done |].
    pose proof (ring_index p (Z.of_nat i) Hok ltac:(lia) ltac:(lia)) as Hne. unfold PIPESIZE in *.
    intros E. apply Z2Nat.inj in E; [| apply Z.mod_pos_bound; lia | apply Z.mod_pos_bound; lia].
    congruence.
  - cbn. rewrite Z2Nat.id by lia. rewrite (ring_end p Hok).
    rewrite list_lookup_insert_eq; [done |]. rewrite Hl.
    pose proof (Z.mod_pos_bound (pi_nwrite p) PIPESIZE ltac:(done)). lia.
Qed.

Lemma pipe_pop_contents p : pipe_ok p -> (pi_nread p =? pi_nwrite p) = false ->
  pipe_contents p = pipe_byte p :: pipe_contents (pipe_pop p) /\ pipe_ok (pipe_pop p).
Proof.
  intros Hok He. rewrite pipe_empty_count in He by done. apply Z.eqb_neq in He.
  pose proof Hok as (Hl & Hr & Hw & Hc).
  pose proof (u32_range (pi_nwrite p - pi_nread p)) as Hu. change (u32 _) with (pipe_count p) in Hu.
  assert (pipe_count (pipe_pop p) = pipe_count p - 1) as Hcount.
  { unfold pipe_count, pipe_pop, u32 in *. cbn. Z.div_mod_to_equations. lia. }
  split.
  2:{ unfold pipe_ok. rewrite Hcount. cbn. pose proof (u32_range (pi_nread p + 1)). lia. }
  unfold pipe_contents. rewrite Hcount.
  replace (Z.to_nat (pipe_count p)) with (S (Z.to_nat (pipe_count p - 1))) by lia.
  cbn [seq fmap list_fmap]. rewrite Z.add_0_r. f_equal.
  rewrite <- (fmap_S_seq 0). rewrite <- list_fmap_compose. apply list_fmap_ext.
  intros i k Hk. cbn. do 3 f_equal. unfold u32, PIPESIZE. Z.div_mod_to_equations. lia.
Qed.
(** ** Reading *)
Definition pipe_drop (m : nat) (p : pipe) : pipe := Nat.iter m pipe_pop p.

Lemma pipe_drop_contents m p : pipe_ok p -> (m <= length (pipe_contents p))%nat ->
  pipe_contents (pipe_drop m p) = drop m (pipe_contents p) /\ pipe_ok (pipe_drop m p).
Proof.
  intros Hok. induction m as [| m IH]; intros Hm; [done |].
  destruct IH as [Hc Hok']; [lia |]. change (pipe_drop (S m) p) with (pipe_pop (pipe_drop m p)).
  set (q := pipe_drop m p) in *.
  destruct (pi_nread q =? pi_nwrite q) eqn:He.
  - exfalso. rewrite pipe_empty_count in He by done. apply Z.eqb_eq in He.
    assert (length (pipe_contents q) = 0%nat) as Hl
      by (unfold pipe_contents; rewrite length_fmap, length_seq, He; done).
    rewrite Hc, length_drop in Hl. lia.
  - destruct (pipe_pop_contents q Hok' He) as [Hq ?]. split; [| done].
    rewrite <- Nat.add_1_r, <- drop_drop, <- Hc, Hq. done.
Qed.

Lemma get_pipe_eq s e pi p :
  k_pipes s !! pi = Some p -> get_pipe pi (mkworld s e) = Ret p (mkworld s e).
Proof. intros Hp. unfold get_pipe. cbn. by rewrite Hp. Qed.

Lemma upd_pipe_eq s e pi p f :
  k_pipes s !! pi = Some p ->
  upd_pipe pi f (mkworld s e) = Ret tt (mkworld (s <| k_pipes ::= <[pi := f p]> |>) e).
Proof.
  intros Hp. unfold upd_pipe. krun. apply ret_world. upd_eq. apply map_eq. intros k.
  destruct (decide (k = pi)) as [-> |].
  - by rewrite lookup_alter_eq, lookup_insert_eq, Hp.
  - by rewrite lookup_alter_ne, lookup_insert_ne by done.
Qed.

Lemma mem_pipe_writes s pi p q f g :
  s <| k_mem ::= f |> <| k_pipes ::= <[pi := p]> |> <| k_mem ::= g |> <| k_pipes ::= <[pi := q]> |> =
  s <| k_mem := g (f (k_mem s)) |> <| k_pipes ::= <[pi := q]> |>.
Proof. upd_eq. by rewrite insert_insert_eq. Qed.

Lemma pipe_contents_length p : pipe_ok p -> Z.of_nat (length (pipe_contents p)) = pipe_count p.
Proof.
  intros (_ & Hr & Hw & _). unfold pipe_contents. rewrite length_fmap, length_seq.
  pose proof (u32_range (pi_nwrite p - pi_nread p)). unfold pipe_count. lia.
Qed.

(** What [piperead_loop] does: [m] bytes go from the pipe to user memory. *)
Definition pipe_read_state (pi : Z) (tbl : gmap (list Z) Z) (va : Z) (m : nat) (p : pipe) (s : kstate) : kstate :=
  s <| k_mem ::= fun mm => uwrite mm (uaddr mm tbl) va (take m (pipe_contents p)) |>
    <| k_pipes ::= <[pi := pipe_drop m p]> |>.

Lemma piperead_loop_eq pi pr tbl addr n e k : forall s p pp i,
  k_pipes s !! pi = Some p -> pipe_ok p -> k_procs s !! pr = Some pp ->
  pt_wf (k_mem s) (p_pagetable pp) tbl -> 0 <= addr -> 0 <= i -> i + Z.of_nat k = n ->
  (forall j, i <= j < n -> user_ok true (k_mem s) tbl (addr + j)) ->
  let m := Nat.min k (length (pipe_contents p)) in
  piperead_loop k pi pr addr i n (mkworld s e) =
    Ret (i + Z.of_nat m) (mkworld (pipe_read_state pi tbl (addr + i) m p s) e).
Proof.
  assert (Hstop : forall s p va, k_pipes s !! pi = Some p -> pipe_read_state pi tbl va 0 p s = s).
  { intros s p va Hp. unfold pipe_read_state. cbn. destruct s; cbn in *. unfold upd. cbn. by rewrite insert_id. }
  induction k as [| k IH]; intros s p pp i Hp Hok Hpp Hwf Ha Hi Hn Hu m.
  { cbn. by rewrite Z.add_0_r, Hstop. }
  cbn [piperead_loop]. rewrite (proj2 (Z.ltb_lt i n)) by lia. kcall (get_pipe_eq s e pi p).
  destruct (pi_nread p =? pi_nwrite p) eqn:He.
  { assert (m = 0%nat) as ->; [| by rewrite Z.add_0_r, Hstop].
    rewrite pipe_empty_count in He by done. apply Z.eqb_eq in He.
    pose proof (pipe_contents_length p Hok). lia. }
  destruct (pipe_pop_contents p Hok He) as [Hc Hok'].
  kcall (get_proc_eq s e pr pp).
  assert (0 <= addr + i < 2 ^ 38) as Hva by (apply (uo_range _ _ _ _ (Hu i ltac:(lia)))).
  rewrite u64_small by lia.
  assert (Hu1 : forall j, 0 <= j < Z.of_nat (length [pipe_byte p]) -> user_ok true (k_mem s) tbl (addr + i + j)).
  { cbn. intros j Hj. replace j with 0 by lia. rewrite Z.add_0_r. apply Hu. lia. }
  kcall (copyout_loop_eq (p_pagetable pp) tbl e (length [pipe_byte p]) s). { lia. }
  cbn [Z.eqb]. kcall (upd_pipe_eq _ e pi p pipe_pop).
  replace (i + 1) with (i + Z.of_nat (length [pipe_byte p])) by done.
  erewrite (IH _ (pipe_pop p) pp); [| by (cbn; rewrite lookup_insert_eq) | done | done | | done | cbn; lia | cbn; lia |].
  - unfold m. rewrite Hc. cbn [length]. rewrite <- Nat.succ_min_distr.
    f_equal; [cbn; lia |]. f_equal. unfold pipe_read_state. rewrite mem_pipe_writes, Hc.
    cbn [firstn]. rewrite Z.add_assoc.
    rewrite (uwrite_split (k_mem s) (p_pagetable pp) tbl (addr + i) [pipe_byte p]) by done.
    unfold pipe_drop. rewrite Nat.iter_succ_r. done.
  - by apply (uwrite_wf _ _ _ true).
  - intros j Hj. apply (uwrite_user_ok _ (p_pagetable pp) _ true); [done | done |]. apply Hu.
    cbn in Hj. lia.
Qed.
(** ** Writing *)
Definition pipe_append (l : list Z) (p : pipe) : pipe := foldl (fun p b => pipe_push b p) p l.

Lemma pipe_append_contents l : forall p,
  pipe_ok p -> Z.of_nat (length (pipe_contents p) + length l) <= PIPESIZE ->
  pipe_contents (pipe_append l p) = pipe_contents p ++ l /\ pipe_ok (pipe_append l p).
Proof.
  induction l as [| b l IH]; intros p Hok Hl; cbn [pipe_append foldl]; [by rewrite app_nil_r |].
  assert (pipe_full p = false) as Hf.
  { rewrite pipe_full_count by done. apply Z.eqb_neq. pose proof (pipe_contents_length p Hok).
    cbn [length] in Hl. lia. }
  destruct (pipe_push_contents p b Hok Hf) as [Hc Hok'].
  destruct (IH (pipe_push b p) Hok') as [Hc' Hok''].
  { rewrite Hc, length_app. cbn [length] in *. lia. }
  split; [| done]. unfold pipe_append in Hc'. by rewrite Hc', Hc, <- app_assoc.
Qed.

Lemma pipe_push_open b p : pi_readopen (pipe_push b p) = pi_readopen p.
Proof. done. Qed.

Lemma ubytes_one m tbl va : ubytes m tbl va 1 = [default 0 (mem_byte m (uaddr m tbl va))].
Proof. unfold ubytes. cbn. by rewrite Z.add_0_r. Qed.

Lemma pipes_write_twice s pi p q :
  s <| k_pipes ::= <[pi := p]> |> <| k_pipes ::= <[pi := q]> |> = s <| k_pipes ::= <[pi := q]> |>.
Proof. upd_eq. by rewrite insert_insert_eq. Qed.

Lemma pipewrite_loop_eq pi pr tbl addr n e k : forall fuel s p pp i,
  (k < fuel)%nat -> in_section s pr (LkPipe pi) ->
  k_pipes s !! pi = Some p -> pipe_ok p -> pi_readopen p <> 0 ->
  k_procs s !! pr = Some pp -> p_killed pp = 0 ->
  pt_wf (k_mem s) (p_pagetable pp) tbl -> 0 <= addr -> 0 <= i -> i + Z.of_nat k = n ->
  Z.of_nat (length (pipe_contents p) + k) <= PIPESIZE ->
  (forall j, i <= j < n -> user_ok false (k_mem s) tbl (addr + j)) ->
  pipewrite_loop fuel pi pr addr i n (mkworld s e) =
    Ret (Some n) (mkworld (s <| k_pipes ::= <[pi := pipe_append (ubytes (k_mem s) tbl (addr + i) k) p]> |>) e).
Proof.
  induction k as [| k IH]; intros fuel s p pp i Hf Hin Hp Hok Hro Hpp Hk Hwf Ha Hi Hn Hroom Hu;
    (destruct fuel as [| fuel]; [lia |]); cbn [pipewrite_loop].
  { rewrite (proj2 (Z.ltb_ge i n)) by lia. replace i with n by lia. apply ret_world. cbn.
    transitivity (s <| k_pipes := k_pipes s |>); [by destruct s |]. upd_eq. by rewrite insert_id. }
  rewrite (proj2 (Z.ltb_lt i n)) by lia. kcall (get_pipe_eq s e pi p).
  rewrite (proj2 (Z.eqb_neq (pi_readopen p) 0) Hro).
  kcall (killed_section s pr (LkPipe pi) e pp). rewrite Hk. cbn [istrue Z.eqb negb].
  kcall (get_pipe_eq s e pi p).
  assert (pipe_full p = false) as Hfull.
  { rewrite pipe_full_count by done. apply Z.eqb_neq. pose proof (pipe_contents_length p Hok). lia. }
  rewrite Hfull. kcall (get_proc_eq s e pr pp).
  assert (0 <= addr + i < 2 ^ 38) as Hva by (apply (uo_range _ _ _ _ (Hu i ltac:(lia)))).
  rewrite u64_small by lia. unfold copyin.
  kcall (copyin_loop_eq (p_pagetable pp) tbl s e (Z.to_nat 1)). { lia. }
  { intros j Hj. replace j with 0 by lia. rewrite Z.add_0_r. apply Hu. lia. }
  change (Z.to_nat 1) with 1%nat. rewrite ubytes_one. set (b := default 0 _). cbn [fst snd app head Z.eqb].
  kcall (upd_pipe_eq s e pi p). change (default 0 (Some b)) with b.
  destruct (pipe_push_contents p b Hok Hfull) as [Hc Hok'].
  erewrite (IH fuel _ (pipe_push b p) pp); [| lia | exact Hin | by (cbn; rewrite lookup_insert_eq) | done ..
    | lia | lia | rewrite Hc, length_app; cbn; lia |].
  - rewrite pipes_write_twice. apply ret_world.
    change (k_mem (s <| k_pipes ::= <[pi := pipe_push b p]> |>)) with (k_mem s).
    replace (S k) with (1 + k)%nat by lia. rewrite ubytes_app, ubytes_one, Z.add_assoc. done.
  - intros j Hj. apply Hu. lia.
Qed.
(** ** Properties *)

(** C14: Reading a pipe is first in, first out.  [piperead] of up to [n] bytes from a
    pipe that holds some (or whose write end is closed) returns the smaller of [n] and
    the number of bytes in the pipe, has put exactly the oldest of them, in order, in
    the reader's buffer, leaves the others in the pipe and wakes the waiting writers. *)
Theorem piperead_fifo s e c p pp tbl pi q addr n :
  running s p c -> c_noff c = 0 -> k_procs s !! p = Some pp -> procs_free s (Some p) ->
  lock_free s (LkPipe pi) -> k_pipes s !! pi = Some q -> pipe_ok q ->
  pipe_contents q <> [] \/ pi_writeopen q = 0 -> Forall (fun b => 0 <= b < 256) (pipe_contents q) ->
  pt_wf (k_mem s) (p_pagetable pp) tbl -> 0 <= addr -> 0 <= n ->
  (forall j, 0 <= j < n -> user_ok true (k_mem s) tbl (addr + j)) ->
  (forall i j, 0 <= i < n -> 0 <= j < n ->
     uaddr (k_mem s) tbl (addr + i) = uaddr (k_mem s) tbl (addr + j) -> i = j) ->
  let m := Nat.min (Z.to_nat n) (length (pipe_contents q)) in
  exists s' q', piperead pi addr n (mkworld s e) = Ret (Z.of_nat m) (mkworld s' e) /\
    ubytes (k_mem s') tbl addr m = take m (pipe_contents q) /\
    k_pipes s' !! pi = Some q' /\ pipe_ok q' /\ pipe_contents q' = drop m (pipe_contents q) /\
    k_procs s' = wake_all (ChPipeW pi) (Some p) (k_procs s) /\ k_locks s' = k_locks s.
Proof.
  intros Hr Hn Hpp Hf Hl Hq Hok Hne Hb Hwf Ha Hn0 Hu Hinj m.
  pose proof Hr as (Hc & Hp & _). pose proof (cpu_ok_sync s c Hc) as Hc'.
  destruct (pipe_drop_contents m q Hok ltac:(lia)) as [Hdc Hdok].
  eexists _, (pipe_drop m q). split.
  { unfold piperead. kcall (curproc_eq s e c p).
    kcall (acquire_eq (sync s) e (sync_cpu c) (LkPipe pi)).
    erewrite bind_ret.
    2:{ cbn [w_env piperead_wait]. kcall (get_pipe_eq _ e pi q).
        assert ((pi_nread q =? pi_nwrite q) && istrue (pi_writeopen q) = false) as ->; [| done].
        destruct Hne as [Hne | Hne]; [| by rewrite Hne, andb_false_r].
        rewrite pipe_empty_count by done. apply andb_false_iff. left. apply Z.eqb_neq.
        pose proof (pipe_contents_length q Hok). destruct (pipe_contents q); [done | cbn in *; lia]. }
    cbn [negb]. kcall (piperead_loop_eq pi p tbl addr n e (Z.to_nat n) (lock_taken (LkPipe pi) (sync s)) q pp 0).
    { lia. }
    rewrite <- bind_assoc.
    kcall (wakeup_release (sync s) _ e (sync_cpu c) (ChPipeW pi) (LkPipe pi)).
    { cbn. lia. } { cbn. by rewrite Hp. } reflexivity. }
  rewrite Z.add_0_r. cbn [c_proc sync_cpu]. rewrite Hp. split; [| split; [| done]].
  - assert (length (take m (pipe_contents q)) = m) as Hlen by (rewrite length_take; lia).
    rewrite <- Hlen at 1. apply (ubytes_uwrite (k_mem s) (p_pagetable pp)); rewrite ?Hlen.
    + done.
    + by apply Forall_take.
    + intros i Hi. apply Hu. lia.
    + intros i j Hi Hj. apply Hinj; lia.
  - cbn. by rewrite lookup_insert_eq.
Qed.

(** C15: Writing a pipe appends.  While the read end is open and the [n] bytes fit,
    [pipewrite] returns [n], the pipe holds what it held followed by the [n] bytes of
    the writer's buffer in order, and waiting readers are woken. *)
Theorem pipewrite_appends s e c p pp tbl pi q addr n :
  running s p c -> c_noff c = 0 -> k_procs s !! p = Some pp -> p_killed pp = 0 -> procs_free s None ->
  lock_free s (LkPipe pi) -> k_pipes s !! pi = Some q -> pipe_ok q -> pi_readopen q <> 0 ->
  pt_wf (k_mem s) (p_pagetable pp) tbl -> 0 <= addr -> 0 <= n ->
  Z.of_nat (length (pipe_contents q)) + n <= PIPESIZE ->
  (forall j, 0 <= j < n -> user_ok false (k_mem s) tbl (addr + j)) ->
  exists s' q', pipewrite pi addr n (mkworld s e) = Ret n (mkworld s' e) /\
    k_pipes s' !! pi = Some q' /\ pipe_ok q' /\
    pipe_contents q' = pipe_contents q ++ ubytes (k_mem s) tbl addr (Z.to_nat n) /\
    k_mem s' = k_mem s /\ k_procs s' = wake_all (ChPipeR pi) (Some p) (k_procs s) /\ k_locks s' = k_locks s.
Proof.
  intros Hr Hn Hpp Hk Hf Hl Hq Hok Hro Hwf Ha Hn0 Hroom Hu.
  pose proof Hr as (Hc & Hp & Hlt). pose proof (cpu_ok_sync s c Hc) as Hc'.
  pose proof Hf as [Hplen Hpf].
  set (l := ubytes (k_mem s) tbl addr (Z.to_nat n)).
  assert (length l = Z.to_nat n) as Hll by (unfold l, ubytes; by rewrite length_fmap, length_seq).
  destruct (pipe_append_contents l q Hok) as [Hac Haok]; [lia |].
  eexists _, (pipe_append l q). split.
  { unfold pipewrite. kcall (curproc_eq s e c p).
    kcall (acquire_eq (sync s) e (sync_cpu c) (LkPipe pi)).
    cbn [w_env]. erewrite bind_ret.
    2:{ apply (pipewrite_loop_eq pi p tbl addr n e (Z.to_nat n) _ (lock_taken (LkPipe pi) (sync s)) q pp 0);
          try done; try lia.
        - apply (in_section_taken (sync s) p (sync_cpu c) (LkPipe pi) pp); try done.
          by apply Hpf. }
    cbv beta iota. rewrite <- bind_assoc.
    kcall (wakeup_release (sync s) _ e (sync_cpu c) (ChPipeR pi) (LkPipe pi)).
    { cbn. lia. } { split; [done |]. intros i Hi _. by apply Hpf. } reflexivity. }
  rewrite Z.add_0_r. cbn [c_proc sync_cpu]. rewrite Hp.
  split; [cbn; by rewrite lookup_insert_eq | done].
Qed.
End pipe.

(** ** Examples *)

(** A pipe in a page of its own with the bytes 1, 2, 3 in it, shared by the
    running process of [sample_vm]. *)
Definition sample_pipe : pipe := mkpipe ([1; 2; 3] ++ replicate 509 5) 0 3 1 1.
Definition sample_piped : kstate :=
  sample_vm <| k_pipes := {[ 0x87ffe000 := sample_pipe ]} |>
            <| k_procs ::= alter (fun p => p <| p_pagetable := sample_root |>) 3%nat |>.
Definition sample_piped_proc : proc := sample_proc <| p_pagetable := sample_root |>.
Lemma sample_piped_running : running sample_piped 3 sample_cpu.
Proof. split; [exact sample_cpu_ok | split; [done | by vm_compute; lia]]. Qed.
Lemma sample_pipe_ok : pipe_ok sample_pipe.
Proof. by vm_compute. Qed.
Lemma sample_piped_free me : procs_free sample_piped me.
Proof.
  destruct (procs_free_dec sample_piped None) as [Hl Hf]; [by vm_compute |].
  split; [done |]. intros i Hi _. by apply Hf.
Qed.

Lemma piperead_fifo_witness :
  exists s' q', piperead 0x87ffe000 4 2 (mkworld sample_piped []) = Ret 2 (mkworld s' []) /\
    ubytes (k_mem s') sample_tbl 4 2 = [1; 2] /\
    k_pipes s' !! 0x87ffe000 = Some q' /\ pipe_ok q' /\ pipe_contents q' = [3] /\
    k_procs s' = wake_all (ChPipeW 0x87ffe000) (Some 3%nat) (k_procs sample_piped) /\
    k_locks s' = k_locks sample_piped.
Proof.
  apply (piperead_fifo sample_piped [] sample_cpu 3 sample_piped_proc sample_tbl 0x87ffe000 sample_pipe 4 2).
  - exact sample_piped_running.
  - reflexivity.
  - reflexivity.
  - apply sample_piped_free.
  - apply lock_free_dec. by vm_compute.
  - reflexivity.
  - exact sample_pipe_ok.
  - by left.
  - vm_compute. by repeat constructor.
  - exact sample_vm_wf.
  - lia.
  - lia.
  - intros j Hj. apply sample_user_ok. lia.
  - intros i j Hi Hj. change (k_mem sample_piped) with (k_mem sample_vm). unfold uaddr.
    rewrite !sample_entry by lia. unfold PGSIZE. rewrite !Z.mod_small by lia. lia.
Defined.

Lemma pipewrite_appends_witness :
  exists s' q', pipewrite 0x87ffe000 4 3 (mkworld sample_piped []) = Ret 3 (mkworld s' []) /\
    k_pipes s' !! 0x87ffe000 = Some q' /\ pipe_ok q' /\
    pipe_contents q' = [1; 2; 3] ++ ubytes (k_mem sample_piped) sample_tbl 4 3 /\
    k_mem s' = k_mem sample_piped /\
    k_procs s' = wake_all (ChPipeR 0x87ffe000) (Some 3%nat) (k_procs sample_piped) /\
    k_locks s' = k_locks sample_piped.
Proof.
  apply (pipewrite_appends sample_piped [] sample_cpu 3 sample_piped_proc sample_tbl 0x87ffe000 sample_pipe 4 3).
  - exact sample_piped_running.
  - reflexivity.
  - reflexivity.
  - reflexivity.
  - apply sample_piped_free.
  - apply lock_free_dec. by vm_compute.
  - reflexivity.
  - exact sample_pipe_ok.
  - done.
  - exact sample_vm_wf.
  - lia.
  - lia.
  - by vm_compute.
  - intros j Hj. destruct (sample_user_ok j Hj). by split.
Defined.
