(* ===== verification/File.v ===== *)
(** * Open files ([kernel/file.c], [pipealloc] of [kernel/pipe.c])

    The table of open files with reference counts, and reads and writes
    dispatched on the kind of file.  The device switch has the console entry
    that [consoleinit] installs. *)
From S2P Require Import Prelude Kstate Bytes CString Spinlock Mem Sample Sched Sleeplock Virtio Bio Printf Log Kalloc Vm Fs Pipe Console.
Local Open Scope Z_scope.

Section file.
Context `{Image} `{DiskDriver}.

(** ** The code *)
Definition CONSOLE : Z := 1.
Definition devsw_read (major : Z) : option (kdst -> Z -> K Z) :=
  if major =? CONSOLE then Some consoleread else None.
Definition devsw_write (major : Z) : option (ksrc -> Z -> K Z) :=
  if major =? CONSOLE then Some consolewrite else None.

Definition get_file (f : nat) : K file := get_nth k_files f.
Definition upd_file (f : nat) (g : file -> file) : K unit :=
  put (fun s => s <| k_files ::= alter g f |>).

Definition fileinit : K unit := initlock LkFtable "ftable".

Definition filealloc : K (option nat) :=
  acquire LkFtable ;;;
  let! r := search (seq 0 NFILE) (fun f =>
    let! x := get_file f in
    if f_ref x =? 0 then
      upd_file f (fun x => x <| f_ref := 1 |>) ;;;
      release LkFtable ;;;
      ret (Some f)
    else ret None) in
  match r with
  | Some f => ret (Some f)
  | None => release LkFtable ;;; ret None
  end.

Definition filedup (f : nat) : K nat :=
  acquire LkFtable ;;;
  let! x := get_file f in
  if f_ref x <? 1 then panic "filedup" else
  upd_file f (fun x => x <| f_ref := s32 (f_ref x + 1) |>) ;;;
  release LkFtable ;;;
  ret f.

(** [iput] through a pointer that may be null. *)
Definition iput_ptr (o : option nat) : K unit :=
  match o with
  | Some i => iput i
  | None => fault
  end.

Definition fileclose (f : nat) : K unit :=
  acquire LkFtable ;;;
  let! x := get_file f in
  if f_ref x <? 1 then panic "fileclose" else
  upd_file f (fun x => x <| f_ref := s32 (f_ref x - 1) |>) ;;;
  let! x := get_file f in
  if 0 <? f_ref x then release LkFtable else
  let ff := x in
  upd_file f (fun x => x <| f_ref := 0 |>) ;;;
  upd_file f (fun x => x <| f_type := FD_NONE |>) ;;;
  release LkFtable ;;;
  match f_type ff with
  | FD_PIPE => pipeclose (f_pipe ff) (f_writable ff)
  | FD_INODE | FD_DEVICE => begin_op ;;; iput_ptr (f_ip ff) ;;; end_op
  | FD_NONE => ret tt
  end.

(** The bytes of a [struct stat] in memory; the padding is shown as zeros. *)
Definition stat_bytes (st : stat) : list Z :=
  le_put 4 (st_dev st) ++ le_put 4 (st_ino st) ++ le_put 2 (st_type st) ++ le_put 2 (st_nlink st) ++
  replicate 4 0 ++ le_put 8 (st_size st).

Definition inode_ptr (o : option nat) : K nat :=
  match o with
  | Some i => ret i
  | None => fault
  end.

Definition filestat (f : nat) (addr : Z) : K Z :=
  let! p := curproc in
  let! x := get_file f in
  match f_type x with
  | FD_INODE | FD_DEVICE =>
      ilock (f_ip x) ;;;
      let! i := inode_ptr (f_ip x) in
      let! st := stati i in
      iunlock (f_ip x) ;;;
      let! pr := get_proc p in
      let! r := copyout (p_pagetable pr) addr (stat_bytes st) in
      if r <? 0 then ret (-1) else ret 0
  | _ => ret (-1)
  end.

Definition fileread (f : nat) (addr n : Z) : K Z :=
  let! x := get_file f in
  if f_readable x =? 0 then ret (-1) else
  match f_type x with
  | FD_PIPE => piperead (f_pipe x) addr n
  | FD_DEVICE =>
      if (f_major x <? 0) || (NDEV <=? f_major x) then ret (-1) else
      match devsw_read (f_major x) with
      | None => ret (-1)
      | Some rd => rd (DUser addr) n
      end
  | FD_INODE =>
      ilock (f_ip x) ;;;
      let! i := inode_ptr (f_ip x) in
      let! x := get_file f in
      let! r := readi i (DUser addr) (f_off x) (u32 n) in
      (if 0 <? fst r then upd_file f (fun x => x <| f_off := u32 (f_off x + fst r) |>) else ret tt) ;;;
      iunlock (f_ip x) ;;;
      ret (fst r)
  | FD_NONE => panic "fileread"
  end.

(** [while(i < n)] of [filewrite]: the final [i]. *)
Fixpoint filewrite_loop (fuel : nat) (f : nat) (addr i n : Z) : K Z :=
  match fuel with
  | O => ret i
  | S k =>
      if i <? n then
        let max := (MAXOPBLOCKS - 1 - 1 - 2) / 2 * BSIZE in
        let n1 := Z.min (n - i) max in
        begin_op ;;;
        let! x := get_file f in
        ilock (f_ip x) ;;;
        let! ip := inode_ptr (f_ip x) in
        let! x := get_file f in
        let! r := writei ip (SUser (u64 (addr + i))) (f_off x) n1 in
        (if 0 <? r then upd_file f (fun x => x <| f_off := u32 (f_off x + r) |>) else ret tt) ;;;
        iunlock (f_ip x) ;;;
        end_op ;;;
        if negb (r =? n1) then ret i
        else filewrite_loop k f addr (i + r) n
      else ret i
  end.

Definition filewrite (f : nat) (addr n : Z) : K Z :=
  let! x := get_file f in
  if f_writable x =? 0 then ret (-1) else
  match f_type x with
  | FD_PIPE => pipewrite (f_pipe x) addr n
  | FD_DEVICE =>
      if (f_major x <? 0) || (NDEV <=? f_major x) then ret (-1) else
      match devsw_write (f_major x) with
      | None => ret (-1)
      | Some wr => wr (SUser addr) n
      end
  | FD_INODE =>
      let! i := filewrite_loop (Z.to_nat n) f addr 0 n in
      ret (if i =? n then n else -1)
  | FD_NONE => panic "filewrite"
  end.

(** [bad:] of [pipealloc]; the page is never allocated when it is reached. *)
Definition pipealloc_bad (f0 f1 : option nat) : K (option (nat * nat)) :=
  (match f0 with Some f => fileclose f | None => ret tt end) ;;;
  (match f1 with Some f => fileclose f | None => ret tt end) ;;;
  ret None.

Definition pipealloc : K (option (nat * nat)) :=
  let! o0 := filealloc in
  match o0 with
  | None => pipealloc_bad None None
  | Some f0 =>
      let! o1 := filealloc in
      match o1 with
      | None => pipealloc_bad (Some f0) None
      | Some f1 =>
          let! pi := kalloc in
          if pi =? 0 then pipealloc_bad (Some f0) (Some f1) else
          pipe_init pi ;;;
          upd_file f0 (fun x => x <| f_type := FD_PIPE |> <| f_readable := 1 |>
                                 <| f_writable := 0 |> <| f_pipe := pi |>) ;;;
          upd_file f1 (fun x => x <| f_type := FD_PIPE |> <| f_readable := 0 |>
                                 <| f_writable := 1 |> <| f_pipe := pi |>) ;;;
          ret (Some (f0, f1))
      end
  end.
(** ** Reference counts *)
Fixpoint find_unref (l : list file) (i : nat) : option nat :=
  match l with
  | [] => None
  | x :: r => if f_ref x =? 0 then Some i else find_unref r (S i)
  end.

Lemma find_unref_spec l : forall k,
  match find_unref l k with
  | Some i => (k <= i)%nat /\ f_ref <$> l !! (i - k)%nat = Some 0 /\
      forall j x, (j < i - k)%nat -> l !! j = Some x -> f_ref x <> 0
  | None => Forall (fun x => f_ref x <> 0) l
  end.
Proof.
  induction l as [| x l IH]; intros k; cbn [find_unref]; [done |].
  destruct (Z.eqb_spec (f_ref x) 0) as [Hx | Hx].
  - rewrite Nat.sub_diag. cbn. rewrite Hx. split; [done |]. split; [done |]. intros j y Hj. lia.
  - specialize (IH (S k)). destruct (find_unref l (S k)) as [i |]; [| by constructor].
    destruct IH as (Hk & Hi & Hlow). split; [lia |].
    replace (i - k)%nat with (S (i - S k)) by lia. split; [done |].
    intros [| j] y Hj Hy; [by injection Hy as -> | apply (Hlow j y); [lia | done]].
Qed.

Lemma filealloc_search s s0 e c n k :
  cpu_ok s0 c -> lock_free s0 LkFtable -> k_hart s = k_hart s0 ->
  k_cpus s = k_cpus (lock_taken LkFtable s0) -> k_locks s = k_locks (lock_taken LkFtable s0) ->
  (k + n = length (k_files s))%nat ->
  search (seq k n) (fun f =>
    let! x := get_file f in
    if f_ref x =? 0 then
      upd_file f (fun x => x <| f_ref := 1 |>) ;;;
      release LkFtable ;;;
      ret (Some f)
    else ret None) (mkworld s e) =
  match find_unref (drop k (k_files s)) k with
  | Some i => Ret (Some i) (mkworld (s <| k_files ::= alter (fun x => x <| f_ref := 1 |>) i |>
                                       <| k_cpus := k_cpus (sync s0) |> <| k_locks := k_locks s0 |>) e)
  | None => Ret None (mkworld s e)
  end.
Proof.
  intros Hc Hl Hh Hcs Hls. revert k. induction n as [| n IH]; intros k Hk.
  { rewrite drop_ge by lia. done. }
  destruct (lookup_lt_is_Some_2 (k_files s) k) as [x Hx]; [lia |].
  rewrite (drop_S _ x) by done. cbn [find_unref seq search].
  rewrite bind_assoc. kcall (get_nth_eq k_files k s e x).
  destruct (f_ref x =? 0); krun.
  - unfold upd_file. rewrite bind_put. rewrite bind_assoc.
    kcall (release_section s0 _ e c LkFtable). krun. done.
  - apply IH. lia.
Qed.

Lemma filealloc_eq s e c :
  cpu_ok s c -> lock_free s LkFtable -> length (k_files s) = NFILE ->
  filealloc (mkworld s e) =
  match find_unref (k_files s) 0 with
  | Some i => Ret (Some i) (mkworld ((sync s) <| k_files ::= alter (fun x => x <| f_ref := 1 |>) i |>) e)
  | None => Ret None (mkworld (sync s) e)
  end.
Proof.
  intros Hc Hl Hlen. unfold filealloc. kcall (acquire_eq s e c LkFtable).
  unfold bind at 1. rewrite (filealloc_search (lock_taken LkFtable s) s e c NFILE 0) by done.
  rewrite drop_0. change (k_files (lock_taken LkFtable s)) with (k_files s).
  destruct (find_unref (k_files s) 0); [done |].
  kcall (release_section s _ e c LkFtable). done.
Qed.

Lemma filedup_eq s e c f x :
  cpu_ok s c -> lock_free s LkFtable -> k_files s !! f = Some x -> 1 <= f_ref x < 2 ^ 31 - 1 ->
  filedup f (mkworld s e) = Ret f (mkworld ((sync s) <| k_files ::= alter (fun x => x <| f_ref := f_ref x + 1 |>) f |>) e).
Proof.
  intros Hc Hl Hx Hr. unfold filedup. kcall (acquire_eq s e c LkFtable).
  kcall (get_nth_eq k_files f (lock_taken LkFtable s) e x). rewrite (proj2 (Z.ltb_ge _ _)) by lia.
  unfold upd_file. krun. kcall (release_section s _ e c LkFtable). krun. apply ret_world. upd_eq.
  apply list_alter_ext; [| done]. intros y Hy. assert (y = x) as -> by congruence.
  by rewrite s32_small by lia.
Qed.

Lemma fileclose_shared_eq s e c f x :
  cpu_ok s c -> lock_free s LkFtable -> k_files s !! f = Some x -> 2 <= f_ref x < 2 ^ 31 ->
  fileclose f (mkworld s e) = Ret tt (mkworld ((sync s) <| k_files ::= alter (fun x => x <| f_ref := f_ref x - 1 |>) f |>) e).
Proof.
  intros Hc Hl Hx Hr. unfold fileclose. kcall (acquire_eq s e c LkFtable).
  kcall (get_nth_eq k_files f (lock_taken LkFtable s) e x). rewrite (proj2 (Z.ltb_ge _ _)) by lia.
  unfold upd_file at 1. krun.
  kcall (get_nth_eq k_files f _ e (x <| f_ref := s32 (f_ref x - 1) |>)).
  { cbn. by rewrite list_lookup_alter_eq, Hx. }
  cbn [f_ref upd]. rewrite s32_small by lia. rewrite (proj2 (Z.ltb_lt _ _)) by lia.
  rewrite (release_section s _ e c LkFtable) by done. apply ret_world. upd_eq.
  apply list_alter_ext; [| done]. intros y Hy. assert (y = x) as -> by congruence.
  by rewrite s32_small by lia.
Qed.

(** ** Properties *)

(** [filealloc] hands out a file nobody uses: it returns the first entry of the
    file table with no references, now with one, and leaves the other entries alone;
    it returns null, changing nothing, exactly when every entry is referenced. *)
Theorem filealloc_first s e c :
  cpu_ok s c -> lock_free s LkFtable -> length (k_files s) = NFILE ->
  exists r s', filealloc (mkworld s e) = Ret r (mkworld s' e) /\ k_locks s' = k_locks s /\
    match r with
    | Some i => f_ref <$> k_files s !! i = Some 0 /\
        (forall j x, (j < i)%nat -> k_files s !! j = Some x -> f_ref x <> 0) /\
        k_files s' = alter (fun x => x <| f_ref := 1 |>) i (k_files s)
    | None => Forall (fun x => f_ref x <> 0) (k_files s) /\ k_files s' = k_files s
    end.
Proof.
  intros Hc Hl Hlen. pose proof (filealloc_eq s e c Hc Hl Hlen) as Heq.
  pose proof (find_unref_spec (k_files s) 0) as Hs.
  destruct (find_unref (k_files s) 0) as [i |]; eexists _, _; (split; [exact Heq |]); [| done].
  destruct Hs as (_ & Hi & Hlow). rewrite Nat.sub_0_r in *. done.
Qed.

(** Every duplicate of an open file is matched by one close: [filedup] followed by
    [fileclose] on a file in use returns with the table, the locks and the rest of the
    kernel state as they were, and never closes the underlying pipe or inode. *)
Theorem filedup_fileclose s e c f x :
  cpu_ok s c -> lock_free s LkFtable -> k_files s !! f = Some x -> 1 <= f_ref x < 2 ^ 31 - 1 ->
  (filedup f ;;; fileclose f) (mkworld s e) = Ret tt (mkworld (sync s) e).
Proof.
  intros Hc Hl Hx Hr. kcall (filedup_eq s e c f x).
  rewrite (fileclose_shared_eq _ e (sync_cpu c) f (x <| f_ref := f_ref x + 1 |>)).
  - apply ret_world. transitivity ((sync (sync s)) <| k_files := k_files s |>); [| rewrite sync_idem; by destruct s].
    upd_eq. rewrite list_alter_alter_eq. apply (alter_same _ _ _ x); [done |].
    destruct x as [t r rd wr pi ip off mj].
    transitivity (mkfile t (r + 1 - 1) rd wr pi ip off mj); [done | by rewrite Z.add_simpl_r].
  - by apply cpu_ok_sync.
  - done.
  - cbn. by rewrite list_lookup_alter_eq, Hx.
  - cbn. lia.
Qed.
End file.

(** ** Examples *)
(** Entry 0 is open twice. *)
Definition sample_open : kstate :=
  sample <| k_files ::= <[0%nat := mkfile FD_PIPE 2 1 0 0x87ffe000 None 0 0]> |>.

Lemma filealloc_first_witness :
  exists r s', filealloc (mkworld sample_open []) = Ret r (mkworld s' []) /\ k_locks s' = k_locks sample_open /\
    match r with
    | Some i => f_ref <$> k_files sample_open !! i = Some 0 /\
        (forall j x, (j < i)%nat -> k_files sample_open !! j = Some x -> f_ref x <> 0) /\
        k_files s' = alter (fun x => x <| f_ref := 1 |>) i (k_files sample_open)
    | None => Forall (fun x => f_ref x <> 0) (k_files sample_open) /\ k_files s' = k_files sample_open
    end.
Proof.
  apply (filealloc_first sample_open [] sample_cpu).
  - exact sample_cpu_ok.
  - apply lock_free_dec. by vm_compute.
  - reflexivity.
Defined.

Lemma filedup_fileclose_witness :
  (filedup 0 ;;; fileclose 0) (mkworld sample_open []) = Ret tt (mkworld (sync sample_open) []).
Proof.
  apply (filedup_fileclose sample_open [] sample_cpu 0 (mkfile FD_PIPE 2 1 0 0x87ffe000 None 0 0)).
  - exact sample_cpu_ok.
  - apply lock_free_dec. by vm_compute.
  - reflexivity.
  - by vm_compute.
Defined.
