(* ===== verification/FileWrite.v ===== *)
(** * Writing to a file ([filewrite] of [kernel/file.c])

    [filewrite] of a regular file runs [writei] in a transaction.  Whenever the power
    fails, the file on the disk, once a boot has recovered, has its old contents or the
    new ones. *)
From S2P Require Import Prelude Kstate Bytes CString Spinlock Mem Sample Kalloc Sched PageTable UserMem Vm Sleeplock Virtio Bio Printf Disk Log Commit Recovery Fs Inode Writei File.
Local Open Scope Z_scope.

(** ** Inode locks *)
Section ilock.
Context {Im : Image} `{DiskLaws} (p : nat) (pid : Z) (dev : Z).
Notation bstate := (bstate p pid dev).

Lemma bstate_islock L P own dirty mem i k s :
  bstate L P own dirty mem s -> bstate L P own dirty mem (s <| k_slocks ::= <[SlInode i := k]> |>).
Proof.
  intros (Hm & HL & Hlru & Hsl & Hca). split; [exact Hm |]. split; [exact HL |]. split; [exact Hlru |]. split; [| exact Hca].
  intros b Hb. unfold slock_held, slock_of in *. cbn. rewrite lookup_insert_ne by done. by apply Hsl.
Qed.
Lemma bstate_wake L P own dirty mem ch s :
  bstate L P own dirty mem s -> bstate L P own dirty mem (s <| k_procs ::= wake_all ch (Some p) |>).
Proof. intros (Hm & Hrest). split; [by apply machine_wake | exact Hrest]. Qed.
Lemma ilocks_same s s' i : fs_env s' = fs_env s -> (i < NINODE)%nat ->
  slock_of s' (SlInode i) = slock_of s (SlInode i) /\ (lock_free s (LkSleep (SlInode i)) -> lock_free s' (LkSleep (SlInode i))).
Proof.
  intros He Hi. assert (ilocks s' !! i = ilocks s !! i) as Hx by (f_equal; exact (f_equal snd He)). unfold ilocks in Hx.
  rewrite !list_lookup_fmap, lookup_seq_lt in Hx by done. cbn in Hx. injection Hx as Hsl Hlk. split; [done |].
  intros (l & Hl' & Hf). exists l. split; [by rewrite Hlk | done].
Qed.

(** An inode that was read from the disk before is only locked. *)
Lemma ilock_performs L P own dirty mem i ip s :
  bstate L P own dirty mem s -> k_inodes s !! i = Some ip -> 1 <= i_ref ip -> i_valid ip <> 0 ->
  lock_free s (LkSleep (SlInode i)) -> slock_held s (SlInode i) = false ->
  performs (ilock (Some i)) [] (fun _ s' => s' = slock_taken (SlInode i) pid (sync s)) s.
Proof.
  intros ((c & pr & Hr & Hn & Hpr & Hpid & _) & _) Hi Href Hv Hl Hh. unfold ilock. eapply performs_inode; [done |].
  rewrite (proj2 (Z.ltb_ge _ _)) by lia.
  apply (performs_seq _ _ _ (fun _ s' => s' = slock_taken (SlInode i) pid (sync s))).
  - apply (performs_ret _ tt s (slock_taken (SlInode i) pid (sync s))); [| done | done]. intros e. rewrite <- Hpid.
    apply (acquiresleep_free_eq s e c p pr (SlInode i)); try done. lia.
  - intros [] s1 ->. eapply performs_inode; [exact Hi |]. rewrite (proj2 (Z.eqb_neq _ _) Hv). by apply performs_done.
Qed.
Lemma iunlock_exact L P own dirty mem i ip s :
  bstate L P own dirty mem s -> k_inodes s !! i = Some ip -> 1 <= i_ref ip ->
  lock_free s (LkSleep (SlInode i)) -> slock_held s (SlInode i) = true -> sl_pid (slock_of s (SlInode i)) = pid ->
  performs (iunlock (Some i)) []
    (fun _ s' => s' = (slock_freed (SlInode i) (sync (sync s))) <| k_procs ::= wake_all (ChSleep (SlInode i)) (Some p) |>) s.
Proof.
  intros Hs Hi Href Hl Hh Hp. pose proof Hs as ((c & pr & Hr & Hn & Hpr & Hpid & _) & _).
  unfold iunlock. apply (performs_seq _ _ _ (fun b s' => b = true /\ s' = sync s)).
  - apply (performs_ret _ true s (sync s)); [| done | done]. intros e.
    rewrite (holdingsleep_eq s e c p pr (SlInode i)) by (done || lia). by rewrite Hh, Hp, Hpid, Z.eqb_refl.
  - intros b s1 [-> ->]. cbn [negb]. eapply performs_inode; [exact Hi |]. rewrite (proj2 (Z.ltb_ge _ _)) by lia.
    apply bstate_sync in Hs. pose proof Hs as ((c1 & pr1 & (Hc1 & Hcp1 & _) & Hn1 & _ & _ & Hpf1 & _) & _).
    eapply performs_ret; [| | reflexivity]; [| done]. intros e. rewrite <- Hcp1. apply (releasesleep_eq (sync s) e c1 (SlInode i)); [done | lia | by rewrite Hcp1 | done].
Qed.
Lemma iunlock_performs L P own dirty mem i ip s :
  bstate L P own dirty mem s -> k_inodes s !! i = Some ip -> 1 <= i_ref ip ->
  lock_free s (LkSleep (SlInode i)) -> slock_held s (SlInode i) = true -> sl_pid (slock_of s (SlInode i)) = pid ->
  performs (iunlock (Some i)) [] (fun _ s' => bstate L P own dirty mem s') s.
Proof.
  intros Hs Hi Href Hl Hh Hp. eapply performs_mono; [by eapply iunlock_exact |]. intros [] s' ->.
  by apply (bstate_wake L P own dirty mem (ChSleep (SlInode i)) (slock_freed (SlInode i) (sync (sync s)))), bstate_islock, bstate_sync, bstate_sync.
Qed.
End ilock.

(** A step that writes nothing to the disk, followed by the rest. *)
Lemma performs_then {A B} (m : K A) (k : A -> K B) Q s e (R : outcome world B -> Prop) :
  performs m [] Q s ->
  (forall a s' e', length e' = length e -> k_disk s' = k_disk s -> Q a s' -> R (k a (mkworld s' e'))) ->
  R (bind m k (mkworld s e)).
Proof.
  intros Hm Hk. specialize (Hm e). unfold bind. destruct (m (mkworld s e)) as [a [s' e'] | | w]; [| done | cbn in *; lia].
  destruct Hm as (Hlen & Hd & HQ). cbn in *. by apply Hk.
Qed.
Lemma get_file_then {B} f x (k : file -> K B) s e (R : outcome world B -> Prop) :
  k_files s !! f = Some x -> R (k x (mkworld s e)) -> R (bind (get_file f) k (mkworld s e)).
Proof. intros Hf HR. unfold get_file. by rewrite (bind_ret _ _ _ _ _ (get_nth_eq _ _ _ _ _ Hf)). Qed.

Section filewrite.
Context {Im : Image} `{DiskLaws} (p : nat) (pid : Z) (dev : Z) (sb : superblock) (O : gset Z).
Implicit Types (mem : view).

(** ** The state before the write

    The file [ip] on a disk with the contents [mem], and everything else, [O], as
    [Writei] wants them; the log is at [l_start L]. *)
Record file_inv (L : log) mem (ip : inode) : Prop := {
  fv_fits : sb_fits L sb;
  fv_owned : owned sb O mem ip;
  fv_meta : meta L sb O mem;
  fv_file : file_ok dev mem ip;
  fv_inode : inode_ok ip;
  fv_block : inode_block sb ip ∈ O /\ inode_block sb ip <> bmap_block sb /\ ~ log_area L (inode_block sb ip);
  fv_entry : read_dinode (mem (inode_block sb ip)) (dinode_off (i_inum ip)) = dinode_of ip
}.
(** Open file [f] is the inode in slot [i], which is in memory and not locked. *)
Record open_inv (f i : nat) (x : file) (ip : inode) (s : kstate) : Prop := {
  ov_file : k_files s !! f = Some x;
  ov_type : f_type x = FD_INODE;
  ov_writable : f_writable x <> 0;
  ov_ip : f_ip x = Some i;
  ov_slot : (i < NINODE)%nat;
  ov_inode : k_inodes s !! i = Some ip;
  ov_ref : 1 <= i_ref ip;
  ov_valid : i_valid ip <> 0;
  ov_lock : lock_free s (LkSleep (SlInode i)) /\ slock_held s (SlInode i) = false
}.
(** The caller's memory has [n] readable bytes at [va]. *)
Record user_inv (root : Z) (tbl : gmap (list Z) Z) (va n : Z) (s : kstate) : Prop := {
  uv_proc : exists pr, k_procs s !! p = Some pr /\ p_pagetable pr = root;
  uv_wf : pt_wf (k_mem s) root tbl;
  uv_va : 0 <= va < MAXVA;
  uv_user i : 0 <= i < n -> user_ok false (k_mem s) tbl (va + i)
}.

Section piece.
Context (L : log) (s : kstate) (f i : nat) (x : file) (ip : inode) (root : Z) (tbl : gmap (list Z) Z) (va n : Z).
Hypothesis (Hidle : idle p pid dev L s) (Hsb : k_sb s = sb).
Hypothesis (Hopen : open_inv f i x ip s) (Huser : user_inv root tbl va n s).
Let v := disk_view (k_disk s).
Hypothesis (Hinv : file_inv L v ip) (Hn : 0 < n <= 3 * BSIZE).
Hypothesis (Hoff : 0 <= f_off x <= i_size ip) (Hmax : f_off x + n <= MAXFILE * BSIZE).

Definition txn_started : log := L <| l_outstanding ::= fun k => k + 1 |>.
Let data := ubytes (k_mem s) tbl va (Z.to_nat n).

(** The transaction when the inode is unlocked: [r] bytes were written. *)
Record txn_done (r : Z) (L' : log) mem (ip' : inode) (s' : kstate) : Prop := {
  td_count : 0 <= r <= n;
  td_state : exists dirty, bstate p pid dev L' (list_to_set (homes L')) [] dirty mem s' /\ forall m, m ∈ dirty -> m ∈ homes L';
  td_log : log_ok L' /\ NoDup (homes L') /\ log_frame txn_started L' /\ lh_n L' <= 7;
  td_written : written dev txn_started sb O (f_off x) (take (Z.to_nat r) data) v ip mem ip';
  td_full : r < n -> full sb mem
}.

(** The caller's memory is the one of [s]. *)
Definition same_user (s' : kstate) : Prop :=
  (exists pr, k_procs s' !! p = Some pr /\ p_pagetable pr = root) /\ k_mem s' = k_mem s.
Lemma piece_source : source p pid dev txn_started n (fun k => SUser (va + k)) data same_user.
Proof. destruct Huser as [Hp Hwf Hva Hu]. apply user_source; [done | done | lia | done]. Qed.
Lemma same_user_stable s1 : fs_env s1 = fs_env s -> same_user s1.
Proof. intros He. apply (so_stable _ _ _ _ _ _ _ _ piece_source s s1); [| done]. destruct Huser as [Hp _ _ _]. by split. Qed.

Lemma txn_started_bstate s1 : bstate p pid dev txn_started ∅ [] ∅ v s1 -> in_txn p pid dev txn_started ∅ ∅ [] v s1.
Proof.
  intros Hs. destruct Hidle as (_ & Hok & _ & Hn0 & Ho & _).
  assert (homes txn_started = []) as Hh by (by apply idle_homes). exists txn_started, ∅. rewrite Hh.
  split; [exact Hs |]. split; [by destruct Hok; split |]. split; [constructor |]. split; [cbn; lia |]. split; [done |].
  split; intros m Hm; [by apply not_elem_of_nil in Hm | set_solver].
Qed.

(** [writei] in the transaction. *)
Lemma piece_writei s1 :
  bstate p pid dev txn_started ∅ [] ∅ v s1 -> k_inodes s1 !! i = Some ip -> k_sb s1 = sb -> same_user s1 ->
  performs (writei i (SUser (va + 0)) (f_off x) n) []
    (fun r s' => exists L' mem ip', txn_done r L' mem ip' s' /\ fs_env s' = fs_env s1 /\ k_inodes s' !! i = Some ip') s1.
Proof.
  intros Hs Hi Hsb1 HD. destruct Hinv as [Hfits Hown Hmeta Hfile Hiok (HbO & Hbb & Hbl) Hent].
  pose proof Hidle as (_ & Hok & _ & Hn0 & Ho & _). assert (MAXFILE * BSIZE < 2 ^ 31) as Hbig by done.
  assert (log_ok txn_started) as Hok1 by (by destruct Hok; split).
  assert (meta txn_started sb O v) as Hmeta1 by (destruct Hmeta; by split).
  assert (spare txn_started ∅ 7) as Hspare.
  { split; [done |]. rewrite size_empty. change (lh_n txn_started) with (lh_n L). rewrite Hn0. unfold LOGBLOCKS, MAXOPBLOCKS. lia. }
  eapply performs_mono.
  { apply (writei_performs p pid dev txn_started sb O n _ data _ ∅ v i ip (f_off x) s1 piece_source HD (txn_started_bstate s1 Hs) Hi Hsb1
      (not_elem_of_empty 0) Hfits Hown Hmeta1 Hfile Hiok HbO Hbb Hbl); [lia | lia | lia | exact Hspare]. }
  intros r s2 Hr. cbv beta in Hr. rewrite decide_True in Hr by lia. destruct Hr as (Hr & T' & mem' & ip' & Hat & HT & Hw & Hfull).
  pose proof (at_inode_lookup _ _ _ _ _ _ _ _ _ _ _ Hat) as Hi2.
  destruct Hat as ((L' & dirty & Hs2 & Hok' & Hnd & Ho' & Hfr & Hin & Hdi) & _ & _ & He & _).
  exists L', mem', ip'. split; [| done]. split; [done | | | exact Hw | done].
  - exists dirty. split; [done |]. intros m Hm. destruct (Hdi m Hm) as [| Hx]; [done |]. by apply elem_of_empty in Hx.
  - split; [done |]. split; [done |]. split; [done |].
    pose proof (txn_count txn_started T' L' Hok' Hok1 Hnd Hin) as Hc. rewrite size_empty in HT. change (lh_n txn_started) with (lh_n L) in Hc. lia.
Qed.

(** One iteration of the loop of [filewrite], up to [end_op]. *)
Lemma piece_then {B} (k : Z -> K B) (R : outcome world B -> Prop) e :
  (forall r L' mem ip' s' e', length e' = length e -> k_disk s' = k_disk s -> txn_done r L' mem ip' s' -> R (k r (mkworld s' e'))) ->
  R ((begin_op ;;;
      let! x := get_file f in
      ilock (f_ip x) ;;;
      let! ip := inode_ptr (f_ip x) in
      let! x := get_file f in
      let! r := writei ip (SUser (va + 0)) (f_off x) n in
      (if 0 <? r then upd_file f (fun x => x <| f_off := u32 (f_off x + r) |>) else ret tt) ;;;
      iunlock (f_ip x) ;;;
      k r) (mkworld s e)).
Proof.
  intros Hk. destruct Hopen as [Ox Ot Owr Oip Osl Oin Oref Oval (Olf & Oh)].
  pose proof Hidle as (Hs & Hok & _ & Hn0 & Ho & Hc0).
  apply (performs_then _ _ _ s e R (begin_op_keeps p pid dev L ∅ [] ∅ v s Hs Hc0 ltac:(lia)
    ltac:(rewrite Hn0, Ho; done) ltac:(lia))). intros [] s1 e1 He1 Hd1 [H1 F1]. change (L <| l_outstanding ::= _ |>) with txn_started in H1.
  assert (k_files s1 = k_files s) as Hf1 by exact (f_equal (fun e => e.2.1.1.2) F1).
  apply (get_file_then f x); [by rewrite Hf1 |]. rewrite Oip.
  destruct (ilocks_same s s1 i (f_equal snd F1) Osl) as [Hsl1 Hlf1].
  apply (performs_then _ _ _ s1 e1 R (ilock_performs p pid dev txn_started ∅ [] ∅ v i ip s1 H1 ltac:(by rewrite (fs_rest_inodes _ _ F1))
    Oref Oval (Hlf1 Olf) ltac:(unfold slock_held in *; by rewrite Hsl1))). intros [] s2 e2 He2 Hd2 ->.
  set (s2 := slock_taken (SlInode i) pid (sync s1)).
  assert (bstate p pid dev txn_started ∅ [] ∅ v s2) as H2 by (by apply bstate_islock, bstate_sync).
  change (R ((let! x := get_file f in let! r := writei i (SUser (va + 0)) (f_off x) n in
    (if 0 <? r then upd_file f (fun x => x <| f_off := u32 (f_off x + r) |>) else ret tt) ;;; iunlock (f_ip x) ;;; k r) (mkworld s2 e2))).
  apply (get_file_then f x); [change (k_files s2) with (k_files s1); by rewrite Hf1 |].
  eapply (performs_then _ _ _ s2 e2 R); [apply (piece_writei s2 H2) |].
  { change (k_inodes s2) with (k_inodes s1). by rewrite (fs_rest_inodes _ _ F1). }
  { change (k_sb s2) with (k_sb s1). rewrite <- Hsb. exact (f_equal (fun e => e.2.1.1.1.1) F1). }
  { exact (same_user_stable s1 (f_equal snd F1)). }
  intros r s3 e3 He3 Hd3 (L' & mem & ip' & Htd & Hf3 & Hi3). destruct (ilocks_same s2 s3 i Hf3 Osl) as [Hsl3 Hlf3].
  destruct Htd as [Tr (dirty & Hs3 & Hdi) Tl Tw Tf].
  assert (1 <= i_ref ip') as Href' by (rewrite (wn_ip _ _ _ _ _ _ _ _ _ _ Tw); exact Oref).
  apply (performs_then _ _ (fun _ s4 => bstate p pid dev L' (list_to_set (homes L')) [] dirty mem s4 /\
    k_inodes s4 = k_inodes s3 /\ k_slocks s4 = k_slocks s3 /\ k_locks s4 = k_locks s3) s3 e3 R).
  { destruct (0 <? r); [by apply performs_put | by apply performs_done]. }
  intros [] s4 e4 He4 Hd4 (H4 & Fi4 & Fs4 & Fl4). rewrite Oip.
  assert (slock_of s4 (SlInode i) = slock_of s2 (SlInode i)) as Hsl4 by (unfold slock_of in *; by rewrite Fs4).
  assert (slock_of s2 (SlInode i) = (slock_of s1 (SlInode i)) <| sl_locked := true |> <| sl_pid := pid |>) as Hsl2 by apply slock_of_set.
  eapply (performs_then _ _ _ s4 e4 R); [apply (iunlock_performs p pid dev L' _ [] dirty mem i ip' s4 H4) |].
  { by rewrite Fi4. } { done. }
  { unfold lock_free. rewrite Fl4. apply Hlf3. exact (Hlf1 Olf). }
  { unfold slock_held. by rewrite Hsl4, Hsl2. } { by rewrite Hsl4, Hsl2. }
  intros [] s5 e5 He5 Hd5 H5. apply (Hk r L' mem ip' s5 e5); [congruence | |].
  - rewrite Hd5, Hd4, Hd3, <- Hd1. done.
  - split; [done | by exists dirty | done | done | done].
Qed.

(** ** The whole of [filewrite] *)
Lemma end_piece r L' mem ip' s' fuel : txn_done r L' mem ip' s' ->
  performs (end_op ;;; if negb (r =? n) then ret 0 else filewrite_loop fuel f va (0 + r) n) (end_writes L' mem)
    (fun a _ => a = if r =? n then n else 0) s'.
Proof.
  intros [Hr (dirty & Hs & Hdi) (Hok & Hnd & (G1 & G2 & G3 & G4) & Hlh) _ _]. destruct Hidle as (_ & _ & Hdev & _ & Ho & Hc0).
  rewrite <- (app_nil_r (end_writes L' mem)). eapply performs_bind.
  - apply (end_op_performs p pid dev L' dirty mem s' Hs); try done.
    + by rewrite G2.
    + unfold NBUF, MAXOPBLOCKS. lia.
    + by rewrite G4.
    + rewrite G3. change (l_outstanding L + 1 = 1). lia.
  - intros [] s2 _. destruct (Z.eqb_spec r n) as [-> | Hne]; cbn [negb]; [| by apply performs_done].
    rewrite Z.add_0_l. destruct fuel; cbn [filewrite_loop]; [by apply performs_done |].
    rewrite Z.ltb_irrefl. by apply performs_done.
Qed.

(** What a run of [filewrite] with [k] units of power leaves. *)
Definition write_outcome (k : nat) (o : outcome world Z) : Prop :=
  exists r L' mem ip', 0 <= r <= n /\ log_ok L' /\ l_start L' = l_start L /\
    (forall m, length (mem m) = 1024%nat) /\ (forall m, m ∉ homes L' -> v m = mem m) /\
    written dev txn_started sb O (f_off x) (take (Z.to_nat r) data) v ip mem ip' /\ (r < n -> full sb mem) /\
    match o with
    | Ret a w => a = (if r =? n then n else -1) /\ (length (end_writes L' mem) <= k)%nat /\
        k_disk (w_k w) = disk_after (end_writes L' mem) (k_disk s)
    | Hang w => (k < length (end_writes L' mem))%nat /\ k_disk (w_k w) = disk_after (take k (end_writes L' mem)) (k_disk s)
    | Panic _ => False
    end.

Lemma filewrite_outcome e : write_outcome (length e) (filewrite f va n (mkworld s e)).
Proof.
  pose proof Hopen as [Ox Ot Owr Oip Osl Oin Oref Oval _]. unfold filewrite. apply (get_file_then f x); [done |].
  rewrite (proj2 (Z.eqb_neq _ _) Owr), Ot. assert (exists fuel, Z.to_nat n = S fuel) as [fuel ->] by (exists (pred (Z.to_nat n)); lia).
  set (loop := filewrite_loop (S fuel) f va 0 n).
  enough (match loop (mkworld s e) with
    | Ret a w => write_outcome (length e) (Ret (if a =? n then n else -1) w)
    | Hang w => write_outcome (length e) (Hang w) | Panic m => False end) as Hloop.
  { unfold bind. by destruct (loop (mkworld s e)). }
  unfold loop. cbn [filewrite_loop]. rewrite (proj2 (Z.ltb_lt 0 n)) by lia. cbv zeta.
  change ((MAXOPBLOCKS - 1 - 1 - 2) / 2 * BSIZE) with (3 * BSIZE). rewrite Z.sub_0_r, Z.min_l by lia.
  assert (u64 (va + 0) = va + 0) as ->.
  { apply u64_small. assert (MAXVA < 2 ^ 63) by done. destruct Huser as [_ _ Hva _]. lia. }
  apply (piece_then (fun r => end_op ;;; if negb (r =? n) then ret 0 else filewrite_loop fuel f va (0 + r) n)
    (fun o => match o with Ret a w => write_outcome (length e) (Ret (if a =? n then n else -1) w)
      | Hang w => write_outcome (length e) (Hang w) | Panic m => False end)).
  intros r L' mem ip' s' e' He' Hd' Htd. pose proof (end_piece r L' mem ip' s' fuel Htd e') as Hp.
  destruct Htd as [Hr (dirty & Hs & Hdi) (Hok & Hnd & (G1 & _) & _) Hw Hfull].
  assert (forall m, length (mem m) = 1024%nat) as Hsize by (intros m; by eapply bstate_size).
  assert (forall m, m ∉ homes L' -> v m = mem m) as Hclean.
  { intros m Hm. destruct Hs as (_ & _ & _ & _ & Hca). unfold v. rewrite <- Hd'. symmetry.
    apply (ca_clean _ _ _ _ _ _ _ Hca). auto. }
  destruct ((end_op ;;; _) (mkworld s' e')) as [a w | | w]; [| done |].
  - destruct Hp as (Hlen & Hdw & ->). exists r, L', mem, ip'. do 7 (split; [done |]). rewrite Hdw, Hd'. split; [| split; [lia | done]].
    destruct (Z.eqb_spec r n); [by rewrite Z.eqb_refl |]. by rewrite (proj2 (Z.eqb_neq 0 n)) by lia.
  - destruct Hp as (Hlen & Hdw). exists r, L', mem, ip'. do 7 (split; [done |]). rewrite Hdw, Hd', <- He'. done.
Qed.
End piece.

(** ** The file on the disk *)

(** Inode [inum] as [ilock] reads it, and the bytes of its file. *)
Definition inode_on mem (inum : Z) : inode :=
  load_dinode (read_dinode (mem (IBLOCK inum sb)) (dinode_off inum)) (mkinode dev inum 1 1 0 0 0 0 0 []).
Definition file_on mem (inum : Z) : list Z := content mem (inode_on mem inum).

Lemma file_on_eq mem ip : read_dinode (mem (inode_block sb ip)) (dinode_off (i_inum ip)) = dinode_of ip ->
  file_on mem (i_inum ip) = content mem ip.
Proof. intros He. unfold file_on, inode_on. fold (inode_block sb ip). by rewrite He. Qed.
(** A file's contents are in its blocks. *)
Lemma content_agree mem mem' ip : owned sb O mem' ip -> (forall m, m ∉ O -> mem m = mem' m) -> content mem ip = content mem' ip.
Proof.
  intros Hown Hsame. unfold content, extent. f_equal. f_equal. apply list_fmap_ext. intros j k [-> Hk]%lookup_seq.
  assert (block_addr mem ip (Z.of_nat (0 + j)) = block_addr mem' ip (Z.of_nat (0 + j))) as Ha.
  { unfold block_addr. destruct (_ <? _); [done |]. destruct (Z.eqb_spec (indirect ip) 0) as [| Hi]; [done |].
    destruct (ow_ind _ _ _ _ Hown Hi) as (_ & _ & HO). by rewrite Hsame. }
  unfold nth_block. rewrite Ha. destruct (Z.eqb_spec (block_addr mem' ip (Z.of_nat (0 + j))) 0) as [| Hnz]; [done |].
  apply Hsame. destruct (ow_blk _ _ _ _ Hown (Z.of_nat (0 + j))) as [(_ & _ & HO) _]; [lia | done | done].
Qed.

(** What is on the disk after a recovery, if the write took effect or not. *)
Definition unwritten (v v' : view) (ip : inode) : Prop := file_on v' (i_inum ip) = file_on v (i_inum ip).
Definition overwritten (v v' : view) (ip : inode) (off : Z) (w : list Z) : Prop :=
  file_on v' (i_inum ip) =
    take (Z.to_nat off) (file_on v (i_inum ip)) ++ w ++ drop (Z.to_nat off + length w) (file_on v (i_inum ip)).
Definition others_same (v v' : view) (ip : inode) : Prop :=
  (forall m, m ∈ O -> m <> bmap_block sb -> m <> inode_block sb ip -> ~ in_log (log_start sb) m -> v' m = v m) /\
  (forall o, (o + 64 <= dinode_off (i_inum ip) \/ dinode_off (i_inum ip) + 64 <= o)%nat ->
     read_dinode (v' (inode_block sb ip)) o = read_dinode (v (inode_block sb ip)) o).

Section recovered.
Context (L : log) (v v' : view) (ip : inode) (Hinv : file_inv L v ip) (Hst : l_start L = log_start sb).

Lemma not_log m : ~ log_area L m -> ~ in_log (log_start sb) m.
Proof. by rewrite <- Hst. Qed.
Lemma recovered_old : (forall m, ~ in_log (log_start sb) m -> v' m = v m) -> unwritten v v' ip /\ others_same v v' ip.
Proof.
  intros Hv. destruct Hinv as [Hfits Hown Hmeta Hfile Hiok (HbO & Hbb & Hbl) Hent].
  assert (v' (inode_block sb ip) = v (inode_block sb ip)) as Hb by (by apply Hv, not_log).
  split; [| split; [auto | by rewrite Hb]]. unfold unwritten. rewrite !file_on_eq by (by rewrite ?Hb).
  apply content_agree; [done |]. intros m Hm. apply Hv, not_log. intros Hl. by apply Hm, (me_log _ _ _ _ Hmeta).
Qed.
Lemma recovered_new mem ip' off w : written dev (txn_started L) sb O off w v ip mem ip' ->
  (forall m, ~ in_log (log_start sb) m -> v' m = mem m) ->
  overwritten v v' ip off w /\ others_same v v' ip /\ (full sb mem -> full sb v').
Proof.
  intros [Hc Hip Hown' Hmeta' Hfile' [Hu1 Hu2] Hoth _] Hv. destruct Hinv as [Hfits Hown Hmeta Hfile Hiok (HbO & Hbb & Hbl) Hent].
  assert (i_inum ip' = i_inum ip /\ inode_block sb ip' = inode_block sb ip) as [Hin Hib] by (unfold inode_block; by rewrite Hip).
  assert (v' (inode_block sb ip) = mem (inode_block sb ip)) as Hb by (by apply Hv, not_log). rewrite Hib, ?Hin in *.
  split; [| split; [split |]].
  - unfold overwritten. rewrite (file_on_eq v ip Hent), <- Hc, <- Hin, (file_on_eq v' ip') by (by rewrite Hib, Hin, Hb).
    apply content_agree; [done |]. intros m Hm. apply Hv, not_log. intros Hl. by apply Hm, (me_log _ _ _ _ Hmeta).
  - intros m HmO Hmb Hmi Hml. rewrite Hv by done. by apply Hoth.
  - intros o Ho. rewrite Hb. by apply Hu2.
  - intros Hf j Hj. destruct Hfits as (_ & _ & Hbm). unfold used. rewrite Hv by (by apply not_log). by apply Hf.
Qed.
End recovered.

(** C3: A write to a file is atomic and durable across power failures.  Let a process
    call [filewrite] with [n] bytes, at most three blocks' worth, of its memory on an
    open file, on a machine that loses power after an arbitrary number of disk writes.
    [filewrite] never panics.  Boot as many times as it takes, each boot possibly losing
    power during recovery; once a boot completes, the file read from the disk has its old
    contents, or it has the bytes of the process from the file's offset on and its old
    ones elsewhere; the bytes are all [n], and [filewrite] returns [n], unless the disk is
    full, and the new contents are there if [filewrite] returned.  No block of another file, no other inode
    of the inode's block and no other block of the file system but the bitmap changes. *)
Theorem filewrite_atomic L s f i x ip root tbl va n e :
  idle p pid dev L s -> k_sb s = sb -> open_inv f i x ip s -> user_inv root tbl va n s ->
  file_inv L (disk_view (k_disk s)) ip -> 0 < n <= 3 * BSIZE -> 0 <= f_off x <= i_size ip -> f_off x + n <= MAXFILE * BSIZE ->
  sb_ok dev sb -> l_start L = log_start sb -> logged_n (log_start sb) (disk_view (k_disk s)) = 0 ->
  let v := disk_view (k_disk s) in
  let o := filewrite f va n (mkworld s e) in
  exists d r, disk_of o = Some d /\ 0 <= r <= n /\ (forall a w, o = Ret a w -> a = if r =? n then n else -1) /\
    forall d', boots p pid dev sb d d' ->
      let v' := disk_view d' in
      others_same v v' ip /\
      ((unwritten v v' ip /\ forall a w, o <> Ret a w) \/
       (overwritten v v' ip (f_off x) (take (Z.to_nat r) (ubytes (k_mem s) tbl va (Z.to_nat n))) /\ (r < n -> full sb v'))).
Proof.
  intros Hid Hsb Hop Hus Hinv Hn Hoff Hmax Hsok Hst Hz v o.
  destruct (filewrite_outcome L s f i x ip root tbl va n Hid Hsb Hop Hus Hinv Hn Hoff Hmax e)
    as (r & L' & mem & ip' & Hr & Hok & Hst' & Hsize & Hclean & Hw & Hfull & Ho). fold v in Hclean, Hw. fold o in Ho.
  assert (blocks_ok (k_disk s)) as Hbl by (destruct Hid as ((_ & _ & _ & _ & Hca) & _); exact (ca_size _ _ _ _ _ _ _ Hca)).
  assert (l_start L' = log_start sb) as Hst2 by congruence.
  assert (forall k, let d := disk_after (take k (end_writes L' mem)) (k_disk s) in forall d', boots p pid dev sb d d' ->
    forall m, ~ in_log (log_start sb) m -> disk_view d' m = if decide (k <= Z.to_nat (lh_n L'))%nat then v m else mem m) as Hk.
  { intros k d d' Hb m Hm. destruct (commit_disk L' mem (k_disk s) k Hok Hbl Hsize) as (Hbl' & Hwf & Hrec); rewrite ?Hst2; [done | done |].
    rewrite Hst2 in Hwf, Hrec. rewrite <- Hrec by done. by apply (boots_recover p pid dev sb d d' Hsok Hb). }
  set (W := end_writes L' mem) in *.
  assert (exists k, disk_of o = Some (disk_after (take k W) (k_disk s)) /\ (forall a w, o = Ret a w -> a = if r =? n then n else -1) /\
    ((k <= Z.to_nat (lh_n L'))%nat -> forall a w, o <> Ret a w)) as (k & Hdo & Hret & Hlate).
  { destruct o as [a w | | w]; [| done |].
    - destruct Ho as (Ha & _ & Hdw). exists (S (length W + Z.to_nat (lh_n L'))). cbn [disk_of]. rewrite take_ge by lia.
      split; [by rewrite Hdw |]. split; [intros b w' Heq; injection Heq as <- <-; done | lia].
    - destruct Ho as (_ & Hdw). exists (length e). cbn [disk_of]. rewrite Hdw. split; [done |]. split; [done | done]. }
  exists (disk_after (take k W) (k_disk s)), r. split; [done |]. split; [done |]. split; [done |]. intros d' Hb v'.
  specialize (Hk k d' Hb). destruct (decide (k <= Z.to_nat (lh_n L'))%nat) as [Hle | Hgt].
  - destruct (recovered_old L v v' ip Hinv Hst Hk) as [Hun Hot]. split; [done |]. left. auto.
  - destruct (recovered_new L v v' ip Hinv Hst mem ip' _ _ Hw Hk) as (Hov & Hot & Hfl). split; [done |]. right. auto.
Qed.
End filewrite.

(** ** Example: three bytes appended to the open file of [sample_fs] *)
Lemma sample_file_inv : file_inv 1 (k_sb sample) sample_O (sample_log 0) (disk_view sample_fs_disk) sample_fs_inode.
Proof.
  split.
  - apply sample_fits.
  - exact sample_owned.
  - apply sample_meta.
  - split; [done |]. split; [by vm_compute |]. intros bn H0 Hs. change (i_size sample_fs_inode) with 5 in Hs. unfold BSIZE in Hs.
    assert (bn = 0) as -> by lia. split; [done |]. by vm_compute.
  - split; [| by vm_compute]. repeat constructor; by vm_compute.
  - split; [apply sample_O_in; by vm_compute |]. split; [by vm_compute |]. rewrite sample_log_area.
    change (inode_block (k_sb sample) sample_fs_inode) with 33. lia.
  - by vm_compute.
Qed.
Lemma sample_fs_idle : idle 3 7 1 (sample_log 0) sample_fs.
Proof.
  split; [exact (booted_bstate 3 7 1 sample_fs sample_fs_booted (proj1 sample_fs_blocks)) |]. split; [apply sample_log_ok | done].
Qed.

Lemma filewrite_atomic_witness :
  let s := sample_fs in let sb := k_sb sample in let x := sample_fs_open in let n := 3 in
  let v := disk_view (k_disk s) in
  let o := @filewrite _ plain_disk 0 4 n (mkworld s [id; id; id]) in
  exists d r, disk_of o = Some d /\ 0 <= r <= n /\ (forall a w, o = Ret a w -> a = if r =? n then n else -1) /\
    forall d', @boots plain_disk 3 7 1 sb d d' ->
      let v' := disk_view d' in
      others_same sb sample_O v v' sample_fs_inode /\
      ((unwritten 1 sb v v' sample_fs_inode /\ forall a w, o <> Ret a w) \/
       (overwritten 1 sb v v' sample_fs_inode (f_off x) (take (Z.to_nat r) (ubytes (k_mem s) sample_tbl 4 (Z.to_nat n))) /\
        (r < n -> full sb v'))).
Proof.
  intros s sb x n.
  apply (@filewrite_atomic _ plain_disk plain_disk_laws 3 7 1 sb sample_O (sample_log 0) s 0 0 x sample_fs_inode
    sample_root sample_tbl 4 n [id; id; id]).
  - exact sample_fs_idle.
  - done.
  - split; try done; [by apply (bool_decide_unpack _); vm_compute |]. split; [apply lock_free_dec; by vm_compute | by vm_compute].
  - split; [by exists (sample_proc <| p_pagetable := sample_root |>) | exact sample_vm_wf | by vm_compute |].
    intros k Hk. destruct (sample_user_ok k Hk). by split.
  - exact sample_file_inv.
  - unfold BSIZE. lia.
  - by vm_compute.
  - by vm_compute.
  - exact sample_sb_ok.
  - by vm_compute.
  - by vm_compute.
Defined.
