(* ===== verification/Dir.v ===== *)
(** * Directories ([kernel/fs.c])

    A directory is a file of 16-byte entries, an inode number and a name cut at 14
    bytes.  Its meaning is a finite map: [dir_entry] finds the first live entry of a
    name.  [dirlookup] computes this map and takes a reference to the inode; [dirlink]
    adds to it. *)
From S2P Require Import Prelude Kstate Bytes CString Spinlock Mem Sample Kalloc Sched PageTable UserMem Vm Sleeplock Virtio Bio Printf Disk Log Commit Recovery Fs Inode Writei.
Local Open Scope Z_scope.

(** ** The inode table *)
Definition in_table (dev inum : Z) (x : inode) : Prop := 0 < i_ref x /\ i_dev x = dev /\ i_inum x = inum.
Definition unused (x : inode) : Prop := i_ref x = 0.
#[export] Instance in_table_dec dev inum x : Decision (in_table dev inum x).
Proof. unfold in_table. apply _. Defined.
#[export] Instance unused_dec x : Decision (unused x).
Proof. unfold unused. apply _. Defined.

(** The slot of the inode, or the first unused one, with a reference more. *)
Definition referenced (x : inode) : inode := x <| i_ref := s32 (i_ref x + 1) |>.
Definition recycled (dev inum : Z) (x : inode) : inode :=
  x <| i_dev := dev |> <| i_inum := inum |> <| i_ref := 1 |> <| i_valid := 0 |>.
Definition iget_slot (dev inum : Z) (t : list inode) : option (nat * (inode -> inode)) :=
  match list_find (in_table dev inum) t with
  | Some (i, _) => Some (i, referenced)
  | None => (fun r => (fst r, recycled dev inum)) <$> list_find unused t
  end.

Lemma list_find_take_S {A} (P : A -> Prop) `{forall x, Decision (P x)} (l : list A) j x :
  l !! j = Some x ->
  fst <$> list_find P (take (S j) l) =
    match fst <$> list_find P (take j l) with None => if decide (P x) then Some j else None | o => o end.
Proof.
  revert j. induction l as [| y l IH]; intros [| j] Hx; try done.
  - injection Hx as ->. cbn. rewrite take_0. by destruct (decide (P x)).
  - change (take (S (S j)) (y :: l)) with (y :: take (S j) l). change (take (S j) (y :: l)) with (y :: take j l).
    cbn [list_find]. destruct (decide (P y)); [done |]. specialize (IH j Hx).
    destruct (list_find P (take (S j) l)) as [[? ?] |], (list_find P (take j l)) as [[? ?] |]; cbn in *; try congruence;
      destruct (decide (P x)); congruence.
Qed.

Section iget.
Context (dev inum : Z) (t : list inode).
Definition found (i : nat) (f : inode -> inode) : K nat := upd_inode i f ;;; release LkItable ;;; ret i.

(** The scan from slot [j] on, when no slot before has the inode. *)
Lemma iget_scan_eq n : forall j s e, k_inodes s = t -> length t = (j + n)%nat ->
  iget_scan (seq j n) (fst <$> list_find unused (take j t)) dev inum (mkworld s e) =
    match list_find (in_table dev inum) (drop j t) with
    | Some (i, _) => found (j + i) referenced (mkworld s e)
    | None => match list_find unused t with
              | Some (i, _) => found i (recycled dev inum) (mkworld s e)
              | None => panic "iget: no inodes" (mkworld s e)
              end
    end.
Proof.
  induction n as [| n IH]; intros j s e Ht Hl.
  - rewrite Nat.add_0_r in Hl. rewrite take_ge, drop_ge by lia. cbn. by destruct (list_find unused t) as [[i x] |].
  - destruct (lookup_lt_is_Some_2 t j) as [x Hx]; [lia |]. cbn [seq iget_scan].
    rewrite (bind_ret _ _ _ _ _ (get_nth_eq k_inodes j s e x ltac:(by rewrite Ht))).
    rewrite (drop_S _ _ _ Hx). cbn [list_find].
    destruct (decide (in_table dev inum x)) as [Hin | Hout].
    + destruct Hin as (Hr & Hd & Hi). rewrite (proj2 (Z.ltb_lt _ _) Hr), Hd, Hi, !Z.eqb_refl. cbn.
      by rewrite Nat.add_0_r.
    + assert ((0 <? i_ref x) && (i_dev x =? dev) && (i_inum x =? inum) = false) as ->.
      { apply not_true_is_false. intros [[?%Z.ltb_lt ?%Z.eqb_eq]%andb_true_iff ?%Z.eqb_eq]%andb_true_iff. by apply Hout. }
      pose proof (IH (S j) s e Ht ltac:(lia)) as E. rewrite (list_find_take_S unused t j x Hx) in E.
      replace (match fst <$> list_find unused (take j t) with None => if i_ref x =? 0 then Some j else None | Some _ => fst <$> list_find unused (take j t) end)
        with (match fst <$> list_find unused (take j t) with None => if decide (unused x) then Some j else None | o => o end).
      2:{ destruct (list_find unused (take j t)) as [[? ?] |]; [done |]. cbn.
          destruct (decide (unused x)) as [Hu | Hu], (Z.eqb_spec (i_ref x) 0); done. }
      rewrite E. destruct (list_find (in_table dev inum) (drop (S j) t)) as [[i y] |]; [| done]. cbn.
      by replace (j + S i)%nat with (S (j + i)) by lia.
Qed.
End iget.

Lemma iget_eq s e c dev inum i f :
  cpu_ok s c -> lock_free s LkItable -> length (k_inodes s) = NINODE -> iget_slot dev inum (k_inodes s) = Some (i, f) ->
  iget dev inum (mkworld s e) = Ret i (mkworld ((sync s) <| k_inodes ::= alter f i |>) e).
Proof.
  intros Hc Hl Hlen Hs. unfold iget. kcall (acquire_eq s e c LkItable).
  pose proof (iget_scan_eq dev inum (k_inodes s) NINODE 0 (lock_taken LkItable s) e eq_refl Hlen) as E.
  rewrite take_0, drop_0 in E. cbn [list_find fmap option_fmap option_map Nat.add] in E. rewrite E.
  assert (forall i f, found i f (mkworld (lock_taken LkItable s) e) = Ret i (mkworld ((sync s) <| k_inodes ::= alter f i |>) e)) as Hf.
  { intros i0 f0. unfold found, upd_inode. krun. kcall (release_section s _ e c LkItable). done. }
  unfold iget_slot in Hs. destruct (list_find (in_table dev inum) (k_inodes s)) as [[i0 x] |]; [injection Hs as <- <-; apply Hf |].
  destruct (list_find unused (k_inodes s)) as [[i0 x] |]; [| done]. injection Hs as <- <-. apply Hf.
Qed.

(** ** Entries *)
(** The [k]th entry of a directory with the contents [c]. *)
Definition entry (c : list Z) (k : nat) : list Z := take 16 (drop (16 * k) c).
Definition dir_entries (c : list Z) : list (list Z) := entry c <$> seq 0 (length c / 16).
(** Names are compared up to a nul, and up to 14 bytes. *)
Definition short (name : list Z) : list Z := take DIRSIZ (cstr name).
Definition live (name : list Z) (de : list Z) : Prop := de_inum de <> 0 /\ short (de_name de) = short name.
#[export] Instance live_dec name de : Decision (live name de).
Proof. unfold live. apply _. Defined.
(** What a directory says of a name: the place of its entry, and the inode number. *)
Definition dir_entry (name : list Z) (c : list Z) : option (nat * Z) :=
  (fun r => (fst r, de_inum (snd r))) <$> list_find (live name) (dir_entries c).

(** A name given to a directory operation: it ends with a nul, or fills its buffer. *)
Definition terminated (name : list Z) : Prop := 0 ∈ name \/ (DIRSIZ <= length name)%nat.

Lemma strncmp_defined n : forall p q, 0 ∈ p \/ (n <= length p)%nat -> 0 ∈ q \/ (n <= length q)%nat ->
  exists r, strncmp p q n = Some r.
Proof.
  induction n as [| n IH]; intros p q Hp Hq; [by eexists |].
  destruct p as [| a p]; [destruct Hp as [Hn%elem_of_nil | Hn]; [done | simpl in Hn; lia] |].
  destruct q as [| b q]; [destruct Hq as [Hn%elem_of_nil | Hn]; [done | simpl in Hn; lia] |].
  cbn [strncmp]. destruct (negb (a =? 0) && (a =? b)) eqn:E; [| by eexists].
  apply andb_true_iff in E as [Ha%negb_true_iff%Z.eqb_neq ->%Z.eqb_eq].
  apply IH; [destruct Hp as [[|]%elem_of_cons | Hp]; [done | by left | cbn in Hp; right; lia]
            | destruct Hq as [[|]%elem_of_cons | Hq]; [done | by left | cbn in Hq; right; lia]].
Qed.

Lemma namecmp_short name de : bytes name -> terminated name -> bytes de -> length de = 16%nat ->
  exists r, namecmp name (de_name de) = Some r /\ (r = 0 <-> short (de_name de) = short name).
Proof.
  intros Hn H0 Hde Hl. unfold namecmp. assert (length (de_name de) = DIRSIZ) as Hld by (unfold de_name; rewrite length_take, length_drop; unfold DIRSIZ; lia).
  destruct (strncmp_defined DIRSIZ name (de_name de)) as [r Hr]; [done | right; lia |].
  exists r. split; [done |]. pose proof (strncmp_zero DIRSIZ name (de_name de) Hn) as Hz. rewrite Hr in Hz.
  unfold short. split.
  - intros ->. symmetry. apply Hz; [| done | right; lia | done]. unfold de_name. by apply Forall_take, Forall_drop.
  - intros E. assert (Some r = Some 0) as [=]; [| done]. apply Hz; [| done | right; lia | done].
    unfold de_name. by apply Forall_take, Forall_drop.
Qed.

Lemma dir_entries_lookup c k : (k < length c / 16)%nat -> dir_entries c !! k = Some (entry c k).
Proof. intros Hk. unfold dir_entries. rewrite list_lookup_fmap, lookup_seq_lt by done. done. Qed.
Lemma dir_entries_length c : length (dir_entries c) = (length c / 16)%nat.
Proof. unfold dir_entries. by rewrite length_fmap, length_seq. Qed.
Lemma entry_length c k : (k < length c / 16)%nat -> length (entry c k) = 16%nat.
Proof.
  intros Hk. unfold entry. rewrite length_take, length_drop.
  pose proof (Nat.Div0.mul_div_le (length c) 16). lia.
Qed.

(** Contents put together from whole entries. *)
Lemma dir_entries_app a b m : length a = (16 * m)%nat -> dir_entries (a ++ b) = dir_entries a ++ dir_entries b.
Proof.
  intros Ha. unfold dir_entries. rewrite length_app, Ha, (Nat.mul_comm 16 m), Nat.div_add_l, Nat.div_mul, seq_app, fmap_app by lia.
  f_equal.
  - apply list_fmap_ext. intros j k [-> Hk]%lookup_seq. cbn [Nat.add]. unfold entry.
    rewrite drop_app_le, take_app_le by (rewrite ?length_drop; lia). done.
  - rewrite <- (Nat.add_0_r (0 + m)). rewrite <- fmap_add_seq, <- list_fmap_compose. apply list_fmap_ext.
    intros j k _. cbn [compose Nat.add]. unfold entry.
    rewrite drop_app_ge by lia. do 2 f_equal. lia.
Qed.
Lemma dir_entries_split c k : (16 * k <= length c)%nat ->
  dir_entries (take (16 * k) c) = take k (dir_entries c) /\ dir_entries (drop (16 * k) c) = drop k (dir_entries c).
Proof.
  intros Hk. assert (length (take (16 * k) c) = 16 * k)%nat as Hl by (rewrite length_take; lia).
  pose proof (dir_entries_app _ (drop (16 * k) c) k Hl) as E. rewrite take_drop in E.
  assert (length (dir_entries (take (16 * k) c)) = k) as Hlk
    by (rewrite dir_entries_length, Hl, Nat.mul_comm; by apply Nat.div_mul).
  rewrite E. by rewrite take_app_length', drop_app_length'.
Qed.
(** An entry put at place [k], over an old one or at the end. *)
Lemma dir_entries_put c de k : length de = 16%nat -> (16 * k <= length c)%nat -> (16 * k = length c \/ 16 * S k <= length c)%nat ->
  dir_entries (take (16 * k) c ++ de ++ drop (16 * k + length de) c) = take k (dir_entries c) ++ de :: drop (S k) (dir_entries c).
Proof.
  intros Hde Hk Hend. assert (dir_entries de = [de]) as E1.
  { unfold dir_entries. rewrite Hde. change (16 / 16)%nat with 1%nat. cbn [seq fmap list_fmap]. unfold entry.
    rewrite Nat.mul_0_r, drop_0, take_ge by lia. done. }
  rewrite (dir_entries_app _ _ k) by (rewrite length_take; lia). rewrite (dir_entries_app de _ 1) by done.
  rewrite E1, (proj1 (dir_entries_split c k Hk)), Hde. cbn [app]. do 2 f_equal.
  replace (16 * k + 16)%nat with (16 * S k)%nat by lia. destruct Hend as [Hend | Hend].
  - rewrite !drop_ge; [done | rewrite dir_entries_length, <- Hend, Nat.mul_comm, Nat.div_mul by lia; lia | lia].
  - by apply dir_entries_split.
Qed.

Section find.
Context {A : Type} (P : A -> Prop) `{forall x, Decision (P x)}.
Lemma list_find_put_other (l : list A) : forall k x, (k <= length l)%nat -> ~ P x -> (forall y, l !! k = Some y -> ~ P y) ->
  list_find P (take k l ++ x :: drop (S k) l) = list_find P l.
Proof.
  induction l as [| y l IH]; intros [| k] x Hk Hx Hy; try (cbn in Hk; lia).
  - cbn. by rewrite decide_False.
  - change (drop 1 (y :: l)) with l. cbn [take app list_find]. rewrite !decide_False by (done || by apply Hy). done.
  - change (take (S k) (y :: l)) with (y :: take k l). change (drop (S (S k)) (y :: l)) with (drop (S k) l).
    cbn [app list_find]. rewrite IH; [done | cbn in Hk; lia | done | exact Hy].
Qed.
Lemma list_find_put (l : list A) : forall k x, (k <= length l)%nat -> P x -> list_find P l = None ->
  list_find P (take k l ++ x :: drop (S k) l) = Some (k, x).
Proof.
  induction l as [| y l IH]; intros [| k] x Hk Hx Hn; try (cbn in Hk; lia).
  - cbn. by rewrite decide_True.
  - cbn [take app list_find]. by rewrite decide_True.
  - change (take (S k) (y :: l)) with (y :: take k l). change (drop (S (S k)) (y :: l)) with (drop (S k) l).
    cbn [app list_find] in Hn |- *. destruct (decide (P y)); [done |].
    rewrite IH; [done | cbn in Hk; lia | done |]. by destruct (list_find P l).
Qed.
End find.

(** The entry [dirlink] writes, whatever was in the variable before. *)
Lemma padded_short name k : (length (short name) + k = DIRSIZ)%nat -> short (short name ++ replicate k 0) = short name.
Proof.
  intros Hk. assert (forall l, Forall (fun b => b <> 0) l -> cstr (l ++ replicate k 0) = l) as Hc.
  { intros l. induction 1 as [| a r Ha _ IH]; [by destruct k |]. cbn. by rewrite (proj2 (Z.eqb_neq a 0) Ha), IH. }
  unfold short at 1. rewrite Hc; [apply take_ge; lia |]. unfold short. apply Forall_take. clear.
  induction name as [| a r IH]; [done |]. cbn [cstr]. destruct (Z.eqb_spec a 0); [done |]. by constructor.
Qed.
Lemma new_entry base name nm inum :
  length base = 16%nat -> terminated name -> strncpy_bytes name DIRSIZ = Some nm -> 0 < inum < 2 ^ 16 ->
  let de := put16 (patch base 2 nm) 0 inum in
  length de = 16%nat /\ de_inum de = inum /\ short (de_name de) = short name.
Proof.
  intros Hb H0 Hnm Hi de. rewrite strncpy_bytes_spec in Hnm by done. injection Hnm as Hnm.
  assert (length (short name) <= DIRSIZ)%nat as Hsl by (unfold short; rewrite length_take; lia).
  assert (length nm = DIRSIZ) as Hl by (rewrite <- Hnm, length_app, length_replicate; fold (short name); lia).
  assert (length (patch base 2 nm) = 16%nat) as Hp by (rewrite patch_length; unfold DIRSIZ in *; lia).
  split; [unfold de, put16; rewrite patch_length; [done | rewrite Hp; cbn; lia] |]. split.
  - unfold de, de_inum. rewrite get16_put16 by lia. apply Z.mod_small. lia.
  - assert (de_name de = nm) as ->.
    { unfold de_name, de, put16. rewrite take_drop_patch by (rewrite le_put_length; lia).
      rewrite drop_patch by lia. by apply take_app_length'. }
    rewrite <- Hnm. apply padded_short. fold (short name). lia.
Qed.

Section dir.
Context {Im : Image} `{DiskLaws} (p : nat) (pid : Z) (dev : Z).
Notation bstate := (bstate p pid dev).
Implicit Types (P dirty : gset Z) (mem : view).

Lemma iget_performs L P own dirty mem inum i f s :
  bstate L P own dirty mem s -> length (k_inodes s) = NINODE -> iget_slot dev inum (k_inodes s) = Some (i, f) ->
  performs (iget dev inum) [] (fun r s' => r = i /\ k_inodes s' = alter f i (k_inodes s) /\
    bstate L P own dirty mem s' /\ fs_env s' = fs_env s) s.
Proof.
  intros Hs Hlen Hslot. pose proof Hs as ((c & pr & Hr & _ & _ & _ & _ & Hlk & _) & _). pose proof Hr as (Hc & _).
  eapply performs_ret; [intros e; apply (iget_eq s e c); try done | done |].
  - apply (quiet_lock s _ Hlk), elem_of_app. left. right. right. right. by left.
  - split; [done |]. split; [done |]. split; [| done]. exact (bstate_dsync p pid dev L P own dirty mem s Hs).
Qed.

(** A variable, in a state in which nothing of the file system has changed. *)
Lemma same_sink N s0 : sink p pid dev N (fun _ => DVar) (fun _ s => fs_rest s = fs_rest s0).
Proof.
  split; [done | congruence |]. intros acc bytes L P own dirty mem s _ _ Hs Hf.
  apply (performs_ret _ 0 s (sync s)); [| done |].
  - intros e. unfold either_copyout. by rewrite (bind_ret _ _ _ _ _ (bstate_proc p pid dev L P own dirty mem s e Hs)).
  - split; [done |]. split; [by apply bstate_dsync | done].
Qed.

(** A directory whose every block is there. *)
Definition dir_ok mem (ip : inode) : Prop :=
  file_ok dev mem ip /\ i_type ip = T_DIR /\ i_size ip mod 16 = 0.

(** The state of a search that has read entries only. *)
Definition searching L P dirty mem (s0 s : kstate) : Prop := bstate L P [] dirty mem s /\ fs_rest s = fs_rest s0.

Lemma content_length L P dirty mem ip s : dir_ok mem ip -> bstate L P [] dirty mem s -> Z.of_nat (length (content mem ip)) = i_size ip.
Proof.
  intros ((_ & Hisz & _) & _) Hs. unfold content. rewrite length_take.
  assert (forall n, length (mem n) = 1024%nat) as Hsize by (intros n; by eapply bstate_size).
  pose proof (length_extent mem ip Hsize). lia.
Qed.
Lemma content_bytes mem ip : bytes_ok mem -> bytes (content mem ip).
Proof.
  intros Hbytes. unfold content, extent. apply Forall_take, Forall_concat, Forall_fmap, Forall_true.
  intros k. cbn. unfold nth_block. destruct (_ =? 0); [| apply Hbytes]. by apply Forall_replicate.
Qed.

Definition vacant (de : list Z) : Prop := de_inum de = 0.
#[local] Instance vacant_dec de : Decision (vacant de).
Proof. unfold vacant. apply _. Defined.
(** The place for a new entry: the first vacant one, or the end. *)
Definition place (es : list (list Z)) : nat := from_option fst (length es) (list_find vacant es).

Lemma place_cons de es : ~ vacant de -> place (de :: es) = S (place es).
Proof. intros Hv. unfold place. cbn [list_find]. rewrite decide_False by done. by destruct (list_find vacant es) as [[k x] |]. Qed.
Lemma place_le es : (place es <= length es)%nat.
Proof.
  unfold place. destruct (list_find vacant es) as [[k x] |] eqn:E; [| done]. cbn.
  apply list_find_Some in E as (Hx & _). apply lookup_lt_Some in Hx. lia.
Qed.
Lemma place_vacant es de : es !! place es = Some de -> vacant de.
Proof.
  unfold place. destruct (list_find vacant es) as [[k x] |] eqn:E; cbn.
  - apply list_find_Some in E as (Hx & Hv & _). congruence.
  - intros Hl%lookup_lt_Some. lia.
Qed.

Section scan.
Context (L : log) (P dirty : gset Z) (mem : view) (dp : nat) (ip : inode) (s0 : kstate).
Hypothesis (Hroom : (size P < NBUF)%nat) (Hbytes : bytes_ok mem) (Hdir : dir_ok mem ip) (Hdp : k_inodes s0 !! dp = Some ip).
Notation c := (content mem ip).
Notation searching := (searching L P dirty mem s0).

(** [readi] of one entry. *)
Lemma read_entry j s : searching s -> (j < length c / 16)%nat ->
  performs (readi dp DVar (16 * Z.of_nat j) DIRENT) [] (fun r s' => r = (16, entry c j) /\ searching s') s.
Proof.
  intros Hse Hj. pose proof Hse as [Hs Hf]. pose proof (content_length L P dirty mem ip s Hdir Hs) as Hcl.
  pose proof Hdir as (Hfile & _). pose proof Hfile as (_ & Hisz & _). assert (MAXFILE * BSIZE < 2 ^ 31) by done.
  pose proof (Nat.Div0.mul_div_le (length c) 16).
  eapply performs_mono.
  { apply (readi_performs p pid dev 16 _ _ (same_sink 16 s0) L P dirty mem dp ip Hroom Hbytes Hfile (16 * Z.of_nat j) DIRENT s);
      [| unfold DIRENT in *; lia ..]. split; [done |]. split; [by rewrite (fs_rest_inodes _ _ Hf) | done]. }
  intros r s' [-> (Hs' & _ & Hf')]. cbv zeta.
  replace (take (Z.to_nat DIRENT) (drop (Z.to_nat (16 * Z.of_nat j)) c)) with (entry c j).
  - rewrite entry_length by done. done.
  - unfold entry. do 2 f_equal. lia.
Qed.

(** [dirlink]'s search for a place. *)
Lemma dirlink_find_performs fuel : forall j de s, searching s -> length de = 16%nat -> (j <= length c / 16 < fuel + j)%nat ->
  performs (dirlink_find fuel dp (16 * Z.of_nat j) de) [] (fun r s' =>
    searching s' /\ length (snd r) = 16%nat /\ fst r = 16 * Z.of_nat (j + place (drop j (dir_entries c)))) s.
Proof.
  induction fuel as [| fuel IH]; intros j de s Hse Hde Hfuel; [lia |]. pose proof Hse as [Hs Hf].
  pose proof (content_length L P dirty mem ip s Hdir Hs) as Hcl. pose proof (dir_entries_length c) as Hdl. cbn [dirlink_find].
  pose proof Hdir as ((Hdev & Hisz & _) & _ & Hmod). assert (MAXFILE * BSIZE < 2 ^ 31) by done.
  eapply performs_inode; [by rewrite (fs_rest_inodes _ _ Hf) |]. pose proof (Nat.Div0.mul_div_le (length c) 16).
  rewrite u32_small by lia. destruct (Z.ltb_spec (16 * Z.of_nat j) (i_size ip)) as [Hlt | Hge].
  2:{ rewrite drop_ge by (rewrite Hdl; apply Nat.Div0.div_le_upper_bound; lia). apply performs_done. cbn. rewrite Nat.add_0_r. done. }
  assert (j < length c / 16)%nat as Hj by (Z.div_mod_to_equations; apply Nat.div_le_lower_bound; lia).
  eapply performs_seq; [by apply (read_entry j s) |]. intros r s1 [-> Hse1]. cbn [fst snd].
  change (negb (16 =? DIRENT)) with false. cbn iota. rewrite (drop_S _ _ _ (dir_entries_lookup c j Hj)).
  destruct (Z.eqb_spec (de_inum (entry c j)) 0) as [Hz | Hnz].
  - apply performs_done. split; [done |]. split; [by apply entry_length |]. cbn [fst]. unfold place. cbn [list_find].
    rewrite decide_True by done. cbn. by rewrite Nat.add_0_r.
  - rewrite place_cons by done. replace (16 * Z.of_nat j + DIRENT) with (16 * Z.of_nat (S j)) by (unfold DIRENT; lia).
    eapply performs_mono; [apply (IH (S j) (entry c j) s1 Hse1); [by apply entry_length | lia] |].
    intros r s2 (Hr & Hl & ->). split; [done |]. split; [done |]. f_equal. lia.
Qed.
Section lookup.
Context (name : list Z).
Hypothesis (Hname : bytes name) (Hnul : terminated name) (Hlen : length (k_inodes s0) = NINODE) (Hfree : Exists unused (k_inodes s0)).

(** What the search finds. *)
Definition finds (o : option (nat * list Z)) (r : option (nat * Z)) (s : kstate) : Prop :=
  bstate L P [] dirty mem s /\ fs_env s = fs_env s0 /\
  match o with
  | None => r = None /\ k_inodes s = k_inodes s0
  | Some (k, de) => exists i f, iget_slot dev (de_inum de) (k_inodes s0) = Some (i, f) /\
      r = Some (i, 16 * Z.of_nat k) /\ k_inodes s = alter f i (k_inodes s0)
  end.

Lemma iget_slot_some inum : exists i f, iget_slot dev inum (k_inodes s0) = Some (i, f).
Proof.
  unfold iget_slot. destruct (list_find (in_table dev inum) (k_inodes s0)) as [[i x] |]; [by eexists _, _ |].
  destruct (list_find unused (k_inodes s0)) as [[i x] |] eqn:E; [by eexists _, _ |]. exfalso.
  apply list_find_None in E. apply Exists_exists in Hfree as (x & Hx & Hu). rewrite Forall_forall in E. by apply (E x).
Qed.

Lemma dirlookup_loop_performs fuel : forall j s, searching s -> (length c / 16 < fuel + j)%nat ->
  performs (dirlookup_loop fuel dp name (16 * Z.of_nat j)) []
    (finds (prod_map (Nat.add j) id <$> list_find (live name) (drop j (dir_entries c)))) s.
Proof.
  induction fuel as [| fuel IH]; intros j s Hse Hfuel; pose proof Hse as [Hs Hf]; pose proof (content_length L P dirty mem ip s Hdir Hs) as Hcl;
    pose proof (dir_entries_length c) as Hdl; cbn [dirlookup_loop].
  - rewrite drop_ge by lia. apply performs_done. split; [done |]. unfold fs_rest in Hf. split; [congruence | split; [done | congruence]].
  - pose proof Hdir as ((Hdev & Hisz & _) & _ & Hmod). assert (MAXFILE * BSIZE < 2 ^ 31) by done.
    eapply performs_inode; [by rewrite (fs_rest_inodes _ _ Hf) |].
    destruct (Z.ltb_spec (16 * Z.of_nat j) (i_size ip)) as [Hlt | Hge].
    2:{ rewrite drop_ge by (rewrite Hdl; apply Nat.Div0.div_le_upper_bound; lia). apply performs_done. split; [done |].
        unfold fs_rest in Hf. split; [congruence | split; [done | congruence]]. }
    assert (j < length c / 16)%nat as Hj by (Z.div_mod_to_equations; apply Nat.div_le_lower_bound; lia).
    eapply performs_seq; [by apply (read_entry j s) |]. intros r s1 [-> Hse1]. cbn [fst snd].
    change (negb (16 =? DIRENT)) with false. cbn iota.
    rewrite (drop_S _ _ _ (dir_entries_lookup c j Hj)). cbn [list_find].
    assert (performs (dirlookup_loop fuel dp name (u32 (16 * Z.of_nat j + DIRENT))) []
      (finds (prod_map (Nat.add j) id <$> (prod_map S id <$> list_find (live name) (drop (S j) (dir_entries c))))) s1) as Hnext.
    { rewrite u32_small by (unfold DIRENT; lia). replace (16 * Z.of_nat j + DIRENT) with (16 * Z.of_nat (S j)) by (unfold DIRENT; lia).
      eapply performs_mono; [apply (IH (S j) s1 Hse1); lia |]. intros r s2 Hr.
      destruct (list_find (live name) (drop (S j) (dir_entries c))) as [[k de] |]; [| done]. cbn in Hr |- *.
      by replace (j + S k)%nat with (S (j + k)) by lia. }
    destruct (Z.eqb_spec (de_inum (entry c j)) 0) as [Hz | Hnz].
    { rewrite decide_False; [done |]. by intros [Hi _]. }
    destruct (namecmp_short name (entry c j) Hname Hnul) as (r & Hr & Hiff);
      [unfold entry; apply Forall_take, Forall_drop, content_bytes, Hbytes | by apply entry_length |]. rewrite Hr.
    destruct (Z.eqb_spec r 0) as [Hr0 | Hr0].
    2:{ rewrite decide_False; [done |]. intros [_ Hl]. by apply Hr0, Hiff. }
    rewrite decide_True by (split; [done | by apply Hiff]). destruct Hse1 as [Hs1 Hf1].
    eapply performs_inode; [by rewrite (fs_rest_inodes _ _ Hf1) |]. rewrite Hdev.
    destruct (iget_slot_some (de_inum (entry c j))) as (i & f & Hslot). pose proof (fs_rest_inodes _ _ Hf1) as Hi1.
    eapply performs_seq; [apply (iget_performs L P [] dirty mem _ i f s1); [done | by rewrite Hi1 | by rewrite Hi1] |].
    intros r' s2 (-> & Hi2 & Hs2 & He2). apply performs_done. unfold fs_rest in Hf1. split; [done |]. split; [congruence |].
    cbn [fmap option_fmap option_map prod_map fst snd]. exists i, f. rewrite Nat.add_0_r, Hi2, Hi1. by split.
Qed.

Lemma dirlookup_performs s : searching s -> performs (dirlookup dp name) [] (finds (list_find (live name) (dir_entries c))) s.
Proof.
  intros Hse. pose proof Hse as [Hs Hf]. pose proof (content_length L P dirty mem ip s Hdir Hs) as Hcl. pose proof Hdir as ((_ & Hisz & _) & Hty & _).
  unfold dirlookup. eapply performs_inode; [by rewrite (fs_rest_inodes _ _ Hf) |]. rewrite Hty. cbn [negb Z.eqb T_DIR Pos.eqb].
  eapply performs_mono; [apply (dirlookup_loop_performs _ 0 s Hse) |].
  - unfold DIRENT. rewrite <- Hcl. apply Nat2Z.inj_lt. rewrite Nat2Z.inj_div. lia.
  - rewrite drop_0. intros r s' Hr. by destruct (list_find (live name) (dir_entries c)) as [[k de] |].
Qed.
End lookup.
End scan.

(** The slot [iget] returns is labelled with the inode. *)
Lemma iget_slot_label inum t i f : iget_slot dev inum t = Some (i, f) ->
  exists x, alter f i t !! i = Some x /\ i_dev x = dev /\ i_inum x = inum.
Proof.
  unfold iget_slot. destruct (list_find (in_table dev inum) t) as [[j x] |] eqn:E.
  - intros [= <- <-]. apply list_find_Some in E as (Hx & (_ & Hd & Hi) & _). exists (referenced x).
    rewrite list_lookup_alter_eq, Hx. done.
  - destruct (list_find unused t) as [[j x] |] eqn:E'; [| done]. intros [= <- <-].
    apply list_find_Some in E' as (Hx & _). exists (recycled dev inum x). rewrite list_lookup_alter_eq, Hx. done.
Qed.

(** C8: dirlookup computes the map a directory is.  For a directory whose blocks are
    allocated, with a buffer free and an unused slot in the inode table, dirlookup of a
    name, which ends with a nul or fills 14 bytes, returns nothing if no live entry of the
    directory has that name (up to 14 bytes), and nothing changes; otherwise it returns the
    offset of the first such entry and the slot of the inode table that has the inode with
    its number, with a reference more if it was there, or else the first unused slot, now
    labelled with it.  No block and no other slot changes and nothing is written to the
    disk. *)
Theorem dirlookup_finds L P dirty mem dp ip name s :
  bstate L P [] dirty mem s -> (size P < NBUF)%nat -> bytes_ok mem -> dir_ok mem ip -> bytes name -> terminated name ->
  k_inodes s !! dp = Some ip -> length (k_inodes s) = NINODE -> Exists unused (k_inodes s) ->
  performs (dirlookup dp name) [] (fun r s' =>
    bstate L P [] dirty mem s' /\ fs_env s' = fs_env s /\
    match dir_entry name (content mem ip) with
    | None => r = None /\ k_inodes s' = k_inodes s
    | Some (k, inum) => exists i f x, r = Some (i, 16 * Z.of_nat k) /\
        iget_slot dev inum (k_inodes s) = Some (i, f) /\ k_inodes s' = alter f i (k_inodes s) /\
        k_inodes s' !! i = Some x /\ i_dev x = dev /\ i_inum x = inum
    end) s.
Proof.
  intros Hs Hroom Hbytes Hdir Hname Hnul Hdp Hlen Hfree. eapply performs_mono.
  { apply (dirlookup_performs L P dirty mem dp ip s Hroom Hbytes Hdir Hdp name Hname Hnul Hlen Hfree s). by split. }
  intros r s' (Hs' & He & Hr). split; [done |]. split; [done |]. unfold dir_entry.
  destruct (list_find (live name) (dir_entries (content mem ip))) as [[k de] |]; [| done].
  destruct Hr as (i & f & Hslot & -> & Hi). destruct (iget_slot_label _ _ _ _ Hslot) as (x & Hx & Hd & Hn).
  exists i, f, x. rewrite Hi. done.
Qed.


(** ** [dirlink] *)

(** The map of a directory in which an entry was put at the place for it. *)
Lemma dir_entry_put c c' de name :
  let k := place (dir_entries c) in
  (length c mod 16 = 0)%nat -> length de = 16%nat -> de_inum de <> 0 -> short (de_name de) = short name ->
  dir_entry name c = None -> c' = take (16 * k) c ++ de ++ drop (16 * k + length de) c ->
  dir_entry name c' = Some (k, de_inum de) /\ forall q, short q <> short name -> dir_entry q c' = dir_entry q c.
Proof.
  intros k Hmod Hde Hin Hsh Hnone ->. pose proof (place_le (dir_entries c)) as Hk. fold k in Hk.
  pose proof (dir_entries_length c) as Hdl. pose proof (Nat.Div0.div_mod (length c) 16) as Hdm.
  unfold dir_entry. rewrite (dir_entries_put c de k) by (done || lia). split.
  - rewrite (list_find_put (live name)); [done | done | by split |].
    unfold dir_entry in Hnone. by destruct (list_find (live name) (dir_entries c)).
  - intros q Hq. rewrite (list_find_put_other (live q)); [done | done | |].
    + intros [_ Hl]. congruence.
    + intros y Hy [Hy0 _]. by apply Hy0, (place_vacant (dir_entries c)).
Qed.

Lemma at_inode_rest L0 sb T mem i ip s s1 s' : fs_rest s1 = fs_rest s ->
  at_inode p pid dev L0 sb T mem i ip s1 s' -> at_inode p pid dev L0 sb T mem i ip s s'.
Proof.
  intros Hf (Ht & Hi & Hl & He & Hsb & Hd). pose proof (fs_rest_inodes _ _ Hf) as Hfi. pose proof (f_equal snd Hf) as Hfe. cbn [snd fs_rest] in Hfe.
  split; [done |]. rewrite <- Hfi. split; [done |]. split; [done |]. split; [congruence |]. split; [| done].
  unfold fs_env in Hfe. injection Hfe as Hfe _ _ _ _. congruence.
Qed.

Section dirlink.
Context (L0 : log) (sb : superblock) (O : gset Z).
Notation in_txn := (in_txn p pid dev L0).
Notation at_inode := (at_inode p pid dev L0 sb).
Notation written := (written dev L0 sb O).

(** How [dirlink] ends, from the state [s]. *)
Definition linked T0 mem dp ip name inum (s : kstate) (r : Z) (s' : kstate) : Prop :=
  let k := place (dir_entries (content mem ip)) in
  (r = 0 /\ exists T' mem' ip', at_inode T' mem' dp ip' s s' /\ (size T' <= size T0 + 7)%nat /\ dir_ok mem' ip' /\
     dir_entry name (content mem' ip') = Some (k, inum) /\
     (forall q, short q <> short name -> dir_entry q (content mem' ip') = dir_entry q (content mem ip)) /\
     (forall n, n ∈ O -> n <> bmap_block sb -> n <> inode_block sb ip -> mem' n = mem n) /\
     owned sb O mem' ip' /\ meta L0 sb O mem') \/
  (r = -1 /\ i_size ip = MAXFILE * BSIZE /\ in_txn T0 ∅ [] mem s' /\ k_inodes s' = k_inodes s) \/
  (r = -1 /\ exists T' mem' ip' w, at_inode T' mem' dp ip' s s' /\ written (16 * Z.of_nat k) w mem ip mem' ip' /\
     (length w < 16)%nat /\ full sb mem').

(** What the entry written means. *)
Lemma written_entry mem ip mem' ip' de name :
  let c := content mem ip in let k := place (dir_entries c) in
  dir_ok mem ip -> (length c mod 16 = 0)%nat -> length de = 16%nat -> de_inum de <> 0 -> short (de_name de) = short name ->
  dir_entry name c = None -> written (16 * Z.of_nat k) de mem ip mem' ip' ->
  dir_ok mem' ip' /\ dir_entry name (content mem' ip') = Some (k, de_inum de) /\
  forall q, short q <> short name -> dir_entry q (content mem' ip') = dir_entry q c.
Proof.
  intros c k (Hfile & Hty & Hmod) Hcm Hde Hin Hsh Hnone Hw. split.
  - split; [by apply (wn_file _ _ _ _ _ _ _ _ _ _ Hw) |]. rewrite (wn_ip _ _ _ _ _ _ _ _ _ _ Hw). cbn. rewrite Hde.
    split; [done |]. Z.div_mod_to_equations. lia.
  - apply (dir_entry_put c (content mem' ip') de name Hcm Hde Hin Hsh Hnone).
    rewrite (wn_content _ _ _ _ _ _ _ _ _ _ Hw). by replace (Z.to_nat (16 * Z.of_nat k)) with (16 * k)%nat by lia.
Qed.

Lemma write_entry T0 mem dp ip name inum de s s2 :
  let k := place (dir_entries (content mem ip)) in
  in_txn T0 ∅ [] mem s2 -> fs_rest s2 = fs_rest s -> k_inodes s !! dp = Some ip -> k_sb s = sb -> 0 ∉ T0 ->
  sb_fits L0 sb -> owned sb O mem ip -> meta L0 sb O mem -> dir_ok mem ip -> inode_ok ip ->
  inode_block sb ip ∈ O -> inode_block sb ip <> bmap_block sb -> ~ log_area L0 (inode_block sb ip) ->
  spare L0 T0 7 -> dir_entry name (content mem ip) = None ->
  Z.of_nat (length (content mem ip)) = i_size ip -> 0 < inum ->
  length de = 16%nat -> de_inum de = inum -> short (de_name de) = short name ->
  performs (let! w := writei dp (SVar de) (16 * Z.of_nat k) DIRENT in if negb (w =? DIRENT) then ret (-1) else ret 0) []
    (linked T0 mem dp ip name inum s) s2.
Proof.
  intros k Ht Hf Hdp Hsb Hz Hfits Hown Hmeta Hdir Hok HinO Hnb Hlog Hspare Hnone Hcl Hinum Hde Hdi Hsh.
  pose proof Hdir as (Hfile & Hty & Hmod). pose proof Hfile as (_ & Hisz & _). assert (MAXFILE * BSIZE < 2 ^ 31) as Hbig by done.
  pose proof (place_le (dir_entries (content mem ip))) as Hk. fold k in Hk. rewrite dir_entries_length in Hk.
  pose proof (Nat.Div0.mul_div_le (length (content mem ip)) 16) as Hdiv.
  assert (length (content mem ip) mod 16 = 0)%nat as Hcm by (apply Nat2Z.inj; rewrite Nat2Z.inj_mod, Hcl; exact Hmod).
  pose proof (f_equal snd Hf) as He. cbn [snd fs_rest] in He.
  assert (k_sb s2 = sb) as Hsb2 by (unfold fs_env in He; injection He as He _ _ _ _; congruence).
  pose proof (var_source p pid dev L0 de) as Hsrc. rewrite Hde in Hsrc.
  eapply performs_seq.
  { apply (writei_performs p pid dev L0 sb O _ _ de _ T0 mem dp ip (16 * Z.of_nat k) s2 Hsrc I Ht); try done; try lia.
    by rewrite (fs_rest_inodes _ _ Hf). }
  intros r s3 Hr. change (Z.of_nat 16) with 16 in Hr. unfold linked. fold k. case_decide as Hd.
  - destruct Hr as (Hr & T' & mem' & ip' & Hat & HT & Hw & Hfull). pose proof (at_inode_rest _ _ _ _ _ _ _ _ _ Hf Hat) as Hat'.
    destruct (Z.eqb_spec r DIRENT) as [-> | Hne]; cbn [negb]; apply performs_done.
    + left. split; [done |]. rewrite take_ge in Hw by (unfold DIRENT; lia).
      destruct (written_entry mem ip mem' ip' de name Hdir Hcm Hde ltac:(lia) Hsh Hnone Hw) as (Hd' & Hn' & Hq').
      exists T', mem', ip'. rewrite Hdi in Hn'. do 5 (split; [done |]). destruct Hw. done.
    + right. right. split; [done |]. exists T', mem', ip', (take (Z.to_nat r) de). do 2 (split; [done |]). unfold DIRENT in *.
      split; [rewrite length_take; lia |]. apply Hfull. lia.
  - destruct Hr as [-> ->]. change (-1 =? DIRENT) with false. cbn [negb]. apply performs_done. right. left. split; [done |].
    split; [| split; [done | by apply fs_rest_inodes]]. change (MAXFILE * BSIZE) with (16 * 17152) in *.
    Z.div_mod_to_equations. lia.
Qed.

(** C9: dirlink adds to the map a directory is.  In a transaction with room in the log,
    for a name that is not in the directory, dirlink either returns 0: the directory then
    maps the name to the inode number, at the first vacant entry or at the end, and every
    other name as before, the blocks of everything else are unchanged but for the bitmap
    and the block of the directory's inode, and the allocation of blocks stays well
    formed; or it returns -1, and the directory has its largest size already and nothing
    changed, or the disk is full and not the whole entry was written. *)
Theorem dirlink_adds T0 mem dp ip name inum s :
  in_txn T0 ∅ [] mem s -> k_inodes s !! dp = Some ip -> k_sb s = sb -> 0 ∉ T0 ->
  sb_fits L0 sb -> owned sb O mem ip -> meta L0 sb O mem -> dir_ok mem ip -> inode_ok ip ->
  inode_block sb ip ∈ O -> inode_block sb ip <> bmap_block sb -> ~ log_area L0 (inode_block sb ip) ->
  spare L0 T0 7 -> bytes_ok mem -> bytes name -> terminated name -> 0 < inum < 2 ^ 16 ->
  length (k_inodes s) = NINODE -> Exists unused (k_inodes s) -> dir_entry name (content mem ip) = None ->
  performs (dirlink dp name inum) [] (linked T0 mem dp ip name inum s) s.
Proof.
  intros Ht Hdp Hsb Hz Hfits Hown Hmeta Hdir Hok HinO Hnb Hlog Hspare Hbytes Hname Hnul Hinum Hlen Hfree Hnone.
  pose proof Ht as (L & dirty & Hs & Hlok & Hnd & Hout & Hfr & Hhomes & Hdi).
  assert (size (list_to_set (homes L) : gset Z) < NBUF)%nat as Hroom.
  { rewrite size_list_to_set, homes_length by done. destruct Hspare as [Hok0 Hsp].
    pose proof (txn_count L0 T0 L Hlok Hok0 Hnd Hhomes). pose proof (lo_n L Hlok). unfold NBUF, LOGBLOCKS, MAXOPBLOCKS in *. lia. }
  set (P := list_to_set (homes L) : gset Z) in *. set (es := dir_entries (content mem ip)).
  assert (forall s', searching L P dirty mem s s' -> in_txn T0 ∅ [] mem s') as Htx by (intros s' [Hs' _]; by exists L, dirty).
  pose proof (content_length L P dirty mem ip s Hdir Hs) as Hcl. pose proof Hdir as (Hfile & Hty & Hmod).
  pose proof Hfile as (_ & Hisz & _). assert (MAXFILE * BSIZE < 2 ^ 31) as Hbig by done.
  unfold dirlink. eapply performs_seq.
  { apply (dirlookup_performs L P dirty mem dp ip s Hroom Hbytes Hdir Hdp name Hname Hnul Hlen Hfree s). by split. }
  intros o s1 (Hs1 & He1 & Hr). unfold dir_entry in Hnone. fold es in Hr, Hnone.
  destruct (list_find (live name) es) as [? |] eqn:Hfind; [done |]. destruct Hr as [-> Hi1].
  assert (searching L P dirty mem s s1) as Hse1 by (split; [done | unfold fs_rest; congruence]).
  eapply performs_inode; [by rewrite Hi1 |]. eapply performs_seq.
  { apply (dirlink_find_performs L P dirty mem dp ip s Hroom Hbytes Hdir Hdp _ 0 (replicate 16 0) s1 Hse1); [done |].
    unfold DIRENT. rewrite <- Hcl. split; [lia |]. apply Nat2Z.inj_lt. rewrite Nat2Z.inj_div. lia. }
  rewrite drop_0. fold es. intros [off base] s2 (Hse2 & Hbl & Hoff). cbn [fst snd Nat.add] in Hbl, Hoff |- *.
  assert (exists nm, strncpy_bytes name DIRSIZ = Some nm) as [nm Hnm] by (eexists; by apply strncpy_bytes_spec).
  rewrite Hnm. destruct (new_entry base name nm inum Hbl Hnul Hnm Hinum) as (Hde & Hdinum & Hsh). rewrite Hoff.
  apply (write_entry T0 mem dp ip name inum _ s s2); try done; [by apply Htx | by destruct Hse2 | | lia].
  unfold dir_entry. fold es. by rewrite Hfind.
Qed.
End dirlink.
End dir.

(** ** Examples

    Inode 1, in slot 0 of the table, is a directory of four entries in block 47; the
    third is vacant. *)
Definition sample_entry (inum : Z) (name : list Z) : list Z := le_put 2 inum ++ take 14 (name ++ replicate 14 0).
Definition sample_dir_block : list Z :=
  sample_entry 1 (str ".") ++ sample_entry 1 (str "..") ++ sample_entry 0 (str "old") ++ sample_entry 3 (str "README") ++ replicate 960 0.
Definition sample_dir_inode : inode := mkinode 1 1 1 1 1 0 0 1 64 (47 :: replicate 12 0).
Definition sample_dir_disk : gmap Z (list Z) := <[47 := sample_dir_block]> sample_fs_disk.
Definition sample_dir : kstate := sample_fs <| k_disk := sample_dir_disk |> <| k_inodes ::= <[0%nat := sample_dir_inode]> |>.
Definition sample_dir_txn : kstate := sample_dir <| k_log := sample_log 1 |>.
Notation sample_view := (disk_view sample_dir_disk).

Lemma sample_dir_blocks : blocks_ok sample_dir_disk /\ bytes_ok sample_view.
Proof.
  split.
  - intros n. apply (disk_view_all (fun b => length b = 1024%nat)); [by vm_compute |]. apply (bool_decide_unpack _). by vm_compute.
  - intros n. apply (disk_view_all (fun b => Forall (fun x => 0 <= x < 256) b)); [by apply Forall_replicate |].
    apply (bool_decide_unpack _). by vm_compute.
Qed.
Lemma sample_dir_booted : booted 3 7 1 sample_dir.
Proof. destruct (sample_cold ∅) as (_ & Hrest). split; [exact sample_fs_machine | exact Hrest]. Qed.
Lemma sample_dir_addr k : 0 <= k -> block_addr sample_view sample_dir_inode k = if k =? 0 then 47 else 0.
Proof. exact (sample_addr k). Qed.
Lemma sample_dir_ok : dir_ok 1 sample_view sample_dir_inode.
Proof.
  split; [| done]. split; [done |]. split; [by vm_compute |]. intros bn H0 Hs. change (i_size sample_dir_inode) with 64 in Hs. unfold BSIZE in Hs.
  assert (bn = 0) as -> by lia. split; [done |]. by vm_compute.
Qed.
Lemma sample_dir_used n : used (k_sb sample) sample_view n = used (k_sb sample) (disk_view sample_fs_disk) n.
Proof. unfold used, disk_view, sample_dir_disk. change (bmap_block (k_sb sample)) with 46. by rewrite lookup_insert_ne. Qed.
Lemma sample_dir_owned : owned (k_sb sample) sample_O sample_view sample_dir_inode.
Proof.
  split; [done | by intros [] | |].
  - intros k Hk. rewrite sample_dir_addr by lia. destruct (k =? 0); [| done]. intros _. split; [| done].
    split; [by vm_compute |]. split; [rewrite sample_dir_used; by apply sample_used |]. rewrite sample_O_in. lia.
  - intros k k' Hk Hk'. rewrite !sample_dir_addr by lia. destruct (Z.eqb_spec k 0), (Z.eqb_spec k' 0); lia.
Qed.
Lemma sample_dir_meta k : meta (sample_log k) (k_sb sample) sample_O sample_view.
Proof. destruct (sample_meta k) as [Hu Hz Hb Hl]. split; [| done ..]. intros n. rewrite sample_dir_used. apply Hu. Qed.
Lemma sample_dir_free : Exists unused (k_inodes sample_dir).
Proof. apply (bool_decide_unpack _). by vm_compute. Qed.
Lemma sample_name_ok l : forallb (fun b => (0 <=? b) && (b <? 256)) l = true -> bytes l.
Proof. intros Hl. apply Forall_forall. intros b Hb. apply list_elem_of_In in Hb. rewrite forallb_forall in Hl. specialize (Hl b Hb). lia. Qed.

(** Looking for README, which is inode 3: it is not in the table and gets slot 1. *)
Lemma dirlookup_finds_witness :
  let s := sample_dir in let mem := sample_view in let name := str "README" ++ [0] in
  dir_entry name (content mem sample_dir_inode) = Some (3%nat, 3) /\
  performs (@dirlookup _ plain_disk 0 name) [] (fun r s' =>
    bstate 3 7 1 (k_log s) ∅ [] ∅ mem s' /\ fs_env s' = fs_env s /\
    match dir_entry name (content mem sample_dir_inode) with
    | None => r = None /\ k_inodes s' = k_inodes s
    | Some (k, inum) => exists i f x, r = Some (i, 16 * Z.of_nat k) /\
        iget_slot 1 inum (k_inodes s) = Some (i, f) /\ k_inodes s' = alter f i (k_inodes s) /\
        k_inodes s' !! i = Some x /\ i_dev x = 1 /\ i_inum x = inum
    end) s.
Proof.
  intros s mem name. split; [by vm_compute |].
  apply (@dirlookup_finds _ plain_disk plain_disk_laws 3 7 1 (k_log s) ∅ ∅ mem 0 sample_dir_inode name s).
  - exact (booted_bstate 3 7 1 sample_dir sample_dir_booted (proj1 sample_dir_blocks)).
  - rewrite size_empty. unfold NBUF, MAXOPBLOCKS. lia.
  - exact (proj2 sample_dir_blocks).
  - exact sample_dir_ok.
  - by apply sample_name_ok.
  - left. apply elem_of_app. right. by left.
  - done.
  - by vm_compute.
  - exact sample_dir_free.
Defined.

(** Linking a new name: it goes to the third entry. *)
Lemma dirlink_adds_witness :
  let sb := k_sb sample in let L := sample_log 1 in let s := sample_dir_txn in let mem := sample_view in
  let name := str "notes" ++ [0] in
  place (dir_entries (content mem sample_dir_inode)) = 2%nat /\
  performs (@dirlink _ plain_disk 0 name 9) [] (linked 3 7 1 L sb sample_O ∅ mem 0 sample_dir_inode name 9 s) s.
Proof.
  intros sb L s mem name. split; [by vm_compute |].
  apply (@dirlink_adds _ plain_disk plain_disk_laws 3 7 1 L sb sample_O ∅ mem 0 sample_dir_inode name 9 s).
  - exists L, ∅. split; [| split; [apply sample_log_ok |]].
    + apply (bstate_set_log 3 7 1 (fun _ => L) (k_log sample_dir)).
      exact (booted_bstate 3 7 1 sample_dir sample_dir_booted (proj1 sample_dir_blocks)).
    + split; [constructor |]. split; [by vm_compute |]. split; [done |].
      split; intros m Hm; [by apply not_elem_of_nil in Hm | by apply elem_of_empty in Hm].
  - done.
  - done.
  - apply not_elem_of_empty.
  - apply sample_fits.
  - exact sample_dir_owned.
  - apply sample_dir_meta.
  - exact sample_dir_ok.
  - split; [repeat constructor; cbn; lia | cbn; lia].
  - apply sample_O_in. by vm_compute.
  - by vm_compute.
  - change (~ log_area (sample_log 1) 33). rewrite sample_log_area. lia.
  - split; [apply sample_log_ok |]. by vm_compute.
  - exact (proj2 sample_dir_blocks).
  - by apply sample_name_ok.
  - left. apply elem_of_app. right. by left.
  - lia.
  - by vm_compute.
  - exact sample_dir_free.
  - by vm_compute.
Defined.
