(* ===== verification/Namei.v ===== *)
(** * Path names ([namex] of [kernel/fs.c])

    [namex] walks a path through directories.  The inodes on the disk form a graph whose
    edges are the entries of directories; [resolve] follows the elements of a path in
    it, and [namex] returns a reference to the inode it leads to.  On the way it holds
    two references at most, and locks one inode at a time. *)
From S2P Require Import Prelude Kstate Bytes CString Spinlock Mem Sample Kalloc Sched PageTable UserMem Vm Sleeplock Virtio Bio Printf Disk Log Commit Recovery Fs Inode Writei File FileWrite Dir.
Local Open Scope Z_scope.

(** ** References

    [held t0 hs t]: the table [t] is [t0] with a reference more to each of [hs]; slots
    that were in use keep their inodes. *)
Definition count (hs : list nat) (j : nat) : Z := Z.of_nat (count_occ Nat.eq_dec hs j).
Definition held (t0 : list inode) (hs : list nat) (t : list inode) : Prop :=
  length t = length t0 /\ forall j x0 x, t0 !! j = Some x0 -> t !! j = Some x ->
    i_ref x = i_ref x0 + count hs j /\ (0 < i_ref x0 -> i_dev x = i_dev x0 /\ i_inum x = i_inum x0).
(** Reference counts are far from overflow. *)
Definition few (t : list inode) : Prop := Forall (fun x => 0 <= i_ref x < 2 ^ 30) t.

Lemma count_cons i hs j : count (i :: hs) j = (if decide (i = j) then 1 else 0) + count hs j.
Proof.
  unfold count. case_decide as Hd; [rewrite count_occ_cons_eq by done; lia | by rewrite count_occ_cons_neq].
Qed.
Lemma count_pos hs j : 0 <= count hs j <= Z.of_nat (length hs).
Proof. unfold count. pose proof (count_occ_bound Nat.eq_dec j hs). lia. Qed.
Lemma held_nil t : held t [] t.
Proof. split; [done |]. intros j x0 x H1 H2. assert (x = x0) as -> by congruence. unfold count. cbn. split; [lia | done]. Qed.
Lemma held_swap t0 i j t : held t0 [i; j] t -> held t0 [j; i] t.
Proof. intros [Hl Hh]. split; [done |]. intros k x0 x H1 H2. destruct (Hh k x0 x H1 H2) as [Hr Hd]. rewrite !count_cons in *. split; [lia | done]. Qed.

(** A change of one slot. *)
Lemma held_alter t0 hs hs' t i f :
  held t0 hs t ->
  (forall x0 x, t0 !! i = Some x0 -> t !! i = Some x -> i_ref x = i_ref x0 + count hs i ->
    i_ref (f x) = i_ref x0 + count hs' i /\ (0 < i_ref x0 -> i_dev (f x) = i_dev x /\ i_inum (f x) = i_inum x)) ->
  (forall j, j <> i -> count hs' j = count hs j) -> held t0 hs' (alter f i t).
Proof.
  intros [Hl Hh] Hf Hc. split; [by rewrite length_alter |]. intros j x0 y H0 Hy. destruct (decide (j = i)) as [-> | Hne].
  - rewrite list_lookup_alter_eq in Hy. destruct (t !! i) as [x |] eqn:Hx; [| done]. injection Hy as <-.
    destruct (Hh i x0 x H0 Hx) as [Hr Hd]. destruct (Hf x0 x H0 eq_refl Hr) as [Hr' Hd']. split; [done |].
    intros Hp. destruct (Hd Hp), (Hd' Hp). split; congruence.
  - rewrite list_lookup_alter_ne in Hy by done. rewrite Hc by done. by apply Hh.
Qed.
Lemma held_take t0 hs t i f dev inum : few t0 -> (length hs <= 2)%nat -> held t0 hs t -> iget_slot dev inum t = Some (i, f) ->
  held t0 (i :: hs) (alter f i t) /\ exists x, alter f i t !! i = Some x /\ 0 < i_ref x.
Proof.
  intros Hfew Hlen Hh Hs. pose proof Hh as [Hl Hall].
  assert (exists x, t !! i = Some x) as [x Hx].
  { unfold iget_slot in Hs. destruct (list_find (in_table dev inum) t) as [[k y] |] eqn:E; [injection Hs as <- _; apply list_find_Some in E; naive_solver |].
    destruct (list_find unused t) as [[k y] |] eqn:E'; [| done]. injection Hs as <- _. apply list_find_Some in E'. naive_solver. }
  destruct (lookup_lt_is_Some_2 t0 i) as [x0 Hx0]; [rewrite <- Hl; by eapply lookup_lt_Some |].
  destruct (Hall i x0 x Hx0 Hx) as [Hr Hd]. pose proof (count_pos hs i) as Hc.
  unfold few in Hfew. rewrite Forall_lookup in Hfew. pose proof (Hfew i x0 Hx0) as Hsm. cbn in Hsm.
  assert (0 < i_ref (f x) /\ i_ref (f x) = i_ref x + 1 /\ (0 < i_ref x0 -> i_dev (f x) = i_dev x /\ i_inum (f x) = i_inum x)) as (Hpos & Hone & Hlab).
  { unfold iget_slot in Hs. destruct (list_find (in_table dev inum) t) as [[k y] |] eqn:E.
    - injection Hs as -> <-. cbn. rewrite s32_small by lia. split; [lia | split; [done | done]].
    - destruct (list_find unused t) as [[k y] |] eqn:E'; [| done]. injection Hs as -> <-. apply list_find_Some in E' as (Hy & Hu & _).
      assert (y = x) as -> by congruence. unfold unused in Hu. cbn. split; [lia |]. split; [lia | lia]. }
  split.
  - apply (held_alter t0 hs (i :: hs)); [done | |].
    + intros x0' x' H0' Hx' _. assert (x0' = x0) as -> by congruence. assert (x' = x) as -> by congruence.
      rewrite count_cons, decide_True by done. split; [lia | done].
    + intros j Hj. rewrite count_cons, decide_False by done. lia.
  - exists (f x). rewrite list_lookup_alter_eq, Hx. done.
Qed.
(** A reference given back. *)
Lemma held_drop t0 hs t i : few t0 -> (length hs <= 2)%nat -> held t0 (i :: hs) t ->
  held t0 hs (alter (fun x => x <| i_ref := s32 (i_ref x - 1) |>) i t).
Proof.
  intros Hfew Hlen Hh. unfold few in Hfew. rewrite Forall_lookup in Hfew. pose proof (count_pos hs i).
  apply (held_alter t0 (i :: hs) hs); [done | |].
  - intros x0 x H0 Hx Hr. pose proof (Hfew i x0 H0) as Hsm. cbn in Hsm. rewrite count_cons, decide_True in Hr by done.
    cbn. rewrite s32_small by lia. split; [lia | done].
  - intros j Hj. rewrite count_cons, decide_False by done. lia.
Qed.
(** With two slots unused at first, one is while a reference is held. *)
Definition two_unused (t : list inode) : Prop :=
  exists i j x y, i <> j /\ t !! i = Some x /\ t !! j = Some y /\ i_ref x = 0 /\ i_ref y = 0.
Lemma two_unused_one t : two_unused t -> Exists unused t.
Proof. intros (a & _ & x & _ & _ & Ha & _ & Hx & _). apply Exists_exists. exists x. split; [by eapply list_elem_of_lookup_2 | done]. Qed.
Lemma held_unused t0 i t : two_unused t0 -> held t0 [i] t -> Exists unused t.
Proof.
  intros (a & b & x & y & Hab & Ha & Hb & Hx & Hy) [Hl Hh]. apply Exists_exists.
  assert (exists k z, k <> i /\ t0 !! k = Some z /\ i_ref z = 0) as (k & z & Hk & Hz & Hrz).
  { destruct (decide (a = i)) as [-> |]; [by exists b, y | by exists a, x]. }
  destruct (lookup_lt_is_Some_2 t k) as [w Hw]; [rewrite Hl; by eapply lookup_lt_Some |].
  destruct (Hh k z w Hz Hw) as [Hr _]. rewrite count_cons, decide_False in Hr by done.
  exists w. split; [by eapply list_elem_of_lookup_2 |]. unfold unused. unfold count in Hr. cbn in Hr. lia.
Qed.

(** ** Path elements *)
Lemma skip_slashes_Forall (Q : Z -> Prop) path : Forall Q path -> Forall Q (skip_slashes path).
Proof. induction 1 as [| c r Hc Hr IH]; [done |]. cbn. destruct (c =? 47); [done | by constructor]. Qed.
Lemma take_elem_Forall (Q : Z -> Prop) path : Forall Q path -> Forall Q (fst (take_elem path)) /\ Forall Q (snd (take_elem path)).
Proof.
  induction 1 as [| c r Hc Hr [IH1 IH2]]; [done |]. cbn. destruct (c =? 47); [by repeat constructor |].
  destruct (take_elem r). cbn in *. split; [by constructor | done].
Qed.
Lemma skipelem_Forall (Q : Z -> Prop) path name path' name' : skipelem path name = Some (path', name') -> Forall Q path ->
  Forall Q path' /\ (Q 0 -> Forall Q name -> Forall Q name').
Proof.
  unfold skipelem. intros Hs Hp. apply skip_slashes_Forall in Hp. destruct (skip_slashes path) as [| c r] eqn:E; [done |].
  destruct (take_elem_Forall Q _ Hp) as [H1 H2]. destruct (take_elem (c :: r)) as [el t]. cbn in H1, H2. injection Hs as <- <-.
  split; [by apply skip_slashes_Forall |]. intros H0 Hn. unfold patch.
  case_decide; (apply Forall_app; split; [by apply Forall_take |]; apply Forall_app; split; [| by apply Forall_drop]);
    [by apply Forall_take | apply Forall_app; by repeat constructor].
Qed.
Lemma flush_Forall (Q : Z -> Prop) acc : Forall Q acc -> Forall (Forall Q) (flush acc).
Proof. destruct acc; [constructor | intros Ha; constructor; [exact Ha | constructor]]. Qed.
Lemma elements_Forall (Q : Z -> Prop) path : Forall Q path -> Forall (Forall Q) (elements path).
Proof.
  assert (forall acc, Forall Q acc -> Forall Q path -> Forall (Forall Q) (elements_from acc path)) as Hall; [| by apply Hall].
  induction path as [| c r IH]; intros acc Ha Hp.
  - by apply flush_Forall.
  - apply Forall_cons in Hp as [Hc Hp]. cbn. destruct (c =? 47).
    + apply Forall_app. split; [by apply flush_Forall | by apply IH].
    + apply IH; [| done]. apply Forall_app. by repeat constructor.
Qed.
(** A path has no nul, and neither have its elements. *)
Definition nonzero (l : list Z) : Prop := Forall (fun c => c <> 0) l.
Lemma cstr_nonzero l : nonzero l -> cstr l = l.
Proof. induction 1 as [| c r Hc _ IH]; [done |]. cbn. by rewrite (proj2 (Z.eqb_neq c 0) Hc), IH. Qed.
Lemma cstr_cut l : forall el, nonzero el -> take (length el) l = el -> l !! length el = Some 0 -> cstr l = el.
Proof.
  induction l as [| c l IH]; intros [| e el] Hn Ht Hz; try done.
  - cbn in Hz. by injection Hz as ->.
  - apply Forall_cons in Hn as [He Hn]. cbn in Ht, Hz. injection Ht as -> Ht. cbn.
    rewrite (proj2 (Z.eqb_neq e 0) He). by rewrite (IH el).
Qed.
(** The buffer [skipelem] fills names the element. *)
Lemma name_short el name : nonzero el -> length name = DIRSIZ -> take (Nat.min DIRSIZ (length el)) name = take DIRSIZ el ->
  ((length el < DIRSIZ)%nat -> name !! length el = Some 0) -> short name = short el.
Proof.
  intros Hn Hl Ht Hz. unfold short. rewrite (cstr_nonzero el Hn). destruct (decide (length el < DIRSIZ)%nat) as [Hlt | Hge].
  - rewrite Nat.min_r in Ht by lia. rewrite (take_ge el) in Ht by lia. rewrite (cstr_cut name el Hn Ht (Hz Hlt)). done.
  - rewrite Nat.min_l in Ht by lia. rewrite take_ge in Ht by lia. rewrite Ht. rewrite cstr_nonzero by (by apply Forall_take).
    apply take_ge. rewrite length_take. lia.
Qed.
Lemma dir_entry_short a b c : short a = short b -> dir_entry a c = dir_entry b c.
Proof.
  intros Hs. unfold dir_entry. f_equal. apply list_find_ext. intros x. unfold live. by rewrite Hs.
Qed.

Lemma skip_slashes_idem path : skip_slashes (skip_slashes path) = skip_slashes path.
Proof. induction path as [| c r IH]; [done |]. cbn. destruct (c =? 47) eqn:Hc; [done |]. cbn. by rewrite Hc. Qed.
(** Slashes at the end are skipped. *)
Lemma skipelem_last path name path' name' : length name' = DIRSIZ -> skipelem path name = Some (path', name') -> elements path' = [] -> path' = [].
Proof.
  intros Hl Hs He. pose proof (skipelem_spec path' name' Hl) as Hn. rewrite He in Hn. unfold skipelem in Hs, Hn.
  destruct (skip_slashes path) as [| c r]; [done |]. destruct (take_elem (c :: r)) as [el t]. injection Hs as <- _.
  rewrite skip_slashes_idem in Hn. destruct (skip_slashes t); [done |]. by destruct (take_elem _).
Qed.
(** What the buffer of [namex] holds: the element, as far as it fits. *)
Lemma skipelem_name path name el rest : nonzero path -> bytes path -> bytes name -> length name = DIRSIZ -> elements path = el :: rest ->
  exists path' name', skipelem path name = Some (path', name') /\ elements path' = rest /\ (length path' < length path)%nat /\
    length name' = DIRSIZ /\ bytes name' /\ nonzero path' /\ bytes path' /\ short name' = short el /\ (rest = [] -> path' = []).
Proof.
  intros Hnz Hbp Hbn Hl He. pose proof (skipelem_spec path name Hl) as Hs. rewrite He in Hs.
  destruct Hs as (path' & name' & Hs & Hr & Hlt & Hl' & Ht & Hz). exists path', name'.
  destruct (skipelem_Forall _ _ _ _ _ Hs Hnz) as [Hnz' _]. destruct (skipelem_Forall _ _ _ _ _ Hs Hbp) as [Hbp' Hbn'].
  do 4 (split; [done |]). split; [apply Hbn'; [lia | done] |]. do 2 (split; [done |]). split.
  - apply name_short; try done. pose proof (elements_Forall _ _ Hnz) as Hel. rewrite He in Hel. by apply Forall_cons in Hel as [Hel _].
  - intros ->. by eapply skipelem_last.
Qed.

(** A file is where its size and block addresses say. *)
Lemma content_same mem x y : i_size x = i_size y -> i_addrs x = i_addrs y -> content mem x = content mem y.
Proof.
  intros Hs Ha. unfold content, extent. rewrite Hs. f_equal. f_equal. apply list_fmap_ext. intros j k _.
  unfold nth_block, block_addr, indirect. by rewrite Ha.
Qed.
Lemma dir_ok_same dev mem x y : i_dev x = i_dev y -> i_type x = i_type y -> i_size x = i_size y -> i_addrs x = i_addrs y ->
  dir_ok dev mem x -> dir_ok dev mem y.
Proof.
  intros Hd Ht Hs Ha. unfold dir_ok, file_ok, mapped, block_addr, indirect. by rewrite Hd, Ht, Hs, Ha.
Qed.

(** The same inode, but for its reference count and flag. *)
Definition as_read (x y : inode) : Prop := x = y <| i_ref := i_ref x |> <| i_valid := i_valid x |>.
Lemma as_read_fields x y : as_read x y ->
  i_dev x = i_dev y /\ i_type x = i_type y /\ i_nlink x = i_nlink y /\ i_size x = i_size y /\ i_addrs x = i_addrs y.
Proof. unfold as_read. intros ->. by destruct y. Qed.
Lemma as_read_ref x y : as_read x y -> as_read (referenced x) y.
Proof. unfold as_read. intros Hx. destruct x, y. injection Hx. by intros; subst. Qed.

Section namei.
Context {Im : Image} `{DiskLaws} (p : nat) (pid : Z) (sb : superblock).
Notation dev := ROOTDEV.
Notation bstate := (bstate p pid dev).
Notation node := (inode_on dev sb).
Implicit Types (mem : view) (t : list inode).

(** ** The table and the disk *)
Definition on_disk mem (inum : Z) : dinode := read_dinode (mem (IBLOCK inum sb)) (dinode_off inum).
(** A slot that was read has the inode of the disk. *)
Definition table_ok mem t : Prop := length t = NINODE /\
  Forall (fun x => 0 < i_ref x -> i_dev x = dev -> i_valid x <> 0 -> dinode_of x = on_disk mem (i_inum x)) t.
(** An inode that was read, but for its reference count. *)
Lemma node_eq mem x : i_dev x = dev -> dinode_of x = on_disk mem (i_inum x) ->
  as_read x (node mem (i_inum x)).
Proof.
  intros Hd Hx. unfold as_read, inode_on. fold (on_disk mem (i_inum x)). rewrite <- Hx. destruct x. cbn in *. by rewrite Hd.
Qed.
Lemma table_alter mem t i f : table_ok mem t ->
  (forall x, t !! i = Some x -> 0 < i_ref (f x) -> i_dev (f x) = dev -> i_valid (f x) <> 0 -> dinode_of (f x) = on_disk mem (i_inum (f x))) ->
  table_ok mem (alter f i t).
Proof.
  intros [Hl Ht] Hf. split; [by rewrite length_alter |]. apply Forall_alter; [done |]. intros x Hx _. by apply Hf.
Qed.
Lemma table_take mem t inum i f : table_ok mem t -> iget_slot dev inum t = Some (i, f) -> table_ok mem (alter f i t).
Proof.
  intros Ht Hs. pose proof Ht as [_ Hall]. rewrite Forall_lookup in Hall. apply table_alter; [done |]. intros x Hx.
  unfold iget_slot in Hs. destruct (list_find (in_table dev inum) t) as [[k y] |] eqn:E.
  - injection Hs as -> <-. apply list_find_Some in E as (Hy & (Hr & _) & _). assert (y = x) as -> by congruence.
    intros _. cbn. by apply (Hall i x Hx).
  - destruct (list_find unused t) as [[k y] |] eqn:E'; [| done]. injection Hs as -> <-. cbn. done.
Qed.

(** ** The state of a walk

    [o] is the inode that is locked, [hs] the references held. *)
Context (L : log) (P dirty : gset Z) (mem : view) (t0 : list inode).
Hypothesis (Hroom : (size P < NBUF)%nat) (Hbytes : bytes_ok mem) (Hfew : few t0) (Htwo : two_unused t0).

Definition locks (o : option nat) (s : kstate) : Prop := forall j, (j < NINODE)%nat ->
  lock_free s (LkSleep (SlInode j)) /\ slock_held s (SlInode j) = bool_decide (o = Some j) /\
  (o = Some j -> sl_pid (slock_of s (SlInode j)) = pid).
Record walking (o : option nat) (hs : list nat) (s : kstate) : Prop := {
  wk_b : bstate L P [] dirty mem s;
  wk_sb : k_sb s = sb;
  wk_locks : locks o s;
  wk_held : held t0 hs (k_inodes s);
  wk_table : table_ok mem (k_inodes s)
}.
(** The reference to slot [i] is one to inode [inum]. *)
Definition refers (i : nat) (inum : Z) (s : kstate) : Prop :=
  exists x, k_inodes s !! i = Some x /\ i_dev x = dev /\ i_inum x = inum /\ 0 < i_ref x.

Lemma locks_env o s s' : locks o s -> fs_env s' = fs_env s -> locks o s'.
Proof.
  intros Hl He j Hj. destruct (ilocks_same s s' j He Hj) as [Hs Hf]. destruct (Hl j Hj) as (H1 & H2 & H3).
  unfold slock_held. rewrite Hs. auto.
Qed.
Lemma sb_env s s' : fs_env s' = fs_env s -> k_sb s' = k_sb s.
Proof. unfold fs_env. intros He. by injection He as He _ _ _ _. Qed.

(** Another slot of the table, and nothing else of the file system. *)
Lemma walk_step o hs hs' s s' : walking o hs s -> bstate L P [] dirty mem s' -> fs_env s' = fs_env s ->
  held t0 hs' (k_inodes s') -> table_ok mem (k_inodes s') -> walking o hs' s'.
Proof.
  intros [Hb Hsb Hlk _ _] Hb' He Hh Ht. split; [done | rewrite (sb_env _ _ He); done | by eapply locks_env | done | done].
Qed.
Lemma walk_lock o hs s : walking o hs s -> exists c, cpu_ok s c /\ lock_free s LkItable.
Proof.
  intros [((c & pr & Hr & _ & _ & _ & _ & Hlk & _) & _) _ _ _ _]. exists c. split; [apply Hr |].
  apply (quiet_lock s _ Hlk), elem_of_app. left. right. right. right. by left.
Qed.

Lemma held_bound hs t i x : held t0 hs t -> (length hs <= 3)%nat -> t !! i = Some x -> 0 <= count hs i <= i_ref x /\ i_ref x < 2 ^ 31 - 1.
Proof.
  intros [Hl Hh] Hlen Hx. destruct (lookup_lt_is_Some_2 t0 i) as [x0 Hx0]; [rewrite <- Hl; by eapply lookup_lt_Some |].
  destruct (Hh i x0 x Hx0 Hx) as [Hr _]. unfold few in Hfew. rewrite Forall_lookup in Hfew. pose proof (Hfew i x0 Hx0) as Hs0. cbn in Hs0.
  pose proof (count_pos hs i). lia.
Qed.

(** [iget], and a reference duplicated. *)
Lemma iget_walk o hs inum s : walking o hs s -> (length hs <= 2)%nat -> Exists unused (k_inodes s) ->
  performs (iget dev inum) [] (fun i s' => walking o (i :: hs) s' /\ refers i inum s') s.
Proof.
  intros Hw Hlen Hex. pose proof Hw as [Hb Hsb Hlk Hh Ht]. destruct (iget_slot_some dev s Hex inum) as (i & f & Hs).
  eapply performs_mono; [apply (iget_performs p pid dev L P [] dirty mem inum i f s Hb (proj1 Ht) Hs) |].
  intros r s' (-> & Hi & Hb' & He). destruct (held_take t0 hs (k_inodes s) i f dev inum Hfew Hlen Hh Hs) as (Hh' & x & Hx & Hpos).
  destruct (iget_slot_label dev inum _ i f Hs) as (y & Hy & Hd & Hn). assert (y = x) as -> by congruence.
  split; [eapply walk_step; try done; rewrite Hi; [done | by eapply table_take] |]. exists x. by rewrite Hi.
Qed.
Lemma idup_walk o hs i inum s : walking o hs s -> (length hs <= 2)%nat -> refers i inum s ->
  performs (idup i) [] (fun r s' => r = i /\ walking o (i :: hs) s' /\ refers i inum s') s.
Proof.
  intros Hw Hlen (x & Hx & Hd & Hn & Hpos). pose proof Hw as [Hb Hsb Hlk Hh Ht]. destruct (walk_lock _ _ _ Hw) as (c & Hc & Hl).
  eapply performs_ret.
  - intros e. unfold idup. kcall (acquire_eq s e c LkItable). unfold upd_inode. krun. kcall (release_section s _ e c LkItable). reflexivity.
  - done.
  - pose proof (held_bound hs (k_inodes s) i x Hh ltac:(lia) Hx) as Hsm.
    split; [done |]. split.
    + apply (walk_step o hs (i :: hs) s); [done | exact (bstate_dsync p pid dev L P [] dirty mem s Hb) | done | |].
      * apply (held_alter t0 hs (i :: hs) (k_inodes s)); [done | |].
        -- intros x0 x' Hx0 Hx' Hr. assert (x' = x) as -> by congruence. rewrite count_cons, decide_True by done. cbn.
           rewrite s32_small by lia. split; [lia | done].
        -- intros j Hj. rewrite count_cons, decide_False by done. lia.
      * apply (table_alter mem (k_inodes s)); [done |]. intros x' Hx'. destruct Ht as [_ Ht]. rewrite Forall_lookup in Ht. assert (x' = x) as -> by congruence.
        intros _. cbn. by apply (Ht i x Hx).
    + exists (referenced x). cbn. rewrite list_lookup_alter_eq, Hx. split; [done |]. cbn. rewrite s32_small by lia. split; [done | split; [done | lia]].
Qed.

(** [iput] of an inode that has names. *)
Lemma iput_walk o hs i x s : walking o (i :: hs) s -> (length hs <= 2)%nat -> k_inodes s !! i = Some x -> (i_valid x <> 0 -> i_nlink x <> 0) ->
  performs (iput i) [] (fun _ s' => walking o hs s' /\ k_inodes s' = alter (fun x => x <| i_ref := s32 (i_ref x - 1) |>) i (k_inodes s)) s.
Proof.
  intros Hw Hlen Hx Hnl. pose proof Hw as [Hb Hsb Hlk Hh Ht]. destruct (walk_lock _ _ _ Hw) as (c & Hc & Hl).
  eapply performs_ret.
  - intros e. unfold iput. kcall (acquire_eq s e c LkItable).
    rewrite (bind_ret _ _ _ _ _ (get_nth_eq k_inodes i (lock_taken LkItable s) e x Hx)).
    assert ((i_ref x =? 1) && istrue (i_valid x) && (i_nlink x =? 0) = false) as ->.
    { unfold istrue. destruct (Z.eqb_spec (i_valid x) 0) as [| Hv]; cbn [negb]; [by rewrite andb_false_r |].
      by rewrite (proj2 (Z.eqb_neq _ _) (Hnl Hv)), andb_false_r. }
    unfold upd_inode. krun. rewrite (release_section s _ e c LkItable); [reflexivity | done ..].
  - done.
  - split; [| done]. apply (walk_step o (i :: hs) hs s); [done | exact (bstate_dsync p pid dev L P [] dirty mem s Hb) | done | |].
    + by apply (held_drop t0 hs (k_inodes s) i).
    + apply (table_alter mem (k_inodes s)); [done |]. intros x' Hx'. destruct Ht as [_ Ht]. rewrite Forall_lookup in Ht. assert (x' = x) as -> by congruence.
      pose proof (held_bound (i :: hs) (k_inodes s) i x Hh ltac:(cbn; lia) Hx).
      cbn. rewrite s32_small by lia. intros Hp. apply (Ht i x Hx). lia.
Qed.

(** ** Locking an inode *)
Lemma locks_taken_one i s : locks None s -> locks (Some i) (slock_taken (SlInode i) pid (sync s)).
Proof.
  intros Hl j Hj. destruct (Hl j Hj) as (H1 & H2 & _). split; [exact H1 |]. unfold slock_held, slock_of, slock_taken in *. cbn.
  destruct (decide (j = i)) as [-> | Hne].
  - rewrite lookup_insert_eq. cbn. split; [by rewrite bool_decide_true | done].
  - rewrite lookup_insert_ne by congruence. split; [| congruence]. rewrite (bool_decide_false (Some i = Some j)) by congruence. done.
Qed.
Lemma locks_freed_one i s : locks (Some i) s ->
  locks None ((slock_freed (SlInode i) (sync (sync s))) <| k_procs ::= wake_all (ChSleep (SlInode i)) (Some p) |>).
Proof.
  intros Hl j Hj. destruct (Hl j Hj) as (H1 & H2 & _). split; [exact H1 |]. split; [| done].
  unfold slock_held, slock_of, slock_freed in *. cbn. destruct (decide (j = i)) as [-> | Hne].
  - by rewrite lookup_insert_eq.
  - rewrite lookup_insert_ne by congruence. rewrite (bool_decide_false (Some i = Some j)) in H2 by congruence. done.
Qed.

(** [ilock] reads an inode that was not read yet; then it is as on the disk. *)
Definition fetched (i : nat) (inum : Z) (s : kstate) : Prop :=
  exists x, k_inodes s !! i = Some x /\ 0 < i_ref x /\ as_read x (node mem inum).
Lemma fetched_intro i x s : k_inodes s !! i = Some x -> i_dev x = dev -> 0 < i_ref x -> i_valid x <> 0 -> table_ok mem (k_inodes s) ->
  fetched i (i_inum x) s.
Proof.
  intros Hx Hd Hr Hv [_ Ht]. rewrite Forall_lookup in Ht. exists x. split; [done |]. split; [done |].
  apply node_eq; [done |]. by apply (Ht i x Hx).
Qed.

Lemma load_walk hs i inum x s : walking (Some i) hs s -> k_inodes s !! i = Some x -> i_dev x = dev -> i_inum x = inum -> 0 < i_ref x -> i_valid x = 0 ->
  di_type (on_disk mem inum) <> 0 ->
  performs (let! bp := bread dev (IBLOCK inum sb) in
    let! d := buf_data bp in
    let! ip := get_inode i in
    upd_inode i (load_dinode (read_dinode d (dinode_off (i_inum ip)))) ;;;
    brelse bp ;;;
    upd_inode i (fun ip => ip <| i_valid := 1 |>) ;;;
    let! ip := get_inode i in
    if i_type ip =? 0 then panic "ilock: no type" else ret tt) []
    (fun _ s' => walking (Some i) hs s' /\ fetched i inum s') s.
Proof.
  intros Hw Hx Hd Hn Hpos Hv Hty. pose proof Hw as [Hb Hsb Hlk Hh Ht].
  eapply bread_then; [exact Hb | split; [apply not_elem_of_nil | right; cbn; lia] |]. intros b s2 H2 F2.
  eapply performs_data; [done | by left |]. pose proof (fs_rest_inodes _ _ F2) as Hi2.
  eapply performs_inode; [by rewrite Hi2 |]. rewrite Hn. fold (on_disk mem inum). set (dn := on_disk mem inum) in *.
  unfold upd_inode. apply performs_upd; [done |]. set (s3 := s2 <| k_inodes ::= alter (load_dinode dn) i |>).
  eapply (brelse_then p pid dev L P [] dirty mem b); [exact H2 | by apply (bstate_unlocked p pid dev L P [] dirty mem s); [| apply not_elem_of_nil] |].
  intros s4 H4 F4. apply performs_upd; [done |].
  set (t := alter (fun ip => ip <| i_valid := 1 |>) i (alter (load_dinode dn) i (k_inodes s))).
  assert (k_inodes (s4 <| k_inodes ::= alter (fun ip => ip <| i_valid := 1 |>) i |>) = t) as Ht5.
  { cbn. rewrite (fs_rest_inodes _ _ F4). unfold s3. cbn. by rewrite Hi2. }
  set (s5 := s4 <| k_inodes ::= alter (fun ip => ip <| i_valid := 1 |>) i |>) in *.
  set (y := (load_dinode dn x) <| i_valid := 1 |>).
  assert (t !! i = Some y) as Hy by (unfold t; rewrite !list_lookup_alter_eq, Hx; done).
  eapply performs_inode; [by rewrite Ht5 |]. change (i_type y) with (di_type dn). rewrite (proj2 (Z.eqb_neq _ _) Hty).
  apply performs_done. assert (walking (Some i) hs s5) as Hw5.
  { apply (walk_step (Some i) hs hs s); [done | exact H4 | | |].
    - pose proof (f_equal snd F4) as E4. pose proof (f_equal snd F2) as E2. cbn [snd fs_rest] in E4, E2. change (fs_env s4 = fs_env s).
      rewrite E4. exact E2.
    - rewrite Ht5. unfold t. apply (held_alter t0 hs hs); [apply (held_alter t0 hs hs); [done | |] | |]; done.
    - rewrite Ht5. unfold t. apply table_alter; [apply table_alter; [done |] |].
      + intros x' Hx'. assert (x' = x) as -> by congruence. cbn. done.
      + intros x' Hx'. rewrite list_lookup_alter_eq, Hx in Hx'. injection Hx' as <-. intros _ _ _.
        change (dinode_of (load_dinode dn x) = on_disk mem (i_inum x)). rewrite Hn. fold dn. clear. by destruct dn. }
  split; [done |]. rewrite <- Hn. change (i_inum x) with (i_inum y). apply fetched_intro; try done; [by rewrite Ht5 | by destruct Hw5].
Qed.
Lemma ilock_walk hs i inum s : walking None hs s -> (i < NINODE)%nat -> refers i inum s -> di_type (on_disk mem inum) <> 0 ->
  performs (ilock (Some i)) [] (fun _ s' => walking (Some i) hs s' /\ fetched i inum s') s.
Proof.
  intros Hw Hi (x & Hx & Hd & Hn & Hpos) Hty. pose proof Hw as [Hb Hsb Hlk Hh Ht]. destruct (Hlk i Hi) as (Hfree & Hnot & _).
  pose proof Hb as ((c & pr & Hr & Hno & Hpr & Hpid & _) & _).
  unfold ilock. eapply performs_inode; [done |]. rewrite (proj2 (Z.ltb_ge _ _)) by lia.
  set (s1 := slock_taken (SlInode i) pid (sync s)).
  apply (performs_seq _ _ _ (fun _ s' => s' = s1)).
  { apply (performs_ret _ tt s s1); [| done | done]. intros e. unfold s1. rewrite <- Hpid.
    apply (acquiresleep_free_eq s e c p pr (SlInode i)); try done. lia. }
  intros [] ? ->. assert (walking (Some i) hs s1) as Hw1.
  { split; [by apply bstate_islock, bstate_sync | done | by apply locks_taken_one | done | done]. }
  eapply performs_inode; [exact Hx |]. destruct (Z.eqb_spec (i_valid x) 0) as [Hv | Hv].
  2:{ apply performs_done. split; [done |]. rewrite <- Hn. by apply fetched_intro. }
  apply performs_get. change (k_sb s1) with (k_sb s). rewrite Hsb, Hd, Hn.
  by apply (load_walk hs i inum x s1).
Qed.
Lemma iunlock_walk hs i inum s : walking (Some i) hs s -> (i < NINODE)%nat -> fetched i inum s ->
  performs (iunlock (Some i)) [] (fun _ s' => walking None hs s' /\ k_inodes s' = k_inodes s) s.
Proof.
  intros Hw Hi (x & Hx & Hpos & _). pose proof Hw as [Hb Hsb Hlk Hh Ht]. destruct (Hlk i Hi) as (Hfree & Hheld & Hpid).
  rewrite bool_decide_true in Hheld by done.
  eapply performs_mono; [apply (iunlock_exact p pid dev L P [] dirty mem i x s); (done || lia || by apply Hpid) |].
  intros [] s' ->. split; [| done]. split; [| done | by apply locks_freed_one | done | done].
  by apply (bstate_wake p pid dev L P [] dirty mem (ChSleep (SlInode i)) (slock_freed (SlInode i) (sync (sync s)))), bstate_islock, bstate_sync, bstate_sync.
Qed.

(** ** The walk

    The inode the elements of a path lead to; with [parent], the directory of the last
    one. *)
Fixpoint resolve (parent : bool) (inum : Z) (els : list (list Z)) : option Z :=
  match els with
  | [] => if parent then None else Some inum
  | el :: r =>
      if di_type (on_disk mem inum) =? T_DIR then
        if parent && bool_decide (r = []) then Some inum else
        match dir_entry el (content mem (node mem inum)) with
        | Some (_, n) => resolve parent n r
        | None => None
        end
      else None
  end.
(** The inodes on the way are allocated, have names, and if directories are well formed. *)
Fixpoint passable (parent : bool) (inum : Z) (els : list (list Z)) : Prop :=
  match els with
  | [] => parent = true -> di_nlink (on_disk mem inum) <> 0
  | el :: r =>
      di_type (on_disk mem inum) <> 0 /\ di_nlink (on_disk mem inum) <> 0 /\
      (di_type (on_disk mem inum) = T_DIR -> dir_ok dev mem (node mem inum)) /\
      (parent && bool_decide (r = []) = false ->
       forall k n, dir_entry el (content mem (node mem inum)) = Some (k, n) -> passable parent n r)
  end.

Lemma iunlockput_walk hs i inum s : walking (Some i) (i :: hs) s -> (length hs <= 2)%nat -> (i < NINODE)%nat -> fetched i inum s -> di_nlink (on_disk mem inum) <> 0 ->
  performs (iunlockput i) [] (fun _ s' => walking None hs s' /\ k_inodes s' = alter (fun x => x <| i_ref := s32 (i_ref x - 1) |>) i (k_inodes s)) s.
Proof.
  intros Hw Hlen Hi Hld Hnl. unfold iunlockput. eapply performs_seq; [by apply (iunlock_walk (i :: hs) i inum s) |].
  intros [] s1 [Hw1 Hi1]. destruct Hld as (x & Hx & _ & Hnode).
  eapply performs_mono; [apply (iput_walk None hs i x s1); [done | done | by rewrite Hi1 | by rewrite (proj1 (proj2 (proj2 (as_read_fields _ _ Hnode))))] |].
  intros [] s2 [Hw2 Hi2]. split; [done |]. by rewrite Hi2, Hi1.
Qed.
(** Another reference to a slot leaves the inode in it as it was read. *)
Lemma fetched_take i inum j f n s t : fetched i inum s -> iget_slot dev n (k_inodes s) = Some (j, f) -> t = alter f j (k_inodes s) ->
  forall s', k_inodes s' = t -> (forall x, t !! i = Some x -> 0 < i_ref x) -> fetched i inum s'.
Proof.
  intros (x & Hx & Hpos & Hnode) Hs -> s' Hs' Hr. destruct (decide (j = i)) as [-> | Hne].
  2:{ exists x. rewrite Hs', list_lookup_alter_ne by done. done. }
  assert (f = referenced) as ->.
  { unfold iget_slot in Hs. destruct (list_find (in_table dev n) (k_inodes s)) as [[k y] |]; [by injection Hs as _ <- |].
    destruct (list_find unused (k_inodes s)) as [[k y] |] eqn:E; [| done]. injection Hs as -> _.
    apply list_find_Some in E as (Hy & Hu & _). unfold unused in Hu. assert (y = x) as -> by congruence. lia. }
  exists (referenced x). rewrite Hs', list_lookup_alter_eq, Hx. split; [done |]. split.
  - apply Hr. by rewrite list_lookup_alter_eq, Hx.
  - by apply as_read_ref.
Qed.


(** The result of a walk that leads to [o]; for the parent, [name] is the last element. *)
Definition names (parent : bool) (els : list (list Z)) (name : list Z) : Prop :=
  parent = true -> exists el, last els = Some el /\ length name = DIRSIZ /\ short name = short el.
Definition arrives (parent : bool) (els : list (list Z)) (o : option Z) (r : option nat * list Z) (s : kstate) : Prop :=
  match o with
  | None => fst r = None /\ walking None [] s
  | Some n => exists i, fst r = Some i /\ walking None [i] s /\ refers i n s /\ names parent els (snd r)
  end.
Lemma refers_slot o hs i inum s : walking o hs s -> refers i inum s -> (i < NINODE)%nat.
Proof. intros [_ _ _ _ [Hl _]] (x & Hx & _). rewrite <- Hl. by eapply lookup_lt_Some. Qed.
(** A reference given back leaves another one. *)
Lemma refers_drop i j n hs s s' : walking None (i :: hs) s' -> refers i n s ->
  k_inodes s' = alter (fun x => x <| i_ref := s32 (i_ref x - 1) |>) j (k_inodes s) -> (length hs <= 2)%nat -> refers i n s'.
Proof.
  intros [_ _ _ Hh _] (x & Hx & Hd & Hn & _) Hi Hlen.
  assert (exists y, k_inodes s' !! i = Some y /\ i_dev y = dev /\ i_inum y = n) as (y & Hy & Hd' & Hn').
  { rewrite Hi. destruct (decide (j = i)) as [-> | Hne].
    - rewrite list_lookup_alter_eq, Hx. by eexists.
    - rewrite list_lookup_alter_ne by done. by exists x. }
  exists y. do 3 (split; [done |]). destruct (held_bound _ _ _ _ Hh ltac:(cbn; lia) Hy) as [Hb _].
  rewrite count_cons, decide_True in Hb by done. pose proof (count_pos hs i). lia.
Qed.
(** [dirlookup] on the way. *)
Lemma dirlookup_walk i inum name s : walking (Some i) [i] s -> fetched i inum s -> dir_ok dev mem (node mem inum) -> bytes name -> length name = DIRSIZ ->
  performs (dirlookup i name) [] (fun r s' =>
    match dir_entry name (content mem (node mem inum)) with
    | None => r = None /\ walking (Some i) [i] s' /\ fetched i inum s'
    | Some (k, n) => exists j off, r = Some (j, off) /\ walking (Some i) [i; j] s' /\ fetched i inum s' /\ refers j n s'
    end) s.
Proof.
  intros Hw Hld Hdir Hname Hlen. pose proof Hw as [Hb Hsb Hlk Hh Ht]. pose proof Hld as (x & Hx & Hpos & Hnode).
  destruct (as_read_fields _ _ Hnode) as (Hdv & Hty & _ & Hsz & Ha). pose proof (content_same mem x (node mem inum) Hsz Ha) as Hcx.
  assert (dir_ok dev mem x) as Hdx by (by apply (dir_ok_same dev mem (node mem inum))).
  eapply performs_mono.
  { apply (dirlookup_performs p pid dev L P dirty mem i x s Hroom Hbytes Hdx Hx name Hname ltac:(right; lia) (proj1 Ht) (held_unused t0 i _ Htwo Hh) s).
    by split. }
  intros r s' (Hb' & He & Hr). rewrite Hcx in Hr. unfold dir_entry.
  destruct (list_find (live name) (dir_entries (content mem (node mem inum)))) as [[k de] |]; cbn.
  - destruct Hr as (j & f & Hs & -> & Hi). exists j, (16 * Z.of_nat k). split; [done |].
    destruct (held_take t0 [i] (k_inodes s) j f dev _ Hfew ltac:(cbn; lia) Hh Hs) as (Hh' & y & Hy & Hyp).
    destruct (iget_slot_label dev _ _ j f Hs) as (y' & Hy' & Hd & Hn). assert (y' = y) as -> by congruence.
    assert (walking (Some i) [i; j] s') as Hw'.
    { apply (walk_step (Some i) [i] _ s); [done | done | done | rewrite Hi; by apply held_swap | rewrite Hi; by eapply table_take]. }
    split; [done |]. split; [| exists y; by rewrite Hi].
    apply (fetched_take i inum j f (de_inum de) s _ Hld Hs eq_refl s' Hi). intros z Hz.
    destruct (held_bound _ _ _ _ Hh' ltac:(cbn; lia) Hz) as [Hbz _]. rewrite !count_cons, (decide_True (P := i = i)) in Hbz by done.
    pose proof (count_pos [] i). destruct (decide (j = i)); lia.
  - destruct Hr as [-> Hi]. split; [done |]. split.
    + apply (walk_step (Some i) [i] _ s); [done | done | done | by rewrite Hi ..].
    + exists x. by rewrite Hi.
Qed.

Lemma arrives_cons parent el els o r s : parent && bool_decide (els = []) = false -> arrives parent els o r s -> arrives parent (el :: els) o r s.
Proof.
  intros Hne Ha. destruct o as [n |]; [| done]. destruct Ha as (i & Hr & Hw & Href & Hn). exists i. do 3 (split; [done |]).
  intros ->. destruct (Hn eq_refl) as (e & He & Hl). exists e. split; [| done]. destruct els; [done | exact He].
Qed.
Lemma fetched_refers i inum s s' : fetched i inum s -> k_inodes s' = k_inodes s -> refers i inum s'.
Proof.
  intros (x & Hx & Hpos & Hnode) Hi. exists x. rewrite Hi. split; [done |]. unfold as_read in Hnode. rewrite Hnode. done.
Qed.
(** The end of the path. *)
Lemma namex_end parent i inum name s : walking None [i] s -> refers i inum s -> passable parent inum [] ->
  performs (if parent then iput i ;;; ret (None, name) else ret (Some i, name)) [] (arrives parent [] (resolve parent inum [])) s.
Proof.
  intros Hw (x & Hx & Hd & Hn & Hpos) Hpass. destruct parent.
  - eapply performs_seq; [apply (iput_walk None [] i x s); [done | cbn; lia | done |] |].
    + intros Hv. destruct Hw as [_ _ _ _ [_ Ht]]. rewrite Forall_lookup in Ht.
      change (di_nlink (dinode_of x) <> 0). rewrite (Ht i x Hx Hpos Hd Hv), Hn. by apply Hpass.
    + intros [] s1 [Hw1 _]. by apply performs_done.
  - apply performs_done. exists i. do 2 (split; [done |]). split; [by exists x | done].
Qed.
Lemma namex_loop_walk parent fuel : forall i inum path name s, walking None [i] s -> refers i inum s -> passable parent inum (elements path) ->
  nonzero path -> bytes path -> bytes name -> length name = DIRSIZ -> (length path < fuel)%nat ->
  performs (namex_loop fuel i path parent name) [] (arrives parent (elements path) (resolve parent inum (elements path))) s.
Proof.
  induction fuel as [| fuel IH]; intros i inum path name s Hw Href Hpass Hnz Hbp Hbn Hlen Hfuel; [lia |]. cbn [namex_loop].
  destruct (elements path) as [| el rest] eqn:He.
  { pose proof (skipelem_spec path name Hlen) as Hs. rewrite He in Hs. rewrite Hs. by apply namex_end. }
  destruct (skipelem_name path name el rest) as (path' & name' & -> & He' & Hlt & Hlen' & Hbn' & Hnz' & Hbp' & Hsh & Hlast); [done .. |].
  destruct Hpass as (Hty & Hnl & Hdir & Hnext). pose proof (refers_slot _ _ _ _ _ Hw Href) as Hi.
  eapply performs_seq; [by apply (ilock_walk [i] i inum s) |]. intros [] s1 [Hw1 Hld1].
  pose proof Hld1 as (x & Hx & _ & Hnode). eapply performs_inode; [done |].
  destruct (as_read_fields _ _ Hnode) as (_ & -> & _). change (i_type (node mem inum)) with (di_type (on_disk mem inum)). cbn [resolve].
  destruct (Z.eqb_spec (di_type (on_disk mem inum)) T_DIR) as [Hd | Hd]; cbn [negb].
  2:{ eapply performs_seq; [apply (iunlockput_walk [] i inum s1); (done || cbn; lia) |]. intros [] s2 [Hw2 _]. by apply performs_done. }
  assert (bool_decide (path' = []) = bool_decide (rest = [])) as ->.
  { apply bool_decide_ext. split; [by intros ->; rewrite <- He' | done]. }
  destruct (parent && bool_decide (rest = [])) eqn:Hpar.
  { apply andb_true_iff in Hpar as [-> ->%bool_decide_eq_true].
    eapply performs_seq; [by apply (iunlock_walk [i] i inum s1) |]. intros [] s2 [Hw2 Hi2]. apply performs_done.
    exists i. do 2 (split; [done |]). split; [by apply (fetched_refers i inum s1) | intros _; by exists el]. }
  eapply performs_seq; [apply (dirlookup_walk i inum name' s1); auto |]. rewrite (dir_entry_short name' el _ Hsh). intros r s2 Hr.
  destruct (dir_entry el (content mem (node mem inum))) as [[k n] |] eqn:Hde.
  - destruct Hr as (j & off & -> & Hw2 & Hld2 & Hj).
    eapply performs_seq; [apply (iunlockput_walk [j] i inum s2); (done || cbn; lia) |]. intros [] s3 [Hw3 Hi3].
    eapply performs_mono; [apply (IH j n path' name' s3); try done; [by apply (refers_drop j i n [] s2); [.. | cbn; lia] | rewrite He'; by apply (Hnext eq_refl k) | lia] |].
    rewrite He'. intros r s4 Hr. by apply (arrives_cons parent el).
  - destruct Hr as (-> & Hw2 & Hld2).
    eapply performs_seq; [apply (iunlockput_walk [] i inum s2); (done || cbn; lia) |]. intros [] s3 [Hw3 _]. by apply performs_done.
Qed.

(** Where a path begins: at the root, or at the current directory. *)
Definition begins (path : list Z) (inum : Z) (s : kstate) : Prop :=
  if bool_decide (head path = Some 47) then inum = ROOTINO
  else exists pr c, k_procs s !! p = Some pr /\ p_cwd pr = Some c /\ refers c inum s.
Lemma namex_start path inum s : walking None [] s -> begins path inum s -> Exists unused (k_inodes s) ->
  performs (if bool_decide (head path = Some 47) then iget ROOTDEV ROOTINO
     else
       let! p := curproc in
       let! pr := get_proc p in
       match p_cwd pr with
       | None => fault
       | Some c => idup c
       end) [] (fun i s' => walking None [i] s' /\ refers i inum s') s.
Proof.
  intros Hw Hst Hex. unfold begins in Hst. destruct (bool_decide (head path = Some 47)).
  { rewrite Hst. apply (iget_walk None [] ROOTINO s); [done | cbn; lia | done]. }
  destruct Hst as (pr & c & Hpr & Hcwd & Href). pose proof Hw as [Hb Hsb Hlk Hh Ht].
  apply (performs_seq _ _ _ (fun r s' => r = p /\ s' = sync s)).
  { apply (performs_ret _ p s (sync s)); [| done | done]. intros e. by apply (bstate_proc p pid dev L P [] dirty mem s e). }
  intros ? ? [-> ->]. apply (performs_seq _ _ _ (fun r s' => r = pr /\ s' = sync s)).
  { apply (performs_ret _ pr (sync s) (sync s)); [| done | done]. intros e. by apply (get_nth_eq k_procs). }
  intros ? ? [-> ->]. rewrite Hcwd. eapply performs_mono; [apply (idup_walk None [] c inum (sync s)); [| cbn; lia | done] |].
  - split; [by apply bstate_sync | done ..].
  - intros i s' (-> & Hw' & Hr). done.
Qed.
End namei.

Section resolution.
Context {Im : Image} `{DiskLaws} (p : nat) (pid : Z) (sb : superblock).

(** C10: namex ends and follows the path, for namei (parent = 0) and nameiparent
    (parent = 1).  A path is any string of bytes, its elements are separated by slashes,
    and it begins at the root or at the current directory.  With no inode locked, a
    buffer free and two unused slots in the inode table, and directories on the way that
    are well formed, namex returns a reference to the inode the elements lead to, one
    after the other, in the directories on the disk; for the parent it stops one element
    before and leaves that element, cut at 14 bytes, in name.  It returns nothing if a
    name is not there, an inode on the way is not a directory, or the parent of a path
    without elements is asked for.  The inode returned has exactly one reference more,
    every other inode as many as before, no inode stays locked and no block changes. *)
Theorem namex_resolves L P dirty mem parent path name inum s :
  bstate p pid ROOTDEV L P [] dirty mem s -> (size P < NBUF)%nat -> bytes_ok mem -> k_sb s = sb ->
  locks pid None s -> table_ok sb mem (k_inodes s) -> few (k_inodes s) -> two_unused (k_inodes s) ->
  nonzero path -> bytes path -> bytes name -> length name = DIRSIZ ->
  begins p path inum s -> passable sb mem parent inum (elements path) ->
  performs (namex path parent name) [] (fun r s' =>
    bstate p pid ROOTDEV L P [] dirty mem s' /\ k_sb s' = sb /\ locks pid None s' /\ table_ok sb mem (k_inodes s') /\
    match resolve sb mem parent inum (elements path) with
    | None => fst r = None /\ held (k_inodes s) [] (k_inodes s')
    | Some n => exists i, fst r = Some i /\ held (k_inodes s) [i] (k_inodes s') /\ refers i n s' /\ names parent (elements path) (snd r)
    end) s.
Proof.
  intros Hb Hroom Hbytes Hsb Hlk Ht Hfew Htwo Hnz Hbp Hbn Hlen Hst Hpass. unfold namex.
  set (t0 := k_inodes s). assert (walking p pid sb L P dirty mem t0 None [] s) as Hw by (split; [done .. | apply held_nil | done]).
  eapply performs_mono.
  - eapply performs_seq; [apply (namex_start p pid sb L P dirty mem t0); try done; by apply two_unused_one |].
    intros i s1 [Hw1 Hr1]. apply (namex_loop_walk p pid sb L P dirty mem t0); try done. lia.
  - intros r s' Ha. unfold arrives in Ha. destruct (resolve sb mem parent inum (elements path)) as [n |].
    + destruct Ha as (i & Hr & [? ? ? ? ?] & Href). do 4 (split; [done |]). by exists i.
    + destruct Ha as (Hr & [? ? ? ? ?]). done.
Qed.
End resolution.

(** ** Example

    The root, in slot 0 of the table, has a directory home (inode 2, not in the table),
    and this has a file notes (inode 3). *)
Definition sample_tree_dir (inum blk : Z) : inode := mkinode 1 inum 1 1 T_DIR 0 0 1 48 (blk :: replicate 12 0).
Definition sample_tree_block (inum parent : Z) (name : list Z) (n : Z) : list Z :=
  sample_entry inum (str ".") ++ sample_entry parent (str "..") ++ sample_entry n name ++ replicate 976 0.
Definition sample_tree_disk : gmap Z (list Z) :=
  <[33 := write_dinode (write_dinode (write_dinode (replicate 1024 0) (dinode_off 3) (dinode_of sample_fs_inode))
             (dinode_off 1) (dinode_of (sample_tree_dir 1 47))) (dinode_off 2) (dinode_of (sample_tree_dir 2 48))]>
  (<[47 := sample_tree_block 1 1 (str "home") 2]> (<[48 := sample_tree_block 2 1 (str "notes") 3]> ∅)).
Definition sample_tree : kstate :=
  sample_fs <| k_disk := sample_tree_disk |> <| k_inodes ::= <[0%nat := sample_tree_dir 1 47]> |>.

Lemma sample_tree_blocks : blocks_ok sample_tree_disk /\ bytes_ok (disk_view sample_tree_disk).
Proof.
  split.
  - intros n. apply (disk_view_all (fun b => length b = 1024%nat)); [by vm_compute |]. apply (bool_decide_unpack _). by vm_compute.
  - intros n. apply (disk_view_all (fun b => Forall (fun x => 0 <= x < 256) b)); [by apply Forall_replicate |].
    apply (bool_decide_unpack _). by vm_compute.
Qed.
Lemma sample_tree_booted : booted 3 7 1 sample_tree.
Proof. destruct (sample_cold ∅) as (_ & Hrest). split; [exact sample_fs_machine | exact Hrest]. Qed.
Lemma sample_tree_locks : locks 7 None sample_tree.
Proof.
  intros j Hj. assert (Forall (fun j => lock_free_b sample_tree (LkSleep (SlInode j)) && negb (slock_held sample_tree (SlInode j)) = true) (seq 0 NINODE)) as Hall
    by (apply (bool_decide_unpack _); by vm_compute).
  rewrite Forall_forall in Hall. destruct (andb_prop _ _ (Hall j ltac:(apply elem_of_seq; lia))) as [Hf Hs%negb_true_iff].
  split; [by apply lock_free_dec |]. split; [by rewrite Hs, bool_decide_false | done].
Qed.
Lemma sample_tree_table : table_ok (k_sb sample) (disk_view sample_tree_disk) (k_inodes sample_tree).
Proof.
  split; [by vm_compute |]. change (k_inodes sample_tree) with (sample_tree_dir 1 47 :: replicate 49 zero_inode).
  constructor; [intros _ _ _; by vm_compute |]. apply Forall_replicate. cbn. lia.
Qed.
Lemma sample_tree_dir_ok inum blk : inum = 1 /\ blk = 47 \/ inum = 2 /\ blk = 48 ->
  dir_ok 1 (disk_view sample_tree_disk) (inode_on 1 (k_sb sample) (disk_view sample_tree_disk) inum).
Proof.
  intros Hc. apply (dir_ok_same 1 _ (sample_tree_dir inum blk)); [destruct Hc as [[-> ->] | [-> ->]]; by vm_compute .. |].
  split; [| done]. split; [done |]. split; [by vm_compute |]. intros bn H0 Hs. change (i_size (sample_tree_dir inum blk)) with 48 in Hs. unfold BSIZE in Hs.
  assert (bn = 0) as -> by lia. split; [done |]. destruct Hc as [[-> ->] | [-> ->]]; by vm_compute.
Qed.
Lemma sample_tree_passable : passable (k_sb sample) (disk_view sample_tree_disk) false 1 (elements (str "/home//notes")).
Proof.
  change (elements (str "/home//notes")) with [str "home"; str "notes"]. cbn [passable].
  split; [by vm_compute |]. split; [by vm_compute |]. split; [intros _; by apply (sample_tree_dir_ok 1 47); left |].
  intros _ k n Hn. vm_compute in Hn. injection Hn as <- <-.
  split; [by vm_compute |]. split; [by vm_compute |]. split; [intros _; by apply (sample_tree_dir_ok 2 48); right |]. done.
Qed.

(** The walk reads inode 2 from the disk, in slot 1, and returns inode 3 in slot 2. *)
Lemma namex_resolves_witness :
  let s := sample_tree in let sb := k_sb sample in let mem := disk_view sample_tree_disk in let path := str "/home//notes" in
  resolve sb mem false 1 (elements path) = Some 3 /\
  performs (@namex _ plain_disk path false (replicate DIRSIZ 0)) [] (fun r s' =>
    bstate 3 7 ROOTDEV (k_log s) ∅ [] ∅ mem s' /\ k_sb s' = sb /\ locks 7 None s' /\ table_ok sb mem (k_inodes s') /\
    match resolve sb mem false 1 (elements path) with
    | None => fst r = None /\ held (k_inodes s) [] (k_inodes s')
    | Some n => exists i, fst r = Some i /\ held (k_inodes s) [i] (k_inodes s') /\ refers i n s' /\ names false (elements path) (snd r)
    end) s.
Proof.
  intros s sb mem path. split; [by vm_compute |].
  apply (@namex_resolves _ plain_disk plain_disk_laws 3 7 sb (k_log s) ∅ ∅ mem false path (replicate DIRSIZ 0) 1 s).
  - exact (booted_bstate 3 7 1 sample_tree sample_tree_booted (proj1 sample_tree_blocks)).
  - rewrite size_empty. unfold NBUF, MAXOPBLOCKS. lia.
  - exact (proj2 sample_tree_blocks).
  - done.
  - exact sample_tree_locks.
  - exact sample_tree_table.
  - apply (bool_decide_unpack _). by vm_compute.
  - by exists 1%nat, 2%nat, zero_inode, zero_inode.
  - apply (bool_decide_unpack _). by vm_compute.
  - by apply sample_name_ok.
  - by apply Forall_replicate.
  - done.
  - done.
  - exact sample_tree_passable.
Defined.
