(* ===== verification/Proc.v ===== *)
(** * Process lifecycle ([kernel/proc.c])

    Creation ([allocproc], [kfork], [userinit]), exit ([kexit], [reparent]),
    reaping ([kwait], [freeproc]) and the size of user memory ([growproc]).  A
    trapframe is the first 36 words of its page. *)
From S2P Require Import Prelude Kstate Bytes CString Spinlock Mem Sample Sched Sleeplock Virtio Bio Printf Log Kalloc Vm Fs Pipe Console File.
Local Open Scope Z_scope.

(** ** Trapframe fields ([struct trapframe], [kernel/proc.h]): byte offsets *)
Definition TF_kernel_satp : Z := 0.
Definition TF_kernel_sp : Z := 8.
Definition TF_kernel_trap : Z := 16.
Definition TF_epc : Z := 24.
Definition TF_kernel_hartid : Z := 32.
Definition TF_sp : Z := 48.
Definition TF_a (n : Z) : Z := 112 + 8 * n.
Definition TF_WORDS : nat := 36.

Section proc.
Context `{Image} `{DiskDriver}.

(** ** Page tables of processes *)
Definition proc_pagetable (p : nat) : K Z :=
  let! pagetable := uvmcreate in
  if pagetable =? 0 then ret 0 else
  let! r := mappages pagetable TRAMPOLINE PGSIZE trampoline (Z.lor PTE_R PTE_X) in
  if r <? 0 then uvmfree pagetable 0 ;;; ret 0 else
  let! pr := get_proc p in
  let! r := mappages pagetable TRAPFRAME PGSIZE (p_trapframe pr) (Z.lor PTE_R PTE_W) in
  if r <? 0 then
    uvmunmap pagetable TRAMPOLINE 1 false ;;;
    uvmfree pagetable 0 ;;;
    ret 0
  else ret pagetable.

Definition proc_freepagetable (pagetable sz : Z) : K unit :=
  uvmunmap pagetable TRAMPOLINE 1 false ;;;
  uvmunmap pagetable TRAPFRAME 1 false ;;;
  uvmfree pagetable sz.

(** ** Allocation *)
Definition procinit : K unit :=
  initlock LkSem "semaphore" ;;;
  put (fun s => s <| k_sem := 1 |>) ;;;
  initlock LkPid "nextpid" ;;;
  initlock LkWait "wait_lock" ;;;
  foreach all_procs (fun p =>
    initlock (LkProc p) "proc" ;;;
    upd_proc p (fun pr => pr <| p_state := UNUSED |>) ;;;
    upd_proc p (fun pr => pr <| p_kstack := KSTACK (Z.of_nat p) |>)).

Definition allocpid : K Z :=
  acquire LkPid ;;;
  let! pid := get k_nextpid in
  put (fun s => s <| k_nextpid := s32 (k_nextpid s + 1) |>) ;;;
  release LkPid ;;;
  ret pid.

Definition freeproc (p : nat) : K unit :=
  let! pr := get_proc p in
  (if istrue (p_trapframe pr) then kfree (p_trapframe pr) else ret tt) ;;;
  upd_proc p (fun pr => pr <| p_trapframe := 0 |>) ;;;
  let! pr := get_proc p in
  (if istrue (p_pagetable pr) then proc_freepagetable (p_pagetable pr) (p_sz pr) else ret tt) ;;;
  upd_proc p (fun pr => pr
    <| p_pagetable := 0 |> <| p_sz := 0 |> <| p_pid := 0 |> <| p_parent := None |>
    <| p_name ::= <[0%nat := 0]> |> <| p_chan := None |> <| p_killed := 0 |>
    <| p_xstate := 0 |> <| p_state := UNUSED |>).

(** The part of [allocproc] after [found:]. *)
Definition allocproc_found (p : nat) : K (option nat) :=
  let! pid := allocpid in
  upd_proc p (fun pr => pr <| p_pid := pid |>) ;;;
  upd_proc p (fun pr => pr <| p_state := USED |>) ;;;
  let! tf := kalloc in
  upd_proc p (fun pr => pr <| p_trapframe := tf |>) ;;;
  if tf =? 0 then freeproc p ;;; release (LkProc p) ;;; ret None else
  let! pt := proc_pagetable p in
  upd_proc p (fun pr => pr <| p_pagetable := pt |>) ;;;
  if pt =? 0 then freeproc p ;;; release (LkProc p) ;;; ret None else
  upd_proc p (fun pr => pr
    <| p_context := mkcontext forkret_addr (p_kstack pr + PGSIZE) (replicate 12 0) |>) ;;;
  ret (Some p).

(** Returns with the lock of the new process held. *)
Definition allocproc : K (option nat) :=
  let! o := search all_procs (fun p =>
    acquire (LkProc p) ;;;
    let! pr := get_proc p in
    if bool_decide (p_state pr = UNUSED) then ret (Some p)
    else release (LkProc p) ;;; ret None) in
  match o with
  | None => ret None
  | Some p => allocproc_found p
  end.

Definition userinit : K unit :=
  let! o := allocproc in
  put (fun s => s <| k_initproc := o |>) ;;;
  match o with
  | None => fault
  | Some p =>
      let! cwd := namei (str "/") in
      upd_proc p (fun pr => pr <| p_cwd := cwd |>) ;;;
      upd_proc p (fun pr => pr <| p_state := RUNNABLE |>) ;;;
      release (LkProc p)
  end.

(** [sz + n] is on [uint64], with the [int] [n] sign-extended. *)
Definition growproc (n : Z) : K Z :=
  let! p := curproc in
  let! pr := get_proc p in
  let sz := p_sz pr in
  if 0 <? n then
    if TRAPFRAME <? u64 (sz + n) then ret (-1) else
    let! sz' := uvmalloc (p_pagetable pr) sz (u64 (sz + n)) PTE_W in
    if sz' =? 0 then ret (-1) else
    upd_proc p (fun pr => pr <| p_sz := sz' |>) ;;; ret 0
  else if n <? 0 then
    let! sz' := uvmdealloc (p_pagetable pr) sz (u64 (sz + n)) in
    upd_proc p (fun pr => pr <| p_sz := sz' |>) ;;; ret 0
  else
    upd_proc p (fun pr => pr <| p_sz := sz |>) ;;; ret 0.

(** ** Fork *)

(** A structure assignment of [n] words. *)
Definition copy_words (dst src : Z) (n : nat) : K unit :=
  foreach (seq 0 n) (fun i =>
    let! v := read_word (src + 8 * Z.of_nat i) in
    write_word (dst + 8 * Z.of_nat i) v).

Definition fork_msg : list Z :=
  [10] ++ str "[Kernel] Process Created: Parent PID %d -> Child PID %d" ++ [10].

Definition fork_files (p np : nat) : K unit :=
  foreach (seq 0 NOFILE) (fun i =>
    let! pr := get_proc p in
    match default None (p_ofile pr !! i) with
    | Some f =>
        let! f' := filedup f in
        upd_proc np (fun x => x <| p_ofile ::= <[i := Some f']> |>)
    | None => ret tt
    end).

Definition kfork : K Z :=
  let! p := curproc in
  let! o := allocproc in
  match o with
  | None => ret (-1)
  | Some np =>
      let! pr := get_proc p in
      let! npr := get_proc np in
      let! r := uvmcopy (p_pagetable pr) (p_pagetable npr) (p_sz pr) in
      if r <? 0 then
        freeproc np ;;;
        release (LkProc np) ;;;
        ret (-1)
      else
        upd_proc np (fun x => x <| p_sz := p_sz pr |>) ;;;
        copy_words (p_trapframe npr) (p_trapframe pr) TF_WORDS ;;;
        write_word (p_trapframe npr + TF_a 0) 0 ;;;
        fork_files p np ;;;
        let! pr := get_proc p in
        let! cwd := inode_ptr (p_cwd pr) in
        let! cwd := idup cwd in
        upd_proc np (fun x => x <| p_cwd := Some cwd |>) ;;;
        let! npr := get_proc np in
        match safestrcpy (p_name npr) (p_name pr) 16 with
        | None => fault
        | Some nm =>
            upd_proc np (fun x => x <| p_name := nm |>) ;;;
            release (LkProc np) ;;;
            acquire LkWait ;;;
            upd_proc np (fun x => x <| p_parent := Some p |>) ;;;
            release LkWait ;;;
            acquire (LkProc np) ;;;
            upd_proc np (fun x => x <| p_state := RUNNABLE |>) ;;;
            let! npr := get_proc np in
            let pid := p_pid npr in
            let! pr := get_proc p in
            printf fork_msg [PInt (p_pid pr); PInt pid] ;;;
            release (LkProc np) ;;;
            ret pid
        end
  end.

(** ** Exit *)

(** [wakeup(0)]: no sleeping process has a null channel, but the loop runs. *)
Definition wakeup_null : K unit :=
  foreach all_procs (fun p =>
    let! me := myproc in
    if bool_decide (me = Some p) then ret tt else
    acquire (LkProc p) ;;;
    let! pr := get_proc p in
    (if bool_decide (p_state pr = SLEEPING) && bool_decide (p_chan pr = None)
     then upd_proc p (fun pr => pr <| p_state := RUNNABLE |>)
     else ret tt) ;;;
    release (LkProc p)).
Definition wakeup_proc (o : option nat) : K unit :=
  match o with
  | Some i => wakeup (ChProc i)
  | None => wakeup_null
  end.

Definition reparent (p : nat) : K unit :=
  foreach all_procs (fun pp =>
    let! pr := get_proc pp in
    if bool_decide (p_parent pr = Some p) then
      let! ip := get k_initproc in
      upd_proc pp (fun pr => pr <| p_parent := ip |>) ;;;
      wakeup_proc ip
    else ret tt).

Definition close_files (p : nat) : K unit :=
  foreach (seq 0 NOFILE) (fun fd =>
    let! pr := get_proc p in
    match default None (p_ofile pr !! fd) with
    | Some f =>
        fileclose f ;;;
        upd_proc p (fun pr => pr <| p_ofile ::= <[fd := None]> |>)
    | None => ret tt
    end).

Definition kexit (status : Z) : K unit :=
  let! p := curproc in
  let! ip := get k_initproc in
  if bool_decide (ip = Some p) then panic "init exiting" else
  close_files p ;;;
  begin_op ;;;
  let! pr := get_proc p in
  iput_ptr (p_cwd pr) ;;;
  end_op ;;;
  upd_proc p (fun pr => pr <| p_cwd := None |>) ;;;
  acquire LkWait ;;;
  reparent p ;;;
  let! pr := get_proc p in
  wakeup_proc (p_parent pr) ;;;
  acquire (LkProc p) ;;;
  upd_proc p (fun pr => pr <| p_xstate := status |>) ;;;
  upd_proc p (fun pr => pr <| p_state := ZOMBIE |>) ;;;
  release LkWait ;;;
  sched ;;;
  panic "zombie exit".

(** ** Wait *)

(** One scan of the table: the result of the call, or whether [p] has children. *)
Fixpoint kwait_scan (l : list nat) (p : nat) (addr : Z) (havekids : bool) : K (bool + Z) :=
  match l with
  | [] => ret (inl havekids)
  | pp :: r =>
      let! ppr := get_proc pp in
      if bool_decide (p_parent ppr = Some p) then
        acquire (LkProc pp) ;;;
        let! ppr := get_proc pp in
        if bool_decide (p_state ppr = ZOMBIE) then
          let pid := p_pid ppr in
          let! bad :=
            (if istrue addr then
               let! pr := get_proc p in
               let! c := copyout (p_pagetable pr) addr (le_put 4 (p_xstate ppr)) in
               ret (c <? 0)
             else ret false) in
          if (bad : bool) then
            release (LkProc pp) ;;; release LkWait ;;; ret (inr (-1))
          else
            freeproc pp ;;; release (LkProc pp) ;;; release LkWait ;;; ret (inr pid)
        else
          release (LkProc pp) ;;;
          kwait_scan r p addr true
      else kwait_scan r p addr havekids
  end.

(** [for(;;)]: every iteration that does not return sleeps. *)
Fixpoint kwait_loop (fuel : nat) (p : nat) (addr : Z) : K Z :=
  match fuel with
  | O => hang
  | S n =>
      let! r := kwait_scan all_procs p addr false in
      match r with
      | inr v => ret v
      | inl havekids =>
          let! stop := (if negb havekids then ret 1 else killed p) in
          if istrue stop then release LkWait ;;; ret (-1)
          else sleep (ChProc p) LkWait ;;; kwait_loop n p addr
      end
  end.

Definition kwait (addr : Z) : K Z :=
  let! p := curproc in
  acquire LkWait ;;;
  (fun w => kwait_loop (S (length (w_env w))) p addr w).
End proc.

(** ** Waiting with no children *)

(** No slot has [p] as its parent. *)
Definition childless (s : kstate) (p : nat) : Prop :=
  Forall (fun q => p_parent q <> Some p) (k_procs s).

Lemma kwait_scan_none `{Image} s e p addr l b :
  (forall i, i ∈ l -> is_Some (k_procs s !! i)) -> childless s p ->
  kwait_scan l p addr b (mkworld s e) = Ret (inl b) (mkworld s e).
Proof.
  intros Hl Hc. induction l as [| i l IH]; [done |]. cbn [kwait_scan].
  destruct (Hl i) as [q Hq]; [by left |]. kcall (get_proc_eq s e i q).
  rewrite bool_decide_false by (by apply (Forall_lookup_1 _ _ _ _ Hc Hq)).
  apply IH. intros j Hj. apply Hl. by right.
Qed.

(** [kwait] in a process without children returns -1 at once: it does not sleep,
    whatever the rest of the system does, and leaves locks, processes and memory as
    they were. *)
Theorem kwait_childless `{Image} s e c p addr :
  running s p c -> c_noff c < 2 ^ 31 - 2 -> length (k_procs s) = NPROC -> lock_free s LkWait -> childless s p ->
  kwait addr (mkworld s e) = Ret (-1) (mkworld (sync s) e).
Proof.
  intros (Hc & Hp & _) Hn Hlen Hl Hch. unfold kwait. kcall (curproc_eq s e c p).
  kcall (acquire_eq (sync s) e (sync_cpu c) LkWait).
  cbn [w_env kwait_loop]. kcall (kwait_scan_none (lock_taken LkWait (sync s)) e p addr all_procs false).
  { intros i Hi%elem_of_seq. apply lookup_lt_is_Some_2. cbn. lia. }
  cbn [negb]. krun. cbn [istrue Z.eqb negb].
  kcall (release_section (sync s) _ e (sync_cpu c) LkWait).
  by rewrite sync_idem.
Qed.

(** ** Examples *)
Lemma kwait_childless_witness :
  kwait 0 (mkworld sample []) = Ret (-1) (mkworld (sync sample) []).
Proof.
  apply (kwait_childless sample [] sample_cpu 3).
  - exact sample_running.
  - by vm_compute.
  - reflexivity.
  - apply lock_free_dec. by vm_compute.
  - apply Forall_forall. intros q Hq. apply list_elem_of_lookup in Hq as [i Hi].
    do 64 (destruct i as [| i]; [by injection Hi as <- |]). done.
Defined.

(** A slot freed with a signal pending, a handler installed and a message waiting
    passes all three on to the next process that gets it. *)
Definition stale_slot : proc :=
  zero_proc <| p_state := ZOMBIE |> <| p_pid := 9 |> <| p_pending_signals := 32 |>
            <| p_signal_handlers := <[5%nat := 0x400]> (replicate 32 0) |> <| p_has_message := 1 |>.
Example freeproc_keeps_signals :
  match (freeproc 0 ;;; allocproc) (mkworld (sample <| k_procs ::= <[0%nat := stale_slot]> |>) []) with
  | Ret (Some 0%nat) w => exists q, k_procs (w_k w) !! 0%nat = Some q /\ p_pid q = 10 /\
      p_pending_signals q = 32 /\ p_signal_handlers q !! 5%nat = Some 0x400 /\ p_has_message q = 1
  | _ => False
  end.
Proof. vm_compute. eexists. split; [reflexivity |]. by repeat split. Qed.
