(* ===== verification/Syscall.v ===== *)
(** * System-call arguments ([kernel/syscall.c])

    Arguments are read from the saved user registers in the trapframe and, for
    pointers, from user memory. *)
From S2P Require Import Prelude Kstate Bytes CString Spinlock Sched Sleeplock Virtio Bio Printf Log Mem Kalloc Vm Fs Pipe Console File Proc.
Local Open Scope Z_scope.

Section syscall_args.
Context `{Image}.

(** ** The code *)

(** The status, and the word fetched when it is 0. *)
Definition fetchaddr (addr : Z) : K (Z * Z) :=
  let! p := curproc in
  let! pr := get_proc p in
  if (p_sz pr <=? addr) || (p_sz pr <? u64 (addr + 8)) then ret (-1, 0) else
  let! r := copyin (p_pagetable pr) addr 8 in
  if negb (fst r =? 0) then ret (-1, 0) else ret (0, get64 (snd r) 0).

(** The status or length, and the bytes written to [buf]. *)
Definition fetchstr (addr max : Z) : K (Z * list Z) :=
  let! p := curproc in
  let! pr := get_proc p in
  let! r := copyinstr (p_pagetable pr) addr max in
  if fst r <? 0 then ret (-1, snd r) else
  match strlen (snd r) with
  | Some n => ret (Z.of_nat n, snd r)
  | None => fault
  end.

Definition argraw (n : Z) : K Z :=
  let! p := curproc in
  let! pr := get_proc p in
  if (0 <=? n) && (n <=? 5) then read_word (p_trapframe pr + TF_a n) else panic "argraw".

Definition argint (n : Z) : K Z := let! v := argraw n in ret (s32 v).
Definition argaddr (n : Z) : K Z := argraw n.
Definition argstr (n max : Z) : K (Z * list Z) :=
  let! addr := argaddr n in
  fetchstr addr max.

(** ** What the argument functions return *)

(** Process [p], in slot [pr], is in a system call with argument register [n]
    holding [v]. *)
Definition arg_is (s : kstate) (pr : proc) (n v : Z) : Prop :=
  0 <= n <= 5 /\ mem_word (k_mem s) (p_trapframe pr + TF_a n) = Some v.

Lemma argraw_eq s e c p pr n v :
  running s p c -> k_procs s !! p = Some pr -> arg_is s pr n v ->
  argraw n (mkworld s e) = Ret v (mkworld (sync s) e).
Proof.
  intros (Hc & Hp & _) Hpr [Hn Hv]. unfold argraw. kcall (curproc_eq s e c p).
  kcall (get_proc_eq (sync s) e p pr).
  rewrite (proj2 (Z.leb_le 0 n)), (proj2 (Z.leb_le n 5)) by lia. cbn [andb].
  exact (read_word_eq (sync s) e _ v Hv).
Qed.

Lemma argint_eq s e c p pr n v :
  running s p c -> k_procs s !! p = Some pr -> arg_is s pr n v ->
  argint n (mkworld s e) = Ret (s32 v) (mkworld (sync s) e).
Proof. intros. unfold argint. kcall (argraw_eq s e c p pr n v). done. Qed.
End syscall_args.
