(* ===== verification/Sysproc.v ===== *)
(** * Process-related system calls ([kernel/sysproc.c])

    Each handler returns the value [syscall] stores in the caller's [a0]: a C
    [int] result is sign-extended to 64 bits. *)
From S2P Require Import Prelude Kstate Bytes CString Spinlock Sample Sched Sleeplock Virtio Bio Printf Log Mem Kalloc Vm Fs Pipe Console File Proc Syscall.
Local Open Scope Z_scope.

Section sysproc.
Context `{Image} `{DiskDriver}.

(** ** Processes *)
Definition sys_exit : K Z :=
  let! n := argint 0 in
  kexit n ;;;
  ret 0.

Definition sys_getpid : K Z :=
  let! p := curproc in
  let! pr := get_proc p in
  ret (u64 (p_pid pr)).

Definition sys_fork : K Z := let! r := kfork in ret (u64 r).

Definition sys_wait : K Z :=
  let! p := argaddr 0 in
  let! r := kwait p in
  ret (u64 r).

Definition SBRK_EAGER : Z := 1.

Definition sys_sbrk : K Z :=
  let! n := argint 0 in
  let! t := argint 1 in
  let! p := curproc in
  let! pr := get_proc p in
  let addr := p_sz pr in
  if (t =? SBRK_EAGER) || (n <? 0) then
    let! r := growproc n in
    if r <? 0 then ret (u64 (-1)) else ret addr
  else
    if u64 (addr + n) <? addr then ret (u64 (-1)) else
    if TRAPFRAME <? u64 (addr + n) then ret (u64 (-1)) else
    let! p := curproc in
    upd_proc p (fun pr => pr <| p_sz := u64 (p_sz pr + n) |>) ;;;
    ret addr.

(** [while(ticks - ticks0 < n)] with the comparison on 32-bit unsigned values. *)
Fixpoint pause_loop (fuel : nat) (ticks0 n : Z) : K Z :=
  match fuel with
  | O => hang
  | S k =>
      let! t := get k_ticks in
      if u32 (t - ticks0) <? u32 n then
        let! p := curproc in
        let! kl := killed p in
        if istrue kl then release LkTicks ;;; ret (u64 (-1))
        else sleep ChTicks LkTicks ;;; pause_loop k ticks0 n
      else release LkTicks ;;; ret 0
  end.
Definition sys_pause : K Z :=
  let! n := argint 0 in
  let n := if n <? 0 then 0 else n in
  acquire LkTicks ;;;
  let! ticks0 := get k_ticks in
  (fun w => pause_loop (S (length (w_env w))) ticks0 n w).

Definition sys_kill : K Z :=
  let! pid := argint 0 in
  let! signum := argint 1 in
  if (signum <? 0) || (32 <=? signum) then ret (u64 (-1)) else
  let! r := kkill pid signum in
  ret (u64 r).

Definition sys_uptime : K Z :=
  acquire LkTicks ;;;
  let! xticks := get k_ticks in
  release LkTicks ;;;
  ret xticks.

Definition sys_getyear : K Z := ret 2026.

(** ** Signals *)
Definition sys_signal : K Z :=
  let! signum := argint 0 in
  let! handler := argaddr 1 in
  if (signum <? 0) || (32 <=? signum) then ret (u64 (-1)) else
  let! p := curproc in
  upd_proc p (fun pr => pr <| p_signal_handlers ::= <[Z.to_nat signum := handler]> |>) ;;;
  ret 0.

(** [*p->trapframe = p->signal_trapframe], word by word. *)
Definition restore_words (dst : Z) (l : list Z) : K unit :=
  foreach (seq 0 TF_WORDS) (fun i => write_word (dst + 8 * Z.of_nat i) (default 0 (l !! i))).
Definition sys_sigreturn : K Z :=
  let! p := curproc in
  let! pr := get_proc p in
  restore_words (p_trapframe pr) (p_signal_trapframe pr) ;;;
  upd_proc p (fun pr => pr <| p_in_signal_handler := 0 |>) ;;;
  ret 0.

(** [while(ticks - ticks0 < n)] with [ticks0] a [uint64]: the difference and the
    sign-extended [n] are compared as 64-bit unsigned values. *)
Fixpoint sleep_loop (fuel : nat) (ticks0 n : Z) : K Z :=
  match fuel with
  | O => hang
  | S k =>
      let! t := get k_ticks in
      if u64 (t - ticks0) <? u64 n then
        let! p := curproc in
        let! kl := killed p in
        if istrue kl then release LkTicks ;;; ret (u64 (-1))
        else sleep ChTicks LkTicks ;;; sleep_loop k ticks0 n
      else release LkTicks ;;; ret 0
  end.
Definition sys_sleep : K Z :=
  let! n := argint 0 in
  acquire LkTicks ;;;
  let! ticks0 := get k_ticks in
  (fun w => sleep_loop (S (length (w_env w))) ticks0 n w).

(** ** Messages *)

(** [msg] is uninitialised where the copy of the argument stopped. *)
Definition sys_send : K Z :=
  let! pid := argint 0 in
  let! r := argstr 1 64 in
  let! junk := get k_junk in
  let msg := patch junk 0 (snd r) in
  let! o := search all_procs (fun p =>
    let! pr := get_proc p in
    if p_pid pr =? pid then
      match safestrcpy (p_message pr) msg 64 with
      | None => fault
      | Some m =>
          upd_proc p (fun pr => pr <| p_message := m |>) ;;;
          upd_proc p (fun pr => pr <| p_has_message := 1 |>) ;;;
          ret (Some 0)
      end
    else ret None) in
  ret (default (u64 (-1)) o).

Fixpoint recv_loop (l : list nat) (found : bool) : K bool :=
  match l with
  | [] => ret found
  | p :: r =>
      let! pr := get_proc p in
      if istrue (p_has_message pr) then
        printf (str "Received from PID %d: %s" ++ [10])
          [PInt (p_pid pr); PStr (Some (name_str (p_message pr)))] ;;;
        upd_proc p (fun pr => pr <| p_has_message := 0 |>) ;;;
        recv_loop r true
      else recv_loop r found
  end.
Definition sys_recv : K Z :=
  let! found := recv_loop all_procs false in
  if negb found then
    printf (str "No message" ++ [10]) [] ;;;
    ret (u64 (-1))
  else ret 0.

(** ** The semaphore *)
Definition sys_sem_init : K Z :=
  let! val := argint 0 in
  acquire LkSem ;;;
  put (fun s => s <| k_sem := val |>) ;;;
  release LkSem ;;;
  ret 0.

Fixpoint sem_wait_loop (fuel : nat) : K unit :=
  match fuel with
  | O => hang
  | S n =>
      let! v := get k_sem in
      if v <=? 0 then sleep ChSem LkSem ;;; sem_wait_loop n else ret tt
  end.
Definition sys_sem_wait : K Z :=
  acquire LkSem ;;;
  (fun w => sem_wait_loop (S (length (w_env w))) w) ;;;
  put (fun s => s <| k_sem := s32 (k_sem s - 1) |>) ;;;
  release LkSem ;;;
  ret 0.

Definition sys_sem_post : K Z :=
  acquire LkSem ;;;
  put (fun s => s <| k_sem := s32 (k_sem s + 1) |>) ;;;
  wakeup ChSem ;;;
  release LkSem ;;;
  ret 0.

(** ** User locks *)
Definition sys_lock_create : K Z :=
  let! o := search (seq 0 MAX_LOCKS) (fun i =>
    let! u := get_nth k_lock_used i in
    if u =? 0 then
      initlock (LkUser i) "ulock" ;;;
      put (fun s => s <| k_lock_used ::= <[i := 1]> |>) ;;;
      ret (Some (Z.of_nat i))
    else ret None) in
  ret (default (u64 (-1)) o).

(** The test shared by the two handlers below. *)
Definition bad_lock (id : Z) : K bool :=
  if (id <? 0) || (Z.of_nat MAX_LOCKS <=? id) then ret true else
  let! u := get_nth k_lock_used (Z.to_nat id) in
  ret (u =? 0).

Definition sys_lock_acquire : K Z :=
  let! id := argint 0 in
  let! bad := bad_lock id in
  if bad then ret (u64 (-1)) else
  acquire (LkUser (Z.to_nat id)) ;;;
  ret 0.

Definition sys_lock_release : K Z :=
  let! id := argint 0 in
  let! bad := bad_lock id in
  if bad then ret (u64 (-1)) else
  release (LkUser (Z.to_nat id)) ;;;
  ret 0.

(** ** User locks leave the kernel holding a spin lock *)
Lemma bad_lock_ok s e i :
  (i < MAX_LOCKS)%nat -> k_lock_used s !! i = Some 1 ->
  bad_lock (Z.of_nat i) (mkworld s e) = Ret false (mkworld s e).
Proof.
  intros Hi Hu. unfold bad_lock. rewrite (proj2 (Z.ltb_ge _ _)), (proj2 (Z.leb_gt _ _)) by lia.
  cbn [orb]. rewrite Nat2Z.id. kcall (get_nth_eq k_lock_used i s e 1). done.
Qed.

Lemma lock_acquire_eq s e c p pr v i :
  running s p c -> k_procs s !! p = Some pr -> arg_is s pr 0 v -> s32 v = Z.of_nat i ->
  (i < MAX_LOCKS)%nat -> k_lock_used s !! i = Some 1 -> lock_free s (LkUser i) ->
  sys_lock_acquire (mkworld s e) = Ret 0 (mkworld (lock_taken (LkUser i) (sync s)) e).
Proof.
  intros Hr Hpr Ha Hv Hi Hu Hl. unfold sys_lock_acquire.
  kcall (argint_eq s e c p pr 0 v). rewrite Hv.
  kcall (bad_lock_ok (sync s) e i). rewrite Nat2Z.id.
  destruct Hr as (Hc & _).
  kcall (acquire_eq (sync s) e (sync_cpu c) (LkUser i)).
  done.
Qed.

(** ** The semaphore *)
Lemma sem_post_eq s e c :
  cpu_ok s c -> c_noff c < 2 ^ 31 - 2 -> procs_free s (c_proc c) -> lock_free s LkSem ->
  - 2 ^ 31 <= k_sem s < 2 ^ 31 - 1 ->
  sys_sem_post (mkworld s e) =
    Ret 0 (mkworld ((sync s) <| k_sem := k_sem s + 1 |> <| k_procs ::= wake_all ChSem (c_proc c) |>) e).
Proof.
  intros Hc Hn Hf Hl Hv. unfold sys_sem_post. pose proof Hc as (Hcl & ? & _).
  kcall (acquire_eq s e c LkSem). krun.
  rewrite <- bind_assoc. kcall (wakeup_release s _ e c ChSem LkSem). krun. apply ret_world.
  rewrite s32_small by (cbn; lia). done.
Qed.
Lemma sem_wait_loop_until n w : sem_wait_loop n w = wait_until n (fun s => 0 <? k_sem s) ChSem LkSem w.
Proof.
  revert w. induction n as [| n IH]; intros [s e]; [done |]. cbn [sem_wait_loop wait_until]. krun.
  rewrite Z.leb_antisym. destruct (0 <? k_sem s); [done |]. cbn [negb]. by apply bind_cong.
Qed.
(** Rounds of the loop of [sys_sleep] whose condition is false. *)
Definition keeps_waiting (p : nat) (t0 n : Z) (s : kstate) : Prop :=
  u64 (k_ticks s - t0) < u64 n /\ exists pr, k_procs s !! p = Some pr /\ p_killed pr = 0.

Lemma sleep_loop_stuck e s p n t0 v :
  in_section s p LkTicks -> Forall (resumes p LkTicks) e -> keeps_waiting p t0 v s ->
  Forall (fun f => forall s', keeps_waiting p t0 v (f s')) e ->
  exists w, sleep_loop n t0 v (mkworld s e) = Hang w.
Proof.
  revert s n. induction e as [| f e IH]; intros s n Hin Hall (Hlt & pr & Hpr & Hk) Hkw;
    (destruct n as [| n]; [by eexists |]); cbn [sleep_loop]; krun;
    rewrite (proj2 (Z.ltb_lt _ _) Hlt), (bind_ret _ _ _ _ _ (curproc_section s p LkTicks _ Hin)),
      (bind_ret _ _ _ _ _ (killed_section s p LkTicks _ pr Hin Hpr)), Hk; cbn [istrue Z.eqb negb].
  - destruct (sleep_stuck s p ChTicks LkTicks Hin) as [w Hw]. exists w. unfold bind. by rewrite Hw.
  - apply Forall_cons in Hall as [Hf Hall]. apply Forall_cons in Hkw as [Hkf Hkw].
    destruct (sleep_round s p f e ChTicks LkTicks) as (s1 & i & Heq & Hin'); [done | done | done |].
    rewrite (bind_ret _ _ _ _ _ Heq). apply IH; try done.
    destruct (Hkf s1) as (Hlt' & pr' & Hpr' & Hk'). split; [exact Hlt' |].
    exists (pr' <| p_chan := None |>). split; [| done]. cbn. by rewrite list_lookup_alter_eq, Hpr'.
Qed.

Lemma sleep_negative_cond t t0 v :
  0 <= t0 <= t -> t < 2 ^ 32 -> v < 0 -> - 2 ^ 31 <= v -> u64 (t - t0) < u64 v.
Proof.
  intros Ht0 Ht Hv Hr. rewrite (u64_small (t - t0)) by lia.
  unfold u64. rewrite <- (Z_mod_plus_full v 1), Z.mod_small by lia. lia.
Qed.

(** ** Properties *)

(** C39: [sys_lock_acquire] on a created, free lock returns 0 to user code with the
    kernel spin lock still held, so the process's next [yield] (every timer tick
    calls it) panics the kernel with "sched locks". *)
Theorem lock_acquire_then_yield_panics s e c p pr v i :
  running s p c -> c_noff c = 0 -> k_procs s !! p = Some pr -> arg_is s pr 0 v -> s32 v = Z.of_nat i ->
  (i < MAX_LOCKS)%nat -> k_lock_used s !! i = Some 1 -> lock_free s (LkUser i) ->
  lock_free s (LkProc p) ->
  exists s1, sys_lock_acquire (mkworld s e) = Ret 0 (mkworld s1 e) /\ lock_mine s1 (LkUser i) /\
    yield (mkworld s1 e) = Panic "sched locks".
Proof.
  intros Hr Hn Hpr Ha Hv Hi Hu Hl Hlp. eexists.
  split; [by apply (lock_acquire_eq s e c p pr v i) |]. split; [apply lock_mine_taken |].
  apply (yield_holding _ e (push_cpu (sync_cpu c)) p); [| by apply lock_free_taken | cbn; lia].
  apply running_taken; [by apply running_sync | cbn; lia].
Qed.

(** C18: [sys_sem_wait] returns: called by a process that holds no spin lock, with
    the value positive or made positive by some step of the system that resumes the
    sleeper, it comes back with 0, the semaphore's lock free again and the value
    one less than a positive value, so never negative. *)
Theorem sem_wait_returns s e c p pr :
  running s p c -> c_noff c = 0 -> k_procs s !! p = Some pr ->
  lock_free s LkSem -> lock_free s (LkProc p) ->
  k_sem s < 2 ^ 31 -> Forall (fun f => forall s, k_sem (f s) < 2 ^ 31) e ->
  Forall (resumes p LkSem) e ->
  Exists (fun f => forall s, 0 < k_sem (f s)) e \/ 0 < k_sem s ->
  exists s1 e1, sys_sem_wait (mkworld s e) = Ret 0 (mkworld s1 e1) /\
    0 <= k_sem s1 /\ lock_free s1 LkSem /\ (0 < k_sem s -> k_sem s1 = k_sem s - 1 /\ e1 = e).
Proof.
  intros Hr Hn Hpr Hl Hlp Hb Hbe Hre Hpos. pose proof Hr as (Hc & _). unfold sys_sem_wait.
  destruct (wait_until_ends (fun s => 0 <? k_sem s) ChSem LkSem p) with (e := e) (s := lock_taken LkSem s) (n := S (length e))
    as (s1 & e1 & Hw & Hin & Hgt & Hor);
    [done | done | lia | by apply (in_section_taken s p c LkSem pr) | done | |].
  { destruct Hpos as [Hpos | Hpos]; [left | right; by apply Z.ltb_lt].
    eapply Exists_impl; [exact Hpos |]. intros f Hf s'. by apply Z.ltb_lt. }
  apply Z.ltb_lt in Hgt. rewrite <- sem_wait_loop_until in Hw.
  exists ((lock_freed LkSem s1) <| k_sem := s32 (k_sem s1 - 1) |>), e1.
  assert (k_sem s1 < 2 ^ 31).
  { destruct Hor as [[-> _] | (f & s0 & i & Hf & ->)]; [done |].
    rewrite Forall_forall in Hbe. by apply (Hbe f Hf s0). }
  split; [| split; [cbn; rewrite s32_small by lia; lia | split]].
  - kcall (acquire_eq s e c LkSem).
    kcall Hw. krun.
    erewrite bind_ret by (apply (release_in_section _ p); exact Hin). done.
  - eexists. unfold lock_freed. cbn. by rewrite lookup_insert_eq.
  - intros Hp. cbn [sem_wait_loop] in Hw. rewrite bind_get in Hw. cbn in Hw.
    rewrite (proj2 (Z.leb_gt _ _)) in Hw by done. injection Hw as <- <-. cbn. rewrite s32_small by lia. done.
Qed.

(** [sys_sem_post] adds one to the semaphore and makes every process waiting
    for it runnable, returning 0 with all locks as before. *)
Theorem sem_post_wakes s e c :
  cpu_ok s c -> c_noff c < 2 ^ 31 - 2 -> procs_free s (c_proc c) -> lock_free s LkSem ->
  - 2 ^ 31 <= k_sem s < 2 ^ 31 - 1 ->
  exists s', sys_sem_post (mkworld s e) = Ret 0 (mkworld s' e) /\
    k_sem s' = k_sem s + 1 /\ k_locks s' = k_locks s /\
    forall i p, k_procs s !! i = Some p -> c_proc c <> Some i ->
      p_state p = SLEEPING -> p_chan p = Some ChSem -> p_state <$> k_procs s' !! i = Some RUNNABLE.
Proof.
  intros Hc Hn Hf Hl Hv. eexists. split; [by apply (sem_post_eq s e c) |].
  split; [done |]. split; [done |]. intros i p Hp Hme Hst Hch. cbn. unfold wake_all.
  rewrite list_lookup_imap, Hp. cbn. rewrite bool_decide_false by done.
  unfold wake_proc. by rewrite !bool_decide_true by done.
Qed.

(** [sys_sleep] with a negative argument does not return while the tick counter
    has not wrapped: the comparison of the elapsed ticks with [n] is unsigned.  A
    signal sent to the sleeper does not help, as [kkill] does not set [killed]. *)
Theorem sleep_negative_never_returns s e c p pr v :
  running s p c -> c_noff c = 0 -> k_procs s !! p = Some pr -> arg_is s pr 0 v -> s32 v < 0 ->
  lock_free s LkTicks -> lock_free s (LkProc p) ->
  0 <= k_ticks s < 2 ^ 32 -> p_killed pr = 0 -> Forall (resumes p LkTicks) e ->
  Forall (fun f => forall s', k_ticks s <= k_ticks (f s') < 2 ^ 32 /\
    exists pr, k_procs (f s') !! p = Some pr /\ p_killed pr = 0) e ->
  exists w, sys_sleep (mkworld s e) = Hang w.
Proof.
  intros Hr Hn Hpr Ha Hv Hl Hlp Ht Hk Hre Henv. pose proof (s32_range v) as Hrng.
  destruct (sleep_loop_stuck e (lock_taken LkTicks (sync s)) p (S (length e)) (k_ticks s) (s32 v))
    as [w Hw].
  - apply (in_section_taken (sync s) p (sync_cpu c) LkTicks pr); try done. by apply running_sync.
  - done.
  - split; [| by eauto]. cbn. apply sleep_negative_cond; lia.
  - eapply Forall_impl; [exact Henv |]. intros f Hf s'. destruct (Hf s') as [? ?].
    split; [| done]. apply sleep_negative_cond; lia.
  - exists w. unfold sys_sleep. kcall (argint_eq s e c p pr 0 v).
    kcall (acquire_eq (sync s) e (sync_cpu c) LkTicks).
    { destruct Hr as (Hc & _). by apply cpu_ok_sync. }
    krun. exact Hw.
Qed.
End sysproc.

(** ** Examples *)

(** The running process of [sample] called with [v] in [a0], user lock 2 created. *)
Definition sample_call (v : Z) : kstate :=
  sample <| k_mem ::= fun m => mem_set_word m (0x80100000 + TF_a 0) v |>
         <| k_lock_used := <[2%nat := 1]> (replicate MAX_LOCKS 0) |>.

Lemma sample_call_running v : running (sample_call v) 3 sample_cpu.
Proof. split; [exact sample_cpu_ok | split; [done | by vm_compute; lia]]. Qed.

Lemma lock_acquire_then_yield_panics_witness :
  exists s1, sys_lock_acquire (mkworld (sample_call 2) []) = Ret 0 (mkworld s1 []) /\
    lock_mine s1 (LkUser 2) /\ yield (mkworld s1 []) = Panic "sched locks".
Proof.
  apply (lock_acquire_then_yield_panics (sample_call 2) [] sample_cpu 3 sample_proc 2 2);
    try (apply lock_free_dec); try reflexivity.
  - apply sample_call_running.
  - split; [by vm_compute | by vm_compute].
  - by vm_compute; lia.
Defined.

(** The system schedules process 3 again, in a state where the semaphore is 1. *)
Definition sample_resume : kstate -> kstate := fun _ => lock_taken (LkProc 3) sample.
Lemma sample_resumes lk : lock_free_b sample lk = true -> lk <> LkProc 3 -> resumes 3 lk sample_resume.
Proof.
  intros Hl Hne s. split; [| split].
  - split; [apply lock_mine_taken |]. exists (push_cpu sample_cpu). by vm_compute.
  - apply lock_free_taken; [done |]. by apply lock_free_dec.
  - by exists sample_proc.
Qed.

Lemma sem_wait_returns_witness :
  let s := sample <| k_sem := 0 |> in
  exists s1 e1, sys_sem_wait (mkworld s [sample_resume]) = Ret 0 (mkworld s1 e1) /\
    0 <= k_sem s1 /\ lock_free s1 LkSem /\ (0 < k_sem s -> k_sem s1 = k_sem s - 1 /\ e1 = [sample_resume]).
Proof.
  intros s. apply (sem_wait_returns s [sample_resume] sample_cpu 3 sample_proc);
    try (apply lock_free_dec); try reflexivity.
  - apply (sample_call_running 0).
  - by repeat constructor.
  - constructor; [apply sample_resumes; by vm_compute | constructor].
  - left. constructor. by vm_compute.
Defined.

Lemma sem_post_wakes_witness :
  exists s', sys_sem_post (mkworld sample []) = Ret 0 (mkworld s' []) /\
    k_sem s' = 2 /\ k_locks s' = k_locks sample /\
    forall i p, k_procs sample !! i = Some p -> Some 3%nat <> Some i ->
      p_state p = SLEEPING -> p_chan p = Some ChSem -> p_state <$> k_procs s' !! i = Some RUNNABLE.
Proof.
  apply (sem_post_wakes sample [] sample_cpu).
  - exact sample_cpu_ok.
  - by vm_compute.
  - apply sample_procs_free.
  - apply lock_free_dec. by vm_compute.
  - by vm_compute.
Defined.

Lemma sleep_negative_never_returns_witness :
  exists w, sys_sleep (mkworld (sample_call (u64 (-1))) [sample_resume]) = Hang w.
Proof.
  apply (sleep_negative_never_returns (sample_call (u64 (-1))) [sample_resume] sample_cpu 3 sample_proc (u64 (-1)));
    try (apply lock_free_dec); try reflexivity.
  - apply sample_call_running.
  - split; by vm_compute.
  - by vm_compute.
  - constructor; [apply sample_resumes; by vm_compute | constructor].
  - constructor; [| constructor]. intros s'. split; [by vm_compute |]. by exists sample_proc.
Defined.
