(* ===== verification/Exec.v ===== *)
(** * Program execution ([kernel/exec.c], [kernel/elf.h])

    [kexec] builds the new image beside the old one and switches to it only when
    nothing can fail any more. *)
From S2P Require Import Prelude Kstate Bytes CString Spinlock Sched Sleeplock Virtio Bio Printf Log Mem Kalloc Vm Fs Pipe Console File Proc.
Local Open Scope Z_scope.

(** ** ELF headers *)
Definition ELF_MAGIC : Z := 0x464C457F.
Definition ELFHDR : Z := 64.
Definition PROGHDR : Z := 56.
Definition ELF_PROG_LOAD : Z := 1.

Record elfhdr : Type := mkelfhdr {
  e_magic : Z;
  e_entry : Z;
  e_phoff : Z;
  e_phnum : Z
}.
Definition read_elfhdr (d : list Z) : elfhdr :=
  mkelfhdr (get32 d 0) (get64 d 24) (get64 d 32) (get16 d 56).

Record proghdr : Type := mkproghdr {
  ph_type : Z;
  ph_flags : Z;
  ph_off : Z;
  ph_vaddr : Z;
  ph_filesz : Z;
  ph_memsz : Z
}.
Definition read_proghdr (d : list Z) : proghdr :=
  mkproghdr (get32 d 0) (get32 d 4) (get64 d 8) (get64 d 16) (get64 d 32) (get64 d 40).

Definition flags2perm (flags : Z) : Z :=
  let perm := if istrue (Z.land flags 1) then PTE_X else 0 in
  if istrue (Z.land flags 2) then Z.lor perm PTE_W else perm.

Section exec.
Context `{Image} `{DiskDriver}.

(** [for(i = 0; i < sz; i += PGSIZE)]. *)
Fixpoint loadseg_loop (fuel : nat) (pagetable va : Z) (ip : nat) (offset sz i : Z) : K Z :=
  match fuel with
  | O => ret 0
  | S k =>
      if i <? sz then
        let! pa := walkaddr pagetable (u64 (va + i)) in
        if pa =? 0 then panic "loadseg: address should exist" else
        let n := if sz - i <? PGSIZE then sz - i else PGSIZE in
        let! r := readi ip (DPhys pa) (u32 (offset + i)) n in
        if negb (u32 (fst r) =? n) then ret (-1)
        else loadseg_loop k pagetable va ip offset sz (i + PGSIZE)
      else ret 0
  end.
Definition loadseg (pagetable va : Z) (ip : nat) (offset sz : Z) : K Z :=
  loadseg_loop (Z.to_nat (sz / PGSIZE + 1)) pagetable va ip offset sz 0.

(** The program-header loop: [true] with the size reached when every segment
    was loaded, [false] with the size to free at [goto bad]. *)
Fixpoint load_segments (n : nat) (pagetable : Z) (ip : nat) (off sz : Z) : K (bool * Z) :=
  match n with
  | O => ret (true, sz)
  | S k =>
      let! r := readi ip DVar (u32 off) PROGHDR in
      if negb (fst r =? PROGHDR) then ret (false, sz) else
      let ph := read_proghdr (snd r) in
      let next := load_segments k pagetable ip (s32 (off + PROGHDR)) in
      if negb (ph_type ph =? ELF_PROG_LOAD) then next sz else
      if ph_memsz ph <? ph_filesz ph then ret (false, sz) else
      if u64 (ph_vaddr ph + ph_memsz ph) <? ph_vaddr ph then ret (false, sz) else
      if negb (ph_vaddr ph mod PGSIZE =? 0) then ret (false, sz) else
      let! sz1 := uvmalloc pagetable sz (u64 (ph_vaddr ph + ph_memsz ph)) (flags2perm (ph_flags ph)) in
      if sz1 =? 0 then ret (false, sz) else
      let! l := loadseg pagetable (ph_vaddr ph) ip (u32 (ph_off ph)) (u32 (ph_filesz ph)) in
      if l <? 0 then ret (false, sz1) else next sz1
  end.

(** [for(argc = 0; argv[argc]; argc++)]: the new stack pointer and the addresses
    of the strings, [None] at [goto bad]. *)
Fixpoint push_args (argv : list (list Z)) (pagetable sp stackbase : Z) (ustack : list Z)
    : K (option (Z * list Z)) :=
  match argv with
  | [] => ret (Some (sp, ustack))
  | a :: r =>
      if (MAXARG <=? length ustack)%nat then ret None else
      let sp := u64 (sp - (Z.of_nat (length a) + 1)) in
      let sp := sp - sp mod 16 in
      if sp <? stackbase then ret None else
      let! c := copyout pagetable sp (a ++ [0]) in
      if c <? 0 then ret None else
      push_args r pagetable sp stackbase (ustack ++ [sp])
  end.

(** The bytes after the last slash of the path. *)
Fixpoint last_elem (path last : list Z) : list Z :=
  match path with
  | [] => last
  | c :: r => if c =? 47 then last_elem r r else last_elem r last
  end.

(** [bad:] of [kexec]. *)
Definition exec_bad (pagetable sz : Z) (ip : option nat) : K Z :=
  (if istrue pagetable then proc_freepagetable pagetable sz else ret tt) ;;;
  (match ip with
   | Some i => iunlockput i ;;; end_op
   | None => ret tt
   end) ;;;
  ret (-1).

(** From the allocation of the stack on, with the segments loaded. *)
Definition exec_stack (path : list Z) (argv : list (list Z)) (elf : elfhdr) (pagetable sz : Z) : K Z :=
  let! p := curproc in
  let! pr := get_proc p in
  let oldsz := p_sz pr in
  let sz := PGROUNDUP sz in
  let! sz1 := uvmalloc pagetable sz (u64 (sz + (USERSTACK + 1) * PGSIZE)) PTE_W in
  if sz1 =? 0 then exec_bad pagetable sz None else
  let sz := sz1 in
  uvmclear pagetable (u64 (sz - (USERSTACK + 1) * PGSIZE)) ;;;
  let stackbase := u64 (sz - USERSTACK * PGSIZE) in
  let! o := push_args argv pagetable sz stackbase [] in
  match o with
  | None => exec_bad pagetable sz None
  | Some (sp, ustack) =>
      let argc := Z.of_nat (length ustack) in
      let sp := u64 (sp - (argc + 1) * 8) in
      let sp := sp - sp mod 16 in
      if sp <? stackbase then exec_bad pagetable sz None else
      let! c := copyout pagetable sp (flat_map (le_put 8) (ustack ++ [0])) in
      if c <? 0 then exec_bad pagetable sz None else
      let! pr := get_proc p in
      write_word (p_trapframe pr + TF_a 1) sp ;;;
      match safestrcpy (p_name pr) (last_elem path path ++ [0]) 16 with
      | None => fault
      | Some nm =>
          upd_proc p (fun pr => pr <| p_name := nm |>) ;;;
          let oldpagetable := p_pagetable pr in
          upd_proc p (fun pr => pr <| p_pagetable := pagetable |>) ;;;
          upd_proc p (fun pr => pr <| p_sz := sz |>) ;;;
          write_word (p_trapframe pr + TF_epc) (e_entry elf) ;;;
          write_word (p_trapframe pr + TF_sp) sp ;;;
          proc_freepagetable oldpagetable oldsz ;;;
          ret argc
      end
  end.

(** [argv] are the argument strings before the null pointer. *)
Definition kexec (path : list Z) (argv : list (list Z)) : K Z :=
  let! p := curproc in
  begin_op ;;;
  let! o := namei path in
  match o with
  | None => end_op ;;; ret (-1)
  | Some ip =>
      ilock (Some ip) ;;;
      let! r := readi ip DVar 0 ELFHDR in
      if negb (fst r =? ELFHDR) then exec_bad 0 0 (Some ip) else
      let elf := read_elfhdr (snd r) in
      if negb (e_magic elf =? ELF_MAGIC) then exec_bad 0 0 (Some ip) else
      let! pagetable := proc_pagetable p in
      if pagetable =? 0 then exec_bad 0 0 (Some ip) else
      let! s := load_segments (Z.to_nat (e_phnum elf)) pagetable ip (s32 (e_phoff elf)) 0 in
      if negb (fst s) then exec_bad pagetable (snd s) (Some ip) else
      iunlockput ip ;;;
      end_op ;;;
      exec_stack path argv elf pagetable (snd s)
  end.
End exec.
