(* ===== verification/Sysfile.v ===== *)
(** * File-system calls ([kernel/sysfile.c])

    Argument checking and the compositions of file, inode and directory
    operations, each inside a log transaction.  A [char] array is the list of the
    bytes before its nul. *)
From S2P Require Import Prelude Kstate Bytes CString Spinlock Sched Sleeplock Virtio Bio Printf Log Mem Kalloc Vm Fs Pipe Console File Proc Syscall Exec.
Local Open Scope Z_scope.

Definition O_RDONLY : Z := 0x000.
Definition O_WRONLY : Z := 0x001.
Definition O_RDWR : Z := 0x002.
Definition O_CREATE : Z := 0x200.
Definition O_TRUNC : Z := 0x400.

Section sysfile.
Context `{Image} `{DiskDriver}.

Definition FAIL : Z := u64 (-1).

(** ** File descriptors *)
Definition argfd (n : Z) : K (option (nat * nat)) :=
  let! fd := argint n in
  if (fd <? 0) || (Z.of_nat NOFILE <=? fd) then ret None else
  let! p := curproc in
  let! pr := get_proc p in
  match default None (p_ofile pr !! Z.to_nat fd) with
  | None => ret None
  | Some f => ret (Some (Z.to_nat fd, f))
  end.

Definition fdalloc (f : nat) : K Z :=
  let! p := curproc in
  let! o := search (seq 0 NOFILE) (fun fd =>
    let! pr := get_proc p in
    match default None (p_ofile pr !! fd) with
    | None =>
        upd_proc p (fun pr => pr <| p_ofile ::= <[fd := Some f]> |>) ;;;
        ret (Some (Z.of_nat fd))
    | Some _ => ret None
    end) in
  ret (default (-1) o).

Definition sys_dup : K Z :=
  let! o := argfd 0 in
  match o with
  | None => ret FAIL
  | Some (_, f) =>
      let! fd := fdalloc f in
      if fd <? 0 then ret FAIL else
      filedup f ;;;
      ret (u64 fd)
  end.

Definition sys_read : K Z :=
  let! p := argaddr 1 in
  let! n := argint 2 in
  let! o := argfd 0 in
  match o with
  | None => ret FAIL
  | Some (_, f) => let! r := fileread f p n in ret (u64 r)
  end.

Definition sys_write : K Z :=
  let! p := argaddr 1 in
  let! n := argint 2 in
  let! o := argfd 0 in
  match o with
  | None => ret FAIL
  | Some (_, f) => let! r := filewrite f p n in ret (u64 r)
  end.

Definition sys_close : K Z :=
  let! o := argfd 0 in
  match o with
  | None => ret FAIL
  | Some (fd, f) =>
      let! p := curproc in
      upd_proc p (fun pr => pr <| p_ofile ::= <[fd := None]> |>) ;;;
      fileclose f ;;;
      ret 0
  end.

Definition sys_fstat : K Z :=
  let! st := argaddr 1 in
  let! o := argfd 0 in
  match o with
  | None => ret FAIL
  | Some (_, f) => let! r := filestat f st in ret (u64 r)
  end.

(** ** Links *)

(** The string [argstr] stored, [None] if it failed. *)
Definition argpath (n : Z) : K (option (list Z)) :=
  let! r := argstr n MAXPATH in
  if fst r <? 0 then ret None else ret (Some (cstr (snd r))).

(** [bad:] of [sys_link]. *)
Definition link_bad (ip : nat) : K Z :=
  ilock (Some ip) ;;;
  upd_inode ip (fun x => x <| i_nlink := s16 (i_nlink x - 1) |>) ;;;
  iupdate ip ;;;
  iunlockput ip ;;;
  end_op ;;;
  ret FAIL.

Definition sys_link : K Z :=
  let! o := argpath 0 in
  match o with
  | None => ret FAIL
  | Some old =>
  let! o := argpath 1 in
  match o with
  | None => ret FAIL
  | Some new =>
  begin_op ;;;
  let! o := namei old in
  match o with
  | None => end_op ;;; ret FAIL
  | Some ip =>
  ilock (Some ip) ;;;
  let! x := get_inode ip in
  if i_type x =? T_DIR then iunlockput ip ;;; end_op ;;; ret FAIL else
  upd_inode ip (fun x => x <| i_nlink := s16 (i_nlink x + 1) |>) ;;;
  iupdate ip ;;;
  iunlock (Some ip) ;;;
  let! r := nameiparent new (replicate DIRSIZ 0) in
  match r with
  | (None, _) => link_bad ip
  | (Some dp, name) =>
      ilock (Some dp) ;;;
      let! d := get_inode dp in
      let! x := get_inode ip in
      let! l := (if negb (i_dev d =? i_dev x) then ret (-1) else dirlink dp name (i_inum x)) in
      if l <? 0 then iunlockput dp ;;; link_bad ip else
      iunlockput dp ;;;
      iput ip ;;;
      end_op ;;;
      ret 0
  end end end end.

(** [for(off=2*sizeof(de); off<dp->size; off+=sizeof(de))]. *)
Fixpoint isdirempty_loop (fuel : nat) (dp : nat) (off : Z) : K bool :=
  match fuel with
  | O => ret true
  | S k =>
      let! x := get_inode dp in
      if off <? i_size x then
        let! r := readi dp DVar off DIRENT in
        if negb (fst r =? DIRENT) then panic "isdirempty: readi" else
        if negb (de_inum (snd r) =? 0) then ret false
        else isdirempty_loop k dp (off + DIRENT)
      else ret true
  end.
Definition isdirempty (dp : nat) : K bool :=
  let! x := get_inode dp in
  isdirempty_loop (Z.to_nat (i_size x / DIRENT + 1)) dp (2 * DIRENT).

(** [bad:] of [sys_unlink]. *)
Definition unlink_bad (dp : nat) : K Z := iunlockput dp ;;; end_op ;;; ret FAIL.

(** [namecmp(name, ".") == 0 || namecmp(name, "..") == 0]. *)
Definition is_dots (name : list Z) : K bool :=
  match namecmp name (str "." ++ [0]), namecmp name (str ".." ++ [0]) with
  | Some a, Some b => ret ((a =? 0) || (b =? 0))
  | _, _ => fault
  end.

Definition sys_unlink : K Z :=
  let! o := argpath 0 in
  match o with
  | None => ret FAIL
  | Some path =>
  begin_op ;;;
  let! r := nameiparent path (replicate DIRSIZ 0) in
  match r with
  | (None, _) => end_op ;;; ret FAIL
  | (Some dp, name) =>
  ilock (Some dp) ;;;
  let! dots := is_dots name in
  if dots then unlink_bad dp else
  let! o := dirlookup dp name in
  match o with
  | None => unlink_bad dp
  | Some (ip, off) =>
  ilock (Some ip) ;;;
  let! x := get_inode ip in
  if i_nlink x <? 1 then panic "unlink: nlink < 1" else
  let! full := (if i_type x =? T_DIR then let! e := isdirempty ip in ret (negb e) else ret false) in
  if (full : bool) then iunlockput ip ;;; unlink_bad dp else
  let! w := writei dp (SVar (replicate 16 0)) off DIRENT in
  if negb (w =? DIRENT) then panic "unlink: writei" else
  let! x := get_inode ip in
  (if i_type x =? T_DIR then
     upd_inode dp (fun d => d <| i_nlink := s16 (i_nlink d - 1) |>) ;;;
     iupdate dp
   else ret tt) ;;;
  iunlockput dp ;;;
  upd_inode ip (fun x => x <| i_nlink := s16 (i_nlink x - 1) |>) ;;;
  iupdate ip ;;;
  iunlockput ip ;;;
  end_op ;;;
  ret 0
  end end end.

(** ** Creation *)

(** [fail:] of [create]. *)
Definition create_fail (ip dp : nat) : K (option nat) :=
  upd_inode ip (fun x => x <| i_nlink := 0 |>) ;;;
  iupdate ip ;;;
  iunlockput ip ;;;
  iunlockput dp ;;;
  ret None.

(** The [.] and [..] entries of a new directory: whether one failed. *)
Definition create_dots (ip dp : nat) : K bool :=
  let! x := get_inode ip in
  let! a := dirlink ip (str "." ++ [0]) (i_inum x) in
  if a <? 0 then ret true else
  let! d := get_inode dp in
  let! b := dirlink ip (str ".." ++ [0]) (i_inum d) in
  ret (b <? 0).

Definition create (path : list Z) (type major minor : Z) : K (option nat) :=
  let! r := nameiparent path (replicate DIRSIZ 0) in
  match r with
  | (None, _) => ret None
  | (Some dp, name) =>
  ilock (Some dp) ;;;
  let! o := dirlookup dp name in
  match o with
  | Some (ip, _) =>
      iunlockput dp ;;;
      ilock (Some ip) ;;;
      let! x := get_inode ip in
      if (type =? T_FILE) && ((i_type x =? T_FILE) || (i_type x =? T_DEVICE)) then ret (Some ip)
      else iunlockput ip ;;; ret None
  | None =>
  let! d := get_inode dp in
  let! o := ialloc (i_dev d) type in
  match o with
  | None => iunlockput dp ;;; ret None
  | Some ip =>
  ilock (Some ip) ;;;
  upd_inode ip (fun x => x <| i_major := major |> <| i_minor := minor |> <| i_nlink := 1 |>) ;;;
  iupdate ip ;;;
  let! bad := (if type =? T_DIR then create_dots ip dp else ret false) in
  if (bad : bool) then create_fail ip dp else
  let! x := get_inode ip in
  let! l := dirlink dp name (i_inum x) in
  if l <? 0 then create_fail ip dp else
  (if type =? T_DIR then
     upd_inode dp (fun d => d <| i_nlink := s16 (i_nlink d + 1) |>) ;;;
     iupdate dp
   else ret tt) ;;;
  iunlockput dp ;;;
  ret (Some ip)
  end end end.

(** The inode [sys_open] works on, locked; [None] when it already failed. *)
Definition open_inode (path : list Z) (omode : Z) : K (option nat) :=
  if istrue (Z.land omode O_CREATE) then
    let! o := create path T_FILE 0 0 in
    match o with
    | None => end_op ;;; ret None
    | Some ip => ret (Some ip)
    end
  else
    let! o := namei path in
    match o with
    | None => end_op ;;; ret None
    | Some ip =>
        ilock (Some ip) ;;;
        let! x := get_inode ip in
        if (i_type x =? T_DIR) && negb (omode =? O_RDONLY) then
          iunlockput ip ;;; end_op ;;; ret None
        else ret (Some ip)
    end.

Definition sys_open : K Z :=
  let! omode := argint 1 in
  let! o := argpath 0 in
  match o with
  | None => ret FAIL
  | Some path =>
  begin_op ;;;
  let! o := open_inode path omode in
  match o with
  | None => ret FAIL
  | Some ip =>
  let! x := get_inode ip in
  if (i_type x =? T_DEVICE) && ((i_major x <? 0) || (NDEV <=? i_major x)) then
    iunlockput ip ;;; end_op ;;; ret FAIL
  else
  let! fo := filealloc in
  let! fd := (match fo with Some f => fdalloc f | None => ret (-1) end) in
  if fd <? 0 then
    (match fo with Some f => fileclose f | None => ret tt end) ;;;
    iunlockput ip ;;;
    end_op ;;;
    ret FAIL
  else
  match fo with
  | None => fault
  | Some f =>
  let! x := get_inode ip in
  (if i_type x =? T_DEVICE then
     upd_file f (fun k => k <| f_type := FD_DEVICE |> <| f_major := i_major x |>)
   else upd_file f (fun k => k <| f_type := FD_INODE |> <| f_off := 0 |>)) ;;;
  upd_file f (fun k => k <| f_ip := Some ip |>
    <| f_readable := b2z (negb (istrue (Z.land omode O_WRONLY))) |>
    <| f_writable := b2z (istrue (Z.land omode O_WRONLY) || istrue (Z.land omode O_RDWR)) |>) ;;;
  (if istrue (Z.land omode O_TRUNC) && (i_type x =? T_FILE) then itrunc ip else ret tt) ;;;
  iunlock (Some ip) ;;;
  end_op ;;;
  ret (u64 fd)
  end end end.

Definition sys_mkdir : K Z :=
  begin_op ;;;
  let! o := argpath 0 in
  let! io := (match o with Some path => create path T_DIR 0 0 | None => ret None end) in
  match io with
  | None => end_op ;;; ret FAIL
  | Some ip => iunlockput ip ;;; end_op ;;; ret 0
  end.

Definition sys_mknod : K Z :=
  begin_op ;;;
  let! major := argint 1 in
  let! minor := argint 2 in
  let! o := argpath 0 in
  let! io := (match o with
              | Some path => create path T_DEVICE (s16 major) (s16 minor)
              | None => ret None
              end) in
  match io with
  | None => end_op ;;; ret FAIL
  | Some ip => iunlockput ip ;;; end_op ;;; ret 0
  end.

Definition sys_chdir : K Z :=
  let! p := curproc in
  begin_op ;;;
  let! o := argpath 0 in
  let! io := (match o with Some path => namei path | None => ret None end) in
  match io with
  | None => end_op ;;; ret FAIL
  | Some ip =>
      ilock (Some ip) ;;;
      let! x := get_inode ip in
      if negb (i_type x =? T_DIR) then iunlockput ip ;;; end_op ;;; ret FAIL else
      iunlock (Some ip) ;;;
      let! pr := get_proc p in
      iput_ptr (p_cwd pr) ;;;
      end_op ;;;
      upd_proc p (fun pr => pr <| p_cwd := Some ip |>) ;;;
      ret 0
  end.

(** ** Exec and pipe *)

(** [for(i = 0; i < NELEM(argv) && argv[i] != 0; i++) kfree(argv[i])]. *)
Fixpoint free_args (argv : list (Z * list Z)) : K unit :=
  match argv with
  | [] => ret tt
  | (pa, _) :: r => kfree pa ;;; free_args r
  end.

(** The argument loop: the pages with their strings, and whether it ended at
    the null pointer ([false] is [goto bad]). *)
Fixpoint exec_args (n : nat) (uargv i : Z) (argv : list (Z * list Z)) : K (bool * list (Z * list Z)) :=
  match n with
  | O => ret (false, argv)
  | S k =>
      let! r := fetchaddr (u64 (uargv + 8 * i)) in
      if fst r <? 0 then ret (false, argv) else
      if snd r =? 0 then ret (true, argv) else
      let! pa := kalloc in
      if pa =? 0 then ret (false, argv) else
      let! s := fetchstr (snd r) PGSIZE in
      write_bytes pa (snd s) ;;;
      let argv := argv ++ [(pa, cstr (snd s))] in
      if fst s <? 0 then ret (false, argv) else exec_args k uargv (i + 1) argv
  end.

Definition sys_exec : K Z :=
  let! uargv := argaddr 1 in
  let! o := argpath 0 in
  match o with
  | None => ret FAIL
  | Some path =>
      let! r := exec_args MAXARG uargv 0 [] in
      if negb (fst r) then free_args (snd r) ;;; ret FAIL else
      let! v := kexec path (snd <$> snd r) in
      free_args (snd r) ;;;
      ret (u64 v)
  end.

Definition clear_fd (p : nat) (fd : Z) : K unit :=
  upd_proc p (fun pr => pr <| p_ofile ::= <[Z.to_nat fd := None]> |>).

Definition sys_pipe : K Z :=
  let! p := curproc in
  let! fdarray := argaddr 0 in
  let! o := pipealloc in
  match o with
  | None => ret FAIL
  | Some (rf, wf) =>
      let! fd0 := fdalloc rf in
      let! fd1 := (if fd0 <? 0 then ret (-1) else fdalloc wf) in
      if (fd0 <? 0) || (fd1 <? 0) then
        (if 0 <=? fd0 then clear_fd p fd0 else ret tt) ;;;
        fileclose rf ;;;
        fileclose wf ;;;
        ret FAIL
      else
        let! pr := get_proc p in
        let! a := copyout (p_pagetable pr) fdarray (le_put 4 fd0) in
        let! b := (if a <? 0 then ret (-1)
                   else copyout (p_pagetable pr) (u64 (fdarray + 4)) (le_put 4 fd1)) in
        if (a <? 0) || (b <? 0) then
          clear_fd p fd0 ;;;
          clear_fd p fd1 ;;;
          fileclose rf ;;;
          fileclose wf ;;;
          ret FAIL
        else ret 0
  end.
End sysfile.
