(* ===== verification/Trap.v ===== *)
(** * Traps, signal delivery and system-call dispatch
    ([kernel/trap.c], [kernel/syscall.c], [kernel/plic.c], [forkret] of [kernel/proc.c])

    [usertrap] is what runs between the trampoline's entry and exit: it handles
    the system call, interrupt or fault, delivers signals and sets up the
    return.  Its result is the [satp] value of the user page table. *)
From S2P Require Import Prelude Kstate Bytes CString Spinlock Sample Sched Sleeplock Virtio Bio Printf Log Mem Kalloc Vm Fs Pipe Console File Proc Syscall Exec Sysfile Sysproc.
Local Open Scope Z_scope.

(** ** System-call numbers ([kernel/syscall.h]) *)
Definition SYS_fork : Z := 1.
Definition SYS_exit : Z := 2.
Definition SYS_wait : Z := 3.
Definition SYS_pipe : Z := 4.
Definition SYS_read : Z := 5.
Definition SYS_kill : Z := 6.
Definition SYS_exec : Z := 7.
Definition SYS_fstat : Z := 8.
Definition SYS_chdir : Z := 9.
Definition SYS_dup : Z := 10.
Definition SYS_getpid : Z := 11.
Definition SYS_sbrk : Z := 12.
Definition SYS_pause : Z := 13.
Definition SYS_uptime : Z := 14.
Definition SYS_open : Z := 15.
Definition SYS_write : Z := 16.
Definition SYS_mknod : Z := 17.
Definition SYS_unlink : Z := 18.
Definition SYS_link : Z := 19.
Definition SYS_mkdir : Z := 20.
Definition SYS_close : Z := 21.
Definition SYS_getyear : Z := 22.
Definition SYS_signal : Z := 23.
Definition SYS_sigreturn : Z := 24.
Definition SYS_sleep : Z := 25.
Definition SYS_sem_init : Z := 26.
Definition SYS_sem_wait : Z := 27.
Definition SYS_sem_post : Z := 28.
Definition SYS_lock_create : Z := 29.
Definition SYS_lock_acquire : Z := 30.
Definition SYS_lock_release : Z := 31.
Definition SYS_send : Z := 32.
Definition SYS_recv : Z := 33.

Section trap.
Context `{Image} `{DiskDriver} `{Device}.

(** ** Dispatch *)

(** [syscalls[num]] for [0 < num < NELEM(syscalls)]. *)
Definition syscalls (num : Z) : option (K Z) :=
  if num =? SYS_fork then Some sys_fork else if num =? SYS_exit then Some sys_exit
  else if num =? SYS_wait then Some sys_wait else if num =? SYS_pipe then Some sys_pipe
  else if num =? SYS_read then Some sys_read else if num =? SYS_kill then Some sys_kill
  else if num =? SYS_exec then Some sys_exec else if num =? SYS_fstat then Some sys_fstat
  else if num =? SYS_chdir then Some sys_chdir else if num =? SYS_dup then Some sys_dup
  else if num =? SYS_getpid then Some sys_getpid else if num =? SYS_sbrk then Some sys_sbrk
  else if num =? SYS_pause then Some sys_pause else if num =? SYS_uptime then Some sys_uptime
  else if num =? SYS_open then Some sys_open else if num =? SYS_write then Some sys_write
  else if num =? SYS_mknod then Some sys_mknod else if num =? SYS_unlink then Some sys_unlink
  else if num =? SYS_link then Some sys_link else if num =? SYS_mkdir then Some sys_mkdir
  else if num =? SYS_close then Some sys_close else if num =? SYS_getyear then Some sys_getyear
  else if num =? SYS_signal then Some sys_signal else if num =? SYS_sigreturn then Some sys_sigreturn
  else if num =? SYS_sleep then Some sys_sleep else if num =? SYS_sem_init then Some sys_sem_init
  else if num =? SYS_sem_wait then Some sys_sem_wait else if num =? SYS_sem_post then Some sys_sem_post
  else if num =? SYS_lock_create then Some sys_lock_create
  else if num =? SYS_lock_acquire then Some sys_lock_acquire
  else if num =? SYS_lock_release then Some sys_lock_release
  else if num =? SYS_send then Some sys_send else if num =? SYS_recv then Some sys_recv
  else None.

Definition unknown_msg : list Z := str "%d %s: unknown sys call %d" ++ [10].

(** The address of the trapframe of process [p]. *)
Definition trapframe (p : nat) : K Z := let! pr := get_proc p in ret (p_trapframe pr).

Definition syscall : K unit :=
  let! p := curproc in
  let! tf := trapframe p in
  let! a7 := read_word (tf + TF_a 7) in
  let num := s32 a7 in
  match syscalls num with
  | Some h =>
      let! v := h in
      let! tf := trapframe p in
      write_word (tf + TF_a 0) v
  | None =>
      let! pr := get_proc p in
      printf unknown_msg [PInt (p_pid pr); PStr (Some (name_str (p_name pr))); PInt num] ;;;
      write_word (tf + TF_a 0) (u64 (-1))
  end.

(** ** Signals *)

(** [*p->trapframe], word by word. *)
Fixpoint read_words (a : Z) (n : nat) : K (list Z) :=
  match n with
  | O => ret []
  | S k => let! v := read_word a in let! r := read_words (a + 8) k in ret (v :: r)
  end.

(** [p->pending_signals & (1 << sig)] and [&= ~(1 << sig)], on a C [int]. *)
Definition is_pending (pending sig : Z) : bool := istrue (Z.land pending (s32 (Z.shiftl 1 sig))).
Definition clear_pending (sig pending : Z) : Z :=
  s32 (Z.land pending (Z.lnot (s32 (Z.shiftl 1 sig)))).

(** [for(int sig = 0; sig < 32; sig++)]. *)
Fixpoint deliver_loop (sigs : list nat) (p : nat) : K unit :=
  match sigs with
  | [] => ret tt
  | sg :: r =>
      let sig := Z.of_nat sg in
      let! pr := get_proc p in
      if is_pending (p_pending_signals pr) sig then
        let handler := default 0 (p_signal_handlers pr !! sg) in
        if negb (handler =? 0) then
          upd_proc p (fun pr => pr <| p_pending_signals ::= clear_pending sig |>) ;;;
          let! tf := read_words (p_trapframe pr) TF_WORDS in
          upd_proc p (fun pr => pr <| p_signal_trapframe := tf |>) ;;;
          upd_proc p (fun pr => pr <| p_in_signal_handler := 1 |>) ;;;
          write_word (p_trapframe pr + TF_a 0) sig ;;;
          write_word (p_trapframe pr + TF_epc) handler
        else
          upd_proc p (fun pr => pr <| p_pending_signals ::= clear_pending sig |>) ;;;
          upd_proc p (fun pr => pr <| p_killed := 1 |>) ;;;
          deliver_loop r p
      else deliver_loop r p
  end.

Definition deliver_signals : K unit :=
  let! p := curproc in
  let! pr := get_proc p in
  if istrue (p_in_signal_handler pr) then ret tt
  else deliver_loop (seq 0 32) p.

(** ** Interrupts *)
Definition plic_claim : K Z := get k_irq.
Definition plic_complete (irq : Z) : K unit := put (fun s => s <| k_irq_done ::= fun l => irq :: l |>).

Definition clockintr : K unit :=
  let! id := cpuid in
  (if Nat.eqb id 0 then
     acquire LkTicks ;;;
     put (fun s => s <| k_ticks := u32 (k_ticks s + 1) |>) ;;;
     wakeup ChTicks ;;;
     release LkTicks
   else ret tt) ;;;
  put (fun s => s <| k_csr ::= fun c => c <| r_stimecmp := u64 (r_time c + 1000000) |> |>).

Definition SCAUSE_EXTERNAL : Z := 0x8000000000000009.
Definition SCAUSE_TIMER : Z := 0x8000000000000005.

Definition devintr : K Z :=
  let! c := get k_csr in
  if r_scause c =? SCAUSE_EXTERNAL then
    let! irq := plic_claim in
    (if irq =? UART0_IRQ then uartintr
     else if irq =? VIRTIO0_IRQ then virtio_disk_intr
     else if istrue irq then
       printf (str "unexpected interrupt irq=%d" ++ [10]) [PInt irq] ;;; ret tt
     else ret tt) ;;;
    (if istrue irq then plic_complete irq else ret tt) ;;;
    ret 1
  else if r_scause c =? SCAUSE_TIMER then clockintr ;;; ret 2
  else ret 0.

(** ** Traps *)
Definition set_csr (f : csr -> csr) : K unit := put (fun s => s <| k_csr ::= f |>).

Definition trapinit : K unit := initlock LkTicks "time".
Definition trapinithart : K unit := set_csr (fun c => c <| r_stvec := kernelvec |>).

Definition prepare_return : K unit :=
  let! p := curproc in
  intr_off ;;;
  set_csr (fun c => c <| r_stvec := TRAMPOLINE + (uservec - trampoline) |>) ;;;
  let! pr := get_proc p in
  let tf := p_trapframe pr in
  let! c := get k_csr in
  write_word (tf + TF_kernel_satp) (r_satp c) ;;;
  write_word (tf + TF_kernel_sp) (p_kstack pr + PGSIZE) ;;;
  write_word (tf + TF_kernel_trap) usertrap_addr ;;;
  let! h := cpuid in
  write_word (tf + TF_kernel_hartid) (Z.of_nat h) ;;;
  set_csr (fun c => c <| r_spp := false |> <| r_spie := true |>) ;;;
  let! epc := read_word (tf + TF_epc) in
  set_csr (fun c => c <| r_sepc := epc |>).

(** The system call, interrupt or fault: the value of [which_dev]. *)
Definition usertrap_cause (p : nat) : K Z :=
  let! c := get k_csr in
  if r_scause c =? 8 then
    let! kl := killed p in
    (if istrue kl then kexit (-1) else ret tt) ;;;
    let! tf := trapframe p in
    let! epc := read_word (tf + TF_epc) in
    write_word (tf + TF_epc) (u64 (epc + 4)) ;;;
    intr_on ;;;
    syscall ;;;
    ret 0
  else
    let! which_dev := devintr in
    if istrue which_dev then ret which_dev else
    let! c := get k_csr in
    let! pr := get_proc p in
    let! pa := (if (r_scause c =? 15) || (r_scause c =? 13) then
                  vmfault (p_pagetable pr) (r_stval c) (r_scause c =? 13)
                else ret 0) in
    if istrue pa then ret 0 else
    let! c := get k_csr in
    printf (str "usertrap(): unexpected scause 0x%lx pid=%d" ++ [10])
      [PInt (r_scause c); PInt (p_pid pr)] ;;;
    let! c := get k_csr in
    printf (str "            sepc=0x%lx stval=0x%lx" ++ [10]) [PInt (r_sepc c); PInt (r_stval c)] ;;;
    setkilled p ;;;
    ret 0.

Definition usertrap : K Z :=
  let! c := get k_csr in
  if r_spp c then panic "usertrap: not from user mode" else
  set_csr (fun c => c <| r_stvec := kernelvec |>) ;;;
  let! p := curproc in
  let! tf := trapframe p in
  let! c := get k_csr in
  write_word (tf + TF_epc) (r_sepc c) ;;;
  let! which_dev := usertrap_cause p in
  let! kl := killed p in
  (if istrue kl then kexit (-1) else ret tt) ;;;
  (if which_dev =? 2 then yield else ret tt) ;;;
  deliver_signals ;;;
  prepare_return ;;;
  let! pr := get_proc p in
  ret (MAKE_SATP (p_pagetable pr)).

Definition kerneltrap : K unit :=
  let! c0 := get k_csr in
  let! sie := intr_get in
  if negb (r_spp c0) then panic "kerneltrap: not from supervisor mode" else
  if sie then panic "kerneltrap: interrupts enabled" else
  let! which_dev := devintr in
  if which_dev =? 0 then
    let! c := get k_csr in
    printf (str "scause=0x%lx sepc=0x%lx stval=0x%lx" ++ [10])
      [PInt (r_scause c0); PInt (r_sepc c); PInt (r_stval c)] ;;;
    panic "kerneltrap"
  else
    let! me := (if which_dev =? 2 then myproc else ret None) in
    (if bool_decide (me = None) then ret tt else yield) ;;;
    set_csr (fun c => c <| r_sepc := r_sepc c0 |>) ;;;
    set_csr (fun c => c <| r_spp := r_spp c0 |> <| r_spie := r_spie c0 |>) ;;;
    upd_mycpu (fun c => c <| c_sie := sie |>).

(** The first run of a forked process; the jump to user space is not modelled. *)
Definition forkret : K Z :=
  let! p := curproc in
  release (LkProc p) ;;;
  let! first := get k_first in
  (if istrue first then
     fsinit ROOTDEV ;;;
     put (fun s => s <| k_first := 0 |>) ;;;
     let! r := kexec (str "/init") [str "/init"] in
     let! tf := trapframe p in
     write_word (tf + TF_a 0) (u64 r) ;;;
     if u64 r =? u64 (-1) then panic "exec" else ret tt
   else ret tt) ;;;
  prepare_return ;;;
  let! pr := get_proc p in
  ret (MAKE_SATP (p_pagetable pr)).


(** ** The words of a trapframe page *)
Lemma page_word m tf l i :
  m !! tf = Some l -> tf mod PGSIZE = 0 -> 0 <= i < 512 -> mem_word m (tf + 8 * i) = l !! Z.to_nat i.
Proof.
  intros Hl Ha Hi. unfold mem_word. destruct (page_base_entry tf i) as [-> ->]; [done | done |].
  by rewrite Hl.
Qed.

Lemma page_set_word m tf l i v :
  m !! tf = Some l -> tf mod PGSIZE = 0 -> 0 <= i < 512 ->
  mem_set_word m (tf + 8 * i) v = <[tf := <[Z.to_nat i := v]> l]> m.
Proof.
  intros Hl Ha Hi. unfold mem_set_word. destruct (page_base_entry tf i) as [-> ->]; [done | done |].
  apply map_eq. intros k. destruct (decide (k = tf)) as [-> |].
  - by rewrite lookup_alter_eq, lookup_insert_eq, Hl.
  - by rewrite lookup_alter_ne, lookup_insert_ne by done.
Qed.

(** Slot [pr] has a trapframe page holding [l]. *)
Definition tf_page (s : kstate) (pr : proc) (l : list Z) : Prop :=
  k_mem s !! p_trapframe pr = Some l /\ p_trapframe pr mod PGSIZE = 0 /\ length l = 512%nat.

Lemma read_words_eq s e pr l n i :
  tf_page s pr l -> (i + n <= 512)%nat ->
  read_words (p_trapframe pr + 8 * Z.of_nat i) n (mkworld s e) = Ret (take n (drop i l)) (mkworld s e).
Proof.
  intros (Hm & Ha & Hlen). revert i. induction n as [| n IH]; intros i Hi; [done |]. cbn [read_words].
  destruct (lookup_lt_is_Some_2 l i) as [v Hv]; [lia |].
  kcall (read_word_eq s e _ v). { rewrite (page_word _ _ l) by (done || lia). by rewrite Nat2Z.id. }
  replace (p_trapframe pr + 8 * Z.of_nat i + 8) with (p_trapframe pr + 8 * Z.of_nat (S i)) by lia.
  kcall (IH (S i)). { lia. } by rewrite (drop_S l v i).
Qed.

Lemma tf_write s e pr l i v :
  tf_page s pr l -> 0 <= i < 512 ->
  write_word (p_trapframe pr + 8 * i) v (mkworld s e) =
    Ret tt (mkworld (s <| k_mem ::= <[p_trapframe pr := <[Z.to_nat i := v]> l]> |>) e).
Proof.
  intros (Hm & Ha & Hlen) Hi. rewrite write_word_eq.
  - apply ret_world. upd_eq. by apply page_set_word.
  - rewrite (page_word _ _ l) by done. apply lookup_lt_is_Some_2. lia.
Qed.

Lemma restore_step (w l : list Z) i x :
  w !! i = Some x -> (i < length l)%nat ->
  <[i := x]> (take i w ++ drop i l) = take (S i) w ++ drop (S i) l.
Proof.
  intros Hx Hl. destruct (lookup_lt_is_Some_2 l i) as [y Hy]; [done |].
  pose proof (lookup_lt_Some _ _ _ Hx).
  rewrite insert_app_r_alt by (rewrite length_take; lia). rewrite length_take_le by lia.
  rewrite Nat.sub_diag, (drop_S l y) by done. cbn. by rewrite (take_S_r w i x), <- app_assoc.
Qed.

Lemma restore_words_from w n i s e pr l :
  tf_page s pr (take i w ++ drop i l) -> length l = 512%nat -> (i + n <= length w)%nat -> (i + n <= 512)%nat ->
  foreach (seq i n) (fun i => write_word (p_trapframe pr + 8 * Z.of_nat i) (default 0 (w !! i))) (mkworld s e) =
    Ret tt (mkworld (s <| k_mem ::= <[p_trapframe pr := take (i + n) w ++ drop (i + n) l]> |>) e).
Proof.
  revert i s. induction n as [| n IH]; intros i s Htf Hl Hw Hn.
  { cbn. rewrite Nat.add_0_r. apply ret_world. destruct Htf as (Hm & _).
    transitivity (s <| k_mem := k_mem s |>); [by destruct s |]. upd_eq. by rewrite insert_id. }
  destruct (lookup_lt_is_Some_2 w i) as [x Hx]; [lia |]. pose proof Htf as (Hm & Ha & Hlen).
  cbn [seq foreach]. kcall (tf_write s e pr _ (Z.of_nat i) (default 0 (w !! i))). { lia. }
  rewrite Nat2Z.id, Hx. change (default 0 (Some x)) with x. rewrite (restore_step w l i x) by (done || lia).
  erewrite IH; [| | done | lia | lia].
  - apply ret_world. replace (S i + n)%nat with (i + S n)%nat by lia.
    upd_eq. by rewrite insert_insert_eq.
  - split; [cbn; by rewrite lookup_insert_eq |]. split; [done |].
    rewrite length_app, length_take, length_drop. lia.
Qed.

Lemma restore_words_eq s e pr l w :
  tf_page s pr l -> length w = TF_WORDS ->
  restore_words (p_trapframe pr) w (mkworld s e) =
    Ret tt (mkworld (s <| k_mem ::= <[p_trapframe pr := w ++ drop TF_WORDS l]> |>) e).
Proof.
  intros Htf Hw. unfold restore_words.
  rewrite (restore_words_from w TF_WORDS 0 s e pr l);
    [| done | by destruct Htf as (_ & _ & ?) | lia | unfold TF_WORDS; lia].
  rewrite (take_ge w) by lia. done.
Qed.
(** ** Pending signals as a set of bits *)
Lemma s32_testbit x i : 0 <= i < 32 -> Z.testbit (s32 x) i = Z.testbit x i.
Proof.
  intros Hi. transitivity (Z.testbit (s32 x mod 2 ^ 32) i); [by rewrite Z.mod_pow2_bits_low by lia |].
  rewrite <- (Z.mod_pow2_bits_low x 32 i) by lia. f_equal. unfold s32, sext.
  destruct (Z.ltb_spec (x mod 2 ^ 32) (2 ^ (32 - 1))) as [_ | _]; [by rewrite Z.mod_mod |].
  rewrite <- (Z_mod_plus_full (x mod 2 ^ 32 - 2 ^ 32) 1 (2 ^ 32)), Z.mul_1_l, Z.sub_add.
  by rewrite Z.mod_mod.
Qed.

Lemma s32_bits_inj a b :
  - 2 ^ 31 <= a < 2 ^ 31 -> - 2 ^ 31 <= b < 2 ^ 31 ->
  (forall i, 0 <= i < 32 -> Z.testbit a i = Z.testbit b i) -> a = b.
Proof.
  intros Ha Hb Hi. rewrite <- (s32_small a), <- (s32_small b) by done. unfold s32, sext.
  assert (a mod 2 ^ 32 = b mod 2 ^ 32) as ->; [| done].
  apply Z.bits_inj'. intros i Hn. destruct (Z.lt_ge_cases i 32).
  - rewrite !Z.mod_pow2_bits_low by lia. apply Hi. lia.
  - by rewrite !Z.mod_pow2_bits_high by lia.
Qed.

Lemma shift_bit_testbit sig i :
  0 <= sig < 32 -> 0 <= i < 32 -> Z.testbit (s32 (Z.shiftl 1 sig)) i = (i =? sig).
Proof.
  intros Hs Hi. rewrite s32_testbit, Z.shiftl_1_l by lia. rewrite Z.pow2_bits_eqb by lia.
  apply Z.eqb_sym.
Qed.

Lemma clear_pending_testbit sig pend i :
  0 <= sig < 32 -> 0 <= i < 32 ->
  Z.testbit (clear_pending sig pend) i = Z.testbit pend i && negb (i =? sig).
Proof.
  intros Hs Hi. unfold clear_pending.
  rewrite s32_testbit, Z.land_spec, Z.lnot_spec, shift_bit_testbit by lia. done.
Qed.

Lemma set_pending_testbit sig pend i :
  0 <= sig < 32 -> 0 <= i < 32 ->
  Z.testbit (set_pending sig pend) i = Z.testbit pend i || (i =? sig).
Proof.
  intros Hs Hi. unfold set_pending. rewrite s32_testbit, Z.lor_spec, shift_bit_testbit by lia. done.
Qed.

Lemma is_pending_testbit pend sig :
  - 2 ^ 31 <= pend < 2 ^ 31 -> 0 <= sig < 32 -> is_pending pend sig = Z.testbit pend sig.
Proof.
  intros Hp Hs. unfold is_pending. destruct (decide (sig = 31)) as [-> | Hne].
  - change (s32 (Z.shiftl 1 31)) with (- 2 ^ 31).
    assert (Z.land pend (- 2 ^ 31) = pend - pend mod 2 ^ 31) as ->.
    { change (- 2 ^ 31) with (Z.lnot (Z.ones 31)). rewrite <- Z.ldiff_land, Z.ldiff_ones_r by lia.
      rewrite Z.shiftl_mul_pow2, Z.shiftr_div_pow2 by lia. pose proof (Z.div_mod pend (2 ^ 31)). lia. }
    rewrite Z.testbit_odd, Z.shiftr_div_pow2 by lia.
    assert (pend / 2 ^ 31 = if pend <? 0 then -1 else 0) as ->
      by (destruct (Z.ltb_spec pend 0); Z.div_mod_to_equations; lia).
    destruct (Z.ltb_spec pend 0); [apply istrue_true | apply istrue_false];
      Z.div_mod_to_equations; lia.
  - assert (2 ^ sig < 2 ^ 31) by (apply Z.pow_lt_mono_r; lia).
    assert (0 < 2 ^ sig) by (apply Z.pow_pos_nonneg; lia).
    rewrite s32_small by (rewrite Z.shiftl_1_l; lia). apply land_bit. lia.
Qed.
(** ** Delivery *)

(** Entering the handler [h] of signal [sig] with trapframe page [l]. *)
Definition enter_handler (p : nat) (sig h : Z) (pr : proc) (l : list Z) (s : kstate) : kstate :=
  s <| k_procs ::= alter (fun pr => pr <| p_pending_signals ::= clear_pending sig |>
                       <| p_signal_trapframe := take TF_WORDS l |> <| p_in_signal_handler := 1 |>) p |>
    <| k_mem ::= <[p_trapframe pr := <[3%nat := h]> (<[14%nat := sig]> l)]> |>.

Lemma procs_update_twice s f g p :
  s <| k_procs ::= alter f p |> <| k_procs ::= alter g p |> = s <| k_procs ::= alter (g ∘ f) p |>.
Proof. upd_eq. by rewrite list_alter_alter_eq. Qed.
Lemma mem_write_twice s a x y :
  s <| k_mem ::= <[a := x]> |> <| k_mem ::= <[a := y]> |> = s <| k_mem ::= <[a := y]> |>.
Proof. upd_eq. by rewrite insert_insert_eq. Qed.

Lemma deliver_skip pre r s e p pr :
  k_procs s !! p = Some pr ->
  Forall (fun sg => is_pending (p_pending_signals pr) (Z.of_nat sg) = false) pre ->
  deliver_loop (pre ++ r) p (mkworld s e) = deliver_loop r p (mkworld s e).
Proof.
  intros Hpr. induction 1 as [| sg pre Hsg _ IH]; [done |]. cbn [app deliver_loop].
  kcall (get_proc_eq s e p pr). rewrite Hsg. exact IH.
Qed.

Lemma deliver_handler s e p pr l sg r h :
  k_procs s !! p = Some pr -> tf_page s pr l -> is_pending (p_pending_signals pr) (Z.of_nat sg) = true ->
  p_signal_handlers pr !! sg = Some h -> h <> 0 ->
  deliver_loop (sg :: r) p (mkworld s e) = Ret tt (mkworld (enter_handler p (Z.of_nat sg) h pr l s) e).
Proof.
  intros Hpr Htf Hp Hh Hnz. cbn [deliver_loop]. kcall (get_proc_eq s e p pr).
  rewrite Hp, Hh. change (default 0 (Some h)) with h. rewrite (proj2 (Z.eqb_neq _ _) Hnz). cbn [negb].
  rewrite bind_upd_proc. pose proof Htf as (Hm & Ha & Hl).
  rewrite <- (Z.add_0_r (p_trapframe pr)) at 1.
  kcall (read_words_eq _ e pr l TF_WORDS 0). { unfold TF_WORDS; lia. }
  rewrite drop_0, !bind_upd_proc. change (TF_a 0) with (8 * 14). change TF_epc with (8 * 3).
  kcall (tf_write _ e pr l 14).
  erewrite (tf_write _ e pr (<[14%nat := Z.of_nat sg]> l)); [| | lia].
  - rewrite mem_write_twice, !procs_update_twice. done.
  - split; [cbn; by rewrite lookup_insert_eq |]. split; [done |]. by rewrite length_insert.
Qed.
(** Every pending signal lacks a handler: all are cleared and the process is
    marked killed. *)
Definition default_action (pr : proc) : proc :=
  pr <| p_pending_signals := 0 |>
     <| p_killed := if p_pending_signals pr =? 0 then p_killed pr else 1 |>.

Definition unhandled (pr : proc) : Prop := forall sg, default 0 (p_signal_handlers pr !! sg) = 0.

Lemma deliver_default n k s e p pr :
  (k + n = 32)%nat -> k_procs s !! p = Some pr -> unhandled pr ->
  - 2 ^ 31 <= p_pending_signals pr < 2 ^ 31 ->
  (forall i, 0 <= i < Z.of_nat k -> Z.testbit (p_pending_signals pr) i = false) ->
  deliver_loop (seq k n) p (mkworld s e) = Ret tt (mkworld (s <| k_procs ::= alter default_action p |>) e).
Proof.
  revert k s pr. induction n as [| n IH]; intros k s pr Hk Hpr Hh Hr Hb.
  - assert (p_pending_signals pr = 0) as Hz.
    { apply s32_bits_inj; [done | lia |]. intros i Hi. rewrite Z.bits_0. apply Hb. lia. }
    cbn. apply ret_world. transitivity (s <| k_procs := k_procs s |>); [by destruct s |]. upd_eq.
    symmetry. apply (alter_same _ _ _ pr); [done |]. unfold default_action. rewrite Hz. cbn.
    destruct pr; cbn in *; by subst.
  - cbn [seq deliver_loop]. kcall (get_proc_eq s e p pr). rewrite is_pending_testbit by lia.
    destruct (Z.testbit (p_pending_signals pr) (Z.of_nat k)) eqn:Hbit.
    + rewrite Hh. cbn [Z.eqb negb]. rewrite !bind_upd_proc, procs_update_twice.
      erewrite (IH (S k)); [| lia | cbn; rewrite list_lookup_alter_eq, Hpr; reflexivity | exact Hh | |].
      * rewrite procs_update_twice. apply ret_world. upd_eq. apply list_alter_ext; [| done].
        intros x Hx. assert (x = pr) as -> by congruence. unfold default_action. cbn.
        assert (p_pending_signals pr <> 0) as Hnz%Z.eqb_neq by (intros Hz; by rewrite Hz, Z.bits_0 in Hbit).
        rewrite Hnz. by case_match.
      * apply s32_range.
      * intros i Hi. cbn. rewrite clear_pending_testbit by lia.
        destruct (Z.eqb_spec i (Z.of_nat k)); [by rewrite andb_false_r | by rewrite Hb by lia].
    + apply (IH (S k) s pr); [lia | done | done | done |].
      intros i Hi. destruct (decide (i = Z.of_nat k)) as [-> |]; [done | apply Hb; lia].
Qed.

Lemma deliver_signals_eq s e c p pr :
  running s p c -> k_procs s !! p = Some pr -> p_in_signal_handler pr = 0 ->
  deliver_signals (mkworld s e) = deliver_loop (seq 0 32) p (mkworld (sync s) e).
Proof.
  intros (Hc & Hp & _) Hpr Hin. unfold deliver_signals. kcall (curproc_eq s e c p).
  kcall (get_proc_eq (sync s) e p pr). by rewrite Hin.
Qed.

Lemma sigreturn_eq s e c p pr l :
  running s p c -> k_procs s !! p = Some pr -> tf_page s pr l -> length (p_signal_trapframe pr) = TF_WORDS ->
  sys_sigreturn (mkworld s e) = Ret 0 (mkworld ((sync s)
    <| k_mem ::= <[p_trapframe pr := p_signal_trapframe pr ++ drop TF_WORDS l]> |>
    <| k_procs ::= alter (fun pr => pr <| p_in_signal_handler := 0 |>) p |>) e).
Proof.
  intros (Hc & Hp & _) Hpr Htf Hlen. unfold sys_sigreturn. kcall (curproc_eq s e c p).
  kcall (get_proc_eq (sync s) e p pr). kcall (restore_words_eq (sync s) e pr l). done.
Qed.

(** ** Properties *)

(** C17: A handled signal interrupts the process and [sigreturn] resumes it.  When
    the lowest pending signal has a handler, [deliver_signals] saves the 36 words of
    the trapframe, points [epc] at the handler with the signal number in [a0], clears
    that pending bit and blocks further delivery; and [sys_sigreturn], called in any
    later state of the process in which the saved copy is untouched, puts back every
    one of those words and unblocks delivery. *)
Theorem signal_roundtrip s e c p pr l sg h :
  running s p c -> k_procs s !! p = Some pr -> tf_page s pr l -> p_in_signal_handler pr = 0 ->
  (sg < 32)%nat -> is_pending (p_pending_signals pr) (Z.of_nat sg) = true ->
  (forall j, (j < sg)%nat -> is_pending (p_pending_signals pr) (Z.of_nat j) = false) ->
  p_signal_handlers pr !! sg = Some h -> h <> 0 ->
  exists s1 pr1, deliver_signals (mkworld s e) = Ret tt (mkworld s1 e) /\
    k_procs s1 !! p = Some pr1 /\ p_in_signal_handler pr1 = 1 /\
    p_pending_signals pr1 = clear_pending (Z.of_nat sg) (p_pending_signals pr) /\
    tf_page s1 pr1 (<[3%nat := h]> (<[14%nat := Z.of_nat sg]> l)) /\
    forall s2 e2 c2 pr2 l2, running s2 p c2 -> k_procs s2 !! p = Some pr2 -> tf_page s2 pr2 l2 ->
      p_signal_trapframe pr2 = p_signal_trapframe pr1 ->
      exists s3 pr3, sys_sigreturn (mkworld s2 e2) = Ret 0 (mkworld s3 e2) /\
        k_procs s3 !! p = Some pr3 /\ p_in_signal_handler pr3 = 0 /\
        exists l3, tf_page s3 pr3 l3 /\ take TF_WORDS l3 = take TF_WORDS l.
Proof.
  intros Hr Hpr Htf Hin Hsg Hp Hlow Hh Hnz. pose proof Htf as (Hm & Ha & Hl).
  eexists _, _. split.
  { rewrite (deliver_signals_eq s e c p pr) by done.
    replace 32%nat with (sg + S (31 - sg))%nat by lia. rewrite seq_app. cbn [seq Nat.add].
    rewrite (deliver_skip _ _ (sync s) e p pr);
      [by apply (deliver_handler (sync s) e p pr l sg _ h) | done |].
    apply Forall_forall. intros j Hj%elem_of_seq. apply Hlow. lia. }
  split; [cbn; by rewrite list_lookup_alter_eq, Hpr |]. split; [done |]. split; [done |]. split.
  { split; [cbn; by rewrite lookup_insert_eq |]. split; [done |]. by rewrite !length_insert. }
  cbn. intros s2 e2 c2 pr2 l2 Hr2 Hpr2 Htf2 Hst. pose proof Htf2 as (_ & Ha2 & Hl2). eexists _, _.
  assert (length (p_signal_trapframe pr2) = TF_WORDS) as Hlen
    by (rewrite Hst, length_take; unfold TF_WORDS; lia).
  split; [by apply (sigreturn_eq s2 e2 c2 p pr2 l2) |].
  split; [cbn; by rewrite list_lookup_alter_eq, Hpr2 |]. split; [done |].
  exists (p_signal_trapframe pr2 ++ drop TF_WORDS l2). split.
  - split; [cbn; by rewrite lookup_insert_eq |]. split; [done |].
    rewrite length_app, length_drop, Hlen, Hl2. done.
  - by rewrite take_app_length'.
Qed.

(** A signal without a handler kills: when no handler is installed,
    [deliver_signals] clears every pending signal and sets [killed], and it changes
    nothing when no signal is pending. *)
Theorem unhandled_signals_kill s e c p pr :
  running s p c -> k_procs s !! p = Some pr -> p_in_signal_handler pr = 0 -> unhandled pr ->
  - 2 ^ 31 <= p_pending_signals pr < 2 ^ 31 ->
  exists s', deliver_signals (mkworld s e) = Ret tt (mkworld s' e) /\
    k_mem s' = k_mem s /\
    k_procs s' = alter (fun q => q <| p_pending_signals := 0 |>
       <| p_killed := if p_pending_signals q =? 0 then p_killed q else 1 |>) p (k_procs s).
Proof.
  intros Hr Hpr Hin Hun Hb. eexists. split.
  - rewrite (deliver_signals_eq s e c p pr) by done.
    apply (deliver_default 32 0 (sync s) e p pr); try done. intros i Hi. lia.
  - done.
Qed.

(** C40: [sigreturn] as a system call does not give back the interrupted [a0]:
    [syscall] stores the handler's result 0 there after the trapframe has been
    restored, so code interrupted by a signal resumes with [a0] = 0. *)
Theorem sigreturn_clobbers_a0 s e c p pr l :
  running s p c -> k_procs s !! p = Some pr -> tf_page s pr l -> l !! 21%nat = Some SYS_sigreturn ->
  length (p_signal_trapframe pr) = TF_WORDS ->
  exists s', syscall (mkworld s e) = Ret tt (mkworld s' e) /\
    tf_page s' pr (<[14%nat := 0]> (p_signal_trapframe pr ++ drop TF_WORDS l)).
Proof.
  intros Hr Hpr Htf Ha7 Hlen. pose proof Hr as (Hc & Hp & _). pose proof Htf as (Hm & Ha & Hl).
  assert (length (p_signal_trapframe pr ++ drop TF_WORDS l) = 512%nat) as Hln
    by (rewrite length_app, length_drop, Hlen, Hl; done).
  eexists. split.
  - unfold syscall, trapframe. kcall (curproc_eq s e c p). rewrite bind_assoc.
    kcall (get_proc_eq (sync s) e p pr). krun.
    kcall (read_word_eq (sync s) e _ SYS_sigreturn).
    { change (TF_a 7) with (8 * 21). rewrite (page_word _ _ l) by done. done. }
    change (syscalls (s32 SYS_sigreturn)) with (Some sys_sigreturn). cbv beta iota.
    kcall (sigreturn_eq (sync s) e (sync_cpu c) p pr l).
    rewrite bind_assoc. erewrite bind_ret by (apply get_proc_eq; cbn; rewrite list_lookup_alter_eq, Hpr; reflexivity).
    krun. change (TF_a 0) with (8 * 14).
    apply (tf_write _ e pr (p_signal_trapframe pr ++ drop TF_WORDS l) 14); [| lia].
    split; [cbn; by rewrite lookup_insert_eq | done].
  - split; [cbn; by rewrite lookup_insert_eq |]. split; [done |]. by rewrite length_insert.
Qed.
(** ** Unknown system calls *)
Lemma emits_eq m l l' : emits m l -> l = l' -> emits m l'.
Proof. by intros ? <-. Qed.

Lemma emits_unknown pid nm num :
  bytes256 nm ->
  emits (printf_loop (length unknown_msg) unknown_msg 0 [PInt pid; PStr (Some nm); PInt num])
    (dec (s32 pid) ++ [32] ++ nm ++ str ": unknown sys call " ++ dec (s32 num) ++ [10]).
Proof.
  intros Hb. change (length unknown_msg) with 27%nat. eapply emits_eq.
  - repeat first
      [ apply emits_end; reflexivity
      | eapply emits_pct_d; [reflexivity | reflexivity |]
      | eapply emits_pct_s; [reflexivity | reflexivity | exact Hb |]
      | eapply emits_plain; [cbv; reflexivity | lia | lia | lia |] ].
  - reflexivity.
Qed.

(** A system-call number outside the table is reported on the console with the
    caller's pid and name, and the caller gets -1 in [a0]; nothing else of its
    trapframe changes. *)
Theorem unknown_syscall_fails s e c p pr l a7 :
  running s p c -> c_noff c < 2 ^ 31 - 3 -> k_procs s !! p = Some pr -> tf_page s pr l ->
  l !! 21%nat = Some a7 -> syscalls (s32 a7) = None ->
  u_idle (k_uart s) = true -> k_panicking s = 0 -> k_panicked s = 0 -> lock_free s LkPr ->
  bytes256 (name_str (p_name pr)) ->
  exists s', syscall (mkworld s e) = Ret tt (mkworld s' e) /\
    k_mem s' = <[p_trapframe pr := <[14%nat := 2 ^ 64 - 1]> l]> (k_mem s) /\ k_procs s' = k_procs s /\
    u_out (k_uart s') = u_out (k_uart s) ++ dec (s32 (p_pid pr)) ++ [32] ++ name_str (p_name pr) ++
      str ": unknown sys call " ++ dec (s32 a7) ++ [10].
Proof.
  intros Hr Hn Hpr Htf Ha7 Hnone Hidle Hpn Hpd Hl Hb. pose proof Hr as (Hc & Hp & _).
  pose proof Htf as (Hm & Ha & Hlen). eexists. split.
  - unfold syscall, trapframe. kcall (curproc_eq s e c p). rewrite bind_assoc.
    kcall (get_proc_eq (sync s) e p pr). krun. kcall (read_word_eq (sync s) e _ a7).
    { change (TF_a 7) with (8 * 21). by rewrite (page_word _ _ l) by done. }
    rewrite Hnone. kcall (get_proc_eq (sync s) e p pr).
    kcall (printf_eq (sync s) e (sync_cpu c)). { by apply emits_unknown. }
    change (TF_a 0) with (8 * 14). apply (tf_write _ e pr l 14); [done | lia].
  - split; [done |]. split; [done |]. cbn [u_out k_uart upd emit].
    by rewrite (s32_small (s32 a7)) by apply s32_range.
Qed.

(** ** The clock *)

(** The timer interrupt advances time once per tick of hart 0: [clockintr] adds
    one to [ticks] (modulo 2^32) and makes every process sleeping on it runnable on
    hart 0, leaves both alone on the other harts, and on each hart asks for the next
    interrupt one interval later. *)
Theorem clockintr_ticks s e c :
  cpu_ok s c -> c_noff c < 2 ^ 31 - 2 -> procs_free s (c_proc c) -> lock_free s LkTicks ->
  exists s', clockintr (mkworld s e) = Ret tt (mkworld s' e) /\
    k_ticks s' = (if Nat.eqb (k_hart s) 0 then u32 (k_ticks s + 1) else k_ticks s) /\
    k_procs s' = (if Nat.eqb (k_hart s) 0 then wake_all ChTicks (c_proc c) (k_procs s) else k_procs s) /\
    r_stimecmp (k_csr s') = u64 (r_time (k_csr s) + 1000000) /\ k_locks s' = k_locks s.
Proof.
  intros Hc Hn Hf Hl. pose proof Hc as (Hcl & ? & _). unfold clockintr, cpuid. krun.
  destruct (Nat.eqb (k_hart s) 0); [| by eexists].
  eexists. split.
  - rewrite !bind_assoc. kcall (acquire_eq s e c LkTicks). krun.
    rewrite <- bind_assoc. kcall (wakeup_release s _ e c ChTicks LkTicks). krun. reflexivity.
  - done.
Qed.
End trap.

(** ** Examples *)

(** The running process of [sample] with signal 5 pending and handler [h] for it,
    in a system call with number [a7]. *)
Definition sample_sig_proc (h : Z) : proc :=
  sample_proc <| p_pending_signals := 32 |> <| p_signal_handlers := <[5%nat := h]> (replicate 32 0) |>.
Definition sample_tf (a7 : Z) : list Z := <[21%nat := a7]> (replicate 512 0).
Definition sample_sig (h a7 : Z) : kstate :=
  sample <| k_procs ::= <[3%nat := sample_sig_proc h]> |>
         <| k_mem ::= <[0x80100000 := sample_tf a7]> |>.

Lemma sample_sig_running h a7 : running (sample_sig h a7) 3 sample_cpu.
Proof. split; [exact sample_cpu_ok | split; [done | by vm_compute; lia]]. Qed.
Lemma sample_sig_tf h a7 : tf_page (sample_sig h a7) (sample_sig_proc h) (sample_tf a7).
Proof. split; [cbn; by rewrite lookup_insert_eq | by vm_compute]. Qed.

Lemma signal_roundtrip_witness :
  exists s1 pr1, deliver_signals (mkworld (sample_sig 0x400 0) []) = Ret tt (mkworld s1 []) /\
    k_procs s1 !! 3%nat = Some pr1 /\ p_in_signal_handler pr1 = 1 /\
    p_pending_signals pr1 = clear_pending 5 32 /\
    tf_page s1 pr1 (<[3%nat := 0x400]> (<[14%nat := 5]> (sample_tf 0))) /\
    forall s2 e2 c2 pr2 l2, running s2 3 c2 -> k_procs s2 !! 3%nat = Some pr2 -> tf_page s2 pr2 l2 ->
      p_signal_trapframe pr2 = p_signal_trapframe pr1 ->
      exists s3 pr3, sys_sigreturn (mkworld s2 e2) = Ret 0 (mkworld s3 e2) /\
        k_procs s3 !! 3%nat = Some pr3 /\ p_in_signal_handler pr3 = 0 /\
        exists l3, tf_page s3 pr3 l3 /\ take TF_WORDS l3 = take TF_WORDS (sample_tf 0).
Proof.
  apply (signal_roundtrip (sample_sig 0x400 0) [] sample_cpu 3 (sample_sig_proc 0x400) (sample_tf 0) 5 0x400).
  - apply sample_sig_running.
  - reflexivity.
  - apply sample_sig_tf.
  - reflexivity.
  - lia.
  - by vm_compute.
  - intros j Hj. do 5 (destruct j as [| j]; [by vm_compute |]). lia.
  - reflexivity.
  - done.
Defined.

Lemma unhandled_signals_kill_witness :
  exists s', deliver_signals (mkworld (sample_sig 0 0) []) = Ret tt (mkworld s' []) /\
    k_mem s' = k_mem (sample_sig 0 0) /\
    k_procs s' = alter (fun q => q <| p_pending_signals := 0 |>
       <| p_killed := if p_pending_signals q =? 0 then p_killed q else 1 |>) 3%nat (k_procs (sample_sig 0 0)).
Proof.
  apply (unhandled_signals_kill (sample_sig 0 0) [] sample_cpu 3 (sample_sig_proc 0)).
  - apply sample_sig_running.
  - reflexivity.
  - reflexivity.
  - intros sg. do 32 (destruct sg as [| sg]; [reflexivity |]). reflexivity.
  - by vm_compute.
Defined.

Lemma sigreturn_clobbers_a0_witness :
  exists s', syscall (mkworld (sample_sig 0 SYS_sigreturn) []) = Ret tt (mkworld s' []) /\
    tf_page s' (sample_sig_proc 0) (<[14%nat := 0]> (replicate 36 0 ++ drop TF_WORDS (sample_tf SYS_sigreturn))).
Proof.
  apply (sigreturn_clobbers_a0 (sample_sig 0 SYS_sigreturn) [] sample_cpu 3 (sample_sig_proc 0)
           (sample_tf SYS_sigreturn)).
  - apply sample_sig_running.
  - reflexivity.
  - apply sample_sig_tf.
  - reflexivity.
  - reflexivity.
Defined.

Lemma unknown_syscall_fails_witness :
  exists s', syscall (mkworld (sample_sig 0 99) []) = Ret tt (mkworld s' []) /\
    k_mem s' = <[0x80100000 := <[14%nat := 2 ^ 64 - 1]> (sample_tf 99)]> (k_mem (sample_sig 0 99)) /\
    k_procs s' = k_procs (sample_sig 0 99) /\
    u_out (k_uart s') = [] ++ dec (s32 7) ++ [32] ++ str "sh" ++ str ": unknown sys call " ++ dec (s32 99) ++ [10].
Proof.
  apply (unknown_syscall_fails (sample_sig 0 99) [] sample_cpu 3 (sample_sig_proc 0) (sample_tf 99) 99);
    try reflexivity.
  - apply sample_sig_running.
  - apply sample_sig_tf.
  - apply lock_free_dec. by vm_compute.
  - repeat constructor; vm_compute; done.
Defined.

Lemma clockintr_ticks_witness :
  exists s', clockintr (mkworld sample []) = Ret tt (mkworld s' []) /\
    k_ticks s' = 101 /\ k_procs s' = wake_all ChTicks (Some 3%nat) (k_procs sample) /\
    r_stimecmp (k_csr s') = 1000000 /\ k_locks s' = k_locks sample.
Proof.
  apply (clockintr_ticks sample [] sample_cpu).
  - exact sample_cpu_ok.
  - by vm_compute.
  - apply sample_procs_free.
  - apply lock_free_dec. by vm_compute.
Defined.
