(* ===== verification/Boot.v ===== *)
(** * Booting ([kernel/start.c], [kernel/main.c], [kernel/riscv.h])

    [start] runs in machine mode on every hart and enters [main] in supervisor
    mode; [main] initialises the kernel on hart 0 and lets the other harts join.  With
    it come the routines that program the devices: [uartinit], [consoleinit],
    [plicinit], [plicinithart] and [virtio_disk_init].  The devices and the hardware
    registers are parameters. *)
From S2P Require Import Prelude Kstate Spinlock Mem Sample Kalloc Sched Vm Printf Sleeplock Virtio Bio Disk VirtioRw Log Commit Recovery Fs File Proc Trap.
Local Open Scope Z_scope.

(** ** Machine mode

    A control and status register keeps of a value what the hart supports: [legal]. *)
Inductive csrid : Type :=
| Mstatus | Mepc | Satp | Medeleg | Mideleg | Sie | Mie | Menvcfg | Mcounteren | Pmpaddr0 | Pmpcfg0 | Stimecmp.
#[export] Instance csrid_eq_dec : EqDecision csrid.
Proof. solve_decision. Defined.

Inductive privilege : Type := UMode | SMode | MMode.

Record hart : Type := mkhart {
  h_csr : csrid -> Z;
  h_time : Z;
  h_hartid : Z;
  h_tp : Z;
  h_pc : Z;
  h_priv : privilege
}.
Definition eta_hart (r : hart) : hart :=
  mkhart (h_csr r) (h_time r) (h_hartid r) (h_tp r) (h_pc r) (h_priv r).
#[export] Hint Extern 0 (@Setter hart _ ?f) => derive_setter eta_hart f : typeclass_instances.

Definition HM (A : Type) : Type := M hart A.

Class Csrs : Type := legal : csrid -> Z -> Z.

Module Start.
Section start.
Context `{Csrs} (main_addr : Z).

Definition csrr (c : csrid) : HM Z := gets (fun h => h_csr h c).
Definition csrw (c : csrid) (x : Z) : HM unit :=
  modify (fun h => h <| h_csr ::= fun f c' => if decide (c' = c) then legal c (u64 x) else f c' |>).

Definition r_mhartid : HM Z := gets h_hartid.
Definition r_time : HM Z := gets h_time.
Definition r_mstatus : HM Z := csrr Mstatus.
Definition w_mstatus (x : Z) : HM unit := csrw Mstatus x.
Definition w_mepc (x : Z) : HM unit := csrw Mepc x.
Definition w_satp (x : Z) : HM unit := csrw Satp x.
Definition w_medeleg (x : Z) : HM unit := csrw Medeleg x.
Definition w_mideleg (x : Z) : HM unit := csrw Mideleg x.
Definition r_sie : HM Z := csrr Sie.
Definition w_sie (x : Z) : HM unit := csrw Sie x.
Definition r_mie : HM Z := csrr Mie.
Definition w_mie (x : Z) : HM unit := csrw Mie x.
Definition r_menvcfg : HM Z := csrr Menvcfg.
Definition w_menvcfg (x : Z) : HM unit := csrw Menvcfg x.
Definition r_mcounteren : HM Z := csrr Mcounteren.
Definition w_mcounteren (x : Z) : HM unit := csrw Mcounteren x.
Definition w_pmpaddr0 (x : Z) : HM unit := csrw Pmpaddr0 x.
Definition w_pmpcfg0 (x : Z) : HM unit := csrw Pmpcfg0 x.
Definition w_stimecmp (x : Z) : HM unit := csrw Stimecmp x.
Definition w_tp (x : Z) : HM unit := modify (fun h => h <| h_tp := u64 x |>).

Definition MSTATUS_MPP_MASK : Z := Z.shiftl 3 11.
Definition MSTATUS_MPP_S : Z := Z.shiftl 1 11.
Definition SIE_SEIE : Z := Z.shiftl 1 9.
Definition SIE_STIE : Z := Z.shiftl 1 5.
Definition MIE_STIE : Z := Z.shiftl 1 5.

(** The previous privilege recorded in [mstatus]. *)
Definition mpp (x : Z) : privilege :=
  let v := Z.land (Z.shiftr x 11) 3 in
  if v =? 3 then MMode else if v =? 1 then SMode else UMode.

(** The bit of [mstatus] that [mret] clears when it leaves machine mode ([MPRV]). *)
Definition mprv (to : privilege) : Z :=
  match to with
  | MMode => 0
  | _ => Z.shiftl 1 17
  end.

(** The instruction [mret]: [MIE] gets [MPIE], which is set; [MPP] becomes [UMode]; [MPRV]
    is cleared unless the hart stays in machine mode. *)
Definition mret : HM unit :=
  let! x := csrr Mstatus in
  let! pc := csrr Mepc in
  modify (fun h => h <| h_priv := mpp x |>) ;;;
  modify (fun h => h <| h_pc := pc |>) ;;;
  csrw Mstatus (Z.lor (Z.land x (Z.lnot (Z.lor (Z.lor MSTATUS_MPP_MASK 8) (mprv (mpp x)))))
    (Z.lor (Z.shiftl (Z.land (Z.shiftr x 7) 1) 3) 128)).

Definition timerinit : HM unit :=
  let! mie := r_mie in
  w_mie (Z.lor mie MIE_STIE) ;;;
  let! cfg := r_menvcfg in
  w_menvcfg (Z.lor cfg (Z.shiftl 1 63)) ;;;
  let! en := r_mcounteren in
  w_mcounteren (Z.lor en 2) ;;;
  let! t := r_time in
  w_stimecmp (t + 1000000).

Definition start : HM unit :=
  let! x := r_mstatus in
  let x := Z.land x (Z.lnot MSTATUS_MPP_MASK) in
  let x := Z.lor x MSTATUS_MPP_S in
  w_mstatus x ;;;
  w_mepc main_addr ;;;
  w_satp 0 ;;;
  w_medeleg 0xffff ;;;
  w_mideleg 0xffff ;;;
  let! sie := r_sie in
  w_sie (Z.lor (Z.lor sie SIE_SEIE) SIE_STIE) ;;;
  w_pmpaddr0 0x3fffffffffffff ;;;
  w_pmpcfg0 0xf ;;;
  timerinit ;;;
  let! id := r_mhartid in
  w_tp (s32 id) ;;;
  mret.
End start.
End Start.

(** ** Devices and the kernel *)
Section boot.
Context `{Image} `{DiskDriver} `{Device}.

(** *** The UART and the console *)
Definition uartinit : K unit :=
  write_reg (UART0 + 1) 0x00 ;;;
  write_reg (UART0 + 3) (Z.shiftl 1 7) ;;;
  write_reg (UART0 + 0) 0x03 ;;;
  write_reg (UART0 + 1) 0x00 ;;;
  write_reg (UART0 + 3) (Z.shiftl 3 0) ;;;
  write_reg (UART0 + 2) (Z.lor (Z.shiftl 1 0) (Z.shiftl 3 1)) ;;;
  write_reg (UART0 + 1) (Z.lor (Z.shiftl 1 1) (Z.shiftl 1 0)) ;;;
  initlock LkTx "uart".

(** The entries of [devsw] are [devsw_read] and [devsw_write]. *)
Definition consoleinit : K unit :=
  initlock LkCons "cons" ;;;
  uartinit.

(** *** The interrupt controller *)
Definition PLIC_SENABLE (hart : Z) : Z := PLIC + 0x2080 + hart * 0x100.
Definition PLIC_SPRIORITY (hart : Z) : Z := PLIC + 0x201000 + hart * 0x2000.
Definition plicinit : K unit :=
  write_reg (PLIC + UART0_IRQ * 4) 1 ;;;
  write_reg (PLIC + VIRTIO0_IRQ * 4) 1.
Definition plicinithart : K unit :=
  let! hart := cpuid in
  write_reg (PLIC_SENABLE (Z.of_nat hart)) (Z.lor (Z.shiftl 1 UART0_IRQ) (Z.shiftl 1 VIRTIO0_IRQ)) ;;;
  write_reg (PLIC_SPRIORITY (Z.of_nat hart)) 0.

(** *** The disk *)
(** [features &= ~(1 << f)] for the features the driver does not want. *)
Definition without (f features : Z) : Z := Z.land features (Z.lnot (Z.shiftl 1 f)).
Definition driver_features (features : Z) : Z :=
  without VIRTIO_RING_F_INDIRECT_DESC (without VIRTIO_RING_F_EVENT_IDX (without VIRTIO_F_ANY_LAYOUT
    (without VIRTIO_BLK_F_MQ (without VIRTIO_BLK_F_CONFIG_WCE (without VIRTIO_BLK_F_SCSI
      (without VIRTIO_BLK_F_RO features)))))).

(** The registers are read one after the other until one is wrong. *)
Definition found_disk : K bool :=
  let! magic := read_reg (R VIRTIO_MMIO_MAGIC_VALUE) in
  if negb (magic =? 0x74726976) then ret false else
  let! version := read_reg (R VIRTIO_MMIO_VERSION) in
  if negb (version =? 2) then ret false else
  let! id := read_reg (R VIRTIO_MMIO_DEVICE_ID) in
  if negb (id =? 2) then ret false else
  let! vendor := read_reg (R VIRTIO_MMIO_VENDOR_ID) in
  ret (vendor =? 0x554d4551).

(** Zeroed queue memory: the descriptor table and the two rings. *)
Definition zero_queue (d : vdisk) : vdisk :=
  d <| vd_desc := replicate NUM (mkvirtq_desc VNull 0 0 0) |>
    <| vd_avail_ring := replicate NUM 0 |> <| vd_avail_idx := 0 |>
    <| vd_used_ring := replicate NUM 0 |> <| vd_used_dev := 0 |>.

Definition queue_init (status : Z) : K unit :=
  write_reg (R VIRTIO_MMIO_QUEUE_SEL) 0 ;;;
  let! ready := read_reg (R VIRTIO_MMIO_QUEUE_READY) in
  if istrue ready then panic "virtio disk should not be ready" else
  let! max := read_reg (R VIRTIO_MMIO_QUEUE_NUM_MAX) in
  if max =? 0 then panic "virtio disk has no queue 0" else
  if max <? Z.of_nat NUM then panic "virtio disk max queue too short" else
  let! desc := kalloc in
  let! avail := kalloc in
  let! used := kalloc in
  if (desc =? 0) || (avail =? 0) || (used =? 0) then panic "virtio disk kalloc" else
  memset_page desc 0 ;;;
  memset_page avail 0 ;;;
  memset_page used 0 ;;;
  upd_vdisk zero_queue ;;;
  write_reg (R VIRTIO_MMIO_QUEUE_NUM) (Z.of_nat NUM) ;;;
  write_reg (R VIRTIO_MMIO_QUEUE_DESC_LOW) desc ;;;
  write_reg (R VIRTIO_MMIO_QUEUE_DESC_HIGH) (Z.shiftr desc 32) ;;;
  write_reg (R VIRTIO_MMIO_DRIVER_DESC_LOW) avail ;;;
  write_reg (R VIRTIO_MMIO_DRIVER_DESC_HIGH) (Z.shiftr avail 32) ;;;
  write_reg (R VIRTIO_MMIO_DEVICE_DESC_LOW) used ;;;
  write_reg (R VIRTIO_MMIO_DEVICE_DESC_HIGH) (Z.shiftr used 32) ;;;
  write_reg (R VIRTIO_MMIO_QUEUE_READY) 0x1 ;;;
  foreach (seq 0 NUM) (fun i => upd_vdisk (fun d => d <| vd_free ::= <[i := 1]> |>)) ;;;
  write_reg (R VIRTIO_MMIO_STATUS) (Z.lor status VIRTIO_CONFIG_S_DRIVER_OK).

Definition virtio_disk_init : K unit :=
  let status := 0 in
  initlock LkDisk "virtio_disk" ;;;
  let! found := found_disk in
  if negb found then panic "could not find virtio disk" else
  write_reg (R VIRTIO_MMIO_STATUS) status ;;;
  let status := Z.lor status VIRTIO_CONFIG_S_ACKNOWLEDGE in
  write_reg (R VIRTIO_MMIO_STATUS) status ;;;
  let status := Z.lor status VIRTIO_CONFIG_S_DRIVER in
  write_reg (R VIRTIO_MMIO_STATUS) status ;;;
  let! features := read_reg (R VIRTIO_MMIO_DEVICE_FEATURES) in
  write_reg (R VIRTIO_MMIO_DRIVER_FEATURES) (driver_features features) ;;;
  let status := Z.lor status VIRTIO_CONFIG_S_FEATURES_OK in
  write_reg (R VIRTIO_MMIO_STATUS) status ;;;
  let! status := read_reg (R VIRTIO_MMIO_STATUS) in
  if negb (istrue (Z.land status VIRTIO_CONFIG_S_FEATURES_OK)) then panic "virtio disk FEATURES_OK unset" else
  queue_init status.

(** *** [main] *)
(** [for(;;)] of [scheduler]; a pass that ran nothing waits for an interrupt ([wfi]), so
    every iteration lets the rest of the system run at least once. *)
Fixpoint scheduler_loop (fuel : nat) : K unit :=
  match fuel with
  | O => hang
  | S n =>
      let! found := scheduler_pass in
      (if (found : bool) then ret tt else env_step) ;;;
      scheduler_loop n
  end.
Definition scheduler : K unit :=
  upd_mycpu (fun c => c <| c_proc := None |>) ;;;
  (fun w => scheduler_loop (S (length (w_env w))) w).

(** [while(started == 0);]. *)
Fixpoint wait_started (fuel : nat) : K unit :=
  match fuel with
  | O => hang
  | S n =>
      let! st := get k_started in
      if st =? 0 then env_step ;;; wait_started n else ret tt
  end.

Definition main_hart0 : K unit :=
  consoleinit ;;;
  printfinit ;;;
  printf [10] [] ;;;
  printf (str "xv6 kernel is booting" ++ [10]) [] ;;;
  printf [10] [] ;;;
  kinit ;;;
  kvminit ;;;
  kvminithart ;;;
  procinit ;;;
  trapinit ;;;
  trapinithart ;;;
  plicinit ;;;
  plicinithart ;;;
  binit ;;;
  iinit ;;;
  fileinit ;;;
  virtio_disk_init ;;;
  userinit ;;;
  put (fun s => s <| k_started := 1 |>).
Definition main_other (hart : nat) : K unit :=
  (fun w => wait_started (S (length (w_env w))) w) ;;;
  printf (str "hart %d starting" ++ [10]) [PInt (Z.of_nat hart)] ;;;
  kvminithart ;;;
  trapinithart ;;;
  plicinithart.
Definition main : K unit :=
  let! hart := cpuid in
  (if Nat.eqb hart 0 then main_hart0 else main_other hart) ;;;
  scheduler.
End boot.

(** ** Entering supervisor mode *)
Import Start.

(** What a hart with supervisor mode guarantees of its registers. *)
Class CsrLaws `{Csrs} : Prop := {
  legal_mpp x : mpp x = SMode -> mpp (legal Mstatus x) = SMode;
  legal_mepc x : x mod 4 = 0 -> 0 <= x < 2 ^ 64 -> legal Mepc x = x;
  legal_satp : legal Satp 0 = 0
}.

Lemma mpp_bits x : mpp x = SMode <-> Z.testbit x 11 = true /\ Z.testbit x 12 = false.
Proof.
  unfold mpp.
  assert (Z.land (Z.shiftr x 11) 3 = Z.b2z (Z.testbit x 11) + 2 * Z.b2z (Z.testbit x 12)) as ->.
  { change 3 with (Z.ones 2). rewrite Z.land_ones, !Z.testbit_spec', Z.shiftr_div_pow2 by lia.
    change (2 ^ 12) with (2 ^ 11 * 2). rewrite <- Z.div_div by lia. set (y := x / 2 ^ 11).
    change (2 ^ 2) with (2 * 2). by rewrite Z.rem_mul_r by lia. }
  destruct (Z.testbit x 11), (Z.testbit x 12); cbn; intuition discriminate.
Qed.

Lemma u64_testbit x i : 0 <= i < 64 -> Z.testbit (u64 x) i = Z.testbit x i.
Proof. intros Hi. unfold u64. by rewrite Z.mod_pow2_bits_low by lia. Qed.

Lemma start_mpp x : mpp (u64 (Z.lor (Z.land x (Z.lnot MSTATUS_MPP_MASK)) MSTATUS_MPP_S)) = SMode.
Proof.
  apply mpp_bits. rewrite !u64_testbit by lia. unfold MSTATUS_MPP_MASK, MSTATUS_MPP_S.
  rewrite !Z.lor_spec, !Z.land_spec, !Z.lnot_spec by lia. split; [by rewrite orb_true_r |].
  change (Z.testbit (Z.shiftl 3 11) 12) with true. by rewrite andb_false_r.
Qed.

(** C30: [start] takes a hart to [main] in supervisor mode: with paging off, every
    interrupt and exception delegated that can be, timer and external interrupts
    enabled and nothing disabled, a timer interrupt requested a million cycles from
    now, and the hart's number in [tp]. *)
Theorem start_enters_main `{CsrLaws} main_addr h :
  main_addr mod 4 = 0 -> 0 <= main_addr < 2 ^ 64 -> 0 <= h_hartid h < 2 ^ 31 ->
  exists h', start main_addr h = Ret tt h' /\
    h_priv h' = SMode /\ h_pc h' = main_addr /\ h_tp h' = h_hartid h /\ h_csr h' Satp = 0 /\
    h_csr h' Medeleg = legal Medeleg 0xffff /\ h_csr h' Mideleg = legal Mideleg 0xffff /\
    h_csr h' Sie = legal Sie (u64 (Z.lor (h_csr h Sie) 0x220)) /\
    h_csr h' Stimecmp = legal Stimecmp (u64 (h_time h + 1000000)).
Proof.
  intros Hal Hr Hid. eexists. split; [unfold start; reflexivity |].
  split; [exact (legal_mpp _ (start_mpp (h_csr h Mstatus))) |].
  split; [change (legal Mepc (u64 main_addr) = main_addr); rewrite u64_small by done; by apply legal_mepc |].
  split; [change (u64 (s32 (h_hartid h)) = h_hartid h); rewrite s32_small by lia; apply u64_small; lia |].
  split; [exact legal_satp |]. split; [done |]. split; [done |]. split; [| done].
  change (legal Sie (u64 (Z.lor (Z.lor (h_csr h Sie) SIE_SEIE) SIE_STIE)) = legal Sie (u64 (Z.lor (h_csr h Sie) 0x220))).
  by rewrite <- Z.lor_assoc.
Qed.

(** ** The kernel does not return from [main] *)
Lemma scheduler_loop_stays n : forall w w', scheduler_loop n w <> Ret tt w'.
Proof.
  induction n as [| n IH]; intros w w'; [done |]. cbn [scheduler_loop].
  intros (found & w1 & _ & Hb)%bind_inv. apply bind_inv in Hb as (u & w2 & _ & Hl). by apply IH in Hl.
Qed.
Theorem main_never_returns `{Image} `{DiskDriver} `{Device} w w' : main w <> Ret tt w'.
Proof.
  unfold main. intros (hart & w1 & _ & Hb)%bind_inv. apply bind_inv in Hb as (u & w2 & _ & Hs).
  unfold scheduler in Hs. apply bind_inv in Hs as (u' & w3 & _ & Hl). by apply scheduler_loop_stays in Hl.
Qed.

(** ** The disk driver is ready *)

(** What a virtio block device promises: its identification, that it accepts a subset
    of its features, that its queue is not ready after a reset until told so, and the
    size of its queue. *)
Class VirtioLaws `{Device} : Prop := {
  vl_magic s : u32 (reg_value s (R VIRTIO_MMIO_MAGIC_VALUE)) = 0x74726976;
  vl_version s : u32 (reg_value s (R VIRTIO_MMIO_VERSION)) = 2;
  vl_id s : u32 (reg_value s (R VIRTIO_MMIO_DEVICE_ID)) = 2;
  vl_vendor s : u32 (reg_value s (R VIRTIO_MMIO_VENDOR_ID)) = 0x554d4551;
  vl_status s v h : k_mmio s = (R VIRTIO_MMIO_STATUS, v) :: h -> 0 <= v < 2 ^ 32 ->
    u32 (reg_value s (R VIRTIO_MMIO_STATUS)) = v;
  vl_ready s pre h : k_mmio s = pre ++ (R VIRTIO_MMIO_STATUS, 0) :: h -> R VIRTIO_MMIO_QUEUE_READY ∉ pre.*1 ->
    u32 (reg_value s (R VIRTIO_MMIO_QUEUE_READY)) = 0;
  vl_max s : 8 <= u32 (reg_value s (R VIRTIO_MMIO_QUEUE_NUM_MAX))
}.

(** The registers written up to the feature negotiation, and after it, last first. *)
Definition negotiated (features : Z) : list (Z * Z) :=
  [(R VIRTIO_MMIO_STATUS, 11); (R VIRTIO_MMIO_DRIVER_FEATURES, u32 (driver_features features));
   (R VIRTIO_MMIO_STATUS, 3); (R VIRTIO_MMIO_STATUS, 1); (R VIRTIO_MMIO_STATUS, 0)].
Definition queue_writes (desc avail used : Z) : list (Z * Z) :=
  [(R VIRTIO_MMIO_STATUS, 15); (R VIRTIO_MMIO_QUEUE_READY, 1);
   (R VIRTIO_MMIO_DEVICE_DESC_HIGH, u32 (Z.shiftr used 32)); (R VIRTIO_MMIO_DEVICE_DESC_LOW, u32 used);
   (R VIRTIO_MMIO_DRIVER_DESC_HIGH, u32 (Z.shiftr avail 32)); (R VIRTIO_MMIO_DRIVER_DESC_LOW, u32 avail);
   (R VIRTIO_MMIO_QUEUE_DESC_HIGH, u32 (Z.shiftr desc 32)); (R VIRTIO_MMIO_QUEUE_DESC_LOW, u32 desc);
   (R VIRTIO_MMIO_QUEUE_NUM, 8); (R VIRTIO_MMIO_QUEUE_SEL, 0)].

Section virtio_init.
Context `{Image} `{VirtioLaws}.

Lemma found_disk_eq s e : found_disk (mkworld s e) = Ret true (mkworld s e).
Proof.
  unfold found_disk, read_reg. rewrite bind_get, vl_magic. cbn [Z.eqb Pos.eqb negb].
  rewrite bind_get, vl_version. cbn [Z.eqb Pos.eqb negb]. rewrite bind_get, vl_id. cbn [Z.eqb Pos.eqb negb].
  rewrite bind_get, vl_vendor. done.
Qed.

(** The features the device offers when it is asked. *)
Definition offered (s : kstate) : Z :=
  u32 (reg_value (s <| k_locks ::= <[LkDisk := mkspinlock false "virtio_disk" None]> |>
    <| k_mmio ::= fun h => (R VIRTIO_MMIO_STATUS, 3) :: (R VIRTIO_MMIO_STATUS, 1) :: (R VIRTIO_MMIO_STATUS, 0) :: h |>)
    (R VIRTIO_MMIO_DEVICE_FEATURES)).
Definition negotiating (s : kstate) : kstate :=
  s <| k_locks ::= <[LkDisk := mkspinlock false "virtio_disk" None]> |>
    <| k_mmio ::= fun h => negotiated (offered s) ++ h |>.

Lemma write_reg_eq a v s e : write_reg a v (mkworld s e) = Ret tt (mkworld (s <| k_mmio ::= fun l => (a, u32 v) :: l |>) e).
Proof. done. Qed.
Lemma read_reg_eq a s e : read_reg a (mkworld s e) = Ret (u32 (reg_value s a)) (mkworld s e).
Proof. done. Qed.

Lemma virtio_negotiate s e : virtio_disk_init (mkworld s e) = queue_init 11 (mkworld (negotiating s) e).
Proof.
  unfold virtio_disk_init. cbv zeta.
  change (Z.lor 0 VIRTIO_CONFIG_S_ACKNOWLEDGE) with 1. change (Z.lor 1 VIRTIO_CONFIG_S_DRIVER) with 3.
  change (Z.lor 3 VIRTIO_CONFIG_S_FEATURES_OK) with 11.
  unfold initlock, set_lock. rewrite bind_put, (bind_ret _ _ _ _ _ (found_disk_eq _ e)). cbn [negb].
  do 3 (erewrite bind_ret by apply write_reg_eq). erewrite bind_ret by apply read_reg_eq.
  do 2 (erewrite bind_ret by apply write_reg_eq). erewrite bind_ret by apply read_reg_eq.
  match goal with |- _ (mkworld ?s1 e) = _ => assert (s1 = negotiating s) as -> by reflexivity end.
  assert (u32 (reg_value (negotiating s) (R VIRTIO_MMIO_STATUS)) = 11) as -> by (by eapply vl_status).
  reflexivity.
Qed.

Lemma upd_vdisk_seq (h : nat -> vdisk -> vdisk) l : forall s e,
  foreach l (fun i => upd_vdisk (h i)) (mkworld s e) =
    Ret tt (mkworld (s <| k_vdisk ::= fun d => foldl (fun d i => h i d) d l |>) e).
Proof.
  induction l as [| i l IH]; intros s e.
  { cbn. apply ret_world. by destruct s. }
  cbn [foreach foldl]. unfold upd_vdisk at 1. rewrite bind_put. exact (IH (s <| k_vdisk ::= h i |>) e).
Qed.
Lemma mark_free d : length (vd_free d) = NUM ->
  foldl (fun d i => d <| vd_free ::= <[i := 1]> |>) d (seq 0 NUM) = d <| vd_free := replicate NUM 1 |>.
Proof.
  intros Hl. destruct d as [d0 d1 d2 d3 d4 fr d6 d7 d8 d9]. cbn in Hl.
  destruct fr as [| f0 [| f1 [| f2 [| f3 [| f4 [| f5 [| f6 [| f7 [|]]]]]]]]]; try done.
Qed.

(** A state whose allocator has the pages [l] to hand out. *)
Definition allocating (s : kstate) (l : list Z) : Prop :=
  (exists c, cpu_ok s c) /\ lock_free s LkKmem /\ free_pages s l.
(** [s'] differs from [s] in the allocator and the running hart's interrupt state only. *)
Definition alloc_only (s s' : kstate) : Prop :=
  k_mmio s' = k_mmio s /\ k_vdisk s' = k_vdisk s /\ k_locks s' = k_locks s.
Lemma alloc_step s e p l : allocating s (p :: l) ->
  exists s', kalloc (mkworld s e) = Ret p (mkworld s' e) /\ allocating s' l /\ alloc_only s s' /\ p <> 0.
Proof.
  intros ([c Hc] & Hl & Hf). destruct (kalloc_pop s e c p l Hc Hl Hf) as (s' & Hk & Hf' & _ & Hs').
  exists s'. split; [done |]. repeat split; try apply Hf'; try (by rewrite Hs').
  - exists (sync_cpu c). rewrite Hs'. exact (cpu_ok_sync s c Hc).
  - destruct Hf as [(_ & Ha & _) _]. by apply alloc_page_pos.
Qed.
Lemma alloc_only_trans s1 s2 s3 : alloc_only s1 s2 -> alloc_only s2 s3 -> alloc_only s1 s3.
Proof. unfold alloc_only. intuition congruence. Qed.

(** Writes to registers, on a state given by what it changes. *)
Lemma write_reg_set a v s h e :
  write_reg a v (mkworld (s <| k_mmio := h |>) e) = Ret tt (mkworld (s <| k_mmio := (a, u32 v) :: h |>) e).
Proof. done. Qed.
Lemma upd_vdisk_set g s h e :
  upd_vdisk g (mkworld (s <| k_mmio := h |>) e) = Ret tt (mkworld (s <| k_vdisk ::= g |> <| k_mmio := h |>) e).
Proof. done. Qed.
Lemma vdisk_collapse s g h l :
  s <| k_vdisk ::= g |> <| k_mmio := l |> <| k_vdisk ::= h |> = s <| k_vdisk := h (g (k_vdisk s)) |> <| k_mmio := l |>.
Proof. done. Qed.
Lemma mmio_set s : s = s <| k_mmio := k_mmio s |>.
Proof. by destruct s. Qed.

(** The second half of [queue_init]: from the allocated queue to [DRIVER_OK]. *)
Lemma queue_told s e desc avail used : length (vd_free (k_vdisk s)) = NUM ->
  (upd_vdisk zero_queue ;;;
   write_reg (R VIRTIO_MMIO_QUEUE_NUM) (Z.of_nat NUM) ;;;
   write_reg (R VIRTIO_MMIO_QUEUE_DESC_LOW) desc ;;;
   write_reg (R VIRTIO_MMIO_QUEUE_DESC_HIGH) (Z.shiftr desc 32) ;;;
   write_reg (R VIRTIO_MMIO_DRIVER_DESC_LOW) avail ;;;
   write_reg (R VIRTIO_MMIO_DRIVER_DESC_HIGH) (Z.shiftr avail 32) ;;;
   write_reg (R VIRTIO_MMIO_DEVICE_DESC_LOW) used ;;;
   write_reg (R VIRTIO_MMIO_DEVICE_DESC_HIGH) (Z.shiftr used 32) ;;;
   write_reg (R VIRTIO_MMIO_QUEUE_READY) 0x1 ;;;
   foreach (seq 0 NUM) (fun i => upd_vdisk (fun d => d <| vd_free ::= <[i := 1]> |>)) ;;;
   write_reg (R VIRTIO_MMIO_STATUS) (Z.lor 11 VIRTIO_CONFIG_S_DRIVER_OK)) (mkworld s e) =
  Ret tt (mkworld (s <| k_vdisk := (zero_queue (k_vdisk s)) <| vd_free := replicate NUM 1 |> |>
    <| k_mmio := removelast (queue_writes desc avail used) ++ k_mmio s |>) e).
Proof.
  intros Hlen. rewrite (mmio_set s) at 1. erewrite bind_ret by apply upd_vdisk_set.
  do 8 (erewrite bind_ret by apply write_reg_set).
  erewrite bind_ret by apply upd_vdisk_seq.
  etransitivity; [| exact (write_reg_set (R VIRTIO_MMIO_STATUS) 15 _ (tail (removelast (queue_writes desc avail used)) ++ k_mmio s) e)].
  apply (f_equal (fun x => write_reg _ _ (mkworld x e))).
  rewrite vdisk_collapse, mark_free by done. reflexivity.
Qed.

(** C31: [virtio_disk_init] on a device that answers returns with the queue set up in three
    pages of its own, zeroed, with all descriptors free, the lock free, and the device
    told, in this order: reset, acknowledge, driver, the features wanted of those
    offered, the queue's size and addresses, ready. *)
Theorem virtio_init_ready s e desc avail used l :
  allocating s (desc :: avail :: used :: l) -> length (vd_free (k_vdisk s)) = NUM ->
  exists s', virtio_disk_init (mkworld s e) = Ret tt (mkworld s' e) /\
    k_mmio s' = queue_writes desc avail used ++ negotiated (offered s) ++ k_mmio s /\
    free_pages s' l /\ lock_free s' LkDisk /\
    k_mem s' !! desc = Some (fill_page 0) /\ k_mem s' !! avail = Some (fill_page 0) /\ k_mem s' !! used = Some (fill_page 0) /\
    k_vdisk s' = (zero_queue (k_vdisk s)) <| vd_free := replicate NUM 1 |>.
Proof.
  intros (Hc & Hl & Hf) Hlen. rewrite virtio_negotiate.
  set (s1 := (negotiating s) <| k_mmio ::= fun h => (R VIRTIO_MMIO_QUEUE_SEL, u32 0) :: h |>).
  assert (Hl1 : lock_free s1 LkKmem) by (destruct Hl as (k & Hk & ?); exists k; cbn; by rewrite lookup_insert_ne).
  destruct (alloc_step s1 e desc (avail :: used :: l)) as (s2 & H2 & Ha2 & Ho2 & Hp2); [done |].
  destruct (alloc_step s2 e avail (used :: l)) as (s3 & H3 & Ha3 & Ho3 & Hp3); [done |].
  destruct (alloc_step s3 e used l) as (s4 & H4 & Ha4 & Ho4 & Hp4); [done |].
  destruct (alloc_only_trans _ _ _ Ho2 (alloc_only_trans _ _ _ Ho3 Ho4)) as (Hmm & Hvd & Hlk).
  unfold queue_init. erewrite bind_ret by apply write_reg_eq. fold s1.
  erewrite bind_ret by apply read_reg_eq.
  assert (u32 (reg_value s1 (R VIRTIO_MMIO_QUEUE_READY)) = 0) as ->.
  { apply (vl_ready s1 [(R VIRTIO_MMIO_QUEUE_SEL, 0); (R VIRTIO_MMIO_STATUS, 11);
      (R VIRTIO_MMIO_DRIVER_FEATURES, u32 (driver_features (offered s))); (R VIRTIO_MMIO_STATUS, 3); (R VIRTIO_MMIO_STATUS, 1)] (k_mmio s)); [done |].
    cbn. apply (bool_decide_unpack _). by vm_compute. }
  change (istrue 0) with false. cbn iota. erewrite bind_ret by apply read_reg_eq.
  pose proof (vl_max s1) as Hmax. rewrite (proj2 (Z.eqb_neq _ 0)) by lia.
  rewrite (proj2 (Z.ltb_ge _ _)) by exact Hmax.
  rewrite (bind_ret _ _ _ _ _ H2), (bind_ret _ _ _ _ _ H3), (bind_ret _ _ _ _ _ H4).
  rewrite !(proj2 (Z.eqb_neq _ 0)) by done. cbn [orb]. unfold memset_page. rewrite !bind_put.
  match goal with |- exists _, _ (mkworld ?x e) = _ /\ _ => set (s5 := x) end.
  exists (s5 <| k_vdisk := (zero_queue (k_vdisk s5)) <| vd_free := replicate NUM 1 |> |>
             <| k_mmio := (removelast (queue_writes desc avail used)) ++ k_mmio s5 |>).
  split; [apply (queue_told s5 e desc avail used); by change (k_vdisk s5) with (k_vdisk s4); rewrite Hvd |].
  destruct Ha4 as (_ & _ & [Hch Hnd]). split; [change (k_mmio s5) with (k_mmio s4); by rewrite Hmm |].
  destruct Hf as [_ Hd]. apply NoDup_cons in Hd as [Hd1 Hd]. apply NoDup_cons in Hd as [Hd2 Hd]. apply NoDup_cons in Hd as [Hd3 _].
  apply not_elem_of_cons in Hd1 as [? [? ?]%not_elem_of_cons]. apply not_elem_of_cons in Hd2 as [? ?].
  split; [split; [| done]; by do 3 (apply free_chain_insert; [| done]) |].
  assert (Hm5 : k_mem s5 = <[used := fill_page 0]> (<[avail := fill_page 0]> (<[desc := fill_page 0]> (k_mem s4)))) by done.
  split; [exists (mkspinlock false "virtio_disk" None); split; [| done] |].
  { change (k_locks s4 !! LkDisk = Some (mkspinlock false "virtio_disk" None)). rewrite Hlk. apply lookup_insert_eq. }
  change (k_mem s5 !! desc = Some (fill_page 0) /\ k_mem s5 !! avail = Some (fill_page 0) /\ k_mem s5 !! used = Some (fill_page 0) /\
    (zero_queue (k_vdisk s4)) <| vd_free := replicate NUM 1 |> = (zero_queue (k_vdisk s)) <| vd_free := replicate NUM 1 |>).
  rewrite Hm5, Hvd. by simplify_map_eq.
Qed.

(** The queue is then ready for [virtio_disk_rw]. *)
Lemma init_queue_idle d : vd_used_idx d = 0 -> length (vd_info_b d) = NUM -> length (vd_info_status d) = NUM ->
  length (vd_ops d) = NUM -> idle_queue ((zero_queue d) <| vd_free := replicate NUM 1 |>).
Proof. intros Hu Hb Hs Ho. repeat split; try done; cbn; lia. Qed.
End virtio_init.

(** ** Examples *)

(** A hart that keeps whatever is written to its registers. *)
Definition plain_csrs : Csrs := fun _ x => x.
Lemma plain_csr_laws : @CsrLaws plain_csrs.
Proof. by split. Qed.

(** A disk with a queue of 1024 entries that remembers its status and its queue. *)
Fixpoint queue_ready (h : list (Z * Z)) : Z :=
  match h with
  | [] => 0
  | (a, v) :: r =>
      if a =? R VIRTIO_MMIO_QUEUE_READY then v
      else if (a =? R VIRTIO_MMIO_STATUS) && (v =? 0) then 0 else queue_ready r
  end.
Fixpoint last_write (h : list (Z * Z)) (a : Z) : Z :=
  match h with
  | [] => 0
  | (b, v) :: r => if b =? a then v else last_write r a
  end.
Definition qemu_disk : Device := fun s a =>
  if a =? R VIRTIO_MMIO_MAGIC_VALUE then 0x74726976 else
  if a =? R VIRTIO_MMIO_VERSION then 2 else
  if a =? R VIRTIO_MMIO_DEVICE_ID then 2 else
  if a =? R VIRTIO_MMIO_VENDOR_ID then 0x554d4551 else
  if a =? R VIRTIO_MMIO_QUEUE_NUM_MAX then 1024 else
  if a =? R VIRTIO_MMIO_DEVICE_FEATURES then 0x31006ed4 else
  if a =? R VIRTIO_MMIO_QUEUE_READY then queue_ready (k_mmio s) else last_write (k_mmio s) a.
Lemma queue_reset pre h : R VIRTIO_MMIO_QUEUE_READY ∉ pre.*1 ->
  queue_ready (pre ++ (R VIRTIO_MMIO_STATUS, 0) :: h) = 0.
Proof.
  induction pre as [| [a v] pre IH]; [done |].
  intros [Hne Hin]%not_elem_of_cons. cbn [app queue_ready]. cbn in Hne.
  rewrite (proj2 (Z.eqb_neq a _)) by congruence. destruct (_ && _); [done | by apply IH].
Qed.
Lemma qemu_disk_laws : @VirtioLaws qemu_disk.
Proof.
  split; try done.
  - intros s v h Hs Hv. change (u32 (last_write (k_mmio s) (R VIRTIO_MMIO_STATUS)) = v). rewrite Hs.
    change (u32 v = v). unfold u32. by rewrite Z.mod_small.
  - intros s pre h Hs Hin. change (u32 (queue_ready (k_mmio s)) = 0). by rewrite Hs, queue_reset.
Qed.

Lemma start_enters_main_witness :
  let h := mkhart (fun _ => 0) 7 2 0 0 MMode in
  exists h', @start plain_csrs 0x80000100 h = Ret tt h' /\
    h_priv h' = SMode /\ h_pc h' = 0x80000100 /\ h_tp h' = 2 /\ h_csr h' Satp = 0 /\
    h_csr h' Medeleg = 0xffff /\ h_csr h' Mideleg = 0xffff /\
    h_csr h' Sie = u64 (Z.lor 0 0x220) /\ h_csr h' Stimecmp = u64 (7 + 1000000).
Proof.
  intros h. apply (@start_enters_main plain_csrs plain_csr_laws 0x80000100 h); vm_compute; repeat split; discriminate.
Defined.

Lemma virtio_init_ready_witness :
  exists s', @virtio_disk_init qemu_disk (mkworld sample []) = Ret tt (mkworld s' []) /\
    k_mmio s' = queue_writes 0x80020000 0x80021000 0x80022000 ++ negotiated (@offered qemu_disk sample) ++ k_mmio sample /\
    free_pages s' (drop 3 sample_free) /\ lock_free s' LkDisk /\
    k_mem s' !! 0x80020000 = Some (fill_page 0) /\ k_mem s' !! 0x80021000 = Some (fill_page 0) /\
    k_mem s' !! 0x80022000 = Some (fill_page 0) /\
    k_vdisk s' = (zero_queue (k_vdisk sample)) <| vd_free := replicate NUM 1 |>.
Proof.
  apply (@virtio_init_ready _ qemu_disk qemu_disk_laws sample [] 0x80020000 0x80021000 0x80022000 (drop 3 sample_free)).
  - split; [exists sample_cpu; exact sample_cpu_ok |]. split; [apply lock_free_dec; by vm_compute | exact sample_free_pages].
  - by vm_compute.
Defined.
