(* ===== verification/User.v ===== *)
(** * User processes

    A user program is a sequential computation that makes system calls.  The
    operating system is a parameter: a state [W] and a function that answers each
    call (class [OS]); theorems about programs are proved for every operating
    system that satisfies the laws they name.  A process records the calls it
    makes, so that what a program does to the outside is part of its result. *)
From S2P Require Import Prelude CString.
Local Open Scope Z_scope.

(** What a call returns: its value, and the bytes or integers it stores through
    its pointer argument. *)
Record answer : Type := mkanswer { a_ret : Z; a_data : list Z }.

Class OS (C W : Type) : Type := os_call : C -> W -> answer * W.

(** A process: the calls it made, oldest first, and the system around it. *)
Record uproc (C W : Type) : Type := mkuproc { u_trace : list C; u_os : W }.
Arguments mkuproc {C W} u_trace u_os.
Arguments u_trace {C W} _.
Arguments u_os {C W} _.

(** How a piece of a program ends: it returns; the process exits; it is replaced
    by another program; it accesses memory it may not; or the bound on the
    iterations of its loops is reached. *)
Inductive uout (C W A : Type) : Type :=
| URet (a : A) (p : uproc C W)
| UExit (status : Z) (p : uproc C W)
| UExec (path : list Z) (argv : list (list Z)) (p : uproc C W)
| UFault (p : uproc C W)
| UFuel (p : uproc C W).
Arguments URet {C W A} a p.
Arguments UExit {C W A} status p.
Arguments UExec {C W A} path argv p.
Arguments UFault {C W A} p.
Arguments UFuel {C W A} p.

Definition U (C W A : Type) : Type := uproc C W -> uout C W A.

Section monad.
Context {C W : Type}.

Definition uret {A} (a : A) : U C W A := fun p => URet a p.
Definition ubind {A B} (m : U C W A) (k : A -> U C W B) : U C W B := fun p =>
  match m p with
  | URet a p' => k a p'
  | UExit n p' => UExit n p'
  | UExec f argv p' => UExec f argv p'
  | UFault p' => UFault p'
  | UFuel p' => UFuel p'
  end.
Definition uexit {A} (status : Z) : U C W A := fun p => UExit status p.
Definition ufault {A} : U C W A := fun p => UFault p.
Definition ufuel {A} : U C W A := fun p => UFuel p.
(** A C access that is out of bounds is a fault. *)
Definition ulift {A} (o : option A) : U C W A :=
  match o with Some a => uret a | None => ufault end.

Definition sys `{OS C W} (c : C) : U C W answer := fun p =>
  let '(a, w) := os_call c (u_os p) in URet a (mkuproc (u_trace p ++ [c]) w).
End monad.

Declare Scope user_scope.
Delimit Scope user_scope with user.
Notation "'let!' x ':=' m 'in' k" := (ubind m (fun x => k))
  (at level 10, x name, m at level 100, k at level 200,
   format "'[v' 'let!'  x  ':='  m  'in'  '/' k ']'") : user_scope.
Notation "'let!' ' pat ':=' m 'in' k" := (ubind m (fun x => match x with pat => k end))
  (at level 10, pat strict pattern, m at level 100, k at level 200) : user_scope.
Notation "m ;;; k" := (ubind m (fun _ => k))
  (at level 199, k at level 200, right associativity,
   format "'[v' m  ';;;'  '/' k ']'") : user_scope.
Open Scope user_scope.

(** A loop over the elements of a list. *)
Fixpoint ueach {C W A} (l : list A) (f : A -> U C W unit) : U C W unit :=
  match l with
  | [] => uret tt
  | x :: r => f x ;;; ueach r f
  end.

(** ** Lemmas *)
Section lemmas.
Context {C W : Type}.

Lemma ubind_ret {A B} (m : U C W A) (k : A -> U C W B) p a p' :
  m p = URet a p' -> ubind m k p = k a p'.
Proof. unfold ubind. by intros ->. Qed.

Lemma ubind_exit {A B} (m : U C W A) (k : A -> U C W B) p n p' :
  m p = UExit n p' -> ubind m k p = UExit n p'.
Proof. unfold ubind. by intros ->. Qed.

Lemma ubind_assoc {A B D} (m : U C W A) (k : A -> U C W B) (h : B -> U C W D) p :
  ubind (ubind m k) h p = ubind m (fun a => ubind (k a) h) p.
Proof. unfold ubind. by destruct (m p). Qed.

Lemma sys_eq `{OS C W} c (p : uproc C W) a w :
  os_call c (u_os p) = (a, w) -> sys c p = URet a (mkuproc (u_trace p ++ [c]) w).
Proof. intros E. unfold sys. by rewrite E. Qed.
End lemmas.

(** ** Bytes and C strings in user memory *)

(** The C string that starts at index [i] of the object [m]. *)
Definition cstr_at (m : list Z) (i : nat) : list Z := cstr (drop i m).

(** A list that can be a C string. *)
Definition nonul (l : list Z) : Prop := Forall (fun c => c <> 0) l.

Lemma cstr_nul l r : nonul l -> cstr (l ++ 0 :: r) = l.
Proof.
  induction l as [| c l IH]; intros Hl; [done |]. apply Forall_cons in Hl as [Hc Hl].
  cbn. rewrite (proj2 (Z.eqb_neq c 0) Hc). by rewrite IH.
Qed.
Lemma cstr_nonul l : nonul (cstr l).
Proof.
  induction l as [| c l IH]; [constructor |]. cbn. destruct (Z.eqb_spec c 0); [constructor | by constructor].
Qed.

Lemma cstr_nonul_id l : nonul l -> cstr l = l.
Proof. induction 1 as [| c l Hc Hl IH]; [done |]. cbn. rewrite (proj2 (Z.eqb_neq c 0) Hc). by rewrite IH. Qed.

(** ** Splitting a text into fields *)

(** The maximal runs of characters that are not separators, in order. *)
Fixpoint fields (sep : Z -> bool) (l : list Z) : list (list Z) :=
  match l with
  | [] => []
  | c :: r =>
      if sep c then fields sep r
      else match r with
           | [] => [[c]]
           | d :: _ => if sep d then [c] :: fields sep r
                       else match fields sep r with
                            | w :: ws => (c :: w) :: ws
                            | [] => [[c]]
                            end
           end
  end.

(** What that means: separators are passed over; a field is not empty, has no
    separator and goes on to the next separator or the end. *)
Inductive splits (sep : Z -> bool) : list Z -> list (list Z) -> Prop :=
| splits_nil : splits sep [] []
| splits_sep c l ws : sep c = true -> splits sep l ws -> splits sep (c :: l) ws
| splits_field w l ws :
    w <> [] -> Forall (fun c => sep c = false) w -> (forall c r, l = c :: r -> sep c = true) ->
    splits sep l ws -> splits sep (w ++ l) (w :: ws).

Lemma fields_splits sep l : splits sep l (fields sep l).
Proof.
  induction l as [| c r IH]; [constructor |]. cbn [fields]. destruct (sep c) eqn:Ec; [by constructor |].
  destruct r as [| d r'].
  - apply (splits_field sep [c] []); [done | by repeat constructor | done | constructor].
  - destruct (sep d) eqn:Ed.
    + apply (splits_field sep [c] (d :: r')); [done | by repeat constructor | by intros ? ? [= <- _] | done].
    + inversion IH as [| ? ? ? Hd | w l ws Hne Hw Hl Hs E1 E2]; [congruence |].
      change (c :: w ++ l) with ((c :: w) ++ l). constructor; [done | by constructor | done | done].
Qed.

Lemma splits_det sep l ws ws' : splits sep l ws -> splits sep l ws' -> ws = ws'.
Proof.
  intros Hs. revert ws'. induction Hs as [| c l ws Hc Hs IH | w l ws Hne Hw Hl Hs IH]; intros ws' Hs'.
  - inversion Hs' as [| | w ? ? Hne]; subst; [done |]. by destruct w.
  - inversion Hs' as [| | w l' ws2 Hne Hw]; subst; [by apply IH |]. destruct w as [| x w]; [done |].
    cbn in *. simplify_eq. apply Forall_cons in Hw as [Hx _]. congruence.
  - inversion Hs' as [E | c l' ws2 Hc Hs2 E | w' l' ws2 Hne' Hw' Hl' Hs2 E]; subst.
    + by destruct w.
    + destruct w as [| x w]; [done |]. cbn in E. simplify_eq. apply Forall_cons in Hw as [Hx _]. congruence.
    + assert (w = w' /\ l = l') as [-> ->]; [| f_equal; by apply IH].
      clear - Hw Hl Hw' Hl' E. revert w' Hw' E. induction w as [| x w IHw]; intros w' Hw' E.
      * destruct w' as [| y w']; [done |]. cbn in E. subst l. apply Forall_cons in Hw' as [Hy _].
        specialize (Hl y _ eq_refl). congruence.
      * destruct w' as [| y w'].
        -- cbn in E. subst l'. apply Forall_cons in Hw as [Hx _]. specialize (Hl' x _ eq_refl). congruence.
        -- cbn in E. simplify_eq. apply Forall_cons in Hw as [_ Hw]. apply Forall_cons in Hw' as [_ Hw'].
           destruct (IHw Hw w' Hw' ltac:(done)) as [-> ->]. done.
Qed.

(** Counting fields with a flag, as the word counters do. *)
Fixpoint nfields (sep : Z -> bool) (inword : bool) (l : list Z) : nat :=
  match l with
  | [] => 0
  | c :: r => if sep c then nfields sep false r else (if inword then 0 else 1) + nfields sep true r
  end.
Lemma nfields_eq sep l :
  nfields sep false l = length (fields sep l) /\
  (nfields sep true l + match l with c :: _ => if sep c then 0 else 1 | [] => 0 end)%nat = length (fields sep l).
Proof.
  induction l as [| c r [IHf IHt]]; [done |]. cbn [nfields fields]. destruct (sep c) eqn:Ec; [by rewrite IHf, Nat.add_0_r |].
  assert (S (nfields sep true r) = length (match r with
    | [] => [[c]] | d :: _ => if sep d then [c] :: fields sep r
      else match fields sep r with w :: ws => (c :: w) :: ws | [] => [[c]] end end)) as <-; [| cbn; lia].
  destruct r as [| d r]; [done |]. destruct (sep d); [cbn [length]; lia |].
  destruct (fields sep (d :: r)) as [| w ws]; cbn [length] in *; lia.
Qed.

(** ** Counting lines, words and characters *)

(** The counters: lines, words, characters and whether in a word, all [int]. *)
Record counts : Type := mkcounts { n_l : Z; n_w : Z; n_c : Z; n_inword : bool }.
(** The effect of one character, [sep] telling white space. *)
Definition count_byte (sep : Z -> bool) (k : counts) (c : Z) : counts :=
  let l := if c =? 10 then s32 (n_l k + 1) else n_l k in
  if sep c then mkcounts l (n_w k) (s32 (n_c k + 1)) false
  else if n_inword k then mkcounts l (n_w k) (s32 (n_c k + 1)) true
  else mkcounts l (s32 (n_w k + 1)) (s32 (n_c k + 1)) true.

(** The counters after a text, from counters that do not overflow. *)
Lemma count_fold sep l : forall k,
  0 <= n_l k -> 0 <= n_w k -> 0 <= n_c k ->
  n_l k + Z.of_nat (length l) < 2 ^ 31 -> n_w k + Z.of_nat (length l) < 2 ^ 31 -> n_c k + Z.of_nat (length l) < 2 ^ 31 ->
  n_l (foldl (count_byte sep) k l) = n_l k + Z.of_nat (count_occ Z.eq_dec l 10) /\
  n_w (foldl (count_byte sep) k l) = n_w k + Z.of_nat (nfields sep (n_inword k) l) /\
  n_c (foldl (count_byte sep) k l) = n_c k + Z.of_nat (length l).
Proof.
  induction l as [| c l IH]; intros k H1 H2 H3 B1 B2 B3; [cbn; lia |]. cbn [foldl length] in *.
  assert (Hstep : n_l (count_byte sep k c) = n_l k + (if decide (c = 10) then 1 else 0) /\
    n_w (count_byte sep k c) = n_w k + (if sep c then 0 else if n_inword k then 0 else 1) /\
    n_c (count_byte sep k c) = n_c k + 1 /\ n_inword (count_byte sep k c) = negb (sep c)).
  { unfold count_byte. destruct (Z.eqb_spec c 10) as [-> | Hc]; [rewrite decide_True by done | rewrite decide_False by done].
    all: destruct (sep _), (n_inword k); cbn; rewrite !s32_small by lia; lia. }
  destruct Hstep as (E1 & E2 & E3 & E4).
  destruct (IH (count_byte sep k c)) as (F1 & F2 & F3); [destruct (decide (c = 10)); lia | | lia | destruct (decide (c = 10)); lia | | lia |].
  1,2: destruct (sep c), (n_inword k); lia.
  rewrite F1, F2, F3, E1, E2, E3, E4. cbn [count_occ nfields]. split; [| split; [| lia]].
  - destruct (Z.eq_dec c 10), (decide (c = 10)); congruence || lia.
  - destruct (sep c), (n_inword k); cbn [negb]; lia.
Qed.

