(* ===== verification/Ulib.v ===== *)
(** * The user library ([user/ulib.c], [user/printf.c], [user/user.h])

    The system calls of [user.h] as data, and the library functions every user
    program links.  An object in user memory is the list of its bytes and a
    pointer into it the list of the bytes from there to its end; reading or
    writing past the end is [None]. *)
From S2P Require Import Prelude CString User.
Local Open Scope Z_scope.

(** ** System calls *)
Inductive xcall : Type :=
| CFork | CWait | CPipe
| CWrite (fd : Z) (data : list Z) | CRead (fd n : Z) | CClose (fd : Z)
| CKill (pid signum : Z) | CExec (path : list Z) (argv : list (list Z))
| COpen (path : list Z) (mode : Z) | CMknod (path : list Z) (major minor : Z)
| CUnlink (path : list Z) | CFstat (fd : Z) | CLink (old new : list Z)
| CMkdir (path : list Z) | CChdir (path : list Z) | CDup (fd : Z) | CGetpid
| CSbrk (n : Z) (t : Z) | CPause (n : Z) | CUptime
| CSignal (signum handler : Z) | CSigreturn | CSleep (n : Z) | CGetyear
| CSemInit (n : Z) | CSemWait | CSemPost
| CLockCreate | CLockAcquire (id : Z) | CLockRelease (id : Z)
| CSend (pid : Z) (msg : list Z) | CRecv.

Definition SBRK_ERROR : Z := 2 ^ 64 - 1.
Definition SBRK_EAGER : Z := 1.
Definition SBRK_LAZY : Z := 2.
Definition O_RDONLY : Z := 0.
Definition O_WRONLY : Z := 1.
Definition O_RDWR : Z := 2.
Definition O_CREATE : Z := 0x200.
Definition O_TRUNC : Z := 0x400.

(** ** Strings *)

(** Copies up to and including the nul. *)
Fixpoint strcpy (s t : list Z) : option (list Z) :=
  match s, t with
  | _ :: s', c :: t' => if c =? 0 then Some (0 :: s') else (fun r => c :: r) <$> strcpy s' t'
  | _, _ => None
  end.

Fixpoint strcmp (p q : list Z) : option Z :=
  match p, q with
  | a :: p', b :: q' => if negb (a =? 0) && (a =? b) then strcmp p' q' else Some (u8 a - u8 b)
  | _, _ => None
  end.

Fixpoint strlen (s : list Z) : option nat :=
  match s with
  | [] => None
  | c :: r => if c =? 0 then Some O else S <$> strlen r
  end.

Fixpoint memset (cdst : list Z) (c : Z) (n : nat) {struct n} : option (list Z) :=
  match n, cdst with
  | O, _ => Some cdst
  | S _, [] => None
  | S n', _ :: r => (fun r' => u8 c :: r') <$> memset r c n'
  end.

(** The offset of the character, [Some None] when the string does not have it. *)
Fixpoint strchr (s : list Z) (c : Z) : option (option nat) :=
  match s with
  | [] => None
  | a :: r => if a =? 0 then Some None
              else if a =? c then Some (Some O) else option_map (option_map S) (strchr r c)
  end.

(** The offset of the first character that is not a digit is not kept; the
    arithmetic is that of [int]. *)
Fixpoint atoi_loop (s : list Z) (n : Z) : option Z :=
  match s with
  | [] => None
  | c :: r => if (48 <=? c) && (c <=? 57) then atoi_loop r (s32 (n * 10 + c - 48)) else Some n
  end.
Definition atoi (s : list Z) : option Z := atoi_loop s 0.

(** Both ranges are in the object [m]. *)
Definition memmove (m : list Z) (vdst vsrc : nat) (n : Z) : option (list Z) :=
  if decide (vdst < vsrc)%nat then copy_up m vdst vsrc (Z.to_nat n)
  else copy_down m (vdst + Z.to_nat n) (vsrc + Z.to_nat n) (Z.to_nat n).
Fixpoint memcmp (p1 p2 : list Z) (n : nat) : option Z :=
  match n with
  | O => Some 0
  | S n' =>
      match p1, p2 with
      | a :: p1', b :: p2' => if negb (a =? b) then Some (a - b) else memcmp p1' p2' n'
      | _, _ => None
      end
  end.
Definition memcpy (m : list Z) (dst src : nat) (n : Z) : option (list Z) := memmove m dst src n.

(** ** Library functions that make system calls *)
Section ulib.
Context {W : Type} `{OS xcall W}.
Abbreviation UX := (U xcall W).

(** A call whose result is its value only. *)
Definition call (c : xcall) : UX Z := let! a := sys c in uret (a_ret a).

(** [exec] returns only if it fails. *)
Definition exec (path : list Z) (argv : list (list Z)) : UX Z :=
  let! r := call (CExec path argv) in
  if r <? 0 then uret r else fun p => UExec path argv p.

Definition start (main : UX Z) : UX unit :=
  let! r := main in uexit r.

(** [gets(buf, max)]: the bytes stored, without the final nul; [k] is [max - 1 - i]. *)
Fixpoint gets_loop (k : nat) : UX (list Z) :=
  match k with
  | O => uret []
  | S k' =>
      let! a := sys (CRead 0 1) in
      if a_ret a <? 1 then uret [] else
      let! c := ulift (head (a_data a)) in
      if (c =? 10) || (c =? 13) then uret [c] else
      let! r := gets_loop k' in
      uret (c :: r)
  end.
Definition gets (max : Z) : UX (list Z) := gets_loop (Z.to_nat (max - 1)).

(** The result, and the fields [fstat] stored. *)
Definition stat (n : list Z) : UX (Z * list Z) :=
  let! fd := call (COpen n O_RDONLY) in
  if fd <? 0 then uret (-1, []) else
  let! a := sys (CFstat fd) in
  call (CClose fd) ;;;
  uret (a_ret a, a_data a).

Definition sbrk (n : Z) : UX Z := call (CSbrk n SBRK_EAGER).
Definition sbrklazy (n : Z) : UX Z := call (CSbrk n SBRK_LAZY).

(** ** Formatted output *)
Definition putc (fd c : Z) : UX unit := call (CWrite fd [u8 c]) ;;; uret tt.
Fixpoint putcs (fd : Z) (l : list Z) : UX unit :=
  match l with
  | [] => uret tt
  | c :: r => putc fd c ;;; putcs fd r
  end.

Definition udigit (d : Z) : Z := if d <? 10 then 48 + d else 55 + d.
(** [do { buf[i++] = digits[x % base]; } while((x /= base) != 0)]; 64 iterations
    bound a 64-bit value in any base. *)
Fixpoint udigits (fuel : nat) (x base : Z) : list Z :=
  match fuel with
  | O => []
  | S n => udigit (x mod base) :: (if x / base =? 0 then [] else udigits n (x / base) base)
  end.
(** The contents of [buf] when the loop has filled it. *)
Definition uprintint_buf (xx base : Z) (sgn : bool) : list Z :=
  let neg := sgn && (xx <? 0) in
  let x := if neg then u64 (- xx) else u64 xx in
  udigits 64 x base ++ (if neg then [45] else []).
Definition printint (fd xx base : Z) (sgn : bool) : UX unit :=
  let b := uprintint_buf xx base sgn in
  if decide (length b <= 20)%nat then putcs fd (rev b) else ufault.

Fixpoint uptr_digits (n : nat) (x : Z) : list Z :=
  match n with
  | O => []
  | S k => udigit (Z.shiftr x 60) :: uptr_digits k (u64 (Z.shiftl x 4))
  end.
Definition printptr (fd x : Z) : UX unit :=
  putc fd 48 ;;; putc fd 120 ;;; putcs fd (uptr_digits 16 x).

(** A variable argument: an integer, or a string, [None] if null. *)
Inductive varg : Type := VInt (v : Z) | VStr (s : option (list Z)).
Definition va_int (f : Z -> Z) (ap : list varg) (k : Z -> list varg -> UX unit) : UX unit :=
  match ap with
  | VInt v :: r => k (f v) r
  | _ => ufault
  end.
Definition va_str (ap : list varg) (k : list Z -> list varg -> UX unit) : UX unit :=
  match ap with
  | VStr o :: r => k (default (str "(null)") o) r
  | _ => ufault
  end.

(** The [for] loop with its [state]: [pct] is set after a percent sign. *)
Fixpoint vprintf (fd : Z) (fmt : list Z) (pct : bool) (ap : list varg) {struct fmt} : UX unit :=
  match fmt with
  | [] => uret tt
  | c0 :: r =>
      if negb pct then
        if c0 =? 37 then vprintf fd r true ap else putc fd c0 ;;; vprintf fd r false ap
      else
        let go := vprintf fd r false in
        let go1 := match r with _ :: r1 => vprintf fd r1 false | [] => fun _ => uret tt end in
        let go2 := match r with _ :: _ :: r2 => vprintf fd r2 false | _ => fun _ => uret tt end in
        let c1 := nth 0 r 0 in
        let c2 := nth 1 r 0 in
        if c0 =? 100 then va_int s32 ap (fun v ap' => printint fd v 10 true ;;; go ap')
        else if (c0 =? 108) && (c1 =? 100) then
          va_int s64 ap (fun v ap' => printint fd v 10 true ;;; go1 ap')
        else if (c0 =? 108) && (c1 =? 108) && (c2 =? 100) then
          va_int s64 ap (fun v ap' => printint fd v 10 true ;;; go2 ap')
        else if c0 =? 117 then va_int u32 ap (fun v ap' => printint fd v 10 false ;;; go ap')
        else if (c0 =? 108) && (c1 =? 117) then
          va_int s64 ap (fun v ap' => printint fd v 10 false ;;; go1 ap')
        else if (c0 =? 108) && (c1 =? 108) && (c2 =? 117) then
          va_int s64 ap (fun v ap' => printint fd v 10 false ;;; go2 ap')
        else if c0 =? 120 then va_int u32 ap (fun v ap' => printint fd v 16 false ;;; go ap')
        else if (c0 =? 108) && (c1 =? 120) then
          va_int s64 ap (fun v ap' => printint fd v 16 false ;;; go1 ap')
        else if (c0 =? 108) && (c1 =? 108) && (c2 =? 120) then
          va_int s64 ap (fun v ap' => printint fd v 16 false ;;; go2 ap')
        else if c0 =? 112 then va_int u64 ap (fun v ap' => printptr fd v ;;; go ap')
        else if c0 =? 99 then va_int u32 ap (fun v ap' => putc fd v ;;; go ap')
        else if c0 =? 115 then va_str ap (fun l ap' => putcs fd l ;;; go ap')
        else if c0 =? 37 then putc fd 37 ;;; go ap
        else putc fd 37 ;;; putc fd c0 ;;; go ap
  end.

Definition fprintf (fd : Z) (fmt : list Z) (ap : list varg) : UX unit := vprintf fd fmt false ap.
Definition printf (fmt : list Z) (ap : list varg) : UX unit := vprintf 1 fmt false ap.
End ulib.

(** ** What programs rely on *)

(** The bytes a process wrote to a descriptor. *)
Definition written (fd : Z) (t : list xcall) : list Z :=
  concat (omap (fun c => match c with CWrite f d => if f =? fd then Some d else None | _ => None end) t).

Lemma written_app fd t t' : written fd (t ++ t') = written fd t ++ written fd t'.
Proof. unfold written. by rewrite omap_app, concat_app. Qed.

(** Reading descriptor [fd]: [left w c] says that [c] is what is left to read.  A
    read returns at least one byte unless there is none left or none is asked for,
    in as many pieces as the system likes; writing to descriptor 1 takes nothing
    away. *)
Class ReadsFile {W} `{OS xcall W} (fd : Z) (left : W -> list Z -> Prop) : Prop := {
  read_law : forall w c n, left w c -> 0 <= n -> exists k w',
    os_call (CRead fd n) w = (mkanswer (Z.of_nat k) (take k c), w') /\ left w' (drop k c) /\
    (k <= length c)%nat /\ Z.of_nat k <= n /\ (c <> [] -> 0 < n -> (0 < k)%nat);
  write_law : forall w c d, left w c -> exists r w',
    os_call (CWrite 1 d) w = (r, w') /\ left w' c;
}.

Lemma call_eq {W} `{OS xcall W} c (p : uproc xcall W) a w :
  os_call c (u_os p) = (a, w) -> call c p = URet (a_ret a) (mkuproc (u_trace p ++ [c]) w).
Proof. intros E. unfold call. by rewrite (ubind_ret _ _ _ _ _ (sys_eq _ _ _ _ E)). Qed.

(** ** What the output functions do *)
Section output.
Context {W : Type} `{OS xcall W}.

Definition putc_calls (fd : Z) (l : list Z) : list xcall := (fun c => CWrite fd [u8 c]) <$> l.

(** A print statement that makes exactly the calls for the characters [l]. *)
Definition prints (fd : Z) (m : U xcall W unit) (l : list Z) : Prop :=
  forall p, exists w, m p = URet tt (mkuproc (u_trace p ++ putc_calls fd l) w).

Lemma prints_nil fd : prints fd (uret tt) [].
Proof. intros [t w]. exists w. cbn. by rewrite app_nil_r. Qed.
Lemma prints_seq fd m k l l' : prints fd m l -> prints fd k l' -> prints fd (m ;;; k) (l ++ l').
Proof.
  intros Hm Hk p. destruct (Hm p) as [w E]. rewrite (ubind_ret _ _ _ _ _ E). destruct (Hk (mkuproc (u_trace p ++ putc_calls fd l) w)) as [w' E'].
  exists w'. rewrite E'. cbn. unfold putc_calls. by rewrite fmap_app, app_assoc.
Qed.
Lemma prints_putc fd c : prints fd (putc fd c) [c].
Proof.
  intros p. destruct (os_call (CWrite fd [u8 c]) (u_os p)) as [a w] eqn:E. exists w.
  unfold putc. by rewrite (ubind_ret _ _ _ _ _ (call_eq _ _ _ _ E)).
Qed.
Lemma prints_putcs fd l : prints fd (putcs fd l) l.
Proof.
  induction l as [| c l IH]; [apply prints_nil |]. cbn [putcs]. apply (prints_seq fd _ _ [c] l); [apply prints_putc | done].
Qed.

(** Plain characters, [%s] and [%d] of a format. *)
Lemma prints_plain fd fmt ap c l : c <> 37 -> prints fd (vprintf fd fmt false ap) l -> prints fd (vprintf fd (c :: fmt) false ap) (c :: l).
Proof.
  intros Hc Hk. cbn [vprintf negb]. rewrite (proj2 (Z.eqb_neq _ _) Hc). apply (prints_seq fd _ _ [c] l); [apply prints_putc | done].
Qed.
Lemma prints_pct_s fd fmt ap o l : prints fd (vprintf fd fmt false ap) l ->
  prints fd (vprintf fd (37 :: 115 :: fmt) false (VStr o :: ap)) (default (str "(null)") o ++ l).
Proof. intros Hk. apply (prints_seq fd (putcs fd (default (str "(null)") o))); [apply prints_putcs | done]. Qed.

Lemma udigits_length n : forall k x, (1 <= k)%nat -> 0 <= x < 10 ^ Z.of_nat k -> (length (udigits n x 10) <= k)%nat.
Proof.
  induction n as [| n IH]; intros k x Hk Hx; [cbn; lia |]. cbn [udigits length].
  destruct (Z.eqb_spec (x / 10) 0) as [E | E]; [cbn; lia |].
  assert (0 < x / 10) by (pose proof (Z.div_pos x 10 ltac:(lia) ltac:(lia)); lia).
  destruct k as [| [| k]]; [lia | |].
  - change (10 ^ Z.of_nat 1) with 10 in Hx. rewrite Z.div_small in E; lia.
  - apply le_n_S, IH; [lia |]. split; [lia |]. apply Z.div_lt_upper_bound; [lia |].
    replace (Z.of_nat (S (S k))) with (Z.succ (Z.of_nat (S k))) in Hx by lia. rewrite Z.pow_succ_r in Hx by lia. lia.
Qed.

(** The decimal digits of a value, as [%d] shows it. *)
Definition udec (v : Z) : list Z := rev (uprintint_buf v 10 true).

Lemma printint_fits v : (length (uprintint_buf (s32 v) 10 true) <= 20)%nat.
Proof.
  pose proof (s32_range v) as Hr. unfold uprintint_buf. rewrite length_app.
  cbn [andb]. assert (forall x, 0 <= x < 2 ^ 32 -> (length (udigits 64 x 10) <= 10)%nat) as Hd.
  { intros x Hx. apply udigits_length; [lia |]. change (10 ^ Z.of_nat 10) with 10000000000. lia. }
  destruct (Z.ltb_spec (s32 v) 0); rewrite u64_small by lia; cbn [length].
  - specialize (Hd (- s32 v) ltac:(lia)). lia.
  - specialize (Hd (s32 v) ltac:(lia)). lia.
Qed.
Lemma prints_pct_d fd fmt ap v l : prints fd (vprintf fd fmt false ap) l ->
  prints fd (vprintf fd (37 :: 100 :: fmt) false (VInt v :: ap)) (udec (s32 v) ++ l).
Proof.
  intros Hk. apply (prints_seq fd (printint fd (s32 v) 10 true)); [| done]. unfold printint.
  rewrite decide_True by apply printint_fits. apply prints_putcs.
Qed.
End output.

(** An operating system with one input: the bytes left, and how many a read
    returns at most. *)
Definition tape : Type := list Z * nat.
Definition tape_call (c : xcall) (w : tape) : answer * tape :=
  match c with
  | CRead _ n => let k := Nat.min (Z.to_nat n) (Nat.min (snd w) (length (fst w))) in
                 (mkanswer (Z.of_nat k) (take k (fst w)), (drop k (fst w), snd w))
  | CWrite _ d => (mkanswer (Z.of_nat (length d)) [], w)
  | _ => (mkanswer 0 [], w)
  end.
#[export] Instance tape_os : OS xcall tape | 100 := tape_call.
#[export] Instance tape_reads fd : ReadsFile fd (fun (w : tape) c => fst w = c /\ (0 < snd w)%nat).
Proof.
  split.
  - intros [c0 m] c n [Hc Hm] Hn. cbn in Hc, Hm. subst c0. eexists _, _. split; [reflexivity |].
    cbn. split; [done |]. split; [lia |]. split; [lia |]. intros Hne Hpos. destruct c; [done |]. cbn. lia.
  - intros [c0 m] c d Hl. eexists _, _. split; [reflexivity | done].
Qed.
