(* ===== verification/Grep.v ===== *)
(** * [grep] ([user/grep.c])

    The matcher for patterns with [^ . * $], and the loop that reads a file into a
    1024-byte buffer and prints the lines that match.  C strings are lists of
    nonzero bytes; the end of the list is the nul. *)
From S2P Require Import Prelude CString User Ulib.
Local Open Scope Z_scope.

(** ** The code *)

(** [matchstar(c, re, text)]; the argument is [matchhere] of the rest of the
    pattern. *)
Definition matchstar (matchhere_re : list Z -> bool) (c : Z) : list Z -> bool :=
  fix loop (text : list Z) : bool :=
    if matchhere_re text then true else
    match text with
    | [] => false
    | t :: text' => if (t =? c) || (c =? 46) then loop text' else false
    end.

Fixpoint matchhere (re text : list Z) {struct re} : bool :=
  match re with
  | [] => true
  | c :: re1 =>
      let next := match text with
                  | [] => false
                  | t :: text' => if (c =? 46) || (c =? t) then matchhere re1 text' else false
                  end in
      match re1 with
      | c1 :: re2 => if c1 =? 42 then matchstar (matchhere re2) c text else next
      | [] => if c =? 36 then (match text with [] => true | _ => false end) else next
      end
  end.

(** The [do] loop: the empty string at the end of the text is tried too. *)
Fixpoint match_anywhere (re text : list Z) {struct text} : bool :=
  if matchhere re text then true else
  match text with
  | [] => false
  | _ :: text' => match_anywhere re text'
  end.
Definition grep_match (re text : list Z) : bool :=
  match re with
  | c :: re1 => if c =? 94 then matchhere re1 text else match_anywhere re text
  | [] => match_anywhere re text
  end.

(** [sizeof(buf)]. *)
Definition BUFSZ : nat := 1024.

Section grep.
Context {W : Type} `{OS xcall W}.
Abbreviation UX := (U xcall W).

(** [while((q = strchr(p, '\n')) != 0) ...]: the buffer and [p - buf] at the end. *)
Fixpoint grep_lines (fuel : nat) (pattern buf : list Z) (p : nat) : UX (list Z * nat) :=
  match fuel with
  | O => ufuel
  | S n =>
      let! o := ulift (strchr (drop p buf) 10) in
      match o with
      | None => uret (buf, p)
      | Some d =>
          let q := (p + d)%nat in
          let! buf1 := ulift (store buf q 0) in
          let! buf2 := (if grep_match pattern (cstr_at buf1 p) then
                          let! buf2 := ulift (store buf1 q 10) in
                          call (CWrite 1 (take (S q - p) (drop p buf2))) ;;;
                          uret buf2
                        else uret buf1) in
          grep_lines n pattern buf2 (S q)
      end
  end.

(** The bytes a call stores in [buf] from index [m] on. *)
Definition store_bytes (buf : list Z) (m : nat) (l : list Z) : option (list Z) :=
  if decide (m + length l <= length buf)%nat then Some (splice buf m l) else None.

Fixpoint grep_loop (fuel : nat) (pattern : list Z) (fd : Z) (buf : list Z) (m : nat) : UX (list Z) :=
  match fuel with
  | O => ufuel
  | S n =>
      let! a := sys (CRead fd (Z.of_nat (BUFSZ - m - 1))) in
      if a_ret a <=? 0 then uret buf else
      let! buf1 := ulift (store_bytes buf m (take (Z.to_nat (a_ret a)) (a_data a))) in
      let m1 := (m + Z.to_nat (a_ret a))%nat in
      let! buf2 := ulift (store buf1 m1 0) in
      let! '(buf3, p) := grep_lines (S BUFSZ) pattern buf2 0 in
      if decide (0 < m1)%nat then
        let m2 := (m1 - p)%nat in
        let! buf4 := ulift (memmove buf3 0 p (Z.of_nat m2)) in
        grep_loop n pattern fd buf4 m2
      else grep_loop n pattern fd buf3 m1
  end.
(** [buf] is static: a call finds in it what the last one left, and returns it. *)
Definition grep (fuel : nat) (pattern : list Z) (fd : Z) (buf : list Z) : UX (list Z) :=
  grep_loop fuel pattern fd buf 0.

(** The loop of [main] over the files. *)
Fixpoint grep_files (fuel : nat) (pattern : list Z) (files : list (list Z)) (buf : list Z) : UX unit :=
  match files with
  | [] => uret tt
  | f :: r =>
      let! fd := call (COpen f O_RDONLY) in
      if fd <? 0 then
        printf (str "grep: cannot open %s" ++ [10]) [VStr (Some f)] ;;; uexit 1
      else
        let! buf := grep fuel pattern fd buf in
        call (CClose fd) ;;;
        grep_files fuel pattern r buf
  end.
Definition grep_main (fuel : nat) (argv : list (list Z)) : UX unit :=
  match argv with
  | _ :: pattern :: files =>
      (if decide (files = []) then grep fuel pattern 0 (replicate BUFSZ 0) ;;; uret tt
       else grep_files fuel pattern files (replicate BUFSZ 0)) ;;;
      uexit 0
  | _ => fprintf 2 (str "usage: grep pattern [file ...]" ++ [10]) [] ;;; uexit 1
  end.
End grep.

(** ** The meaning of a pattern *)

(** A pattern is a sequence of single characters and starred characters, then
    optionally an anchor at the end of the text. *)
Inductive item : Type := IChar (c : Z) | IStar (c : Z).
Fixpoint pattern_of (re : list Z) : list item * bool :=
  match re with
  | [] => ([], false)
  | c :: re1 =>
      match re1 with
      | [] => if c =? 36 then ([], true) else ([IChar c], false)
      | c1 :: re2 =>
          if c1 =? 42 then let '(l, e) := pattern_of re2 in (IStar c :: l, e)
          else let '(l, e) := pattern_of re1 in (IChar c :: l, e)
      end
  end.

(** A dot stands for any character. *)
Definition chr (c t : Z) : Prop := c = 46 \/ c = t.
(** The words a sequence of items stands for. *)
Fixpoint lang (l : list item) (w : list Z) : Prop :=
  match l with
  | [] => w = []
  | IChar c :: r => exists t w', w = t :: w' /\ chr c t /\ lang r w'
  | IStar c :: r => exists u v, w = u ++ v /\ Forall (chr c) u /\ lang r v
  end.
Definition matches_prefix (re text : list Z) : Prop :=
  exists w rest, text = w ++ rest /\ lang (pattern_of re).1 w /\ ((pattern_of re).2 = true -> rest = []).

Lemma chr_eqb c t : (c =? 46) || (c =? t) = true <-> chr c t.
Proof. unfold chr. rewrite orb_true_iff, !Z.eqb_eq. done. Qed.

Lemma matchstar_spec P c text :
  matchstar P c text = true <-> exists u v, text = u ++ v /\ Forall (chr c) u /\ P v = true.
Proof.
  induction text as [| t text IH]; cbn.
  - destruct (P []) eqn:E; split; try done.
    + intros _. by exists [], [].
    + intros (u & v & Huv & _ & Hv). symmetry in Huv. apply app_eq_nil in Huv as [-> ->]. congruence.
  - destruct (P (t :: text)) eqn:E.
    { split; [intros _; by exists [], (t :: text) | done]. }
    destruct ((t =? c) || (c =? 46)) eqn:Ht.
    + assert (chr c t) as Hc by (apply chr_eqb; rewrite orb_comm, (Z.eqb_sym c t); done).
      rewrite IH. split.
      * intros (u & v & -> & Hu & Hv). exists (t :: u), v. split; [done |]. split; [by constructor | done].
      * intros ([| x u] & v & Huv & Hu & Hv); cbn in Huv; [subst v; congruence |].
        injection Huv as <- ->. apply Forall_cons in Hu as [_ Hu]. by exists u, v.
    + split; [done |]. intros ([| x u] & v & Huv & Hu & Hv); cbn in Huv; [subst v; congruence |].
      injection Huv as <- ->. apply Forall_cons in Hu as [Hx _]. apply chr_eqb in Hx.
      rewrite orb_comm, (Z.eqb_sym c t) in Hx. congruence.
Qed.

Lemma matches_prefix_star c re text :
  (exists u v, text = u ++ v /\ Forall (chr c) u /\ matches_prefix re v) <->
  matches_prefix (c :: 42 :: re) text.
Proof.
  unfold matches_prefix. cbn. destruct (pattern_of re) as [l e]. cbn. split.
  - intros (u & v & -> & Hu & w & rest & -> & Hw & He). exists (u ++ w), rest.
    rewrite app_assoc. split; [done |]. split; [by exists u, w | done].
  - intros (w & rest & -> & (u & v & -> & Hu & Hv) & He). exists u, (v ++ rest).
    rewrite app_assoc. split; [done |]. split; [done |]. by exists v, rest.
Qed.

Lemma matches_prefix_char c re text :
  head re <> Some 42 -> (re = [] -> c <> 36) ->
  matches_prefix (c :: re) text <-> exists t r, text = t :: r /\ chr c t /\ matches_prefix re r.
Proof.
  intros Hs Hd.
  assert (pattern_of (c :: re) = (IChar c :: (pattern_of re).1, (pattern_of re).2)) as Hp.
  { destruct re as [| c1 re]; cbn -[pattern_of].
    - change (pattern_of [c]) with (if c =? 36 then (@nil item, true) else ([IChar c], false)).
      rewrite (proj2 (Z.eqb_neq c 36)) by (by apply Hd). done.
    - change (pattern_of (c :: c1 :: re)) with
        (if c1 =? 42 then let '(l, e) := pattern_of re in (IStar c :: l, e)
         else let '(l, e) := pattern_of (c1 :: re) in (IChar c :: l, e)).
      rewrite (proj2 (Z.eqb_neq c1 42)) by (intros ->; done). by destruct (pattern_of (c1 :: re)). }
  unfold matches_prefix. rewrite Hp. cbn. split.
  - intros (w & rest & -> & (t & w' & -> & Hc & Hw) & He). exists t, (w' ++ rest). split; [done |].
    split; [done |]. by exists w', rest.
  - intros (t & r & -> & Hc & w & rest & -> & Hw & He). exists (t :: w), rest. split; [done |].
    split; [| done]. by exists t, w.
Qed.

Lemma matchhere_spec re : forall text, matchhere re text = true <-> matches_prefix re text.
Proof.
  induction re as [re IH] using (induction_ltof1 _ (@length Z)). unfold ltof in IH. intros text.
  destruct re as [| c re1].
  { split; [intros _; by exists [], text | done]. }
  assert (Hnext : head re1 <> Some 42 -> (re1 = [] -> c <> 36) ->
    match text with [] => false | t :: text' => if (c =? 46) || (c =? t) then matchhere re1 text' else false end = true
    <-> matches_prefix (c :: re1) text).
  { intros Hs Hd. rewrite matches_prefix_char by done. destruct text as [| t text'].
    - split; [done | by intros (? & ? & ? & _)].
    - destruct ((c =? 46) || (c =? t)) eqn:E.
      + rewrite IH by (cbn; lia). apply chr_eqb in E. split; [by exists t, text' |].
        by intros (? & ? & [= <- <-] & _ & Hm).
      + split; [done |]. intros (? & ? & [= <- <-] & Hc%chr_eqb & _). congruence. }
  destruct re1 as [| c1 re2]; cbn [matchhere].
  - destruct (Z.eqb_spec c 36) as [-> | Hc]; [| by apply Hnext].
    split.
    + destruct text; [intros _; by exists [], [] | done].
    + intros (w & rest & -> & Hw & He). cbn in Hw, He. by rewrite Hw, He.
  - destruct (Z.eqb_spec c1 42) as [-> | Hc]; [| apply Hnext; [by intros [= ->] | done]].
    rewrite matchstar_spec, <- matches_prefix_star.
    split; intros (u & v & -> & Hu & Hv); exists u, v; (split; [done |]; split; [done |]);
      apply IH; cbn; (lia || done).
Qed.

Lemma match_anywhere_spec re text :
  match_anywhere re text = true <-> exists pre post, text = pre ++ post /\ matches_prefix re post.
Proof.
  induction text as [| t text IH]; cbn [match_anywhere].
  - destruct (matchhere re []) eqn:E.
    + apply matchhere_spec in E. split; [intros _; by exists [], [] | done].
    + split; [done |]. intros (pre & post & Hp & Hm). symmetry in Hp. apply app_eq_nil in Hp as [-> ->].
      apply matchhere_spec in Hm. congruence.
  - destruct (matchhere re (t :: text)) eqn:E.
    + apply matchhere_spec in E. split; [intros _; by exists [], (t :: text) | done].
    + rewrite IH. split; [intros (pre & post & -> & Hm); by exists (t :: pre), post |].
      intros ([| x pre] & post & Hp & Hm); cbn in Hp.
      * subst post. apply matchhere_spec in Hm. congruence.
      * injection Hp as <- ->. by exists pre, post.
Qed.

(** ** Lines *)

(** The complete lines of a text, without their newlines, and what follows them. *)
Fixpoint lines_of (l : list Z) : list (list Z) :=
  match l with
  | [] => []
  | c :: r =>
      if c =? 10 then [] :: lines_of r
      else match lines_of r with [] => [] | x :: t => (c :: x) :: t end
  end.
Fixpoint tail_of (l : list Z) : list Z :=
  match l with
  | [] => []
  | c :: r => if decide (lines_of l = []) then l else tail_of r
  end.

Definition noline (l : list Z) : Prop := 10 ∉ l.

Lemma lines_of_noline l : noline l -> lines_of l = [].
Proof.
  induction l as [| c l IH]; [done |]. intros Hn. apply not_elem_of_cons in Hn as [Hc Hn]. cbn.
  rewrite (proj2 (Z.eqb_neq c 10)) by done. by rewrite IH.
Qed.
Lemma lines_of_nil_noline l : lines_of l = [] -> noline l.
Proof.
  induction l as [| c l IH]; [intros _; apply not_elem_of_nil |]. cbn.
  destruct (Z.eqb_spec c 10); [done |]. destruct (lines_of l); [| done]. intros _.
  apply not_elem_of_cons. split; [done | by apply IH].
Qed.
Lemma tail_of_noline l : noline l -> tail_of l = l.
Proof. intros Hn. destruct l as [| c l]; [done |]. cbn -[lines_of]. by rewrite decide_True by (by apply lines_of_noline). Qed.
Lemma lines_of_cons a b : noline a -> lines_of (a ++ 10 :: b) = a :: lines_of b.
Proof.
  induction a as [| c a IH]; [done |]. intros Hn. apply not_elem_of_cons in Hn as [Hc Hn]. cbn.
  rewrite (proj2 (Z.eqb_neq c 10)) by done. by rewrite IH.
Qed.
Lemma tail_of_cons a b : noline a -> tail_of (a ++ 10 :: b) = tail_of b.
Proof.
  induction a as [| c a IH]; intros Hn; [done |].
  apply not_elem_of_cons in Hn as [Hc Hn]. cbn [app tail_of].
  rewrite decide_False; [by apply IH |]. change (c :: a ++ 10 :: b) with ((c :: a) ++ 10 :: b).
  rewrite lines_of_cons; [done | by apply not_elem_of_cons].
Qed.
(** A text is its first line and the rest, or has no newline. *)
Lemma line_cases l : noline l \/ exists a b, l = a ++ 10 :: b /\ noline a.
Proof.
  induction l as [| c l [IH | (a & b & -> & Ha)]].
  - left. apply not_elem_of_nil.
  - destruct (decide (c = 10)) as [-> | Hc].
    + right. exists [], l. split; [done | apply not_elem_of_nil].
    + left. by apply not_elem_of_cons.
  - right. destruct (decide (c = 10)) as [-> | Hc].
    + exists [], (a ++ 10 :: b). split; [done | apply not_elem_of_nil].
    + exists (c :: a), b. split; [done | by apply not_elem_of_cons].
Qed.
Lemma lines_of_app l r : lines_of (l ++ r) = lines_of l ++ lines_of (tail_of l ++ r).
Proof.
  induction l as [l IH] using (induction_ltof1 _ (@length Z)). unfold ltof in IH.
  destruct (line_cases l) as [Hn | (a & b & -> & Ha)].
  - by rewrite tail_of_noline, (lines_of_noline l) by done.
  - rewrite <- app_assoc. cbn [app]. rewrite !lines_of_cons, tail_of_cons by done.
    rewrite IH; [done |]. rewrite length_app. cbn. lia.
Qed.
Lemma tail_of_is_noline l : noline (tail_of l).
Proof.
  induction l as [| c l IH]; [apply not_elem_of_nil |]. cbn [tail_of]. case_decide as Hd; [| done].
  by apply lines_of_nil_noline.
Qed.
Lemma tail_of_suffix l : exists a, l = a ++ tail_of l.
Proof.
  induction l as [| c l [a IH]]; [by exists [] |]. cbn [tail_of]. case_decide; [by exists [] |].
  exists (c :: a). cbn. congruence.
Qed.
Lemma tail_of_app l r : tail_of (tail_of l ++ r) = tail_of (l ++ r).
Proof.
  induction l as [l IH] using (induction_ltof1 _ (@length Z)). unfold ltof in IH.
  destruct (line_cases l) as [Hn | (a & b & -> & Ha)]; [by rewrite (tail_of_noline l) |].
  rewrite <- app_assoc. cbn [app]. rewrite !tail_of_cons by done. apply IH.
  rewrite length_app. cbn. lia.
Qed.

(** ** The buffer loops *)
Lemma strchr_none x junk : nonul x -> noline x -> strchr (x ++ 0 :: junk) 10 = Some None.
Proof.
  induction x as [| c x IH]; [done |]. intros Hx Hn. apply Forall_cons in Hx as [Hc Hx].
  apply not_elem_of_cons in Hn as [Hc' Hn]. cbn.
  rewrite (proj2 (Z.eqb_neq c 0)), (proj2 (Z.eqb_neq c 10)) by done. by rewrite IH.
Qed.
Lemma strchr_some a b : nonul a -> noline a -> strchr (a ++ 10 :: b) 10 = Some (Some (length a)).
Proof.
  induction a as [| c a IH]; [done |]. intros Hx Hn. apply Forall_cons in Hx as [Hc Hx].
  apply not_elem_of_cons in Hn as [Hc' Hn]. cbn.
  rewrite (proj2 (Z.eqb_neq c 0)), (proj2 (Z.eqb_neq c 10)) by done. by rewrite IH.
Qed.
Lemma store_middle l x r b : store (l ++ x :: r) (length l) b = Some (l ++ b :: r).
Proof.
  rewrite store_eq by (rewrite length_app; cbn; lia).
  by rewrite insert_app_r_alt, Nat.sub_diag by done.
Qed.

(** What [grep] prints of a list of lines. *)
Definition selected (pattern : list Z) (ls : list (list Z)) : list Z :=
  concat ((fun l => l ++ [10]) <$> filter (fun l => grep_match pattern l = true) ls).

Lemma selected_app pattern l r : selected pattern (l ++ r) = selected pattern l ++ selected pattern r.
Proof. unfold selected. by rewrite filter_app, fmap_app, concat_app. Qed.

Section loops.
Context {W : Type} `{OS xcall W} (fd : Z) (left : W -> list Z -> Prop) `{!ReadsFile fd left}.

Lemma grep_lines_eq pattern junk c : forall n x pre (p : uproc xcall W),
  nonul x -> (length (lines_of x) < n)%nat -> left (u_os p) c ->
  exists pre' p', grep_lines n pattern (pre ++ x ++ 0 :: junk) (length pre) p =
      URet (pre' ++ tail_of x ++ 0 :: junk, length pre') p' /\
    (length pre' + length (tail_of x) = length pre + length x)%nat /\ left (u_os p') c /\
    written 1 (u_trace p') = written 1 (u_trace p) ++ selected pattern (lines_of x).
Proof.
  induction n as [| n IH]; intros x pre p Hx Hn Hl; [lia |]. cbn [grep_lines]. rewrite drop_app_length.
  destruct (line_cases x) as [Hno | (a & b & -> & Ha)].
  { rewrite strchr_none by done. cbn [ulift]. exists pre, p. rewrite tail_of_noline, lines_of_noline by done.
    split; [done |]. split; [done |]. split; [done |]. by rewrite app_nil_r. }
  rewrite lines_of_cons, tail_of_cons in * by done. apply Forall_app in Hx as [Hna Hnb].
  apply Forall_cons in Hnb as [_ Hnb]. rewrite <- app_assoc. cbn [app].
  rewrite strchr_some by done. cbn [ulift]. cbv zeta. unfold ubind at 1. cbn [uret].
  replace (length pre + length a)%nat with (length (pre ++ a)) by apply length_app.
  rewrite !(app_assoc pre a), store_middle. cbn [ulift]. unfold ubind at 1. cbn [uret].
  unfold cstr_at. rewrite <- (app_assoc pre a (0 :: _)), drop_app_length, cstr_nul by done.
  assert (Hcut : forall y, take (S (length (pre ++ a)) - length pre) (drop (length pre) ((pre ++ a) ++ y :: b ++ 0 :: junk)) = a ++ [y]).
  { intros y. rewrite <- app_assoc, drop_app_length, length_app.
    replace (S (length pre + length a) - length pre)%nat with (length (a ++ [y])) by (rewrite length_app; cbn; lia).
    change (y :: b ++ 0 :: junk) with ([y] ++ b ++ 0 :: junk). by rewrite app_assoc, take_app_length. }
  assert (Hgo : forall y (q : uproc xcall W), left (u_os q) c -> exists pre' p',
      grep_lines n pattern ((pre ++ a) ++ y :: b ++ 0 :: junk) (S (length (pre ++ a))) q =
        URet (pre' ++ tail_of b ++ 0 :: junk, length pre') p' /\
      (length pre' + length (tail_of b) = length pre + length (a ++ 10%Z :: b))%nat /\ left (u_os p') c /\
      written 1 (u_trace p') = written 1 (u_trace q) ++ selected pattern (lines_of b)).
  { intros y q Hq. destruct (IH b ((pre ++ a) ++ [y]) q Hnb ltac:(cbn in Hn; lia) Hq) as (pre' & p' & Heq & Hlen & Hr).
    exists pre', p'. rewrite <- Heq, <- (app_assoc (pre ++ a)). cbn [app].
    rewrite !length_app in *. cbn in *. split; [f_equal; lia |]. split; [lia | done]. }
  unfold selected. rewrite filter_cons. destruct (grep_match pattern a) eqn:Hm.
  - rewrite decide_True by done. unfold ubind at 1. unfold ubind at 1.
    rewrite (app_assoc pre a), store_middle. cbn [ulift uret]. rewrite Hcut.
    destruct (write_law (fd := fd) (u_os p) c (a ++ [10]) Hl) as (r & w' & Hw & Hl').
    rewrite (ubind_ret _ _ _ _ _ (call_eq _ _ _ _ Hw)). cbn [uret].
    destruct (Hgo 10 (mkuproc (u_trace p ++ [CWrite 1 (a ++ [10])]) w') Hl') as (pre' & p' & Heq & Hlen & Hl2 & Hwr).
    exists pre', p'. split; [exact Heq |]. split; [done |]. split; [done |].
    rewrite Hwr. cbn [u_trace]. rewrite written_app, <- app_assoc. f_equal.
    cbn [fmap list_fmap concat]. f_equal. unfold written. cbn. by rewrite app_nil_r.
  - rewrite decide_False by done. unfold ubind at 1. cbn [uret]. rewrite (app_assoc pre a). exact (Hgo 0 p Hl).
Qed.

(** Every line, complete or not, fits in the buffer with a newline and a nul. *)
Definition short_lines (l : list Z) : Prop :=
  Forall (fun x => length x < 1023)%nat (lines_of l) /\ (length (tail_of l) < 1023)%nat.

Lemma short_tail x rest : short_lines (x ++ rest) ->
  (length (tail_of x) < 1023)%nat /\ short_lines (tail_of x ++ rest).
Proof.
  unfold short_lines. rewrite lines_of_app, <- tail_of_app. intros [Hl Ht].
  apply Forall_app in Hl as [_ Hl]. split; [| done].
  destruct (line_cases rest) as [Hn | (a & b & -> & Ha)].
  - rewrite tail_of_noline in Ht; [rewrite length_app in Ht; lia |].
    apply not_elem_of_app. split; [apply tail_of_is_noline | done].
  - rewrite app_assoc, lines_of_cons in Hl by (apply not_elem_of_app; split; [apply tail_of_is_noline | done]).
    apply Forall_cons in Hl as [Hl _]. rewrite length_app in Hl. lia.
Qed.

Lemma length_lines l : (length (lines_of l) <= length l)%nat.
Proof.
  induction l as [| c l IH]; [done |]. cbn. destruct (c =? 10); [cbn; lia |].
  destruct (lines_of l); cbn in *; lia.
Qed.

(** The buffer after a read: the bytes read go behind the partial line. *)
Lemma store_read frag junk d :
  (length frag + length d < length (frag ++ junk))%nat ->
  exists buf1 junk', store_bytes (frag ++ junk) (length frag) d = Some buf1 /\
    store buf1 (length frag + length d) 0 = Some ((frag ++ d) ++ 0 :: junk') /\
    length ((frag ++ d) ++ 0 :: junk') = length (frag ++ junk).
Proof.
  intros Hl. unfold store_bytes. rewrite decide_True by lia. rewrite length_app in Hl.
  destruct (drop (length d) junk) as [| y junk'] eqn:Hd.
  { apply (f_equal length) in Hd. rewrite length_drop in Hd. cbn in Hd. lia. }
  exists (splice (frag ++ junk) (length frag) d), junk'. split; [done |].
  assert (splice (frag ++ junk) (length frag) d = (frag ++ d) ++ y :: junk') as ->.
  { unfold splice. rewrite take_app_length, <- drop_drop, drop_app_length, Hd. by rewrite app_assoc. }
  split; [rewrite <- length_app; apply store_middle |].
  apply (f_equal length) in Hd. rewrite length_drop in Hd. rewrite !length_app. cbn in *. lia.
Qed.

(** Moving the partial line to the front of the buffer. *)
Lemma move_front pre t junk :
  exists junk', memmove (pre ++ t ++ junk) 0 (length pre) (Z.of_nat (length t)) = Some (t ++ junk') /\
    length (t ++ junk') = length (pre ++ t ++ junk).
Proof.
  assert (Hs : splice (pre ++ t ++ junk) 0 (take (length t) (drop (length pre) (pre ++ t ++ junk))) =
    t ++ drop (length t) (pre ++ t ++ junk)).
  { rewrite drop_app_length, take_app_length. done. }
  exists (drop (length t) (pre ++ t ++ junk)). split.
  - unfold memmove. rewrite Nat2Z.id. case_decide as Hd.
    + rewrite copy_up_spec; [by rewrite Hs | rewrite !length_app; lia | rewrite !length_app; lia | lia].
    + assert (pre = []) as -> by (apply length_zero_iff_nil; lia).
      cbn [length app] in *. rewrite (copy_down_spec _ _ 0 0); [by rewrite Hs | rewrite !length_app; cbn; lia | rewrite !length_app; cbn; lia | lia].
  - rewrite !length_app, length_drop, !length_app. lia.
Qed.

(** One iteration that reads something: the complete lines of what is in the
    buffer are dealt with, and the partial line is kept. *)
Lemma grep_step pattern fuel frag junk c (p : uproc xcall W) :
  nonul (frag ++ c) -> length (frag ++ junk) = BUFSZ -> (length frag < 1023)%nat -> c <> [] ->
  left (u_os p) c ->
  exists k junk' p', (0 < k <= length c)%nat /\ (length frag + k <= 1023)%nat /\
    length (tail_of (frag ++ take k c) ++ junk') = BUFSZ /\
    grep_loop (S fuel) pattern fd (frag ++ junk) (length frag) p =
      grep_loop fuel pattern fd (tail_of (frag ++ take k c) ++ junk') (length (tail_of (frag ++ take k c))) p' /\
    left (u_os p') (drop k c) /\
    written 1 (u_trace p') = written 1 (u_trace p) ++ selected pattern (lines_of (frag ++ take k c)).
Proof.
  intros Hnul Hlen Hshort Hc Hleft. cbn [grep_loop]. unfold BUFSZ in *.
  destruct (read_law (u_os p) c (Z.of_nat (1024 - length frag - 1)) Hleft ltac:(lia))
    as (k & w' & Hread & Hleft' & Hkc & Hkn & Hpos).
  rewrite (ubind_ret _ _ _ _ _ (sys_eq _ _ _ _ Hread)). cbn [a_ret a_data].
  specialize (Hpos Hc ltac:(lia)). rewrite (proj2 (Z.leb_gt (Z.of_nat k) 0)) by lia. rewrite Nat2Z.id, take_idemp.
  exists k. set (d := take k c). assert (length d = k) as Hdk by (unfold d; rewrite length_take; lia).
  destruct (store_read frag junk d ltac:(lia)) as (buf1 & junk' & Hst1 & Hst2 & Hlen2).
  rewrite Hst1. cbn [ulift]. unfold ubind at 1. cbn [uret]. rewrite Hdk in Hst2. rewrite Hst2.
  cbn [ulift]. unfold ubind at 1. cbn [uret].
  assert (nonul (frag ++ d)) as Hnx.
  { rewrite <- (take_drop k c), app_assoc in Hnul. by apply Forall_app in Hnul as [? _]. }
  destruct (grep_lines_eq pattern junk' (drop k c) (S 1024) (frag ++ d) []
    (mkuproc (u_trace p ++ [CRead fd (Z.of_nat (1024 - length frag - 1))]) w') Hnx) as (pre' & p' & Heq & Hpre & Hl' & Hw);
    [pose proof (length_lines (frag ++ d)); rewrite length_app in *; lia | done |].
  cbn [app length] in Heq, Hpre. rewrite (ubind_ret _ _ _ _ _ Heq). cbv beta iota.
  rewrite decide_True by lia. rewrite length_app in Hpre.
  replace (length frag + k - length pre')%nat with (length (tail_of (frag ++ d))) by lia.
  destruct (move_front pre' (tail_of (frag ++ d)) (0 :: junk')) as (junk2 & Hmv & Hlen3).
  rewrite Hmv. cbn [ulift]. unfold ubind at 1. cbn [uret]. exists junk2, p'.
  split; [lia |]. split; [lia |]. split; [rewrite Hlen3, <- Hlen, <- Hlen2, !length_app; cbn [length]; lia |].
  split; [done |]. split; [exact Hl' |].
  rewrite Hw. cbn [u_trace]. rewrite written_app. cbn [written omap list_omap concat]. by rewrite app_nil_r.
Qed.

(** The iteration that reads nothing. *)
Lemma grep_stop pattern fuel frag junk c (p : uproc xcall W) :
  c = [] \/ length frag = 1023%nat -> left (u_os p) c ->
  exists p', grep_loop (S fuel) pattern fd (frag ++ junk) (length frag) p = URet (frag ++ junk) p' /\
    left (u_os p') c /\ written 1 (u_trace p') = written 1 (u_trace p).
Proof.
  intros Hc Hleft. cbn [grep_loop]. unfold BUFSZ.
  destruct (read_law (u_os p) c (Z.of_nat (1024 - length frag - 1)) Hleft ltac:(lia))
    as (k & w' & Hread & Hleft' & Hkc & Hkn & _).
  assert (k = 0%nat) as -> by (destruct Hc as [-> | Hf]; [cbn in Hkc; lia | rewrite Hf in Hkn; lia]).
  rewrite (ubind_ret _ _ _ _ _ (sys_eq _ _ _ _ Hread)). cbn [a_ret a_data].
  change (Z.of_nat 0 <=? 0) with true. cbv iota. eexists. split; [reflexivity |]. split; [exact Hleft' |].
  cbn [u_trace]. rewrite written_app. cbn [written omap list_omap concat]. by rewrite app_nil_r.
Qed.

(** The lines before the first that does not fit. *)
Fixpoint upto_long (ls : list (list Z)) : list (list Z) :=
  match ls with
  | x :: r => if (length x <? 1023)%nat then x :: upto_long r else []
  | [] => []
  end.
Lemma upto_long_app a b : Forall (fun x => length x < 1023)%nat a -> upto_long (a ++ b) = a ++ upto_long b.
Proof. induction 1 as [| x a Hx _ IH]; [done |]. cbn [app upto_long]. by rewrite (proj2 (Nat.ltb_lt _ _) Hx), IH. Qed.
(** Lines that are all there are shorter than the text by their newline. *)
Lemma lines_short l n : (length l <= n)%nat -> Forall (fun x => length x < n)%nat (lines_of l).
Proof.
  induction l as [l IH] using (induction_ltof1 _ (@length Z)). unfold ltof in IH. intros Hl.
  destruct (line_cases l) as [Hn | (a & b & -> & Ha)]; [by rewrite lines_of_noline |].
  rewrite lines_of_cons by done. rewrite length_app in *. cbn [length] in *. constructor; [lia |]. apply IH; lia.
Qed.
(** A text that begins with 1023 bytes without a newline has no line that fits. *)
Lemma long_first a b : noline a -> (1023 <= length a)%nat -> upto_long (lines_of (a ++ b)) = [] /\ ~ short_lines (a ++ b).
Proof.
  intros Ha Hl. unfold short_lines. destruct (line_cases b) as [Hb | (x & y & -> & Hx)].
  - assert (noline (a ++ b)) as Hn by (apply not_elem_of_app; by split). rewrite lines_of_noline, tail_of_noline by done.
    split; [done |]. rewrite length_app. lia.
  - assert (noline (a ++ x)) as Hn by (apply not_elem_of_app; by split). rewrite app_assoc, lines_of_cons by done. cbn [upto_long].
    rewrite (proj2 (Nat.ltb_ge _ _)) by (rewrite length_app; lia). split; [done |]. rewrite Forall_cons, length_app. lia.
Qed.

Lemma grep_loop_any pattern : forall fuel frag junk c (p : uproc xcall W),
  noline frag -> nonul (frag ++ c) -> length (frag ++ junk) = BUFSZ -> (length frag <= 1023)%nat ->
  (length c < fuel)%nat -> left (u_os p) c ->
  exists buf' p', grep_loop fuel pattern fd (frag ++ junk) (length frag) p = URet buf' p' /\
    (short_lines (frag ++ c) -> left (u_os p') []) /\
    written 1 (u_trace p') = written 1 (u_trace p) ++ selected pattern (upto_long (lines_of (frag ++ c))).
Proof.
  induction fuel as [| fuel IH]; intros frag junk c p Hfrag Hnul Hlen Hmax Hfuel Hleft; [lia |].
  destruct (decide (c = [] \/ length frag = 1023%nat)) as [Hstop | Hgo].
  { destruct (grep_stop pattern fuel frag junk c p Hstop Hleft) as (p' & Heq & Hl & Hw). exists (frag ++ junk), p'. split; [exact Heq |].
    rewrite Hw. destruct Hstop as [-> | Hf].
    - split; [done |]. rewrite app_nil_r, lines_of_noline by done. cbn. by rewrite app_nil_r.
    - destruct (long_first frag c Hfrag ltac:(lia)) as [-> Hs]. cbn. by rewrite app_nil_r. }
  assert (c <> [] /\ length frag <> 1023%nat) as [Hc Hf] by tauto.
  destruct (grep_step pattern fuel frag junk c p Hnul Hlen ltac:(lia) Hc Hleft)
    as (k & junk' & p' & Hk & Hroom & Hlen' & Heq & Hl & Hw).
  assert (frag ++ c = (frag ++ take k c) ++ drop k c) as Hsplit by (by rewrite <- app_assoc, take_drop).
  set (x := frag ++ take k c) in *. assert (length x <= 1023)%nat as Hx by (unfold x; rewrite length_app, length_take; lia).
  rewrite Hsplit in Hnul |- *. destruct (tail_of_suffix x) as [a Ha].
  destruct (IH (tail_of x) junk' (drop k c) p') as (buf' & p2 & Heq2 & Hl2 & Hw2);
    [apply tail_of_is_noline | | done | | rewrite length_drop; lia | done |].
  - apply Forall_app in Hnul as [Hnx Hnr]. apply Forall_app. split; [| done]. rewrite Ha in Hnx. by apply Forall_app in Hnx as [_ Hnx].
  - apply (f_equal length) in Ha. rewrite length_app in Ha. lia.
  - exists buf', p2. rewrite Heq. split; [exact Heq2 |]. split; [intros Hs; by apply Hl2, short_tail |].
    rewrite Hw2, Hw, <- app_assoc, (lines_of_app x), upto_long_app by (by apply lines_short). by rewrite selected_app.
Qed.

Lemma grep_loop_long pattern : forall fuel frag junk c (p : uproc xcall W),
  nonul (frag ++ c) -> length (frag ++ junk) = BUFSZ -> (length frag <= 1023 <= length frag + length c)%nat ->
  noline (frag ++ take (1023 - length frag) c) -> (length c < fuel)%nat -> left (u_os p) c ->
  exists buf' p', grep_loop fuel pattern fd (frag ++ junk) (length frag) p = URet buf' p' /\
    left (u_os p') (drop (1023 - length frag) c) /\ written 1 (u_trace p') = written 1 (u_trace p).
Proof.
  induction fuel as [| fuel IH]; intros frag junk c p Hnul Hlen Hbound Hno Hfuel Hleft; [lia |].
  destruct (decide (length frag = 1023%nat)) as [Hf | Hf].
  { destruct (grep_stop pattern fuel frag junk c p) as (p' & Heq & Hl & Hw); [by right | done |].
    exists (frag ++ junk), p'. split; [exact Heq |]. split; [by rewrite Hf, Nat.sub_diag, drop_0 | done]. }
  assert (c <> []) as Hc by (intros ->; cbn [length] in Hbound; lia).
  destruct (grep_step pattern fuel frag junk c p Hnul Hlen ltac:(lia) Hc Hleft)
    as (k & junk' & p' & Hk & Hroom & Hlen' & Heq & Hl & Hw).
  assert (Hno' : noline (frag ++ take k c)).
  { intros Hin. apply Hno. apply elem_of_app in Hin as [Hin | Hin]; apply elem_of_app; [by left | right].
    apply elem_of_take in Hin as (i & Hi & Hik). apply elem_of_take. exists i. split; [done | lia]. }
  rewrite tail_of_noline, lines_of_noline in * by done.
  assert (length (frag ++ take k c) = length frag + k)%nat as Hlk by (rewrite length_app, length_take; lia).
  destruct (IH (frag ++ take k c) junk' (drop k c) p') as (buf' & p2 & Heq2 & Hl2 & Hw2).
  - by rewrite <- app_assoc, take_drop.
  - done.
  - rewrite Hlk, length_drop. lia.
  - rewrite Hlk, <- app_assoc. replace (1023 - length frag)%nat with (k + (1023 - (length frag + k)))%nat in Hno by lia.
    by rewrite take_take_drop.
  - rewrite length_drop. lia.
  - done.
  - exists buf', p2. rewrite Heq. split; [exact Heq2 |].
    rewrite Hlk, drop_drop in Hl2. replace (k + (1023 - (length frag + k)))%nat with (1023 - length frag)%nat in Hl2 by lia.
    split; [done |]. rewrite Hw2, Hw. by rewrite app_nil_r.
Qed.
End loops.

(** ** Properties *)

(** A pattern without its leading [^]. *)
Definition pattern_body (re : list Z) : list Z := if decide (head re = Some 94) then tail re else re.

(** C27: [match] decides the language of the pattern: it succeeds exactly if the text
    contains a word of the pattern's language, at the beginning if the pattern
    starts with [^] and at the end if it ends with an unstarred [$]; a dot stands
    for any character and a star for any number of what precedes it. *)
Theorem grep_match_spec re text :
  grep_match re text = true <->
  exists pre w post, text = pre ++ w ++ post /\ lang (pattern_of (pattern_body re)).1 w /\
    (head re = Some 94 -> pre = []) /\ ((pattern_of (pattern_body re)).2 = true -> post = []).
Proof.
  assert (Hany : head re <> Some 94 -> grep_match re text = match_anywhere re text).
  { intros Hh. unfold grep_match. destruct re as [| c re]; [done |].
    by rewrite (proj2 (Z.eqb_neq c 94)) by (intros ->; done). }
  unfold pattern_body. case_decide as Hh.
  - destruct re as [| c re]; [done |]. injection Hh as ->. cbn [grep_match tail]. rewrite Z.eqb_refl, matchhere_spec.
    split.
    + intros (w & post & -> & Hw & He). exists [], w, post. by repeat split.
    + intros (pre & w & post & -> & Hw & Hp & He). rewrite Hp by done. by exists w, post.
  - rewrite Hany, match_anywhere_spec by done. split.
    + intros (pre & r & -> & w & post & -> & Hw & He). exists pre, w, post. by repeat split.
    + intros (pre & w & post & -> & Hw & _ & He). exists pre, (w ++ post). split; [done |]. by exists w, post.
Qed.

(** C28: [grep] prints the lines that match, up to the first line that does not fit its
    buffer.  However the system cuts a file without nul bytes into reads, the output is
    exactly those lines that match the pattern, in order and with their newlines, among the
    lines that end with a newline and come before the first line of 1023 bytes or
    more; what follows the last newline is not printed.  If no line, and not what follows
    the last newline, has 1023 bytes, the file is read to its end. *)
Theorem grep_prints_matches {W} `{OS xcall W} fd left `{!ReadsFile fd left} pattern fuel buf content (p : uproc xcall W) :
  left (u_os p) content -> nonul content -> length buf = BUFSZ -> (length content < fuel)%nat ->
  exists buf' p', grep fuel pattern fd buf p = URet buf' p' /\ (short_lines content -> left (u_os p') []) /\
    written 1 (u_trace p') = written 1 (u_trace p) ++ selected pattern (upto_long (lines_of content)).
Proof.
  intros Hl Hn Hb Hf.
  destruct (grep_loop_any fd left pattern fuel [] buf content p) as (buf' & p' & Heq & Hr);
    try done; [apply not_elem_of_nil | cbn; lia |].
  by exists buf', p'.
Qed.

(** A line of 1023 bytes or more ends [grep]: when the buffer is full without a
    newline the next read asks for no bytes, which looks like the end of the file,
    so nothing is printed and the rest of the file is never read. *)
Theorem grep_long_line_stops {W} `{OS xcall W} fd left `{!ReadsFile fd left} pattern fuel buf content (p : uproc xcall W) :
  left (u_os p) content -> nonul content -> (1023 <= length content)%nat -> noline (take 1023 content) ->
  length buf = BUFSZ -> (length content < fuel)%nat ->
  exists buf' p', grep fuel pattern fd buf p = URet buf' p' /\ left (u_os p') (drop 1023 content) /\
    written 1 (u_trace p') = written 1 (u_trace p).
Proof.
  intros Hl Hn Hlen Hno Hb Hf.
  destruct (grep_loop_long fd left pattern fuel [] buf content p) as (buf' & p' & Hr);
    try done; [cbn; lia |]. by exists buf', p'.
Qed.

(** ** The properties at a concrete input *)
Definition sample_text : list Z := str "hello" ++ [10] ++ str "world" ++ [10] ++ str "he".

(** A short file, of which the last line has no newline, and one whose second line is too
    long. *)
Definition sample_long_text : list Z := str "lo" ++ [10] ++ replicate 1023 108 ++ str "o" ++ [10] ++ str "lo" ++ [10].
Lemma grep_prints_matches_witness :
  (exists buf' p', grep 20 (str "l*o$") 3 (replicate BUFSZ 0) (mkuproc [] (sample_text, 4%nat)) = URet buf' p' /\
    fst (u_os p') = [] /\ written 1 (u_trace p') = str "hello" ++ [10]) /\
  (exists buf' p', grep 1100 (str "l*o$") 3 (replicate BUFSZ 0) (mkuproc [] (sample_long_text, 100%nat)) = URet buf' p' /\
    written 1 (u_trace p') = str "lo" ++ [10]).
Proof.
  split.
  - destruct (grep_prints_matches 3 (fun (w : tape) c => fst w = c /\ (0 < snd w)%nat) (str "l*o$") 20
      (replicate BUFSZ 0) sample_text (mkuproc [] (sample_text, 4%nat))) as (buf' & p' & Hg & Hl & Hw).
    + split; [reflexivity | cbn; lia].
    + unfold nonul. apply (bool_decide_unpack _). vm_compute. exact I.
    + apply length_replicate.
    + apply (bool_decide_unpack _). vm_compute. exact I.
    + exists buf', p'. split; [exact Hg |]. split; [| etransitivity; [exact Hw | vm_compute; reflexivity]].
      apply Hl. split; apply (bool_decide_unpack _); vm_compute; exact I.
  - destruct (grep_prints_matches 3 (fun (w : tape) c => fst w = c /\ (0 < snd w)%nat) (str "l*o$") 1100
      (replicate BUFSZ 0) sample_long_text (mkuproc [] (sample_long_text, 100%nat))) as (buf' & p' & Hg & _ & Hw).
    + split; [reflexivity | cbn; lia].
    + unfold nonul. apply (bool_decide_unpack _). vm_compute. exact I.
    + apply length_replicate.
    + apply (bool_decide_unpack _). vm_compute. exact I.
    + exists buf', p'. split; [exact Hg | etransitivity; [exact Hw | vm_compute; reflexivity]].
Defined.

Lemma grep_long_line_stops_witness :
  exists buf' p', grep 1100 (str "b") 3 (replicate BUFSZ 0)
      (mkuproc [] (replicate 1023 97 ++ [10] ++ str "b" ++ [10], 1000%nat)) = URet buf' p' /\
    fst (u_os p') = [10] ++ str "b" ++ [10] /\ written 1 (u_trace p') = [].
Proof.
  destruct (grep_long_line_stops 3 (fun (w : tape) c => fst w = c /\ (0 < snd w)%nat) (str "b") 1100
    (replicate BUFSZ 0) (replicate 1023 97 ++ [10] ++ str "b" ++ [10])
    (mkuproc [] (replicate 1023 97 ++ [10] ++ str "b" ++ [10], 1000%nat))) as (buf' & p' & Hg & Hl & Hw).
  - split; [reflexivity | cbn; lia].
  - unfold nonul. apply (bool_decide_unpack _). vm_compute. exact I.
  - apply (bool_decide_unpack _). vm_compute. exact I.
  - unfold noline. apply (bool_decide_unpack _). vm_compute. exact I.
  - apply length_replicate.
  - apply (bool_decide_unpack _). vm_compute. exact I.
  - exists buf', p'. split; [exact Hg |]. split; [etransitivity; [exact (proj1 Hl) | vm_compute; reflexivity] | exact Hw].
Defined.
