(* ===== verification/Umalloc.v ===== *)
(** * The user memory allocator ([user/umalloc.c])

    The allocator of Kernighan and Ritchie: a circular list of free blocks in
    address order, searched first-fit from where the last search ended.  A header
    is 16 bytes; addresses are byte addresses and sizes count headers, as in the
    code.  The address of the static variable [base] is a parameter. *)
From S2P Require Import Prelude CString User Ulib.
Local Open Scope Z_scope.

(** ** The code *)
Record header : Type := mkheader { s_ptr : Z; s_size : Z }.
(** The headers in memory and the static variable [freep]. *)
Record heap : Type := mkheap { h_mem : gmap Z header; h_freep : Z }.

Section umalloc.
Context (base : Z).
Context {W : Type} `{OS xcall W}.
Abbreviation UX := (U xcall W).

(** The search of [free] for the place of [bp]. *)
Fixpoint free_find (fuel : nat) (m : gmap Z header) (bp p : Z) : option Z :=
  match fuel with
  | O => None
  | S n =>
      h ← m !! p;
      if (p <? bp) && (bp <? s_ptr h) then Some p
      else if (s_ptr h <=? p) && ((p <? bp) || (bp <? s_ptr h)) then Some p
      else free_find n m bp (s_ptr h)
  end.

Definition free (hp : heap) (ap : Z) : option heap :=
  let bp := ap - 16 in
  let m := h_mem hp in
  p ← free_find (size m) m bp (h_freep hp);
  hb ← m !! bp;
  h ← m !! p;
  m1 ← (if bp + 16 * s_size hb =? s_ptr h then
          hn ← m !! s_ptr h;
          Some (<[bp := mkheader (s_ptr hn) (u32 (s_size hb + s_size hn))]> m)
        else Some (<[bp := mkheader (s_ptr h) (s_size hb)]> m));
  h ← m1 !! p;
  hb ← m1 !! bp;
  let m2 := (if p + 16 * s_size h =? bp then
               <[p := mkheader (s_ptr hb) (u32 (s_size h + s_size hb))]> m1
             else <[p := mkheader bp (s_size h)]> m1) in
  Some (mkheap m2 p).

Definition morecore (hp : heap) (nu : Z) : UX (heap * Z) :=
  let nu := if nu <? 4096 then 4096 else nu in
  let! p := sbrk (s32 (nu * 16)) in
  if p =? SBRK_ERROR then uret (hp, 0) else
  let hp1 := mkheap (<[p := mkheader (from_option s_ptr 0 (h_mem hp !! p)) nu]> (h_mem hp)) (h_freep hp) in
  let! hp2 := ulift (free hp1 (p + 16)) in
  uret (hp2, h_freep hp2).

(** The [for] loop of [malloc]: the heap and the result. *)
Fixpoint malloc_loop (fuel : nat) (hp : heap) (prevp p nunits : Z) : UX (heap * Z) :=
  match fuel with
  | O => ufuel
  | S n =>
      let m := h_mem hp in
      let! h := ulift (m !! p) in
      if nunits <=? s_size h then
        if s_size h =? nunits then
          let! hv := ulift (m !! prevp) in
          uret (mkheap (<[prevp := mkheader (s_ptr h) (s_size hv)]> m) prevp, p + 16)
        else
          let m1 := <[p := mkheader (s_ptr h) (u32 (s_size h - nunits))]> m in
          let q := p + 16 * u32 (s_size h - nunits) in
          let m2 := <[q := mkheader (from_option s_ptr 0 (m1 !! q)) nunits]> m1 in
          uret (mkheap m2 prevp, q + 16)
      else if p =? h_freep hp then
        let! '(hp1, p1) := morecore hp nunits in
        if p1 =? 0 then uret (hp1, 0) else
        let! h1 := ulift (h_mem hp1 !! p1) in
        malloc_loop n hp1 p1 (s_ptr h1) nunits
      else malloc_loop n hp p (s_ptr h) nunits
  end.

(** [(nbytes + sizeof(Header) - 1)/sizeof(Header) + 1] in 64 bits, stored in a [uint]. *)
Definition nunits_of (nbytes : Z) : Z := u32 ((nbytes + 15) / 16 + 1).

(** The first call sets [base] up as an empty block linked to itself. *)
Definition started (hp : heap) : heap :=
  if h_freep hp =? 0 then mkheap (<[base := mkheader base 0]> (h_mem hp)) base else hp.

Definition malloc (hp : heap) (nbytes : Z) : UX (heap * Z) :=
  let nunits := nunits_of nbytes in
  let hp := started hp in
  let! h := ulift (h_mem hp !! h_freep hp) in
  malloc_loop (2 * size (h_mem hp) + 4) hp (h_freep hp) (s_ptr h) nunits.
End umalloc.

(** ** The free list *)

(** A block: the address of its header and its size in headers. *)
Abbreviation block := (Z * Z)%type.
Definition nxt (N : list block) (e : Z) : Z := match N with [] => e | b :: _ => b.1 end.

(** The blocks of [N] are linked in order, the last one to [e]. *)
Fixpoint linked (m : gmap Z header) (N : list block) (e : Z) : Prop :=
  match N with
  | [] => True
  | (p, k) :: r => m !! p = Some (mkheader (nxt r e) k) /\ linked m r e
  end.
(** Address order, with a gap between any two blocks. *)
Fixpoint gaps (N : list block) : Prop :=
  match N with
  | (a, n) :: r => 0 <= n /\ (match r with [] => True | (b, _) :: _ => a + 16 * n < b end) /\ gaps r
  | [] => True
  end.
(** The bytes of the blocks. *)
Definition covered (N : list block) (x : Z) : Prop := exists a n, (a, n) ∈ N /\ a <= x < a + 16 * n.

Lemma nxt_app A B e : nxt (A ++ B) e = nxt A (nxt B e).
Proof. by destruct A. Qed.

Lemma linked_app m A B e : linked m (A ++ B) e <-> linked m A (nxt B e) /\ linked m B e.
Proof.
  induction A as [| [p k] A IH]; cbn; [tauto |]. rewrite nxt_app, IH. tauto.
Qed.

Lemma linked_insert m a h N e : a ∉ N.*1 -> linked (<[a := h]> m) N e <-> linked m N e.
Proof.
  induction N as [| [p k] N IH]; cbn; [done |]. intros Ha. apply not_elem_of_cons in Ha as [Hp Ha].
  rewrite lookup_insert_ne by done. by rewrite IH.
Qed.

Lemma linked_lookup m N e p : linked m N e -> p ∈ N.*1 -> is_Some (m !! p).
Proof.
  induction N as [| [q k] N IH]; cbn; [by intros _ ?%elem_of_nil |].
  intros [Hq HN] [-> | Hp]%elem_of_cons; [by eexists | by apply IH].
Qed.

Lemma gaps_app A a n B : gaps (A ++ (a, n) :: B) <->
  gaps (A ++ [(a, n)]) /\ gaps ((a, n) :: B).
Proof.
  induction A as [| [p k] A IH]; cbn [app].
  - cbn. tauto.
  - cbn [gaps]. rewrite IH. destruct A as [| [p' k'] A]; cbn; tauto.
Qed.

(** Blocks later in the list lie above. *)
Lemma gaps_above a n B b k : gaps ((a, n) :: B) -> (b, k) ∈ B -> a + 16 * n < b.
Proof.
  revert a n. induction B as [| [c j] B IH]; intros a n Hg Hb; [by apply elem_of_nil in Hb |].
  cbn [gaps] in Hg. destruct Hg as (Hn & Hlt & Hg). apply elem_of_cons in Hb as [[= -> ->] | Hb]; [done |].
  pose proof (IH c j Hg Hb). cbn [gaps] in Hg. lia.
Qed.
Lemma gaps_below A a n b k : gaps (A ++ [(a, n)]) -> (b, k) ∈ A -> b + 16 * k < a /\ 0 <= k.
Proof.
  revert b k. induction A as [| [c j] A IH]; intros b k Hg Hb; [by apply elem_of_nil in Hb |].
  cbn [app] in Hg. apply elem_of_cons in Hb as [[= -> ->] | Hb].
  - split; [apply (gaps_above c j (A ++ [(a, n)]) a n); [done |]; apply elem_of_app; right; by left |].
    by destruct Hg.
  - apply IH; [| done]. by destruct Hg as (_ & _ & Hg).
Qed.

Lemma gaps_nodup N : gaps N -> NoDup N.*1.
Proof.
  induction N as [| [a n] N IH]; intros Hg; [constructor |]. cbn. apply NoDup_cons. split.
  - intros Hin. apply list_elem_of_fmap in Hin as ([b k] & -> & Hb). pose proof (gaps_above _ _ _ _ _ Hg Hb).
    cbn in *. destruct Hg. lia.
  - apply IH. by destruct Hg as (_ & _ & Hg).
Qed.

(** There are no more blocks than headers in memory. *)
Lemma linked_length m N e : linked m N e -> gaps N -> (length N <= size m)%nat.
Proof.
  intros Hl Hg. rewrite <- (length_fmap fst N), <- (size_list_to_set (C := gset Z) _ (gaps_nodup N Hg)).
  rewrite <- size_dom. apply subseteq_size. intros x Hx. apply elem_of_list_to_set in Hx.
  apply elem_of_dom. by apply (linked_lookup m N e).
Qed.

Definition nodes (base : Z) (L : list block) : list block := (base, 0) :: L.
(** The allocator's invariant: [L] are the free blocks, in address order and
    coalesced, between [base] and [hi]. *)
Definition heap_ok (base hi : Z) (hp : heap) (L : list block) : Prop :=
  0 < base /\ hi < base + 2 ^ 36 /\
  (h_freep hp ∈ (nodes base L).*1) /\ linked (h_mem hp) (nodes base L) base /\ gaps (nodes base L) /\
  Forall (fun b => 0 < b.2 /\ base + 16 <= b.1 /\ b.1 + 16 * b.2 <= hi) L.

(** ** Finding the place of a block *)
Lemma find_here m bp p k N2 base n :
  m !! p = Some (mkheader (nxt N2 base) k) -> base <= p -> p < bp -> (N2 = [] \/ bp < nxt N2 base) ->
  free_find (S n) m bp p = Some p.
Proof.
  intros Hp Hb Hlt HN. cbn [free_find]. rewrite Hp. cbn.
  destruct HN as [-> | HN].
  - cbn. destruct ((p <? bp) && (bp <? base)); [done |].
    by rewrite (proj2 (Z.leb_le base p)), (proj2 (Z.ltb_lt p bp)) by lia.
  - by rewrite (proj2 (Z.ltb_lt p bp)), (proj2 (Z.ltb_lt bp (nxt N2 base))) by lia.
Qed.

Lemma find_forward m bp p B : forall n,
  linked m B p -> gaps (B ++ [(p, 0)]) -> p < bp -> free_find n m bp p = Some p ->
  free_find (length B + n) m bp (nxt B p) = Some p.
Proof.
  induction B as [| [q k] B IH]; intros n Hl Hg Hlt Hp; [done |].
  cbn [length Nat.add nxt fst free_find]. destruct Hl as [Hq Hl]. rewrite Hq. cbn.
  assert (q < nxt B p <= p) as Hn.
  { cbn [app] in Hg. destruct B as [| [b j] B]; cbn.
    - pose proof (gaps_above q k [(p, 0)] p 0 Hg ltac:(by left)). destruct Hg. lia.
    - pose proof (gaps_above q k _ b j Hg ltac:(by left)).
      destruct Hg as (? & _ & Hg). pose proof (gaps_below ((b, j) :: B) p 0 b j Hg ltac:(by left)). lia. }
  rewrite (proj2 (Z.ltb_ge bp (nxt B p))), (proj2 (Z.leb_gt (nxt B p) q)) by lia. rewrite andb_false_r. cbn.
  apply IH; [done | | done | done]. by destruct Hg as (_ & _ & Hg).
Qed.

Lemma find_after m bp base C : forall n,
  linked m C base -> gaps C -> base <= bp -> Forall (fun b => bp < b.1) C ->
  free_find (length C + n) m bp (nxt C base) = free_find n m bp base.
Proof.
  induction C as [| [q k] C IH]; intros n Hl Hg Hb Hall; [done |].
  cbn [length Nat.add nxt fst free_find]. destruct Hl as [Hq Hl]. rewrite Hq. cbn.
  apply Forall_cons in Hall as [Hbq Hall]. cbn in Hbq. rewrite (proj2 (Z.ltb_ge q bp)) by lia. cbn.
  destruct Hg as (Hk & Hlt & Hg).
  assert ((nxt C base <=? q) && (bp <? nxt C base) = false) as ->.
  { destruct C as [| [b j] C]; cbn.
    - rewrite (proj2 (Z.ltb_ge bp base)) by lia. apply andb_false_r.
    - by rewrite (proj2 (Z.leb_gt b q)) by lia. }
  by apply IH.
Qed.

(** The place of a block that lies between [base] and [hi] and is not free. *)
Definition apart (L : list block) (bp n : Z) : Prop :=
  Forall (fun b => b.1 + 16 * b.2 <= bp \/ bp + 16 * n <= b.1) L.

Lemma split_at N bp n :
  gaps N -> Forall (fun b => 0 <= b.2) N -> 0 < n -> apart N bp n ->
  exists N1 N2, N = N1 ++ N2 /\ Forall (fun b => b.1 + 16 * b.2 <= bp) N1 /\
    Forall (fun b => bp + 16 * n <= b.1) N2.
Proof.
  intros Hg Hpos Hn Ha. induction N as [| [a k] N IH]; [by exists [], [] |].
  apply Forall_cons in Ha as [Hab Ha]. apply Forall_cons in Hpos as [Hk Hpos]. cbn in Hab, Hk.
  destruct Hab as [Hab | Hab].
  - destruct IH as (N1 & N2 & -> & H1 & H2); [by destruct Hg as (_ & _ & Hg) | done | done |].
    exists ((a, k) :: N1), N2. by repeat constructor.
  - exists [], ((a, k) :: N). split; [done |]. split; [constructor |]. constructor; [done |].
    apply Forall_forall. intros [b j] Hb. pose proof (gaps_above _ _ _ _ _ Hg Hb). cbn. lia.
Qed.

Lemma free_find_eq base hi hp L bp n :
  heap_ok base hi hp L -> base + 16 <= bp -> 0 < n -> apart L bp n ->
  exists N1 p k N2, nodes base L = N1 ++ (p, k) :: N2 /\ p + 16 * k <= bp /\ p < bp /\
    Forall (fun b => bp + 16 * n <= b.1) N2 /\
    free_find (size (h_mem hp)) (h_mem hp) bp (h_freep hp) = Some p.
Proof.
  intros (Hbase & Hhi & Hfreep & Hl & Hg & Hall) Hbp Hn Ha.
  destruct (split_at (nodes base L) bp n) as (M1 & N2 & HN & H1 & H2); [done | | done | |].
  { constructor; [done |]. eapply Forall_impl; [exact Hall |]. cbn. lia. }
  { constructor; [cbn; lia | done]. }
  destruct (exists_last (l := M1)) as (N1 & [p k] & ->).
  { intros ->. cbn in HN. rewrite <- HN in H2. apply Forall_cons in H2 as [H2 _]. cbn in H2. lia. }
  rewrite <- app_assoc in HN. cbn [app] in HN. exists N1, p, k, N2. split; [done |].
  apply Forall_app in H1 as [H1 Hp]. apply Forall_cons in Hp as [Hp _]. cbn in Hp.
  pose proof Hg as Hg'. rewrite HN in Hg', Hl. apply gaps_app in Hg' as [Hg1 Hg2].
  assert (0 <= k) as Hk by (by destruct Hg2).
  assert (base <= p /\ p < bp) as [Hbp' Hlt].
  { destruct N1 as [| [b j] N1]; cbn in HN.
    - injection HN as <- <- _. lia.
    - injection HN as <- <- HL. assert ((p, k) ∈ L) as Hin by (rewrite HL; apply elem_of_app; right; by left).
      rewrite Forall_forall in Hall. pose proof (Hall _ Hin) as Hx. cbn in Hx. lia. }
  split; [done |]. split; [done |]. split; [done |].
  apply linked_app in Hl as [Hl1 Hl2]. cbn [nxt fst] in Hl1. cbn [linked] in Hl2. destruct Hl2 as [Hp2 Hl2].
  assert (Hhere : forall f, free_find (S f) (h_mem hp) bp p = Some p).
  { intros f. apply (find_here _ _ _ k N2 base); [done | done | done |].
    destruct N2 as [| [b j] N2]; [by left |]. right. apply Forall_cons in H2 as [H2 _]. cbn in *. lia. }
  assert (Hfwd : forall A B f, N1 = A ++ B -> free_find (length B + S f) (h_mem hp) bp (nxt B p) = Some p).
  { intros A B f ->. apply find_forward; [by apply linked_app in Hl1 as [_ Hl1] | | done | done].
    rewrite <- app_assoc in Hg1. destruct B as [| [b j] B]; [cbn; lia |].
    apply gaps_app in Hg1 as [_ Hg1]. clear -Hg1 Hk. revert b j Hg1. induction B as [| [c i] B IH]; intros b j Hg1.
    - cbn in *. lia.
    - cbn [app] in *. destruct Hg1 as (? & ? & Hg1). split; [done |]. split; [done |]. by apply IH. }
  pose proof (linked_length (h_mem hp) (N1 ++ (p, k) :: N2) base) as Hsz.
  assert (length (N1 ++ (p, k) :: N2) <= size (h_mem hp))%nat as Hsize.
  { apply Hsz; [apply linked_app; by split | by rewrite <- HN]. }
  rewrite length_app in Hsize. cbn [length] in Hsize.
  rewrite HN in Hfreep. rewrite fmap_app, fmap_cons in Hfreep. apply elem_of_app in Hfreep as [Hf | Hf].
  - apply list_elem_of_fmap in Hf as ([f kf] & -> & Hf). apply list_elem_of_split in Hf as (A & B & ->).
    replace (size (h_mem hp)) with (length ((f, kf) :: B) + S (size (h_mem hp) - length ((f, kf) :: B) - 1))%nat
      by (rewrite length_app in Hsize; cbn in *; lia).
    by apply (Hfwd A ((f, kf) :: B)).
  - apply elem_of_cons in Hf as [-> | Hf].
    { cbn. replace (size (h_mem hp)) with (S (size (h_mem hp) - 1)) by lia. apply Hhere. }
    apply list_elem_of_fmap in Hf as ([f kf] & -> & Hf). apply list_elem_of_split in Hf as (A & B & ->).
    set (C := (f, kf) :: B).
    replace (size (h_mem hp)) with (length C + (length N1 + S (size (h_mem hp) - length C - length N1 - 1)))%nat
      by (rewrite !length_app in Hsize; cbn in *; lia).
    change (fst (f, kf)) with (nxt C base).
    rewrite find_after; [| by apply linked_app in Hl2 as [_ Hl2] | | lia | ].
    + replace base with (nxt N1 p); [by apply (Hfwd [] N1) |].
      destruct N1 as [| [b j] N1]; cbn in HN; by injection HN.
    + destruct Hg2 as (_ & _ & Hg2). by apply gaps_app in Hg2 as [_ Hg2].
    + apply Forall_app in H2 as [_ H2]. eapply Forall_impl; [exact H2 |]. cbn. lia.
Qed.

(** ** Freeing a block *)
Lemma covered_app A B x : covered (A ++ B) x <-> covered A x \/ covered B x.
Proof.
  unfold covered. setoid_rewrite elem_of_app. naive_solver.
Qed.
Lemma covered_cons a n B x : covered ((a, n) :: B) x <-> a <= x < a + 16 * n \/ covered B x.
Proof.
  unfold covered. setoid_rewrite elem_of_cons. split.
  - intros (b & k & [[= -> ->] | Hb] & Hx); [by left | right; by exists b, k].
  - intros [Hx | (b & k & Hb & Hx)]; [exists a, n; split; [by left | done] | exists b, k; split; [by right | done]].
Qed.
Lemma covered_nodes base L x : covered (nodes base L) x <-> covered L x.
Proof. unfold nodes. rewrite covered_cons. split; [intros [? | ?]; [lia | done] | by right]. Qed.

(** A block the allocator may hold. *)
Definition inside (base hi : Z) (b : block) : Prop := 0 < b.2 /\ base + 16 <= b.1 /\ b.1 + 16 * b.2 <= hi.

(** Joining the block with the free block after it. *)
Definition join_up (m : gmap Z header) (bp : Z) (hb h : header) : option (gmap Z header) :=
  if bp + 16 * s_size hb =? s_ptr h then
    hn ← m !! s_ptr h;
    Some (<[bp := mkheader (s_ptr hn) (u32 (s_size hb + s_size hn))]> m)
  else Some (<[bp := mkheader (s_ptr h) (s_size hb)]> m).

Lemma join_up_eq base hi m bp n x k N2 :
  0 < base -> hi < base + 2 ^ 36 -> inside base hi (bp, n) -> linked m N2 base -> gaps N2 ->
  Forall (inside base hi) N2 -> Forall (fun b => bp + 16 * n <= b.1) N2 ->
  exists n1 N3, join_up m bp (mkheader x n) (mkheader (nxt N2 base) k) =
      Some (<[bp := mkheader (nxt N3 base) n1]> m) /\
    linked m N3 base /\ gaps ((bp, n1) :: N3) /\ n <= n1 /\ inside base hi (bp, n1) /\ Forall (inside base hi) N3 /\
    (forall y, covered ((bp, n1) :: N3) y <-> bp <= y < bp + 16 * n \/ covered N2 y) /\
    Forall (fun b => bp < b.1) N3 /\ (length N3 <= length N2)%nat.
Proof.
  unfold inside. cbn. intros Hb Hhi Hin Hl Hg Hall Hab. unfold join_up. cbn [s_size s_ptr].
  destruct N2 as [| [b kb] N3].
  - cbn [nxt]. rewrite (proj2 (Z.eqb_neq _ _)) by lia. exists n, [].
    split; [done |]. split; [done |]. split; [cbn; lia |]. split; [lia |]. split; [done |].
    split; [done |]. split; [intros y; by rewrite covered_cons |]. by repeat constructor.
  - cbn [nxt fst]. apply Forall_cons in Hall as [Hbin Hall]. apply Forall_cons in Hab as [Hbab _]. cbn in Hbin, Hbab.
    destruct Hl as [Hlb Hl].
    assert (Forall (fun c => b + 16 * kb < c.1) N3) as Habove.
    { apply Forall_forall. intros [c j] Hc. by apply (gaps_above b kb N3 c j). }
    destruct (Z.eqb_spec (bp + 16 * n) b) as [E | E].
    + rewrite Hlb. cbn. rewrite u32_small by lia. exists (n + kb), N3. split; [done |]. split; [done |].
      destruct Hg as (? & Hlt & Hg). split.
      { split; [lia |]. split; [| done]. destruct N3 as [| [c j] N3]; [done |]. lia. }
      split; [lia |]. split; [lia |]. split; [done |]. split.
      * intros y. rewrite !covered_cons. split; [intros [? | ?]; [| tauto] | intros [? | [? | ?]]; [left | left | tauto]]; lia.
      * split; [eapply Forall_impl; [exact Habove |]; cbn; lia | cbn; lia].
    + exists n, ((b, kb) :: N3). split; [done |]. split; [done |]. split; [cbn in *; lia || (split; [lia |]; split; [lia | done]) |].
      split; [lia |]. split; [done |]. split; [by constructor |]. split; [intros y; by rewrite covered_cons |].
      split; [| done]. constructor; [cbn; lia |]. eapply Forall_impl; [exact Habove |]. cbn. lia.
Qed.

(** Changing the free list from the block [p] on. *)
Lemma nodes_replace base L N1 b N2 T (Q : block -> Prop) :
  nodes base L = N1 ++ b :: N2 -> (N1 = [] -> head T = Some (base, 0)) ->
  Forall Q L -> Forall Q (tail T) -> (N1 <> [] -> Forall Q T) ->
  nodes base (tail (N1 ++ T)) = N1 ++ T /\ Forall Q (tail (N1 ++ T)).
Proof.
  intros HN HT HL Ht HTQ. destruct N1 as [| c A]; cbn in *.
  - destruct T as [| t T]; [by specialize (HT eq_refl) |]. specialize (HT eq_refl). by injection HT as ->.
  - injection HN as <- ->. split; [done |]. apply Forall_app in HL as [HA _]. apply Forall_app. split; [done |].
    by apply HTQ.
Qed.

Lemma gaps_replace N1 p k N2 k' T :
  gaps (N1 ++ (p, k) :: N2) -> gaps ((p, k') :: T) -> gaps (N1 ++ (p, k') :: T).
Proof.
  intros Hg HT. induction N1 as [| [a n] N1 IH]; [done |]. cbn [app gaps] in *.
  destruct Hg as (Hn & Hlt & Hg). split; [done |]. split; [| by apply IH].
  destruct N1 as [| [b j] N1]; done.
Qed.

Lemma nodes_first base L N1 p k N2 :
  nodes base L = N1 ++ (p, k) :: N2 ->
  (p = base /\ k = 0 /\ N1 = [] /\ N2 = L) \/ (N1 <> [] /\ exists A, L = A ++ (p, k) :: N2).
Proof.
  unfold nodes. destruct N1 as [| c A]; cbn; intros HN; injection HN; intros; subst; [by left |].
  right. split; [done | by exists A].
Qed.

Lemma free_eq base hi hp L bp n x :
  heap_ok base hi hp L -> h_mem hp !! bp = Some (mkheader x n) -> inside base hi (bp, n) -> apart L bp n ->
  exists hp' L', free hp (bp + 16) = Some hp' /\ heap_ok base hi hp' L' /\
    (forall y, covered L' y <-> covered L y \/ bp <= y < bp + 16 * n) /\
    (exists a k, (a, k) ∈ L' /\ n <= k) /\ (length L' <= S (length L))%nat /\
    (forall y, y ∉ (nodes base L).*1 -> y <> bp -> h_mem hp' !! y = h_mem hp !! y).
Proof.
  intros Hok Hbp Hin Ha. pose proof Hok as (Hbase & Hhi & _ & Hl & Hg & Hall). pose proof Hin as (Hn & Hlo & Hup). cbn in Hn, Hlo, Hup.
  destruct (free_find_eq base hi hp L bp n Hok Hlo Hn Ha) as (N1 & p & k & N2 & HN & Hpk & Hpb & H2 & Hfind).
  rewrite HN in Hl, Hg. apply linked_app in Hl as [Hl1 [Hp Hl2]]. cbn [nxt fst] in Hl1.
  pose proof (gaps_nodup _ Hg) as Hnd. rewrite fmap_app, fmap_cons in Hnd. cbn [fst] in Hnd.
  apply NoDup_app in Hnd as (_ & Hd1 & Hnd2). apply NoDup_cons in Hnd2 as [Hp2 _].
  assert (p ∉ N1.*1) as Hp1 by (intros Hc; apply (Hd1 _ Hc); by left).
  pose proof (proj1 (gaps_app _ _ _ _) Hg) as [Hg1 Hg2].
  assert (bp ∉ N1.*1) as Hbp1.
  { intros Hc. apply list_elem_of_fmap in Hc as ([c j] & -> & Hc). pose proof (gaps_below _ _ _ _ _ Hg1 Hc). cbn in *. lia. }
  assert (Forall (inside base hi) N2) as Hall2.
  { destruct (nodes_first _ _ _ _ _ _ HN) as [(_ & _ & _ & ->) | (_ & A & ->)]; [done |].
    apply Forall_app in Hall as [_ Hall]. by apply Forall_cons in Hall as [_ Hall]. }
  destruct (join_up_eq base hi (h_mem hp) bp n x k N2 Hbase Hhi Hin Hl2 ltac:(by destruct Hg2 as (_ & _ & ?)) Hall2 H2)
    as (n1 & N3 & Hj & Hl3 & Hg3 & Hn1 & Hin1 & Hall3 & Hcov & Hab3 & Hlen3).
  assert ((bp ∉ N3.*1) /\ (p ∉ N3.*1)) as [Hb3 Hp3].
  { rewrite Forall_forall in Hab3.
    split; intros Hc; apply list_elem_of_fmap in Hc as ([c j] & -> & Hc); specialize (Hab3 _ Hc); cbn in *; lia. }
  unfold free. replace (bp + 16 - 16) with bp by lia. rewrite Hfind. cbn [mbind option_bind]. rewrite Hbp, Hp.
  cbn [mbind option_bind]. fold (join_up (h_mem hp) bp (mkheader x n) (mkheader (nxt N2 base) k)). rewrite Hj.
  cbn [mbind option_bind]. rewrite lookup_insert_eq, (lookup_insert_ne _ bp p), Hp by lia. cbn [mbind option_bind s_size s_ptr].
  set (m1 := <[bp := mkheader (nxt N3 base) n1]> (h_mem hp)).
  destruct Hin1 as (Hpos1 & _ & Hup1). cbn in Hpos1, Hup1.
  set (T := if p + 16 * k =? bp then (p, k + n1) :: N3 else (p, k) :: (bp, n1) :: N3).
  assert (Hheadok : N1 = [] -> head T = Some (base, 0)).
  { intros ->. destruct (nodes_first _ _ _ _ _ _ HN) as [(-> & -> & _ & _) | [? _]]; [| done].
    unfold T. rewrite (proj2 (Z.eqb_neq _ _)) by lia. done. }
  assert (HinP : N1 <> [] -> inside base hi (p, k)).
  { intros Hne. destruct (nodes_first _ _ _ _ _ _ HN) as [(_ & _ & ? & _) | (_ & A & ->)]; [done |].
    apply Forall_app in Hall as [_ Hall]. by apply Forall_cons in Hall as [Hall _]. }
  assert (0 <= k) as Hk by (by destruct Hg2).
  assert (base <= p) as Hbasep.
  { destruct (nodes_first _ _ _ _ _ _ HN) as [(-> & _) | [Hne _]]; [lia |]. destruct (HinP Hne) as (_ & ? & _). cbn in *. lia. }
  destruct (nodes_replace base L N1 (p, k) N2 T (inside base hi) HN Hheadok Hall) as [HN' Hall'].
  { unfold T. destruct (p + 16 * k =? bp); cbn; [done |]. constructor; [| done]. by repeat split. }
  { intros Hne. specialize (HinP Hne). destruct HinP as (? & ? & ?). cbn in *. unfold T.
    destruct (Z.eqb_spec (p + 16 * k) bp); repeat constructor; cbn; (done || lia). }
  assert (Hcov' : forall y, covered T y <-> covered ((p, k) :: N2) y \/ bp <= y < bp + 16 * n).
  { intros y. unfold T. rewrite (covered_cons p k N2). specialize (Hcov y). rewrite covered_cons in Hcov.
    destruct (Z.eqb_spec (p + 16 * k) bp) as [E | E]; rewrite !covered_cons; [| tauto].
    split; [intros [? | ?]; [destruct (decide (y < bp)); [left; left; lia |] |]; [assert (bp <= y < bp + 16 * n1) by lia; tauto | tauto] |].
    intros [[? | ?] | ?]; [left; lia | |]; destruct Hcov as [_ Hcov]; (destruct Hcov as [? | ?]; [tauto | left; lia | by right]). }
  exists (mkheap (if p + 16 * k =? bp then <[p := mkheader (nxt N3 base) (u32 (k + n1))]> m1 else <[p := mkheader bp k]> m1) p).
  exists (tail (N1 ++ T)). split; [done |]. split; [| split; [| split; [| split]]].
  - split; [done |]. split; [done |]. rewrite HN'. split; [| split; [| split; [| exact Hall']]].
    + cbn. rewrite fmap_app. apply elem_of_app. right. unfold T. destruct (p + 16 * k =? bp); by left.
    + cbn [h_mem]. apply linked_app. unfold T. destruct (Z.eqb_spec (p + 16 * k) bp) as [E | E]; cbn [nxt fst linked].
      * unfold m1. rewrite !linked_insert by done. split; [done |]. rewrite lookup_insert_eq. split; [| done].
        rewrite u32_small by lia. done.
      * unfold m1. rewrite !linked_insert by done. split; [done |]. rewrite lookup_insert_eq. split; [done |].
        rewrite lookup_insert_ne, lookup_insert_eq by lia. done.
    + unfold T. destruct (Z.eqb_spec (p + 16 * k) bp) as [E | E]; apply (gaps_replace _ _ _ _ _ _ Hg).
      * destruct Hg3 as (? & Hlt & Hg3). split; [lia |]. split; [| done]. destruct N3 as [| [c j] N3]; [done |]. lia.
      * split; [lia |]. split; [lia | done].
  - intros y. rewrite <- (covered_nodes base (tail _)), HN', <- (covered_nodes base L), HN, !covered_app, Hcov'. tauto.
  - assert (exists a j, (a, j) ∈ T /\ n <= j /\ (a, j) <> (base, 0)) as (a & j & Hin' & Hj' & Hne).
    { unfold T. destruct (p + 16 * k =? bp); [exists p, (k + n1) | exists bp, n1].
      - split; [by left |]. split; [lia |]. intros [= _ ?]. lia.
      - split; [right; by left |]. split; [lia |]. intros [= _ ?]. lia. }
    exists a, j. split; [| done]. assert ((a, j) ∈ nodes base (tail (N1 ++ T))) as Hin2.
    { rewrite HN'. apply elem_of_app. by right. }
    apply elem_of_cons in Hin2 as [E | ?]; [by destruct Hne | done].
  - apply (f_equal length) in HN, HN'. unfold nodes in HN, HN'. rewrite length_app in HN, HN'. cbn [length] in HN, HN'.
    assert (length T <= S (S (length N2)))%nat by (unfold T; destruct (p + 16 * k =? bp); cbn; lia). lia.
  - intros y Hy Hne. assert (y <> p) as Hyp.
    { intros ->. apply Hy. rewrite HN, fmap_app. apply elem_of_app. right. by left. }
    cbn [h_mem]. unfold m1. destruct (p + 16 * k =? bp); by rewrite !lookup_insert_ne by done.
Qed.

(** ** Allocating a block *)

(** Allocating [nu] headers from the free blocks [L] gives a block of that size at
    [q - 16], which is taken out of the free blocks; no other header changes. *)
Definition allocates (base hi : Z) (hp : heap) (L : list block) (hp' : heap) (q nu : Z) : Prop :=
  exists L' x, heap_ok base hi hp' L' /\ h_mem hp' !! (q - 16) = Some (mkheader x nu) /\
    inside base hi (q - 16, nu) /\ apart L' (q - 16) nu /\
    (forall y, covered L y <-> covered L' y \/ q - 16 <= y < q - 16 + 16 * nu) /\
    (forall y, ~ covered L y -> y <> base -> h_mem hp' !! y = h_mem hp !! y).

Lemma allocates_nonnull base hi hp L hp' q nu : allocates base hi hp L hp' q nu -> q <> 0.
Proof. intros (L' & x & (Hb & _) & _ & (_ & Hq & _) & _). cbn in Hq. lia. Qed.

(** What [malloc] does to the heap when [p], after [prevp], is large enough. *)
Definition take_block (hp : heap) (prevp p nu : Z) (e kp k : Z) : heap * Z :=
  let m := h_mem hp in
  if k =? nu then (mkheap (<[prevp := mkheader e kp]> m) prevp, p + 16)
  else
    let q := p + 16 * u32 (k - nu) in
    let m1 := <[p := mkheader e (u32 (k - nu))]> m in
    (mkheap (<[q := mkheader (from_option s_ptr 0 (m1 !! q)) nu]> m1) prevp, q + 16).

Lemma covered_header base hi L p k : Forall (inside base hi) L -> (p, k) ∈ L -> covered L p.
Proof.
  intros Hall Hin. exists p, k. split; [done |]. rewrite Forall_forall in Hall. destruct (Hall _ Hin) as (? & _). cbn in *. lia.
Qed.

Lemma gaps_drop N1 p k b N2 : gaps (N1 ++ (p, k) :: b :: N2) -> 0 <= b.2 -> gaps ((p, k) :: N2).
Proof.
  intros Hg Hb. apply gaps_app in Hg as [_ (Hk & Hlt & Hg)]. destruct b as [c j]. cbn in Hb.
  split; [done |]. destruct Hg as (_ & Hlt' & Hg). split; [| done]. destruct N2 as [| [d i] N2]; [done |]. lia.
Qed.

(** What is left of the free list behind [prevp]. *)
Definition rest_of (p k nu : Z) (N2 : list block) : list block := if k =? nu then N2 else (p, k - nu) :: N2.

Lemma take_block_mem base hp N1 prevp kp p k N2 nu :
  linked (h_mem hp) (N1 ++ (prevp, kp) :: (p, k) :: N2) base -> gaps (N1 ++ (prevp, kp) :: (p, k) :: N2) ->
  0 < nu <= k -> k < 2 ^ 32 ->
  let q0 := p + 16 * (k - nu) in
  exists m' x, take_block hp prevp p nu (nxt N2 base) kp k = (mkheap m' prevp, q0 + 16) /\
    linked m' (N1 ++ (prevp, kp) :: rest_of p k nu N2) base /\ m' !! q0 = Some (mkheader x nu) /\
    (forall y, y <> prevp -> y <> p -> y <> q0 -> m' !! y = h_mem hp !! y).
Proof.
  intros Hl Hg Hnu Hk q0. apply linked_app in Hl as [Hl1 (Hpv & Hp & Hl2)]. cbn [nxt fst] in Hl1, Hpv.
  pose proof (gaps_nodup _ Hg) as Hnd. rewrite fmap_app, !fmap_cons in Hnd. cbn [fst] in Hnd.
  apply NoDup_app in Hnd as (_ & Hd1 & Hnd). apply NoDup_cons in Hnd as [Hv2 Hnd]. apply NoDup_cons in Hnd as [Hp2 _].
  assert (prevp ∉ N1.*1) as Hv1 by (intros Hc; apply (Hd1 _ Hc); by left).
  assert (p ∉ N1.*1) as Hp1 by (intros Hc; apply (Hd1 _ Hc); right; by left).
  apply not_elem_of_cons in Hv2 as [Hvp Hv2].
  pose proof (proj1 (gaps_app _ _ _ _) Hg) as [Hg1 Hg2]. pose proof Hg2 as (Hkp & Hvlt & Hg3).
  unfold take_block, rest_of. destruct (Z.eqb_spec k nu) as [-> | Hne].
  - assert (q0 = p) as -> by (unfold q0; lia). eexists _, _. split; [done |]. split; [| split].
    + apply linked_app. cbn [nxt fst linked]. rewrite !linked_insert by done. rewrite lookup_insert_eq. done.
    + rewrite lookup_insert_ne by done. exact Hp.
    + intros y Hy _ _. by rewrite lookup_insert_ne.
  - rewrite u32_small by lia. fold q0.
    assert (q0 <> p) as Hqp by (unfold q0; lia). assert (p < q0) as Hlt by (unfold q0; lia).
    assert (q0 ∉ N1.*1) as Hq1.
    { intros Hc. apply list_elem_of_fmap in Hc as ([c j] & -> & Hc). pose proof (gaps_below _ _ _ _ _ Hg1 Hc). cbn in *. lia. }
    assert (q0 ∉ N2.*1) as Hq2.
    { intros Hc. apply list_elem_of_fmap in Hc as ([c j] & Hcq & Hc). pose proof (gaps_above _ _ _ _ _ Hg3 Hc).
      cbn in Hcq. unfold q0 in Hcq. lia. }
    eexists _, _. split; [done |]. split; [| split].
    + apply linked_app. cbn [nxt fst linked]. rewrite !linked_insert by done.
      rewrite !(lookup_insert_ne _ q0) by lia. rewrite lookup_insert_eq, lookup_insert_ne by lia. done.
    + rewrite lookup_insert_eq. done.
    + intros y Hv Hyp Hyq. by rewrite !lookup_insert_ne by done.
Qed.

Lemma take_block_ok base hi hp L N1 prevp kp p k N2 nu :
  heap_ok base hi hp L -> nodes base L = N1 ++ (prevp, kp) :: (p, k) :: N2 -> 0 < nu <= k ->
  let '(hp', q) := take_block hp prevp p nu (nxt N2 base) kp k in allocates base hi hp L hp' q nu.
Proof.
  intros (Hbase & Hhi & Hf & Hl & Hg & Hall) HN Hnu. rewrite HN in Hl, Hg.
  assert (exists A, L = A ++ (p, k) :: N2) as [A HL].
  { destruct (nodes_first base L (N1 ++ [(prevp, kp)]) p k N2) as [(_ & _ & Hnil & _) | (_ & HA)];
      [by rewrite <- app_assoc | by destruct N1 | done]. }
  assert (inside base hi (p, k)) as (_ & Hlo & Hup).
  { rewrite Forall_forall in Hall. apply Hall. rewrite HL. apply elem_of_app. right. by left. }
  cbn in Hlo, Hup. assert (k < 2 ^ 32) as Hk32 by lia.
  destruct (take_block_mem base hp N1 prevp kp p k N2 nu Hl Hg Hnu Hk32) as (m' & x & -> & Hl' & Hq & Hframe).
  set (q0 := p + 16 * (k - nu)) in *. set (R := rest_of p k nu N2) in *.
  pose proof (proj1 (gaps_app _ _ _ _) Hg) as [Hg1 Hg2]. pose proof Hg2 as (Hkp & Hvlt & Hg3).
  assert (Hcov : forall y, covered ((p, k) :: N2) y <-> covered R y \/ q0 <= y < q0 + 16 * nu).
  { intros y. unfold R, rest_of, q0. destruct (Z.eqb_spec k nu) as [-> | Hne]; rewrite !covered_cons; [|].
    - replace (p + 16 * (nu - nu)) with p by lia. tauto.
    - split; [intros [? | ?]; [destruct (decide (y < p + 16 * (k - nu))); [left; left; lia | right; lia] | tauto] |].
      intros [[? | ?] | ?]; [left; lia | by right | left; lia]. }
  assert (HallR : Forall (inside base hi) R).
  { rewrite HL in Hall. apply Forall_app in Hall as [_ Hall]. apply Forall_cons in Hall as [_ Hall].
    unfold R, rest_of. destruct (Z.eqb_spec k nu); [done |]. constructor; [unfold inside; cbn; lia | done]. }
  destruct (nodes_replace base L N1 (prevp, kp) ((p, k) :: N2) ((prevp, kp) :: R) (inside base hi) HN) as [HN' Hall'].
  { intros ->. unfold nodes in HN. by injection HN as <- <- _. }
  { done. } { done. }
  { intros Hne. destruct (nodes_first _ _ _ _ _ _ HN) as [(_ & _ & ? & _) | (_ & A' & HL')]; [done |].
    constructor; [| done]. rewrite HL' in Hall. apply Forall_app in Hall as [_ Hall]. by apply Forall_cons in Hall as [Hall _]. }
  exists (tail (N1 ++ (prevp, kp) :: R)), x. replace (q0 + 16 - 16) with q0 by lia.
  assert (Hbelow : forall b, b ∈ N1 ++ [(prevp, kp)] -> b.1 + 16 * b.2 < p).
  { intros [c j] Hc. change ((prevp, kp) :: (p, k) :: N2) with ([(prevp, kp)] ++ (p, k) :: N2) in Hg.
    rewrite app_assoc in Hg. apply gaps_app in Hg as [Hg _]. by apply (gaps_below _ _ _ _ _ Hg). }
  split; [| split; [done |]; split; [unfold inside, q0; cbn; lia |]; split; [| split]].
  - split; [done |]. split; [done |]. rewrite HN'. split; [cbn; rewrite fmap_app; apply elem_of_app; right; by left |].
    split; [done |]. split; [| done]. apply (gaps_replace _ _ _ _ _ _ Hg). unfold R, rest_of.
    destruct (Z.eqb_spec k nu); [apply (gaps_drop [] prevp kp (p, k)); [done | cbn; lia] |].
    split; [done |]. split; [done |]. destruct Hg3 as (_ & Hlt & Hg3). split; [lia |]. split; [| done].
    destruct N2 as [| [c j] N2]; [done |]. lia.
  - apply Forall_forall. intros [c j] Hc. assert ((c, j) ∈ N1 ++ (prevp, kp) :: R) as Hin.
    { rewrite <- HN'. by right. }
    change ((prevp, kp) :: R) with ([(prevp, kp)] ++ R) in Hin. rewrite app_assoc in Hin.
    apply elem_of_app in Hin as [Hin | Hin]; [left; pose proof (Hbelow _ Hin); unfold q0; lia |].
    unfold R, rest_of in Hin. cbn. destruct (Z.eqb_spec k nu).
    + right. pose proof (gaps_above _ _ _ _ _ Hg3 Hin). unfold q0. lia.
    + apply elem_of_cons in Hin as [[= -> ->] | Hin]; [left; unfold q0; lia |].
      right. pose proof (gaps_above _ _ _ _ _ Hg3 Hin). unfold q0. lia.
  - intros y. rewrite <- (covered_nodes base L), HN, <- (covered_nodes base (tail _)), HN', !covered_app, !(covered_cons prevp), Hcov.
    tauto.
  - intros y Hy Hyb. apply Hframe.
    + intros ->. destruct (nodes_first _ _ _ _ _ _ HN) as [(-> & _) | (_ & A' & HL')]; [done |].
      apply Hy. apply (covered_header base hi L prevp kp Hall). rewrite HL'. apply elem_of_app. right. by left.
    + intros ->. apply Hy. apply (covered_header base hi L p k Hall). rewrite HL. apply elem_of_app. right. by left.
    + intros ->. apply Hy. exists p, k. split; [rewrite HL; apply elem_of_app; right; by left | unfold q0; lia].
Qed.

(** ** The search of [malloc] *)

(** The last address of a list, [a] if it is empty. *)
Definition lastaddr (a : Z) (N : list block) : Z := from_option fst a (last N).

Lemma lastaddr_cons a b N : lastaddr a (b :: N) = lastaddr b.1 N.
Proof. unfold lastaddr. rewrite last_cons. by destruct (last N). Qed.
Lemma lastaddr_app a N M : lastaddr a (N ++ M) = lastaddr (lastaddr a N) M.
Proof. unfold lastaddr. rewrite last_app. by destruct (last M). Qed.

Section search.
Context {W : Type} `{OS xcall W}.

(** Blocks that are too small are passed over. *)
Lemma malloc_scan hp nu e (P : uproc xcall W) B : forall prevp fuel,
  linked (h_mem hp) B e -> Forall (fun b => b.2 < nu) B -> h_freep hp ∉ B.*1 ->
  malloc_loop (length B + fuel) hp prevp (nxt B e) nu P = malloc_loop fuel hp (lastaddr prevp B) e nu P.
Proof.
  induction B as [| [p k] B IH]; intros prevp fuel Hl Hs Hf; [done |].
  destruct Hl as [Hp Hl]. apply Forall_cons in Hs as [Hk Hs]. cbn in Hk. apply not_elem_of_cons in Hf as [Hfp Hf].
  rewrite lastaddr_cons. cbn [length Nat.add nxt fst malloc_loop]. rewrite Hp. cbn [ulift]. unfold ubind at 1. cbn [uret s_size s_ptr].
  rewrite (proj2 (Z.leb_gt nu k)) by lia. rewrite (proj2 (Z.eqb_neq p (h_freep hp))) by (intros ->; done).
  by apply IH.
Qed.

Lemma malloc_take hp nu e kp k prevp p fuel (P : uproc xcall W) :
  h_mem hp !! prevp = Some (mkheader p kp) -> h_mem hp !! p = Some (mkheader e k) -> nu <= k ->
  malloc_loop (S fuel) hp prevp p nu P = URet (take_block hp prevp p nu e kp k) P.
Proof.
  intros Hv Hp Hk. cbn [malloc_loop]. rewrite Hp. cbn [ulift]. unfold ubind at 1. cbn [uret s_size s_ptr].
  rewrite (proj2 (Z.leb_le nu k)) by done. unfold take_block. destruct (k =? nu); [| done].
  rewrite Hv. done.
Qed.

Lemma first_big nu (N : list block) :
  Forall (fun b => b.2 < nu) N \/ exists N1 p k N2, N = N1 ++ (p, k) :: N2 /\ Forall (fun b => b.2 < nu) N1 /\ nu <= k.
Proof.
  induction N as [| [p k] N IH]; [by left |]. destruct (decide (nu <= k)).
  - right. exists [], p, k, N. by repeat split.
  - destruct IH as [IH | (N1 & q & j & N2 & -> & Hs & Hj)].
    + left. constructor; [cbn; lia | done].
    + right. exists ((p, k) :: N1), q, j, N2. split; [done |]. split; [constructor; [cbn; lia | done] | done].
Qed.

(** The order in which the search visits the blocks: from behind [freep] round to
    [freep] itself. *)
Lemma visit_order base hi hp L :
  heap_ok base hi hp L -> exists A kf B, nodes base L = A ++ (h_freep hp, kf) :: B /\
    h_mem hp !! h_freep hp = Some (mkheader (nxt B base) kf) /\
    linked (h_mem hp) (B ++ A) (h_freep hp) /\ nxt (B ++ A) (h_freep hp) = nxt B base /\
    (h_freep hp ∉ (B ++ A).*1).
Proof.
  intros (_ & _ & Hf & Hl & Hg & _). apply list_elem_of_fmap in Hf as ([f kf] & Hfe & Hf). cbn in Hfe. rewrite Hfe.
  apply list_elem_of_split in Hf as (A & B & HN). exists A, kf, B. split; [done |].
  pose proof (gaps_nodup _ Hg) as Hnd. rewrite HN in Hl, Hnd. apply linked_app in Hl as [Hl1 [Hfl Hl2]]. cbn [nxt fst] in Hl1.
  split; [done |]. assert (nxt A f = base) as HA.
  { destruct A as [| [a j] A]; unfold nodes in HN; cbn in *; congruence. }
  split; [apply linked_app; by rewrite HA |]. split; [by rewrite nxt_app, HA |].
  rewrite fmap_app, fmap_cons in Hnd. apply NoDup_app in Hnd as (_ & Hd & Hnd). apply NoDup_cons in Hnd as [HB _].
  rewrite fmap_app. apply not_elem_of_app. split; [done |]. intros Hc. apply (Hd _ Hc). by left.
Qed.

(** The first block the search finds large enough, and the one before it. *)
Lemma search_stops base hi hp L nu A kf B :
  heap_ok base hi hp L -> 0 < nu -> nodes base L = A ++ (h_freep hp, kf) :: B ->
  Forall (fun b => b.2 < nu) L \/
  exists C p k N1 kp N2, Forall (fun b => b.2 < nu) C /\ nu <= k /\ linked (h_mem hp) C p /\ nxt C p = nxt B base /\
    (h_freep hp ∉ C.*1) /\ (length C <= length L)%nat /\
    nodes base L = N1 ++ (lastaddr (h_freep hp) C, kp) :: (p, k) :: N2.
Proof.
  intros (_ & _ & _ & Hl & Hg & _) Hnu HN. pose proof (gaps_nodup _ Hg) as Hnd.
  assert (length (nodes base L) = S (length L)) as Hlen by done. rewrite HN in Hl, Hnd, Hlen.
  rewrite length_app in Hlen. cbn [length] in Hlen.
  apply linked_app in Hl as [HlA [Hf HlB]]. cbn [nxt fst] in HlA.
  rewrite fmap_app, fmap_cons in Hnd. apply NoDup_app in Hnd as (_ & HdA & Hnd). apply NoDup_cons in Hnd as [HfB _].
  cbn [fst] in HfB. assert (h_freep hp ∉ A.*1) as HfA by (intros Hc; apply (HdA _ Hc); by left).
  destruct (first_big nu B) as [HsB | (C & p & k & N2 & -> & Hs & Hk)].
  2:{ right. destruct (exists_last (l := (h_freep hp, kf) :: C)) as (N1 & [v kp] & Hlast); [done |].
      exists C, p, k, (A ++ N1), kp, N2. apply linked_app in HlB as [HlC _].
      rewrite fmap_app in HfB. apply not_elem_of_app in HfB as [HfC _].
      assert (lastaddr (h_freep hp) C = v) as ->.
      { change (h_freep hp) with (fst (h_freep hp, kf)). rewrite <- (lastaddr_cons 0), Hlast.
        unfold lastaddr. by rewrite last_snoc. }
      repeat (split; [done || (rewrite length_app in Hlen; lia) || (by rewrite nxt_app) |]).
      rewrite HN. change ((h_freep hp, kf) :: C ++ (p, k) :: N2) with (((h_freep hp, kf) :: C) ++ (p, k) :: N2).
      rewrite Hlast, <- !app_assoc. done. }
  destruct (first_big nu (A ++ [(h_freep hp, kf)])) as [HsA | (C & p & k & D & HC & Hs & Hk)].
  { left. assert (Forall (fun b => b.2 < nu) (nodes base L)) as Hall; [| by apply Forall_cons in Hall as [_ Hall]].
    rewrite HN, cons_middle, app_assoc. by apply Forall_app. }
  right. assert (nodes base L = C ++ (p, k) :: D ++ B) as HN'.
  { rewrite HN, cons_middle, app_assoc, HC, <- app_assoc. done. }
  destruct (exists_last (l := C)) as (N1 & [v kp] & ->).
  { intros ->. unfold nodes in HN'. injection HN' as <- <- _. lia. }
  exists (B ++ N1 ++ [(v, kp)]), p, k, N1, kp, (D ++ B).
  assert (exists A2, A = (N1 ++ [(v, kp)]) ++ A2 /\ nxt A2 (h_freep hp) = p) as (A2 & -> & HA2).
  { clear - HC. revert HC. generalize (N1 ++ [(v, kp)]). intros C HC. revert A HC.
    induction C as [| c C IH]; intros A HC; [exists A; split; [done |] |].
    - destruct A as [| a A]; cbn in *; by injection HC as -> _.
    - destruct A as [| a A]; cbn in HC; [by destruct C |]. injection HC as -> HC.
      destruct (IH _ HC) as (A2 & -> & HA2). by exists A2. }
  assert (base = nxt (N1 ++ [(v, kp)]) p) as Hbase.
  { unfold nodes in HN'. destruct N1 as [| [c j] N1]; cbn in *; congruence. }
  apply linked_app in HlA as [HlA _]. rewrite HA2 in HlA.
  rewrite fmap_app in HfA. apply not_elem_of_app in HfA as [HfA _].
  split; [by apply Forall_app |]. split; [done |]. split; [apply linked_app; by rewrite <- Hbase |].
  split; [by rewrite nxt_app, <- Hbase |]. split; [rewrite fmap_app; by apply not_elem_of_app |].
  split; [rewrite length_app in Hlen; rewrite length_app; lia |].
  assert (lastaddr (h_freep hp) (B ++ N1 ++ [(v, kp)]) = v) as ->.
  { unfold lastaddr. by rewrite app_assoc, last_snoc. }
  by rewrite HN', <- app_assoc.
Qed.

(** If some free block is large enough the search takes one. *)
Lemma malloc_found base hi hp L nu fuel (P : uproc xcall W) h :
  heap_ok base hi hp L -> 0 < nu -> ~ Forall (fun b => b.2 < nu) L -> (S (length L) <= fuel)%nat ->
  h_mem hp !! h_freep hp = Some h ->
  exists hp' q, malloc_loop fuel hp (h_freep hp) (s_ptr h) nu P = URet (hp', q) P /\ allocates base hi hp L hp' q nu.
Proof.
  intros Hok Hnu Hbig Hfuel Hh.
  destruct (visit_order base hi hp L Hok) as (A & kf & B & HN & Hfm & _).
  rewrite Hfm in Hh. injection Hh as <-. cbn [s_ptr].
  destruct (search_stops base hi hp L nu A kf B Hok Hnu HN) as [? | (C & p & k & N1 & kp & N2 & Hs & Hk & Hl & Hnx & Hf & Hlen & HN')]; [done |].
  pose proof Hok as (_ & _ & _ & Hlk & _). rewrite HN' in Hlk. apply linked_app in Hlk as [_ (Hv & Hp & _)].
  pose proof (take_block_ok base hi hp L N1 _ kp p k N2 nu Hok HN' ltac:(lia)) as Htake.
  destruct (take_block hp (lastaddr (h_freep hp) C) p nu (nxt N2 base) kp k) as [hp' q] eqn:Et.
  exists hp', q. split; [| done]. rewrite <- Hnx.
  replace fuel with (length C + S (fuel - length C - 1))%nat by lia.
  rewrite malloc_scan by done. rewrite (malloc_take hp nu (nxt N2 base) kp k); [by rewrite Et | done | done | done].
Qed.

(** If all are too small it asks for more memory. *)
Lemma malloc_none base hi hp L nu fuel (P : uproc xcall W) h :
  heap_ok base hi hp L -> 0 < nu -> Forall (fun b => b.2 < nu) L -> h_mem hp !! h_freep hp = Some h ->
  malloc_loop (length L + S fuel) hp (h_freep hp) (s_ptr h) nu P =
  (let! '(hp1, p1) := morecore hp nu in
   if p1 =? 0 then uret (hp1, 0) else
   let! h1 := ulift (h_mem hp1 !! p1) in
   malloc_loop fuel hp1 p1 (s_ptr h1) nu) P.
Proof.
  intros Hok Hnu Hs Hh. destruct (visit_order base hi hp L Hok) as (A & kf & B & HN & Hfm & Hl & Hnx & Hnf).
  rewrite Hfm in Hh. injection Hh as <-. cbn [s_ptr]. rewrite <- Hnx.
  assert (Forall (fun b => b.2 < nu) (nodes base L)) as Hall by (by constructor). rewrite HN in Hall.
  apply Forall_app in Hall as [HA Hall]. apply Forall_cons in Hall as [Hkf HB]. cbn in Hkf.
  assert (length L = length (B ++ A)) as ->.
  { assert (length (nodes base L) = S (length L)) as Hlen by done. rewrite HN in Hlen. rewrite !length_app in *. cbn in *. lia. }
  rewrite malloc_scan; [| done | by apply Forall_app | done].
  cbn [malloc_loop]. rewrite Hfm. cbn [ulift]. unfold ubind at 1. cbn [uret s_size].
  rewrite (proj2 (Z.leb_gt nu kf)), Z.eqb_refl by lia. done.
Qed.

(** ** More memory *)
Context (top : W -> Z).

(** [sbrk] fails, or returns the end of the process's memory and moves it up. *)
Class SbrkGrows : Prop := sbrk_law : forall w n, 0 < n < 2 ^ 31 -> exists r w',
  os_call (CSbrk n SBRK_EAGER) w = (mkanswer r [], w') /\
  (r = SBRK_ERROR /\ top w' = top w \/ r = top w /\ top w' = top w + n /\ top w' < SBRK_ERROR).
Context `{!SbrkGrows}.

Lemma heap_ok_grow base hi hi' hp L p h :
  heap_ok base hi hp L -> base + 16 <= hi -> hi <= hi' -> hi' < base + 2 ^ 36 -> hi <= p ->
  heap_ok base hi' (mkheap (<[p := h]> (h_mem hp)) (h_freep hp)) L.
Proof.
  intros (Hb & _ & Hf & Hl & Hg & Hall) Hlo Hle Hhi Hp.
  split; [done |]. split; [done |]. split; [done |]. split; [| split; [done |]].
  - cbn [h_mem]. apply linked_insert; [| done]. intros Hc. apply list_elem_of_fmap in Hc as ([a n] & -> & Hc).
    apply elem_of_cons in Hc as [[= -> ->] | Hc]; [cbn in *; lia |].
    rewrite Forall_forall in Hall. destruct (Hall _ Hc) as (? & ? & ?). cbn in *. lia.
  - eapply Forall_impl; [exact Hall |]. cbn. lia.
Qed.

Lemma nodes_covered base hi L y : Forall (inside base hi) L -> y ∈ (nodes base L).*1 -> y = base \/ covered L y.
Proof.
  intros Hall Hy. apply list_elem_of_fmap in Hy as ([a n] & -> & Hy). apply elem_of_cons in Hy as [[= -> ->] | Hy]; [by left |].
  right. by apply (covered_header base hi L a n).
Qed.

(** The process has asked for memory, room for [nu] headers at least, and got none. *)
Definition refused (nu : Z) (P P' : uproc xcall W) : Prop :=
  exists n d, 16 * nu <= n /\ os_call (CSbrk n SBRK_EAGER) (u_os P) = (mkanswer SBRK_ERROR d, u_os P') /\
    u_trace P' = u_trace P ++ [CSbrk n SBRK_EAGER].

Lemma morecore_eq base hp L nu (P : uproc xcall W) :
  heap_ok base (top (u_os P)) hp L -> base + 16 <= top (u_os P) -> top (u_os P) + 2 ^ 31 < base + 2 ^ 36 ->
  0 < nu -> 16 * nu < 2 ^ 31 ->
  exists P', (morecore hp nu P = URet (hp, 0) P' /\ top (u_os P') = top (u_os P) /\ refused nu P P') \/
    exists hp2 L2, morecore hp nu P = URet (hp2, h_freep hp2) P' /\ heap_ok base (top (u_os P')) hp2 L2 /\
      top (u_os P) < top (u_os P') /\
      (forall y, covered L2 y <-> covered L y \/ top (u_os P) <= y < top (u_os P')) /\
      ~ Forall (fun b => b.2 < nu) L2 /\ (length L2 <= S (length L))%nat /\
      (forall y, ~ covered L2 y -> y <> base -> h_mem hp2 !! y = h_mem hp !! y).
Proof.
  intros Hok Hlo Hhi Hnu Hmax. unfold morecore. set (nu' := if nu <? 4096 then 4096 else nu).
  assert (nu <= nu' /\ 0 < nu' /\ 16 * nu' < 2 ^ 31) as (Hle & Hpos & Hlt) by (unfold nu'; destruct (Z.ltb_spec nu 4096); lia).
  cbv zeta. rewrite s32_small by lia. unfold sbrk.
  destruct (sbrk_law (u_os P) (nu' * 16) ltac:(lia)) as (r & w' & Hos & Hr).
  rewrite (ubind_ret _ _ _ _ _ (call_eq _ _ _ _ Hos)). cbn [a_ret].
  exists (mkuproc (u_trace P ++ [CSbrk (nu' * 16) SBRK_EAGER]) w'). cbn [u_os].
  destruct Hr as [[-> Ht] | (-> & Ht & Hsmall)]; [left; rewrite Z.eqb_refl; split; [done |]; split; [done |]; eexists _, _; split; [| by split]; lia | right].
  rewrite (proj2 (Z.eqb_neq _ _)) by lia. set (t := top (u_os P)) in *.
  pose proof (heap_ok_grow base t (top w') hp L t (mkheader (from_option s_ptr 0 (h_mem hp !! t)) nu') Hok Hlo ltac:(lia) ltac:(lia) ltac:(lia)) as Hok1.
  pose proof Hok as (_ & _ & _ & _ & _ & Hall).
  destruct (free_eq base (top w') _ L t nu' (from_option s_ptr 0 (h_mem hp !! t)) Hok1) as (hp2 & L2 & Hfree & Hok2 & Hcov & (a & k & Hin & Hk) & Hlen & Hfr).
  - cbn. by rewrite lookup_insert_eq.
  - unfold inside. cbn. lia.
  - eapply Forall_impl; [exact Hall |]. cbn. lia.
  - exists hp2, L2. rewrite Hfree. cbn [ulift]. split; [done |]. split; [done |]. split; [lia |].
    split; [intros y; rewrite Hcov; replace (top w') with (t + 16 * nu') by lia; done |]. split; [| split; [done |]].
    + intros Hs. rewrite Forall_forall in Hs. specialize (Hs _ Hin). cbn in Hs. lia.
    + intros y Hy Hyb. rewrite Hcov in Hy. rewrite Hfr.
      * cbn. rewrite lookup_insert_ne; [done |]. intros ->. apply Hy. right. lia.
      * intros Hc. destruct (nodes_covered base t L y Hall Hc); [done | tauto].
      * intros ->. apply Hy. right. lia.
Qed.
End search.

(** ** Properties *)

Lemma nunits_small nbytes : 0 <= nbytes < 2 ^ 31 - 32 ->
  0 < nunits_of nbytes /\ 16 * nunits_of nbytes < 2 ^ 31 /\ nbytes <= 16 * (nunits_of nbytes - 1).
Proof.
  intros Hn. unfold nunits_of. pose proof (Z.div_mod (nbytes + 15) 16 ltac:(lia)).
  pose proof (Z.mod_pos_bound (nbytes + 15) 16 ltac:(lia)). rewrite u32_small by lia. lia.
Qed.


(** C26: [free] gives a block back: the free memory becomes exactly what it was and the
    block, in a free list that is again sorted and coalesced, so that adjacent free
    blocks are joined whatever the order they are freed in. *)
Theorem free_coalesces base hi hp L bp n x :
  heap_ok base hi hp L -> h_mem hp !! bp = Some (mkheader x n) -> inside base hi (bp, n) -> apart L bp n ->
  exists hp' L', free hp (bp + 16) = Some hp' /\ heap_ok base hi hp' L' /\
    (forall y, covered L' y <-> covered L y \/ bp <= y < bp + 16 * n).
Proof.
  intros Hok Hb Hin Ha. destruct (free_eq base hi hp L bp n x Hok Hb Hin Ha) as (hp' & L' & H1 & H2 & H3 & _).
  by exists hp', L'.
Qed.

(** Freeing the first block of an empty heap. *)
Lemma free_first base t x n :
  base < t -> 0 < n ->
  free (mkheap (<[t := mkheader x n]> {[base := mkheader base 0]}) base) (t + 16) =
    Some (mkheap (<[base := mkheader t 0]> (<[t := mkheader base n]> (<[t := mkheader x n]> {[base := mkheader base 0]}))) base).
Proof.
  intros Hlt Hn. unfold free. replace (t + 16 - 16) with t by lia. cbn [h_mem h_freep].
  rewrite map_size_insert_None by (by rewrite lookup_singleton_ne by lia). rewrite map_size_singleton. cbn [free_find].
  rewrite (lookup_insert_ne _ t base), lookup_singleton_eq by lia. cbn [mbind option_bind s_ptr].
  rewrite (proj2 (Z.ltb_lt base t)), (proj2 (Z.ltb_ge t base)), Z.leb_refl by lia. cbn [andb orb mbind option_bind].
  rewrite lookup_insert_eq. cbn [mbind option_bind].
  rewrite (lookup_insert_ne _ t base), lookup_singleton_eq by lia. cbn [mbind option_bind s_ptr s_size].
  rewrite (proj2 (Z.eqb_neq (t + 16 * n) base)) by lia. cbn [mbind option_bind].
  rewrite lookup_insert_eq, !(lookup_insert_ne _ t base), lookup_singleton_eq by lia. cbn [mbind option_bind s_size s_ptr].
  by rewrite (proj2 (Z.eqb_neq (base + 16 * 0) t)) by lia.
Qed.

(** A request of more than 4294967280 bytes wraps: the size passed to [sbrk] is
    truncated to 16 bytes, and [malloc] still returns a block said to have room for
    the whole request, at the end of the process's memory. *)
Theorem malloc_huge_wraps {W} `{OS xcall W} (top : W -> Z) `{!SbrkGrows top} base nbytes (P : uproc xcall W) :
  0 < base -> base + 16 <= top (u_os P) < 2 ^ 38 -> 2 ^ 32 - 16 < nbytes < 2 ^ 32 ->
  exists hp' q P', malloc base (mkheap ∅ 0) nbytes P = URet (hp', q) P' /\
    ((q = 0 /\ top (u_os P') = top (u_os P)) \/
     (q = top (u_os P) + 16 /\ top (u_os P') = top (u_os P) + 16 /\
      exists x, h_mem hp' !! (q - 16) = Some (mkheader x (2 ^ 28 + 1)))).
Proof.
  intros Hb Ht Hn. set (t := top (u_os P)) in *.
  assert (nunits_of nbytes = 2 ^ 28 + 1) as Hnu.
  { unfold nunits_of. assert ((nbytes + 15) / 16 = 2 ^ 28) as -> by (symmetry; apply (Z.div_unique _ _ _ (nbytes + 15 - 2 ^ 32)); lia). done. }
  unfold malloc. rewrite Hnu. unfold started. cbn [h_freep h_mem Z.eqb]. cbv zeta. rewrite lookup_insert_eq.
  cbn [ulift]. unfold ubind at 1. cbn [uret s_ptr].
  rewrite insert_empty, map_size_singleton. change (2 * 1 + 4)%nat with (S 5). remember 5%nat as f eqn:Ef.
  cbn [malloc_loop h_mem h_freep]. rewrite lookup_singleton_eq.
  cbn [ulift]. unfold ubind at 1. cbn [uret s_size]. rewrite Z.eqb_refl. change (2 ^ 28 + 1 <=? 0) with false. cbv iota.
  unfold morecore. change (2 ^ 28 + 1 <? 4096) with false. change (s32 ((2 ^ 28 + 1) * 16)) with 16. unfold sbrk.
  destruct (sbrk_law top (u_os P) 16 ltac:(lia)) as (r & w' & Hos & Hr).
  rewrite ubind_assoc, (ubind_ret _ _ _ _ _ (call_eq _ _ _ _ Hos)). cbn [a_ret].
  destruct Hr as [[-> Ht'] | (-> & Ht' & Hsm)].
  { rewrite Z.eqb_refl. cbn. eexists _, _, _. split; [reflexivity |]. by left. }
  fold t. rewrite (proj2 (Z.eqb_neq t SBRK_ERROR)) by (unfold SBRK_ERROR; lia).
  cbn [h_mem h_freep]. rewrite free_first by lia. cbn [ulift]. unfold ubind at 1 2. cbn [uret h_freep h_mem].
  rewrite (proj2 (Z.eqb_neq base 0)), lookup_insert_eq by lia. cbn [ulift]. unfold ubind at 1. cbn [uret s_ptr].
  subst f. erewrite malloc_take; [| cbn; apply lookup_insert_eq | cbn; rewrite lookup_insert_ne by lia; apply lookup_insert_eq | lia].
  unfold take_block. rewrite Z.eqb_refl. eexists _, _, _. split; [reflexivity |]. right.
  split; [done |]. split; [exact Ht' |]. exists base.
  replace (t + 16 - 16) with t by lia. cbn [h_mem]. by rewrite !(lookup_insert_ne _ base t), lookup_insert_eq by lia.
Qed.

(** ** The properties at a concrete heap *)

(** A system whose state is the end of the process's memory. *)
Definition brk_call (c : xcall) (w : Z) : answer * Z :=
  match c with
  | CSbrk n _ => if w + n <? 2 ^ 30 then (mkanswer w [], w + n) else (mkanswer SBRK_ERROR [], w)
  | _ => (mkanswer 0 [], w)
  end.
#[local] Instance brk_os : OS xcall Z := brk_call.
#[local] Instance brk_grows : SbrkGrows (fun w : Z => w).
Proof.
  intros w n Hn. unfold os_call, brk_os, brk_call. destruct (Z.ltb_spec (w + n) (2 ^ 30)).
  - eexists _, _. split; [reflexivity |]. right. unfold SBRK_ERROR. lia.
  - eexists _, _. split; [reflexivity |]. by left.
Qed.

Lemma fresh_ok hi : 8192 <= hi < 2 ^ 36 -> heap_ok 4096 hi (started 4096 (mkheap ∅ 0)) [].
Proof.
  intros Hhi. split; [lia |]. split; [lia |]. split; [by left |]. split; [| split; [cbn; lia | constructor]].
  split; [by vm_compute | done].
Defined.


(** Two blocks handed out, the first one free again; the second is freed. *)
Definition sample_heap : heap :=
  mkheap (<[4096 := mkheader 8192 0]> (<[8192 := mkheader 4096 8]> (<[8320 := mkheader 0 8]> ∅))) 4096.
Lemma free_coalesces_witness :
  exists hp' L', free sample_heap (8320 + 16) = Some hp' /\ heap_ok 4096 65536 hp' L' /\
    (forall y, covered L' y <-> covered [(8192, 8)] y \/ 8320 <= y < 8320 + 16 * 8).
Proof.
  apply (free_coalesces 4096 65536 sample_heap [(8192, 8)] 8320 8 0).
  - split; [lia |]. split; [lia |]. split; [by left |].
    split; [split; [by vm_compute | split; [by vm_compute | done]] |].
    split; [cbn; lia | repeat constructor; cbn; lia].
  - by vm_compute.
  - unfold inside. cbn. lia.
  - repeat constructor. cbn. lia.
Defined.

Lemma malloc_huge_wraps_witness :
  exists hp' q P', malloc 4096 (mkheap ∅ 0) (2 ^ 32 - 1) (mkuproc [] 8192) = URet (hp', q) P' /\
    ((q = 0 /\ u_os P' = 8192) \/
     (q = 8192 + 16 /\ u_os P' = 8192 + 16 /\ exists x, h_mem hp' !! (q - 16) = Some (mkheader x (2 ^ 28 + 1)))).
Proof.
  apply (malloc_huge_wraps (fun w : Z => w) 4096 (2 ^ 32 - 1) (mkuproc [] 8192)); cbn; lia.
Defined.
