(* ===== verification/Shell.v ===== *)
(** * The shell ([user/sh.c])

    The command parser, the code that runs a parsed command, and the main loop.
    Pointers into the command line are offsets; a parsed command holds, as in the
    code, the start and the end of each word, and [nulterminate] writes the nuls.
    The nodes [malloc] returns are values; that it finds memory for them is
    assumed. *)
From S2P Require Import Prelude CString User Ulib.
Local Open Scope Z_scope.

(** ** Commands *)
Definition MAXARGS : nat := 10.
(** A word of the command line: its start and its end. *)
Abbreviation word := (nat * nat)%type.
Inductive cmd : Type :=
| EXEC (argv : list word)
| REDIR (c : cmd) (file : word) (mode fd : Z)
| PIPE (left right : cmd)
| LIST (left right : cmd)
| BACK (c : cmd).

(** ** Tokens *)
Definition whitespace : list Z := [32; 9; 13; 10; 11].
Definition symbols : list Z := str "<|>&;()".
(** [strchr(l, c)] of a nonzero character. *)
Definition oneof (c : Z) (l : list Z) : bool := existsb (Z.eqb c) l.
(** The character at an offset; the nul at the end. *)
Definition char_at (buf : list Z) (s : nat) : Z := default 0 (buf !! s).

(** [while(s < es && P( *s )) s++], with [es] the end of [buf]. *)
Fixpoint span (P : Z -> bool) (l : list Z) : nat :=
  match l with
  | [] => O
  | c :: r => if P c then S (span P r) else O
  end.
Definition skip (P : Z -> bool) (buf : list Z) (s : nat) : nat := (s + span P (drop s buf))%nat.
Definition is_ws (c : Z) : bool := oneof c whitespace.
Definition is_word (c : Z) : bool := negb (oneof c whitespace) && negb (oneof c symbols).

(** The result, the word, and the new position. *)
Definition gettoken (buf : list Z) (ps : nat) : Z * word * nat :=
  let s := skip is_ws buf ps in
  let q := s in
  let c := char_at buf s in
  let '(ret, s) :=
    if c =? 0 then (c, s)
    else if oneof c (str "|();&<") then (c, S s)
    else if c =? 62 then
      if char_at buf (S s) =? 62 then (43, S (S s)) else (62, S s)
    else (97, skip is_word buf s) in
  let eq := s in
  (ret, (q, eq), skip is_ws buf s).

Definition peek (buf : list Z) (ps : nat) (toks : list Z) : nat * bool :=
  let s := skip is_ws buf ps in
  (s, negb (char_at buf s =? 0) && oneof (char_at buf s) toks).

Section shell.
Context {W : Type} `{OS xcall W}.
Abbreviation UX := (U xcall W).

Definition sh_panic {A} (s : string) : UX A :=
  fprintf 2 (str "%s" ++ [10]) [VStr (Some (str s))] ;;; uexit 1.
Definition fork1 : UX Z :=
  let! pid := call CFork in
  if pid =? -1 then sh_panic "fork" else uret pid.

(** ** The parser *)

(** [cmd->argv[argc] = q] for the EXEC node below the redirections in [ret]: [ret]
    and [cmd] share that node. *)
Fixpoint add_arg (ret : cmd) (w : word) : cmd :=
  match ret with
  | EXEC argv => EXEC (argv ++ [w])
  | REDIR c file mode fd => REDIR (add_arg c w) file mode fd
  | c => c
  end.

Definition redir_of (tok : Z) (c : cmd) (w : word) : cmd :=
  if tok =? 60 then REDIR c w O_RDONLY 0
  else if tok =? 62 then REDIR c w (Z.lor (Z.lor O_WRONLY O_CREATE) O_TRUNC) 1
  else if tok =? 43 then REDIR c w (Z.lor O_WRONLY O_CREATE) 1
  else c.

Fixpoint parseredirs (fuel : nat) (c : cmd) (buf : list Z) (ps : nat) : UX (cmd * nat) :=
  match fuel with
  | O => ufuel
  | S n =>
      let '(ps, more) := peek buf ps (str "<>") in
      if more then
        let '(tok, _, ps) := gettoken buf ps in
        let '(tok2, w, ps) := gettoken buf ps in
        if tok2 =? 97 then parseredirs n (redir_of tok c w) buf ps
        else sh_panic "missing file for redirection"
      else uret (c, ps)
  end.

(** The loop of [parseexec] over the arguments. *)
Fixpoint parseargs (fuel : nat) (ret : cmd) (argc : nat) (buf : list Z) (ps : nat) : UX (cmd * nat) :=
  match fuel with
  | O => ufuel
  | S n =>
      let '(ps, stop) := peek buf ps (str "|)&;") in
      if stop then uret (ret, ps) else
      let '(tok, w, ps) := gettoken buf ps in
      if tok =? 0 then uret (ret, ps)
      else if negb (tok =? 97) then sh_panic "syntax"
      else
        let ret := add_arg ret w in
        let argc := S argc in
        if decide (MAXARGS <= argc)%nat then sh_panic "too many args" else
        let! '(ret, ps) := parseredirs n ret buf ps in
        parseargs n ret argc buf ps
  end.

(** [while(peek(ps, es, "&")) ...]. *)
Fixpoint parseamps (fuel : nat) (c : cmd) (buf : list Z) (ps : nat) : UX (cmd * nat) :=
  match fuel with
  | O => ufuel
  | S n =>
      let '(ps, more) := peek buf ps (str "&") in
      if more then let '(_, _, ps) := gettoken buf ps in parseamps n (BACK c) buf ps
      else uret (c, ps)
  end.

Fixpoint parseline (fuel : nat) (buf : list Z) (ps : nat) {struct fuel} : UX (cmd * nat) :=
  match fuel with
  | O => ufuel
  | S n =>
      let! '(c, ps) := parsepipe n buf ps in
      let! '(c, ps) := parseamps n c buf ps in
      let '(ps, more) := peek buf ps (str ";") in
      if more then
        let '(_, _, ps) := gettoken buf ps in
        let! '(r, ps) := parseline n buf ps in
        uret (LIST c r, ps)
      else uret (c, ps)
  end
with parsepipe (fuel : nat) (buf : list Z) (ps : nat) {struct fuel} : UX (cmd * nat) :=
  match fuel with
  | O => ufuel
  | S n =>
      let! '(c, ps) := parseexec n buf ps in
      let '(ps, more) := peek buf ps (str "|") in
      if more then
        let '(_, _, ps) := gettoken buf ps in
        let! '(r, ps) := parsepipe n buf ps in
        uret (PIPE c r, ps)
      else uret (c, ps)
  end
with parseexec (fuel : nat) (buf : list Z) (ps : nat) {struct fuel} : UX (cmd * nat) :=
  match fuel with
  | O => ufuel
  | S n =>
      let '(ps, open) := peek buf ps (str "(") in
      if open then parseblock n buf ps else
      let! '(ret, ps) := parseredirs n (EXEC []) buf ps in
      parseargs n ret 0 buf ps
  end
with parseblock (fuel : nat) (buf : list Z) (ps : nat) {struct fuel} : UX (cmd * nat) :=
  match fuel with
  | O => ufuel
  | S n =>
      let '(ps, open) := peek buf ps (str "(") in
      if negb open then sh_panic "parseblock" else
      let '(_, _, ps) := gettoken buf ps in
      let! '(c, ps) := parseline n buf ps in
      let '(ps, close) := peek buf ps (str ")") in
      if negb close then sh_panic "syntax - missing )" else
      let '(_, _, ps) := gettoken buf ps in
      parseredirs n c buf ps
  end.

(** Writing a nul at the ends of the words, in the memory that holds the line. *)
Fixpoint nul_words (argv : list word) (m : list Z) : option (list Z) :=
  match argv with
  | [] => Some m
  | (_, e) :: r => m1 ← store m e 0; nul_words r m1
  end.
Fixpoint nulterminate (c : cmd) (m : list Z) : option (list Z) :=
  match c with
  | EXEC argv => nul_words argv m
  | REDIR c (_, efile) _ _ => m1 ← nulterminate c m; store m1 efile 0
  | PIPE l r => m1 ← nulterminate l m; nulterminate r m1
  | LIST l r => m1 ← nulterminate l m; nulterminate r m1
  | BACK c => nulterminate c m
  end.

(** [parsecmd(s)]: [m] is the memory from [s] on.  The tree and the memory. *)
Definition parsecmd (fuel : nat) (m : list Z) : UX (cmd * list Z) :=
  let! n := ulift (strlen m) in
  let buf := take n m in
  let! '(c, ps) := parseline fuel buf 0 in
  let '(ps, _) := peek buf ps [] in
  if decide (ps <> n) then
    fprintf 2 (str "leftovers: %s" ++ [10]) [VStr (Some (drop ps buf))] ;;;
    sh_panic "syntax"
  else
    let! m' := ulift (nulterminate c m) in
    uret (c, m').

(** ** Running a command *)
Definition word_string (m : list Z) (w : word) : list Z := cstr_at m (fst w).

Fixpoint run (m : list Z) (c : cmd) : UX unit :=
  (match c with
   | EXEC argv =>
       match argv with
       | [] => uexit 1
       | w :: _ =>
           exec (word_string m w) (word_string m <$> argv) ;;;
           fprintf 2 (str "exec %s failed" ++ [10]) [VStr (Some (word_string m w))]
       end
   | REDIR c file mode fd =>
       call (CClose fd) ;;;
       let! r := call (COpen (word_string m file) mode) in
       (if r <? 0 then
          fprintf 2 (str "open %s failed" ++ [10]) [VStr (Some (word_string m file))] ;;; uexit 1
        else uret tt) ;;;
       run m c
   | LIST l r =>
       let! pid := fork1 in
       (if pid =? 0 then run m l else uret tt) ;;;
       call CWait ;;;
       run m r
   | PIPE l r =>
       let! a := sys CPipe in
       (if a_ret a <? 0 then sh_panic "pipe" else uret tt) ;;;
       let p0 := nth 0 (a_data a) 0 in
       let p1 := nth 1 (a_data a) 0 in
       let! pid := fork1 in
       (if pid =? 0 then
          call (CClose 1) ;;; call (CDup p1) ;;; call (CClose p0) ;;; call (CClose p1) ;;; run m l
        else uret tt) ;;;
       let! pid := fork1 in
       (if pid =? 0 then
          call (CClose 0) ;;; call (CDup p0) ;;; call (CClose p0) ;;; call (CClose p1) ;;; run m r
        else uret tt) ;;;
       call (CClose p0) ;;; call (CClose p1) ;;; call CWait ;;; call CWait ;;; uret tt
   | BACK c =>
       let! pid := fork1 in
       if pid =? 0 then run m c else uret tt
   end) ;;; uexit 0.
(** [runcmd] of a command that may be null. *)
Definition runcmd (m : list Z) (c : option cmd) : UX unit :=
  match c with
  | None => uexit 1
  | Some c => run m c
  end.

(** ** The main loop *)

(** [getcmd]: the buffer of [nbuf] bytes, or [None] at the end of the input. *)
Definition getcmd (nbuf : nat) : UX (option (list Z)) :=
  call (CWrite 2 (str "$ ")) ;;;
  let! l := gets (Z.of_nat nbuf) in
  let buf := l ++ replicate (nbuf - length l) 0 in
  uret (if char_at buf 0 =? 0 then None else Some buf).

(** Opens the console until descriptors 0 to 2 are in use. *)
Fixpoint open_console (fuel : nat) : UX unit :=
  match fuel with
  | O => ufuel
  | S n =>
      let! fd := call (COpen (str "console") O_RDWR) in
      if fd <? 0 then uret tt
      else if 3 <=? fd then call (CClose fd) ;;; uret tt
      else open_console n
  end.

(** One command line. *)
Definition sh_line (fuel : nat) (buf : list Z) : UX unit :=
  let m := drop (span (fun c => (c =? 32) || (c =? 9)) buf) buf in
  if char_at m 0 =? 10 then uret tt
  else if (char_at m 0 =? 99) && (char_at m 1 =? 100) && (char_at m 2 =? 32) then
    let! n := ulift (strlen m) in
    let! m := ulift (store m (n - 1) 0) in
    let! r := call (CChdir (cstr_at m 3)) in
    if r <? 0 then fprintf 2 (str "cannot cd %s" ++ [10]) [VStr (Some (cstr_at m 3))] else uret tt
  else
    let! pid := fork1 in
    (if pid =? 0 then
       let! '(c, m) := parsecmd fuel m in
       runcmd m (Some c)
     else uret tt) ;;;
    call CWait ;;;
    uret tt.
Fixpoint sh_loop (fuel : nat) : UX unit :=
  match fuel with
  | O => ufuel
  | S n =>
      let! o := getcmd 100 in
      match o with
      | None => uexit 0
      | Some buf => sh_line 500 buf ;;; sh_loop n
      end
  end.
Definition sh_main (fuel : nat) : UX unit := open_console fuel ;;; sh_loop fuel.
End shell.

(** ** The grammar *)

(** A token of the line: a symbol, with [+] for two right angle brackets, or a word. *)
Inductive token : Type := TSym (c : Z) | TWord (w : word).

(** The tokens [gettoken] returns one after the other from position [ps]. *)
Inductive lexes (buf : list Z) : nat -> list token -> Prop :=
| lex_end ps w s : (ps <= length buf)%nat -> gettoken buf ps = (0, w, s) -> lexes buf ps []
| lex_sym ps c w s ts :
    gettoken buf ps = (c, w, s) -> c <> 0 -> c <> 97 -> lexes buf s ts -> lexes buf ps (TSym c :: ts)
| lex_word ps w s ts : gettoken buf ps = (97, w, s) -> lexes buf s ts -> lexes buf ps (TWord w :: ts).

(** A redirection: its symbol and the file. *)
Abbreviation redir := (Z * word)%type.
Inductive line : Type :=
| LOne (p : pipe) (bg : nat)
| LSeq (p : pipe) (bg : nat) (rest : line)
with pipe : Type :=
| POne (e : simple)
| PPipe (e : simple) (rest : pipe)
with simple : Type :=
| XBlock (l : line) (rs : list redir)
| XExec (rs : list redir) (args : list (word * list redir)).

Definition pr_redirs (rs : list redir) : list token := concat ((fun r => [TSym r.1; TWord r.2]) <$> rs).
Definition pr_args (args : list (word * list redir)) : list token :=
  concat ((fun a => TWord a.1 :: pr_redirs a.2) <$> args).
Fixpoint pr_line (l : line) : list token :=
  match l with
  | LOne p bg => pr_pipe p ++ replicate bg (TSym 38)
  | LSeq p bg r => pr_pipe p ++ replicate bg (TSym 38) ++ TSym 59 :: pr_line r
  end
with pr_pipe (p : pipe) : list token :=
  match p with
  | POne e => pr_simple e
  | PPipe e r => pr_simple e ++ TSym 124 :: pr_pipe r
  end
with pr_simple (e : simple) : list token :=
  match e with
  | XBlock l rs => TSym 40 :: pr_line l ++ TSym 41 :: pr_redirs rs
  | XExec rs args => pr_redirs rs ++ pr_args args
  end.

(** The tree of a line: redirections wrap the command they follow, the last one
    outermost; a background mark wraps the pipeline. *)
Definition wrap (rs : list redir) (c : cmd) : cmd := fold_left (fun c r => redir_of r.1 c r.2) rs c.
Fixpoint t_line (l : line) : cmd :=
  match l with
  | LOne p bg => Nat.iter bg BACK (t_pipe p)
  | LSeq p bg r => LIST (Nat.iter bg BACK (t_pipe p)) (t_line r)
  end
with t_pipe (p : pipe) : cmd :=
  match p with
  | POne e => t_simple e
  | PPipe e r => PIPE (t_simple e) (t_pipe r)
  end
with t_simple (e : simple) : cmd :=
  match e with
  | XBlock l rs => wrap rs (t_line l)
  | XExec rs args => wrap (rs ++ concat (args.*2)) (EXEC (args.*1))
  end.

(** The redirection symbols, and the bound on the number of arguments. *)
Definition ok_redirs (rs : list redir) : Prop := Forall (fun r => r.1 = 60 \/ r.1 = 62 \/ r.1 = 43) rs.
Fixpoint ok_line (l : line) : Prop :=
  match l with
  | LOne p _ => ok_pipe p
  | LSeq p _ r => ok_pipe p /\ ok_line r
  end
with ok_pipe (p : pipe) : Prop :=
  match p with
  | POne e => ok_simple e
  | PPipe e r => ok_simple e /\ ok_pipe r
  end
with ok_simple (e : simple) : Prop :=
  match e with
  | XBlock l rs => ok_line l /\ ok_redirs rs
  | XExec rs args => ok_redirs rs /\ Forall (fun a => ok_redirs a.2) args /\ (length args < MAXARGS)%nat
  end.

(** ** Facts about tokens *)
Lemma span_drop P l : span P (drop (span P l) l) = O.
Proof. induction l as [| c l IH]; [done |]. cbn. destruct (P c) eqn:E; [exact IH |]. cbn. by rewrite E. Qed.
Lemma skip_idem P buf s : skip P buf (skip P buf s) = skip P buf s.
Proof. unfold skip. rewrite <- drop_drop, span_drop. lia. Qed.

Lemma span_le P l : (span P l <= length l)%nat.
Proof. induction l as [| c l IH]; [done |]. cbn. destruct (P c); cbn; lia. Qed.
Lemma skip_le P buf s : (s <= length buf)%nat -> (s <= skip P buf s <= length buf)%nat.
Proof. intros Hs. unfold skip. pose proof (span_le P (drop s buf)). rewrite length_drop in *. lia. Qed.
Lemma gettoken_skip buf ps : gettoken buf (skip is_ws buf ps) = gettoken buf ps.
Proof. unfold gettoken. by rewrite skip_idem. Qed.
Lemma lexes_skip buf ps ts : lexes buf ps ts -> lexes buf (skip is_ws buf ps) ts.
Proof.
  intros Hl. inversion Hl; subst; econstructor; rewrite ?gettoken_skip; eauto. by apply skip_le.
Qed.

(** The character a token starts with. *)
Definition starts (c : Z) (t : token) : Prop :=
  match t with
  | TSym 43 => c = 62
  | TSym k => c = k
  | TWord _ => is_word c = true
  end.

Lemma gettoken_char buf ps tok w s :
  gettoken buf ps = (tok, w, s) ->
  let c := char_at buf (skip is_ws buf ps) in
  (tok = 0 /\ c = 0) \/ (c <> 0 /\ oneof c (str "|();&<") = true /\ tok = c) \/
  (c = 62 /\ (tok = 62 \/ tok = 43)) \/ (c <> 0 /\ oneof c symbols = false /\ tok = 97).
Proof.
  unfold gettoken. cbv zeta. set (c := char_at buf (skip is_ws buf ps)). intros Hg.
  destruct (Z.eqb_spec c 0) as [E0 | E0]; [injection Hg; intros; subst; left; by rewrite E0 |].
  destruct (oneof c (str "|();&<")) eqn:E1.
  { injection Hg; intros; subst; right; left; by repeat split. }
  destruct (Z.eqb_spec c 62) as [E2 | E2].
  { right. right. left. split; [done |]. destruct (char_at buf _ =? 62); injection Hg; intros; subst; tauto. }
  right. right. right. injection Hg; intros; subst. split; [done |]. split; [| done].
  revert E1 E2. unfold oneof, symbols. generalize c. cbn. intros d E1 E2.
  repeat match type of E1 with (?a || ?b) = false => apply orb_false_iff in E1 as [? E1] end.
  repeat (apply orb_false_iff; split); try done. by apply Z.eqb_neq.
Qed.

(** What [peek] sees of the next token. *)
Definition lead (ts : list token) (toks : list Z) : bool :=
  match ts with
  | TSym k :: _ => oneof (if k =? 43 then 62 else k) toks
  | _ => false
  end.
Definition only_symbols (toks : list Z) : Prop := forall c, oneof c toks = true -> oneof c symbols = true /\ c <> 0.

Lemma peek_lex buf ps ts toks :
  lexes buf ps ts -> only_symbols toks -> peek buf ps toks = (skip is_ws buf ps, lead ts toks).
Proof.
  intros Hl Hsym. unfold peek. f_equal. set (c := char_at buf (skip is_ws buf ps)).
  inversion Hl as [? w s _ Hg | ? k w s ts' Hg H0 H97 Hts | ? w s ts' Hg Hts]; subst;
    pose proof (gettoken_char _ _ _ _ _ Hg) as Hc; cbv zeta in Hc; fold c in Hc; cbn [lead].
  - destruct Hc as [[_ ->] | [(Hc & _ & <-) | [(_ & [? | ?]) | (_ & _ & ?)]]]; done.
  - destruct Hc as [[? _] | [(Hc & Hin & ->) | [(-> & [-> | ->]) | (_ & _ & ?)]]]; try done.
    rewrite (proj2 (Z.eqb_neq c 0)) by done. cbn [negb andb].
    assert (c <> 43) by (intros E; by rewrite E in Hin). by rewrite (proj2 (Z.eqb_neq c 43)).
  - destruct Hc as [[? _] | [(Hc & Hin & E) | [(_ & [? | ?]) | (Hc & Hns & _)]]]; try done.
    + exfalso. by rewrite <- E in Hin.
    + destruct (oneof c toks) eqn:E; [| by rewrite andb_false_r]. destruct (Hsym c E). congruence.
Qed.

Ltac solve_symbols :=
  let c := fresh "c" in let H := fresh "H" in
  intros c H; unfold oneof in H; cbn in H;
  repeat match type of H with
         | (?a || ?b) = true => apply orb_true_iff in H as [H | H]
         | (_ =? _) = true => apply Z.eqb_eq in H; subst c; split; [reflexivity | done]
         | false = true => discriminate H
         end.
Lemma sym_redir : only_symbols (str "<>").
Proof. solve_symbols. Qed.
Lemma sym_stop : only_symbols (str "|)&;").
Proof. solve_symbols. Qed.
Lemma sym_amp : only_symbols (str "&").
Proof. solve_symbols. Qed.
Lemma sym_semi : only_symbols (str ";").
Proof. solve_symbols. Qed.
Lemma sym_bar : only_symbols (str "|").
Proof. solve_symbols. Qed.
Lemma sym_open : only_symbols (str "(").
Proof. solve_symbols. Qed.
Lemma sym_close : only_symbols (str ")").
Proof. solve_symbols. Qed.
Lemma sym_none : only_symbols [].
Proof. solve_symbols. Qed.

(** Taking a token off. *)
Lemma lexes_sym buf ps c ts : lexes buf ps (TSym c :: ts) ->
  exists w s, gettoken buf (skip is_ws buf ps) = (c, w, s) /\ lexes buf s ts /\ c <> 0 /\ c <> 97.
Proof. rewrite gettoken_skip. intros Hl. inversion Hl; subst. by eexists _, _. Qed.
Lemma lexes_word buf ps w ts : lexes buf ps (TWord w :: ts) ->
  exists s, gettoken buf ps = (97, w, s) /\ lexes buf s ts.
Proof. intros Hl. inversion Hl; subst. by eexists _. Qed.

Lemma gettoken_end buf ps w s : gettoken buf ps = (0, w, s) -> s = skip is_ws buf ps.
Proof.
  intros Hg. pose proof (gettoken_char _ _ _ _ _ Hg) as Hc. cbv zeta in Hc.
  destruct Hc as [[_ Hc] | [(Hc & _ & E) | [(_ & [? | ?]) | (_ & _ & ?)]]]; try done.
  revert Hg. unfold gettoken. cbv zeta. rewrite Hc. cbn. intros [= _ <-]. apply skip_idem.
Qed.
Lemma lexes_end buf ps : lexes buf ps [] -> exists w, gettoken buf (skip is_ws buf ps) = (0, w, skip is_ws buf ps).
Proof.
  rewrite gettoken_skip. intros Hl. inversion Hl as [? w s _ Hg | |]; subst. exists w.
  pose proof (gettoken_end _ _ _ _ Hg) as ->. exact Hg.
Qed.

(** ** The parser accepts the grammar *)
Section complete.
Context {W : Type} `{OS xcall W} (P : uproc xcall W) (buf : list Z).

Lemma redirs_spec rs ts : forall n c ps,
  ok_redirs rs -> (length rs < n)%nat -> lexes buf ps (pr_redirs rs ++ ts) -> lead ts (str "<>") = false ->
  exists ps', parseredirs n c buf ps P = URet (wrap rs c, ps') P /\ lexes buf ps' ts.
Proof.
  induction rs as [| [k w] rs IH]; intros n c ps Hok Hn Hl Hts; (destruct n as [| n]; [cbn in Hn; lia |]); cbn [parseredirs].
  - rewrite (peek_lex _ _ _ _ Hl sym_redir). cbn [pr_redirs fmap list_fmap concat app] in Hl |- *. rewrite Hts.
    eexists. split; [reflexivity | by apply lexes_skip].
  - apply Forall_cons in Hok as [Hk Hok]. cbn [fst] in Hk. rewrite (peek_lex _ _ _ _ Hl sym_redir).
    cbn [pr_redirs fmap list_fmap concat app fst snd] in Hl. fold (pr_redirs rs) in Hl.
    assert (lead (pr_redirs ((k, w) :: rs) ++ ts) (str "<>") = true) as -> by (cbn; by destruct Hk as [-> | [-> | ->]]).
    destruct (lexes_sym _ _ _ _ Hl) as (w1 & s1 & Hg1 & Hl1 & _). rewrite Hg1.
    destruct (lexes_word _ _ _ _ Hl1) as (s2 & Hg2 & Hl2). rewrite Hg2. cbn [Z.eqb Pos.eqb].
    apply IH; [done | cbn in Hn; lia | done | done].
Qed.

Lemma pr_redirs_length rs : length (pr_redirs rs) = (2 * length rs)%nat.
Proof. induction rs as [| r rs IH]; [done |]. unfold pr_redirs in *. cbn in *. lia. Qed.

(** What the loop over the arguments builds. *)
Definition add_args (ret : cmd) (args : list (word * list redir)) : cmd :=
  fold_left (fun c a => wrap a.2 (add_arg c a.1)) args ret.

Lemma pr_args_lead args ts : lead ts (str "<>") = false -> lead (pr_args args ++ ts) (str "<>") = false.
Proof. destruct args as [| a args]; done. Qed.

Lemma args_spec args ts : forall n ret argc ps,
  Forall (fun a => ok_redirs a.2) args -> (length (pr_args args) < n)%nat -> (argc + length args < MAXARGS)%nat ->
  lexes buf ps (pr_args args ++ ts) -> ts = [] \/ lead ts (str "|)&;") = true -> lead ts (str "<>") = false ->
  exists ps', parseargs n ret argc buf ps P = URet (add_args ret args, ps') P /\ lexes buf ps' ts.
Proof.
  induction args as [| [w rs] args IH]; intros n ret argc ps Hok Hn Hmax Hl Hts Hr; (destruct n as [| n]; [lia |]); cbn [parseargs].
  - cbn [pr_args fmap list_fmap concat app] in Hl. rewrite (peek_lex _ _ _ _ Hl sym_stop). cbn [add_args fold_left].
    destruct Hts as [-> | ->]; [| eexists; split; [reflexivity | by apply lexes_skip]].
    cbn [lead]. destruct (lexes_end _ _ Hl) as [w Hg]. rewrite Hg. cbn.
    eexists. split; [reflexivity | by apply lexes_skip].
  - apply Forall_cons in Hok as [Hrs Hok]. cbn [snd] in Hrs. rewrite (peek_lex _ _ _ _ Hl sym_stop).
    cbn [pr_args fmap list_fmap concat app fst snd] in Hl, Hn. fold (pr_args args) in Hl, Hn.
    change (lead (pr_args ((w, rs) :: args) ++ ts) (str "|)&;")) with false. rewrite gettoken_skip.
    destruct (lexes_word _ _ _ _ Hl) as (s & Hg & Hl1). rewrite Hg. cbn [Z.eqb Pos.eqb negb]. cbn [length] in Hmax.
    rewrite decide_False by lia. rewrite <- app_assoc in Hl1. cbn [length] in Hn. rewrite length_app, pr_redirs_length in Hn.
    destruct (redirs_spec rs (pr_args args ++ ts) n (add_arg ret w) s Hrs ltac:(lia) Hl1 (pr_args_lead _ _ Hr)) as (s2 & Heq & Hl2).
    rewrite (ubind_ret _ _ _ _ _ Heq). cbv beta iota. apply IH; [done | lia | lia | done | done | done].
Qed.

Lemma amps_spec bg ts : forall n c ps,
  (bg < n)%nat -> lexes buf ps (replicate bg (TSym 38) ++ ts) -> lead ts (str "&") = false ->
  exists ps', parseamps n c buf ps P = URet (Nat.iter bg BACK c, ps') P /\ lexes buf ps' ts.
Proof.
  induction bg as [| bg IH]; intros n c ps Hn Hl Hts; (destruct n as [| n]; [lia |]); cbn [parseamps];
    rewrite (peek_lex _ _ _ _ Hl sym_amp); cbn [replicate app] in Hl |- *.
  - rewrite Hts. eexists. split; [reflexivity | by apply lexes_skip].
  - cbn [lead]. change (oneof (if 38 =? 43 then 62 else 38) (str "&")) with true.
    destruct (lexes_sym _ _ _ _ Hl) as (w & s & Hg & Hl1 & _). rewrite Hg. cbv beta iota.
    destruct (IH n (BACK c) s ltac:(lia) Hl1 Hts) as (ps' & Heq & Hl'). exists ps'. split; [| done].
    rewrite Heq. by rewrite Nat.iter_succ_r.
Qed.

(** Building the tree while reading gives the tree of the grammar. *)
Lemma add_arg_redir k c f w : add_arg (redir_of k c f) w = redir_of k (add_arg c w) f.
Proof. unfold redir_of. by destruct (k =? 60), (k =? 62), (k =? 43). Qed.
Lemma add_arg_wrap rs w : forall c, add_arg (wrap rs c) w = wrap rs (add_arg c w).
Proof. induction rs as [| r rs IH]; intros c; [done |]. cbn. by rewrite IH, add_arg_redir. Qed.
Lemma wrap_app a b c : wrap (a ++ b) c = wrap b (wrap a c).
Proof. apply fold_left_app. Qed.
Lemma add_args_wrap args : forall rs argv,
  add_args (wrap rs (EXEC argv)) args = wrap (rs ++ concat (args.*2)) (EXEC (argv ++ args.*1)).
Proof.
  induction args as [| [w r] args IH]; intros rs argv; [cbn; by rewrite !app_nil_r |].
  change (add_args (wrap rs (EXEC argv)) ((w, r) :: args)) with (add_args (wrap r (add_arg (wrap rs (EXEC argv)) w)) args).
  cbn [fmap list_fmap fst snd concat]. rewrite add_arg_wrap. cbn [add_arg]. rewrite <- wrap_app, IH, <- !app_assoc. done.
Qed.

(** What may follow a line, a pipeline and a simple command. *)
Definition after_line (ts : list token) : Prop := ts = [] \/ exists r, ts = TSym 41 :: r.
Definition after_pipe (ts : list token) : Prop := after_line ts \/ exists k r, (k = 38 \/ k = 59) /\ ts = TSym k :: r.
Definition after_simple (ts : list token) : Prop := after_pipe ts \/ exists r, ts = TSym 124 :: r.

Lemma after_simple_facts ts : after_simple ts ->
  (ts = [] \/ lead ts (str "|)&;") = true) /\ lead ts (str "<>") = false.
Proof. intros [[[-> | [r ->]] | (k & r & [-> | ->] & ->)] | [r ->]]; split; try done; by (left + right). Qed.
Lemma after_pipe_bar ts : after_pipe ts -> lead ts (str "|") = false.
Proof. by intros [[-> | [r ->]] | (k & r & [-> | ->] & ->)]. Qed.
Lemma after_line_facts ts : after_line ts -> lead ts (str "&") = false /\ lead ts (str ";") = false.
Proof. by intros [-> | [r ->]]. Qed.
Lemma after_line_amps bg ts : after_line ts \/ (exists r, ts = TSym 59 :: r) -> after_pipe (replicate bg (TSym 38) ++ ts).
Proof.
  destruct bg as [| bg]; intros Ha.
  - destruct Ha as [Ha | [r ->]]; [by left |]. right. exists 59, r. tauto.
  - right. eexists 38, _. split; [by left | reflexivity].
Qed.

(** A simple command that is not a block does not start with a parenthesis. *)
Lemma exec_lead rs args ts : ok_redirs rs -> after_simple ts ->
  lead (pr_simple (XExec rs args) ++ ts) (str "(") = false.
Proof.
  intros Hok Ha. destruct rs as [| [k w] rs]; cbn.
  - destruct args as [| a args]; [| done]. destruct Ha as [[[-> | [r ->]] | (k & r & [-> | ->] & ->)] | [r ->]]; done.
  - apply Forall_cons in Hok as [Hk _]. cbn in Hk. by destruct Hk as [-> | [-> | ->]].
Qed.

(** Each of the mutually recursive functions reads its part of the grammar, for the
    fuel [n]. *)
Definition line_complete (n : nat) : Prop := forall l ts ps,
  ok_line l -> after_line ts -> (4 * length (pr_line l) + 4 <= n)%nat -> lexes buf ps (pr_line l ++ ts) ->
  exists ps', parseline n buf ps P = URet (t_line l, ps') P /\ lexes buf ps' ts.
Definition pipe_complete (n : nat) : Prop := forall p ts ps,
  ok_pipe p -> after_pipe ts -> (4 * length (pr_pipe p) + 3 <= n)%nat -> lexes buf ps (pr_pipe p ++ ts) ->
  exists ps', parsepipe n buf ps P = URet (t_pipe p, ps') P /\ lexes buf ps' ts.
Definition exec_complete (n : nat) : Prop := forall e ts ps,
  ok_simple e -> after_simple ts -> (4 * length (pr_simple e) + 2 <= n)%nat -> lexes buf ps (pr_simple e ++ ts) ->
  exists ps', parseexec n buf ps P = URet (t_simple e, ps') P /\ lexes buf ps' ts.
Definition block_complete (n : nat) : Prop := forall l rs ts ps,
  ok_simple (XBlock l rs) -> after_simple ts -> (4 * length (pr_simple (XBlock l rs)) + 1 <= n)%nat ->
  lexes buf ps (pr_simple (XBlock l rs) ++ ts) ->
  exists ps', parseblock n buf ps P = URet (t_simple (XBlock l rs), ps') P /\ lexes buf ps' ts.

Lemma parseline_complete n : pipe_complete n -> line_complete n -> line_complete (S n).
Proof.
  intros IHp IHl l ts ps Hok Ha Hn Hl. cbn [parseline]. destruct l as [p bg | p bg r]; cbn [pr_line t_line ok_line] in *.
  - rewrite <- app_assoc in Hl. rewrite length_app, length_replicate in Hn.
    destruct (IHp p _ ps Hok (after_line_amps bg ts ltac:(by left)) ltac:(lia) Hl) as (s1 & Heq1 & Hl1).
    destruct (after_line_facts ts Ha) as [Hamp Hsemi].
    destruct (amps_spec bg ts n (t_pipe p) s1 ltac:(lia) Hl1 Hamp) as (s2 & Heq2 & Hl2).
    rewrite (ubind_ret _ _ _ _ _ Heq1). cbv beta iota. rewrite (ubind_ret _ _ _ _ _ Heq2). cbv beta iota.
    rewrite (peek_lex _ _ _ _ Hl2 sym_semi), Hsemi. eexists. split; [reflexivity | by apply lexes_skip].
  - destruct Hok as [Hokp Hokr]. rewrite <- !app_assoc in Hl. cbn [app] in Hl. rewrite !length_app, length_replicate in Hn.
    cbn [length] in Hn.
    destruct (IHp p _ ps Hokp (after_line_amps bg (TSym 59 :: pr_line r ++ ts) ltac:(right; by eexists)) ltac:(lia) Hl) as (s1 & Heq1 & Hl1).
    destruct (amps_spec bg (TSym 59 :: pr_line r ++ ts) n (t_pipe p) s1 ltac:(lia) Hl1 eq_refl) as (s2 & Heq2 & Hl2).
    rewrite (ubind_ret _ _ _ _ _ Heq1). cbv beta iota. rewrite (ubind_ret _ _ _ _ _ Heq2). cbv beta iota.
    rewrite (peek_lex _ _ _ _ Hl2 sym_semi). change (lead (TSym 59 :: pr_line r ++ ts) (str ";")) with true.
    destruct (lexes_sym _ _ _ _ Hl2) as (w & s3 & Hg & Hl3 & _). rewrite Hg. cbv beta iota.
    destruct (IHl r ts s3 Hokr Ha ltac:(lia) Hl3) as (s4 & Heq4 & Hl4). rewrite (ubind_ret _ _ _ _ _ Heq4).
    eexists. by split.
Qed.

Lemma parsepipe_complete n : exec_complete n -> pipe_complete n -> pipe_complete (S n).
Proof.
  intros IHe IHp p ts ps Hok Ha Hn Hl. cbn [parsepipe]. destruct p as [e | e r]; cbn [pr_pipe t_pipe ok_pipe] in *.
  - destruct (IHe e ts ps Hok (or_introl Ha) ltac:(lia) Hl) as (s1 & Heq1 & Hl1).
    rewrite (ubind_ret _ _ _ _ _ Heq1). cbv beta iota. rewrite (peek_lex _ _ _ _ Hl1 sym_bar), (after_pipe_bar ts Ha).
    eexists. split; [reflexivity | by apply lexes_skip].
  - destruct Hok as [Hoke Hokr]. rewrite <- app_assoc in Hl. cbn [app] in Hl. rewrite length_app in Hn. cbn [length] in Hn.
    destruct (IHe e (TSym 124 :: pr_pipe r ++ ts) ps Hoke ltac:(right; by eexists) ltac:(lia) Hl) as (s1 & Heq1 & Hl1).
    rewrite (ubind_ret _ _ _ _ _ Heq1). cbv beta iota. rewrite (peek_lex _ _ _ _ Hl1 sym_bar).
    change (lead (TSym 124 :: pr_pipe r ++ ts) (str "|")) with true.
    destruct (lexes_sym _ _ _ _ Hl1) as (w & s2 & Hg & Hl2 & _). rewrite Hg. cbv beta iota.
    destruct (IHp r ts s2 Hokr Ha ltac:(lia) Hl2) as (s3 & Heq3 & Hl3). rewrite (ubind_ret _ _ _ _ _ Heq3).
    eexists. by split.
Qed.

Lemma parseexec_complete n : block_complete n -> exec_complete (S n).
Proof.
  intros IHb e ts ps Hok Ha Hn Hl. cbn [parseexec]. rewrite (peek_lex _ _ _ _ Hl sym_open).
  destruct e as [l rs | rs args].
  - change (lead (pr_simple (XBlock l rs) ++ ts) (str "(")) with true.
    apply (IHb l rs ts _ Hok Ha ltac:(lia)). by apply lexes_skip.
  - cbn [ok_simple] in Hok. destruct Hok as (Hrs & Hargs & Hmax). rewrite exec_lead by done.
    cbn [pr_simple] in Hl, Hn. rewrite <- app_assoc in Hl. rewrite length_app, pr_redirs_length in Hn.
    destruct (after_simple_facts ts Ha) as [Hstop Hred].
    destruct (redirs_spec rs (pr_args args ++ ts) n (EXEC []) (skip is_ws buf ps) Hrs ltac:(lia) (lexes_skip _ _ _ Hl) (pr_args_lead _ _ Hred)) as (s1 & Heq1 & Hl1).
    rewrite (ubind_ret _ _ _ _ _ Heq1). cbv beta iota.
    destruct (args_spec args ts n (wrap rs (EXEC [])) 0 s1 Hargs ltac:(lia) ltac:(lia) Hl1 Hstop Hred) as (s2 & Heq2 & Hl2).
    exists s2. split; [| done]. by rewrite Heq2, add_args_wrap.
Qed.

Lemma parseblock_complete n : line_complete n -> block_complete (S n).
Proof.
  intros IHl l rs ts ps [Hokl Hokr] Ha Hn Hl. cbn [parseblock pr_simple t_simple] in *. rewrite (peek_lex _ _ _ _ Hl sym_open).
  change (lead ((TSym 40 :: pr_line l ++ TSym 41 :: pr_redirs rs) ++ ts) (str "(")) with true. cbn [negb].
  cbn [app] in Hl. destruct (lexes_sym _ _ _ _ Hl) as (w & s1 & Hg & Hl1 & _). rewrite Hg. cbv beta iota.
  rewrite <- app_assoc in Hl1. cbn [app] in Hl1. cbn [length] in Hn. rewrite length_app in Hn. cbn [length] in Hn.
  rewrite pr_redirs_length in Hn.
  destruct (IHl l (TSym 41 :: pr_redirs rs ++ ts) s1 Hokl ltac:(right; by eexists) ltac:(lia) Hl1) as (s2 & Heq2 & Hl2).
  rewrite (ubind_ret _ _ _ _ _ Heq2). cbv beta iota. rewrite (peek_lex _ _ _ _ Hl2 sym_close).
  change (lead (TSym 41 :: pr_redirs rs ++ ts) (str ")")) with true. cbn [negb].
  destruct (lexes_sym _ _ _ _ Hl2) as (w3 & s3 & Hg3 & Hl3 & _). rewrite Hg3. cbv beta iota.
  destruct (after_simple_facts ts Ha) as [_ Hred].
  apply (redirs_spec rs ts n (t_line l) s3 Hokr ltac:(lia) Hl3 Hred).
Qed.

Lemma parser_complete n : line_complete n /\ pipe_complete n /\ exec_complete n /\ block_complete n.
Proof.
  induction n as [| n (IHl & IHp & IHe & IHb)].
  { split; [| split; [| split]]; intros until ps; intros; lia. }
  split; [by apply parseline_complete |]. split; [by apply parsepipe_complete |].
  split; [by apply parseexec_complete | by apply parseblock_complete].
Qed.
End complete.

(** ** The parser accepts nothing else *)
Lemma char_at_lt buf s : char_at buf s <> 0 -> (s < length buf)%nat.
Proof. unfold char_at. destruct (buf !! s) eqn:E; [intros _; by apply lookup_lt_Some in E | done]. Qed.
Lemma skip_stops P buf s : char_at buf (skip P buf s) = 0 \/ P (char_at buf (skip P buf s)) = false.
Proof.
  unfold skip, char_at. rewrite <- lookup_drop. generalize (drop s buf). intros l.
  induction l as [| c l IH]; [by left |]. cbn. destruct (P c) eqn:E; [done |]. by right.
Qed.

(** Every token but the last takes up something. *)
Lemma gettoken_advances buf ps tok w s :
  gettoken buf ps = (tok, w, s) -> (ps <= length buf)%nat -> (ps <= s <= length buf)%nat /\ (tok <> 0 -> (ps < s)%nat).
Proof.
  intros Hg Hps. pose proof (skip_le is_ws buf ps Hps) as Hs. revert Hg. unfold gettoken. cbv zeta.
  set (s1 := skip is_ws buf ps) in *. set (c := char_at buf s1).
  destruct (Z.eqb_spec c 0) as [E0 | E0].
  { intros [= <- _ <-]. pose proof (skip_le is_ws buf s1 ltac:(lia)). split; [lia | done]. }
  pose proof (char_at_lt buf s1 E0) as Hlt.
  destruct (oneof c (str "|();&<")) eqn:E1.
  { intros [= _ _ <-]. pose proof (skip_le is_ws buf (S s1) ltac:(lia)). lia. }
  destruct (Z.eqb_spec c 62) as [E2 | E2].
  { destruct (Z.eqb_spec (char_at buf (S s1)) 62) as [E3 | E3]; intros [= _ _ <-].
    - pose proof (char_at_lt buf (S s1) ltac:(lia)). pose proof (skip_le is_ws buf (S (S s1)) ltac:(lia)). lia.
    - pose proof (skip_le is_ws buf (S s1) ltac:(lia)). lia. }
  intros [= _ _ <-]. pose proof (skip_le is_word buf s1 ltac:(lia)) as Hw.
  pose proof (skip_le is_ws buf (skip is_word buf s1) ltac:(lia)).
  assert (s1 < skip is_word buf s1)%nat; [| lia].
  destruct (gettoken buf ps) as [[tok' w'] s'] eqn:Hg. pose proof (gettoken_char _ _ _ _ _ Hg) as Hc. cbv zeta in Hc. fold s1 c in Hc.
  destruct Hc as [[_ ?] | [(_ & ? & _) | [(? & _) | (_ & Hsym & _)]]]; try congruence.
  destruct (skip_stops is_ws buf ps) as [? | Hws]; [done |]. fold s1 c in Hws.
  unfold skip. rewrite (drop_S buf c s1); [| unfold c, char_at; destruct (lookup_lt_is_Some_2 buf s1 Hlt) as [x ->]; done].
  cbn [span]. unfold is_word at 1. unfold is_ws in Hws. rewrite Hws, Hsym. cbn. lia.
Qed.

Lemma lexes_total buf : forall k ps, (ps <= length buf)%nat -> (length buf - ps <= k)%nat ->
  exists ts, lexes buf ps ts /\ (length ts <= length buf - ps)%nat.
Proof.
  induction k as [| k IH]; intros ps Hps Hk; destruct (gettoken buf ps) as [[tok w] s] eqn:Hg;
    destruct (gettoken_advances _ _ _ _ _ Hg Hps) as [Hs Hlt].
  - destruct (decide (tok = 0)) as [-> | H0]; [exists []; split; [by econstructor | cbn; lia] |].
    specialize (Hlt H0). lia.
  - destruct (decide (tok = 0)) as [-> | H0]; [exists []; split; [by econstructor | cbn; lia] |].
    specialize (Hlt H0). destruct (IH s ltac:(lia) ltac:(lia)) as (ts & Hl & Hlen).
    destruct (decide (tok = 97)) as [-> | H97].
    + exists (TWord w :: ts). split; [by econstructor | cbn; lia].
    + exists (TSym tok :: ts). split; [by econstructor | cbn; lia].
Qed.

Lemma lexes_det buf ps ts ts' : lexes buf ps ts -> lexes buf ps ts' -> ts = ts'.
Proof.
  intros Hl. revert ts'. induction Hl as [ps w s Hb Hg | ps c w s ts Hg H0 H97 Hl IH | ps w s ts Hg Hl IH]; intros ts' Hl';
    inversion Hl'; subst; rewrite Hg in *; simplify_eq; try done; f_equal; by apply IH.
Qed.

Section sound.
Context {W : Type} `{OS xcall W} (P : uproc xcall W) (buf : list Z).

(** A parsing function returns what [Q] allows without making a call, or the
    process exits with status 1. *)
Definition yields {A} (o : uout xcall W A) (Q : A -> Prop) : Prop :=
  match o with
  | URet a p => p = P /\ Q a
  | UExit n _ => n = 1
  | _ => False
  end.

Lemma yields_bind {A B} (m : U xcall W A) (k : A -> U xcall W B) Q R :
  yields (m P) Q -> (forall a, Q a -> yields (k a P) R) -> yields (ubind m k P) R.
Proof.
  unfold yields, ubind. destruct (m P) as [a p | | | |]; try done. intros [-> Ha] Hk. by apply Hk.
Qed.
Lemma yields_mono {A} (o : uout xcall W A) (Q R : A -> Prop) : yields o Q -> (forall a, Q a -> R a) -> yields o R.
Proof. unfold yields. destruct o; naive_solver. Qed.

Lemma sh_panic_exits {A} s (p : uproc xcall W) : exists p', sh_panic (A := A) s p = UExit 1 p'.
Proof.
  unfold sh_panic, fprintf.
  assert (prints 2 (vprintf 2 (str "%s" ++ [10]) false [VStr (Some (str s))]) (str s ++ [10])) as Hp.
  { apply prints_pct_s. apply prints_plain; [done | apply prints_nil]. }
  destruct (Hp p) as [w E]. rewrite (ubind_ret _ _ _ _ _ E). by eexists.
Qed.
Lemma sh_panic_yields {A} s (Q : A -> Prop) : yields (sh_panic (A := A) s P) Q.
Proof. destruct (sh_panic_exits (A := A) s P) as [p ->]. done. Qed.

(** The kind of the next token decides what [gettoken] returns. *)
Lemma gettoken_next ps ts tok w s : lexes buf ps ts -> gettoken buf ps = (tok, w, s) ->
  match ts with
  | [] => tok = 0 /\ s = skip is_ws buf ps
  | TSym c :: r => tok = c /\ c <> 0 /\ c <> 97 /\ lexes buf s r
  | TWord v :: r => tok = 97 /\ w = v /\ lexes buf s r
  end.
Proof.
  intros Hl Hg. inversion Hl as [? ? ? _ Hg' | ? ? ? ? ? Hg' | ? ? ? ? Hg']; subst; rewrite Hg in Hg'; simplify_eq; try done.
  split; [done | by apply (gettoken_end _ _ _ _ Hg)].
Qed.

Lemma lead_cases ts toks : lead ts toks = true -> exists k r, ts = TSym k :: r /\ oneof (if k =? 43 then 62 else k) toks = true.
Proof. destruct ts as [| [k | w] r]; cbn; try done. intros Hk. by exists k, r. Qed.

Lemma lead_redir k : oneof (if k =? 43 then 62 else k) (str "<>") = true -> k = 60 \/ k = 62 \/ k = 43.
Proof.
  destruct (Z.eqb_spec k 43); [tauto |]. unfold oneof. cbn. rewrite !orb_true_iff, !Z.eqb_eq. intros [? | [? | ?]]; [tauto | tauto | done].
Qed.
Lemma lead_one k x : x <> 62 -> oneof (if k =? 43 then 62 else k) [x] = true -> k = x.
Proof.
  intros Hx. unfold oneof. cbn. rewrite orb_false_r, Z.eqb_eq. destruct (k =? 43); [intros E; by destruct Hx | done].
Qed.

Lemma redirs_sound : forall n c ps ts, lexes buf ps ts -> (length ts < n)%nat ->
  yields (parseredirs n c buf ps P) (fun r => exists rs rest,
    ts = pr_redirs rs ++ rest /\ ok_redirs rs /\ r.1 = wrap rs c /\ lexes buf r.2 rest).
Proof.
  induction n as [| n IH]; intros c ps ts Hl Hn; [lia |]. cbn [parseredirs]. rewrite (peek_lex _ _ _ _ Hl sym_redir).
  destruct (lead ts (str "<>")) eqn:El.
  2:{ split; [done |]. exists [], ts. split; [done |]. split; [constructor |]. split; [done | by apply lexes_skip]. }
  destruct (lead_cases _ _ El) as (k & r & -> & Hk). apply lead_redir in Hk.
  destruct (lexes_sym _ _ _ _ Hl) as (w1 & s1 & -> & Hl1 & _).
  destruct (gettoken buf s1) as [[tok2 w2] s2] eqn:Hg2. pose proof (gettoken_next _ _ _ _ _ Hl1 Hg2) as Hnext.
  destruct r as [| [c2 | v] r2].
  - destruct Hnext as [-> _]. apply sh_panic_yields.
  - destruct Hnext as (-> & _ & H97 & _). rewrite (proj2 (Z.eqb_neq _ _) H97). apply sh_panic_yields.
  - destruct Hnext as (-> & -> & Hl2). cbn [Z.eqb Pos.eqb].
    eapply yields_mono; [apply (IH (redir_of k c v) s2 r2 Hl2); cbn in Hn; lia |].
    intros [c' ps'] (rs & rest & -> & Hok & Hc & Hr). exists ((k, v) :: rs), rest. split; [done |].
    split; [by constructor |]. by split.
Qed.

Lemma args_sound : forall n ret argc ps ts, lexes buf ps ts -> (length ts < n)%nat -> (argc < MAXARGS)%nat ->
  yields (parseargs n ret argc buf ps P) (fun r => exists args rest,
    ts = pr_args args ++ rest /\ Forall (fun a => ok_redirs a.2) args /\ (argc + length args < MAXARGS)%nat /\
    r.1 = add_args ret args /\ lexes buf r.2 rest).
Proof.
  assert (Hstop : forall ret argc ps ts, lexes buf ps ts -> (argc < MAXARGS)%nat -> exists args rest,
    ts = pr_args args ++ rest /\ Forall (fun a : word * list redir => ok_redirs a.2) args /\ (argc + length args < MAXARGS)%nat /\
    ret = add_args ret args /\ lexes buf (skip is_ws buf ps) rest).
  { intros ret argc ps ts Hl Hm. exists [], ts. split; [done |]. split; [constructor |]. split; [cbn; lia |].
    split; [done | by apply lexes_skip]. }
  induction n as [| n IH]; intros ret argc ps ts Hl Hn Hm; [lia |]. cbn [parseargs]. rewrite (peek_lex _ _ _ _ Hl sym_stop).
  destruct (lead ts (str "|)&;")) eqn:El; [split; [done | by apply (Hstop ret argc)] |].
  rewrite gettoken_skip. destruct (gettoken buf ps) as [[tok w] s] eqn:Hg. pose proof (gettoken_next _ _ _ _ _ Hl Hg) as Hnext.
  destruct ts as [| [c | v] r].
  - destruct Hnext as [-> ->]. split; [done | by apply (Hstop ret argc)].
  - destruct Hnext as (-> & H0 & H97 & _). rewrite (proj2 (Z.eqb_neq _ _) H97), (proj2 (Z.eqb_neq _ _) H0). apply sh_panic_yields.
  - destruct Hnext as (-> & -> & Hl1). cbn [Z.eqb Pos.eqb negb]. case_decide as Hd; [apply sh_panic_yields |].
    cbn [length] in Hn. eapply yields_bind; [apply (redirs_sound n (add_arg ret v) s r Hl1); lia |].
    intros [c' ps'] (rs & rest & -> & Hok & Hc & Hr). cbn in Hc, Hr. subst c'.
    rewrite length_app, pr_redirs_length in Hn.
    eapply yields_mono; [apply (IH (wrap rs (add_arg ret v)) (S argc) ps' rest Hr); lia |].
    intros [c' ps2] (args & rest' & -> & Hoka & Hlen & Hc & Hr'). exists ((v, rs) :: args), rest'.
    split; [cbn; by rewrite <- app_assoc |]. split; [by constructor |]. split; [cbn; lia | done].
Qed.

Lemma amps_sound : forall n c ps ts, lexes buf ps ts -> (length ts < n)%nat ->
  yields (parseamps n c buf ps P) (fun r => exists bg rest,
    ts = replicate bg (TSym 38) ++ rest /\ r.1 = Nat.iter bg BACK c /\ lexes buf r.2 rest).
Proof.
  induction n as [| n IH]; intros c ps ts Hl Hn; [lia |]. cbn [parseamps]. rewrite (peek_lex _ _ _ _ Hl sym_amp).
  destruct (lead ts (str "&")) eqn:El.
  2:{ split; [done |]. exists O, ts. split; [done |]. split; [done | by apply lexes_skip]. }
  destruct (lead_cases _ _ El) as (k & r & -> & Hk). apply (lead_one k 38) in Hk; [| done]. subst k.
  destruct (lexes_sym _ _ _ _ Hl) as (w1 & s1 & -> & Hl1 & _). cbv beta iota. cbn [length] in Hn.
  eapply yields_mono; [apply (IH (BACK c) s1 r Hl1); lia |].
  intros [c' ps'] (bg & rest & -> & Hc & Hr). exists (S bg), rest. split; [done |]. split; [| done].
  by rewrite Nat.iter_succ_r.
Qed.

(** What each of the mutually recursive functions yields, for the fuel [n]. *)
Definition parses {T} (pr : T -> list token) (ok : T -> Prop) (t : T -> cmd) (ts : list token) (r : cmd * nat) : Prop :=
  exists x rest, ts = pr x ++ rest /\ ok x /\ r.1 = t x /\ lexes buf r.2 rest.
Definition line_sound (n : nat) : Prop := forall ps ts, lexes buf ps ts -> (4 * length ts + 4 <= n)%nat ->
  yields (parseline n buf ps P) (parses pr_line ok_line t_line ts).
Definition pipe_sound (n : nat) : Prop := forall ps ts, lexes buf ps ts -> (4 * length ts + 3 <= n)%nat ->
  yields (parsepipe n buf ps P) (parses pr_pipe ok_pipe t_pipe ts).
Definition exec_sound (n : nat) : Prop := forall ps ts, lexes buf ps ts -> (4 * length ts + 2 <= n)%nat ->
  yields (parseexec n buf ps P) (parses pr_simple ok_simple t_simple ts).
Definition block_sound (n : nat) : Prop := forall ps ts, lexes buf ps ts -> (4 * length ts + 1 <= n)%nat ->
  yields (parseblock n buf ps P) (parses pr_simple ok_simple t_simple ts).

Lemma parseline_sound n : pipe_sound n -> line_sound n -> line_sound (S n).
Proof.
  intros IHp IHl ps ts Hl Hn. cbn [parseline].
  eapply yields_bind; [apply (IHp ps ts Hl); lia |]. intros [c s1] (p & r1 & -> & Hokp & Hc & Hl1). cbn in Hc, Hl1. subst c.
  rewrite length_app in Hn.
  eapply yields_bind; [apply (amps_sound n (t_pipe p) s1 r1 Hl1); lia |].
  intros [c s2] (bg & r2 & -> & Hc & Hl2). cbn in Hc, Hl2. subst c. rewrite length_app, length_replicate in Hn.
  rewrite (peek_lex _ _ _ _ Hl2 sym_semi). destruct (lead r2 (str ";")) eqn:El.
  - destruct (lead_cases _ _ El) as (k & r3 & -> & Hk). apply (lead_one k 59) in Hk; [| done]. subst k.
    destruct (lexes_sym _ _ _ _ Hl2) as (w3 & s3 & -> & Hl3 & _). cbv beta iota. cbn [length] in Hn.
    eapply yields_bind; [apply (IHl s3 r3 Hl3); lia |]. intros [c s4] (l & r4 & -> & Hokl & Hc & Hl4). cbn in Hc, Hl4. subst c.
    split; [done |]. exists (LSeq p bg l), r4. split; [cbn; by rewrite <- !app_assoc |]. by repeat split.
  - split; [done |]. exists (LOne p bg), r2. split; [cbn; by rewrite <- app_assoc |]. split; [done |].
    split; [done | by apply lexes_skip].
Qed.

Lemma parsepipe_sound n : exec_sound n -> pipe_sound n -> pipe_sound (S n).
Proof.
  intros IHe IHp ps ts Hl Hn. cbn [parsepipe].
  eapply yields_bind; [apply (IHe ps ts Hl); lia |]. intros [c s1] (e & r1 & -> & Hoke & Hc & Hl1). cbn in Hc, Hl1. subst c.
  rewrite length_app in Hn. rewrite (peek_lex _ _ _ _ Hl1 sym_bar). destruct (lead r1 (str "|")) eqn:El.
  - destruct (lead_cases _ _ El) as (k & r2 & -> & Hk). apply (lead_one k 124) in Hk; [| done]. subst k.
    destruct (lexes_sym _ _ _ _ Hl1) as (w2 & s2 & -> & Hl2 & _). cbv beta iota. cbn [length] in Hn.
    eapply yields_bind; [apply (IHp s2 r2 Hl2); lia |]. intros [c s3] (p & r3 & -> & Hokp & Hc & Hl3). cbn in Hc, Hl3. subst c.
    split; [done |]. exists (PPipe e p), r3. split; [cbn; by rewrite <- app_assoc |]. by repeat split.
  - split; [done |]. exists (POne e), r1. split; [done |]. split; [done |]. split; [done | by apply lexes_skip].
Qed.

Lemma parseexec_sound n : block_sound n -> exec_sound (S n).
Proof.
  intros IHb ps ts Hl Hn. cbn [parseexec]. rewrite (peek_lex _ _ _ _ Hl sym_open).
  destruct (lead ts (str "(")) eqn:El; [apply (IHb _ ts (lexes_skip _ _ _ Hl)); lia |].
  eapply yields_bind; [apply (redirs_sound n (EXEC []) _ ts (lexes_skip _ _ _ Hl)); lia |].
  intros [c s1] (rs & r1 & -> & Hok & Hc & Hl1). cbn in Hc, Hl1. subst c. rewrite length_app in Hn.
  eapply yields_mono; [apply (args_sound n (wrap rs (EXEC [])) 0 s1 r1 Hl1); [lia | unfold MAXARGS; lia] |].
  intros [c s2] (args & r2 & -> & Hoka & Hlen & Hc & Hl2). cbn in Hc, Hl2. subst c.
  exists (XExec rs args), r2. split; [cbn; by rewrite <- app_assoc |]. split; [done |].
  split; [cbn [fst t_simple]; by rewrite add_args_wrap | done].
Qed.

Lemma parseblock_sound n : line_sound n -> block_sound (S n).
Proof.
  intros IHl ps ts Hl Hn. cbn [parseblock]. rewrite (peek_lex _ _ _ _ Hl sym_open).
  destruct (lead ts (str "(")) eqn:El; [| apply sh_panic_yields]. cbn [negb].
  destruct (lead_cases _ _ El) as (k & r1 & -> & Hk). apply (lead_one k 40) in Hk; [| done]. subst k.
  destruct (lexes_sym _ _ _ _ Hl) as (w1 & s1 & -> & Hl1 & _). cbv beta iota. cbn [length] in Hn.
  eapply yields_bind; [apply (IHl s1 r1 Hl1); lia |]. intros [c s2] (l & r2 & -> & Hokl & Hc & Hl2). cbn in Hc, Hl2. subst c.
  rewrite length_app in Hn. rewrite (peek_lex _ _ _ _ Hl2 sym_close).
  destruct (lead r2 (str ")")) eqn:Ec; [| apply sh_panic_yields]. cbn [negb].
  destruct (lead_cases _ _ Ec) as (k & r3 & -> & Hk). apply (lead_one k 41) in Hk; [| done]. subst k.
  destruct (lexes_sym _ _ _ _ Hl2) as (w3 & s3 & -> & Hl3 & _). cbv beta iota. cbn [length] in Hn.
  eapply yields_mono; [apply (redirs_sound n (t_line l) s3 r3 Hl3); lia |].
  intros [c s4] (rs & r4 & -> & Hok & Hc & Hl4). cbn in Hc, Hl4. subst c. exists (XBlock l rs), r4.
  split; [cbn; by rewrite <- app_assoc |]. by repeat split.
Qed.

Lemma parser_sound n : line_sound n /\ pipe_sound n /\ exec_sound n /\ block_sound n.
Proof.
  induction n as [| n (IHl & IHp & IHe & IHb)].
  { split; [| split; [| split]]; intros ps ts _ Hn; lia. }
  split; [by apply parseline_sound |]. split; [by apply parsepipe_sound |].
  split; [by apply parseexec_sound | by apply parseblock_sound].
Qed.
End sound.

(** ** The words in memory *)
Fixpoint words (c : cmd) : list word :=
  match c with
  | EXEC argv => argv
  | REDIR c file _ _ => words c ++ [file]
  | PIPE l r | LIST l r => words l ++ words r
  | BACK c => words c
  end.
(** The text of a word. *)
Definition text (buf : list Z) (w : word) : list Z := take (snd w - fst w) (drop (fst w) buf).
(** A word ends where its characters do. *)
Definition wf_word (buf : list Z) (w : word) : Prop :=
  (fst w <= snd w <= length buf)%nat /\
  (forall i, (fst w <= i < snd w)%nat -> is_word (char_at buf i) = true) /\
  (snd w = length buf \/ is_word (char_at buf (snd w)) = false).

Lemma span_all P l i : (i < span P l)%nat -> P (default 0 (l !! i)) = true.
Proof.
  revert i. induction l as [| c l IH]; intros i Hi; [cbn in Hi; lia |]. cbn in Hi. destruct (P c) eqn:E; [| lia].
  destruct i as [| i]; [done |]. apply IH. lia.
Qed.

Lemma gettoken_wf buf ps w s : nonul buf -> (ps <= length buf)%nat -> gettoken buf ps = (97, w, s) -> wf_word buf w.
Proof.
  intros Hnul Hps Hg. pose proof (gettoken_char _ _ _ _ _ Hg) as Hc. cbv zeta in Hc.
  revert Hg. unfold gettoken. cbv zeta. pose proof (skip_le is_ws buf ps Hps) as Hs. set (s1 := skip is_ws buf ps) in *.
  set (c := char_at buf s1) in *. destruct Hc as [[? _] | [(_ & Hin & E) | [(_ & [? | ?]) | (Hc & Hns & _)]]]; try done.
  { exfalso. by rewrite <- E in Hin. }
  rewrite (proj2 (Z.eqb_neq c 0) Hc).
  destruct (oneof c (str "|();&<")) eqn:E1; [intros [= E _ _]; exfalso; by rewrite E in E1 |].
  destruct (Z.eqb_spec c 62) as [E2 | E2]; [by rewrite E2 in Hns |]. intros [= <- _].
  pose proof (skip_le is_word buf s1 ltac:(lia)) as Hw. split; [cbn; lia |]. cbn [fst snd]. split.
  - intros i Hi. unfold char_at. unfold skip in Hi.
    replace i with (s1 + (i - s1))%nat by lia. rewrite <- lookup_drop. apply span_all. lia.
  - destruct (skip_stops is_word buf s1) as [H0 | Hns']; [left | by right].
    unfold char_at in H0. destruct (buf !! skip is_word buf s1) as [x |] eqn:Ex; [| apply lookup_ge_None in Ex; lia].
    cbn in H0. subst x. unfold nonul in Hnul. rewrite Forall_lookup in Hnul. by specialize (Hnul _ _ Ex).
Qed.

Lemma lexes_wf buf ps ts w : nonul buf -> (ps <= length buf)%nat -> lexes buf ps ts -> TWord w ∈ ts -> wf_word buf w.
Proof.
  intros Hnul Hps Hl. induction Hl as [ps w' s Hb Hg | ps c w' s ts Hg H0 H97 Hl IH | ps w' s ts Hg Hl IH]; intros Hin.
  - by apply elem_of_nil in Hin.
  - apply elem_of_cons in Hin as [? | Hin]; [done |]. apply IH; [| done].
    by apply (gettoken_advances _ _ _ _ _ Hg Hps).
  - apply elem_of_cons in Hin as [[= ->] | Hin]; [by apply (gettoken_wf _ _ _ _ Hnul Hps Hg) |].
    apply IH; [| done]. by apply (gettoken_advances _ _ _ _ _ Hg Hps).
Qed.

Lemma words_wrap rs : forall c w, w ∈ words (wrap rs c) -> w ∈ words c \/ TWord w ∈ pr_redirs rs.
Proof.
  induction rs as [| [k f] rs IH]; intros c w Hw; [by left |]. cbn in Hw. apply IH in Hw as [Hw | Hw].
  - assert (w ∈ words c \/ w = f) as [? | ->].
    { revert Hw. unfold redir_of. destruct (k =? 60), (k =? 62), (k =? 43); cbn; set_solver. }
    + by left.
    + right. right. by left.
  - right. cbn. right. by right.
Qed.
Lemma words_iter bg c : words (Nat.iter bg BACK c) = words c.
Proof. by induction bg. Qed.
Lemma words_args args w : w ∈ args.*1 \/ TWord w ∈ pr_redirs (concat (args.*2)) -> TWord w ∈ pr_args args.
Proof.
  induction args as [| [v rs] args IH]; cbn; [intros [?%elem_of_nil | ?%elem_of_nil]; done |].
  unfold pr_redirs at 1. rewrite fmap_app, concat_app. fold (pr_redirs rs) (pr_redirs (concat args.*2)).
  rewrite !elem_of_cons, !elem_of_app. fold (pr_args args). intros [[-> | Hw] | [Hw | Hw]]; naive_solver.
Qed.

Scheme line_mind := Induction for line Sort Prop
  with pipe_mind := Induction for pipe Sort Prop
  with simple_mind := Induction for simple Sort Prop.

Lemma words_line l : forall w, w ∈ words (t_line l) -> TWord w ∈ pr_line l.
Proof.
  apply (line_mind (fun l => forall w, w ∈ words (t_line l) -> TWord w ∈ pr_line l)
    (fun p => forall w, w ∈ words (t_pipe p) -> TWord w ∈ pr_pipe p)
    (fun e => forall w, w ∈ words (t_simple e) -> TWord w ∈ pr_simple e)); clear l.
  - intros p IH bg w. cbn. rewrite words_iter, elem_of_app. naive_solver.
  - intros p IH bg r IHr w. cbn. rewrite words_iter, !elem_of_app, elem_of_cons. naive_solver.
  - intros e IH w. apply IH.
  - intros e IH r IHr w. cbn. rewrite !elem_of_app, elem_of_cons. naive_solver.
  - intros l IH rs w. cbn. intros [Hw | Hw]%words_wrap; rewrite elem_of_cons, elem_of_app, elem_of_cons; naive_solver.
  - intros rs args w. cbn [t_simple pr_simple]. intros [Hw | Hw]%words_wrap; rewrite elem_of_app.
    + right. apply words_args. by left.
    + unfold pr_redirs in Hw. rewrite fmap_app, concat_app, elem_of_app in Hw. destruct Hw as [Hw | Hw]; [by left |].
      right. apply words_args. by right.
Qed.

Lemma nul_words_app a b m : nul_words (a ++ b) m = nul_words a m ≫= nul_words b.
Proof. revert m. induction a as [| [q e] a IH]; intros m; [done |]. cbn. destruct (store m e 0); [apply IH | done]. Qed.
Lemma nulterminate_words c : forall m, nulterminate c m = nul_words (words c) m.
Proof.
  induction c as [argv | c IH [q e] mode fd | l IHl r IHr | l IHl r IHr | c IH]; intros m; cbn [nulterminate words]; try done.
  - rewrite nul_words_app, IH. destruct (nul_words (words c) m); [cbn | done]. by destruct (store l e 0).
  - rewrite nul_words_app, IHl. destruct (nul_words (words l) m); [apply IHr | done].
  - rewrite nul_words_app, IHl. destruct (nul_words (words l) m); [apply IHr | done].
Qed.

Lemma nul_words_spec ws : forall m, Forall (fun w => snd w < length m)%nat ws ->
  exists m', nul_words ws m = Some m' /\ length m' = length m /\
    (forall w, w ∈ ws -> m' !! snd w = Some 0) /\ (forall i, i ∉ ws.*2 -> m' !! i = m !! i).
Proof.
  induction ws as [| [q e] ws IH] using rev_ind; intros m Hws.
  { exists m. split; [done |]. split; [done |]. split; [by intros w ?%elem_of_nil | done]. }
  apply Forall_app in Hws as [Hws He]. apply Forall_cons in He as [He _]. cbn in He.
  destruct (IH m Hws) as (m1 & Hm1 & Hlen & Hin & Hout).
  exists (<[e := 0]> m1). rewrite nul_words_app, Hm1. cbn. rewrite store_eq by lia. split; [done |].
  split; [by rewrite length_insert |]. split.
  - intros w Hw. apply elem_of_app in Hw as [Hw | Hw].
    + destruct (decide (e = snd w)) as [-> | Hne]; [by rewrite list_lookup_insert_eq by lia |].
      rewrite list_lookup_insert_ne by done. by apply Hin.
    + apply list_elem_of_singleton in Hw as ->. cbn. by rewrite list_lookup_insert_eq by lia.
  - intros i Hi. rewrite fmap_app in Hi. apply not_elem_of_app in Hi as [Hi Hie].
    rewrite list_lookup_insert_ne by (intros ->; apply Hie; by left). by apply Hout.
Qed.

Lemma cstr_slice m q k : (forall i, (i < k)%nat -> exists c, m !! (q + i)%nat = Some c /\ c <> 0) -> m !! (q + k)%nat = Some 0 ->
  cstr_at m q = take k (drop q m).
Proof.
  unfold cstr_at. intros Hc H0.
  assert (exists r, drop q m = take k (drop q m) ++ 0 :: r) as [r Hr].
  { exists (drop (S k) (drop q m)). symmetry. apply take_drop_middle. by rewrite lookup_drop. }
  rewrite Hr at 1. apply cstr_nul. apply Forall_lookup. intros i c Hi.
  apply lookup_take_Some in Hi as [Hi Hk]. rewrite lookup_drop in Hi. destruct (Hc i Hk) as (c' & Hc' & Hne). congruence.
Qed.

Lemma skip_ge P buf s : (s <= skip P buf s)%nat.
Proof. unfold skip. lia. Qed.
Lemma gettoken_ge buf ps tok w s : gettoken buf ps = (tok, w, s) -> (ps <= s)%nat.
Proof.
  unfold gettoken. cbv zeta. pose proof (skip_ge is_ws buf ps). set (s1 := skip is_ws buf ps) in *.
  pose proof (skip_ge is_ws buf s1). pose proof (skip_ge is_ws buf (S s1)). pose proof (skip_ge is_ws buf (S (S s1))).
  pose proof (skip_ge is_word buf s1). pose proof (skip_ge is_ws buf (skip is_word buf s1)).
  repeat case_match; intros [= _ _ <-]; simplify_eq; lia.
Qed.
Lemma lexes_bound buf ps ts : lexes buf ps ts -> (ps <= length buf)%nat.
Proof.
  induction 1 as [ps w s Hb Hg | ps c w s ts Hg H0 H97 Hl IH | ps w s ts Hg Hl IH]; [done | |];
    pose proof (gettoken_ge _ _ _ _ _ Hg); lia.
Qed.
Lemma lexes_at_end buf ps ts : nonul buf -> lexes buf ps ts -> skip is_ws buf ps = length buf <-> ts = [].
Proof.
  intros Hn Hl. pose proof (skip_le is_ws buf ps (lexes_bound _ _ _ Hl)) as Hs.
  assert (char_at buf (skip is_ws buf ps) = 0 <-> skip is_ws buf ps = length buf) as Hc.
  { unfold char_at. destruct (buf !! skip is_ws buf ps) as [x |] eqn:Ex.
    - pose proof (lookup_lt_Some _ _ _ Ex). unfold nonul in Hn. rewrite Forall_lookup in Hn. specialize (Hn _ _ Ex). cbn. lia.
    - apply lookup_ge_None in Ex. split; [lia | done]. }
  rewrite <- Hc. destruct (gettoken buf ps) as [[tok w] s] eqn:Hg. pose proof (gettoken_next buf _ _ _ _ _ Hl Hg) as Hnext.
  pose proof (gettoken_char _ _ _ _ _ Hg) as Hch. cbv zeta in Hch.
  split.
  - intros E. rewrite E in Hch. destruct ts as [| [c | v] r]; [done | |]; destruct Hnext as (-> & Hnext);
      destruct Hch as [[? _] | [(? & _) | [(? & _) | (? & _)]]]; tauto || done.
  - intros ->. destruct Hnext as [-> _]. destruct Hch as [[_ ?] | [(? & _ & E) | [(_ & [? | ?]) | (_ & _ & ?)]]]; done.
Qed.

Lemma words_in_memory buf junk ws :
  nonul buf -> (forall w, w ∈ ws -> wf_word buf w) ->
  exists m', nul_words ws (buf ++ 0 :: junk) = Some m' /\ length m' = length (buf ++ 0 :: junk) /\
    forall w, w ∈ ws -> word_string m' w = text buf w.
Proof.
  intros Hnul Hwf. destruct (nul_words_spec ws (buf ++ 0 :: junk)) as (m' & Heq & Hlen & Hin & Hout).
  { apply Forall_forall. intros w Hw. destruct (Hwf w Hw) as [? _]. rewrite length_app. cbn. lia. }
  exists m'. split; [done |]. split; [done |]. intros [q e] Hw. destruct (Hwf _ Hw) as (Hle & Hword & _). cbn [fst snd] in *.
  assert (Hsame : forall i, (i < e - q)%nat -> m' !! (q + i)%nat = buf !! (q + i)%nat).
  { intros i Hi. rewrite Hout; [apply lookup_app_l; lia |]. intros Hc. apply list_elem_of_fmap in Hc as ([q' e'] & E & Hw').
    cbn in E. destruct (Hwf _ Hw') as (_ & _ & [He | He]); cbn in He; [lia |].
    rewrite <- E, Hword in He by lia. done. }
  unfold word_string, text. cbn [fst snd]. rewrite (cstr_slice m' q (e - q)).
  - apply list_eq. intros i. destruct (decide (i < e - q)%nat).
    + rewrite !lookup_take_lt, !lookup_drop by done. by apply Hsame.
    + by rewrite !lookup_take_ge by lia.
  - intros i Hi. rewrite Hsame by done. destruct (lookup_lt_is_Some_2 buf (q + i)) as [c Hc]; [lia |].
    exists c. split; [done |]. unfold nonul in Hnul. rewrite Forall_lookup in Hnul. by apply (Hnul _ _ Hc).
  - replace (q + (e - q))%nat with e by lia. by apply (Hin (q, e)).
Qed.

Lemma strlen_text buf junk : nonul buf -> strlen (buf ++ 0 :: junk) = Some (length buf).
Proof.
  induction buf as [| c buf IH]; intros Hn; [done |]. apply Forall_cons in Hn as [Hc Hn]. cbn.
  rewrite (proj2 (Z.eqb_neq c 0) Hc). by rewrite IH.
Qed.

(** ** Properties *)

(** C24: The parser of the shell decides its grammar: a command line whose tokens form a
    line of the grammar is parsed to the tree of that line ([|] binds tighter than
    [&] and [;], both lists and pipelines group to the right, redirections wrap the
    command they follow), without any system call, and each word of the tree reads
    in memory as its text although the words are terminated in place; any other
    command line makes the process exit with status 1.  Four times the length of the
    line bounds the depth of the recursion. *)
Theorem parsecmd_decides {W} `{OS xcall W} (P : uproc xcall W) fuel buf junk :
  nonul buf -> (4 * length buf + 4 <= fuel)%nat ->
  (exists l m', ok_line l /\ lexes buf 0 (pr_line l) /\
     parsecmd fuel (buf ++ 0 :: junk) P = URet (t_line l, m') P /\ length m' = length (buf ++ 0 :: junk) /\
     forall w, w ∈ words (t_line l) -> word_string m' w = text buf w) \/
  ((forall l, ok_line l -> ~ lexes buf 0 (pr_line l)) /\
   exists P', parsecmd fuel (buf ++ 0 :: junk) P = UExit 1 P').
Proof.
  intros Hnul Hfuel.
  destruct (lexes_total buf (length buf) 0 ltac:(lia) ltac:(lia)) as (ts & Hl & Hlen). rewrite Nat.sub_0_r in Hlen.
  destruct (parser_sound P buf fuel) as [Hsound _]. specialize (Hsound 0%nat ts Hl ltac:(lia)).
  assert (Hstart : parsecmd fuel (buf ++ 0 :: junk) P =
    (let! '(c, ps) := parseline fuel buf 0 in
     let '(ps, _) := peek buf ps [] in
     if decide (ps <> length buf) then
       fprintf 2 (str "leftovers: %s" ++ [10]) [VStr (Some (drop ps buf))] ;;; sh_panic "syntax"
     else let! m' := ulift (nulterminate c (buf ++ 0 :: junk)) in uret (c, m')) P).
  { unfold parsecmd. rewrite strlen_text by done. cbn [ulift]. unfold ubind at 1. cbn [uret]. by rewrite take_app_length. }
  rewrite Hstart. destruct (parseline fuel buf 0 P) as [[c ps] p | n p | | |] eqn:Hp; try done.
  2:{ cbn in Hsound. subst n. right. split; [| unfold ubind at 1; rewrite Hp; by eexists].
      intros l Hok Hl'. destruct (parser_complete P buf fuel) as [Hcomp _].
      destruct (Hcomp l [] 0%nat Hok ltac:(by left)) as (ps' & Heq & _); [| by rewrite app_nil_r | congruence].
      rewrite (lexes_det _ _ _ _ Hl' Hl). lia. }
  destruct Hsound as (-> & l & rest & -> & Hok & Hc & Hrest). cbn in Hc, Hrest. subst c.
  rewrite (ubind_ret _ _ _ _ _ Hp). cbv beta iota. rewrite (peek_lex _ _ _ _ Hrest sym_none).
  pose proof (lexes_at_end _ _ _ Hnul Hrest) as Hend. destruct (decide (rest = [])) as [-> | Hne].
  - left. rewrite app_nil_r in Hl.
    destruct (words_in_memory buf junk (words (t_line l)) Hnul) as (m' & Hnt & Hlen' & Hws).
    { intros w Hw. apply (lexes_wf buf 0 (pr_line l)); [done | lia | done | by apply words_line]. }
    exists l, m'. split; [done |]. split; [done |]. rewrite decide_False by tauto.
    rewrite nulterminate_words, Hnt. done.
  - right. split.
    + intros l' Hok' Hl'. pose proof (lexes_det _ _ _ _ Hl Hl') as Heq.
      destruct (parser_complete P buf fuel) as [Hcomp _]. destruct (Hcomp l' [] 0%nat Hok' ltac:(by left)) as (ps' & Hp' & Hl2).
      * rewrite <- Heq. lia.
      * by rewrite app_nil_r.
      * rewrite Hp in Hp'. injection Hp' as _ ->. apply Hne. by apply (lexes_det _ _ _ _ Hrest Hl2).
    + rewrite decide_True by tauto.
      assert (prints 2 (fprintf (W := W) 2 (str "leftovers: %s" ++ [10]) [VStr (Some (drop (skip is_ws buf ps) buf))])
        (str "leftovers: " ++ drop (skip is_ws buf ps) buf ++ [10])) as Hf.
      { unfold fprintf. cbn [str fmap list_fmap String.list_ascii_of_string app]. repeat (apply prints_plain; [done |]).
        apply prints_pct_s. apply prints_plain; [done | apply prints_nil]. }
      destruct (Hf P) as [w E]. rewrite (ubind_ret _ _ _ _ _ E). apply sh_panic_exits.
Qed.

(** The descriptor and mode of a redirection symbol. *)
Definition redir_fd (k : Z) : Z := if k =? 60 then 0 else 1.
Definition redir_mode (k : Z) : Z :=
  if k =? 60 then O_RDONLY
  else if k =? 62 then Z.lor (Z.lor O_WRONLY O_CREATE) O_TRUNC else Z.lor O_WRONLY O_CREATE.
(** The calls that redirect, for the redirections in the order they are made. *)
Definition redir_calls (m : list Z) (rs : list redir) : list xcall :=
  concat ((fun r => [CClose (redir_fd r.1); COpen (word_string m r.2) (redir_mode r.1)]) <$> rs).

Lemma redir_of_eq k c w : k = 60 \/ k = 62 \/ k = 43 -> redir_of k c w = REDIR c w (redir_mode k) (redir_fd k).
Proof. by intros [-> | [-> | ->]]. Qed.

(** Redirections are made from right to left: running a command with redirections
    closes and opens the descriptors of the last one first, so with several for one
    descriptor the first in the text is the one that counts; then the program is
    executed with the words as arguments. *)
Theorem run_redirections {W} `{OS xcall W} m rs w argv (P : uproc xcall W) :
  ok_redirs rs ->
  (forall path mode w', 0 <= a_ret (os_call (COpen path mode) w').1) ->
  (forall path args w', 0 <= a_ret (os_call (CExec path args) w').1) ->
  exists w', run m (wrap rs (EXEC (w :: argv))) P =
    UExec (word_string m w) (word_string m <$> w :: argv)
      (mkuproc (u_trace P ++ redir_calls m (rev rs) ++ [CExec (word_string m w) (word_string m <$> w :: argv)]) w').
Proof.
  intros Hok Hopen Hexec. revert P. induction rs as [| r rs IH] using rev_ind; intros P.
  - cbn [wrap fold_left run rev redir_calls fmap list_fmap concat app]. unfold exec.
    destruct (os_call (CExec (word_string m w) (word_string m <$> w :: argv)) (u_os P)) as [a w'] eqn:E.
    pose proof (Hexec (word_string m w) (word_string m <$> w :: argv) (u_os P)) as Ha. rewrite E in Ha. cbn in Ha.
    exists w'. unfold ubind at 1. unfold ubind at 1. rewrite (ubind_ret _ _ _ _ _ (call_eq _ _ _ _ E)).
    by rewrite (proj2 (Z.ltb_ge _ _) Ha).
  - apply Forall_app in Hok as [Hok Hr]. apply Forall_cons in Hr as [Hr _]. destruct r as [k f]. cbn in Hr.
    rewrite wrap_app. cbn [wrap fold_left fst snd]. fold (wrap rs (EXEC (w :: argv))). rewrite redir_of_eq by done. cbn [run].
    destruct (os_call (CClose (redir_fd k)) (u_os P)) as [a1 w1] eqn:E1.
    destruct (os_call (COpen (word_string m f) (redir_mode k)) w1) as [a2 w2] eqn:E2.
    pose proof (Hopen (word_string m f) (redir_mode k) w1) as Ha. rewrite E2 in Ha. cbn in Ha.
    set (P2 := mkuproc ((u_trace P ++ [CClose (redir_fd k)]) ++ [COpen (word_string m f) (redir_mode k)]) w2).
    destruct (IH Hok P2) as [w' Hrun]. exists w'. rewrite rev_app_distr. cbn [rev app].
    change (redir_calls m ((k, f) :: rev rs)) with
      ([CClose (redir_fd k); COpen (word_string m f) (redir_mode k)] ++ redir_calls m (rev rs)).
    unfold ubind at 1. rewrite (ubind_ret _ _ _ _ _ (call_eq _ _ _ _ E1)).
    rewrite (ubind_ret _ _ _ _ _ (call_eq _ (mkuproc _ w1) _ _ E2)). rewrite (proj2 (Z.ltb_ge _ _) Ha).
    unfold ubind at 1. cbn [uret u_trace]. fold P2. rewrite Hrun. unfold P2. cbn [u_trace]. by rewrite <- !app_assoc.
Qed.

(** ** The properties at a concrete command line *)
Definition sample_line : list Z := str "cat < in | wc > out; ls &" ++ [10].

Lemma parsecmd_decides_witness :
  (exists l m', ok_line l /\ lexes sample_line 0 (pr_line l) /\
     parsecmd 200 (sample_line ++ [0]) (mkuproc [] (@nil Z, 1%nat)) = URet (t_line l, m') (mkuproc [] (@nil Z, 1%nat)) /\
     length m' = length (sample_line ++ [0]) /\ forall w, w ∈ words (t_line l) -> word_string m' w = text sample_line w) \/
  ((forall l, ok_line l -> ~ lexes sample_line 0 (pr_line l)) /\
   exists P', parsecmd 200 (sample_line ++ [0]) (mkuproc [] (@nil Z, 1%nat)) = UExit 1 P').
Proof.
  apply (parsecmd_decides (mkuproc [] (@nil Z, 1%nat)) 200 sample_line []).
  - unfold nonul. apply (bool_decide_unpack _). vm_compute. exact I.
  - apply (bool_decide_unpack _). vm_compute. exact I.
Defined.

(** The tree of the line. *)
Example sample_line_tree : exists m',
  parsecmd 200 (sample_line ++ [0]) (mkuproc [] (@nil Z, 1%nat)) =
    URet (LIST (PIPE (REDIR (EXEC [(0, 3)%nat]) (6, 8)%nat O_RDONLY 0)
                      (REDIR (EXEC [(11, 13)%nat]) (16, 19)%nat 0x601 1)) (BACK (EXEC [(21, 23)%nat])), m') (mkuproc [] (@nil Z, 1%nat)) /\
  word_string m' (16, 19)%nat = str "out".
Proof. eexists. split; [vm_compute; reflexivity | vm_compute; reflexivity]. Qed.

Lemma run_redirections_witness :
  exists w', run (str "a" ++ [0] ++ str "x" ++ [0] ++ str "y" ++ [0])
      (wrap [(62, (2, 3)%nat); (62, (4, 5)%nat)] (EXEC [(0, 1)%nat])) (mkuproc [] (@nil Z, 1%nat)) =
    UExec (str "a") [str "a"]
      (mkuproc [CClose 1; COpen (str "y") 0x601; CClose 1; COpen (str "x") 0x601; CExec (str "a") [str "a"]] w').
Proof.
  destruct (run_redirections (str "a" ++ [0] ++ str "x" ++ [0] ++ str "y" ++ [0])
    [(62, (2, 3)%nat); (62, (4, 5)%nat)] (0, 1)%nat [] (mkuproc [] (@nil Z, 1%nat))) as [w' Hr].
  - repeat constructor; cbn; tauto.
  - intros path mode [c k]. cbn. lia.
  - intros path args [c k]. cbn. lia.
  - exists w'. etransitivity; [exact Hr |]. vm_compute. reflexivity.
Defined.
