(* ===== verification/UserCmds.v ===== *)
(** * User commands ([user/cat.c], [echo.c], [wc.c], [ls.c], [rm.c], [init.c], ...)

    The small programs of the system, each as its functions and its [main], which
    takes the argument strings.  The fuel of a [main] bounds the number of reads of
    a file and of turns of an endless loop. *)
From S2P Require Import Prelude CString User Ulib.
Local Open Scope Z_scope.

(** ** Pure helpers *)

(** White space; a nul in the file counts as part of a word. *)
Definition wc_space (c : Z) : bool := existsb (Z.eqb c) [32; 13; 9; 10; 11].

Definition wc_byte (k : counts) (c : Z) : counts := count_byte wc_space k c.

(** [fmtname]: the part of a path after its last slash, padded with blanks. *)
Fixpoint after_slash (path : list Z) : list Z :=
  match path with
  | [] => []
  | c :: r => if existsb (Z.eqb 47) r then after_slash r else if c =? 47 then r else path
  end.
Definition DIRSIZ : nat := 14.
Definition fmtname (path : list Z) : list Z :=
  let p := after_slash path in
  if decide (DIRSIZ <= length p)%nat then p else p ++ replicate (DIRSIZ - length p) 32.

Section cmds.
Context {W : Type} `{OS xcall W}.
Abbreviation UX := (U xcall W).
Definition nl : list Z := [10].

(** ** cat *)
Fixpoint cat (fuel : nat) (fd : Z) : UX unit :=
  match fuel with
  | O => ufuel
  | S n =>
      let! a := sys (CRead fd 512) in
      if 0 <? a_ret a then
        let! r := call (CWrite 1 (take (Z.to_nat (a_ret a)) (a_data a))) in
        if negb (r =? a_ret a) then
          fprintf 2 (str "cat: write error" ++ nl) [] ;;; uexit 1
        else cat n fd
      else if a_ret a <? 0 then
        fprintf 2 (str "cat: read error" ++ nl) [] ;;; uexit 1
      else uret tt
  end.
Definition cat_main (fuel : nat) (argv : list (list Z)) : UX unit :=
  if decide (length argv <= 1)%nat then cat fuel 0 ;;; uexit 0 else
  ueach (tail argv) (fun f =>
    let! fd := call (COpen f O_RDONLY) in
    if fd <? 0 then
      fprintf 2 (str "cat: cannot open %s" ++ nl) [VStr (Some f)] ;;; uexit 1
    else cat fuel fd ;;; call (CClose fd) ;;; uret tt) ;;;
  uexit 0.

(** ** echo *)
Fixpoint echo_args (args : list (list Z)) : UX unit :=
  match args with
  | [] => uret tt
  | a :: r =>
      call (CWrite 1 a) ;;;
      call (CWrite 1 (match r with [] => nl | _ => [32] end)) ;;;
      echo_args r
  end.
Definition echo_main (argv : list (list Z)) : UX unit := echo_args (tail argv) ;;; uexit 0.

(** ** wc *)
Fixpoint wc_loop (fuel : nat) (fd : Z) (k : counts) : UX (counts * Z) :=
  match fuel with
  | O => ufuel
  | S n =>
      let! a := sys (CRead fd 512) in
      if 0 <? a_ret a then wc_loop n fd (foldl wc_byte k (take (Z.to_nat (a_ret a)) (a_data a)))
      else uret (k, a_ret a)
  end.
Definition wc (fuel : nat) (fd : Z) (name : list Z) : UX unit :=
  let! '(k, n) := wc_loop fuel fd (mkcounts 0 0 0 false) in
  if n <? 0 then printf (str "wc: read error" ++ nl) [] ;;; uexit 1 else
  printf (str "%d %d %d %s" ++ nl) [VInt (n_l k); VInt (n_w k); VInt (n_c k); VStr (Some name)].
Definition wc_main (fuel : nat) (argv : list (list Z)) : UX unit :=
  if decide (length argv <= 1)%nat then wc fuel 0 [] ;;; uexit 0 else
  ueach (tail argv) (fun f =>
    let! fd := call (COpen f O_RDONLY) in
    if fd <? 0 then
      printf (str "wc: cannot open %s" ++ nl) [VStr (Some f)] ;;; uexit 1
    else wc fuel fd f ;;; call (CClose fd) ;;; uret tt) ;;;
  uexit 0.

(** ** ls *)
Definition T_DIR : Z := 1.
Definition T_FILE : Z := 2.
Definition T_DEVICE : Z := 3.
(** The fields of [struct stat] as [fstat] stores them: dev, ino, type, nlink, size. *)
Definition st_ino (st : list Z) : Z := nth 1 st 0.
Definition st_type (st : list Z) : Z := nth 2 st 0.
Definition st_size (st : list Z) : Z := nth 4 st 0.
Definition ls_entry (path st : list Z) : UX unit :=
  printf (str "%s %d %d %d" ++ nl)
    [VStr (Some (fmtname path)); VInt (st_type st); VInt (st_ino st); VInt (s32 (st_size st))].
(** The entries of a directory; a [struct dirent] is a 16-bit inode number and a
    name of 14 bytes, nul-terminated if it is shorter. *)
Fixpoint ls_dir (fuel : nat) (fd : Z) (path : list Z) : UX unit :=
  match fuel with
  | O => ufuel
  | S n =>
      let! a := sys (CRead fd 16) in
      if negb (a_ret a =? 16) then uret tt else
      let inum := nth 0 (a_data a) 0 + 256 * nth 1 (a_data a) 0 in
      if inum =? 0 then ls_dir n fd path else
      let buf := cstr (path ++ [47] ++ take DIRSIZ (drop 2 (a_data a)) ++ [0]) in
      let! '(r, st) := stat buf in
      (if r <? 0 then printf (str "ls: cannot stat %s" ++ nl) [VStr (Some buf)] else ls_entry buf st) ;;;
      ls_dir n fd path
  end.
Definition ls (fuel : nat) (path : list Z) : UX unit :=
  let! fd := call (COpen path O_RDONLY) in
  if fd <? 0 then fprintf 2 (str "ls: cannot open %s" ++ nl) [VStr (Some path)] else
  let! a := sys (CFstat fd) in
  if a_ret a <? 0 then
    fprintf 2 (str "ls: cannot stat %s" ++ nl) [VStr (Some path)] ;;;
    call (CClose fd) ;;; uret tt
  else
    let st := a_data a in
    (if (st_type st =? T_DEVICE) || (st_type st =? T_FILE) then ls_entry path st
     else if st_type st =? T_DIR then
       if decide (512 < length path + 1 + DIRSIZ + 1)%nat then printf (str "ls: path too long" ++ nl) []
       else ls_dir fuel fd path
     else uret tt) ;;;
    call (CClose fd) ;;; uret tt.
Definition ls_main (fuel : nat) (argv : list (list Z)) : UX unit :=
  (if decide (length argv < 2)%nat then ls fuel (str ".") else ueach (tail argv) (ls fuel)) ;;;
  uexit 0.

(** ** kill, rm, ln, mkdir, send, recv, zombie *)
Definition kill_main (argv : list (list Z)) : UX unit :=
  if decide (length argv < 2)%nat then fprintf 2 (str "usage: kill pid..." ++ nl) [] ;;; uexit 1 else
  ueach (tail argv) (fun s => let! pid := ulift (atoi (s ++ [0])) in call (CKill pid 15) ;;; uret tt) ;;;
  uexit 0.
(** The loops of [rm] and [mkdir] stop at the first failure. *)
Fixpoint each_until (f : list Z -> xcall) (fmt : list Z) (args : list (list Z)) : UX unit :=
  match args with
  | [] => uret tt
  | a :: r =>
      let! v := call (f a) in
      if v <? 0 then fprintf 2 fmt [VStr (Some a)] else each_until f fmt r
  end.
Definition rm_main (argv : list (list Z)) : UX unit :=
  if decide (length argv < 2)%nat then fprintf 2 (str "Usage: rm files..." ++ nl) [] ;;; uexit 1 else
  each_until CUnlink (str "rm: %s failed to delete" ++ nl) (tail argv) ;;;
  uexit 0.
Definition mkdir_main (argv : list (list Z)) : UX unit :=
  if decide (length argv < 2)%nat then fprintf 2 (str "Usage: mkdir files..." ++ nl) [] ;;; uexit 1 else
  each_until CMkdir (str "mkdir: %s failed to create" ++ nl) (tail argv) ;;;
  uexit 0.
Definition ln_main (argv : list (list Z)) : UX unit :=
  match argv with
  | [_; old; new] =>
      let! r := call (CLink old new) in
      (if r <? 0 then fprintf 2 (str "link %s %s: failed" ++ nl) [VStr (Some old); VStr (Some new)] else uret tt) ;;;
      uexit 0
  | _ => fprintf 2 (str "Usage: ln old new" ++ nl) [] ;;; uexit 1
  end.
Definition send_main (argv : list (list Z)) : UX unit :=
  match argv with
  | _ :: pid :: msg :: _ =>
      let! pid := ulift (atoi (pid ++ [0])) in
      call (CSend pid msg) ;;; uexit 0
  | _ => printf (str "Usage: send pid message" ++ nl) [] ;;; uexit 1
  end.
Definition recv_main : UX unit := call CRecv ;;; uexit 0.
Definition zombie_main : UX unit :=
  let! pid := call CFork in
  (if 0 <? pid then call (CPause 5) ;;; uret tt else uret tt) ;;;
  uexit 0.

(** ** init *)
Fixpoint init_wait (fuel : nat) (pid : Z) : UX unit :=
  match fuel with
  | O => ufuel
  | S n =>
      let! wpid := call CWait in
      if wpid =? pid then uret tt
      else if wpid <? 0 then printf (str "init: wait returned an error" ++ nl) [] ;;; uexit 1
      else init_wait n pid
  end.
Fixpoint init_loop (fuel : nat) : UX unit :=
  match fuel with
  | O => ufuel
  | S n =>
      printf (str "init: starting sh" ++ nl) [] ;;;
      let! pid := call CFork in
      (if pid <? 0 then printf (str "init: fork failed" ++ nl) [] ;;; uexit 1 else uret tt) ;;;
      (if pid =? 0 then
         exec (str "sh") [str "sh"] ;;;
         printf (str "init: exec sh failed" ++ nl) [] ;;;
         uexit 1
       else uret tt) ;;;
      init_wait n pid ;;;
      init_loop n
  end.
Definition init_main (fuel : nat) : UX unit :=
  let! fd := call (COpen (str "console") O_RDWR) in
  (if fd <? 0 then
     call (CMknod (str "console") 1 0) ;;;
     call (COpen (str "console") O_RDWR) ;;; uret tt
   else uret tt) ;;;
  call (CDup 0) ;;; call (CDup 0) ;;;
  init_loop fuel.

(** ** Demonstrations of processes, semaphores, locks and signals *)
Definition test_proc_main : UX unit :=
  printf (str "Starting Process Creation Test..." ++ nl) [] ;;;
  let! pid := call CFork in
  (if pid <? 0 then printf (str "Fork failed" ++ nl) [] ;;; uexit 1
   else if pid =? 0 then
     let! me := call CGetpid in
     printf (str "Child Process: Hello from PID %d" ++ nl) [VInt me] ;;; uexit 0
   else
     printf (str "Parent Process: Created child with PID %d" ++ nl) [VInt pid] ;;;
     call CWait ;;;
     printf (str "Child finished. Parent exiting." ++ nl) []) ;;;
  uexit 0.
Definition final_project_main : UX unit :=
  printf (str "--- xv6 Custom System Call & Process Test ---" ++ nl) [] ;;;
  let! y := call CGetyear in
  printf (str "System Year: %d" ++ nl) [VInt y] ;;;
  let! pid := call CFork in
  (if pid <? 0 then printf (str "Fork failed!" ++ nl) []
   else if pid =? 0 then
     let! me := call CGetpid in
     printf (str "Child process (PID %d) is running." ++ nl) [VInt me] ;;; uexit 0
   else
     call CWait ;;;
     printf (str "Parent process: Child %d has finished." ++ nl) [VInt pid]) ;;;
  uexit 0.
(** What parent and child of [semtest] do around the critical section. *)
Definition semtest_section (who : string) : UX unit :=
  call CSemWait ;;;
  printf (str who ++ str " entering critical section" ++ nl) [] ;;;
  call (CSleep 5) ;;;
  printf (str who ++ str " leaving critical section" ++ nl) [] ;;;
  call CSemPost ;;; uret tt.
Definition semtest_main : UX unit :=
  printf (str "Semaphore Test Start" ++ nl) [] ;;;
  call (CSemInit 1) ;;;
  let! pid := call CFork in
  (if pid =? 0 then semtest_section "Child" ;;; uexit 0
   else semtest_section "Parent" ;;; call CWait ;;; uret tt) ;;;
  printf (str "Semaphore Test End" ++ nl) [] ;;;
  uexit 0.
Definition locktest_section (who : string) (lock : Z) : UX unit :=
  call (CLockAcquire lock) ;;;
  printf (str who ++ str " acquired lock" ++ nl) [] ;;;
  ueach [0; 1; 2; 3; 4] (fun i => printf (str who ++ str " working %d" ++ nl) [VInt i]) ;;;
  call (CLockRelease lock) ;;;
  printf (str who ++ str " released lock" ++ nl) [].
Definition locktest_main : UX unit :=
  let! lock := call CLockCreate in
  (if lock <? 0 then printf (str "Lock creation failed" ++ nl) [] ;;; uexit 1 else uret tt) ;;;
  let! pid := call CFork in
  (if pid =? 0 then locktest_section "Child" lock ;;; uexit 0
   else call (CSleep 10) ;;; locktest_section "Parent" lock ;;; call CWait ;;; uret tt) ;;;
  uexit 0.
(** The handlers; [sigreturn] does not return to them. *)
Definition sigterm_handler (signum : Z) : UX unit :=
  printf (str "Child: received signal %d, running handler!" ++ nl) [VInt signum] ;;;
  call CSigreturn ;;; uret tt.
Definition sigusr1_handler (signum : Z) : UX unit :=
  printf (str "Child: SIGUSR1 (%d) received!" ++ nl) [VInt signum] ;;;
  call CSigreturn ;;; uret tt.
(** [h15] and [h10] are the addresses of the handlers. *)
Definition signaltest_main (h15 h10 : Z) : UX unit :=
  printf (nl ++ str "=== xv6 Signal Demo ===" ++ nl) [] ;;;
  call (CSignal 15 h15) ;;; call (CSignal 10 h10) ;;;
  let! pid := call CFork in
  if pid =? 0 then
    let! me := call CGetpid in
    printf (str "Child PID=%d: registering handlers and sleeping..." ++ nl) [VInt me] ;;;
    call (CSignal 15 h15) ;;; call (CSignal 10 h10) ;;;
    call (CSleep 20) ;;;
    printf (str "Child: woke up normally." ++ nl) [] ;;;
    uexit 0
  else
    call (CSleep 2) ;;;
    printf (str "Parent: sending SIGUSR1 (10) to child PID=%d" ++ nl) [VInt pid] ;;;
    call (CKill pid 10) ;;;
    call (CSleep 2) ;;;
    printf (str "Parent: sending SIGTERM (15) to child PID=%d" ++ nl) [VInt pid] ;;;
    call (CKill pid 15) ;;;
    call CWait ;;;
    printf (str "=== Signal Demo Complete ===" ++ nl ++ nl) [] ;;;
    uexit 0.

(** ** stressfs, logstress, forphan and dorphan *)

(** [for(i = 0; i < 4; i++) if(fork() > 0) break;]: the value of [i] after the loop. *)
Fixpoint stress_forks (k : nat) (i : Z) : UX Z :=
  match k with
  | O => uret i
  | S k' => let! pid := call CFork in if 0 <? pid then uret i else stress_forks k' (i + 1)
  end.
(** A loop that repeats a call and ignores its result. *)
Definition repeat_call (n : nat) (c : xcall) : UX unit := ueach (seq 0 n) (fun _ => call c ;;; uret tt).
Definition stressfs_main : UX unit :=
  printf (str "stressfs starting" ++ nl) [] ;;;
  let! data := ulift (memset (replicate 512 0) 97 512) in
  let! i := stress_forks 4 0 in
  printf (str "write %d" ++ nl) [VInt i] ;;;
  let path := str "stressfs" ++ [u8 (48 + i)] in
  let! fd := call (COpen path (Z.lor O_CREATE O_RDWR)) in
  repeat_call 20 (CWrite fd data) ;;;
  call (CClose fd) ;;;
  printf (str "read" ++ nl) [] ;;;
  let! fd := call (COpen path O_RDONLY) in
  repeat_call 20 (CRead fd 512) ;;;
  call (CClose fd) ;;;
  call CWait ;;;
  uexit 0.

(** [BUFSZ], [N] and [SZ] of [logstress]. *)
Definition LOG_BUFSZ : nat := 500.
Definition LOG_N : nat := 250.
Definition LOG_SZ : nat := 2000.
(** The child for argument [i], with [buf] as the program starts with it. *)
Definition logstress_child (argv0 file : list Z) (i : Z) : UX unit :=
  let! fd := call (COpen file (Z.lor O_CREATE O_RDWR)) in
  if fd <? 0 then
    printf (str "%s: create %s failed" ++ nl) [VStr (Some argv0); VStr (Some file)] ;;; uexit 1
  else
  let! buf := ulift (memset (replicate LOG_BUFSZ 0) (48 + i) LOG_SZ) in
  ueach (seq 0 LOG_N) (fun _ =>
    let! n := call (CWrite fd buf) in
    if negb (n =? Z.of_nat LOG_SZ) then printf (str "write failed %d" ++ nl) [VInt n] ;;; uexit 1 else uret tt) ;;;
  uexit 0.
Fixpoint logstress_forks (argv0 : list Z) (files : list (list Z)) (i : Z) : UX unit :=
  match files with
  | [] => uret tt
  | f :: r =>
      let! pid1 := call CFork in
      if pid1 <? 0 then printf (str "%s: fork failed" ++ nl) [VStr (Some argv0)] ;;; uexit 1 else
      if pid1 =? 0 then logstress_child argv0 f i else logstress_forks argv0 r (i + 1)
  end.
(** [wait(&xstatus)] stores the status. *)
Fixpoint logstress_waits (n : nat) : UX unit :=
  match n with
  | O => uret tt
  | S k => let! a := sys CWait in
           let xstatus := nth 0 (a_data a) 0 in
           if istrue xstatus then uexit xstatus else logstress_waits k
  end.
Definition logstress_main (argv : list (list Z)) : UX unit :=
  logstress_forks (default [] (head argv)) (tail argv) 1 ;;;
  logstress_waits (length (tail argv)) ;;;
  uexit 0.

(** [for(;;) pause(1000);]. *)
Fixpoint pause_forever (fuel : nat) : UX unit :=
  match fuel with
  | O => ufuel
  | S n => call (CPause 1000) ;;; pause_forever n
  end.
Definition forphan_main (fuel : nat) (s : list Z) : UX unit :=
  let ff := str "file0" in
  let! fd := call (COpen ff (Z.lor O_CREATE O_WRONLY)) in
  if fd <? 0 then printf (str "%s: open failed" ++ nl) [VStr (Some s)] ;;; uexit 1 else
  let! st := sys (CFstat fd) in
  if a_ret st <? 0 then fprintf 2 (str "%s: cannot stat %s" ++ nl) [VStr (Some s); VStr (Some (str "ff"))] ;;; uexit 1 else
  let! r := call (CUnlink ff) in
  if r <? 0 then printf (str "%s: unlink failed" ++ nl) [VStr (Some s)] ;;; uexit 1 else
  let! r := call (COpen ff O_RDONLY) in
  if negb (r =? -1) then printf (str "%s: open successed" ++ nl) [VStr (Some s)] ;;; uexit 1 else
  printf (str "wait for kill and reclaim %d" ++ nl) [VInt (st_ino (a_data st))] ;;;
  pause_forever fuel.
Definition dorphan_main (fuel : nat) (s : list Z) : UX unit :=
  let! r := call (CMkdir (str "dd")) in
  if negb (r =? 0) then printf (str "%s: mkdir dd failed" ++ nl) [VStr (Some s)] ;;; uexit 1 else
  let! r := call (CChdir (str "dd")) in
  if negb (r =? 0) then printf (str "%s: chdir dd failed" ++ nl) [VStr (Some s)] ;;; uexit 1 else
  let! r := call (CUnlink (str "../dd")) in
  if r <? 0 then printf (str "%s: unlink failed" ++ nl) [VStr (Some s)] ;;; uexit 1 else
  printf (str "wait for kill and reclaim" ++ nl) [] ;;;
  pause_forever fuel.

(** ** forktest *)
Definition print (s : list Z) : UX unit := call (CWrite 1 s) ;;; uret tt.
(** [for(n=0; n<N; n++)]: how many forks succeeded; [k] is [N - n]. *)
Fixpoint fork_many (k : nat) (n : Z) : UX Z :=
  match k with
  | O => uret n
  | S k' =>
      let! pid := call CFork in
      if pid <? 0 then uret n
      else if pid =? 0 then uexit 0
      else fork_many k' (n + 1)
  end.
Fixpoint wait_many (n : nat) : UX unit :=
  match n with
  | O => uret tt
  | S n' =>
      let! r := call CWait in
      if r <? 0 then print (str "wait stopped early" ++ nl) ;;; uexit 1 else wait_many n'
  end.
Definition forktest : UX unit :=
  print (str "fork test" ++ nl) ;;;
  let! n := fork_many 1000 0 in
  (if n =? 1000 then print (str "fork claimed to work N times!" ++ nl) ;;; uexit 1 else uret tt) ;;;
  wait_many (Z.to_nat n) ;;;
  let! r := call CWait in
  (if negb (r =? -1) then print (str "wait got too many" ++ nl) ;;; uexit 1 else uret tt) ;;;
  print (str "fork test OK" ++ nl).
Definition forktest_main : UX unit := forktest ;;; uexit 0.
End cmds.

(** [memset] past the end of its object is an access out of bounds, so every child of
    [logstress] that opens its file faults: it fills 2000 bytes of an array of 500. *)
Lemma memset_past m : forall c n, (length m < n)%nat -> memset m c n = None.
Proof.
  induction m as [| x m IH]; intros c [| n] Hn; cbn [length] in Hn; try lia; [done |]. cbn [memset]. by rewrite IH by lia.
Qed.
Lemma logstress_child_faults {W} `{OS xcall W} argv0 file i (p : uproc xcall W) a w :
  os_call (COpen file (Z.lor O_CREATE O_RDWR)) (u_os p) = (a, w) -> 0 <= a_ret a ->
  logstress_child argv0 file i p = UFault (mkuproc (u_trace p ++ [COpen file (Z.lor O_CREATE O_RDWR)]) w).
Proof.
  intros E Ha. unfold logstress_child. rewrite (ubind_ret _ _ _ _ _ (call_eq _ _ _ _ E)), (proj2 (Z.ltb_ge _ _) Ha).
  rewrite memset_past; [done |]. rewrite length_replicate. unfold LOG_BUFSZ, LOG_SZ. lia.
Qed.

(** ** Counting *)
Lemma written_putc fd l : written fd (putc_calls fd l) = u8 <$> l.
Proof.
  induction l as [| c l IH]; [done |]. unfold written, putc_calls in *. cbn. rewrite Z.eqb_refl. cbn. by rewrite IH.
Qed.

Section files.
Context {W : Type} `{OS xcall W} (fd : Z) (left : W -> list Z -> Prop) `{!ReadsFile fd left}.

(** The loop of [wc] folds its counters over the whole file. *)
Lemma wc_loop_eq : forall fuel c k (p : uproc xcall W),
  left (u_os p) c -> (length c < fuel)%nat ->
  exists p', wc_loop fuel fd k p = URet (foldl wc_byte k c, 0) p' /\ left (u_os p') [] /\
    written 1 (u_trace p') = written 1 (u_trace p).
Proof.
  induction fuel as [| fuel IH]; intros c k p Hl Hf; [lia |]. cbn [wc_loop].
  destruct (read_law (u_os p) c 512 Hl ltac:(lia)) as (n & w' & Hread & Hl' & Hn & Hn' & Hpos).
  rewrite (ubind_ret _ _ _ _ _ (sys_eq _ _ _ _ Hread)). cbn [a_ret a_data].
  assert (Hw : forall t, written 1 (t ++ [CRead fd 512]) = written 1 t) by (intros t; rewrite written_app; cbn; by rewrite app_nil_r).
  destruct (decide (c = [])) as [-> | Hc].
  { destruct n as [| n]; [| cbn in Hn; lia]. eexists. split; [reflexivity |]. split; [exact Hl' | apply Hw]. }
  specialize (Hpos Hc ltac:(lia)). rewrite (proj2 (Z.ltb_lt 0 (Z.of_nat n))) by lia. rewrite Nat2Z.id, take_idemp.
  destruct (IH (drop n c) (foldl wc_byte k (take n c)) (mkuproc (u_trace p ++ [CRead fd 512]) w') Hl' ltac:(rewrite length_drop; lia))
    as (p' & Heq & Hl2 & Hw2).
  exists p'. rewrite Heq, <- foldl_app, take_drop. split; [done |]. split; [done |]. rewrite Hw2. apply Hw.
Qed.

(** Writing to descriptor 1 takes everything. *)
Class WritesAll : Prop := writes_all : forall w d, a_ret (os_call (CWrite 1 d) w).1 = Z.of_nat (length d).

Lemma cat_eq `{!WritesAll} : forall fuel c (p : uproc xcall W),
  left (u_os p) c -> (length c < fuel)%nat ->
  exists p', cat fuel fd p = URet tt p' /\ left (u_os p') [] /\ written 1 (u_trace p') = written 1 (u_trace p) ++ c.
Proof.
  induction fuel as [| fuel IH]; intros c p Hl Hf; [lia |]. cbn [cat].
  destruct (read_law (u_os p) c 512 Hl ltac:(lia)) as (n & w' & Hread & Hl' & Hn & Hn' & Hpos).
  rewrite (ubind_ret _ _ _ _ _ (sys_eq _ _ _ _ Hread)). cbn [a_ret a_data].
  destruct (decide (c = [])) as [-> | Hc].
  { destruct n as [| n]; [| cbn in Hn; lia]. eexists. split; [reflexivity |]. split; [exact Hl' |]. cbn [u_trace].
    rewrite written_app. cbn. by rewrite !app_nil_r. }
  specialize (Hpos Hc ltac:(lia)). rewrite (proj2 (Z.ltb_lt 0 (Z.of_nat n))) by lia. rewrite Nat2Z.id, take_idemp.
  set (p1 := mkuproc (u_trace p ++ [CRead fd 512]) w').
  destruct (write_law (fd := fd) w' (drop n c) (take n c) Hl') as (r & w2 & Hw & Hl2).
  pose proof (writes_all w' (take n c)) as Hr. rewrite Hw in Hr. cbn in Hr. rewrite length_take in Hr.
  rewrite (ubind_ret _ _ _ _ _ (call_eq _ p1 _ _ Hw)), Hr.
  replace (Nat.min n (length c)) with n by lia. rewrite Z.eqb_refl. cbn [negb].
  destruct (IH (drop n c) (mkuproc (u_trace p1 ++ [CWrite 1 (take n c)]) w2) Hl2 ltac:(rewrite length_drop; lia)) as (p' & Heq & Hl3 & Hw3).
  exists p'. split; [exact Heq |]. split; [done |]. rewrite Hw3. cbn [u_trace p1]. rewrite !written_app.
  assert (written 1 [CRead fd 512] = [] /\ written 1 [CWrite 1 (take n c)] = take n c) as [-> ->].
  { unfold written. cbn. by rewrite app_nil_r. }
  by rewrite app_nil_r, <- app_assoc, take_drop.
Qed.
End files.

(** ** Properties *)

(** [wc] counts: however the system cuts the file into reads, it prints the number
    of newlines, of words (maximal runs of bytes other than blank, tab, newline,
    carriage return and vertical tab) and of bytes of the file, then its name. *)
Theorem wc_counts {W} `{OS xcall W} fd left `{!ReadsFile fd left} fuel name content (p : uproc xcall W) :
  left (u_os p) content -> (length content < fuel)%nat -> Z.of_nat (length content) < 2 ^ 31 ->
  exists p', wc fuel fd name p = URet tt p' /\
    written 1 (u_trace p') = written 1 (u_trace p) ++ (u8 <$>
      udec (Z.of_nat (count_occ Z.eq_dec content 10)) ++ [32] ++
      udec (Z.of_nat (length (fields wc_space content))) ++ [32] ++
      udec (Z.of_nat (length content)) ++ [32] ++ name ++ [10]).
Proof.
  intros Hl Hf Hlen. unfold wc.
  destruct (wc_loop_eq fd left fuel content (mkcounts 0 0 0 false) p Hl Hf) as (p1 & Heq & _ & Hw1).
  rewrite (ubind_ret _ _ _ _ _ Heq). cbv beta iota. change (0 <? 0) with false. cbv iota.
  destruct (count_fold wc_space content (mkcounts 0 0 0 false) ltac:(cbn; lia) ltac:(cbn; lia) ltac:(cbn; lia) ltac:(cbn; lia)
    ltac:(cbn; lia) ltac:(cbn; lia)) as (E1 & E2 & E3).
  change (count_byte wc_space) with wc_byte in E1, E2, E3.
  cbn [n_l n_w n_c n_inword] in E1, E2, E3. rewrite Z.add_0_l in E1, E2, E3. rewrite E1, E2, E3. rewrite (proj1 (nfields_eq wc_space content)).
  set (nl := count_occ Z.eq_dec content 10). set (nw := length (fields wc_space content)).
  assert (nl <= length content)%nat as Bl.
  { unfold nl. clear. induction content as [| c l IH]; cbn; [lia |]. destruct (Z.eq_dec c 10); cbn; lia. }
  assert (nw <= length content)%nat as Bw.
  { unfold nw. rewrite <- (proj1 (nfields_eq wc_space content)). clear.
    assert (forall b, (nfields wc_space b content <= length content)%nat) as Hn; [| apply Hn].
    induction content as [| c l IH]; intros b; cbn [nfields length]; [lia |]. pose proof (IH true). pose proof (IH false).
    destruct (wc_space c), b; lia. }
  assert (prints 1 (printf (W := W) (str "%d %d %d %s" ++ [10]) [VInt (Z.of_nat nl); VInt (Z.of_nat nw); VInt (Z.of_nat (length content)); VStr (Some name)])
    (udec (Z.of_nat nl) ++ [32] ++ udec (Z.of_nat nw) ++ [32] ++ udec (Z.of_nat (length content)) ++ [32] ++ name ++ [10])) as Hp.
  { unfold printf. rewrite <- (s32_small (Z.of_nat nl)), <- (s32_small (Z.of_nat nw)), <- (s32_small (Z.of_nat (length content))) at 2 by lia.
    apply prints_pct_d, prints_plain; [done |]. apply prints_pct_d, prints_plain; [done |].
    apply prints_pct_d, prints_plain; [done |]. apply prints_pct_s, prints_plain; [done | apply prints_nil]. }
  destruct (Hp p1) as [w E]. eexists. split; [exact E |]. cbn [u_trace]. by rewrite written_app, Hw1, written_putc.
Qed.

(** [cat] copies: if writes to the output take all their bytes, [cat] writes
    exactly the bytes of the file, in order, and reads it to its end. *)
Theorem cat_copies {W} `{OS xcall W} fd left `{!ReadsFile fd left} `{!WritesAll} fuel content (p : uproc xcall W) :
  left (u_os p) content -> (length content < fuel)%nat ->
  exists p', cat fuel fd p = URet tt p' /\ left (u_os p') [] /\
    written 1 (u_trace p') = written 1 (u_trace p) ++ content.
Proof. intros Hl Hf. by apply (cat_eq fd left). Qed.

Lemma wc_counts_witness :
  exists p', wc 40 0 (str "f") (mkuproc [] (str "one two" ++ [10; 9] ++ str "three", 5%nat)) = URet tt p' /\
    written 1 (u_trace p') = str "1 3 14 f" ++ [10].
Proof.
  destruct (wc_counts 0 (fun (w : tape) c => fst w = c /\ (0 < snd w)%nat) 40 (str "f") (str "one two" ++ [10; 9] ++ str "three")
    (mkuproc [] (str "one two" ++ [10; 9] ++ str "three", 5%nat))) as (p' & Hwc & Hw).
  - split; [reflexivity | cbn; lia].
  - apply (bool_decide_unpack _). vm_compute. exact I.
  - apply (bool_decide_unpack _). vm_compute. exact I.
  - exists p'. split; [exact Hwc | etransitivity; [exact Hw | vm_compute; reflexivity]].
Defined.

#[local] Instance tape_writes : WritesAll (W := tape).
Proof. intros w d. reflexivity. Qed.
Lemma cat_copies_witness :
  exists p', cat 40 0 (mkuproc [] (str "some bytes", 3%nat)) = URet tt p' /\ fst (u_os p') = [] /\
    written 1 (u_trace p') = str "some bytes".
Proof.
  destruct (cat_copies 0 (fun (w : tape) c => fst w = c /\ (0 < snd w)%nat) 40 (str "some bytes")
    (mkuproc [] (str "some bytes", 3%nat))) as (p' & Hc & Hl & Hw).
  - split; [reflexivity | cbn; lia].
  - apply (bool_decide_unpack _). vm_compute. exact I.
  - exists p'. split; [exact Hc |]. split; [apply Hl | exact Hw].
Defined.
