(* ===== verification/TestLib.v ===== *)
(** * Programs that use raw addresses ([user/usertests.c], [user/grind.c])

    The regression tests pass addresses of their own, good and bad, to system calls and
    read and write memory through them.  Their calls are those of [Ulib] and the ones
    that take addresses; an access of memory is a call as well, since the page table
    decides what it does.  Library functions run unchanged ([lib]). *)
From S2P Require Import Prelude CString User Ulib.
Local Open Scope Z_scope.

(** A string argument: a string of the program, or an address. *)
Inductive sarg : Type := PStr (l : list Z) | PAddr (a : Z).
Inductive tcall : Type :=
| X (c : xcall)
| TWrite (fd addr n : Z) | TRead (fd addr n : Z) | TPipe (addr : Z)
| TOpen (path : sarg) (mode : Z) | TUnlink (path : sarg) | TLink (old new : sarg)
| TExec (path : sarg) (argv : list sarg)
| TLoad (addr n : Z) | TStore (addr : Z) (data : list Z) | TSp.

Section tests.
Context {W : Type} `{OS tcall W}.
Abbreviation UT := (U tcall W).

#[export] Instance lib_os : OS xcall W := fun c w => os_call (X c) w.

(** A computation with the plain calls. *)
Definition lib {A} (m : U xcall W A) : UT A := fun p =>
  let back (q : uproc xcall W) : uproc tcall W := mkuproc (u_trace p ++ (X <$> u_trace q)) (u_os q) in
  match m (mkuproc [] (u_os p)) with
  | URet a q => URet a (back q)
  | UExit n q => UExit n (back q)
  | UExec f argv q => UExec f argv (back q)
  | UFault q => UFault (back q)
  | UFuel q => UFuel (back q)
  end.

(** ** Library functions and plain calls *)
Definition printf (fmt : list Z) (ap : list varg) : UT unit := lib (Ulib.printf fmt ap).
Definition fprintf (fd : Z) (fmt : list Z) (ap : list varg) : UT unit := lib (Ulib.fprintf fd fmt ap).
Definition call (c : xcall) : UT Z := lib (Ulib.call c).
Definition sbrk (n : Z) : UT Z := lib (Ulib.sbrk n).
Definition sbrklazy (n : Z) : UT Z := lib (Ulib.sbrklazy n).
Definition exec (path : list Z) (argv : list (list Z)) : UT Z := lib (Ulib.exec path argv).
Definition fork : UT Z := call CFork.
Definition open (path : list Z) (mode : Z) : UT Z := call (COpen path mode).
Definition close (fd : Z) : UT Z := call (CClose fd).
Definition write (fd : Z) (data : list Z) : UT Z := call (CWrite fd data).
(** The bytes read are in the answer. *)
Definition read (fd n : Z) : UT answer := sys (X (CRead fd n)).
Definition unlink (path : list Z) : UT Z := call (CUnlink path).
Definition link (old new : list Z) : UT Z := call (CLink old new).
Definition mkdir (path : list Z) : UT Z := call (CMkdir path).
Definition chdir (path : list Z) : UT Z := call (CChdir path).
Definition dup (fd : Z) : UT Z := call (CDup fd).
Definition getpid : UT Z := call CGetpid.
Definition kill (pid signum : Z) : UT Z := call (CKill pid signum).
Definition pause (n : Z) : UT Z := call (CPause n).
(** [wait(0)], and [wait(&xstatus)] with the status stored, 0 if none is. *)
Definition wait0 : UT Z := call CWait.
Definition wait : UT (Z * Z) := let! a := sys (X CWait) in uret (a_ret a, nth 0 (a_data a) 0).
(** [pipe(fds)]: the result and the two descriptors. *)
Definition pipe : UT (Z * Z * Z) :=
  let! a := sys (X CPipe) in uret (a_ret a, nth 0 (a_data a) 0, nth 1 (a_data a) 0).

(** ** Calls and accesses with addresses *)
Definition tcall_ret (c : tcall) : UT Z := let! a := sys c in uret (a_ret a).
Definition load (addr n : Z) : UT (list Z) :=
  let! a := sys (TLoad addr n) in if a_ret a <? 0 then ufault else uret (a_data a).
Definition store (addr : Z) (data : list Z) : UT unit :=
  let! a := sys (TStore addr data) in if a_ret a <? 0 then ufault else uret tt.
(** A byte; [char] is unsigned. *)
Definition load8 (addr : Z) : UT Z := let! l := load addr 1 in uret (nth 0 l 0).
Definition store8 (addr v : Z) : UT unit := store addr [u8 v].
(** A pointer. *)
Fixpoint le (n : nat) (v : Z) : list Z :=
  match n with O => [] | S k => v mod 256 :: le k (v / 256) end.
Fixpoint of_le (l : list Z) : Z := match l with [] => 0 | b :: r => b + 256 * of_le r end.
Definition load64 (addr : Z) : UT Z := let! l := load addr 8 in uret (of_le l).
Definition store64 (addr v : Z) : UT unit := store addr (le 8 v).
(** [exec] with an address: it returns only if it fails. *)
Definition exec_at (path : sarg) (argv : list sarg) : UT Z :=
  let! r := tcall_ret (TExec path argv) in if r <? 0 then uret r else fun p => UExec [] [] p.

(** What [%s] prints of the string at an address. *)
Fixpoint put_at (fuel : nat) (addr : Z) : UT unit :=
  match fuel with
  | O => ufuel
  | S k => let! c := load8 addr in if c =? 0 then uret tt else lib (Ulib.putc 1 c) ;;; put_at k (addr + 1)
  end.

(** ** Common pieces *)
Definition nl : list Z := [10].
Definition when (b : bool) (m : UT unit) : UT unit := if b then m else uret tt.
(** [printf(...); exit(1);] *)
Definition die {A} (fmt : list Z) (ap : list varg) : UT A := printf fmt ap ;;; uexit 1.
(** The message of a test, after its name. *)
Definition oops {A} (s : list Z) (msg : list Z) : UT A := die (str "%s: " ++ msg ++ nl) [VStr (Some s)].
(** Calls whose result must, or must not, be an error, or 0. *)
Definition must {A} (ok : A -> bool) (m : UT A) (s msg : list Z) : UT A :=
  let! r := m in when (negb (ok r)) (oops s msg) ;;; uret r.
Definition succeeds (r : Z) : bool := 0 <=? r.
Definition fails (r : Z) : bool := r <? 0.
Definition equals (n : Z) (r : Z) : bool := r =? n.
Definition differs (n : Z) (r : Z) : bool := negb (r =? n).
(** [if((pid = fork()) < 0) { printf("%s: fork failed\n", s); exit(1); }] *)
Definition fork_or_die (s : list Z) : UT Z :=
  let! pid := fork in when (pid <? 0) (oops s (str "fork failed")) ;;; uret pid.
(** An endless loop. *)
Fixpoint forever (fuel : nat) (m : UT unit) : UT unit :=
  match fuel with O => ufuel | S k => m ;;; forever k m end.
(** [for(i = 0; i < n; i++)] *)
Definition upto (n : Z) (f : Z -> UT unit) : UT unit := ueach (seq 0 (Z.to_nat n)) (fun i => f (Z.of_nat i)).
(** A buffer after a read: the bytes stored and what was there. *)
Definition fill (buf : list Z) (a : answer) : list Z := a_data a ++ drop (length (a_data a)) buf.
End tests.
