(* ===== verification/TestMem.v ===== *)
(** * Tests of user memory ([user/usertests.c])

    The tests that pass bad pointers to system calls, grow and shrink the process, and
    read and write where they may not.  [s] is the name of the test.  A buffer of the
    program starts with zeroes. *)
From S2P Require Import Prelude CString User Ulib Umalloc TestLib.
Local Open Scope Z_scope.

Definition PGSIZE : Z := 4096.
Definition MAXVA : Z := 2 ^ 38.
Definition TRAPFRAME : Z := MAXVA - PGSIZE - PGSIZE.
Definition KERNBASE : Z := 0x80000000.
Definition MAXPATH : nat := 128.
Definition MAXARG : nat := 32.
Definition USERSTACK : Z := 1.
Definition REGION_SZ : Z := 1024 * 1024 * 1024.

Section mem.
Context {W : Type} `{OS tcall W}.
Abbreviation UT := (U tcall W).
Implicit Types (s : list Z).

(** ** Bad pointers *)
Definition bad_addrs : list Z := [0x80000000; 0x3fffffe000; 0x3ffffff000; 0x4000000000; 0xffffffffffffffff].

Definition copyin_one (addr : Z) : UT unit :=
  let! fd := open (str "copyin1") (Z.lor O_CREATE O_WRONLY) in
  when (fd <? 0) (die (str "open(copyin1) failed" ++ nl) []) ;;;
  let! n := tcall_ret (TWrite fd addr 8192) in
  when (0 <=? n) (die (str "write(fd, %p, 8192) returned %d, not -1" ++ nl) [VInt addr; VInt n]) ;;;
  close fd ;;;
  unlink (str "copyin1") ;;;
  let! n := tcall_ret (TWrite 1 addr 8192) in
  when (0 <? n) (die (str "write(1, %p, 8192) returned %d, not -1 or 0" ++ nl) [VInt addr; VInt n]) ;;;
  let! '(r, fd0, fd1) := pipe in
  when (r <? 0) (die (str "pipe() failed" ++ nl) []) ;;;
  let! n := tcall_ret (TWrite fd1 addr 8192) in
  when (0 <? n) (die (str "write(pipe, %p, 8192) returned %d, not -1 or 0" ++ nl) [VInt addr; VInt n]) ;;;
  close fd0 ;;;
  close fd1 ;;;
  uret tt.
Definition copyin s : UT unit := ueach bad_addrs copyin_one.

Definition copyout_one (addr : Z) : UT unit :=
  let! fd := open (str "README") 0 in
  when (fd <? 0) (die (str "open(README) failed" ++ nl) []) ;;;
  let! n := tcall_ret (TRead fd addr 8192) in
  when (0 <? n) (die (str "read(fd, %p, 8192) returned %d, not -1 or 0" ++ nl) [VInt addr; VInt n]) ;;;
  close fd ;;;
  let! '(r, fd0, fd1) := pipe in
  when (r <? 0) (die (str "pipe() failed" ++ nl) []) ;;;
  let! n := write fd1 (str "x") in
  when (negb (n =? 1)) (die (str "pipe write failed" ++ nl) []) ;;;
  let! n := tcall_ret (TRead fd0 addr 8192) in
  when (0 <? n) (die (str "read(pipe, %p, 8192) returned %d, not -1 or 0" ++ nl) [VInt addr; VInt n]) ;;;
  close fd0 ;;;
  close fd1 ;;;
  uret tt.
Definition copyout s : UT unit := ueach (0 :: bad_addrs) copyout_one.

Definition copyinstr1 s : UT unit :=
  ueach bad_addrs (fun addr =>
    let! fd := tcall_ret (TOpen (PAddr addr) (Z.lor O_CREATE O_WRONLY)) in
    when (0 <=? fd) (die (str "open(%p) returned %d, not -1" ++ nl) [VInt addr; VInt fd])).

(** The messages about [exec] print [fd]. *)
Definition copyinstr2_child (fd : Z) : UT unit :=
  let big := replicate (Z.to_nat PGSIZE) 120 in
  let! ret := exec (str "echo") [big; big; big] in
  when (negb (ret =? -1)) (die (str "exec(echo, BIG) returned %d, not -1" ++ nl) [VInt fd]) ;;;
  uexit 747.
Definition copyinstr2 s : UT unit :=
  let b := replicate MAXPATH 120 in
  let! ret := unlink b in
  when (negb (ret =? -1)) (die (str "unlink(%s) returned %d, not -1" ++ nl) [VStr (Some b); VInt ret]) ;;;
  let! fd := open b (Z.lor O_CREATE O_WRONLY) in
  when (negb (fd =? -1)) (die (str "open(%s) returned %d, not -1" ++ nl) [VStr (Some b); VInt fd]) ;;;
  let! ret := link b b in
  when (negb (ret =? -1)) (die (str "link(%s, %s) returned %d, not -1" ++ nl) [VStr (Some b); VStr (Some b); VInt ret]) ;;;
  let! ret := exec b [str "xx"] in
  when (negb (ret =? -1)) (die (str "exec(%s) returned %d, not -1" ++ nl) [VStr (Some b); VInt fd]) ;;;
  let! pid := fork in
  when (pid <? 0) (die (str "fork failed" ++ nl) []) ;;;
  when (pid =? 0) (copyinstr2_child fd) ;;;
  let! '(_, st) := wait in
  when (negb (st =? 747)) (die (str "exec(echo, BIG) succeeded, should have failed" ++ nl) []).

Definition copyinstr3 (fuel : nat) s : UT unit :=
  sbrk 8192 ;;;
  let! top := sbrk 0 in
  when (negb (top mod PGSIZE =? 0)) (sbrk (PGSIZE - top mod PGSIZE) ;;; uret tt) ;;;
  let! top := sbrk 0 in
  when (istrue (top mod PGSIZE)) (die (str "oops" ++ nl) []) ;;;
  let b := top - 1 in
  let print_b := put_at fuel b in
  store8 b 120 ;;;
  let! ret := tcall_ret (TUnlink (PAddr b)) in
  when (negb (ret =? -1)) (printf (str "unlink(") [] ;;; print_b ;;; die (str ") returned %d, not -1" ++ nl) [VInt ret]) ;;;
  let! fd := tcall_ret (TOpen (PAddr b) (Z.lor O_CREATE O_WRONLY)) in
  when (negb (fd =? -1)) (printf (str "open(") [] ;;; print_b ;;; die (str ") returned %d, not -1" ++ nl) [VInt fd]) ;;;
  let! ret := tcall_ret (TLink (PAddr b) (PAddr b)) in
  when (negb (ret =? -1))
    (printf (str "link(") [] ;;; print_b ;;; printf (str ", ") [] ;;; print_b ;;; die (str ") returned %d, not -1" ++ nl) [VInt ret]) ;;;
  let! ret := exec_at (PAddr b) [PStr (str "xx")] in
  when (negb (ret =? -1)) (printf (str "exec(") [] ;;; print_b ;;; die (str ") returned %d, not -1" ++ nl) [VInt fd]).

Definition rwsbrk s : UT unit :=
  let! a := sbrk 8192 in
  when (a =? SBRK_ERROR) (die (str "sbrk(rwsbrk) failed" ++ nl) []) ;;;
  let! r := sbrk (-8192) in
  when (r =? SBRK_ERROR) (die (str "sbrk(rwsbrk) shrink failed" ++ nl) []) ;;;
  let! fd := open (str "rwsbrk") (Z.lor O_CREATE O_WRONLY) in
  when (fd <? 0) (die (str "open(rwsbrk) failed" ++ nl) []) ;;;
  let! n := tcall_ret (TWrite fd (a + PGSIZE) 1024) in
  when (0 <=? n) (die (str "write(fd, %p, 1024) returned %d, not -1" ++ nl) [VInt (a + PGSIZE); VInt n]) ;;;
  close fd ;;;
  unlink (str "rwsbrk") ;;;
  let! fd := open (str "README") O_RDONLY in
  when (fd <? 0) (die (str "open(README) failed" ++ nl) []) ;;;
  let! n := tcall_ret (TRead fd (a + PGSIZE) 10) in
  when (0 <=? n) (die (str "read(fd, %p, 10) returned %d, not -1" ++ nl) [VInt (a + PGSIZE); VInt n]) ;;;
  close fd ;;;
  uexit 0.

(** ** Growing and shrinking *)

(** [mem]: take all memory, free it and take some again.  [base] is the address of the
    allocator's own header. *)
Fixpoint mem_take (base : Z) (fuel : nat) (hp : heap) (m1 : Z) : UT (heap * Z) :=
  match fuel with
  | O => ufuel
  | S k =>
      let! '(hp, m2) := lib (Umalloc.malloc base hp 10001) in
      if m2 =? 0 then uret (hp, m1) else store64 m2 m1 ;;; mem_take base k hp m2
  end.
Fixpoint mem_free (fuel : nat) (hp : heap) (m1 : Z) : UT heap :=
  match fuel with
  | O => ufuel
  | S k =>
      if m1 =? 0 then uret hp else
      let! m2 := load64 m1 in
      let! hp := ulift (Umalloc.free hp m1) in
      mem_free k hp m2
  end.
Definition mem_child (base : Z) (fuel : nat) s : UT unit :=
  let! '(hp, m1) := mem_take base fuel (mkheap ∅ 0) 0 in
  let! hp := mem_free fuel hp m1 in
  let! '(hp, m1) := lib (Umalloc.malloc base hp (1024 * 20)) in
  when (m1 =? 0) (oops s (str "couldn't allocate mem?!!")) ;;;
  ulift (Umalloc.free hp m1) ;;;
  uexit 0.
Definition mem (base : Z) (fuel : nat) s : UT unit :=
  let! pid := fork in
  if pid =? 0 then mem_child base fuel s
  else
    let! '(_, xstatus) := wait in
    if xstatus =? -1 then uexit 0 else uexit xstatus.

Definition TOOMUCH : Z := 1024 * 1024 * 1024.
Definition sbrkbasic_child : UT unit :=
  let! a := sbrk TOOMUCH in
  if a =? SBRK_ERROR then uexit 0 else
  upto (TOOMUCH / PGSIZE) (fun i => store8 (a + i * PGSIZE) 99) ;;;
  uexit 1.
(** One byte at a time: the address after the last one. *)
Fixpoint sbrk_bytes s (k : nat) (i a : Z) : UT Z :=
  match k with
  | O => uret a
  | S k' =>
      let! b := sbrk 1 in
      when (negb (b =? a)) (die (str "%s: sbrk test failed %d %p %p" ++ nl) [VStr (Some s); VInt i; VInt a; VInt b]) ;;;
      store8 b 1 ;;;
      sbrk_bytes s k' (i + 1) (b + 1)
  end.
Definition sbrkbasic s : UT unit :=
  let! pid := fork in
  when (pid <? 0) (die (str "fork failed in sbrkbasic" ++ nl) []) ;;;
  when (pid =? 0) sbrkbasic_child ;;;
  let! '(_, xstatus) := wait in
  when (xstatus =? 1) (oops s (str "too much memory allocated!")) ;;;
  let! a := sbrk 0 in
  let! a := sbrk_bytes s 5000 0 a in
  let! pid := fork in
  when (pid <? 0) (oops s (str "sbrk test fork failed")) ;;;
  sbrk 1 ;;;
  let! c := sbrk 1 in
  when (negb (c =? a + 1)) (oops s (str "sbrk test failed post-fork")) ;;;
  when (pid =? 0) (uexit 0) ;;;
  let! '(_, xstatus) := wait in
  uexit xstatus.

Definition BIG : Z := 100 * 1024 * 1024.
Definition sbrkmuch s : UT unit :=
  let! oldbrk := sbrk 0 in
  let! a := sbrk 0 in
  let amt := u64 (BIG - a) in
  let! p := sbrk (s32 amt) in
  when (negb (p =? a)) (oops s (str "sbrk test failed to grow big address space; enough phys mem?")) ;;;
  let lastaddr := BIG - 1 in
  store8 lastaddr 99 ;;;
  let! a := sbrk 0 in
  let! c := sbrk (- PGSIZE) in
  when (c =? SBRK_ERROR) (oops s (str "sbrk could not deallocate")) ;;;
  let! c := sbrk 0 in
  when (negb (c =? a - PGSIZE))
    (die (str "%s: sbrk deallocation produced wrong address, a %p c %p" ++ nl) [VStr (Some s); VInt a; VInt c]) ;;;
  let! a := sbrk 0 in
  let! c := sbrk PGSIZE in
  let realloc_failed := die (str "%s: sbrk re-allocation failed, a %p c %p" ++ nl) [VStr (Some s); VInt a; VInt c] in
  (if negb (c =? a) then realloc_failed
   else let! b := sbrk 0 in when (negb (b =? a + PGSIZE)) realloc_failed) ;;;
  let! x := load8 lastaddr in
  when (x =? 99) (oops s (str "sbrk de-allocation didn't really deallocate")) ;;;
  let! a := sbrk 0 in
  let! b := sbrk 0 in
  let! c := sbrk (s32 (- (b - oldbrk))) in
  when (negb (c =? a)) (die (str "%s: sbrk downsize failed, a %p c %p" ++ nl) [VStr (Some s); VInt a; VInt c]).

(** ** Memory that is not the process's *)
Definition kernmem_one s (a : Z) : UT unit :=
  let! pid := fork_or_die s in
  when (pid =? 0)
    (let! x := load8 a in
     die (str "%s: oops could read %p = %x" ++ nl) [VStr (Some s); VInt a; VInt x]) ;;;
  let! '(_, xstatus) := wait in
  when (negb (xstatus =? -1)) (uexit 1).
(** [for(a = KERNBASE; a < KERNBASE+2000000; a += 50000)] *)
Definition kernmem s : UT unit := upto 40 (fun i => kernmem_one s (KERNBASE + 50000 * i)).

Definition MAXVAplus_one s (a : Z) : UT unit :=
  let! pid := fork_or_die s in
  when (pid =? 0)
    (store8 a 99 ;;;
     die (str "%s: oops wrote %p" ++ nl) [VStr (Some s); VInt a]) ;;;
  let! '(_, xstatus) := wait in
  when (negb (xstatus =? -1)) (uexit 1).
(** [for( ; a != 0; a <<= 1)] in 64 bits: after 26 shifts nothing is left of [MAXVA]. *)
Fixpoint MAXVAplus_loop (fuel : nat) s (a : Z) : UT unit :=
  match fuel with
  | O => ufuel
  | S k => if a =? 0 then uret tt else MAXVAplus_one s a ;;; MAXVAplus_loop k s (u64 (Z.shiftl a 1))
  end.
Definition MAXVAplus s : UT unit := MAXVAplus_loop 27 s MAXVA.

(** The child of [sbrkfail] that holds memory until it is killed. *)
Definition sbrkfail_child (fuel : nat) (fd1 : Z) : UT unit :=
  let! top := sbrk 0 in
  let! r := sbrk (s32 (BIG - top)) in
  (if r =? SBRK_ERROR then write fd1 (str "0") else write fd1 (str "1")) ;;;
  forever fuel (pause 1000 ;;; uret tt).
(** The children, from the last to the first, whether one failed, and [scratch]. *)
Fixpoint sbrkfail_forks (fuel : nat) (fd0 fd1 : Z) (k : nat) (pids : list Z) (failed : bool) (scratch : Z) : UT (list Z * bool) :=
  match k with
  | O => uret (pids, failed)
  | S k' =>
      let! pid := fork in
      when (pid =? 0) (sbrkfail_child fuel fd1) ;;;
      if negb (pid =? -1) then
        let! a := read fd0 1 in
        let scratch := nth 0 (a_data a) scratch in
        sbrkfail_forks fuel fd0 fd1 k' (pid :: pids) (if scratch =? 48 then true else failed) scratch
      else sbrkfail_forks fuel fd0 fd1 k' (pid :: pids) failed scratch
  end.
Definition sbrkfail (fuel : nat) s : UT unit :=
  let! '(r, fd0, fd1) := pipe in
  when (negb (r =? 0)) (oops s (str "pipe() failed")) ;;;
  let! '(pids, failed) := sbrkfail_forks fuel fd0 fd1 10 [] false 0 in
  when (negb failed) (printf (str "%s: no allocation failed; allocate more?" ++ nl) [VStr (Some s)]) ;;;
  let! c := sbrk PGSIZE in
  ueach (rev pids) (fun pid => if pid =? -1 then uret tt else kill pid 15 ;;; wait0 ;;; uret tt) ;;;
  when (c =? SBRK_ERROR) (oops s (str "failed sbrk leaked memory")) ;;;
  let! pid := fork_or_die s in
  when (pid =? 0)
    (let! a := sbrk (10 * BIG) in
     if a =? SBRK_ERROR then uexit 0 else
     die (str "%s: allocate a lot of memory succeeded %d" ++ nl) [VStr (Some s); VInt (10 * BIG)]) ;;;
  let! '(_, xstatus) := wait in
  when (negb (xstatus =? 0)) (uexit 1).

Definition sbrkarg s : UT unit :=
  let! a := sbrk PGSIZE in
  let! fd := open (str "sbrk") (Z.lor O_CREATE O_WRONLY) in
  unlink (str "sbrk") ;;;
  when (fd <? 0) (oops s (str "open sbrk failed")) ;;;
  let! n := tcall_ret (TWrite fd a PGSIZE) in
  when (n <? 0) (oops s (str "write sbrk failed")) ;;;
  close fd ;;;
  let! a := sbrk PGSIZE in
  let! r := tcall_ret (TPipe a) in
  when (negb (r =? 0)) (oops s (str "pipe() failed")).

(** [for(p = 0; p <= 1100*1024; p += PGSIZE)] *)
Definition validatetest s : UT unit :=
  upto (1100 * 1024 / PGSIZE + 1) (fun i =>
    let! r := tcall_ret (TLink (PStr (str "nosuchfile")) (PAddr (i * PGSIZE))) in
    when (negb (r =? -1)) (oops s (str "link should not succeed"))).

(** [uninit] is the array of zeroes a program starts with. *)
Definition bsstest (uninit : list Z) s : UT unit :=
  ueach uninit (fun c => when (negb (c =? 0)) (oops s (str "bss test failed"))).

Definition bigargtest s : UT unit :=
  unlink (str "bigarg-ok") ;;;
  let! pid := fork in
  (if pid =? 0 then
     let big := replicate 399 32 in
     exec (str "echo") (replicate (MAXARG - 1) big) ;;;
     let! fd := open (str "bigarg-ok") O_CREATE in
     close fd ;;;
     uexit 0
   else when (pid <? 0) (oops s (str "bigargtest: fork failed"))) ;;;
  let! '(_, xstatus) := wait in
  when (negb (xstatus =? 0)) (uexit xstatus) ;;;
  let! fd := open (str "bigarg-ok") 0 in
  when (fd <? 0) (oops s (str "bigarg test failed!")) ;;;
  close fd ;;;
  uret tt.

Definition argptest s : UT unit :=
  let! fd := open (str "init") O_RDONLY in
  when (fd <? 0) (oops s (str "open failed")) ;;;
  let! top := sbrk 0 in
  tcall_ret (TRead fd (top - 1) (-1)) ;;;
  close fd ;;;
  uret tt.

Definition stacktest s : UT unit :=
  let! pid := fork in
  (if pid =? 0 then
     let! sp := tcall_ret TSp in
     let sp := sp - USERSTACK * PGSIZE in
     let! x := load8 sp in
     die (str "%s: stacktest: read below stack %d" ++ nl) [VStr (Some s); VInt x]
   else when (pid <? 0) (oops s (str "fork failed"))) ;;;
  let! '(_, xstatus) := wait in
  if xstatus =? -1 then uexit 0 else uexit xstatus.

Definition nowrite_one s (addr : Z) : UT unit :=
  let! pid := fork in
  (if pid =? 0 then
     store addr (le 4 10) ;;;
     printf (str "%s: write to %p did not fail!" ++ nl) [VStr (Some s); VInt addr] ;;;
     uexit 0
   else when (pid <? 0) (oops s (str "fork failed"))) ;;;
  let! '(_, xstatus) := wait in
  when (xstatus =? 0) (uexit 1).
Definition nowrite s : UT unit := ueach (0 :: bad_addrs) (nowrite_one s) ;;; uexit 0.

Definition big : Z := 0xeaeb0b5b00002f5e.
Definition pgbug s : UT unit :=
  exec_at (PAddr big) [] ;;;
  tcall_ret (TPipe big) ;;;
  uexit 0.

(** A child that changes its size, and the parent that waits for it. *)
Definition sbrkbugs_child (m : UT unit) : UT unit :=
  let! pid := fork in
  when (pid <? 0) (die (str "fork failed" ++ nl) []) ;;;
  when (pid =? 0) (m ;;; uexit 0) ;;;
  wait0 ;;;
  uret tt.
Definition sbrkbugs s : UT unit :=
  sbrkbugs_child (let! top := sbrk 0 in let sz := s32 top in sbrk (- sz) ;;; uret tt) ;;;
  sbrkbugs_child (let! top := sbrk 0 in let sz := s32 top in sbrk (- (sz - 3500)) ;;; uret tt) ;;;
  sbrkbugs_child (let! top := sbrk 0 in sbrk (s32 (10 * PGSIZE + 2048 - top)) ;;; sbrk (-10) ;;; uret tt) ;;;
  uexit 0.

Definition sbrklast s : UT unit :=
  let! top := sbrk 0 in
  when (negb (top mod PGSIZE =? 0)) (sbrk (PGSIZE - top mod PGSIZE) ;;; uret tt) ;;;
  sbrk PGSIZE ;;;
  sbrk 10 ;;;
  sbrk (-20) ;;;
  let! top := sbrk 0 in
  let p := top - 64 in
  store8 p 120 ;;;
  store8 (p + 1) 0 ;;;
  let! fd := tcall_ret (TOpen (PAddr p) (Z.lor O_RDWR O_CREATE)) in
  tcall_ret (TWrite fd p 1) ;;;
  close fd ;;;
  let! fd := tcall_ret (TOpen (PAddr p) O_RDWR) in
  store8 p 0 ;;;
  tcall_ret (TRead fd p 1) ;;;
  let! x := load8 p in
  when (negb (x =? 120)) (uexit 1).

Definition sbrk8000 s : UT unit :=
  sbrk (s32 0x80000004) ;;;
  let! top := sbrk 0 in
  let! x := load8 (top - 1) in
  store8 (top - 1) (x + 1).

Definition badarg s : UT unit :=
  upto 50000 (fun _ => exec_at (PStr (str "echo")) [PAddr 0xffffffff] ;;; uret tt) ;;;
  uexit 0.

(** ** Memory that is allocated when it is used *)

(** [for(i = prev_end + PGSIZE; i < prev_end + REGION_SZ; i += step)] *)
Definition each_page (prev_end step : Z) (f : Z -> UT unit) : UT unit :=
  upto ((REGION_SZ - PGSIZE + step - 1) / step) (fun k => f (prev_end + PGSIZE + k * step)).

Definition lazy_alloc s : UT unit :=
  let! prev_end := sbrklazy REGION_SZ in
  when (prev_end =? SBRK_ERROR) (die (str "sbrklazy() failed" ++ nl) []) ;;;
  each_page prev_end (64 * PGSIZE) (fun i => store64 i i) ;;;
  each_page prev_end (64 * PGSIZE) (fun i =>
    let! x := load64 i in
    when (negb (x =? i)) (die (str "failed to read value from memory" ++ nl) [])) ;;;
  uexit 0.

Definition lazy_unmap_one (i : Z) : UT unit :=
  let! pid := fork in
  if pid <? 0 then die (str "error forking" ++ nl) []
  else if pid =? 0 then
    sbrklazy (s32 (- REGION_SZ)) ;;;
    store64 i i ;;;
    uexit 0
  else
    let! '(_, status) := wait in
    when (status =? 0) (die (str "memory not unmapped" ++ nl) []).
Definition lazy_unmap s : UT unit :=
  let! prev_end := sbrklazy REGION_SZ in
  when (prev_end =? SBRK_ERROR) (die (str "sbrklazy() failed" ++ nl) []) ;;;
  each_page prev_end (PGSIZE * PGSIZE) (fun i => store64 i i) ;;;
  each_page prev_end (PGSIZE * PGSIZE) lazy_unmap_one ;;;
  uexit 0.

Definition lazy_copy_bad (bad : Z) : UT unit :=
  let! fd := open (str "README") 0 in
  when (fd <? 0) (die (str "cannot open README" ++ nl) []) ;;;
  let! r := tcall_ret (TRead fd bad 512) in
  when (0 <=? r) (die (str "read succeeded" ++ nl) []) ;;;
  close fd ;;;
  let! fd := open (str "junk") (Z.lor (Z.lor O_CREATE O_RDWR) O_TRUNC) in
  when (fd <? 0) (die (str "cannot open junk" ++ nl) []) ;;;
  let! r := tcall_ret (TWrite fd bad 512) in
  when (0 <=? r) (die (str "write succeeded" ++ nl) []) ;;;
  close fd ;;;
  uret tt.
Definition lazy_copy s : UT unit :=
  let! p := sbrk 0 in
  sbrklazy (4 * PGSIZE) ;;;
  tcall_ret (TOpen (PAddr (p + 8192)) 0) ;;;
  let! xx := sbrk 0 in
  let! ret := sbrk (s32 (- (xx + 1))) in
  when (negb (ret =? xx)) (die (str "sbrk(sbrk(0)+1) returned %p, not old sz" ++ nl) [VInt ret]) ;;;
  ueach [0x3fffffc000; 0x3fffffd000; 0x3fffffe000; 0x3ffffff000; 0x4000000000; 0x8000000000] lazy_copy_bad ;;;
  uexit 0.

(** Steps of 1 GB towards [MAXVA]; a pointer is never less than 0. *)
Fixpoint lazy_sbrk_grow (fuel : nat) (p : Z) : UT Z :=
  match fuel with
  | O => ufuel
  | S k =>
      if p <? MAXVA - 2 ^ 30 then
        sbrklazy (2 ^ 30) ;;;
        let! p := sbrklazy 0 in
        lazy_sbrk_grow k p
      else uret p
  end.
Definition lazy_sbrk (fuel : nat) s : UT unit :=
  let! p := sbrk 0 in
  let! p := lazy_sbrk_grow fuel p in
  let n := s32 (TRAPFRAME - PGSIZE - p) in
  let! p1 := sbrklazy n in
  when (negb (p1 =? p)) (die (str "sbrklazy(%d) returned %p, not expected %p" ++ nl) [VInt n; VInt p1; VInt p]) ;;;
  let! p := sbrk PGSIZE in
  when (negb (p =? TRAPFRAME - PGSIZE))
    (die (str "sbrk(%d) returned %p, not expected TRAPFRAME-PGSIZE" ++ nl) [VInt PGSIZE; VInt p]) ;;;
  store8 p 1 ;;;
  let! x := load8 (p + 1) in
  when (negb (x =? 0)) (die (str "sbrk() returned non-zero-filled memory" ++ nl) []) ;;;
  let! p := sbrk 1 in
  when (negb (p =? u64 (-1))) (die (str "sbrk(1) returned %p, expected error" ++ nl) [VInt p]) ;;;
  let! p := sbrklazy 1 in
  when (negb (p =? u64 (-1))) (die (str "sbrklazy(1) returned %p, expected error" ++ nl) [VInt p]) ;;;
  uexit 0.

(** ** Running out of memory *)

(** The child of [execout] takes all of memory. *)
Fixpoint take_all (fuel : nat) : UT unit :=
  match fuel with
  | O => ufuel
  | S k => let! a := sbrk PGSIZE in if a =? SBRK_ERROR then uret tt else store8 (a + PGSIZE - 1) 1 ;;; take_all k
  end.
Definition execout_one (fuel : nat) (avail : Z) : UT unit :=
  let! pid := fork in
  if pid <? 0 then die (str "fork failed" ++ nl) []
  else if pid =? 0 then
    take_all fuel ;;;
    upto avail (fun _ => sbrk (- PGSIZE) ;;; uret tt) ;;;
    close 1 ;;;
    exec (str "echo") [str "echo"; str "x"] ;;;
    uexit 0
  else wait0 ;;; uret tt.
Definition execout (fuel : nat) s : UT unit := upto 15 (execout_one fuel) ;;; uexit 0.

(** [countfree]: the pages that [sbrk] can get, given back afterwards. *)
Fixpoint countfree_loop (fuel : nat) (n : Z) : UT Z :=
  match fuel with
  | O => ufuel
  | S k => let! a := sbrk PGSIZE in if a =? SBRK_ERROR then uret n else countfree_loop k (s32 (n + 1))
  end.
Definition countfree (fuel : nat) : UT Z :=
  let! sz0 := sbrk 0 in
  let! n := countfree_loop fuel 0 in
  let! sz := sbrk 0 in
  sbrk (s32 (- (sz - sz0))) ;;;
  uret n.
End mem.
