(* ===== verification/TestFs.v ===== *)
(** * Tests of the file system ([user/usertests.c])

    The tests of files, directories, links and the disk.  [s] is the name of the test;
    the global [buf] starts with zeroes. *)
From S2P Require Import Prelude CString User Ulib TestLib.
Local Open Scope Z_scope.

Definition BSIZE : Z := 1024.
Definition MAXOPBLOCKS : Z := 10.
Definition MAXFILE : Z := 12 + 256.
Definition NINODE : Z := 50.
Definition BUFSZ : Z := (MAXOPBLOCKS + 2) * BSIZE.
Definition zeroes (n : Z) : list Z := replicate (Z.to_nat n) 0.

Section fs.
Context {W : Type} `{OS tcall W}.
Abbreviation UT := (U tcall W).
Implicit Types (s : list Z).

Definition CREATE_WR : Z := Z.lor O_CREATE O_WRONLY.
Definition CREATE_RW : Z := Z.lor O_CREATE O_RDWR.
Definition CREATE_TRUNC : Z := Z.lor (Z.lor O_CREATE O_WRONLY) O_TRUNC.

(** ** O_TRUNC *)
Definition read_wants s (n want : Z) : UT unit :=
  when (negb (n =? want)) (die (str "%s: read %d bytes, wanted " ++ [48 + want] ++ nl) [VStr (Some s); VInt n]).
Definition truncate1 s : UT unit :=
  unlink (str "truncfile") ;;;
  let! fd1 := open (str "truncfile") CREATE_TRUNC in
  write fd1 (str "abcd") ;;;
  close fd1 ;;;
  let! fd2 := open (str "truncfile") O_RDONLY in
  let! a := read fd2 32 in
  read_wants s (a_ret a) 4 ;;;
  let! fd1 := open (str "truncfile") (Z.lor O_WRONLY O_TRUNC) in
  let! fd3 := open (str "truncfile") O_RDONLY in
  let! a := read fd3 32 in
  when (negb (a_ret a =? 0)) (printf (str "aaa fd3=%d" ++ nl) [VInt fd3]) ;;;
  read_wants s (a_ret a) 0 ;;;
  let! a := read fd2 32 in
  when (negb (a_ret a =? 0)) (printf (str "bbb fd2=%d" ++ nl) [VInt fd2]) ;;;
  read_wants s (a_ret a) 0 ;;;
  write fd1 (str "abcdef") ;;;
  let! a := read fd3 32 in
  read_wants s (a_ret a) 6 ;;;
  let! a := read fd2 32 in
  read_wants s (a_ret a) 2 ;;;
  unlink (str "truncfile") ;;;
  close fd1 ;;;
  close fd2 ;;;
  close fd3 ;;;
  uret tt.

Definition truncate2 s : UT unit :=
  unlink (str "truncfile") ;;;
  let! fd1 := open (str "truncfile") CREATE_TRUNC in
  write fd1 (str "abcd") ;;;
  let! fd2 := open (str "truncfile") (Z.lor O_TRUNC O_WRONLY) in
  let! n := write fd1 (str "x") in
  when (negb (n =? -1)) (die (str "%s: write returned %d, expected -1" ++ nl) [VStr (Some s); VInt n]) ;;;
  unlink (str "truncfile") ;;;
  close fd1 ;;;
  close fd2 ;;;
  uret tt.

Definition truncate3_child s : UT unit :=
  upto 100 (fun _ =>
    let! fd := must succeeds (open (str "truncfile") O_WRONLY) s (str "open failed") in
    let! n := write fd (str "1234567890") in
    when (negb (n =? 10)) (die (str "%s: write got %d, expected 10" ++ nl) [VStr (Some s); VInt n]) ;;;
    close fd ;;;
    let! fd := open (str "truncfile") O_RDONLY in
    read fd 32 ;;;
    close fd ;;;
    uret tt) ;;;
  uexit 0.
Definition truncate3 s : UT unit :=
  let! fd := open (str "truncfile") CREATE_TRUNC in
  close fd ;;;
  let! pid := fork_or_die s in
  when (pid =? 0) (truncate3_child s) ;;;
  upto 150 (fun _ =>
    let! fd := must succeeds (open (str "truncfile") CREATE_TRUNC) s (str "open failed") in
    let! n := write fd (str "xxx") in
    when (negb (n =? 3)) (die (str "%s: write got %d, expected 3" ++ nl) [VStr (Some s); VInt n]) ;;;
    close fd ;;;
    uret tt) ;;;
  let! '(_, xstatus) := wait in
  unlink (str "truncfile") ;;;
  uexit xstatus.

(** ** References to inodes *)
Definition iputtest s : UT unit :=
  must succeeds (mkdir (str "iputdir")) s (str "mkdir failed") ;;;
  must succeeds (chdir (str "iputdir")) s (str "chdir iputdir failed") ;;;
  must succeeds (unlink (str "../iputdir")) s (str "unlink ../iputdir failed") ;;;
  must succeeds (chdir (str "/")) s (str "chdir / failed") ;;;
  uret tt.

Definition exitiputtest_child s : UT unit :=
  must succeeds (mkdir (str "iputdir")) s (str "mkdir failed") ;;;
  must succeeds (chdir (str "iputdir")) s (str "child chdir failed") ;;;
  must succeeds (unlink (str "../iputdir")) s (str "unlink ../iputdir failed") ;;;
  uexit 0.
Definition exitiputtest s : UT unit :=
  let! pid := fork_or_die s in
  when (pid =? 0) (exitiputtest_child s) ;;;
  let! '(_, xstatus) := wait in
  uexit xstatus.

Definition openiputtest s : UT unit :=
  must succeeds (mkdir (str "oidir")) s (str "mkdir oidir failed") ;;;
  let! pid := fork_or_die s in
  when (pid =? 0)
    (must fails (open (str "oidir") O_RDWR) s (str "open directory for write succeeded") ;;;
     uexit 0) ;;;
  pause 1 ;;;
  must (equals 0) (unlink (str "oidir")) s (str "unlink failed") ;;;
  let! '(_, xstatus) := wait in
  uexit xstatus.

Definition iref_one s : UT unit :=
  must (equals 0) (mkdir (str "irefd")) s (str "mkdir irefd failed") ;;;
  must (equals 0) (chdir (str "irefd")) s (str "chdir irefd failed") ;;;
  mkdir [] ;;;
  link (str "README") [] ;;;
  let! fd := open [] O_CREATE in
  when (0 <=? fd) (close fd ;;; uret tt) ;;;
  let! fd := open (str "xx") O_CREATE in
  when (0 <=? fd) (close fd ;;; uret tt) ;;;
  unlink (str "xx") ;;;
  uret tt.
Definition iref s : UT unit :=
  upto (NINODE + 1) (fun _ => iref_one s) ;;;
  upto (NINODE + 1) (fun _ => chdir (str "..") ;;; unlink (str "irefd") ;;; uret tt) ;;;
  chdir (str "/") ;;;
  uret tt.

(** ** Files *)
Definition opentest s : UT unit :=
  let! fd := must succeeds (open (str "echo") 0) s (str "open echo failed!") in
  close fd ;;;
  must fails (open (str "doesnotexist") 0) s (str "open doesnotexist succeeded!") ;;;
  uret tt.

Definition writetest s : UT unit :=
  let! fd := must succeeds (open (str "small") CREATE_RW) s (str "error: creat small failed!") in
  upto 100 (fun i =>
    let! n := write fd (replicate 10 97) in
    when (negb (n =? 10)) (die (str "%s: error: write aa %d new file failed" ++ nl) [VStr (Some s); VInt i]) ;;;
    let! n := write fd (replicate 10 98) in
    when (negb (n =? 10)) (die (str "%s: error: write bb %d new file failed" ++ nl) [VStr (Some s); VInt i])) ;;;
  close fd ;;;
  let! fd := must succeeds (open (str "small") O_RDONLY) s (str "error: open small failed!") in
  let! a := read fd (100 * 10 * 2) in
  when (negb (a_ret a =? 100 * 10 * 2)) (oops s (str "read failed")) ;;;
  close fd ;;;
  must succeeds (unlink (str "small")) s (str "unlink small failed") ;;;
  uret tt.

(** The reads of [writebig], of which [n] were done. *)
Fixpoint writebig_reads (fuel : nat) s (fd n : Z) (buf : list Z) : UT unit :=
  match fuel with
  | O => ufuel
  | S k =>
      let! a := read fd BSIZE in
      let buf := fill buf a in
      if a_ret a =? 0 then
        when (negb (n =? MAXFILE)) (die (str "%s: read only %d blocks from big") [VStr (Some s); VInt n])
      else if negb (a_ret a =? BSIZE) then die (str "%s: read failed %d" ++ nl) [VStr (Some s); VInt (a_ret a)]
      else
        let x := s32 (of_le (take 4 buf)) in
        when (negb (x =? n)) (die (str "%s: read content of block %d is %d" ++ nl) [VStr (Some s); VInt n; VInt x]) ;;;
        writebig_reads k s fd (n + 1) buf
  end.
Definition writebig (fuel : nat) s : UT unit :=
  let! fd := must succeeds (open (str "big") CREATE_RW) s (str "error: creat big failed!") in
  upto MAXFILE (fun i =>
    let! n := write fd (le 4 i ++ zeroes (BSIZE - 4)) in
    when (negb (n =? BSIZE)) (die (str "%s: error: write big file failed i=%d" ++ nl) [VStr (Some s); VInt i])) ;;;
  close fd ;;;
  let! fd := must succeeds (open (str "big") O_RDONLY) s (str "error: open big failed!") in
  writebig_reads fuel s fd 0 (le 4 (MAXFILE - 1) ++ zeroes (BUFSZ - 4)) ;;;
  close fd ;;;
  must succeeds (unlink (str "big")) s (str "unlink big failed") ;;;
  uret tt.

Definition createtest s : UT unit :=
  upto 52 (fun i => let! fd := open [97; u8 (48 + i)] CREATE_RW in close fd ;;; uret tt) ;;;
  upto 52 (fun i => unlink [97; u8 (48 + i)] ;;; uret tt).

Definition dirtest s : UT unit :=
  must succeeds (mkdir (str "dir0")) s (str "mkdir failed") ;;;
  must succeeds (chdir (str "dir0")) s (str "chdir dir0 failed") ;;;
  must succeeds (chdir (str "..")) s (str "chdir .. failed") ;;;
  must succeeds (unlink (str "dir0")) s (str "unlink dir0 failed") ;;;
  uret tt.

(** The characters [c] and [p] of a file, ten at a time; a short read leaves the rest
    of the buffer. *)
Fixpoint sharedfd_count (fuel : nat) (fd : Z) (buf : list Z) (nc np : Z) : UT (Z * Z) :=
  match fuel with
  | O => ufuel
  | S k =>
      let! a := read fd 10 in
      let buf := fill buf a in
      if 0 <? a_ret a then
        let occ c := Z.of_nat (length (filter (fun x => x = c) (take 10 buf))) in
        sharedfd_count k fd buf (s32 (nc + occ 99)) (s32 (np + occ 112))
      else uret (nc, np)
  end.
Definition sharedfd (fuel : nat) s : UT unit :=
  unlink (str "sharedfd") ;;;
  let! fd := open (str "sharedfd") CREATE_RW in
  when (fd <? 0) (die (str "%s: cannot open sharedfd for writing") [VStr (Some s)]) ;;;
  let! pid := fork in
  let buf := replicate 10 (if pid =? 0 then 99 else 112) in
  upto 1000 (fun _ =>
    let! n := write fd buf in
    when (negb (n =? 10)) (oops s (str "write sharedfd failed"))) ;;;
  (if pid =? 0 then uexit 0 else
   let! '(_, xstatus) := wait in when (negb (xstatus =? 0)) (uexit xstatus)) ;;;
  close fd ;;;
  let! fd := must succeeds (open (str "sharedfd") 0) s (str "cannot open sharedfd for reading") in
  let! '(nc, np) := sharedfd_count fuel fd buf 0 0 in
  close fd ;;;
  unlink (str "sharedfd") ;;;
  if (nc =? 1000 * 10) && (np =? 1000 * 10) then uexit 0 else oops s (str "nc/np test fails").

Definition fourfiles_child s (fname : list Z) (pi : Z) : UT unit :=
  let! fd := must succeeds (open fname CREATE_RW) s (str "create failed") in
  upto 12 (fun _ =>
    let! n := write fd (replicate 500 (u8 (48 + pi))) in
    when (negb (n =? 500)) (die (str "write failed %d" ++ nl) [VInt n])) ;;;
  uexit 0.
Fixpoint fourfiles_read (fuel : nat) s (fd c total : Z) : UT Z :=
  match fuel with
  | O => ufuel
  | S k =>
      let! a := read fd BUFSZ in
      if 0 <? a_ret a then
        ueach (take (Z.to_nat (a_ret a)) (a_data a)) (fun x => when (negb (x =? c)) (oops s (str "wrong char"))) ;;;
        fourfiles_read k s fd c (s32 (total + a_ret a))
      else uret total
  end.
Definition fourfiles (fuel : nat) s : UT unit :=
  upto 4 (fun pi =>
    let fname := [102; 48 + pi] in
    unlink fname ;;;
    let! pid := fork_or_die s in
    when (pid =? 0) (fourfiles_child s fname pi)) ;;;
  upto 4 (fun _ => let! '(_, xstatus) := wait in when (negb (xstatus =? 0)) (uexit xstatus)) ;;;
  upto 4 (fun i =>
    let fname := [102; 48 + i] in
    let! fd := open fname 0 in
    let! total := fourfiles_read fuel s fd (48 + i) 0 in
    close fd ;;;
    when (negb (total =? 12 * 500)) (die (str "wrong length %d" ++ nl) [VInt total]) ;;;
    unlink fname ;;;
    uret tt).

Definition createdelete_child s (pi : Z) : UT unit :=
  upto 20 (fun i =>
    let! fd := must succeeds (open [112 + pi; 48 + i] CREATE_RW) s (str "create failed") in
    close fd ;;;
    when ((0 <? i) && (i mod 2 =? 0))
      (must succeeds (unlink [112 + pi; 48 + i / 2]) s (str "unlink failed") ;;; uret tt)) ;;;
  uexit 0.
Definition createdelete_check s (i pi : Z) : UT unit :=
  let name := [112 + pi; 48 + i] in
  let! fd := open name 0 in
  (if ((i =? 0) || (20 / 2 <=? i)) && (fd <? 0) then
     die (str "%s: oops createdelete %s didn't exist" ++ nl) [VStr (Some s); VStr (Some name)]
   else when ((1 <=? i) && (i <? 20 / 2) && (0 <=? fd))
     (die (str "%s: oops createdelete %s did exist" ++ nl) [VStr (Some s); VStr (Some name)])) ;;;
  when (0 <=? fd) (close fd ;;; uret tt).
Definition createdelete s : UT unit :=
  upto 4 (fun pi => let! pid := fork_or_die s in when (pid =? 0) (createdelete_child s pi)) ;;;
  upto 4 (fun _ => let! '(_, xstatus) := wait in when (negb (xstatus =? 0)) (uexit 1)) ;;;
  upto 20 (fun i => upto 4 (fun pi => createdelete_check s i pi)) ;;;
  upto 20 (fun i => upto 4 (fun pi => unlink [112 + pi; 48 + i] ;;; uret tt)).

(** ** Links *)
Definition unlinkread s : UT unit :=
  let! fd := must succeeds (open (str "unlinkread") CREATE_RW) s (str "create unlinkread failed") in
  write fd (str "hello") ;;;
  close fd ;;;
  let! fd := must succeeds (open (str "unlinkread") O_RDWR) s (str "open unlinkread failed") in
  must (equals 0) (unlink (str "unlinkread")) s (str "unlink unlinkread failed") ;;;
  let! fd1 := open (str "unlinkread") CREATE_RW in
  write fd1 (str "yyy") ;;;
  close fd1 ;;;
  let! a := read fd BUFSZ in
  let buf := fill (zeroes BUFSZ) a in
  when (negb (a_ret a =? 5)) (die (str "%s: unlinkread read failed") [VStr (Some s)]) ;;;
  when (negb (nth 0 buf 0 =? 104)) (oops s (str "unlinkread wrong data")) ;;;
  let! n := write fd (take 10 buf) in
  when (negb (n =? 10)) (oops s (str "unlinkread write failed")) ;;;
  close fd ;;;
  unlink (str "unlinkread") ;;;
  uret tt.

Definition linktest s : UT unit :=
  unlink (str "lf1") ;;;
  unlink (str "lf2") ;;;
  let! fd := must succeeds (open (str "lf1") CREATE_RW) s (str "create lf1 failed") in
  must (equals 5) (write fd (str "hello")) s (str "write lf1 failed") ;;;
  close fd ;;;
  must succeeds (link (str "lf1") (str "lf2")) s (str "link lf1 lf2 failed") ;;;
  unlink (str "lf1") ;;;
  must fails (open (str "lf1") 0) s (str "unlinked lf1 but it is still there!") ;;;
  let! fd := must succeeds (open (str "lf2") 0) s (str "open lf2 failed") in
  let! a := read fd BUFSZ in
  when (negb (a_ret a =? 5)) (oops s (str "read lf2 failed")) ;;;
  close fd ;;;
  must fails (link (str "lf2") (str "lf2")) s (str "link lf2 lf2 succeeded! oops") ;;;
  unlink (str "lf2") ;;;
  must fails (link (str "lf2") (str "lf1")) s (str "link non-existent succeeded! oops") ;;;
  must fails (link (str ".") (str "lf1")) s (str "link . lf1 succeeded! oops") ;;;
  uret tt.

Definition concreate_make (i : Z) : UT unit :=
  let file := [67; 48 + i] in
  unlink file ;;;
  let! pid := fork in
  (if istrue pid && (i mod 3 =? 1) then link (str "C0") file ;;; uret tt
   else if (pid =? 0) && (i mod 5 =? 1) then link (str "C0") file ;;; uret tt
   else
     let! fd := open file CREATE_RW in
     when (fd <? 0) (die (str "concreate create %s failed" ++ nl) [VStr (Some file)]) ;;;
     close fd ;;;
     uret tt) ;;;
  if pid =? 0 then uexit 0 else
  let! '(_, xstatus) := wait in when (negb (xstatus =? 0)) (uexit 1).
(** The directory, entry by entry: [fa] marks the files that were seen. *)
Fixpoint concreate_list (fuel : nat) s (fd : Z) (de fa : list Z) (n : Z) : UT Z :=
  match fuel with
  | O => ufuel
  | S k =>
      let! a := read fd 16 in
      let de := fill de a in
      if 0 <? a_ret a then
        if of_le (take 2 de) =? 0 then concreate_list k s fd de fa n
        else if (nth 2 de 0 =? 67) && (nth 4 de 0 =? 0) then
          let i := nth 3 de 0 - 48 in
          let name := cstr (drop 2 de) in
          when ((i <? 0) || (40 <=? i)) (die (str "%s: concreate weird file %s" ++ nl) [VStr (Some s); VStr (Some name)]) ;;;
          when (istrue (nth (Z.to_nat i) fa 0)) (die (str "%s: concreate duplicate file %s" ++ nl) [VStr (Some s); VStr (Some name)]) ;;;
          concreate_list k s fd de (<[Z.to_nat i := 1]> fa) (n + 1)
        else concreate_list k s fd de fa n
      else uret n
  end.
Definition concreate_remove s (i : Z) : UT unit :=
  let file := [67; 48 + i] in
  let! pid := fork_or_die s in
  (if ((i mod 3 =? 0) && (pid =? 0)) || ((i mod 3 =? 1) && negb (pid =? 0)) then
     upto 6 (fun _ => let! fd := open file 0 in close fd ;;; uret tt)
   else upto 6 (fun _ => unlink file ;;; uret tt)) ;;;
  if pid =? 0 then uexit 0 else wait0 ;;; uret tt.
Definition concreate (fuel : nat) s : UT unit :=
  upto 40 concreate_make ;;;
  let! fd := open (str ".") 0 in
  let! n := concreate_list fuel s fd (zeroes 16) (zeroes 40) 0 in
  close fd ;;;
  when (negb (n =? 40)) (oops s (str "concreate not enough files in directory listing")) ;;;
  upto 40 (concreate_remove s).

Fixpoint linkunlink_loop (k : nat) (x : Z) : UT unit :=
  match k with
  | O => uret tt
  | S k' =>
      let x := u32 (x * 1103515245 + 12345) in
      (if x mod 3 =? 0 then let! fd := open (str "x") (Z.lor O_RDWR O_CREATE) in close fd ;;; uret tt
       else if x mod 3 =? 1 then link (str "cat") (str "x") ;;; uret tt
       else unlink (str "x") ;;; uret tt) ;;;
      linkunlink_loop k' x
  end.
Definition linkunlink s : UT unit :=
  unlink (str "x") ;;;
  let! pid := fork_or_die s in
  linkunlink_loop 100 (if istrue pid then 1 else 97) ;;;
  if istrue pid then wait0 ;;; uret tt else uexit 0.

(** ** Directories *)

(** [subdir]: the tree is made ... *)
Definition subdir_make s : UT unit :=
  unlink (str "ff") ;;;
  must (equals 0) (mkdir (str "dd")) s (str "mkdir dd failed") ;;;
  let! fd := must succeeds (open (str "dd/ff") CREATE_RW) s (str "create dd/ff failed") in
  write fd (str "ff") ;;;
  close fd ;;;
  must fails (unlink (str "dd")) s (str "unlink dd (non-empty dir) succeeded!") ;;;
  must (equals 0) (mkdir (str "/dd/dd")) s (str "subdir mkdir dd/dd failed") ;;;
  let! fd := must succeeds (open (str "dd/dd/ff") CREATE_RW) s (str "create dd/dd/ff failed") in
  write fd (str "FF") ;;;
  close fd ;;;
  let! fd := must succeeds (open (str "dd/dd/../ff") 0) s (str "open dd/dd/../ff failed") in
  let! a := read fd BUFSZ in
  let buf := fill (zeroes BUFSZ) a in
  when (negb (a_ret a =? 2) || negb (nth 0 buf 0 =? 102)) (oops s (str "dd/dd/../ff wrong content")) ;;;
  close fd ;;;
  uret tt.
(** ... a file in it is linked and renamed, and the directories walked ... *)
Definition subdir_walk s : UT unit :=
  must (equals 0) (link (str "dd/dd/ff") (str "dd/dd/ffff")) s (str "link dd/dd/ff dd/dd/ffff failed") ;;;
  must (equals 0) (unlink (str "dd/dd/ff")) s (str "unlink dd/dd/ff failed") ;;;
  must fails (open (str "dd/dd/ff") O_RDONLY) s (str "open (unlinked) dd/dd/ff succeeded") ;;;
  must (equals 0) (chdir (str "dd")) s (str "chdir dd failed") ;;;
  must (equals 0) (chdir (str "dd/../../dd")) s (str "chdir dd/../../dd failed") ;;;
  must (equals 0) (chdir (str "dd/../../../dd")) s (str "chdir dd/../../../dd failed") ;;;
  must (equals 0) (chdir (str "./..")) s (str "chdir ./.. failed") ;;;
  let! fd := must succeeds (open (str "dd/dd/ffff") 0) s (str "open dd/dd/ffff failed") in
  let! a := read fd BUFSZ in
  when (negb (a_ret a =? 2)) (oops s (str "read dd/dd/ffff wrong len")) ;;;
  close fd ;;;
  uret tt.
(** ... calls that have to fail ... *)
Definition subdir_wrong s : UT unit :=
  must fails (open (str "dd/dd/ff") O_RDONLY) s (str "open (unlinked) dd/dd/ff succeeded!") ;;;
  must fails (open (str "dd/ff/ff") CREATE_RW) s (str "create dd/ff/ff succeeded!") ;;;
  must fails (open (str "dd/xx/ff") CREATE_RW) s (str "create dd/xx/ff succeeded!") ;;;
  must fails (open (str "dd") O_CREATE) s (str "create dd succeeded!") ;;;
  must fails (open (str "dd") O_RDWR) s (str "open dd rdwr succeeded!") ;;;
  must fails (open (str "dd") O_WRONLY) s (str "open dd wronly succeeded!") ;;;
  must (differs 0) (link (str "dd/ff/ff") (str "dd/dd/xx")) s (str "link dd/ff/ff dd/dd/xx succeeded!") ;;;
  must (differs 0) (link (str "dd/xx/ff") (str "dd/dd/xx")) s (str "link dd/xx/ff dd/dd/xx succeeded!") ;;;
  must (differs 0) (link (str "dd/ff") (str "dd/dd/ffff")) s (str "link dd/ff dd/dd/ffff succeeded!") ;;;
  must (differs 0) (mkdir (str "dd/ff/ff")) s (str "mkdir dd/ff/ff succeeded!") ;;;
  must (differs 0) (mkdir (str "dd/xx/ff")) s (str "mkdir dd/xx/ff succeeded!") ;;;
  must (differs 0) (mkdir (str "dd/dd/ffff")) s (str "mkdir dd/dd/ffff succeeded!") ;;;
  must (differs 0) (unlink (str "dd/xx/ff")) s (str "unlink dd/xx/ff succeeded!") ;;;
  must (differs 0) (unlink (str "dd/ff/ff")) s (str "unlink dd/ff/ff succeeded!") ;;;
  must (differs 0) (chdir (str "dd/ff")) s (str "chdir dd/ff succeeded!") ;;;
  must (differs 0) (chdir (str "dd/xx")) s (str "chdir dd/xx succeeded!") ;;;
  uret tt.
(** ... and the tree is removed. *)
Definition subdir s : UT unit :=
  subdir_make s ;;;
  subdir_walk s ;;;
  subdir_wrong s ;;;
  must (equals 0) (unlink (str "dd/dd/ffff")) s (str "unlink dd/dd/ff failed") ;;;
  must (equals 0) (unlink (str "dd/ff")) s (str "unlink dd/ff failed") ;;;
  must (differs 0) (unlink (str "dd")) s (str "unlink non-empty dd succeeded!") ;;;
  must succeeds (unlink (str "dd/dd")) s (str "unlink dd/dd failed") ;;;
  must succeeds (unlink (str "dd")) s (str "unlink dd failed") ;;;
  uret tt.

Definition fourteen s : UT unit :=
  must (equals 0) (mkdir (str "12345678901234")) s (str "mkdir 12345678901234 failed") ;;;
  must (equals 0) (mkdir (str "12345678901234/123456789012345")) s (str "mkdir 12345678901234/123456789012345 failed") ;;;
  let! fd := must succeeds (open (str "123456789012345/123456789012345/123456789012345") O_CREATE) s
    (str "create 123456789012345/123456789012345/123456789012345 failed") in
  close fd ;;;
  let! fd := must succeeds (open (str "12345678901234/12345678901234/12345678901234") 0) s
    (str "open 12345678901234/12345678901234/12345678901234 failed") in
  close fd ;;;
  must (differs 0) (mkdir (str "12345678901234/12345678901234")) s (str "mkdir 12345678901234/12345678901234 succeeded!") ;;;
  must (differs 0) (mkdir (str "123456789012345/12345678901234")) s (str "mkdir 12345678901234/123456789012345 succeeded!") ;;;
  unlink (str "123456789012345/12345678901234") ;;;
  unlink (str "12345678901234/12345678901234") ;;;
  unlink (str "12345678901234/12345678901234/12345678901234") ;;;
  unlink (str "123456789012345/123456789012345/123456789012345") ;;;
  unlink (str "12345678901234/123456789012345") ;;;
  unlink (str "12345678901234") ;;;
  uret tt.

Definition rmdot s : UT unit :=
  must (equals 0) (mkdir (str "dots")) s (str "mkdir dots failed") ;;;
  must (equals 0) (chdir (str "dots")) s (str "chdir dots failed") ;;;
  must (differs 0) (unlink (str ".")) s (str "rm . worked!") ;;;
  must (differs 0) (unlink (str "..")) s (str "rm .. worked!") ;;;
  must (equals 0) (chdir (str "/")) s (str "chdir / failed") ;;;
  must (differs 0) (unlink (str "dots/.")) s (str "unlink dots/. worked!") ;;;
  must (differs 0) (unlink (str "dots/..")) s (str "unlink dots/.. worked!") ;;;
  must (equals 0) (unlink (str "dots")) s (str "unlink dots failed!") ;;;
  uret tt.

Definition dirfile s : UT unit :=
  let! fd := must succeeds (open (str "dirfile") O_CREATE) s (str "create dirfile failed") in
  close fd ;;;
  must (differs 0) (chdir (str "dirfile")) s (str "chdir dirfile succeeded!") ;;;
  must fails (open (str "dirfile/xx") 0) s (str "create dirfile/xx succeeded!") ;;;
  must fails (open (str "dirfile/xx") O_CREATE) s (str "create dirfile/xx succeeded!") ;;;
  must (differs 0) (mkdir (str "dirfile/xx")) s (str "mkdir dirfile/xx succeeded!") ;;;
  must (differs 0) (unlink (str "dirfile/xx")) s (str "unlink dirfile/xx succeeded!") ;;;
  must (differs 0) (link (str "README") (str "dirfile/xx")) s (str "link to dirfile/xx succeeded!") ;;;
  must (equals 0) (unlink (str "dirfile")) s (str "unlink dirfile failed!") ;;;
  must fails (open (str ".") O_RDWR) s (str "open . for writing succeeded!") ;;;
  let! fd := open (str ".") 0 in
  let! n := write fd (str "x") in
  when (0 <? n) (oops s (str "write . succeeded!")) ;;;
  close fd ;;;
  uret tt.

(** [link("bd", name)] for five hundred names. *)
Definition bigdir_name (i : Z) : list Z := [120; 48 + i / 64; 48 + i mod 64].
Definition bigdir s : UT unit :=
  unlink (str "bd") ;;;
  let! fd := must succeeds (open (str "bd") O_CREATE) s (str "bigdir create failed") in
  close fd ;;;
  upto 500 (fun i =>
    let! r := link (str "bd") (bigdir_name i) in
    when (negb (r =? 0))
      (die (str "%s: bigdir i=%d link(bd, %s) failed" ++ nl) [VStr (Some s); VInt i; VStr (Some (bigdir_name i))])) ;;;
  unlink (str "bd") ;;;
  upto 500 (fun i =>
    let! r := unlink (bigdir_name i) in
    when (negb (r =? 0)) (die (str "%s: bigdir unlink failed") [VStr (Some s)])).

(** ** Large files and full disks *)

(** [for(sz = 499; sz < BUFSZ; sz += 471)] *)
Definition bigwrite s : UT unit :=
  unlink (str "bigwrite") ;;;
  upto ((BUFSZ - 499 + 470) / 471) (fun k =>
    let sz := 499 + 471 * k in
    let! fd := must succeeds (open (str "bigwrite") CREATE_RW) s (str "cannot create bigwrite") in
    upto 2 (fun _ =>
      let! cc := write fd (zeroes sz) in
      when (negb (cc =? sz)) (die (str "%s: write(%d) ret %d" ++ nl) [VStr (Some s); VInt sz; VInt cc])) ;;;
    close fd ;;;
    unlink (str "bigwrite") ;;;
    uret tt).

(** The reads of [bigfile] from the [i]th on: the total. *)
Fixpoint bigfile_reads (fuel : nat) s (fd i total : Z) (buf : list Z) : UT Z :=
  match fuel with
  | O => ufuel
  | S k =>
      let! a := read fd 300 in
      let buf := fill buf a in
      when (a_ret a <? 0) (oops s (str "read bigfile failed")) ;;;
      if a_ret a =? 0 then uret total else
      when (negb (a_ret a =? 300)) (oops s (str "short read bigfile")) ;;;
      when (negb (nth 0 buf 0 =? i / 2) || negb (nth 299 buf 0 =? i / 2)) (oops s (str "read bigfile wrong data")) ;;;
      bigfile_reads k s fd (i + 1) (total + a_ret a) buf
  end.
Definition bigfile (fuel : nat) s : UT unit :=
  unlink (str "bigfile.dat") ;;;
  let! fd := open (str "bigfile.dat") CREATE_RW in
  when (fd <? 0) (die (str "%s: cannot create bigfile") [VStr (Some s)]) ;;;
  upto 20 (fun i => must (equals 600) (write fd (replicate 600 (u8 i))) s (str "write bigfile failed") ;;; uret tt) ;;;
  close fd ;;;
  let! fd := must succeeds (open (str "bigfile.dat") 0) s (str "cannot open bigfile") in
  let! total := bigfile_reads fuel s fd 0 0 (replicate 600 19 ++ zeroes (BUFSZ - 600)) in
  close fd ;;;
  when (negb (total =? 20 * 600)) (oops s (str "read bigfile wrong total")) ;;;
  unlink (str "bigfile.dat") ;;;
  uret tt.

Definition fsfull_name (n : Z) : list Z :=
  [102; u8 (48 + n / 1000); 48 + n mod 1000 / 100; 48 + n mod 100 / 10; 48 + n mod 10].
(** [while(1)] writes of a block: the bytes written. *)
Fixpoint fsfull_fill (fuel : nat) (fd total : Z) : UT Z :=
  match fuel with
  | O => ufuel
  | S k => let! cc := write fd (zeroes BSIZE) in if cc <? BSIZE then uret total else fsfull_fill k fd (s32 (total + cc))
  end.
(** Files until one cannot be made or gets no block: the number of the last one. *)
Fixpoint fsfull_files (fuel : nat) (nfiles : Z) : UT Z :=
  match fuel with
  | O => ufuel
  | S k =>
      let name := fsfull_name nfiles in
      printf (str "writing %s" ++ nl) [VStr (Some name)] ;;;
      let! fd := open name CREATE_RW in
      if fd <? 0 then printf (str "open %s failed" ++ nl) [VStr (Some name)] ;;; uret nfiles else
      let! total := fsfull_fill fuel fd 0 in
      printf (str "wrote %d bytes" ++ nl) [VInt total] ;;;
      close fd ;;;
      if total =? 0 then uret nfiles else fsfull_files k (nfiles + 1)
  end.
Definition fsfull (fuel : nat) : UT unit :=
  printf (str "fsfull test" ++ nl) [] ;;;
  let! nfiles := fsfull_files fuel 0 in
  upto (nfiles + 1) (fun i => unlink (fsfull_name (nfiles - i)) ;;; uret tt) ;;;
  printf (str "fsfull test finished" ++ nl) [].

Definition manywrites_child s (ci : Z) : UT unit :=
  let name := [98; 97 + ci] in
  unlink name ;;;
  upto 30 (fun _ =>
    upto (ci + 1) (fun _ =>
      let! fd := open name CREATE_RW in
      when (fd <? 0) (die (str "%s: cannot create %s" ++ nl) [VStr (Some s); VStr (Some name)]) ;;;
      let! cc := write fd (zeroes BUFSZ) in
      when (negb (cc =? BUFSZ)) (die (str "%s: write(%d) ret %d" ++ nl) [VStr (Some s); VInt BUFSZ; VInt cc]) ;;;
      close fd ;;;
      uret tt) ;;;
    unlink name ;;;
    uret tt) ;;;
  unlink name ;;;
  uexit 0.
Definition manywrites s : UT unit :=
  upto 4 (fun ci =>
    let! pid := fork in
    when (pid <? 0) (die (str "fork failed" ++ nl) []) ;;;
    when (pid =? 0) (manywrites_child s ci)) ;;;
  upto 4 (fun _ => let! '(_, st) := wait in when (negb (st =? 0)) (uexit st)) ;;;
  uexit 0.

Definition badwrite s : UT unit :=
  unlink (str "junk") ;;;
  upto 600 (fun _ =>
    let! fd := open (str "junk") CREATE_WR in
    when (fd <? 0) (die (str "open junk failed" ++ nl) []) ;;;
    tcall_ret (TWrite fd 0xffffffffff 1) ;;;
    close fd ;;;
    unlink (str "junk") ;;;
    uret tt) ;;;
  let! fd := open (str "junk") CREATE_WR in
  when (fd <? 0) (die (str "open junk failed" ++ nl) []) ;;;
  let! n := write fd (str "x") in
  when (negb (n =? 1)) (die (str "write failed" ++ nl) []) ;;;
  close fd ;;;
  unlink (str "junk") ;;;
  uexit 0.

Definition CREATE_RW_TRUNC : Z := Z.lor (Z.lor O_CREATE O_RDWR) O_TRUNC.
Definition big_name (fi : Z) : list Z := [98; 105; 103; 48 + fi].
Definition zz_name (i : Z) : list Z := [122; 122; 48 + i / 32; 48 + i mod 32].
(** [MAXFILE] blocks: whether a write failed, the file then being closed; [junk] is the
    uninitialised local buffer. *)
Fixpoint diskfull_blocks (k : nat) (fd : Z) (junk : list Z) : UT bool :=
  match k with
  | O => uret false
  | S k' =>
      let! n := write fd junk in
      if negb (n =? BSIZE) then close fd ;;; uret true else diskfull_blocks k' fd junk
  end.
(** [for(fi = 0; done == 0 && '0' + fi < 0177; fi++)] *)
Fixpoint diskfull_files (k : nat) s (fi : Z) (junk : list Z) : UT unit :=
  match k with
  | O => uret tt
  | S k' =>
      let name := big_name fi in
      unlink name ;;;
      let! fd := open name CREATE_RW_TRUNC in
      if fd <? 0 then printf (str "%s: could not create file %s" ++ nl) [VStr (Some s); VStr (Some name)] else
      let! done := diskfull_blocks (Z.to_nat MAXFILE) fd junk in
      close fd ;;;
      if done then uret tt else diskfull_files k' s (fi + 1) junk
  end.
(** Empty files until one cannot be made. *)
Fixpoint zz_files (k : nat) (i : Z) : UT unit :=
  match k with
  | O => uret tt
  | S k' =>
      unlink (zz_name i) ;;;
      let! fd := open (zz_name i) CREATE_RW_TRUNC in
      if fd <? 0 then uret tt else close fd ;;; zz_files k' (i + 1)
  end.
Definition zz_unlink (n : Z) : UT unit := upto n (fun i => unlink (zz_name i) ;;; uret tt).
Definition diskfull (junk : list Z) s : UT unit :=
  unlink (str "diskfulldir") ;;;
  diskfull_files 79 s 0 junk ;;;
  zz_files 128 0 ;;;
  let! r := mkdir (str "diskfulldir") in
  when (r =? 0) (printf (str "%s: mkdir(diskfulldir) unexpectedly succeeded!" ++ nl) [VStr (Some s)]) ;;;
  unlink (str "diskfulldir") ;;;
  zz_unlink 128 ;;;
  upto 79 (fun i => unlink (big_name i) ;;; uret tt).
Definition outofinodes s : UT unit :=
  zz_files (32 * 32) 0 ;;;
  zz_unlink (32 * 32).
End fs.
