(* ===== verification/UserTests.v ===== *)
(** * Tests of processes and the test driver ([user/usertests.c])

    The tests of [fork], [exec], [wait], [kill] and pipes, and the program that runs
    the tests each in a process of its own and checks that no memory was lost.  The
    fuel bounds loops that end when the system says so. *)
From S2P Require Import Prelude CString User Ulib Umalloc TestLib TestMem TestFs.
Local Open Scope Z_scope.

Section tests.
Context {W : Type} `{OS tcall W}.
Abbreviation UT := (U tcall W).
Implicit Types (s : list Z).

(** ** Processes and pipes *)
Definition exectest_child s : UT unit :=
  close 1 ;;;
  let! fd := must succeeds (open (str "echo-ok") CREATE_WR) s (str "create failed") in
  when (negb (fd =? 1)) (oops s (str "wrong fd")) ;;;
  let! r := exec (str "echo") [str "echo"; str "OK"] in
  when (r <? 0) (oops s (str "exec echo failed")).
Definition exectest s : UT unit :=
  unlink (str "echo-ok") ;;;
  let! pid := fork_or_die s in
  when (pid =? 0) (exectest_child s) ;;;
  let! '(r, xstatus) := wait in
  when (negb (r =? pid)) (printf (str "%s: wait failed!" ++ nl) [VStr (Some s)]) ;;;
  when (negb (xstatus =? 0)) (uexit xstatus) ;;;
  let! fd := must succeeds (open (str "echo-ok") O_RDONLY) s (str "open failed") in
  let! a := read fd 2 in
  let buf := fill (zeroes 3) a in
  when (negb (a_ret a =? 2)) (oops s (str "read failed")) ;;;
  unlink (str "echo-ok") ;;;
  if (nth 0 buf 0 =? 79) && (nth 1 buf 0 =? 75) then uexit 0 else oops s (str "wrong output").

(** Five writes of 1033 bytes, the numbers from 0 on. *)
Definition pipe1_child s (fd0 fd1 : Z) : UT unit :=
  close fd0 ;;;
  upto 5 (fun n =>
    let! r := write fd1 ((fun i => u8 (1033 * n + Z.of_nat i)) <$> seq 0 1033) in
    when (negb (r =? 1033)) (oops s (str "pipe1 oops 1"))) ;;;
  uexit 0.
(** The bytes read are the next numbers. *)
Fixpoint in_sequence (l : list Z) (q : Z) : bool :=
  match l with
  | [] => true
  | x :: r => (Z.land x 255 =? Z.land q 255) && in_sequence r (q + 1)
  end.
(** The reads of the parent: the total, or nothing if a byte was wrong. *)
Fixpoint pipe1_reads (fuel : nat) s (fd0 q cc total : Z) : UT (option Z) :=
  match fuel with
  | O => ufuel
  | S k =>
      let! a := read fd0 cc in
      let n := a_ret a in
      if 0 <? n then
        if in_sequence (take (Z.to_nat n) (a_data a)) q then
          pipe1_reads k s fd0 (q + n) (if BUFSZ <? cc * 2 then BUFSZ else cc * 2) (total + n)
        else printf (str "%s: pipe1 oops 2" ++ nl) [VStr (Some s)] ;;; uret None
      else uret (Some total)
  end.
Definition pipe1 (fuel : nat) s : UT unit :=
  let! '(r, fd0, fd1) := pipe in
  when (negb (r =? 0)) (oops s (str "pipe() failed")) ;;;
  let! pid := fork in
  if pid =? 0 then pipe1_child s fd0 fd1
  else if 0 <? pid then
    close fd1 ;;;
    let! o := pipe1_reads fuel s fd0 0 1 0 in
    match o with
    | None => uret tt
    | Some total =>
        when (negb (total =? 5 * 1033)) (die (str "%s: pipe1 oops 3 total %d" ++ nl) [VStr (Some s); VInt total]) ;;;
        close fd0 ;;;
        let! '(_, xstatus) := wait in
        uexit xstatus
    end
  else oops s (str "fork() failed").

Definition killstatus (fuel : nat) s : UT unit :=
  upto 100 (fun _ =>
    let! pid1 := fork_or_die s in
    when (pid1 =? 0) (forever fuel (getpid ;;; uret tt)) ;;;
    pause 1 ;;;
    kill pid1 15 ;;;
    let! '(_, xst) := wait in
    when (negb (xst =? -1)) (oops s (str "status should be -1"))) ;;;
  uexit 0.

(** A child that spins. *)
Definition spinner (fuel : nat) s (msg : list Z) : UT Z :=
  let! pid := fork in
  when (pid <? 0) (die (str "%s: " ++ msg) [VStr (Some s)]) ;;;
  when (pid =? 0) (forever fuel (uret tt)) ;;;
  uret pid.
Definition preempt (fuel : nat) s : UT unit :=
  let! pid1 := spinner fuel s (str "fork failed") in
  let! pid2 := spinner fuel s (str "fork failed" ++ nl) in
  let! '(_, fd0, fd1) := pipe in
  let! pid3 := fork_or_die s in
  when (pid3 =? 0)
    (close fd0 ;;;
     let! r := write fd1 (str "x") in
     when (negb (r =? 1)) (printf (str "%s: preempt write error") [VStr (Some s)]) ;;;
     close fd1 ;;;
     forever fuel (uret tt)) ;;;
  close fd1 ;;;
  let! a := read fd0 BUFSZ in
  if negb (a_ret a =? 1) then printf (str "%s: preempt read error") [VStr (Some s)] else
  close fd0 ;;;
  printf (str "kill... ") [] ;;;
  kill pid1 15 ;;;
  kill pid2 15 ;;;
  kill pid3 15 ;;;
  printf (str "wait... ") [] ;;;
  wait0 ;;;
  wait0 ;;;
  wait0 ;;;
  uret tt.

Definition exitwait s : UT unit :=
  upto 100 (fun i =>
    let! pid := fork_or_die s in
    if istrue pid then
      let! '(r, xstate) := wait in
      when (negb (r =? pid)) (oops s (str "wait wrong pid")) ;;;
      when (negb (i =? xstate)) (oops s (str "wait wrong exit status"))
    else uexit i).

Definition reparent s : UT unit :=
  let! master_pid := getpid in
  upto 200 (fun _ =>
    let! pid := fork_or_die s in
    if istrue pid then
      must (equals pid) wait0 s (str "wait wrong pid") ;;; uret tt
    else
      let! pid2 := fork in
      when (pid2 <? 0) (kill master_pid 15 ;;; uexit 1) ;;;
      uexit 0) ;;;
  uexit 0.

Definition twochildren s : UT unit :=
  upto 1000 (fun _ =>
    let! pid1 := fork_or_die s in
    if pid1 =? 0 then uexit 0 else
    let! pid2 := fork_or_die s in
    if pid2 =? 0 then uexit 0 else
    wait0 ;;;
    wait0 ;;;
    uret tt).

Definition forkfork_child : UT unit :=
  upto 200 (fun _ =>
    let! pid1 := fork in
    when (pid1 <? 0) (uexit 1) ;;;
    when (pid1 =? 0) (uexit 0) ;;;
    wait0 ;;;
    uret tt) ;;;
  uexit 0.
Definition forkfork s : UT unit :=
  upto 2 (fun _ =>
    let! pid := fork in
    when (pid <? 0) (die (str "%s: fork failed") [VStr (Some s)]) ;;;
    when (pid =? 0) forkfork_child) ;;;
  upto 2 (fun _ =>
    let! '(_, xstatus) := wait in
    when (negb (xstatus =? 0)) (die (str "%s: fork in child failed") [VStr (Some s)])).

Definition forkforkfork (fuel : nat) s : UT unit :=
  unlink (str "stopforking") ;;;
  let! pid := fork in
  when (pid <? 0) (die (str "%s: fork failed") [VStr (Some s)]) ;;;
  when (pid =? 0) (forever fuel
    (let! fd := open (str "stopforking") 0 in
     when (0 <=? fd) (uexit 0) ;;;
     let! r := fork in
     when (r <? 0) (let! fd := open (str "stopforking") CREATE_RW in close fd ;;; uret tt))) ;;;
  pause 20 ;;;
  let! fd := open (str "stopforking") CREATE_RW in
  close fd ;;;
  wait0 ;;;
  pause 10 ;;;
  uret tt.

Definition reparent2 s : UT unit :=
  upto 800 (fun _ =>
    let! pid1 := fork in
    when (pid1 <? 0) (die (str "fork failed" ++ nl) []) ;;;
    when (pid1 =? 0) (fork ;;; fork ;;; uexit 0) ;;;
    wait0 ;;;
    uret tt) ;;;
  uexit 0.

(** [for(n=0; n<N; n++)]: how many forks succeeded; [k] is [N - n]. *)
Fixpoint fork_count (k : nat) (n : Z) : UT Z :=
  match k with
  | O => uret n
  | S k' =>
      let! pid := fork in
      if pid <? 0 then uret n else if pid =? 0 then uexit 0 else fork_count k' (n + 1)
  end.
Definition forktest s : UT unit :=
  let! n := fork_count 1000 0 in
  when (n =? 0) (oops s (str "no fork at all!")) ;;;
  when (n =? 1000) (oops s (str "fork claimed to work 1000 times!")) ;;;
  upto n (fun _ => must succeeds wait0 s (str "wait stopped early") ;;; uret tt) ;;;
  must (equals (-1)) wait0 s (str "wait got too many") ;;;
  uret tt.

(** ** The driver *)
Record test : Type := mktest { t_f : list Z -> UT unit; t_s : list Z }.

Section drive.
Context (fuel : nat) (base : Z) (uninit junk : list Z).

Definition quicktests : list test :=
  [mktest copyin (str "copyin"); mktest copyout (str "copyout"); mktest copyinstr1 (str "copyinstr1");
   mktest copyinstr2 (str "copyinstr2"); mktest (copyinstr3 fuel) (str "copyinstr3"); mktest rwsbrk (str "rwsbrk");
   mktest truncate1 (str "truncate1"); mktest truncate2 (str "truncate2"); mktest truncate3 (str "truncate3");
   mktest openiputtest (str "openiput"); mktest exitiputtest (str "exitiput"); mktest iputtest (str "iput");
   mktest opentest (str "opentest"); mktest writetest (str "writetest"); mktest (writebig fuel) (str "writebig");
   mktest createtest (str "createtest"); mktest dirtest (str "dirtest"); mktest exectest (str "exectest");
   mktest (pipe1 fuel) (str "pipe1"); mktest (killstatus fuel) (str "killstatus"); mktest (preempt fuel) (str "preempt");
   mktest exitwait (str "exitwait"); mktest reparent (str "reparent"); mktest twochildren (str "twochildren");
   mktest forkfork (str "forkfork"); mktest (forkforkfork fuel) (str "forkforkfork"); mktest reparent2 (str "reparent2");
   mktest (mem base fuel) (str "mem"); mktest (sharedfd fuel) (str "sharedfd"); mktest (fourfiles fuel) (str "fourfiles");
   mktest createdelete (str "createdelete"); mktest unlinkread (str "unlinkread"); mktest linktest (str "linktest");
   mktest (concreate fuel) (str "concreate"); mktest linkunlink (str "linkunlink"); mktest subdir (str "subdir");
   mktest bigwrite (str "bigwrite"); mktest (bigfile fuel) (str "bigfile"); mktest fourteen (str "fourteen");
   mktest rmdot (str "rmdot"); mktest dirfile (str "dirfile"); mktest iref (str "iref"); mktest forktest (str "forktest");
   mktest sbrkbasic (str "sbrkbasic"); mktest sbrkmuch (str "sbrkmuch"); mktest kernmem (str "kernmem");
   mktest MAXVAplus (str "MAXVAplus"); mktest (sbrkfail fuel) (str "sbrkfail"); mktest sbrkarg (str "sbrkarg");
   mktest validatetest (str "validatetest"); mktest (bsstest uninit) (str "bsstest"); mktest bigargtest (str "bigargtest");
   mktest argptest (str "argptest"); mktest stacktest (str "stacktest"); mktest nowrite (str "nowrite");
   mktest pgbug (str "pgbug"); mktest sbrkbugs (str "sbrkbugs"); mktest sbrklast (str "sbrklast");
   mktest sbrk8000 (str "sbrk8000"); mktest badarg (str "badarg"); mktest lazy_alloc (str "lazy_alloc");
   mktest lazy_unmap (str "lazy_unmap"); mktest lazy_copy (str "lazy_copy"); mktest (lazy_sbrk fuel) (str "lazy_sbrk")].
Definition slowtests : list test :=
  [mktest bigdir (str "bigdir"); mktest manywrites (str "manywrites"); mktest badwrite (str "badwrite");
   mktest (execout fuel) (str "execout"); mktest (diskfull junk) (str "diskfull"); mktest outofinodes (str "outofinodes")].

Definition run (f : list Z -> UT unit) s : UT bool :=
  printf (str "test %s: ") [VStr (Some s)] ;;;
  let! pid := fork in
  when (pid <? 0) (die (str "runtest: fork error" ++ nl) []) ;;;
  if pid =? 0 then f s ;;; uexit 0 else
  let! '(_, xstatus) := wait in
  (if negb (xstatus =? 0) then printf (str "FAILED" ++ nl) [] else printf (str "OK" ++ nl) []) ;;;
  uret (xstatus =? 0).

(** [(justone == 0) || strcmp(t->s, justone) == 0] *)
Definition selected (justone : option (list Z)) (t : test) : UT bool :=
  match justone with
  | None => uret true
  | Some j => let! c := ulift (Ulib.strcmp (t_s t ++ [0]) (j ++ [0])) in uret (c =? 0)
  end.
Fixpoint runtests (tests : list test) (justone : option (list Z)) (continuous ntests : Z) : UT Z :=
  match tests with
  | [] => uret ntests
  | t :: r =>
      let! b := selected justone t in
      if negb b then runtests r justone continuous ntests else
      let! ok := run (t_f t) (t_s t) in
      if negb ok && negb (continuous =? 2) then printf (str "SOME TESTS FAILED" ++ nl) [] ;;; uret (-1)
      else runtests r justone continuous (ntests + 1)
  end.

(** The number of tests after a group of them, or nothing if the driver gives up. *)
Definition group (tests : list test) (justone : option (list Z)) (continuous ntests : Z) : UT (option Z) :=
  let! n := runtests tests justone continuous 0 in
  uret (if n <? 0 then (if negb (continuous =? 2) then None else Some ntests) else Some (ntests + n)).
(** One round of [drivetests]: whether to return 1. *)
Definition drive_round (quick : bool) (continuous : Z) (justone : option (list Z)) : UT bool :=
  printf (str "usertests starting" ++ nl) [] ;;;
  let! free0 := countfree fuel in
  let! o := group quicktests justone continuous 0 in
  match o with
  | None => uret true
  | Some ntests =>
      let! o :=
        (if negb quick then
           when (match justone with None => true | Some _ => false end) (printf (str "usertests slow tests starting" ++ nl) []) ;;;
           group slowtests justone continuous ntests
         else uret (Some ntests)) in
      match o with
      | None => uret true
      | Some ntests =>
          let! free1 := countfree fuel in
          let lost := free1 <? free0 in
          when lost (printf (str "FAILED -- lost some free pages %d (out of %d)" ++ nl) [VInt free1; VInt free0]) ;;;
          if lost && negb (continuous =? 2) then uret true else
          if (match justone with None => false | Some _ => true end) && (ntests =? 0) then
            printf (str "NO TESTS EXECUTED" ++ nl) [] ;;; uret true
          else uret false
      end
  end.
(** [do ... while(continuous)]: the result. *)
Fixpoint drivetests (k : nat) (quick : bool) (continuous : Z) (justone : option (list Z)) : UT Z :=
  match k with
  | O => ufuel
  | S k' =>
      let! stop := drive_round quick continuous justone in
      if stop then uret 1 else
      if istrue continuous then drivetests k' quick continuous justone else uret 0
  end.

(** The arguments: how to run the tests, or nothing. *)
Definition parse_args (argv : list (list Z)) : option (bool * Z * option (list Z)) :=
  match argv with
  | [_; a] =>
      if bool_decide (a = str "-q") then Some (true, 0, None)
      else if bool_decide (a = str "-c") then Some (false, 1, None)
      else if bool_decide (a = str "-C") then Some (false, 2, None)
      else if negb (nth 0 (a ++ [0]) 0 =? 45) then Some (false, 0, Some a)
      else None
  | _ :: _ :: _ => None
  | _ => Some (false, 0, None)
  end.
Definition main (argv : list (list Z)) : UT unit :=
  match parse_args argv with
  | None => die (str "Usage: usertests [-c] [-C] [-q] [testname]" ++ nl) []
  | Some (quick, continuous, justone) =>
      let! r := drivetests fuel quick continuous justone in
      when (istrue r) (uexit 1) ;;;
      printf (str "ALL TESTS PASSED" ++ nl) [] ;;;
      uexit 0
  end.
End drive.
End tests.

(** ** What the driver decides *)

(** A computation returns [a] in a system where [Q] holds. *)
Definition ends {C W A} (m : U C W A) (p : uproc C W) (a : A) (Q : W -> Prop) : Prop :=
  exists p', m p = URet a p' /\ Q (u_os p').

Lemma ends_ret {C W A} (a : A) (p : uproc C W) (Q : W -> Prop) : Q (u_os p) -> ends (uret a) p a Q.
Proof. by exists p. Qed.
Lemma ends_bind {C W A B} (m : U C W A) (k : A -> U C W B) p a b (Q R : W -> Prop) :
  ends m p a Q -> (forall p', Q (u_os p') -> ends (k a) p' b R) -> ends (ubind m k) p b R.
Proof. intros (p' & E & HQ) Hk. unfold ends. rewrite (ubind_ret _ _ _ _ _ E). by apply Hk. Qed.
(** The same when the rest of the program does not return. *)
Lemma ends_then {C W A B} (m : U C W A) (k : A -> U C W B) p a (Q : W -> Prop) (P : uout C W B -> Prop) :
  ends m p a Q -> (forall p', Q (u_os p') -> P (k a p')) -> P (ubind m k p).
Proof. intros (p' & E & HQ) Hk. rewrite (ubind_ret _ _ _ _ _ E). by apply Hk. Qed.

(** A computation makes the process exit, in a system where [Q] holds. *)
Definition quits {C W A} (m : U C W A) (p : uproc C W) (n : Z) (Q : W -> Prop) : Prop :=
  exists p', m p = UExit n p' /\ Q (u_os p').
Lemma quits_then {C W A B} (m : U C W A) (k : A -> U C W B) p a n (Q R : W -> Prop) :
  ends m p a Q -> (forall p', Q (u_os p') -> quits (k a) p' n R) -> quits (ubind m k) p n R.
Proof. intros Hm Hk. by apply (ends_then _ _ _ _ _ (fun o => exists p', o = UExit n p' /\ R (u_os p')) Hm). Qed.

(** A format of plain characters, [%s] and [%d], with arguments of these types. *)
Fixpoint fits (fmt : list Z) (ap : list varg) : bool :=
  match fmt with
  | [] => true
  | c :: r =>
      if c =? 37 then
        match r, ap with
        | d :: r', VStr _ :: ap' => (d =? 115) && fits r' ap'
        | d :: r', VInt _ :: ap' => (d =? 100) && fits r' ap'
        | _, _ => false
        end
      else fits r ap
  end.

Section quiet.
Context {W : Type} `{OS xcall W} (fd : Z) (Q : W -> Prop).
Context (Hw : forall w d, Q w -> exists a w', os_call (CWrite fd d) w = (a, w') /\ Q w').
(** Output that leaves [Q] true. *)
Definition quiet (m : U xcall W unit) : Prop := forall p, Q (u_os p) -> ends m p tt Q.

Lemma quiet_seq m k : quiet m -> quiet k -> quiet (m ;;; k).
Proof. intros Hm Hk p Hp. apply (ends_bind _ _ _ _ _ _ _ (Hm p Hp)), Hk. Qed.
Lemma quiet_putc c : quiet (putc fd c).
Proof.
  intros p Hp. destruct (Hw _ [u8 c] Hp) as (a & w & E & Hq). unfold putc, ends.
  rewrite (ubind_ret _ _ _ _ _ (call_eq _ _ _ _ E)). by eexists.
Qed.
Lemma quiet_putcs l : quiet (putcs fd l).
Proof. induction l; [intros p; apply ends_ret | apply quiet_seq; [apply quiet_putc | done]]. Qed.
Lemma quiet_printf n : forall fmt ap, (length fmt <= n)%nat -> fits fmt ap = true -> quiet (vprintf fd fmt false ap).
Proof.
  induction n as [| n IH]; intros [| c fmt] ap Hl Hf; try (intros p; apply ends_ret); [cbn in Hl; lia |].
  cbn [fits] in Hf. cbn [vprintf negb]. destruct (c =? 37).
  - destruct fmt as [| d fmt]; [done |].
    destruct ap as [| [v | o] ap]; [done | |]; apply andb_true_iff in Hf as [->%Z.eqb_eq Hf].
    + apply quiet_seq; [| apply IH; [cbn in Hl; lia | done]].
      unfold printint. rewrite decide_True by apply printint_fits. apply quiet_putcs.
    + apply quiet_seq; [apply quiet_putcs | apply IH; [cbn in Hl; lia | done]].
  - apply quiet_seq; [apply quiet_putc | apply IH; [cbn in Hl; lia | done]].
Qed.
End quiet.

(** What a [fork] of the driver leads to: the child ends with the status and leaves that
    many pages; or this process goes on as the child. *)
Inductive fate : Type :=
| Ended (status : Z) (left : nat)
| Child.

(** What the driver relies on: [pool w b k fs] says that the break is [b], that [sbrk] can
    get [k] more pages, of at most 128 MB, and that the forks to come have the fates [fs].
    After a fork there is a child to wait for, [busy], or the process is the child. *)
Class Machine {W} `{OS tcall W} (pool : W -> Z -> nat -> list fate -> Prop)
  (busy : W -> Z -> Z -> nat -> list fate -> Prop) (child : W -> Z -> nat -> Prop) : Prop := {
  pool_range : forall w b k fs, pool w b k fs -> 0 <= b < MAXVA /\ Z.of_nat k <= 32768;
  sbrk_break : forall w b k fs, pool w b k fs ->
    exists d w', os_call (X (CSbrk 0 SBRK_EAGER)) w = (mkanswer b d, w') /\ pool w' b k fs;
  sbrk_page : forall w b k fs, pool w b (S k) fs ->
    exists d w', os_call (X (CSbrk PGSIZE SBRK_EAGER)) w = (mkanswer b d, w') /\ pool w' (b + PGSIZE) k fs;
  sbrk_none : forall w b fs, pool w b O fs ->
    exists d w', os_call (X (CSbrk PGSIZE SBRK_EAGER)) w = (mkanswer SBRK_ERROR d, w') /\ pool w' b O fs;
  sbrk_back : forall w b k fs n, pool w b k fs -> 0 <= b - Z.of_nat n * PGSIZE ->
    exists a w', os_call (X (CSbrk (- (Z.of_nat n * PGSIZE)) SBRK_EAGER)) w = (a, w') /\
      pool w' (b - Z.of_nat n * PGSIZE) (k + n)%nat fs;
  fork_parent : forall w b k st k' fs, pool w b k (Ended st k' :: fs) ->
    exists pid d w', os_call (X CFork) w = (mkanswer pid d, w') /\ 0 < pid /\ busy w' b st k' fs;
  fork_child : forall w b k fs, pool w b k (Child :: fs) ->
    exists d w', os_call (X CFork) w = (mkanswer 0 d, w') /\ child w' b k;
  wait_child : forall w b st k' fs, busy w b st k' fs ->
    exists pid w', os_call (X CWait) w = (mkanswer pid [st], w') /\ pool w' b k' fs;
  write_any : forall w b k fs d, pool w b k fs ->
    exists a w', os_call (X (CWrite 1 d)) w = (a, w') /\ pool w' b k fs;
}.

(** How a process ends that runs a test and then exits with 0. *)
Definition child_outcome {C W A} (o : uout C W unit) : uout C W A :=
  match o with
  | URet _ p => UExit 0 p
  | UExit n p => UExit n p
  | UExec f argv p => UExec f argv p
  | UFault p => UFault p
  | UFuel p => UFuel p
  end.
Lemma child_bind {C W A B} (m : U C W A) (k : A -> U C W B) p o : m p = child_outcome o -> ubind m k p = child_outcome o.
Proof. unfold ubind. intros ->. by destruct o. Qed.

(** The process and its system after a step. *)
Ltac after p Hp := intros p Hp; cbv beta in Hp.

Section driver.
Context {W : Type} `{OS tcall W} (pool : W -> Z -> nat -> list fate -> Prop).
Context (busy : W -> Z -> Z -> nat -> list fate -> Prop) (child : W -> Z -> nat -> Prop) `{!Machine pool busy child}.
Implicit Types (p : uproc tcall W) (ts : list (Z * nat)) (fs : list fate).

Lemma ends_lib {A} (m : U xcall W A) p a Q : ends m (mkuproc [] (u_os p)) a Q -> ends (lib m) p a Q.
Proof. intros (q & E & HQ). unfold ends, lib. rewrite E. by eexists. Qed.
Lemma ends_call c p r (Q : W -> Prop) : (exists a w', os_call (X c) (u_os p) = (a, w') /\ a_ret a = r /\ Q w') ->
  ends (call c) p r Q.
Proof.
  intros (a & w' & E & <- & HQ). apply ends_lib. eexists. split; [by apply call_eq | done].
Qed.
Lemma ends_pool {A} (a : A) p b k fs : pool (u_os p) b k fs -> ends (uret a) p a (fun w => pool w b k fs).
Proof. by exists p. Qed.
Lemma ends_printf fmt ap p b k fs : fits fmt ap = true -> pool (u_os p) b k fs ->
  ends (printf fmt ap) p tt (fun w => pool w b k fs).
Proof.
  intros Hf Hp. apply ends_lib, (quiet_printf 1 (fun w => pool w b k fs)) with (length fmt); try done.
  intros w d Hw. by apply write_any.
Qed.
Lemma ends_sbrk n p r (Q : W -> Prop) : (exists d w', os_call (X (CSbrk n SBRK_EAGER)) (u_os p) = (mkanswer r d, w') /\ Q w') ->
  ends (sbrk n) p r Q.
Proof. intros (d & w' & E & HQ). apply (ends_call (CSbrk n SBRK_EAGER)). by exists (mkanswer r d), w'. Qed.

(** The loop takes every page there is. *)
Lemma countfree_loop_takes k : forall fuel n p b fs, (k < fuel)%nat -> 0 <= n -> n + Z.of_nat k < 2 ^ 31 ->
  pool (u_os p) b k fs ->
  ends (countfree_loop fuel n) p (n + Z.of_nat k) (fun w => pool w (b + Z.of_nat k * PGSIZE) O fs).
Proof.
  induction k as [| k IH]; intros [| fuel] n p b fs Hk Hn Hb Hp; try lia; cbn [countfree_loop].
  - eapply ends_bind; [apply ends_sbrk, (sbrk_none _ _ _ Hp) |]. after p' Hp'. rewrite Z.eqb_refl, !Z.add_0_r. by apply ends_ret.
  - destruct (pool_range _ _ _ _ Hp) as [Hr _].
    eapply ends_bind; [apply ends_sbrk, (sbrk_page _ _ _ _ Hp) |]. after p' Hp'.
    destruct (Z.eqb_spec b SBRK_ERROR) as [E | _]; [unfold SBRK_ERROR, MAXVA in *; lia |].
    rewrite s32_small by lia. replace (n + Z.of_nat (S k)) with (n + 1 + Z.of_nat k) by lia.
    replace (b + Z.of_nat (S k) * PGSIZE) with (b + PGSIZE + Z.of_nat k * PGSIZE) by lia.
    apply IH; try done; lia.
Qed.

(** [countfree] counts the pages and gives them back. *)
Lemma countfree_counts fuel p b k fs : (k < fuel)%nat -> pool (u_os p) b k fs ->
  ends (countfree fuel) p (Z.of_nat k) (fun w => pool w b k fs).
Proof.
  intros Hk Hp. destruct (pool_range _ _ _ _ Hp) as [Hb Hr]. unfold countfree.
  eapply ends_bind; [apply ends_sbrk, (sbrk_break _ _ _ _ Hp) |]. after p1 Hp1.
  eapply ends_bind; [apply (countfree_loop_takes k fuel 0 p1 b fs); [done | lia | lia | done] |]. after p2 Hp2.
  eapply ends_bind; [apply ends_sbrk, (sbrk_break _ _ _ _ Hp2) |]. after p3 Hp3.
  replace (s32 _) with (- (Z.of_nat k * PGSIZE)) by (rewrite s32_small; unfold PGSIZE; lia).
  destruct (sbrk_back _ _ _ _ k Hp3 ltac:(lia)) as ([r d] & w' & E & Hw'). rewrite Z.add_simpl_r in Hw'.
  eapply (ends_bind _ _ _ r _ (fun w => pool w b k fs)); [apply ends_sbrk; by exists d, w' |].
  after p4 Hp4. by apply ends_ret.
Qed.

(** A test passes exactly if its process exits with 0. *)
Lemma run_verdict f s p b k st k' fs : pool (u_os p) b k (Ended st k' :: fs) ->
  ends (run f s) p (st =? 0) (fun w => pool w b k' fs).
Proof.
  intros Hp. unfold run. eapply ends_bind; [by apply ends_printf |]. after p1 Hp1.
  destruct (fork_parent _ _ _ _ _ _ Hp1) as (pid & d & w1 & E & Hpid & Hw1).
  eapply (ends_bind _ _ _ pid _ (fun w => busy w b st k' fs)); [apply (ends_call CFork); by exists (mkanswer pid d), w1 |]. after p2 Hp2.
  rewrite (proj2 (Z.ltb_ge pid 0)), (proj2 (Z.eqb_neq pid 0)) by lia.
  eapply (ends_bind _ _ _ tt _ (fun w => busy w b st k' fs)); [by apply ends_ret |]. after p3 Hp3.
  destruct (wait_child _ _ _ _ _ Hp3) as (pid' & w3 & E' & Hw3).
  eapply (ends_bind wait _ _ (pid', st) _ (fun w => pool w b k' fs)).
  { eapply (ends_bind (sys (X CWait)) _ _ (mkanswer pid' [st]) _ (fun w => pool w b k' fs)).
    - eexists. split; [by apply sys_eq | done].
    - intros q Hq. by apply ends_ret. }
  after p4 Hp4. apply (ends_bind _ _ _ tt _ (fun w => pool w b k' fs)); [| by intros; apply ends_pool].
  destruct (negb _); by apply ends_printf.
Qed.

(** The process goes on as the test [t], in a system with [k] pages. *)
Definition becomes {A} (m : U tcall W A) p b k (t : test) : Prop :=
  exists p', m p = child_outcome (t_f t (t_s t) p') /\ child (u_os p') b k.
Lemma becomes_bind {A B} (m : U tcall W A) (h : A -> U tcall W B) p b k t : becomes m p b k t -> becomes (ubind m h) p b k t.
Proof. intros (p' & E & Hc). exists p'. split; [by apply child_bind | done]. Qed.
Lemma becomes_then {A B} (m : U tcall W A) (h : A -> U tcall W B) p a (Q : W -> Prop) b k t :
  ends m p a Q -> (forall p', Q (u_os p') -> becomes (h a) p' b k t) -> becomes (ubind m h) p b k t.
Proof. intros Hm Hh. by apply (ends_then _ _ _ _ _ (fun o => exists p', o = child_outcome (t_f t (t_s t) p') /\ child (u_os p') b k) Hm). Qed.

(** The child calls the test. *)
Lemma run_child t p b k fs : pool (u_os p) b k (Child :: fs) -> becomes (run (t_f t) (t_s t)) p b k t.
Proof.
  intros Hp. unfold run. eapply becomes_then; [by apply ends_printf |]. after p1 Hp1.
  destruct (fork_child _ _ _ _ Hp1) as (d & w1 & E & Hw1).
  eapply (becomes_then _ _ _ 0 (fun w => child w b k)); [apply (ends_call CFork); by exists (mkanswer 0 d), w1 |]. after p2 Hp2.
  eapply (becomes_then _ _ _ tt (fun w => child w b k)); [by apply ends_ret |]. after p3 Hp3.
  exists p3. split; [| done]. cbn [Z.eqb]. unfold ubind. by destruct (t_f t (t_s t) p3).
Qed.

(** The pages left after the tests; the tests that are run, up to the first that fails. *)
Definition left_after (k : nat) ts : nat := foldl (fun _ t => snd t) k ts.
Definition all_passed ts : bool := forallb (fun t => fst t =? 0) ts.
Fixpoint ran ts : list (Z * nat) :=
  match ts with [] => [] | t :: r => t :: if fst t =? 0 then ran r else [] end.
Definition ended ts : list fate := (fun t => Ended (fst t) (snd t)) <$> ts.

Lemma ran_all ts : all_passed ts = true -> ran ts = ts.
Proof. induction ts as [| t ts IH]; [done |]. cbn. destruct (fst t =? 0); [| done]. intros E. by rewrite IH. Qed.
Lemma ran_app ts ts' : ran (ts ++ ts') = ran ts ++ if all_passed ts then ran ts' else [].
Proof. induction ts as [| t ts IH]; [done |]. cbn. destruct (fst t =? 0); cbn; [by rewrite IH | done]. Qed.
Lemma ran_le ts : (length (ran ts) <= length ts)%nat.
Proof. induction ts as [| t ts IH]; cbn; [done |]. destruct (fst t =? 0); cbn; lia. Qed.

(** What holds after the tests [ts]: those of [ran ts] were run, and no other. *)
Definition tested b k ts fs (w : W) : Prop :=
  pool w b (left_after k (ran ts)) (ended (drop (length (ran ts)) ts) ++ fs).

(** [runtests] runs every test up to the first that fails. *)
Lemma runtests_all tests : forall n p b k ts fs, length ts = length tests ->
  pool (u_os p) b k (ended ts ++ fs) ->
  ends (runtests tests None 0 n) p (if all_passed ts then n + Z.of_nat (length tests) else -1) (tested b k ts fs).
Proof.
  induction tests as [| t tests IH]; intros n p b k [| [st k'] ts] fs Hl Hp; try done; cbn [runtests].
  - cbn. rewrite Z.add_0_r. by apply ends_ret.
  - eapply ends_bind; [by apply ends_pool |]. after p1 Hp1.
    eapply ends_bind; [apply (run_verdict _ _ _ b k st k' (ended ts ++ fs)), Hp1 |]. after p2 Hp2.
    unfold tested. cbn [all_passed forallb fst negb ran]. destruct (Z.eqb_spec st 0) as [-> | Hst]; cbn [andb negb Z.eqb].
    + replace (n + Z.of_nat (length (t :: tests))) with (n + 1 + Z.of_nat (length tests)) by (cbn [length]; lia).
      apply (IH (n + 1) p2 b k' ts fs); [cbn in Hl; lia | done].
    + eapply ends_bind; [by apply ends_printf |]. after p3 Hp3. by apply ends_ret.
Qed.
Lemma runtests_child tests : forall n p b k ts t fs, tests !! length ts = Some t -> all_passed ts = true ->
  pool (u_os p) b k (ended ts ++ Child :: fs) -> becomes (runtests tests None 0 n) p b (left_after k ts) t.
Proof.
  induction tests as [| t0 tests IH]; intros n p b k ts t fs Ht Hts Hp; [done |]. cbn [runtests].
  eapply becomes_then; [by apply ends_pool |]. after p1 Hp1. cbn [negb].
  destruct ts as [| [st k'] ts].
  - injection Ht as ->. by apply becomes_bind, (run_child _ _ _ _ fs).
  - cbn in Hts. apply andb_true_iff in Hts as [->%Z.eqb_eq Hts].
    eapply becomes_then; [apply (run_verdict _ _ _ b k 0 k' (ended ts ++ Child :: fs)), Hp1 |]. after p2 Hp2.
    by apply (IH _ p2 b k' ts t fs).
Qed.

Lemma group_all tests n p b k ts fs : length ts = length tests ->
  pool (u_os p) b k (ended ts ++ fs) ->
  ends (group tests None 0 n) p (if all_passed ts then Some (n + Z.of_nat (length tests)) else None) (tested b k ts fs).
Proof.
  intros Hl Hp. unfold group. eapply ends_bind; [by apply runtests_all |]. after p' Hp'.
  destruct (all_passed ts); [| by apply ends_ret].
  rewrite (proj2 (Z.ltb_ge _ _)) by lia. by apply ends_ret.
Qed.

Lemma left_after_app k ts ts' : left_after k (ts ++ ts') = left_after (left_after k ts) ts'.
Proof. unfold left_after. by rewrite foldl_app. Qed.
Lemma all_passed_app ts ts' : all_passed (ts ++ ts') = all_passed ts && all_passed ts'.
Proof. apply forallb_app. Qed.
Lemma ended_app ts ts' fs : ended (ts ++ ts') ++ fs = ended ts ++ ended ts' ++ fs.
Proof. unfold ended. by rewrite fmap_app, <- app_assoc. Qed.

(** Two groups of tests are one. *)
Lemma tested_app b k ts ts' fs w : all_passed ts = true ->
  tested b (left_after k ts) ts' fs w -> tested b k (ts ++ ts') fs w.
Proof.
  intros Hts. unfold tested. rewrite ran_app, Hts, (ran_all ts Hts), left_after_app, length_app, drop_app_add; done.
Qed.
Lemma tested_stop b k ts ts' fs w : all_passed ts = false ->
  tested b k ts (ended ts' ++ fs) w -> tested b k (ts ++ ts') fs w.
Proof.
  intros Hts. unfold tested. rewrite ran_app, Hts, app_nil_r, drop_app_le by apply ran_le. by rewrite ended_app.
Qed.
Lemma tested_end b k ts fs w : all_passed ts = true -> tested b k ts fs w -> pool w b (left_after k ts) fs.
Proof. intros Hts. unfold tested. by rewrite ran_all, drop_all. Qed.
Lemma tested_passed b k ts fs w : all_passed ts = true -> pool w b (left_after k ts) fs -> tested b k ts fs w.
Proof. intros Hts. unfold tested. by rewrite ran_all, drop_all. Qed.

(** The tests of a round. *)
Definition tests_of (fuel : nat) (base : Z) (uninit junk : list Z) (quick : bool) : list (@test W) :=
  quicktests fuel base uninit ++ (if quick then [] else slowtests fuel junk).

Section round.
Context (fuel : nat) (base : Z) (uninit junk : list Z) (quick : bool) (Hfuel : 32768 < Z.of_nat fuel).

Lemma pool_fuel w b k fs : pool w b k fs -> (k < fuel)%nat.
Proof using Hfuel Machine0. intros Hw. pose proof (pool_range _ _ _ _ Hw). lia. Qed.

Lemma drivetests_once : drivetests fuel base uninit junk fuel quick 0 None =
  let! stop := drive_round (W := W) fuel base uninit junk quick 0 None in if stop then uret 1 else uret 0.
Proof using Hfuel. destruct fuel; [lia | reflexivity]. Qed.

(** A round without options: it is the last one, and it stops the driver exactly if a test
    failed or pages were lost. *)
Lemma drive_round_verdict p b k ts fs :
  length ts = length (tests_of fuel base uninit junk quick) -> pool (u_os p) b k (ended ts ++ fs) ->
  ends (drive_round fuel base uninit junk quick 0 None) p (negb (all_passed ts && (k <=? left_after k ts)%nat)) (tested b k ts fs).
Proof using Hfuel Machine0.
  intros Hl Hp. unfold tests_of in Hl. rewrite length_app in Hl.
  set (nq := length (quicktests fuel base uninit)) in *.
  rewrite <- (take_drop nq ts) in Hp |- *. set (ts1 := take nq ts) in *. set (ts2 := drop nq ts) in *.
  assert (length ts1 = nq) as H1 by (unfold ts1; rewrite length_take; lia).
  assert (length ts2 = length (if quick then [] else slowtests fuel junk)) as H2 by (unfold ts2; rewrite length_drop; lia).
  rewrite ended_app in Hp. rewrite all_passed_app, left_after_app.
  unfold drive_round. eapply ends_bind; [by apply ends_printf |]. after p1 Hp1.
  eapply ends_bind; [apply (countfree_counts fuel p1 b k); [by eapply pool_fuel | done] |]. after p2 Hp2.
  eapply ends_bind; [by apply group_all |]. after p3 Hp3.
  destruct (all_passed ts1) eqn:P1; [| by apply ends_ret, tested_stop]. apply (tested_end _ _ _ _ _ P1) in Hp3.
  set (k1 := left_after k ts1) in *.
  eapply (ends_bind _ _ _ (if all_passed ts2 then Some (0 + Z.of_nat nq + if quick then 0 else Z.of_nat (length (slowtests fuel junk))) else None)
    _ (tested b k1 ts2 fs)).
  { destruct quick; cbn [negb].
    - destruct ts2; [| done]. rewrite Z.add_0_r. by apply ends_ret.
    - eapply ends_bind; [by apply ends_printf |]. after p4 Hp4. by apply group_all. }
  after p4 Hp4. destruct (all_passed ts2) eqn:P2; [| by apply ends_ret, tested_app].
  cbn [andb negb]. apply (tested_end _ _ _ _ _ P2) in Hp4. set (k2 := left_after k1 ts2) in *.
  eapply ends_bind; [apply (countfree_counts fuel p4 b k2); [by eapply pool_fuel | done] |]. after p5 Hp5.
  replace (Z.of_nat k2 <? Z.of_nat k) with (negb (k <=? k2)%nat) by (destruct (Nat.leb_spec k k2), (Z.ltb_spec (Z.of_nat k2) (Z.of_nat k)); cbn; lia).
  destruct (k <=? k2)%nat; cbn [negb when andb Z.eqb].
  - eapply ends_bind; [by apply ends_pool |]. after p6 Hp6. by apply ends_ret, tested_app, tested_passed.
  - eapply ends_bind; [by apply ends_printf |]. after p6 Hp6. by apply ends_ret, tested_app, tested_passed.
Qed.

(** The process forked for a test goes on with that test. *)
Lemma drive_round_child p b k ts t fs :
  tests_of fuel base uninit junk quick !! length ts = Some t -> all_passed ts = true ->
  pool (u_os p) b k (ended ts ++ Child :: fs) ->
  becomes (drive_round fuel base uninit junk quick 0 None) p b (left_after k ts) t.
Proof using Hfuel Machine0.
  intros Ht Hts Hp. unfold tests_of in Ht.
  unfold drive_round. eapply becomes_then; [by apply ends_printf |]. after p1 Hp1.
  eapply becomes_then; [apply (countfree_counts fuel p1 b k); [by eapply pool_fuel | done] |]. after p2 Hp2.
  set (nq := length (quicktests fuel base uninit)) in *.
  destruct (decide (length ts < nq)%nat) as [Hlt | Hge].
  { rewrite lookup_app_l in Ht by done. unfold group. by eapply becomes_bind, becomes_bind, runtests_child. }
  rewrite lookup_app_r in Ht by (fold nq; lia).
  rewrite <- (take_drop nq ts) in Hts, Hp2 |- *. set (ts1 := take nq ts) in *. set (ts2 := drop nq ts) in *.
  rewrite all_passed_app in Hts. apply andb_true_iff in Hts as [P1 P2]. rewrite ended_app in Hp2. rewrite left_after_app.
  assert (length ts1 = nq) as H1 by (unfold ts1; rewrite length_take; lia).
  assert (length ts2 = length ts - nq)%nat as H2 by (unfold ts2; by rewrite length_drop).
  eapply becomes_then; [by apply group_all |]. after p3 Hp3. rewrite P1. apply (tested_end _ _ _ _ _ P1) in Hp3.
  destruct quick; [done |]. cbn [negb when].
  apply becomes_bind. eapply becomes_then; [by apply ends_printf |]. after p4 Hp4.
  unfold group. eapply becomes_bind, runtests_child; [by rewrite H2 | done | done].
Qed.
End round.

(** C34: what usertests says is what happened.  Without options, or with [-q], and with
    enough memory to count, main forks and waits for one process per test of the list, in
    order, up to and including the first that fails, and no more: of the forks the system was
    ready for exactly the others are left.  It exits with 0 exactly if every test exited with 0
    and [sbrk] can get at least as many pages after the tests as before; otherwise it exits
    with 1.  The process that a fork creates for a test calls that test with its name and, if the
    test returns, exits with 0.  The pages taken for counting are given back: the count
    is exact, within one iteration for each page of a 128 MB machine. *)
Theorem usertests_verdict fuel base uninit junk argv quick p b k ts :
  parse_args argv = Some (quick, 0, None) -> 32768 < Z.of_nat fuel ->
  (length ts = length (tests_of fuel base uninit junk quick) -> pool (u_os p) b k (ended ts) ->
   exists p', main fuel base uninit junk argv p =
     UExit (if all_passed ts && (k <=? left_after k ts)%nat then 0 else 1) p' /\
     pool (u_os p') b (left_after k (ran ts)) (ended (drop (length (ran ts)) ts))) /\
  (forall t fs, tests_of fuel base uninit junk quick !! length ts = Some t -> all_passed ts = true ->
   pool (u_os p) b k (ended ts ++ Child :: fs) ->
   exists p', main fuel base uninit junk argv p = child_outcome (t_f t (t_s t) p') /\ child (u_os p') b (left_after k ts)).
Proof using Machine0.
  intros Ha Hfuel. unfold main. rewrite Ha, (drivetests_once fuel base uninit junk quick Hfuel). split.
  - intros Hl Hp. rewrite <- (app_nil_r (ended ts)) in Hp.
    assert (ends (let! stop := drive_round fuel base uninit junk quick 0 None in if stop then uret 1 else uret 0) p
      (if all_passed ts && (k <=? left_after k ts)%nat then 0 else 1) (tested b k ts [])) as Hd.
    { eapply ends_bind; [by apply (drive_round_verdict fuel base uninit junk quick Hfuel) |]. after p' Hp'.
      destruct (_ && _); cbn; by apply ends_ret. }
    eapply (quits_then _ _ _ _ _ _ (fun w => pool w b _ _) Hd). after p1 Hp1. unfold tested in Hp1. rewrite app_nil_r in Hp1.
    destruct (_ && _); cbn [istrue Z.eqb negb when]; [| by exists p1].
    apply (quits_then _ _ _ _ _ _ _ (ends_pool tt _ _ _ _ Hp1)). after p2 Hp2.
    apply (quits_then _ _ _ _ _ _ _ (ends_printf (str "ALL TESTS PASSED" ++ nl) [] _ _ _ _ eq_refl Hp2)). after p3 Hp3.
    by exists p3.
  - intros t fs Ht Hts Hp. by eapply becomes_bind, becomes_bind, drive_round_child.
Qed.
End driver.

(** A machine for which the laws hold: between [fork] and [wait], [bk_zombie] is how the child ends. *)
Record bank : Type := mkbank { bk_brk : Z; bk_free : nat; bk_todo : list fate; bk_zombie : option (Z * nat) }.
Definition bank_call (c : tcall) (w : bank) : answer * bank :=
  let 'mkbank b k fs z := w in
  match c with
  | X (CSbrk n _) =>
      if n =? PGSIZE then
        match k with
        | O => (mkanswer SBRK_ERROR [], w)
        | S k' => (mkanswer b [], mkbank (b + PGSIZE) k' fs z)
        end
      else (mkanswer b [], mkbank (b + n) (k + Z.to_nat (- n / PGSIZE)) fs z)
  | X CFork =>
      match fs with
      | Ended st k' :: r => (mkanswer 2 [], mkbank b k r (Some (st, k')))
      | Child :: r => (mkanswer 0 [], mkbank b k r None)
      | [] => (mkanswer (-1) [], w)
      end
  | X CWait => match z with Some (st, k') => (mkanswer 2 [st], mkbank b k' fs None) | None => (mkanswer (-1) [], w) end
  | _ => (mkanswer 0 [], w)
  end.
#[local] Instance bank_os : OS tcall bank := bank_call.
(** The pages in use, available now and later. *)
Definition pages_of (f : fate) : nat := match f with Ended _ k => k | Child => O end.
Definition bank_fits b k fs : Prop :=
  0 <= b /\ b + (Z.of_nat k + Z.of_nat (list_sum (pages_of <$> fs))) * PGSIZE <= 32768 * PGSIZE.
Definition bank_pool (w : bank) (b : Z) (k : nat) (fs : list fate) : Prop := w = mkbank b k fs None /\ bank_fits b k fs.
Definition bank_busy (w : bank) (b st : Z) (k' : nat) (fs : list fate) : Prop :=
  exists k, w = mkbank b k fs (Some (st, k')) /\ bank_fits b k' fs.
Definition bank_child (w : bank) (b : Z) (k : nat) : Prop := bk_brk w = b /\ bk_free w = k.
#[local] Instance bank_machine : Machine bank_pool bank_busy bank_child.
Proof.
  unfold bank_pool, bank_busy, bank_fits, bank_child, PGSIZE. split.
  - intros w b k fs (_ & Hb & Hs). unfold MAXVA, PGSIZE in *. lia.
  - intros w b k fs (-> & Hb & Hs). eexists _, _. split; [reflexivity |]. split; [| done].
    cbn. by rewrite Z.add_0_r, Nat.add_0_r.
  - intros w b k fs (-> & Hb & Hs). eexists _, _. split; [reflexivity |]. unfold PGSIZE. split; [done | lia].
  - intros w b fs (-> & Hb & Hs). by eexists _, _.
  - intros w b k fs n (-> & Hb & Hs) Hn. unfold PGSIZE in *. eexists _, _. split.
    + unfold os_call, bank_os, bank_call. rewrite (proj2 (Z.eqb_neq _ _)) by (unfold PGSIZE; lia). reflexivity.
    + unfold PGSIZE. rewrite Z.opp_involutive, Z.div_mul, Nat2Z.id by lia. split; [f_equal; lia | lia].
  - intros w b k st k' fs (-> & Hb & Hs). eexists _, _, _. split; [reflexivity |]. split; [lia |]. eexists. split; [reflexivity |].
    change (list_sum (pages_of <$> Ended st k' :: fs)) with (k' + list_sum (pages_of <$> fs))%nat in Hs. lia.
  - intros w b k fs (-> & Hb & Hs). by eexists _, _.
  - intros w b st k' fs (k & -> & Hs). eexists _, _. by split; [reflexivity |].
  - intros w b k fs d (-> & Hs). by eexists _, _.
Qed.

(** All tests pass; all pass but one page is lost; the third fails and the other 61 are not
    run; and the child of the third goes on with [copyinstr1]. *)
Lemma usertests_verdict_witness :
  let start fs := main (Z.to_nat 40000) 0 [] [] [str "usertests"; str "-q"] (mkuproc [] (mkbank 16384 5 fs None)) in
  let verdict ts n k r := exists p', start (ended ts) = UExit n p' /\ bk_free (u_os p') = k /\ bk_todo (u_os p') = ended r in
  verdict (replicate 64 (0, 5%nat)) 0 5%nat [] /\ verdict (replicate 63 (0, 5%nat) ++ [(0, 4%nat)]) 1 4%nat [] /\
  verdict ([(0, 5%nat); (0, 5%nat); (1, 7%nat)] ++ replicate 61 (0, 5%nat)) 1 7%nat (replicate 61 (0, 5%nat)) /\
  exists p', start (ended [(0, 5%nat); (0, 5%nat)] ++ [Child]) = child_outcome (copyinstr1 (str "copyinstr1") p') /\ bk_free (u_os p') = 5%nat.
Proof.
  intros start verdict.
  assert (32768 < Z.of_nat (Z.to_nat 40000)) as Hf by (rewrite Z2Nat.id; lia).
  pose proof (fun ts fs => usertests_verdict bank_pool bank_busy bank_child (Z.to_nat 40000) 0 [] [] [str "usertests"; str "-q"] true
    (mkuproc [] (mkbank 16384 5 fs None)) 16384 5 ts eq_refl Hf) as T.
  assert (forall ts, length ts = 64%nat -> bank_fits 16384 5 (ended ts) ->
    verdict ts (if all_passed ts && (5 <=? left_after 5 ts)%nat then 0 else 1) (left_after 5 (ran ts)) (drop (length (ran ts)) ts)) as V.
  { intros ts Hl Hs. destruct (proj1 (T ts (ended ts)) Hl (conj eq_refl Hs)) as (p' & E & Hw & _). exists p'. split; [exact E |]. rewrite Hw. split; reflexivity. }
  split; [| split; [| split]]; try (match goal with |- verdict ?ts _ _ _ => refine (V ts eq_refl _) end; vm_compute; split; congruence).
  destruct (proj2 (T [(0, 5%nat); (0, 5%nat)] (ended [(0, 5%nat); (0, 5%nat)] ++ [Child])) (mktest copyinstr1 (str "copyinstr1")) []) as (p' & E & _ & Hk);
    [reflexivity | reflexivity | split; [reflexivity |]; vm_compute; split; congruence |].
  exists p'. split; [exact E | exact Hk].
Defined.
