(* ===== verification/Grind.v ===== *)
(** * Random system calls ([user/grind.c])

    The random generator, the 23 things a grinding process does, the pair of processes
    that do them and the program that starts such pairs for ever.  The numbers the
    generator gives are those of Park and Miller's minimal standard, computed without
    leaving 64 bits. *)
From S2P Require Import Prelude CString User Ulib UserCmds TestLib TestFs.
Local Open Scope Z_scope.

(** ** The generator *)

(** The number returned, which is also the new seed. *)
Definition do_rand (ctx : Z) : Z :=
  let x := ctx mod 0x7ffffffe + 1 in
  let hi := Z.quot x 127773 in
  let lo := Z.rem x 127773 in
  let x := 16807 * lo - 2836 * hi in
  let x := if x <? 0 then x + 0x7fffffff else x in
  x - 1.

Section grind.
Context {W : Type} `{OS tcall W}.
Abbreviation UT := (U tcall W).

(** What a grinding process keeps: the open file, the static buffer, the first break,
    and [rand_next]. *)
Record gstate : Type := mkg { g_fd : Z; g_buf : list Z; g_break0 : Z; g_rand : Z }.

(** ** The things done *)
Definition create (path : list Z) : UT Z := open path CREATE_RW.
Definition touch (path : list Z) : UT unit := let! fd := create path in close fd ;;; uret tt.
Definition grind_fail {A} (msg : list Z) : UT A := die (str "grind: " ++ msg ++ nl) [].
Definition enter_grindir : UT unit :=
  let! r := chdir (str "grindir") in
  when (negb (r =? 0)) (grind_fail (str "chdir grindir failed")).
(** [fork()], the body of the child, which exits, and the check. *)
Definition with_child (child : UT unit) : UT Z :=
  let! pid := fork in
  if pid =? 0 then child ;;; uexit 0
  else when (pid <? 0) (grind_fail (str "fork failed")) ;;; uret pid.

Definition go_break (break0 : Z) : UT unit :=
  let! b := sbrk 0 in
  when (break0 <? b) (let! b := sbrk 0 in sbrk (s32 (- (b - break0))) ;;; uret tt).
Definition go_kill_child : UT unit :=
  let! pid := with_child (touch (str "a")) in
  let! r := chdir (str "../grindir/..") in
  when (negb (r =? 0)) (grind_fail (str "chdir failed")) ;;;
  kill pid 15 ;;;
  wait0 ;;;
  uret tt.
Definition go_kill_self : UT unit :=
  with_child (let! pid := getpid in kill pid 15 ;;; uret tt) ;;;
  wait0 ;;;
  uret tt.
Definition go_pipe : UT unit :=
  let! '(r, fds0, fds1) := pipe in
  when (r <? 0) (grind_fail (str "pipe failed")) ;;;
  with_child
    (fork ;;;
     fork ;;;
     let! n := write fds1 (str "x") in
     when (negb (n =? 1)) (printf (str "grind: pipe write failed" ++ nl) []) ;;;
     let! a := read fds0 1 in
     when (negb (a_ret a =? 1)) (printf (str "grind: pipe read failed" ++ nl) [])) ;;;
  close fds0 ;;;
  close fds1 ;;;
  wait0 ;;;
  uret tt.
Definition go_lost_dir : UT unit :=
  with_child
    (unlink (str "a") ;;;
     mkdir (str "a") ;;;
     chdir (str "a") ;;;
     unlink (str "../a") ;;;
     create (str "x") ;;;
     unlink (str "x") ;;;
     uret tt) ;;;
  wait0 ;;;
  uret tt.
Definition go_check_c : UT unit :=
  unlink (str "c") ;;;
  let! fd1 := create (str "c") in
  when (fd1 <? 0) (grind_fail (str "create c failed")) ;;;
  let! n := write fd1 (str "x") in
  when (negb (n =? 1)) (grind_fail (str "write c failed")) ;;;
  let! a := sys (X (CFstat fd1)) in
  let st := a_data a in
  when (negb (a_ret a =? 0)) (grind_fail (str "fstat failed")) ;;;
  when (negb (st_size st =? 1)) (die (str "grind: fstat reports wrong size %d" ++ nl) [VInt (s32 (st_size st))]) ;;;
  when (200 <? st_ino st) (die (str "grind: fstat reports crazy i-number %d" ++ nl) [VInt (st_ino st)]) ;;;
  close fd1 ;;;
  unlink (str "c") ;;;
  uret tt.

(** [echo hi | cat]: messages go to descriptor 2 and each error has its status. *)
Definition pipeline_fail {A} (msg : list Z) (status : Z) : UT A :=
  fprintf 2 (str "grind: " ++ msg ++ nl) [] ;;; uexit status.
Definition pipeline_echo (aa0 aa1 bb0 bb1 : Z) : UT unit :=
  close bb0 ;;;
  close bb1 ;;;
  close aa0 ;;;
  close 1 ;;;
  let! r := dup aa1 in
  when (negb (r =? 1)) (pipeline_fail (str "dup failed") 1) ;;;
  close aa1 ;;;
  exec (str "grindir/../echo") [str "echo"; str "hi"] ;;;
  pipeline_fail (str "echo: not found") 2.
Definition pipeline_cat (aa0 aa1 bb0 bb1 : Z) : UT unit :=
  close aa1 ;;;
  close bb0 ;;;
  close 0 ;;;
  let! r := dup aa0 in
  when (negb (r =? 0)) (pipeline_fail (str "dup failed") 4) ;;;
  close aa0 ;;;
  close 1 ;;;
  let! r := dup bb1 in
  when (negb (r =? 1)) (pipeline_fail (str "dup failed") 5) ;;;
  close bb1 ;;;
  exec (str "/cat") [str "cat"] ;;;
  pipeline_fail (str "cat: not found") 6.
(** A byte of [buf] after a read of it. *)
Definition read_byte (fd : Z) : UT Z := let! a := read fd 1 in uret (nth 0 (fill [0] a) 0).
Definition go_pipeline : UT unit :=
  let! '(r, aa0, aa1) := pipe in
  when (r <? 0) (pipeline_fail (str "pipe failed") 1) ;;;
  let! '(r, bb0, bb1) := pipe in
  when (r <? 0) (pipeline_fail (str "pipe failed") 1) ;;;
  let! pid1 := fork in
  if pid1 =? 0 then pipeline_echo aa0 aa1 bb0 bb1
  else if pid1 <? 0 then pipeline_fail (str "fork failed") 3 else
  let! pid2 := fork in
  if pid2 =? 0 then pipeline_cat aa0 aa1 bb0 bb1
  else if pid2 <? 0 then pipeline_fail (str "fork failed") 7 else
  close aa0 ;;;
  close aa1 ;;;
  close bb1 ;;;
  let! c0 := read_byte bb0 in
  let! c1 := read_byte bb0 in
  let! c2 := read_byte bb0 in
  let buf := [c0; c1; c2; 0] in
  close bb0 ;;;
  let! '(_, st1) := wait in
  let! '(_, st2) := wait in
  let! c := ulift (Ulib.strcmp buf (str "hi" ++ nl ++ [0])) in
  when (negb (st1 =? 0) || negb (st2 =? 0) || negb (c =? 0))
    (die (str "grind: exec pipeline failed %d %d " ++ [34] ++ str "%s" ++ [34] ++ nl)
       [VInt st1; VInt st2; VStr (Some (cstr buf))]).

(** One thing: the open file and the buffer afterwards. *)
Definition go_step (what : Z) (g : gstate) : UT gstate :=
  let same (m : UT unit) := m ;;; uret g in
  let reopen (path : list Z) :=
    close (g_fd g) ;;; let! fd := create path in uret (mkg fd (g_buf g) (g_break0 g) (g_rand g)) in
  match what with
  | 1 => same (touch (str "grindir/../a"))
  | 2 => same (touch (str "grindir/../grindir/../b"))
  | 3 => same (unlink (str "grindir/../a") ;;; uret tt)
  | 4 => same (enter_grindir ;;; unlink (str "../b") ;;; chdir (str "/") ;;; uret tt)
  | 5 => reopen (str "/grindir/../a")
  | 6 => reopen (str "/./grindir/./../b")
  | 7 => same (write (g_fd g) (g_buf g) ;;; uret tt)
  | 8 => let! a := read (g_fd g) 999 in uret (mkg (g_fd g) (fill (g_buf g) a) (g_break0 g) (g_rand g))
  | 9 => same (mkdir (str "grindir/../a") ;;; touch (str "a/../a/./a") ;;; unlink (str "a/a") ;;; uret tt)
  | 10 => same (mkdir (str "/../b") ;;; touch (str "grindir/../b/b") ;;; unlink (str "b/b") ;;; uret tt)
  | 11 => same (unlink (str "b") ;;; link (str "../grindir/./../a") (str "../b") ;;; uret tt)
  | 12 => same (unlink (str "../grindir/../a") ;;; link (str ".././b") (str "/grindir/../a") ;;; uret tt)
  | 13 => same (with_child (uret tt) ;;; wait0 ;;; uret tt)
  | 14 => same (with_child (fork ;;; fork ;;; uret tt) ;;; wait0 ;;; uret tt)
  | 15 => same (sbrk 6011 ;;; uret tt)
  | 16 => same (go_break (g_break0 g))
  | 17 => same go_kill_child
  | 18 => same go_kill_self
  | 19 => same go_pipe
  | 20 => same go_lost_dir
  | 21 => same go_check_c
  | 22 => same go_pipeline
  | _ => uret g
  end.

(** [while(1)]: the fuel bounds the iterations observed. *)
Fixpoint go_loop (fuel : nat) (which_child : Z) (iters : Z) (g : gstate) : UT unit :=
  match fuel with
  | O => ufuel
  | S k =>
      let iters := u64 (iters + 1) in
      when (iters mod 500 =? 0) (write 1 (if istrue which_child then str "B" else str "A") ;;; uret tt) ;;;
      let x := do_rand (g_rand g) in
      let! g := go_step (Z.rem x 23) (mkg (g_fd g) (g_buf g) (g_break0 g) x) in
      go_loop k which_child iters g
  end.
Definition go (fuel : nat) (which_child rand_next : Z) : UT unit :=
  let! break0 := sbrk 0 in
  mkdir (str "grindir") ;;;
  enter_grindir ;;;
  chdir (str "/") ;;;
  go_loop fuel which_child 0 (mkg (-1) (zeroes 999) break0 rand_next).

(** ** The processes *)
(** [int st = -1; wait(&st);] *)
Definition wait_status : UT Z := let! a := sys (X CWait) in uret (nth 0 (a_data a) (-1)).
Definition iter (fuel : nat) (rand_next : Z) : UT unit :=
  unlink (str "a") ;;;
  unlink (str "b") ;;;
  let! pid1 := fork in
  when (pid1 <? 0) (grind_fail (str "fork failed")) ;;;
  when (pid1 =? 0) (go fuel 0 (Z.lxor rand_next 31) ;;; uexit 0) ;;;
  let! pid2 := fork in
  when (pid2 <? 0) (grind_fail (str "fork failed")) ;;;
  when (pid2 =? 0) (go fuel 1 (Z.lxor rand_next 7177) ;;; uexit 0) ;;;
  let! st1 := wait_status in
  when (negb (st1 =? 0)) (kill pid1 15 ;;; kill pid2 15 ;;; uret tt) ;;;
  wait_status ;;;
  uexit 0.
Fixpoint main_loop (fuel : nat) (rand_next : Z) : UT unit :=
  match fuel with
  | O => ufuel
  | S k =>
      let! pid := fork in
      when (pid =? 0) (iter k rand_next ;;; uexit 0) ;;;
      when (0 <? pid) (wait0 ;;; uret tt) ;;;
      pause 20 ;;;
      main_loop k (u64 (rand_next + 1))
  end.
Definition main (fuel : nat) : UT unit := main_loop fuel 1.
End grind.

(** ** The generator is the minimal standard *)

(** Multiplication by 7^5 modulo the prime 2^31 - 1. *)
Definition minstd (x : Z) : Z := (16807 * x) mod (2 ^ 31 - 1).

(** Schrage's decomposition: the multiple modulo 2^31 - 1 without a large product. *)
Lemma schrage x : 0 < x < 2 ^ 31 - 1 ->
  let t := 16807 * (x mod 127773) - 2836 * (x / 127773) in
  - (2 ^ 31 - 1) < t < 2 ^ 31 - 1 /\ minstd x = if t <? 0 then t + (2 ^ 31 - 1) else t.
Proof.
  intros Hx t. pose proof (Z.div_mod x 127773 ltac:(lia)) as E. pose proof (Z.mod_pos_bound x 127773 ltac:(lia)) as Hm.
  assert (0 <= x / 127773 < 16808) as Hd by (split; [apply Z.div_pos; lia | apply Z.div_lt_upper_bound; lia]).
  assert (- (2 ^ 31 - 1) < t < 2 ^ 31 - 1) as Ht by (unfold t; lia). split; [done |].
  unfold minstd. symmetry. destruct (Z.ltb_spec t 0).
  - apply (Z.mod_unique_pos _ _ (x / 127773 - 1)); [lia |]. unfold t in *. lia.
  - apply (Z.mod_unique_pos _ _ (x / 127773)); [lia |]. unfold t in *. lia.
Qed.

(** The next value is never 0: the modulus is prime. *)
Lemma minstd_range x : 0 < x < 2 ^ 31 - 1 -> 0 < minstd x < 2 ^ 31 - 1.
Proof.
  intros Hx. unfold minstd. pose proof (Z.mod_pos_bound (16807 * x) (2 ^ 31 - 1) ltac:(lia)) as Hm.
  assert ((16807 * x) mod (2 ^ 31 - 1) <> 0); [| lia]. intros E.
  apply Z.mod_divide in E; [| lia]. apply Z.gauss in E; [| by vm_compute].
  apply Z.divide_pos_le in E; lia.
Qed.

Lemma do_rand_eq ctx : do_rand ctx = minstd (ctx mod 0x7ffffffe + 1) - 1.
Proof.
  pose proof (Z.mod_pos_bound ctx 0x7ffffffe ltac:(lia)) as Hm. unfold do_rand.
  rewrite Z.quot_div_nonneg, Z.rem_mod_nonneg by lia.
  by rewrite (proj2 (schrage (ctx mod 0x7ffffffe + 1) ltac:(lia))).
Qed.

(** [n] numbers of a sequence of calls. *)
Fixpoint rands (n : nat) (ctx : Z) : list Z :=
  match n with O => [] | S k => do_rand ctx :: rands k (do_rand ctx) end.

Lemma rands_minstd n : forall ctx, rands n ctx = (fun i => Nat.iter (S i) minstd (ctx mod 0x7ffffffe + 1) - 1) <$> seq 0 n.
Proof.
  induction n as [| n IH]; intros ctx; [done |]. cbn [rands seq fmap list_fmap]. rewrite IH, (do_rand_eq ctx).
  pose proof (Z.mod_pos_bound ctx 0x7ffffffe ltac:(lia)) as Hm.
  pose proof (minstd_range (ctx mod 0x7ffffffe + 1) ltac:(lia)) as Hr.
  rewrite (Z.mod_small (minstd _ - 1)), Z.sub_add by lia. f_equal.
  rewrite <- fmap_S_seq, <- list_fmap_compose. apply list_fmap_ext. intros i y _. cbn [compose].
  by rewrite (Nat.iter_succ_r (S y)).
Qed.

(** C35: the generator of grind is Park and Miller's minimal standard.  For every seed,
    do_rand returns [7^5 x mod (2^31 - 1) - 1] where [x] is the seed brought to the range 1
    to 2^31 - 2; the result is from 0 to 2^31 - 3, so it fits an [int] and the next thing to
    do is from 0 to 22; and neither product nor their difference leaves 32 bits.  Called
    again and again it gives the successive values of the sequence, each less one. *)
Theorem do_rand_minstd ctx n :
  let x := ctx mod 0x7ffffffe + 1 in
  do_rand ctx = minstd x - 1 /\
  0 <= do_rand ctx <= 0x7ffffffd /\ 0 <= Z.rem (do_rand ctx) 23 < 23 /\
  - 2 ^ 31 < 16807 * Z.rem x 127773 - 2836 * Z.quot x 127773 < 2 ^ 31 /\
  16807 * Z.rem x 127773 < 2 ^ 31 /\ 2836 * Z.quot x 127773 < 2 ^ 31 /\
  rands n ctx = (fun i => Nat.iter (S i) minstd x - 1) <$> seq 0 n.
Proof.
  intros x. pose proof (Z.mod_pos_bound ctx 0x7ffffffe ltac:(lia)) as Hm.
  pose proof (do_rand_eq ctx) as E. fold x in E. pose proof (minstd_range x ltac:(lia)) as Hr.
  pose proof (schrage x ltac:(lia)) as [Ht _].
  rewrite (Z.quot_div_nonneg x), (Z.rem_mod_nonneg x) by lia.
  pose proof (Z.mod_pos_bound x 127773 ltac:(lia)).
  assert (x / 127773 < 16808) by (apply Z.div_lt_upper_bound; lia).
  assert (0 <= x / 127773) by (apply Z.div_pos; lia).
  assert (0 <= Z.rem (do_rand ctx) 23 < 23) by (apply Z.rem_bound_pos; lia).
  repeat split; try lia. apply rands_minstd.
Qed.
