(* ===== verification/Posix.v ===== *)
(** * Programs on a UNIX host

    [mkfs] and the utilities under [src/G25_Project2_1/] run on a UNIX system.  Its
    calls and the stream functions of the C library are calls of an environment, as
    system calls are for the programs of [User]; the string and conversion
    functions of the C library are definitions.  The host is little-endian, with
    32-bit [int] and 64-bit [long]; plain [char] values are bytes. *)
From S2P Require Import Prelude CString User.
Local Open Scope Z_scope.

(** ** Calls

    A null pointer result is a negative [a_ret]; a string or the bytes stored
    through a pointer are [a_data].  A failed call also leaves the message
    [strerror(errno)] in [a_data]. *)
Inductive hcall : Type :=
| HOpen (path : list Z) (flags mode : Z)
| HClose (fd : Z)
| HRead (fd n : Z)
| HWrite (fd : Z) (d : list Z)
| HLseek (fd off whence : Z)
| HRename (old new : list Z)
| HRemove (path : list Z)
| HChdir (path : list Z)
| HGetcwd (size : Z)
| HGetenv (name : list Z)
| HReadlink (path : list Z) (size : Z)
| HAccess (path : list Z) (mode : Z)
| HStat (path : list Z)
| HFork
| HExecvp (file : list Z) (argv : list (list Z))
| HWaitpid (pid : Z)
| HOpendir (path : list Z)
| HReaddir (d : Z)
| HClosedir (d : Z)
| HFopen (path mode : list Z)
| HFclose (f : Z)
| HFgetc (f : Z)
| HPuts (f : Z) (s : list Z)
| HPerror (s : list Z)
| HFflush (f : Z)
| HStrftime (fmt : list Z) (t : Z).

(** The standard streams. *)
Definition stdin : Z := 0.
Definition stdout : Z := 1.
Definition stderr : Z := 2.
Definition EOF : Z := -1.

Definition nl : list Z := [10].

(** ** Conversions of [printf] *)

(** The decimal digits of a number; 64 is enough for 64-bit values. *)
Fixpoint decimal_digits (fuel : nat) (x : Z) (acc : list Z) : list Z :=
  match fuel with
  | O => acc
  | S n =>
      let acc := 48 + x mod 10 :: acc in
      if x / 10 =? 0 then acc else decimal_digits n (x / 10) acc
  end.
(** [%d] and [%ld]. *)
Definition decimal (v : Z) : list Z :=
  if v <? 0 then 45 :: decimal_digits 64 (- v) [] else decimal_digits 64 v [].
(** A minimum field width: blanks on the left. *)
Definition padded (w : nat) (s : list Z) : list Z := replicate (w - length s) 32 ++ s.
(** [%.1f] of [n / d], for a quotient that is exact in a [double]: the exact value
    rounded to one decimal, ties to even. *)
Definition fixed1 (n d : Z) : list Z :=
  let q := n * 10 / d in
  let r := n * 10 mod d in
  let t := if 2 * r <? d then q
           else if d <? 2 * r then q + 1
           else if Z.even q then q else q + 1 in
  decimal (t / 10) ++ [46] ++ decimal (t mod 10).
(** [snprintf] into [size] bytes. *)
Definition snprintf (size : nat) (s : list Z) : list Z := take (size - 1) s.

(** ** String functions of the C library *)
Definition streq (a b : list Z) : bool := bool_decide (a = b).
Definition memb (l : list Z) (c : Z) : bool := existsb (Z.eqb c) l.
Fixpoint is_prefix (p l : list Z) : bool :=
  match p, l with
  | [], _ => true
  | a :: p', b :: l' => (a =? b) && is_prefix p' l'
  | _ :: _, [] => false
  end.
(** [strstr(l, p) != NULL]. *)
Fixpoint strstr (l p : list Z) : bool :=
  is_prefix p l || match l with [] => false | _ :: r => strstr r p end.
(** [strtok] on what is left of its string: the token, and what is left after the
    separator that ends it; [None] is the null pointer. *)
Fixpoint tok_end (sep : list Z) (s : list Z) : list Z * list Z :=
  match s with
  | [] => ([], [])
  | c :: r => if memb sep c then ([], r) else let '(t, rest) := tok_end sep r in (c :: t, rest)
  end.
Fixpoint strtok (sep : list Z) (s : list Z) : option (list Z * list Z) :=
  match s with
  | [] => None
  | c :: r => if memb sep c then strtok sep r else Some (tok_end sep s)
  end.
(** [isspace] and [tolower] in the C locale. *)
Definition isspace (c : Z) : bool := (c =? 32) || ((9 <=? c) && (c <=? 13)).
Definition tolower (c : Z) : Z := if (65 <=? c) && (c <=? 90) then c + 32 else c.

(** ** Streams *)
Section posix.
Context {W : Type} `{OS hcall W}.
Abbreviation UH := (U hcall W).

Definition hcall_ret (c : hcall) : UH Z := let! a := sys c in uret (a_ret a).
Definition hdo (c : hcall) : UH unit := sys c ;;; uret tt.
Definition puts (s : list Z) : UH unit := hdo (HPuts stdout s).
Definition eputs (s : list Z) : UH unit := hdo (HPuts stderr s).
(** A failed assertion kills the process, as a fault does. *)
Definition assert (b : bool) : UH unit := if b then uret tt else ufault.

(** [fgets(buf, size, f)]: characters up to a newline, the end of the file, or
    [size - 1] of them; [None] if there is none.  [k] is the room left. *)
Fixpoint fgets_loop (k : nat) (f : Z) : UH (list Z) :=
  match k with
  | O => uret []
  | S k' =>
      let! c := hcall_ret (HFgetc f) in
      if c =? EOF then uret [] else
      if c =? 10 then uret [c] else
      let! r := fgets_loop k' f in
      uret (c :: r)
  end.
Definition fgets (size : nat) (f : Z) : UH (option (list Z)) :=
  let! l := fgets_loop (size - 1) f in
  uret (match l with [] => None | _ => Some l end).
End posix.

(** ** What programs rely on *)

(** What a process put on a stream. *)
Definition shown (f : Z) (t : list hcall) : list Z :=
  concat (omap (fun c => match c with HPuts g s => if g =? f then Some s else None | _ => None end) t).
(** What it wrote to a descriptor. *)
Definition hwritten (fd : Z) (t : list hcall) : list Z :=
  concat (omap (fun c => match c with HWrite g s => if g =? fd then Some s else None | _ => None end) t).

Lemma shown_app f t t' : shown f (t ++ t') = shown f t ++ shown f t'.
Proof. unfold shown. by rewrite omap_app, concat_app. Qed.
Lemma hwritten_app fd t t' : hwritten fd (t ++ t') = hwritten fd t ++ hwritten fd t'.
Proof. unfold hwritten. by rewrite omap_app, concat_app. Qed.

(** Calls that leave every input stream as it is. *)
Definition aside (x : hcall) : Prop :=
  match x with
  | HFgetc _ | HFopen _ _ | HFclose _ | HRead _ _ | HWrite _ _ | HLseek _ _ _ | HOpen _ _ _ | HClose _ => False
  | _ => True
  end.
(** An input stream: [left w c] says that [c] are the bytes not read yet.  [fgetc]
    takes them one by one and then reports the end; calls that do not read or write
    files through it leave it alone. *)
Class InStream {W} `{OS hcall W} (f : Z) (left : W -> list Z -> Prop) : Prop := {
  fgetc_law : forall w b c, left w (b :: c) -> exists w' d,
    os_call (HFgetc f) w = (mkanswer b d, w') /\ left w' c;
  fgetc_end : forall w, left w [] -> exists w' d, os_call (HFgetc f) w = (mkanswer EOF d, w') /\ left w' [];
  aside_law : forall w c x, left w c -> aside x -> exists a w', os_call x w = (a, w') /\ left w' c;
}.

Section lemmas.
Context {W : Type} `{OS hcall W}.

Lemma hcall_eq c (p : uproc hcall W) a w :
  os_call c (u_os p) = (a, w) -> hcall_ret c p = URet (a_ret a) (mkuproc (u_trace p ++ [c]) w).
Proof. intros E. unfold hcall_ret. by rewrite (ubind_ret _ _ _ _ _ (sys_eq _ _ _ _ E)). Qed.
Lemma hdo_eq c (p : uproc hcall W) : exists w, hdo c p = URet tt (mkuproc (u_trace p ++ [c]) w).
Proof.
  destruct (os_call c (u_os p)) as [a w] eqn:E. exists w. unfold hdo. by rewrite (ubind_ret _ _ _ _ _ (sys_eq _ _ _ _ E)).
Qed.

Context (f : Z) (left : W -> list Z -> Prop) `{!InStream f left}.

(** A call on the side keeps the rest of the stream. *)
Lemma aside_eq x c (p : uproc hcall W) : left (u_os p) c -> aside x ->
  exists p' a, sys x p = URet a p' /\ left (u_os p') c /\ u_trace p' = u_trace p ++ [x].
Proof.
  intros Hl Hx. destruct (aside_law (f := f) (u_os p) c x Hl Hx) as (a & w' & E & Hl').
  exists (mkuproc (u_trace p ++ [x]) w'), a. by rewrite (sys_eq _ _ _ _ E).
Qed.
(** Printing keeps it and adds to the output. *)
Lemma puts_eq s c (p : uproc hcall W) : left (u_os p) c ->
  exists p', puts s p = URet tt p' /\ left (u_os p') c /\ shown stdout (u_trace p') = shown stdout (u_trace p) ++ s.
Proof.
  intros Hl. destruct (aside_eq (HPuts stdout s) c p Hl I) as (p' & a & E & Hl' & Ht). exists p'.
  unfold puts, hdo. rewrite (ubind_ret _ _ _ _ _ E). split; [done |]. split; [done |].
  rewrite Ht, shown_app. unfold shown at 2. cbn. by rewrite app_nil_r.
Qed.
(** Reading a character. *)
Lemma fgetc_eq c (p : uproc hcall W) : left (u_os p) c ->
  exists p', hcall_ret (HFgetc f) p = URet (default EOF (head c)) p' /\ left (u_os p') (tail c) /\
    shown stdout (u_trace p') = shown stdout (u_trace p).
Proof.
  intros Hl. assert (forall w', shown stdout (u_trace (mkuproc (u_trace p ++ [HFgetc f]) w' : uproc hcall W)) = shown stdout (u_trace p)) as Hs.
  { intros w'. cbn [u_trace]. rewrite shown_app. by rewrite app_nil_r. }
  destruct c as [| b c].
  - destruct (fgetc_end _ Hl) as (w' & d & E & Hl'). eexists. rewrite (hcall_eq _ _ _ _ E). split; [done |]. split; [done | apply Hs].
  - destruct (fgetc_law _ _ _ Hl) as (w' & d & E & Hl'). eexists. rewrite (hcall_eq _ _ _ _ E). split; [done |]. split; [done | apply Hs].
Qed.
End lemmas.

(** Past a call whose answer is not used. *)
Ltac hdo_step :=
  match goal with
  | |- context [ubind (hdo ?c) _ ?p] =>
      let w := fresh "w" in let E := fresh "E" in
      destruct (hdo_eq c p) as [w E]; rewrite (ubind_ret _ _ _ _ _ E); clear E; cbn [u_trace]
  end.

(** A host with one input stream, for examples. *)
Definition reel : Type := list Z.
Definition reel_call (c : hcall) (w : reel) : answer * reel :=
  match c with
  | HFgetc _ => match w with [] => (mkanswer EOF [], []) | b :: r => (mkanswer b [], r) end
  | _ => (mkanswer 0 [], w)
  end.
#[export] Instance reel_os : OS hcall reel | 100 := reel_call.
#[export] Instance reel_stream f : InStream f (fun (w : reel) c => w = c).
Proof.
  split.
  - intros w b c ->. by exists c, [].
  - intros w ->. by exists [], [].
  - intros w c x -> Hx. by destruct x; try done; exists (mkanswer 0 []), c.
Qed.

(** ** The string functions against their meaning *)
Lemma memb_spec l c : memb l c = true <-> c ∈ l.
Proof.
  unfold memb. rewrite existsb_exists. split.
  - intros (x & Hx & E). apply Z.eqb_eq in E as ->. by apply list_elem_of_In.
  - intros Hx. exists c. split; [by apply list_elem_of_In | apply Z.eqb_refl].
Qed.
Lemma is_prefix_spec p : forall l, is_prefix p l = true <-> exists r, l = p ++ r.
Proof.
  induction p as [| a p IH]; intros l; cbn [is_prefix]; [split; [by exists l | done] |].
  destruct l as [| b l]; [split; [done | by intros [r E]] |]. rewrite andb_true_iff, Z.eqb_eq, IH. split.
  - intros [-> [r ->]]. by exists r.
  - intros [r E]. injection E as -> ->. split; [done | by exists r].
Qed.
Lemma strstr_spec l p : strstr l p = true <-> exists a b, l = a ++ p ++ b.
Proof.
  induction l as [| c r IH]; cbn [strstr]; rewrite orb_true_iff, is_prefix_spec.
  - split; [intros [[b E] | E]; [by exists [], b | done] |].
    intros (a & b & E). left. destruct a; [by exists b | done].
  - rewrite IH. split.
    + intros [[b E] | (a & b & ->)]; [by exists [], b | by exists (c :: a), b].
    + intros (a & b & E). destruct a as [| x a]; [left; by exists b | right]. injection E as -> ->. by exists a, b.
Qed.

Lemma tok_end_spec sep s : let '(t, rest) := tok_end sep s in
  Forall (fun c => memb sep c = false) t /\ (length rest <= length s)%nat /\
  (s = t /\ rest = [] \/ exists c, s = t ++ c :: rest /\ memb sep c = true).
Proof.
  induction s as [| c r IH]; [by split; [constructor | auto] |]. cbn [tok_end].
  destruct (memb sep c) eqn:E.
  - split; [constructor |]. split; [cbn; lia |]. right. by exists c.
  - destruct (tok_end sep r) as [t rest]. destruct IH as (Ht & Hl & Hs). split; [by constructor |]. split; [cbn; lia |].
    destruct Hs as [[-> ->] | (d & -> & Hd)]; [by left | right; by exists d].
Qed.
(** Successive calls of [strtok] return the fields of the string. *)
Lemma strtok_fields sep s :
  match strtok sep s with
  | None => fields (memb sep) s = []
  | Some (t, rest) => fields (memb sep) s = t :: fields (memb sep) rest /\ (length rest < length s)%nat
  end.
Proof.
  induction s as [| c r IH]; [done |]. cbn [strtok]. destruct (memb sep c) eqn:E.
  - cbn [fields]. rewrite E. destruct (strtok sep r) as [[t rest] |]; [| done]. destruct IH as [-> Hl]. split; [done | cbn; lia].
  - pose proof (tok_end_spec sep (c :: r)) as Ht. assert (fst (tok_end sep (c :: r)) <> []) as Hne.
    { cbn [tok_end]. rewrite E. by destruct (tok_end sep r). }
    destruct (tok_end sep (c :: r)) as [t rest]. destruct Ht as (Ht & Hl & Hs). cbn [fst] in Hne. split.
    + eapply splits_det; [apply fields_splits |]. destruct Hs as [[-> ->] | (d & -> & Hd)].
      * rewrite <- (app_nil_r t) at 1. apply splits_field; [done | done | done | constructor].
      * apply splits_field; [done | done | by intros ? ? [= <- _] |]. constructor; [done | apply fields_splits].
    + destruct Hs as [[-> ->] | (d & -> & Hd)]; [destruct t; [done | cbn; lia] | rewrite length_app; destruct t; [done | cbn; lia]].
Qed.
