(* ===== verification/Mkfs.v ===== *)
(** * The file-system image builder ([mkfs/mkfs.c])

    [mkfs] runs on the host and writes the initial disk: superblock, empty log,
    inodes, bitmap, and the files named on its command line, in the layout the
    kernel's [fs.c] expects.  The image is the file behind descriptor [fsfd]; the
    on-disk structures are those of [Fs].  In-memory structures of the host are in
    little-endian order, so [xshort] and [xint] change nothing there. *)
From S2P Require Import Prelude Kstate Bytes CString Virtio Fs User Posix.
Local Open Scope Z_scope.

(** ** Constants and globals *)
Definition NINODES : Z := 200.
Definition nbitmap : Z := FSSIZE / BPB + 1.
Definition ninodeblocks : Z := NINODES / IPB + 1.
Definition nlog : Z := LOGBLOCKS + 1.
Definition nmeta : Z := 2 + nlog + ninodeblocks + nbitmap.
Definition nblocks : Z := FSSIZE - nmeta.
Definition zeroes : list Z := replicate (Z.to_nat BSIZE) 0.

(** The variables of the program. *)
Record mk : Type := mkmk { m_fsfd : Z; m_sb : superblock; m_freeinode : Z; m_freeblock : Z }.

Definition xshort (x : Z) : Z := le_get 2 [u8 x; u8 (Z.shiftr x 8)].
Definition xint (x : Z) : Z := le_get 4 [u8 x; u8 (Z.shiftr x 8); u8 (Z.shiftr x 16); u8 (Z.shiftr x 24)].

(** A [struct dirent] and a [struct superblock] as bytes. *)
Definition dirent (inum : Z) (name : list Z) : list Z :=
  le_put 2 inum ++ name ++ replicate (DIRSIZ - length name) 0.
Definition sb_bytes (sb : superblock) : list Z :=
  flat_map (le_put 4) [sb_magic sb; sb_size sb; sb_nblocks sb; sb_ninodes sb; sb_nlog sb;
                       sb_logstart sb; sb_inodestart sb; sb_bmapstart sb].

Section mkfs.
Context {W : Type} `{OS hcall W}.
Abbreviation UH := (U hcall W).

Definition die {A} (s : list Z) : UH A := hdo (HPerror s) ;;; uexit 1.

(** ** Sectors *)
Definition wsect (fsfd sec : Z) (buf : list Z) : UH unit :=
  let! r := hcall_ret (HLseek fsfd (u32 (sec * BSIZE)) 0) in
  if negb (r =? u32 (sec * BSIZE)) then die (str "lseek") else
  let! r := hcall_ret (HWrite fsfd buf) in
  if negb (r =? BSIZE) then die (str "write") else uret tt.
Definition rsect (fsfd sec : Z) : UH (list Z) :=
  let! r := hcall_ret (HLseek fsfd (u32 (sec * BSIZE)) 0) in
  if negb (r =? u32 (sec * BSIZE)) then die (str "lseek") else
  let! a := sys (HRead fsfd BSIZE) in
  if negb (a_ret a =? BSIZE) then die (str "read") else uret (a_data a).

(** ** Inodes *)
Definition winode (g : mk) (inum : Z) (ip : dinode) : UH unit :=
  let bn := IBLOCK inum (m_sb g) in
  let! buf := rsect (m_fsfd g) bn in
  wsect (m_fsfd g) bn (write_dinode buf (dinode_off inum) ip).
Definition rinode (g : mk) (inum : Z) : UH dinode :=
  let bn := IBLOCK inum (m_sb g) in
  let! buf := rsect (m_fsfd g) bn in
  uret (read_dinode buf (dinode_off inum)).

Definition ialloc (g : mk) (type : Z) : UH (mk * Z) :=
  let inum := m_freeinode g in
  let g := mkmk (m_fsfd g) (m_sb g) (u32 (m_freeinode g + 1)) (m_freeblock g) in
  let din := mkdinode (xshort type) 0 0 (xshort 1) (xint 0) (replicate (S NDIRECT) 0) in
  winode g inum din ;;;
  uret (g, inum).

(** ** The bitmap *)
Fixpoint balloc_bits (n : nat) (i : Z) (buf : list Z) : list Z :=
  match n with
  | O => buf
  | S k => balloc_bits k (i + 1) (set_bit buf i)
  end.
Definition balloc (g : mk) (used : Z) : UH unit :=
  puts (str "balloc: first " ++ decimal used ++ str " blocks have been allocated" ++ nl) ;;;
  assert (used <? BPB) ;;;
  let buf := balloc_bits (Z.to_nat used) 0 zeroes in
  puts (str "balloc: write bitmap block at sector " ++ decimal (s32 (sb_bmapstart (m_sb g))) ++ nl) ;;;
  wsect (m_fsfd g) (sb_bmapstart (m_sb g)) buf.

(** ** Appending to a file *)

(** [freeblock++]. *)
Definition next_block (g : mk) : mk * Z :=
  (mkmk (m_fsfd g) (m_sb g) (m_freeinode g) (u32 (m_freeblock g + 1)), m_freeblock g).
Definition set_addr (din : dinode) (i : nat) (b : Z) : dinode :=
  mkdinode (di_type din) (di_major din) (di_minor din) (di_nlink din) (di_size din) (<[i := b]> (di_addrs din)).
Definition set_size (din : dinode) (sz : Z) : dinode :=
  mkdinode (di_type din) (di_major din) (di_minor din) (di_nlink din) sz (di_addrs din).

(** The disk block of block [fbn] of the file, allocated if need be. *)
Definition iappend_block (g : mk) (din : dinode) (fbn : Z) : UH (mk * dinode * Z) :=
  if fbn <? Z.of_nat NDIRECT then
    let i := Z.to_nat fbn in
    let '(g, din) :=
      if xint (default 0 (di_addrs din !! i)) =? 0 then
        let '(g, b) := next_block g in (g, set_addr din i (xint b))
      else (g, din) in
    uret (g, din, xint (default 0 (di_addrs din !! i)))
  else
    let '(g, din) :=
      if xint (default 0 (di_addrs din !! NDIRECT)) =? 0 then
        let '(g, b) := next_block g in (g, set_addr din NDIRECT (xint b))
      else (g, din) in
    let ind := xint (default 0 (di_addrs din !! NDIRECT)) in
    let! indirect := rsect (m_fsfd g) ind in
    let o := (4 * Z.to_nat (fbn - Z.of_nat NDIRECT))%nat in
    if get32 indirect o =? 0 then
      let '(g, b) := next_block g in
      let indirect := put32 indirect o (xint b) in
      wsect (m_fsfd g) ind indirect ;;;
      uret (g, din, xint (get32 indirect o))
    else uret (g, din, xint (get32 indirect o)).

Fixpoint iappend_loop (fuel : nat) (g : mk) (din : dinode) (off : Z) (p : list Z) : UH (mk * dinode * Z) :=
  match p with
  | [] => uret (g, din, off)
  | _ :: _ =>
      match fuel with
      | O => ufuel
      | S k =>
          let fbn := off / BSIZE in
          assert (fbn <? MAXFILE) ;;;
          let! '(g, din, x) := iappend_block g din fbn in
          let n1 := Z.to_nat (Z.min (Z.of_nat (length p)) (u32 (u32 ((fbn + 1) * BSIZE) - off))) in
          let! buf := rsect (m_fsfd g) x in
          wsect (m_fsfd g) x (patch buf (Z.to_nat (off - fbn * BSIZE)) (take n1 p)) ;;;
          iappend_loop k g din (u32 (off + Z.of_nat n1)) (drop n1 p)
      end
  end.
Definition iappend (g : mk) (inum : Z) (p : list Z) : UH mk :=
  let! din := rinode g inum in
  let off := xint (di_size din) in
  let! '(g, din, off) := iappend_loop (length p) g din off p in
  winode g inum (set_size din (xint off)) ;;;
  uret g.

(** ** The program *)

(** [while((cc = read(fd, buf, sizeof(buf))) > 0) iappend(inum, buf, cc)]. *)
Fixpoint copy_in (fuel : nat) (g : mk) (inum fd : Z) : UH mk :=
  match fuel with
  | O => ufuel
  | S k =>
      let! a := sys (HRead fd BSIZE) in
      if 0 <? a_ret a then
        let! g := iappend g inum (take (Z.to_nat (a_ret a)) (a_data a)) in
        copy_in k g inum fd
      else uret g
  end.

Definition shortname (arg : list Z) : list Z :=
  if is_prefix (str "user/") arg then drop 5 arg else arg.
Definition strip_ (name : list Z) : list Z :=
  match name with c :: r => if c =? 95 then r else name | [] => [] end.

(** The body of the loop over the files. *)
Definition add_file (fuel : nat) (g : mk) (rootino : Z) (arg : list Z) : UH mk :=
  let name := shortname arg in
  assert (negb (memb name 47)) ;;;
  let! fd := hcall_ret (HOpen arg 0 0) in
  if fd <? 0 then die arg else
  let name := strip_ name in
  assert (bool_decide (length name <= DIRSIZ)%nat) ;;;
  let! '(g, inum) := ialloc g T_FILE in
  let! g := iappend g rootino (dirent (xshort inum) name) in
  let! g := copy_in fuel g inum fd in
  hdo (HClose fd) ;;;
  uret g.
Fixpoint add_files (fuel : nat) (g : mk) (rootino : Z) (args : list (list Z)) : UH mk :=
  match args with
  | [] => uret g
  | a :: r => let! g := add_file fuel g rootino a in add_files fuel g rootino r
  end.

Definition mkfs_sb : superblock :=
  mksuperblock FSMAGIC (xint FSSIZE) (xint nblocks) (xint NINODES) (xint nlog) (xint 2)
    (xint (2 + nlog)) (xint (2 + nlog + ninodeblocks)).
(** [O_RDWR|O_CREAT|O_TRUNC] of the host. *)
Definition IMG_FLAGS : Z := 0x242.

Definition mkfs_main (fuel : nat) (argv : list (list Z)) : UH unit :=
  if decide (length argv < 2)%nat then
    eputs (str "Usage: mkfs fs.img files..." ++ nl) ;;; uexit 1
  else
  assert (BSIZE mod 64 =? 0) ;;;
  assert (BSIZE mod 16 =? 0) ;;;
  let image := default [] (argv !! 1%nat) in
  let! fsfd := hcall_ret (HOpen image IMG_FLAGS 438) in
  if fsfd <? 0 then die image else
  let g := mkmk fsfd mkfs_sb 1 nmeta in
  puts (str "nmeta " ++ decimal nmeta ++ str " (boot, super, log blocks " ++ decimal nlog ++
        str ", inode blocks " ++ decimal ninodeblocks ++ str ", bitmap blocks " ++ decimal nbitmap ++
        str ") blocks " ++ decimal nblocks ++ str " total " ++ decimal FSSIZE ++ nl) ;;;
  ueach (seq 0 (Z.to_nat FSSIZE)) (fun i => wsect fsfd (Z.of_nat i) zeroes) ;;;
  wsect fsfd 1 (patch zeroes 0 (sb_bytes (m_sb g))) ;;;
  let! '(g, rootino) := ialloc g T_DIR in
  assert (rootino =? ROOTINO) ;;;
  let! g := iappend g rootino (dirent (xshort rootino) (str ".")) in
  let! g := iappend g rootino (dirent (xshort rootino) (str "..")) in
  let! g := add_files fuel g rootino (drop 2 argv) in
  let! din := rinode g rootino in
  let off := xint (di_size din) in
  let off := u32 ((off / BSIZE + 1) * BSIZE) in
  winode g rootino (set_size din (xint off)) ;;;
  balloc g (s32 (m_freeblock g)) ;;;
  uexit 0.
End mkfs.

(** ** The image behind a descriptor *)

(** What the host promises of the image file: [img w d pos] says that its bytes are
    [d] and its offset is [pos].  A seek moves the offset, reads inside the file are
    complete, writes at or before the end replace or extend it, and printing does
    not touch it. *)
Class ImageFile {W} `{OS hcall W} (fd : Z) (img : W -> list Z -> Z -> Prop) : Prop := {
  seek_law : forall w d pos off, img w d pos -> 0 <= off -> exists a w',
    os_call (HLseek fd off 0) w = (mkanswer off a, w') /\ img w' d off;
  iread_law : forall w d o n, img w d (Z.of_nat o) -> (o + n <= length d)%nat -> exists w',
    os_call (HRead fd (Z.of_nat n)) w = (mkanswer (Z.of_nat n) (take n (drop o d)), w') /\ img w' d (Z.of_nat (o + n));
  iwrite_law : forall w d o b, img w d (Z.of_nat o) -> (o <= length d)%nat -> exists a w',
    os_call (HWrite fd b) w = (mkanswer (Z.of_nat (length b)) a, w') /\ img w' (patch d o b) (Z.of_nat (o + length b));
  iputs_law : forall w d pos g s, img w d pos -> exists a w', os_call (HPuts g s) w = (a, w') /\ img w' d pos;
}.

(** Arithmetic on sizes in blocks. *)
Ltac zdiv := Z.div_mod_to_equations; lia.

Lemma concat_length_1024 (D : list (list Z)) : Forall (fun b => length b = 1024%nat) D -> length (concat D) = (1024 * length D)%nat.
Proof.
  induction 1 as [| b D Hb HD IH]; [done |]. change (concat (b :: D)) with (b ++ concat D). rewrite length_app, IH, Hb.
  cbn [length]. lia.
Qed.
Lemma concat_drop (D : list (list Z)) i : Forall (fun b => length b = 1024%nat) D ->
  drop (1024 * i) (concat D) = concat (drop i D).
Proof.
  intros HD. revert i. induction HD as [| b D Hb HD IH]; intros i; [change (concat []) with (@nil Z); by rewrite !drop_nil |].
  destruct i as [| i]; [done |]. change (concat (b :: D)) with (b ++ concat D).
  replace (1024 * S i)%nat with (length b + 1024 * i)%nat by lia. rewrite drop_app_add. apply IH.
Qed.
Lemma concat_take (D : list (list Z)) i : Forall (fun b => length b = 1024%nat) D ->
  take (1024 * i) (concat D) = concat (take i D).
Proof.
  intros HD. revert i. induction HD as [| b D Hb HD IH]; intros i; [change (concat []) with (@nil Z); by rewrite !take_nil |].
  destruct i as [| i]; [done |]. change (concat (b :: D)) with (b ++ concat D).
  replace (1024 * S i)%nat with (length b + 1024 * i)%nat by lia. rewrite take_app_add. cbn [take]. by rewrite IH.
Qed.
Lemma concat_patch (D : list (list Z)) i b : Forall (fun b => length b = 1024%nat) D -> length b = 1024%nat -> (i < length D)%nat ->
  patch (concat D) (1024 * i) b = concat (<[i := b]> D).
Proof.
  intros HD Hb Hi. unfold patch. rewrite Hb. replace (1024 * i + 1024)%nat with (1024 * S i)%nat by lia.
  rewrite concat_take, concat_drop by done. rewrite insert_take_drop by done. rewrite concat_app. done.
Qed.
Lemma concat_block (D : list (list Z)) i b : Forall (fun b => length b = 1024%nat) D -> D !! i = Some b ->
  take 1024 (drop (1024 * i) (concat D)) = b.
Proof.
  intros HD Hb. rewrite concat_drop by done. rewrite (drop_S _ _ _ Hb).
  change (concat (b :: drop (S i) D)) with (b ++ concat (drop (S i) D)).
  assert (length b = 1024%nat) as <- by (apply (proj1 (Forall_lookup _ _) HD _ _ Hb)). apply take_app_length.
Qed.

Lemma xint_eq x : 0 <= x < 2 ^ 32 -> xint x = x.
Proof.
  intros Hx. unfold xint, u8. rewrite !Z.shiftr_div_pow2 by lia. cbn [le_get].
  change (2 ^ 8) with 256. change (2 ^ 16) with 65536. change (2 ^ 24) with 16777216. zdiv.
Qed.

(** The contents of a block. *)
Definition rd (D : list (list Z)) (b : Z) : list Z := default [] (D !! Z.to_nat b).

Lemma rd_insert_eq D b d : 0 <= b < Z.of_nat (length D) -> rd (<[Z.to_nat b := d]> D) b = d.
Proof. intros Hb. unfold rd. by rewrite list_lookup_insert_eq by lia. Qed.
Lemma rd_insert_ne D b b' d : 0 <= b -> 0 <= b' -> b <> b' -> rd (<[Z.to_nat b := d]> D) b' = rd D b'.
Proof. intros ? ? ?. unfold rd. by rewrite list_lookup_insert_ne by lia. Qed.

Section image.
Context {W : Type} `{OS hcall W} (fd : Z) (img : W -> list Z -> Z -> Prop) `{!ImageFile fd img}.

(** The image file consists of the blocks [D]; block numbers fit the offset
    arithmetic of [wsect] and [rsect]. *)
Definition disk (w : W) (D : list (list Z)) : Prop :=
  (exists pos, img w (concat D) pos) /\ Forall (fun b => length b = 1024%nat) D /\ Z.of_nat (length D) <= 2 ^ 22.

Lemma disk_rd w D b : disk w D -> 0 <= b < Z.of_nat (length D) -> length (rd D b) = 1024%nat.
Proof.
  intros (_ & HD & _) Hb. unfold rd. destruct (lookup_lt_is_Some_2 D (Z.to_nat b) ltac:(lia)) as [d Hd]. rewrite Hd.
  apply (proj1 (Forall_lookup _ _) HD _ _ Hd).
Qed.

Lemma sect_off b : 0 <= b < 2 ^ 22 -> u32 (b * BSIZE) = Z.of_nat (1024 * Z.to_nat b).
Proof. intros Hb. unfold BSIZE. rewrite u32_small by lia. lia. Qed.

Lemma rsect_eq D b (p : uproc hcall W) : disk (u_os p) D -> 0 <= b < Z.of_nat (length D) ->
  exists p', rsect fd b p = URet (rd D b) p' /\ disk (u_os p') D.
Proof.
  intros ((pos & Hi) & HD & HL) Hb. unfold rsect. rewrite sect_off by lia.
  destruct (seek_law _ _ _ (Z.of_nat (1024 * Z.to_nat b)) Hi ltac:(lia)) as (a & w1 & E1 & Hi1).
  rewrite (ubind_ret _ _ _ _ _ (hcall_eq _ _ _ _ E1)). cbn [a_ret]. rewrite Z.eqb_refl. cbn [negb].
  pose proof (concat_length_1024 D HD).
  destruct (iread_law w1 (concat D) (1024 * Z.to_nat b) 1024%nat Hi1 ltac:(lia)) as (w2 & E2 & Hi2).
  rewrite (ubind_ret _ _ _ _ _ (sys_eq _ (mkuproc _ w1) _ _ E2)). change (a_ret _) with BSIZE. rewrite Z.eqb_refl. cbn [negb a_data].
  destruct (lookup_lt_is_Some_2 D (Z.to_nat b) ltac:(lia)) as [d Hd].
  rewrite (concat_block _ _ _ HD Hd). unfold rd. rewrite Hd. eexists. split; [reflexivity |]. split; [by eexists | done].
Qed.

Lemma wsect_eq D b d (p : uproc hcall W) : disk (u_os p) D -> 0 <= b < Z.of_nat (length D) -> length d = 1024%nat ->
  exists p', wsect fd b d p = URet tt p' /\ disk (u_os p') (<[Z.to_nat b := d]> D).
Proof.
  intros ((pos & Hi) & HD & HL) Hb Hd. unfold wsect. rewrite sect_off by lia.
  destruct (seek_law _ _ _ (Z.of_nat (1024 * Z.to_nat b)) Hi ltac:(lia)) as (a & w1 & E1 & Hi1).
  rewrite (ubind_ret _ _ _ _ _ (hcall_eq _ _ _ _ E1)). cbn [a_ret]. rewrite Z.eqb_refl. cbn [negb].
  pose proof (concat_length_1024 D HD).
  destruct (iwrite_law w1 (concat D) (1024 * Z.to_nat b) d Hi1 ltac:(lia)) as (a2 & w2 & E2 & Hi2).
  rewrite (ubind_ret _ _ _ _ _ (hcall_eq _ (mkuproc _ w1) _ _ E2)). cbn [a_ret]. rewrite Hd.
  change (Z.of_nat 1024) with BSIZE. rewrite Z.eqb_refl. cbn [negb].
  rewrite concat_patch in Hi2 by (done || lia). eexists. split; [reflexivity |].
  split; [by eexists |]. rewrite length_insert. split; [| done]. by apply Forall_insert.
Qed.
End image.

(** ** Files of the image *)

(** Blocks of a file of [n] bytes: data blocks, and with the indirect block. *)
Definition nb (n : nat) : nat := (n + 1023) / 1024.
Definition tb (n : nat) : nat := (nb n + if decide (NDIRECT < nb n) then 1 else 0)%nat.

(** The inode [x] lists the data blocks [B]; [ind] is its indirect block or 0. *)
Definition lists (D : list (list Z)) (x : dinode) (B : list Z) (ind : Z) : Prop :=
  length (di_addrs x) = S NDIRECT /\ di_addrs x !! NDIRECT = Some ind /\
  (forall k, (k < NDIRECT)%nat -> di_addrs x !! k = Some (default 0 (B !! k))) /\
  (ind = 0 -> (length B <= NDIRECT)%nat) /\
  (ind <> 0 -> forall k, (k < Z.to_nat NINDIRECT)%nat -> get32 (rd D ind) (4 * k) = default 0 (B !! (NDIRECT + k)%nat)).

(** The blocks [B] hold the bytes [c]. *)
Definition holds (D : list (list Z)) (B : list Z) (c : list Z) : Prop :=
  forall j, (j < length c)%nat -> exists b, B !! (j / 1024)%nat = Some b /\ rd D b !! (j mod 1024)%nat = c !! j.

(** All the blocks of a file. *)
Definition blocks (B : list Z) (ind : Z) : list Z := B ++ (if ind =? 0 then [] else [ind]).

(** A file with contents [c] and blocks for [n] bytes: its blocks are its own,
    allocated below [fb], as many as needed. *)
Definition isfile (D : list (list Z)) (lo fb : Z) (x : dinode) (n : nat) (c B : list Z) (ind : Z) : Prop :=
  lists D x B ind /\ holds D B c /\ NoDup (blocks B ind) /\ Forall (fun b => lo <= b < fb) (blocks B ind) /\
  length B = nb n /\ length (blocks B ind) = tb n /\ dinode_ok x.

(** Blocks from [fb] on have not been used. *)
Definition fresh (D : list (list Z)) (fb : Z) : Prop :=
  forall b, fb <= b < Z.of_nat (length D) -> rd D b = zeroes.

(** The only blocks below [fb] that change are among [L]. *)
Definition keeps (D D' : list (list Z)) (fb : Z) (L : list Z) : Prop :=
  length D' = length D /\ forall b, 0 <= b < fb -> (b ∉ L) -> rd D' b = rd D b.

Lemma holds_frame D D' B B' c : holds D B c -> (forall b, b ∈ B -> rd D' b = rd D b) -> holds D' (B ++ B') c.
Proof.
  intros Hh Hr j Hj. destruct (Hh j Hj) as (b & Hb & Hc). exists b. split.
  - by apply lookup_app_l_Some.
  - rewrite Hr; [done |]. by apply list_elem_of_lookup_2 in Hb.
Qed.

Lemma set_addr_ok x k b : dinode_ok x -> 0 <= b < 2 ^ 32 -> dinode_ok (set_addr x k b).
Proof.
  intros (H1 & H2 & H3 & H4) Hb. split; [done |]. split; [done |]. unfold set_addr. cbn [di_addrs]. rewrite length_insert. split; [done |].
  by apply Forall_insert.
Qed.

(** A new direct block. *)
Lemma lists_direct D x B ind b : lists D x B ind -> (length B < NDIRECT)%nat -> lists D (set_addr x (length B) b) (B ++ [b]) ind.
Proof.
  intros (H1 & H2 & H3 & H4 & H5) Hk. unfold lists, set_addr. cbn [di_addrs]. rewrite length_insert, length_app. cbn [length].
  split; [done |]. split; [by rewrite list_lookup_insert_ne by lia |]. split; [| split; [intros _; lia |]].
  - intros k Hk'. destruct (decide (k = length B)) as [-> | Hne].
    + rewrite list_lookup_insert_eq by (rewrite H1; unfold NDIRECT in *; lia). by rewrite list_lookup_middle by done.
    + rewrite list_lookup_insert_ne by lia. rewrite H3 by lia. f_equal. f_equal.
      destruct (decide (k < length B)%nat); [by rewrite lookup_app_l by lia |].
      rewrite !lookup_ge_None_2 by (rewrite ?length_app; cbn [length]; lia); done.
  - intros Hi k Hk'. rewrite H5 by done. rewrite !lookup_ge_None_2 by (rewrite ?length_app; cbn [length]; lia); done.
Qed.

(** A new indirect block, still empty. *)
Lemma lists_ind D x B b : lists D x B 0 -> b <> 0 -> rd D b = zeroes -> lists D (set_addr x NDIRECT b) B b.
Proof.
  intros (H1 & H2 & H3 & H4 & H5) Hb Hz. unfold lists, set_addr. cbn [di_addrs]. rewrite length_insert.
  split; [done |]. split; [apply list_lookup_insert_eq; rewrite H1; unfold NDIRECT; lia |].
  split; [intros k Hk; rewrite list_lookup_insert_ne by lia; by apply H3 |]. split; [done |].
  intros _ k Hk. rewrite Hz, lookup_ge_None_2 by (specialize (H4 eq_refl); lia).
  cbn [from_option id]. unfold get32, zeroes. rewrite drop_replicate. change (Z.to_nat NINDIRECT) with 256%nat in Hk.
  replace (Z.to_nat BSIZE - 4 * k)%nat with (4 + (1020 - 4 * k))%nat by (change (Z.to_nat BSIZE) with 1024%nat; lia). done.
Qed.

(** A new block in the indirect block. *)
Lemma lists_extend D x B ind b : lists D x B ind -> 0 < ind < Z.of_nat (length D) -> length (rd D ind) = 1024%nat ->
  (NDIRECT <= length B < NDIRECT + Z.to_nat NINDIRECT)%nat -> 0 <= b < 2 ^ 32 ->
  lists (<[Z.to_nat ind := put32 (rd D ind) (4 * (length B - NDIRECT)) b]> D) x (B ++ [b]) ind.
Proof.
  intros (H1 & H2 & H3 & H4 & H5) Hi Hl Hk Hb. change (Z.to_nat NINDIRECT) with 256%nat in H5, Hk. split; [done |]. split; [done |]. split; [| split; [lia |]].
  - intros k Hk'. rewrite H3 by done. by rewrite lookup_app_l by lia.
  - intros _ k Hk'. rewrite rd_insert_eq by lia. change (Z.to_nat NINDIRECT) with 256%nat in Hk'.
    destruct (decide (NDIRECT + k = length B)%nat) as [He | Hne].
    + replace (length B - NDIRECT)%nat with k by lia. rewrite get32_put32 by lia. rewrite Z.mod_small by done.
      by rewrite He, list_lookup_middle.
    + unfold put32. rewrite get32_patch_ne by (rewrite le_put_length, ?Hl; lia). rewrite H5 by lia. f_equal.
      destruct (decide (NDIRECT + k < length B)%nat); [by rewrite lookup_app_l by lia |].
      rewrite !lookup_ge_None_2 by (rewrite ?length_app; cbn [length]; lia); done.
Qed.

Lemma blocks_length B ind : length (blocks B ind) = (length B + if (ind =? 0)%Z then 0 else 1)%nat.
Proof. unfold blocks. rewrite length_app. by destruct (ind =? 0). Qed.
Lemma elem_of_blocks b B ind : b ∈ blocks B ind <-> b ∈ B \/ b = ind /\ ind <> 0.
Proof.
  unfold blocks. rewrite elem_of_app. destruct (Z.eqb_spec ind 0) as [E | E].
  - rewrite elem_of_nil. intuition congruence.
  - rewrite list_elem_of_singleton. intuition congruence.
Qed.
Lemma blocks_NoDup B ind : NoDup (blocks B ind) <-> NoDup B /\ (ind <> 0 -> ind ∉ B).
Proof.
  unfold blocks. destruct (Z.eqb_spec ind 0) as [E | E].
  - rewrite app_nil_r. intuition congruence.
  - rewrite NoDup_app. split.
    + intros (H1 & H2 & _). split; [done |]. intros _ Hi. by apply (H2 _ Hi), list_elem_of_singleton.
    + intros [H1 H2]. split; [done |]. split; [| apply NoDup_singleton]. intros y Hy ->%list_elem_of_singleton. by apply H2.
Qed.

(** The indirect block is there exactly when it is needed. *)
Lemma isfile_ind D lo fb x n c B ind : isfile D lo fb x n c B ind -> (ind = 0 <-> (nb n <= NDIRECT)%nat).
Proof.
  intros (_ & _ & _ & _ & HB & HL & _). rewrite blocks_length in HL. unfold tb in HL.
  destruct (Z.eqb_spec ind 0), (decide (NDIRECT < nb n)%nat); split; intros; try done; lia.
Qed.

(** A file with one more block [b] for room. *)
Lemma isfile_grow D D' lo fb fb' x x' n n' c B ind b ind' :
  isfile D lo fb x n c B ind -> lists D' x' (B ++ [b]) ind' -> (forall b', b' ∈ B -> rd D' b' = rd D b') ->
  (ind' = ind \/ ind = 0 /\ fb <= ind' < fb' /\ ind' <> b) -> fb <= b < fb' -> lo <= fb ->
  nb n' = S (nb n) -> (ind' = 0 <-> (nb n' <= NDIRECT)%nat) -> dinode_ok x' ->
  isfile D' lo fb' x' n' c (B ++ [b]) ind'.
Proof.
  intros (Hl & Hh & Hn & Hf & HB & HL & Hok) Hl' Hr Hi Hb Hlo Hn' Hz Hok'.
  rewrite blocks_NoDup in Hn. destruct Hn as [Hn Hni]. rewrite Forall_forall in Hf.
  assert (forall y, y ∈ B -> lo <= y < fb) as HfB by (intros y Hy; apply Hf, elem_of_blocks; by left).
  split; [done |]. split; [by apply (holds_frame D) |]. split; [| split; [| split; [| split]]].
  - apply blocks_NoDup. split.
    + apply NoDup_app. split; [done |]. split; [| apply NoDup_singleton]. intros y Hy ->%list_elem_of_singleton.
      specialize (HfB b Hy). lia.
    + intros Hne [Hy | Hy%list_elem_of_singleton]%elem_of_app.
      * destruct Hi as [-> | (_ & Hi & _)]; [by apply Hni | specialize (HfB _ Hy); lia].
      * destruct Hi as [-> | (_ & _ & Hi)]; [| done]. specialize (Hf ind). rewrite elem_of_blocks in Hf. lia.
  - apply Forall_forall. intros y [[Hy | ->%list_elem_of_singleton]%elem_of_app | [-> Hne]]%elem_of_blocks.
    + specialize (HfB y Hy). lia.
    + lia.
    + destruct Hi as [-> | (_ & Hi & _)]; [| lia]. specialize (Hf ind). rewrite elem_of_blocks in Hf. lia.
  - rewrite length_app, HB, Hn'. cbn [length]. lia.
  - rewrite blocks_length, length_app, HB. cbn [length]. unfold tb.
    destruct (Z.eqb_spec ind' 0), (decide (NDIRECT < nb n')%nat); lia.
  - done.
Qed.

(** ** The next block of a file *)
Lemma nb_S n : nb (S n) = if decide (n mod 1024 = 0)%nat then S (nb n) else nb n.
Proof.
  unfold nb. pose proof (Nat.div_mod_eq (S n + 1023) 1024). pose proof (Nat.div_mod_eq (n + 1023) 1024).
  pose proof (Nat.div_mod_eq n 1024). pose proof (Nat.mod_upper_bound (S n + 1023) 1024 ltac:(lia)).
  pose proof (Nat.mod_upper_bound (n + 1023) 1024 ltac:(lia)). pose proof (Nat.mod_upper_bound n 1024 ltac:(lia)).
  case_decide; lia.
Qed.
Lemma nb_div n : nb n = (n / 1024 + if decide (n mod 1024 = 0) then 0 else 1)%nat.
Proof.
  unfold nb. pose proof (Nat.div_mod_eq (n + 1023) 1024). pose proof (Nat.mod_upper_bound (n + 1023) 1024 ltac:(lia)).
  pose proof (Nat.div_mod_eq n 1024). pose proof (Nat.mod_upper_bound n 1024 ltac:(lia)). case_decide; lia.
Qed.

(** What an operation on a file may do to the image: from [fb] on it takes blocks,
    it keeps the blocks of other files, and the inode keeps its type and links. *)
Definition header (x : dinode) : Z * Z * Z * Z := (di_type x, di_major x, di_minor x, di_nlink x).
Definition evolves (D : list (list Z)) (fb : Z) (x : dinode) (L : list Z) (D' : list (list Z)) (fb' : Z) (x' : dinode) (L' : list Z) : Prop :=
  fresh D' fb' /\ fb <= fb' /\ keeps D D' fb L /\ (forall b, b ∈ L -> b ∈ L') /\
  (forall b, b ∈ L' -> b ∈ L \/ fb <= b < fb') /\ header x' = header x.

Lemma evolves_refl D fb x L : fresh D fb -> evolves D fb x L D fb x L.
Proof. intros Hf. repeat split; auto; lia. Qed.
Lemma evolves_trans D fb x L D1 fb1 x1 L1 D2 fb2 x2 L2 :
  evolves D fb x L D1 fb1 x1 L1 -> evolves D1 fb1 x1 L1 D2 fb2 x2 L2 -> evolves D fb x L D2 fb2 x2 L2.
Proof.
  intros (A1 & A2 & (A3 & A4) & A5 & A6 & A7) (B1 & B2 & (B3 & B4) & B5 & B6 & B7).
  split; [done |]. split; [lia |]. split; [split; [lia |] | split; [auto | split; [| congruence]]].
  - intros b Hb Hn. rewrite B4, A4; [done | lia | done | lia |]. intros [? | ?]%A6; [done | lia].
  - intros b [[Hb | Hb]%A6 | Hb]%B6; [by left | right; lia | right; lia].
Qed.

Lemma isfile_nb D lo fb x n n' c B ind : nb n = nb n' -> isfile D lo fb x n c B ind -> isfile D lo fb x n' c B ind.
Proof. intros E (H1 & H2 & H3 & H4 & H5 & H6 & H7). unfold isfile, tb in *. rewrite <- E. done. Qed.

Lemma isfile_blocks D lo fb x n c B ind b : isfile D lo fb x n c B ind -> b ∈ blocks B ind -> lo <= b < fb.
Proof. intros (_ & _ & _ & Hf & _) Hb. by apply (proj1 (Forall_forall _ _) Hf). Qed.

(** Writing outside the used blocks keeps the rest. *)
Lemma fresh_insert D fb fb' b d : fresh D fb -> 0 <= fb <= fb' -> 0 <= b < fb' -> fresh (<[Z.to_nat b := d]> D) fb'.
Proof. intros Hf Hfb Hb y Hy. rewrite length_insert in Hy. rewrite rd_insert_ne by lia. apply Hf. lia. Qed.
Lemma keeps_insert D fb L b d : 0 <= b -> b ∈ L \/ fb <= b -> keeps D (<[Z.to_nat b := d]> D) fb L.
Proof.
  intros Hb Hor. split; [by rewrite length_insert |]. intros y Hy Hn. apply rd_insert_ne; [done | lia |].
  intros ->. destruct Hor; [done | lia].
Qed.

Section append.
Context {W : Type} `{OS hcall W} (fd : Z) (img : W -> list Z -> Z -> Prop) `{!ImageFile fd img}.
Context (sb : superblock) (lo : Z).
Abbreviation disk := (disk img).

Definition used_mk (fi fb : Z) : mk := mkmk fd sb fi fb.

(** The result of [iappend_block] for a file of [n] bytes. *)
Definition block_result (D : list (list Z)) (fi fb : Z) (x : dinode) (c B : list Z) (ind : Z) (p : uproc hcall W) : Prop :=
  let n := length c in let fb' := fb + Z.of_nat (tb (S n)) - Z.of_nat (tb n) in
  exists x' D' B' ind' b p',
    iappend_block (used_mk fi fb) x (Z.of_nat (n / 1024)) p = URet (used_mk fi fb', x', b) p' /\ disk (u_os p') D' /\
    isfile D' lo fb' x' (S n) c B' ind' /\ B' !! (n / 1024)%nat = Some b /\
    evolves D fb x (blocks B ind) D' fb' x' (blocks B' ind').

Section step.
Context (D : list (list Z)) (fi fb : Z) (x : dinode) (c B : list Z) (ind : Z) (p : uproc hcall W).
Context (Hd : disk (u_os p) D) (Hf : isfile D lo fb x (length c) c B ind) (Hfr : fresh D fb) (Hlo : 0 < lo <= fb).
Context (Hmax : (length c < 268 * 1024)%nat).
Context (Hroom : fb + Z.of_nat (tb (S (length c))) - Z.of_nat (tb (length c)) <= Z.of_nat (length D)).

Lemma disk_limit : Z.of_nat (length D) <= 2 ^ 22.
Proof. by destruct Hd as (_ & _ & HL). Qed.
Lemma fbn_lt : (length c / 1024 < 268)%nat.
Proof. apply Nat.Div0.div_lt_upper_bound. lia. Qed.
Lemma tb_grow : (tb (length c) <= tb (S (length c)))%nat.
Proof. unfold tb. rewrite nb_S. repeat case_decide; lia. Qed.

(** The last block still has room. *)
Lemma block_inside : (length c mod 1024 <> 0)%nat -> block_result D fi fb x c B ind p.
Proof.
  intros Hm. unfold block_result. cbn zeta. assert (nb (S (length c)) = nb (length c)) as Hnb by (rewrite nb_S, decide_False; done).
  replace (fb + _ - _) with fb by (unfold tb; rewrite Hnb; lia).
  pose proof disk_limit as Hlim. pose proof (isfile_ind _ _ _ _ _ _ _ _ Hf) as Hz. pose proof Hf as ((L1 & L2 & L3 & L4 & L5) & _ & _ & _ & HB & _).
  rewrite nb_div, decide_False in HB by done.
  destruct (lookup_lt_is_Some_2 B (length c / 1024) ltac:(lia)) as [b Hb].
  pose proof (isfile_blocks _ _ _ _ _ _ _ _ b Hf ltac:(apply elem_of_blocks; left; by apply list_elem_of_lookup_2 in Hb)) as Hbr.
  assert (isfile D lo fb x (S (length c)) c B ind) as Hf' by (by apply (isfile_nb _ _ _ _ (length c))).
  assert (fb <= Z.of_nat (length D)) by (pose proof tb_grow; lia).
  unfold iappend_block. change (Z.of_nat NDIRECT) with 12. destruct (Z.ltb_spec (Z.of_nat (length c / 1024)) 12) as [Hk | Hk].
  - rewrite Nat2Z.id, (L3 (length c / 1024)%nat) by (unfold NDIRECT; lia). rewrite Hb. cbn [from_option id].
    rewrite xint_eq, (proj2 (Z.eqb_neq b 0)) by lia. rewrite (L3 (length c / 1024)%nat), Hb by (unfold NDIRECT; lia). cbn [from_option id].
    rewrite xint_eq by lia. eexists x, D, B, ind, b, p. split; [done |]. split; [done |]. split; [done |]. split; [done |]. by apply evolves_refl.
  - assert (ind <> 0) as Hi by (intros E; apply Hz in E; rewrite nb_div, decide_False in E by done; unfold NDIRECT in E; lia).
    pose proof (isfile_blocks _ _ _ _ _ _ _ _ ind Hf ltac:(apply elem_of_blocks; by right)) as Hir.
    rewrite L2. cbn [from_option id]. rewrite xint_eq, (proj2 (Z.eqb_neq ind 0)) by lia. rewrite L2. cbn [from_option id]. rewrite xint_eq by lia.
    destruct (rsect_eq fd img D ind p Hd ltac:(lia)) as (p1 & E1 & Hd1).
    cbn [used_mk m_fsfd]. rewrite (ubind_ret _ _ _ _ _ E1).
    rewrite L5; [| done | pose proof fbn_lt; change (Z.to_nat NINDIRECT) with 256%nat; lia].
    replace (NDIRECT + Z.to_nat (Z.of_nat (length c / 1024) - 12))%nat with (length c / 1024)%nat by (unfold NDIRECT; lia).
    rewrite Hb. cbn [from_option id]. rewrite (proj2 (Z.eqb_neq b 0)), xint_eq by lia.
    eexists x, D, B, ind, b, p1. split; [done |]. split; [done |]. split; [done |]. split; [done |]. by apply evolves_refl.
Qed.

(** A new direct block. *)
Lemma block_direct : (length c mod 1024 = 0)%nat -> (length c / 1024 < NDIRECT)%nat -> block_result D fi fb x c B ind p.
Proof.
  intros Hm Hk. unfold block_result. cbn zeta. assert (nb (S (length c)) = S (nb (length c))) as Hnb by (rewrite nb_S, decide_True; done).
  assert (nb (length c) = (length c / 1024)%nat) as Hnk by (rewrite nb_div, decide_True by done; lia).
  assert (tb (S (length c)) = S (tb (length c))) as Ht by (unfold tb; rewrite Hnb, Hnk, !decide_False by lia; lia).
  replace (fb + _ - _) with (fb + 1) by lia.
  pose proof disk_limit as Hlim. pose proof (isfile_ind _ _ _ _ _ _ _ _ Hf) as Hz. pose proof Hf as ((L1 & L2 & L3 & L4 & L5) & _ & _ & _ & HB & _ & Hok).
  assert (length B = (length c / 1024)%nat) as HB' by lia.
  unfold iappend_block. rewrite (proj2 (Z.ltb_lt _ _)) by lia. rewrite Nat2Z.id, (L3 (length c / 1024)%nat) by done.
  rewrite (lookup_ge_None_2 B) by lia. cbn [from_option id]. change (xint 0 =? 0) with true. cbn [next_block used_mk m_fsfd m_sb m_freeinode m_freeblock].
  rewrite u32_small, xint_eq by lia. cbn [set_addr di_addrs]. rewrite list_lookup_insert_eq by (rewrite L1; lia). cbn [from_option id]. rewrite xint_eq by lia.
  eexists (set_addr x (length c / 1024) fb), D, (B ++ [fb]), ind, fb, p. split; [done |]. split; [done |].
  rewrite <- HB'. split; [| split; [by apply list_lookup_middle |]].
  - apply (isfile_grow D D lo fb (fb + 1) x _ (length c) _ c B ind); try done; try lia; [by apply lists_direct; [| lia] | apply set_addr_ok; [done | lia]].
  - split; [intros y Hy; apply Hfr; lia |]. split; [lia |]. split; [done |]. split; [| split; [| done]]; intros y; rewrite !elem_of_blocks, elem_of_app, list_elem_of_singleton; intros Hy.
    + tauto.
    + destruct Hy as [[Hy | ->] | Hy]; [tauto | lia | tauto].
Qed.

(** The part of [iappend_block] from the indirect block on, when its entry is free. *)
Lemma indirect_tail x1 i1 fb1 : lists D x1 B i1 -> 0 < i1 < Z.of_nat (length D) -> 0 < fb1 < Z.of_nat (length D) ->
  (NDIRECT <= length B < NDIRECT + Z.to_nat NINDIRECT)%nat -> length B = (length c / 1024)%nat ->
  let o := (4 * Z.to_nat (Z.of_nat (length c / 1024) - Z.of_nat NDIRECT))%nat in
  exists p', (let! indirect := rsect fd i1 in
    if get32 indirect o =? 0 then
      let '(g, b) := next_block (used_mk fi fb1) in
      let indirect := put32 indirect o (xint b) in
      wsect (m_fsfd g) i1 indirect ;;;
      uret (g, x1, xint (get32 indirect o))
    else uret (used_mk fi fb1, x1, xint (get32 indirect o))) p = URet (used_mk fi (fb1 + 1), x1, fb1) p' /\
    disk (u_os p') (<[Z.to_nat i1 := put32 (rd D i1) (4 * (length B - NDIRECT)) fb1]> D).
Proof.
  intros Hl Hi Hfb HB HB' o. pose proof disk_limit as Hlim. destruct Hl as (L1 & L2 & L3 & L4 & L5).
  assert (o = (4 * (length B - NDIRECT))%nat) as -> by (unfold o; lia).
  destruct (rsect_eq fd img D i1 p Hd ltac:(lia)) as (p1 & E1 & Hd1). rewrite (ubind_ret _ _ _ _ _ E1).
  rewrite L5, lookup_ge_None_2 by lia. cbn [from_option Z.eqb next_block used_mk m_fsfd m_sb m_freeinode m_freeblock].
  rewrite u32_small, xint_eq by lia. pose proof (disk_rd img _ _ i1 Hd ltac:(lia)) as Hlen.
  assert ((4 * (length B - NDIRECT)) + 4 <= 1024)%nat by (change (Z.to_nat NINDIRECT) with 256%nat in HB; lia).
  destruct (wsect_eq fd img D i1 (put32 (rd D i1) (4 * (length B - NDIRECT)) fb1) p1 Hd1 ltac:(lia)) as (p2 & E2 & Hd2).
  { unfold put32. rewrite patch_length; rewrite ?le_put_length, ?Hlen; lia. }
  rewrite (ubind_ret _ _ _ _ _ E2), get32_put32 by lia. rewrite Z.mod_small, xint_eq by lia. by exists p2.
Qed.

(** A block in a new or an existing indirect block. *)
Lemma block_indirect : (length c mod 1024 = 0)%nat -> (NDIRECT <= length c / 1024)%nat -> block_result D fi fb x c B ind p.
Proof.
  intros Hm Hk. unfold block_result. cbn zeta. assert (nb (S (length c)) = S (nb (length c))) as Hnb by (rewrite nb_S, decide_True; done).
  assert (nb (length c) = (length c / 1024)%nat) as Hnk by (rewrite nb_div, decide_True by done; lia).
  pose proof disk_limit as Hlim. pose proof fbn_lt as Hlt. pose proof (isfile_ind _ _ _ _ _ _ _ _ Hf) as Hz.
  pose proof Hf as (HL & _ & _ & _ & HB & _ & Hok). pose proof HL as (L1 & L2 & L3 & L4 & L5).
  assert (HB' : length B = (length c / 1024)%nat) by lia.
  assert (HBr : (NDIRECT <= length B < NDIRECT + Z.to_nat NINDIRECT)%nat) by (change (Z.to_nat NINDIRECT) with 256%nat; unfold NDIRECT in *; lia).
  assert (Htb : Z.of_nat (tb (S (length c))) - Z.of_nat (tb (length c)) = if decide (ind = 0) then 2 else 1).
  { unfold tb. rewrite Hnb, Hnk. rewrite Hnk in Hz. repeat case_decide; lia. }
  unfold iappend_block. rewrite (proj2 (Z.ltb_ge _ _)) by lia. rewrite L2. cbn [from_option id].
  destruct (decide (ind = 0)) as [-> | Hi].
  - change (xint 0 =? 0) with true. replace (fb + _ - _) with (fb + 1 + 1) by lia. cbn [next_block used_mk m_fsfd m_sb m_freeinode m_freeblock].
    rewrite u32_small, (xint_eq fb) by lia.
    cbn [set_addr di_addrs]. rewrite list_lookup_insert_eq by (rewrite L1; lia). cbn [from_option id]. rewrite xint_eq by lia.
    pose proof (lists_ind D x B fb HL ltac:(lia) (Hfr fb ltac:(lia))) as HL1.
    destruct (indirect_tail (set_addr x NDIRECT fb) fb (fb + 1) HL1 ltac:(lia) ltac:(lia) HBr HB') as (p1 & E1 & Hd1). cbn zeta in E1.
    eexists _, _, (B ++ [fb + 1]), fb, (fb + 1), p1. split; [exact E1 |]. split; [exact Hd1 |]. rewrite <- HB'. split; [| split; [by apply list_lookup_middle |]].
    + apply (isfile_grow D _ lo fb (fb + 1 + 1) x _ (length c) _ c B 0); try done; try lia.
      * apply lists_extend; [done | lia | by rewrite Hfr by lia | done | lia].
      * intros y Hy. apply rd_insert_ne; [lia | |]; pose proof (isfile_blocks _ _ _ _ _ _ _ _ y Hf ltac:(apply elem_of_blocks; by left)); lia.
      * apply set_addr_ok; [done | lia].
    + split; [apply (fresh_insert D fb); [done | lia | lia] |]. split; [lia |]. split; [apply keeps_insert; [lia | right; lia] |].
      split; [| split; [| done]]; intros y; rewrite !elem_of_blocks, elem_of_app, list_elem_of_singleton; intros Hy; [tauto |].
      destruct Hy as [[Hy | ->] | Hy]; [tauto | lia | lia].
  - pose proof (isfile_blocks _ _ _ _ _ _ _ _ ind Hf ltac:(apply elem_of_blocks; by right)) as Hir.
    rewrite xint_eq, (proj2 (Z.eqb_neq ind 0)) by lia. replace (fb + _ - _) with (fb + 1) by lia. rewrite L2. cbn [from_option id]. rewrite xint_eq by lia.
    destruct (indirect_tail x ind fb HL ltac:(lia) ltac:(lia) HBr HB') as (p1 & E1 & Hd1). cbn zeta in E1.
    eexists _, _, (B ++ [fb]), ind, fb, p1. split; [exact E1 |]. split; [exact Hd1 |]. rewrite <- HB'. split; [| split; [by apply list_lookup_middle |]].
    + apply (isfile_grow D _ lo fb (fb + 1) x _ (length c) _ c B ind); try done; try lia.
      * apply lists_extend; [done | lia | apply (disk_rd img _ _ ind Hd); lia | done | lia].
      * intros y Hy. pose proof (isfile_blocks _ _ _ _ _ _ _ _ y Hf ltac:(apply elem_of_blocks; by left)).
        apply rd_insert_ne; [lia | lia |]. intros ->. pose proof Hf as (_ & _ & Hn & _). by apply (proj2 (proj1 (blocks_NoDup _ _) Hn)).
    + split; [apply (fresh_insert D fb); [done | lia | lia] |]. split; [lia |].
      split; [apply keeps_insert; [lia | left; apply elem_of_blocks; by right] |].
      split; [| split; [| done]]; intros y; rewrite !elem_of_blocks, elem_of_app, list_elem_of_singleton; intros Hy; [tauto |].
      destruct Hy as [[Hy | ->] | Hy]; [tauto | lia | tauto].
Qed.

Lemma iappend_block_eq : block_result D fi fb x c B ind p.
Proof.
  destruct (decide (length c mod 1024 = 0)%nat) as [Hm | Hm]; [| by apply block_inside].
  destruct (decide (length c / 1024 < NDIRECT)%nat); [by apply block_direct | apply block_indirect; [done | lia]].
Qed.
End step.
End append.

(** Bytes written after the end of a file, in its last block. *)
Lemma nb_chunk n m : (0 < m)%nat -> (n mod 1024 + m <= 1024)%nat -> nb (n + m) = S (n / 1024).
Proof.
  intros Hm Hr. unfold nb. pose proof (Nat.div_mod_eq n 1024).
  symmetry. apply (Nat.div_unique _ _ _ (n mod 1024 + m - 1)); lia.
Qed.
Lemma isfile_write D lo fb x c B ind b q : isfile D lo fb x (S (length c)) c B ind -> 0 < lo ->
  B !! (length c / 1024)%nat = Some b -> b < Z.of_nat (length D) -> length (rd D b) = 1024%nat ->
  (0 < length q)%nat -> (length c mod 1024 + length q <= 1024)%nat ->
  isfile (<[Z.to_nat b := patch (rd D b) (length c mod 1024) q]> D) lo fb x (length c + length q) (c ++ q) B ind.
Proof.
  intros Hf Hlo Hb Hbd Hlen Hq Hr. set (n := length c) in *. pose proof Hf as ((L1 & L2 & L3 & L4 & L5) & Hh & Hn & HF & HB & HL & Hok).
  assert (b ∈ B) as HbB by (by apply list_elem_of_lookup_2 in Hb).
  pose proof (isfile_blocks _ _ _ _ _ _ _ _ b Hf ltac:(apply elem_of_blocks; by left)) as Hbr.
  apply blocks_NoDup in Hn as Hn'. destruct Hn' as [HnB Hni].
  assert (nb (n + length q) = nb (S n)) as Hnb by (rewrite nb_chunk by done; rewrite <- (Nat.add_1_r n), nb_chunk; lia).
  apply (isfile_nb _ _ _ _ (S n)); [done |]. split; [| split; [| done]].
  - split; [done |]. split; [done |]. split; [done |]. split; [done |]. intros Hi k Hk. rewrite <- L5 by done. f_equal.
    pose proof (isfile_blocks _ _ _ _ _ _ _ _ ind Hf ltac:(apply elem_of_blocks; by right)).
    apply rd_insert_ne; [lia | lia |]. intros ->. by apply Hni.
  - intros j Hj. rewrite length_app in Hj. fold n in Hj. destruct (decide (j < n)%nat) as [Hjn | Hjn].
    + destruct (Hh j Hjn) as (b' & Hb' & Hc). exists b'. split; [done |]. rewrite lookup_app_l, <- Hc by done.
      pose proof (isfile_blocks _ _ _ _ _ _ _ _ b' Hf ltac:(apply elem_of_blocks; left; by apply list_elem_of_lookup_2 in Hb')).
      destruct (decide (b = b')) as [<- | Hne]; [| by rewrite rd_insert_ne by lia].
      rewrite rd_insert_eq by lia. rewrite patch_lookup, decide_False; [done | | lia].
      pose proof (NoDup_lookup _ _ _ _ HnB Hb Hb') as E. pose proof (Nat.div_mod_eq n 1024). pose proof (Nat.div_mod_eq j 1024). lia.
    + assert (j / 1024 = n / 1024 /\ j mod 1024 = n mod 1024 + (j - n))%nat as [E1 E2].
      { pose proof (Nat.div_mod_eq n 1024). assert (j = 1024 * (n / 1024) + (n mod 1024 + (j - n)))%nat as Ej by lia.
        assert (n mod 1024 + (j - n) < 1024)%nat as Er by lia.
        split; symmetry; [apply (Nat.div_unique _ _ _ _ Er Ej) | apply (Nat.mod_unique _ _ _ _ Er Ej)]. }
      exists b. rewrite E1, E2. split; [done |]. rewrite rd_insert_eq by lia.
      rewrite patch_lookup, decide_True by lia. rewrite lookup_app_r by lia. f_equal. lia.
Qed.

Lemma tb_mono n m : (n <= m)%nat -> (tb n <= tb m)%nat.
Proof.
  intros Hnm. assert (nb n <= nb m)%nat by (apply Nat.Div0.div_le_mono; lia). unfold tb. repeat case_decide; lia.
Qed.

Section appending.
Context {W : Type} `{OS hcall W} (fd : Z) (img : W -> list Z -> Z -> Prop) `{!ImageFile fd img}.
Context (sb : superblock) (lo : Z).

Lemma iappend_loop_eq : forall fuel D fi fb x c B ind q (p : uproc hcall W),
  disk img (u_os p) D -> isfile D lo fb x (length c) c B ind -> fresh D fb -> 0 < lo <= fb ->
  (length c + length q <= 268 * 1024)%nat -> (length q <= fuel)%nat ->
  let fb' := fb + Z.of_nat (tb (length c + length q)) - Z.of_nat (tb (length c)) in
  fb' <= Z.of_nat (length D) ->
  exists x' D' B' ind' p',
    iappend_loop fuel (used_mk fd sb fi fb) x (Z.of_nat (length c)) q p =
      URet (used_mk fd sb fi fb', x', Z.of_nat (length c + length q)) p' /\
    disk img (u_os p') D' /\ isfile D' lo fb' x' (length c + length q) (c ++ q) B' ind' /\
    evolves D fb x (blocks B ind) D' fb' x' (blocks B' ind').
Proof.
  induction fuel as [| fuel IH]; intros D fi fb x c B ind q p Hd Hf Hfr Hlo Hmax Hfuel fb' Hroom.
  all: destruct q as [| b0 q0]; [unfold fb'; cbn [length]; rewrite Nat.add_0_r, app_nil_r; replace (fb + _ - _) with fb by lia;
    exists x, D, B, ind, p; (split; [done |]; split; [done |]; split; [done |]; by apply evolves_refl) |].
  { cbn in Hfuel. lia. }
  set (q := b0 :: q0) in *. assert (0 < length q)%nat as Hq by (cbn; lia). set (n := length c) in *.
  change (iappend_loop (S fuel) (used_mk fd sb fi fb) x (Z.of_nat n) q p) with
    ((assert (Z.of_nat n / BSIZE <? MAXFILE) ;;;
      let! '(g, din, x) := iappend_block (used_mk fd sb fi fb) x (Z.of_nat n / BSIZE) in
      let n1 := Z.to_nat (Z.min (Z.of_nat (length q)) (u32 (u32 ((Z.of_nat n / BSIZE + 1) * BSIZE) - Z.of_nat n))) in
      let! buf := rsect (m_fsfd g) x in
      wsect (m_fsfd g) x (patch buf (Z.to_nat (Z.of_nat n - Z.of_nat n / BSIZE * BSIZE)) (take n1 q)) ;;;
      iappend_loop fuel g din (u32 (Z.of_nat n + Z.of_nat n1)) (drop n1 q)) p).
  pose proof (Nat.div_mod_eq n 1024) as Hdm. pose proof (Nat.mod_upper_bound n 1024 ltac:(lia)) as Hmr.
  assert (Z.of_nat n / BSIZE = Z.of_nat (n / 1024)) as -> by (rewrite Nat2Z.inj_div; done).
  assert (n / 1024 < 268)%nat as Hk by (apply Nat.Div0.div_lt_upper_bound; lia).
  rewrite (proj2 (Z.ltb_lt _ _)) by (change MAXFILE with 268; lia). unfold assert at 1. unfold ubind at 1. cbn [uret].
  assert (tb (S n) <= tb (n + length q))%nat as Ht1 by (apply tb_mono; lia).
  destruct (iappend_block_eq fd img sb lo D fi fb x c B ind p Hd Hf Hfr Hlo ltac:(fold n; lia) ltac:(fold n; lia))
    as (x1 & D1 & B1 & ind1 & b & p1 & E1 & Hd1 & Hf1 & Hb & Hev). fold n in E1, Hf1, Hb, Hev. set (fb1 := fb + Z.of_nat (tb (S n)) - Z.of_nat (tb n)) in *.
  rewrite (ubind_ret _ _ _ _ _ E1). cbn [used_mk m_fsfd].
  change BSIZE with 1024. replace (Z.of_nat n - Z.of_nat (n / 1024) * 1024) with (Z.of_nat (n mod 1024)) by lia.
  rewrite Nat2Z.id. set (n1 := Nat.min (length q) (1024 - n mod 1024)).
  assert (Z.to_nat (Z.min (Z.of_nat (length q)) (u32 (u32 ((Z.of_nat (n / 1024) + 1) * 1024) - Z.of_nat n))) = n1) as ->.
  { rewrite !u32_small by (rewrite ?u32_small; lia). unfold n1. lia. }
  assert (0 < n1 /\ n1 <= length q /\ n mod 1024 + n1 <= 1024)%nat as (Hn1 & Hn2 & Hn3) by lia.
  assert (lo <= b < fb1) as Hbr by (apply (isfile_blocks _ _ _ _ _ _ _ _ _ Hf1), elem_of_blocks; left; by apply list_elem_of_lookup_2 in Hb).
  pose proof Hev as (_ & _ & (HlD & _) & _ & _ & _).
  assert (fb1 <= Z.of_nat (length D1)) as Hfb1 by lia.
  destruct (rsect_eq fd img D1 b p1 Hd1 ltac:(lia)) as (p2 & E2 & Hd2). cbv zeta. rewrite (ubind_ret _ _ _ _ _ E2).
  pose proof (disk_rd img _ _ b Hd1 ltac:(lia)) as Hlen.
  assert (length (take n1 q) = n1) as Hlt by (rewrite length_take; lia).
  destruct (wsect_eq fd img D1 b (patch (rd D1 b) (n mod 1024) (take n1 q)) p2 Hd2 ltac:(lia)) as (p3 & E3 & Hd3).
  { rewrite patch_length; lia. }
  rewrite (ubind_ret _ _ _ _ _ E3).
  pose proof (isfile_write D1 lo fb1 x1 c B1 ind1 b (take n1 q) Hf1 ltac:(lia) Hb ltac:(lia) Hlen ltac:(lia) ltac:(fold n; lia)) as Hf2.
  fold n in Hf2. rewrite Hlt in Hf2.
  assert (tb (n + n1) = tb (S n)) as Ht2 by (unfold tb; rewrite nb_chunk by lia; rewrite <- (Nat.add_1_r n), nb_chunk; lia).
  set (D2 := <[Z.to_nat b := _]> D1) in *.
  assert (evolves D1 fb1 x1 (blocks B1 ind1) D2 fb1 x1 (blocks B1 ind1)) as Hev2.
  { split; [apply (fresh_insert D1 fb1); [by destruct Hev | lia | lia] |]. split; [lia |].
    split; [apply keeps_insert; [lia |]; left; apply elem_of_blocks; left; by apply list_elem_of_lookup_2 in Hb | auto]. }
  assert (length (c ++ take n1 q) = n + n1)%nat as Hlc by (rewrite length_app, Hlt; done).
  destruct (IH D2 fi fb1 x1 (c ++ take n1 q) B1 ind1 (drop n1 q) p3 Hd3) as (x' & D' & B' & ind' & p' & E4 & Hd4 & Hf4 & Hev4).
  { by rewrite Hlc. } { by destruct Hev2. } { lia. } { rewrite Hlc, length_drop. lia. } { rewrite length_drop. lia. }
  { rewrite Hlc, length_drop. replace (n + n1 + (length q - n1))%nat with (n + length q)%nat by lia. unfold D2. rewrite length_insert. lia. }
  rewrite Hlc, length_drop in E4, Hf4, Hev4. replace (n + n1 + (length q - n1))%nat with (n + length q)%nat in * by lia.
  rewrite <- app_assoc, take_drop in Hf4. rewrite u32_small by lia. rewrite <- Nat2Z.inj_add.
  replace (fb1 + Z.of_nat (tb (n + length q)) - Z.of_nat (tb (n + n1))) with fb' in * by lia.
  exists x', D', B', ind', p'. split; [exact E4 |]. split; [done |]. split; [done |].
  eapply evolves_trans; [exact Hev |]. eapply evolves_trans; [exact Hev2 | exact Hev4].
Qed.
End appending.

(** ** The image as a set of files *)
Definition inode_at (D : list (list Z)) (sb : superblock) (i : Z) : dinode := read_dinode (rd D (IBLOCK i sb)) (dinode_off i).
Definition file_at (D : list (list Z)) (sb : superblock) (lo fb i : Z) (c B : list Z) (ind : Z) : Prop :=
  isfile D lo fb (inode_at D sb i) (length c) c B ind /\ di_size (inode_at D sb i) = Z.of_nat (length c).

(** Inode numbers whose inode lies below the data blocks. *)
Definition inum_ok (sb : superblock) (lo i : Z) : Prop := 0 <= i /\ 0 <= sb_inodestart sb /\ i / IPB + sb_inodestart sb < lo.

(** The image holds exactly the files [F]: inode [i] has the contents [F !! i], no
    block belongs to two files, and the blocks from [fb] on are zero. *)
Definition image (D : list (list Z)) (sb : superblock) (lo fb : Z) (F : gmap Z (list Z)) : Prop :=
  0 < lo <= fb /\ fb <= Z.of_nat (length D) <= 2 ^ 22 /\ fresh D fb /\
  exists M : gmap Z (list Z * Z), dom M = dom F /\
    (forall i c B ind, F !! i = Some c -> M !! i = Some (B, ind) -> inum_ok sb lo i /\ file_at D sb lo fb i c B ind) /\
    (forall i j B ind B' ind', i <> j -> M !! i = Some (B, ind) -> M !! j = Some (B', ind') -> blocks B ind ## blocks B' ind').

Lemma iblock_eq sb lo i : inum_ok sb lo i -> lo <= 2 ^ 22 -> IBLOCK i sb = i / IPB + sb_inodestart sb /\ 0 <= IBLOCK i sb < lo.
Proof.
  intros (Hi & Hs & Hl) Hlo. unfold IBLOCK. change IPB with 16 in *. assert (0 <= i / 16) by (apply Z.div_pos; lia).
  rewrite u32_small by lia. lia.
Qed.
(** Different inodes have different slots. *)
Lemma slot_ne sb lo i j : inum_ok sb lo i -> inum_ok sb lo j -> lo <= 2 ^ 22 -> i <> j ->
  IBLOCK i sb <> IBLOCK j sb \/ dinode_off i <> dinode_off j.
Proof.
  intros Hi Hj Hlo Hne. destruct (iblock_eq _ _ _ Hi Hlo) as [-> _]. destruct (iblock_eq _ _ _ Hj Hlo) as [-> _].
  destruct Hi as (Hi & _), Hj as (Hj & _). unfold dinode_off. change IPB with 16.
  pose proof (Z.div_mod i 16 ltac:(lia)). pose proof (Z.div_mod j 16 ltac:(lia)).
  pose proof (Z.mod_pos_bound i 16 ltac:(lia)). pose proof (Z.mod_pos_bound j 16 ltac:(lia)).
  destruct (decide (i / 16 = j / 16)); [right; lia | left; lia].
Qed.

(** A file survives changes to blocks that are not its own. *)
Lemma isfile_frame D D' lo fb fb' x x' n c B ind :
  isfile D lo fb x n c B ind -> (forall b, b ∈ blocks B ind -> rd D' b = rd D b) -> fb <= fb' ->
  di_addrs x' = di_addrs x -> dinode_ok x' -> isfile D' lo fb' x' n c B ind.
Proof.
  intros ((L1 & L2 & L3 & L4 & L5) & Hh & Hn & HF & HB & HL & Hok) Hb Hfb Ha Hok'. unfold isfile, lists. rewrite Ha.
  split; [| split; [| split; [done | split; [| done]]]].
  - split; [done |]. split; [done |]. split; [done |]. split; [done |]. intros Hne k Hk. rewrite Hb; [by apply L5 | apply elem_of_blocks; by right].
  - rewrite <- (app_nil_r B). apply (holds_frame D); [done |]. intros b HbB. apply Hb, elem_of_blocks. by left.
  - eapply Forall_impl; [exact HF |]. cbn. lia.
Qed.
Lemma file_at_frame D D' sb lo fb fb' i c B ind :
  file_at D sb lo fb i c B ind -> inode_at D' sb i = inode_at D sb i -> (forall b, b ∈ blocks B ind -> rd D' b = rd D b) ->
  fb <= fb' -> file_at D' sb lo fb' i c B ind.
Proof.
  intros [Hf Hs] Hi Hb Hfb. unfold file_at. rewrite Hi. split; [| done]. apply (isfile_frame D D' lo fb fb' (inode_at D sb i)); try done.
  by destruct Hf as (_ & _ & _ & _ & _ & _ & Hok).
Qed.

(** A new state of one file, and nothing else changed below [fb] but its inode. *)
Lemma image_update D D' sb lo fb fb' F i B ind c' B' ind' (M : gmap Z (list Z * Z)) :
  0 < lo <= fb -> fb <= fb' <= Z.of_nat (length D') -> Z.of_nat (length D') <= 2 ^ 22 -> fresh D' fb' -> dom M = dom F ->
  (forall i c B ind, F !! i = Some c -> M !! i = Some (B, ind) -> inum_ok sb lo i /\ file_at D sb lo fb i c B ind) ->
  (forall i j B ind B' ind', i <> j -> M !! i = Some (B, ind) -> M !! j = Some (B', ind') -> blocks B ind ## blocks B' ind') ->
  (M !! i = Some (B, ind) \/ blocks B ind = []) -> inum_ok sb lo i -> file_at D' sb lo fb' i c' B' ind' ->
  (forall b, b ∈ blocks B' ind' -> b ∈ blocks B ind \/ fb <= b) ->
  (forall b, 0 <= b < fb -> (b ∉ blocks B ind) -> b <> IBLOCK i sb -> rd D' b = rd D b) ->
  (forall j, inum_ok sb lo j -> j <> i -> inode_at D' sb j = inode_at D sb j) ->
  image D' sb lo fb' (<[i := c']> F).
Proof.
  intros Hlo Hfb Hlen Hfr HM HF Hdisj HMi Hi Hfile Hnew Hkeep Hino. split; [lia |]. split; [lia |]. split; [done |].
  assert (Hother : forall j Bj indj, j <> i -> M !! j = Some (Bj, indj) -> exists cj, F !! j = Some cj /\ inum_ok sb lo j /\
    file_at D sb lo fb j cj Bj indj /\ blocks Bj indj ## blocks B ind /\ forall b, b ∈ blocks Bj indj -> lo <= b < fb).
  { intros j Bj indj Hne Hj. assert (is_Some (F !! j)) as [cj Hcj] by (apply elem_of_dom; rewrite <- HM; by apply elem_of_dom_2 in Hj).
    exists cj. destruct (HF _ _ _ _ Hcj Hj) as [Hjo Hfj]. split; [done |]. split; [done |]. split; [done |]. split.
    - destruct HMi as [HMi | ->]; [by apply (Hdisj j i) | by intros b _ Hb%not_elem_of_nil].
    - intros b. destruct Hfj as [Hfj _]. by apply (isfile_blocks _ _ _ _ _ _ _ _ b Hfj). }
  exists (<[i := (B', ind')]> M). split; [by rewrite !dom_insert_L, HM |]. split.
  - intros j cj Bj indj. destruct (decide (j = i)) as [-> | Hne].
    + rewrite !lookup_insert_eq. by intros [= <-] [= <- <-].
    + rewrite !lookup_insert_ne by done. intros Hc Hj. destruct (Hother _ _ _ Hne Hj) as (c2 & Hc2 & Hjo & Hfj & Hdj & Hbj). simplify_eq.
      split; [done |]. apply (file_at_frame D D' sb lo fb); [done | by apply Hino | | lia]. intros b Hb. specialize (Hbj b Hb).
      apply Hkeep; [lia | intros Hb2; by apply (Hdj b) |]. destruct (iblock_eq _ _ _ Hi ltac:(lia)). lia.
  - assert (Hone : forall j Bj indj, j <> i -> M !! j = Some (Bj, indj) -> blocks B' ind' ## blocks Bj indj).
    { intros j Bj indj Hne Hj. destruct (Hother _ _ _ Hne Hj) as (c2 & Hc2 & Hjo & Hfj & Hdj & Hbj).
      intros b [Hb | Hb]%Hnew Hb2; [by apply (Hdj b) | specialize (Hbj b Hb2); lia]. }
    intros j k Bj indj Bk indk Hjk. destruct (decide (j = i)) as [-> | Hj], (decide (k = i)) as [-> | Hk]; [done | | |].
    + rewrite lookup_insert_eq, lookup_insert_ne by done. intros [= <- <-] HkM. by apply (Hone k).
    + rewrite lookup_insert_eq, lookup_insert_ne by done. intros HjM [= <- <-] b Hb Hb'. by apply (Hone j _ _ Hj HjM b).
    + rewrite !lookup_insert_ne by done. by apply Hdisj.
Qed.

Section inodes.
Context {W : Type} `{OS hcall W} (fd : Z) (img : W -> list Z -> Z -> Prop) `{!ImageFile fd img}.
Context (sb : superblock) (lo : Z).

Lemma rinode_eq D fi fb i (p : uproc hcall W) : disk img (u_os p) D -> 0 <= IBLOCK i sb < Z.of_nat (length D) ->
  exists p', rinode (used_mk fd sb fi fb) i p = URet (inode_at D sb i) p' /\ disk img (u_os p') D.
Proof.
  intros Hd Hi. destruct (rsect_eq fd img D _ p Hd Hi) as (p1 & E1 & Hd1). exists p1. split; [| done].
  unfold rinode. cbn [used_mk m_fsfd m_sb]. by rewrite (ubind_ret _ _ _ _ _ E1).
Qed.

(** Writing an inode changes its slot and nothing else. *)
Lemma winode_eq D fi fb i x (p : uproc hcall W) : disk img (u_os p) D -> 0 <= IBLOCK i sb < Z.of_nat (length D) -> dinode_ok x ->
  exists D' p', winode (used_mk fd sb fi fb) i x p = URet tt p' /\ disk img (u_os p') D' /\ length D' = length D /\
    inode_at D' sb i = x /\ (forall b, 0 <= b -> b <> IBLOCK i sb -> rd D' b = rd D b) /\
    (forall j, 0 <= IBLOCK j sb -> IBLOCK j sb <> IBLOCK i sb \/ dinode_off j <> dinode_off i -> inode_at D' sb j = inode_at D sb j).
Proof.
  intros Hd Hi Hx. pose proof (disk_rd img _ _ _ Hd Hi) as Hlen. pose proof (dinode_off_bound i) as Hoff.
  pose proof (write_dinode_same (rd D (IBLOCK i sb)) (dinode_off i) x ltac:(lia) Hx) as Hs.
  pose proof Hs as [Hl _].
  destruct (rsect_eq fd img D _ p Hd Hi) as (p1 & E1 & Hd1).
  destruct (wsect_eq fd img D _ (write_dinode (rd D (IBLOCK i sb)) (dinode_off i) x) p1 Hd1 Hi ltac:(lia)) as (p2 & E2 & Hd2).
  eexists _, p2. split; [unfold winode; cbn [used_mk m_fsfd m_sb]; rewrite (ubind_ret _ _ _ _ _ E1); exact E2 |].
  split; [done |]. split; [by rewrite length_insert |]. unfold inode_at. split; [| split].
  - rewrite rd_insert_eq by done. apply read_write_dinode; [lia | done].
  - intros b Hb Hne. by apply rd_insert_ne; [lia | |].
  - intros j Hj Hor. destruct (decide (IBLOCK j sb = IBLOCK i sb)) as [E | E].
    + rewrite E, rd_insert_eq by done. apply (read_dinode_same _ _ _ _ _ Hs). destruct Hor as [? | Hor]; [done |].
      by apply dinode_off_apart.
    + by rewrite rd_insert_ne by lia.
Qed.

Lemma image_block D fb F i c : image D sb lo fb F -> F !! i = Some c -> inum_ok sb lo i /\ 0 <= IBLOCK i sb < Z.of_nat (length D).
Proof.
  intros (Hlo & Hlen & _ & M & HM & HF & _) Hc.
  assert (is_Some (M !! i)) as [[B ind] HMi] by (apply elem_of_dom; rewrite HM; by apply elem_of_dom_2 in Hc).
  destruct (HF _ _ _ _ Hc HMi) as [Hi _]. split; [done |]. destruct (iblock_eq _ _ _ Hi ltac:(lia)). lia.
Qed.

(** [iappend] appends to the file and keeps the others. *)
Lemma iappend_image D fi fb F i c q (p : uproc hcall W) :
  disk img (u_os p) D -> image D sb lo fb F -> F !! i = Some c -> (length c + length q <= 268 * 1024)%nat ->
  let fb' := fb + Z.of_nat (tb (length c + length q)) - Z.of_nat (tb (length c)) in
  fb' <= Z.of_nat (length D) ->
  exists D' p', iappend (used_mk fd sb fi fb) i q p = URet (used_mk fd sb fi fb') p' /\ disk img (u_os p') D' /\
    length D' = length D /\ image D' sb lo fb' (<[i := c ++ q]> F) /\
    header (inode_at D' sb i) = header (inode_at D sb i) /\
    (forall j, inum_ok sb lo j -> j <> i -> inode_at D' sb j = inode_at D sb j) /\
    (forall b, 0 <= b < lo -> b <> IBLOCK i sb -> rd D' b = rd D b).
Proof.
  intros Hd Him Hc Hmax fb' Hroom. destruct (image_block _ _ _ _ _ Him Hc) as [Hi Hib].
  destruct Him as (Hlo & Hlen & Hfr & M & HM & HF & Hdisj).
  assert (is_Some (M !! i)) as [[B ind] HMi] by (apply elem_of_dom; rewrite HM; by apply elem_of_dom_2 in Hc).
  destruct (HF _ _ _ _ Hc HMi) as [_ [Hf Hsz]]. destruct (iblock_eq _ _ _ Hi ltac:(lia)) as [_ Hil].
  destruct (rinode_eq D fi fb i p Hd Hib) as (p1 & E1 & Hd1).
  destruct (iappend_loop_eq fd img sb lo (length q) D fi fb _ c B ind q p1 Hd1 Hf Hfr Hlo Hmax ltac:(lia) Hroom)
    as (x1 & D1 & B1 & ind1 & p2 & E2 & Hd2 & Hf2 & (Hfr2 & Hfb2 & (HlD & Hkeep) & Hsub & Hnew & Hhd)).
  fold fb' in E2, Hf2, Hfr2, Hfb2, Hnew.
  pose proof Hf2 as (_ & _ & _ & _ & _ & _ & Hok1).
  assert (dinode_ok (set_size x1 (Z.of_nat (length c + length q)))) as Hok2.
  { destruct Hok1 as (A1 & A2 & A3 & A4). split; [done |]. split; [cbn [set_size di_size]; lia |]. done. }
  destruct (winode_eq D1 fi fb' i _ p2 Hd2 ltac:(lia) Hok2) as (D2 & p3 & E3 & Hd3 & HlD2 & Hx2 & Hrd & Hoth).
  assert (Hlow : forall b, 0 <= b < lo -> rd D1 b = rd D b).
  { intros b Hb. apply Hkeep; [lia |]. intros HbB. pose proof (isfile_blocks _ _ _ _ _ _ _ _ b Hf HbB). lia. }
  assert (Hino : forall j, inum_ok sb lo j -> j <> i -> inode_at D2 sb j = inode_at D sb j).
  { intros j Hj Hne. destruct (iblock_eq _ _ _ Hj ltac:(lia)) as [_ Hjl].
    rewrite (Hoth j); [unfold inode_at; by rewrite Hlow | lia |]. by apply (slot_ne sb lo); [| | lia |]. }
  exists D2, p3. split.
  { unfold iappend. rewrite (ubind_ret _ _ _ _ _ E1), Hsz, xint_eq by lia. rewrite (ubind_ret _ _ _ _ _ E2), xint_eq by lia.
    by rewrite (ubind_ret _ _ _ _ _ E3). }
  split; [done |]. split; [lia |]. split; [| split; [| split]].
  - apply (image_update D D2 sb lo fb fb' F i B ind (c ++ q) B1 ind1 M); try done; try lia.
    + intros b Hb. rewrite Hrd, Hfr2; [done | rewrite <- HlD2; lia | lia | lia].
    + by left.
    + split; [| by rewrite Hx2, length_app]. rewrite Hx2, length_app. apply (isfile_frame D1 _ _ fb' _ x1); try done.
      intros b Hb. pose proof (isfile_blocks _ _ _ _ _ _ _ _ b Hf2 Hb). apply Hrd; lia.
    + intros b Hb. destruct (Hnew b Hb) as [? | ?]; [by left | right; lia].
    + intros b Hb Hn Hne. rewrite Hrd by (lia || done). apply Hkeep; [lia | done].
  - by rewrite Hx2, <- Hhd.
  - done.
  - intros b Hb Hne. rewrite Hrd by (lia || done). by apply Hlow.
Qed.

(** [ialloc] makes an empty file. *)
Lemma ialloc_image D fi fb F type (p : uproc hcall W) :
  disk img (u_os p) D -> image D sb lo fb F -> inum_ok sb lo fi -> F !! fi = None -> 0 <= fi < 2 ^ 32 - 1 -> 0 <= type < 2 ^ 15 ->
  exists D' p', ialloc (used_mk fd sb fi fb) type p = URet (used_mk fd sb (fi + 1) fb, fi) p' /\ disk img (u_os p') D' /\
    length D' = length D /\ image D' sb lo fb (<[fi := []]> F) /\
    header (inode_at D' sb fi) = (type, 0, 0, 1) /\
    (forall j, inum_ok sb lo j -> j <> fi -> inode_at D' sb j = inode_at D sb j) /\
    (forall b, 0 <= b < lo -> b <> IBLOCK fi sb -> rd D' b = rd D b).
Proof.
  intros Hd (Hlo & Hlen & Hfr & M & HM & HF & Hdisj) Hi Hnone Hfi Hty.
  destruct (iblock_eq _ _ _ Hi ltac:(lia)) as [_ Hil].
  set (x := mkdinode type 0 0 1 0 (replicate (S NDIRECT) 0)).
  assert (xshort type = type) as Hxs.
  { unfold xshort, u8. rewrite Z.shiftr_div_pow2 by lia. cbn [le_get]. change (2 ^ 8) with 256. zdiv. }
  assert (dinode_ok x) as Hok by (repeat split; repeat constructor; cbn; lia).
  destruct (winode_eq D (fi + 1) fb fi x p Hd ltac:(lia) Hok) as (D2 & p3 & E3 & Hd3 & HlD2 & Hx2 & Hrd & Hoth).
  assert (Hino : forall j, inum_ok sb lo j -> j <> fi -> inode_at D2 sb j = inode_at D sb j).
  { intros j Hj Hne. destruct (iblock_eq _ _ _ Hj ltac:(lia)) as [_ Hjl]. apply Hoth; [lia |]. by apply (slot_ne sb lo); [| | lia |]. }
  exists D2, p3. split.
  { unfold ialloc. cbn [used_mk m_fsfd m_sb m_freeinode m_freeblock]. rewrite u32_small, Hxs by lia. by rewrite (ubind_ret _ _ _ _ _ E3). }
  split; [done |]. split; [done |]. split; [| split; [by rewrite Hx2 | split; [done |]]].
  - apply (image_update D D2 sb lo fb fb F fi [] 0 [] [] 0 M); try done; try lia.
    + intros b Hb. rewrite Hrd, Hfr; [done | rewrite <- HlD2; lia | lia | lia].
    + by right.
    + split; [| by rewrite Hx2]. rewrite Hx2. split; [| split; [intros j Hj; cbn in Hj; lia | split; [constructor | split; [constructor | done]]]].
      split; [done |]. split; [done |]. split; [| split; [intros _; cbn; lia | done]]. intros k Hk. cbn [x di_addrs]. by rewrite lookup_replicate_2 by lia.
    + intros b Hb%not_elem_of_nil. done.
    + intros b Hb _ Hne. apply Hrd; [lia | done].
  - intros b Hb Hne. apply Hrd; [lia | done].
Qed.
End inodes.

(** ** Copying a file in *)

(** What the host promises of a file to copy: opening [arg] gives descriptor [sfd]
    and does not touch the image; [src c] adds to the image relation that [c] is left
    to read on [sfd], which the calls on the image keep; a read returns at least one
    byte unless none is left; closing does not touch the image. *)
Class SourceFile {W} `{OS hcall W} (fd : Z) (img : W -> list Z -> Z -> Prop) (arg content : list Z) (sfd : Z)
    (src : list Z -> W -> list Z -> Z -> Prop) : Prop := {
  src_image c : ImageFile fd (src c);
  src_fd : 0 <= sfd;
  src_open : forall w d pos, img w d pos -> exists a w',
    os_call (HOpen arg 0 0) w = (mkanswer sfd a, w') /\ src content w' d pos;
  src_read : forall w d pos c n, src c w d pos -> 0 < n -> exists k w',
    os_call (HRead sfd n) w = (mkanswer (Z.of_nat k) (take k c), w') /\ src (drop k c) w' d pos /\
    (k <= length c)%nat /\ Z.of_nat k <= n /\ (c <> [] -> (0 < k)%nat);
  src_close : forall w d pos, src [] w d pos -> exists a w', os_call (HClose sfd) w = (a, w') /\ img w' d pos;
}.

Section copying.
Context {W : Type} `{OS hcall W} (fd : Z) (img : W -> list Z -> Z -> Prop) (arg content : list Z) (sfd : Z).
Context (src : list Z -> W -> list Z -> Z -> Prop) `{!SourceFile fd img arg content sfd src}.
Context (sb : superblock) (lo : Z).

Lemma copy_in_image : forall fuel D fi fb F i c rest (p : uproc hcall W),
  disk (src rest) (u_os p) D -> image D sb lo fb F -> F !! i = Some c -> (length rest < fuel)%nat ->
  (length c + length rest <= 268 * 1024)%nat ->
  let fb' := fb + Z.of_nat (tb (length c + length rest)) - Z.of_nat (tb (length c)) in
  fb' <= Z.of_nat (length D) ->
  exists D' p', copy_in fuel (used_mk fd sb fi fb) i sfd p = URet (used_mk fd sb fi fb') p' /\ disk (src []) (u_os p') D' /\
    length D' = length D /\ image D' sb lo fb' (<[i := c ++ rest]> F) /\ header (inode_at D' sb i) = header (inode_at D sb i) /\
    (forall j, inum_ok sb lo j -> j <> i -> inode_at D' sb j = inode_at D sb j) /\
    (forall b, 0 <= b < lo -> b <> IBLOCK i sb -> rd D' b = rd D b).
Proof.
  induction fuel as [| fuel IH]; intros D fi fb F i c rest p Hd Him Hc Hfuel Hmax fb' Hroom; [lia |]. cbn [copy_in].
  destruct Hd as ((pos & Hi) & HD & HL).
  destruct (src_read _ _ _ _ BSIZE Hi ltac:(unfold BSIZE; lia)) as (k & w' & E1 & Hi1 & Hk & Hk2 & Hpos).
  rewrite (ubind_ret _ _ _ _ _ (sys_eq _ _ _ _ E1)). cbn [a_ret a_data]. set (p1 := mkuproc _ w').
  assert (disk (src (drop k rest)) (u_os p1) D) as Hd1 by (split; [by exists pos | done]).
  destruct (decide (rest = [])) as [-> | Hne].
  { destruct k as [| k]; [| cbn in Hk; lia]. exists D, p1. unfold fb'. cbn [length]. rewrite Nat.add_0_r, app_nil_r.
    replace (fb + _ - _) with fb by lia. rewrite insert_id by done. split; [done |]. split; [exact Hd1 |]. done. }
  specialize (Hpos Hne). rewrite (proj2 (Z.ltb_lt _ _)) by lia. rewrite Nat2Z.id, take_idemp.
  assert (length (take k rest) = k) as Hlk by (rewrite length_take; lia).
  assert (tb (length c) <= tb (length c + k) <= tb (length c + length rest))%nat as Ht by (split; apply tb_mono; lia).
  assert (ImageFile fd (src (drop k rest))) as HIF by (eapply src_image).
  destruct (iappend_image fd (src (drop k rest)) sb lo D fi fb F i c (take k rest) p1 Hd1 Him Hc ltac:(lia) ltac:(rewrite Hlk; lia))
    as (D2 & p2 & E2 & Hd2 & Hl2 & Him2 & Hh2 & Ho2 & Hb2).
  rewrite Hlk in E2, Him2. rewrite (ubind_ret _ _ _ _ _ E2).
  destruct (IH D2 fi _ _ i (c ++ take k rest) (drop k rest) p2 Hd2 Him2 ltac:(apply lookup_insert_eq)) as (D3 & p3 & E3 & Hd3 & Hl3 & Him3 & Hh3 & Ho3 & Hb3).
  { rewrite length_drop. lia. } { rewrite length_app, length_drop, Hlk. lia. }
  { rewrite length_app, length_drop, Hlk. replace (length c + k + (length rest - k))%nat with (length c + length rest)%nat by lia. lia. }
  rewrite length_app, length_drop, Hlk in E3, Him3. replace (length c + k + (length rest - k))%nat with (length c + length rest)%nat in * by lia.
  replace (fb + Z.of_nat (tb (length c + k)) - Z.of_nat (tb (length c)) + Z.of_nat (tb (length c + length rest)) - Z.of_nat (tb (length c + k))) with fb' in * by lia.
  rewrite insert_insert_eq, <- app_assoc, take_drop in Him3.
  exists D3, p3. split; [exact E3 |]. split; [done |]. split; [lia |]. split; [done |]. split; [congruence |]. split.
  - intros j Hj Hji. rewrite Ho3 by done. by apply Ho2.
  - intros b Hb Hbi. rewrite Hb3 by done. by apply Hb2.
Qed.
End copying.

Lemma dirent_length i name : (length name <= DIRSIZ)%nat -> length (dirent i name) = 16%nat.
Proof. intros Hn. unfold dirent. rewrite !length_app, le_put_length, length_replicate. unfold DIRSIZ in *. lia. Qed.

Lemma xshort_eq x : 0 <= x < 2 ^ 16 -> xshort x = x.
Proof. intros Hx. unfold xshort, u8. rewrite Z.shiftr_div_pow2 by lia. cbn [le_get]. change (2 ^ 8) with 256. zdiv. Qed.

(** ** The bitmap *)
Lemma balloc_bits_spec n : forall i buf, 0 <= i -> i + Z.of_nat n <= BPB -> length buf = Z.to_nat BSIZE ->
  length (balloc_bits n i buf) = length buf /\
  forall j, 0 <= j < BPB -> bit_set (balloc_bits n i buf) j = ((i <=? j) && (j <? i + Z.of_nat n)) || bit_set buf j.
Proof.
  induction n as [| n IH]; intros i buf Hi Hn Hl; cbn [balloc_bits].
  - split; [done |]. intros j Hj. assert ((i <=? j) && (j <? i + Z.of_nat 0) = false) as ->; [| done].
    destruct (Z.leb_spec i j), (Z.ltb_spec j (i + Z.of_nat 0)); try done; lia.
  - destruct (IH (i + 1) (set_bit buf i) ltac:(lia) ltac:(lia)) as [El Es]; [unfold set_bit; by rewrite length_insert |].
    split; [rewrite El; unfold set_bit; by rewrite length_insert |]. intros j Hj. rewrite Es, set_bit_spec by (done || lia).
    destruct (Z.leb_spec (i + 1) j), (Z.leb_spec i j), (Z.ltb_spec j (i + 1 + Z.of_nat n)), (Z.ltb_spec j (i + Z.of_nat (S n))), (Z.eqb_spec j i);
      cbn; try done; lia.
Qed.
Lemma zeroes_bit j : bit_set zeroes j = false.
Proof.
  unfold bit_set, bit_byte, zeroes. destruct (decide (Z.to_nat (j / 8) < Z.to_nat BSIZE)%nat).
  - rewrite lookup_replicate_2 by done. apply Z.testbit_0_l.
  - rewrite lookup_ge_None_2 by (rewrite length_replicate; lia). apply Z.testbit_0_l.
Qed.

(** The superblock [mkfs] writes is what the kernel reads, and its layout is
    consistent: the log follows the superblock, the inode blocks hold every inode and
    end where the bitmap begins, and the first block [mkfs] allocates follows the
    bitmap. *)
Lemma mkfs_superblock_kernel :
  read_superblock (patch zeroes 0 (sb_bytes mkfs_sb)) = mkfs_sb /\ sb_magic mkfs_sb = FSMAGIC /\
  sb_logstart mkfs_sb = 2 /\ sb_inodestart mkfs_sb = sb_logstart mkfs_sb + sb_nlog mkfs_sb /\
  IBLOCK (sb_ninodes mkfs_sb - 1) mkfs_sb < sb_bmapstart mkfs_sb /\
  BBLOCK (sb_size mkfs_sb - 1) mkfs_sb < nmeta /\ nmeta + sb_nblocks mkfs_sb = sb_size mkfs_sb.
Proof. by vm_compute. Qed.

(** ** Properties *)

(** C23: [mkfs] adds a file: on an image that holds the files [F], the loop body of
    [main] takes the next inode number, gives that inode exactly the bytes of the
    file, however the host cuts it into reads, appends the entry with the number and
    the stripped name to the root directory, changes no other file, never uses a
    block twice, and leaves the blocks it has not allocated zero. *)
Theorem mkfs_add_file {W} `{OS hcall W} fd img arg content sfd src `{!ImageFile fd img}
    `{!SourceFile fd img arg content sfd src} sb lo D fi fb F root r fuel (p : uproc hcall W) :
  disk img (u_os p) D -> image D sb lo fb F -> F !! root = Some r -> F !! fi = None -> inum_ok sb lo fi -> 0 <= fi < 2 ^ 16 ->
  (47 ∉ shortname arg) -> (length (strip_ (shortname arg)) <= DIRSIZ)%nat -> (length content < fuel)%nat ->
  (length r + 16 <= 268 * 1024)%nat -> (length content <= 268 * 1024)%nat ->
  let fb' := fb + Z.of_nat (tb (length r + 16)) - Z.of_nat (tb (length r)) + Z.of_nat (tb (length content)) in
  fb' <= Z.of_nat (length D) ->
  exists D' p', add_file fuel (mkmk fd sb fi fb) root arg p = URet (mkmk fd sb (fi + 1) fb') p' /\ disk img (u_os p') D' /\
    image D' sb lo fb' (<[fi := content]> (<[root := r ++ dirent fi (strip_ (shortname arg))]> F)) /\
    header (inode_at D' sb fi) = (T_FILE, 0, 0, 1).
Proof.
  intros Hd Him Hr Hnone Hi Hfi Hslash Hname Hfuel Hr16 Hmax fb' Hroom.
  assert (fi <> root) as Hne by congruence. set (name := strip_ (shortname arg)) in *.
  destruct Hd as ((pos & Himg) & HD & HL). unfold add_file.
  assert (memb (shortname arg) 47 = false) as -> by (apply not_true_is_false; by rewrite memb_spec).
  unfold assert at 1. unfold ubind at 1. cbn [negb uret].
  destruct (src_open _ _ _ Himg) as (a & w1 & E1 & Hs1). pose proof (src_fd (SourceFile := ltac:(eassumption))) as Hsfd.
  rewrite (ubind_ret _ _ _ _ _ (hcall_eq _ _ _ _ E1)). cbn [a_ret]. rewrite (proj2 (Z.ltb_ge _ _) Hsfd). set (p1 := mkuproc _ w1).
  assert (disk (src content) (u_os p1) D) as Hd1 by (split; [by exists pos | done]).
  assert (ImageFile fd (src content)) as HIF by (eapply src_image).
  unfold assert at 1. unfold ubind at 1. fold name. rewrite bool_decide_true by done. cbn [uret].
  destruct (ialloc_image fd (src content) sb lo D fi fb F T_FILE p1 Hd1 Him Hi Hnone ltac:(lia) ltac:(unfold T_FILE; lia))
    as (D2 & p2 & E2 & Hd2 & Hl2 & Him2 & Hh2 & _ & _).
  unfold used_mk in E2. rewrite (ubind_ret _ _ _ _ _ E2), xshort_eq by done.
  pose proof (dirent_length fi name Hname) as Hdl.
  pose proof (tb_mono (length r) (length r + 16) ltac:(lia)).
  destruct (iappend_image fd (src content) sb lo D2 (fi + 1) fb _ root r (dirent fi name) p2 Hd2 Him2 ltac:(by rewrite lookup_insert_ne) ltac:(lia) ltac:(rewrite Hdl; lia))
    as (D3 & p3 & E3 & Hd3 & Hl3 & Him3 & _ & Ho3 & _).
  rewrite Hdl in E3, Him3. unfold used_mk in E3. rewrite (ubind_ret _ _ _ _ _ E3).
  destruct (copy_in_image fd img arg content sfd src sb lo fuel D3 (fi + 1) _ _ fi [] content p3 Hd3 Him3) as (D4 & p4 & E4 & Hd4 & Hl4 & Him4 & Hh4 & _ & _).
  { rewrite lookup_insert_ne by done. apply lookup_insert_eq. } { done. } { cbn [length]. lia. } { cbn [length]. change (tb 0) with 0%nat. rewrite Nat.add_0_l. lia. }
  cbn [length app] in E4, Him4. change (tb 0) with 0%nat in E4, Him4. rewrite Nat.add_0_l, Z.sub_0_r in E4, Him4. unfold used_mk in E4. rewrite (ubind_ret _ _ _ _ _ E4).
  destruct Hd4 as ((pos4 & Hs4) & HD4 & HL4). destruct (src_close _ _ _ Hs4) as (a5 & w5 & E5 & Himg5).
  exists D4, (mkuproc (u_trace p4 ++ [HClose sfd]) w5). split; [| split; [| split]].
  - unfold hdo. rewrite (ubind_ret _ _ _ tt (mkuproc (u_trace p4 ++ [HClose sfd]) w5)); [done |].
    by rewrite (ubind_ret _ _ _ _ _ (sys_eq _ _ _ _ E5)).
  - split; [by exists pos4 | done].
  - rewrite (insert_insert_ne _ root fi), insert_insert_eq in Him4 by done. done.
  - rewrite Hh4, Ho3 by done. done.
Qed.

(** The bitmap [mkfs] writes is what the kernel's allocator expects: after
    [balloc(used)] the bitmap block has exactly the first [used] bits set, so the
    kernel's search for a free block finds block [used], the first one [mkfs] has not
    used; no other block of the image changes. *)
Theorem mkfs_bitmap_kernel {W} `{OS hcall W} fd img `{!ImageFile fd img} g D used size (p : uproc hcall W) :
  m_fsfd g = fd -> disk img (u_os p) D -> 0 <= sb_bmapstart (m_sb g) < Z.of_nat (length D) -> 0 <= used < BPB -> used < size ->
  exists d p', balloc g used p = URet tt p' /\ disk img (u_os p') (<[Z.to_nat (sb_bmapstart (m_sb g)) := d]> D) /\
    (forall j, 0 <= j < BPB -> bit_set d j = (j <? used)) /\
    find_free_bit (Z.to_nat BPB) d 0 0 size = Some used.
Proof.
  intros <- Hd Hb Hu Hsz. unfold balloc.
  assert (Hputs : forall s (p : uproc hcall W) D, disk img (u_os p) D -> exists p', puts s p = URet tt p' /\ disk img (u_os p') D).
  { intros s q E ((pos & Hi) & HD & HL). destruct (iputs_law (u_os q) _ _ stdout s Hi) as (a & w' & Eq & Hi').
    eexists. split; [unfold puts, hdo; rewrite (ubind_ret _ _ _ _ _ (sys_eq _ _ _ _ Eq)); reflexivity |]. split; [by exists pos | done]. }
  match goal with |- context [puts ?s] => destruct (Hputs s p D Hd) as (p1 & E1 & Hd1) end. rewrite (ubind_ret _ _ _ _ _ E1).
  rewrite (proj2 (Z.ltb_lt _ _)) by lia. unfold assert at 1. unfold ubind at 1. cbn [uret].
  match goal with |- context [puts ?s] => destruct (Hputs s p1 D Hd1) as (p2 & E2 & Hd2) end. rewrite (ubind_ret _ _ _ _ _ E2).
  destruct (balloc_bits_spec (Z.to_nat used) 0 zeroes ltac:(lia) ltac:(lia) ltac:(apply length_replicate)) as [Hl Hbits].
  destruct (wsect_eq (m_fsfd g) img D _ (balloc_bits (Z.to_nat used) 0 zeroes) p2 Hd2 Hb) as (p3 & E3 & Hd3).
  { rewrite Hl. apply length_replicate. }
  exists (balloc_bits (Z.to_nat used) 0 zeroes), p3. split; [done |]. split; [done |].
  assert (Hset : forall j, 0 <= j < BPB -> bit_set (balloc_bits (Z.to_nat used) 0 zeroes) j = (j <? used)).
  { intros j Hj. rewrite Hbits, zeroes_bit, orb_false_r by done. rewrite (proj2 (Z.leb_le _ _)) by lia. cbn. f_equal. lia. }
  split; [done |]. pose proof (find_free_bit_spec (Z.to_nat BPB) (balloc_bits (Z.to_nat used) 0 zeroes) 0 0 size ltac:(lia) ltac:(lia)) as Hs.
  destruct (find_free_bit _ _ _ _ _) as [k |].
  - destruct Hs as (Hk & Hk2 & Hk3 & Hk4). f_equal. rewrite Hset in Hk3 by lia. apply Z.ltb_ge in Hk3.
    destruct (decide (used < k)) as [Hlt |]; [| lia]. specialize (Hk4 used ltac:(lia)). rewrite Hset in Hk4 by lia. apply Z.ltb_lt in Hk4. lia.
  - specialize (Hs used ltac:(lia) ltac:(lia)). rewrite Hset in Hs by lia. apply Z.ltb_lt in Hs. lia.
Qed.

(** ** Witnesses *)

(** A host with an image on descriptor 3 and a file on descriptor 4. *)
Record host : Type := mkhost { ho_image : list Z; ho_pos : Z; ho_left : list Z }.
Definition sample_file : list Z := str "hello, world".
Definition host_call (c : hcall) (w : host) : answer * host :=
  match c with
  | HOpen _ _ _ => (mkanswer 4 [], mkhost (ho_image w) (ho_pos w) sample_file)
  | HLseek _ off _ => (mkanswer off [], mkhost (ho_image w) off (ho_left w))
  | HRead fd n =>
      if fd =? 3 then
        let l := take (Z.to_nat n) (drop (Z.to_nat (ho_pos w)) (ho_image w)) in
        (mkanswer (Z.of_nat (length l)) l, mkhost (ho_image w) (ho_pos w + Z.of_nat (length l)) (ho_left w))
      else
        let l := take (Z.to_nat n) (ho_left w) in
        (mkanswer (Z.of_nat (length l)) l, mkhost (ho_image w) (ho_pos w) (drop (length l) (ho_left w)))
  | HWrite _ b => (mkanswer (Z.of_nat (length b)) [], mkhost (patch (ho_image w) (Z.to_nat (ho_pos w)) b) (ho_pos w + Z.of_nat (length b)) (ho_left w))
  | _ => (mkanswer 0 [], w)
  end.
#[local] Instance host_os : OS hcall host := host_call.
Definition host_img (w : host) (d : list Z) (pos : Z) : Prop := ho_image w = d /\ ho_pos w = pos.
Definition host_src (c : list Z) (w : host) (d : list Z) (pos : Z) : Prop := host_img w d pos /\ ho_left w = c.

#[local] Instance host_src_image c : ImageFile 3 (host_src c).
Proof.
  split.
  - intros [d0 p0 l0] d pos off [[<- <-] <-] Hoff. eexists _, _. split; [reflexivity | done].
  - intros [d0 p0 l0] d o n [[<- E] <-] Hn. cbn in E, Hn. subst p0. cbn [ho_image ho_left] in *. unfold os_call, host_os, host_call. change (3 =? 3) with true. cbn match.
    cbn [ho_image ho_pos ho_left]. rewrite !Nat2Z.id, length_take, length_drop. replace (Nat.min n (length d0 - o)) with n by lia.
    eexists. split; [reflexivity |]. repeat split. cbn [ho_pos]. lia.
  - intros [d0 p0 l0] d o b [[<- E] <-] Ho. cbn in E, Ho. subst p0. unfold os_call, host_os, host_call. cbn [ho_image ho_pos ho_left]. rewrite Nat2Z.id.
    eexists _, _. split; [reflexivity |]. repeat split. cbn [ho_pos]. lia.
  - intros w d pos g s Hw. by eexists _, _.
Qed.
#[local] Instance host_image : ImageFile 3 host_img.
Proof.
  split.
  - intros w d pos off Hi Hoff. destruct (seek_law (img := host_src (ho_left w)) w d pos off (conj Hi eq_refl) Hoff) as (a & w' & E & [? _]). by exists a, w'.
  - intros w d o n Hi Hn. destruct (iread_law (img := host_src (ho_left w)) w d o n (conj Hi eq_refl) Hn) as (w' & E & [? _]). by exists w'.
  - intros w d o b Hi Hn. destruct (iwrite_law (img := host_src (ho_left w)) w d o b (conj Hi eq_refl) Hn) as (a & w' & E & [? _]). by exists a, w'.
  - intros w d pos g s Hw. by eexists _, _.
Qed.
#[local] Instance host_source arg : SourceFile 3 host_img arg sample_file 4 host_src.
Proof.
  split.
  - apply _.
  - lia.
  - intros w d pos [<- <-]. eexists _, _. split; [reflexivity | done].
  - intros [d0 p0 l0] d pos c n [[<- <-] <-] Hn. unfold os_call, host_os, host_call. change (4 =? 3) with false. cbn match. cbn [ho_image ho_pos ho_left].
    exists (length (take (Z.to_nat n) l0)), (mkhost d0 p0 (drop (length (take (Z.to_nat n) l0)) l0)). rewrite length_take. split; [| split; [done |]].
    + f_equal. f_equal. destruct (Nat.min_spec (Z.to_nat n) (length l0)) as [[_ ->] | [? ->]]; [done | by rewrite !take_ge by lia].
    + split; [lia |]. split; [lia |]. intros Hne. destruct l0; [done |]. cbn [length]. lia.
  - intros [d0 p0 l0] d pos [Hi _]. by eexists _, _.
Qed.

(** An image of eight empty blocks with the empty file 1. *)
Definition sample_sb : superblock := mksuperblock FSMAGIC 8 5 16 0 0 2 1.
Definition sample_blocks : list (list Z) := replicate 8 zeroes.
Definition sample_host : uproc hcall host := mkuproc [] (mkhost (concat sample_blocks) 0 []).
Lemma sample_disk : disk host_img (u_os sample_host) sample_blocks.
Proof. split; [by exists 0 |]. split; [by apply Forall_replicate, length_replicate | unfold sample_blocks; rewrite length_replicate; lia]. Qed.
Lemma sample_image : image sample_blocks sample_sb 3 3 {[1 := []]}.
Proof.
  split; [lia |]. split; [unfold sample_blocks; rewrite length_replicate; lia |]. split.
  { intros b Hb. unfold rd, sample_blocks in *. rewrite length_replicate in Hb. by rewrite lookup_replicate_2 by lia. }
  exists {[1 := ([], 0)]}. split; [by rewrite !dom_singleton_L |]. split.
  - intros i c B ind [<- <-]%lookup_singleton_Some [_ [= <- <-]]%lookup_singleton_Some. split; [by repeat split |].
    assert (inode_at sample_blocks sample_sb 1 = mkdinode 0 0 0 0 0 (replicate 13 0)) as Hx by (vm_compute; reflexivity).
    split; [| by rewrite Hx]. rewrite Hx. split; [| split; [intros j Hj; cbn in Hj; lia | split; [constructor | split; [constructor |]]]].
    + split; [done |]. split; [done |]. split; [| split; [intros _; cbn; lia | done]]. intros k Hk. cbn [di_addrs]. rewrite lookup_replicate_2 by (unfold NDIRECT in Hk; lia). done.
    + split; [done |]. split; [done |]. repeat split; repeat constructor; cbn; lia.
  - intros i j B ind B' ind' Hne [<- _]%lookup_singleton_Some [<- _]%lookup_singleton_Some. done.
Qed.

Lemma mkfs_add_file_witness : exists D' p',
  add_file 20 (mkmk 3 sample_sb 2 3) 1 (str "user/_cat") sample_host = URet (mkmk 3 sample_sb 3 5) p' /\
  disk host_img (u_os p') D' /\
  image D' sample_sb 3 5 (<[2 := str "hello, world"]> (<[1 := [] ++ dirent 2 (str "cat")]> {[1 := []]})) /\
  header (inode_at D' sample_sb 2) = (T_FILE, 0, 0, 1).
Proof.
  apply (mkfs_add_file 3 host_img (str "user/_cat") sample_file 4 host_src sample_sb 3 sample_blocks 2 3 {[1 := []]} 1 [] 20 sample_host).
  - apply sample_disk.
  - apply sample_image.
  - done.
  - done.
  - by repeat split.
  - lia.
  - apply (bool_decide_unpack _). vm_compute. exact I.
  - vm_compute. lia.
  - vm_compute. lia.
  - cbn [length]. lia.
  - change (length sample_file) with 12%nat. lia.
  - unfold sample_blocks. rewrite length_replicate. vm_compute. discriminate.
Defined.

Lemma mkfs_bitmap_kernel_witness : exists d p',
  balloc (mkmk 3 sample_sb 3 5) 5 sample_host = URet tt p' /\ disk host_img (u_os p') (<[1%nat := d]> sample_blocks) /\
  (forall j, 0 <= j < BPB -> bit_set d j = (j <? 5)) /\ find_free_bit (Z.to_nat BPB) d 0 0 2000 = Some 5.
Proof.
  apply (mkfs_bitmap_kernel 3 host_img (mkmk 3 sample_sb 3 5) sample_blocks 5 2000 sample_host).
  - done.
  - apply sample_disk.
  - unfold sample_blocks. rewrite length_replicate. cbn. lia.
  - unfold BPB, BSIZE. lia.
  - lia.
Defined.
