(* ===== verification/UnixShell.v ===== *)
(** * The UNIX shell ([custom_shell.c])

    The built-in commands, the input parser, the search for the custom utilities, and
    the main loop.  [args] is the list of strings before the null pointer. *)
From S2P Require Import Prelude CString User Posix.
Local Open Scope Z_scope.

Definition MAX_INPUT : nat := 1024.
Definition MAX_ARGS : nat := 64.
Definition MAX_PATH : nat := 512.
(** [path_copy]. *)
Definition PATH_COPY : nat := 2048.

Definition esc (s : string) : list Z := 27 :: str s.
Definition COLOR_RESET : list Z := esc "[0m".
Definition COLOR_GREEN : list Z := esc "[1;32m".
Definition COLOR_CYAN : list Z := esc "[1;36m".
Definition COLOR_YELLOW : list Z := esc "[1;33m".
Definition COLOR_RED : list Z := esc "[1;31m".

(** ** The parser *)
Definition blanks : list Z := [32; 9; 10].
(** The loop with [strtok]; [k] is [MAX_ARGS - 1 - count]. *)
Fixpoint parse_loop (k : nat) (token : option (list Z * list Z)) : list (list Z) :=
  match k, token with
  | S k', Some (t, rest) => t :: parse_loop k' (strtok blanks rest)
  | _, _ => []
  end.
Definition parse_input (input : list Z) : list (list Z) := parse_loop (MAX_ARGS - 1) (strtok blanks (cstr input)).

(** What precedes the last slash, if there is one. *)
Fixpoint before_slash (l : list Z) : option (list Z) :=
  match l with
  | [] => None
  | c :: r => match before_slash r with
              | Some d => Some (c :: d)
              | None => if c =? 47 then Some [] else None
              end
  end.
Definition in_dir (dir name : list Z) : list Z := snprintf MAX_PATH (dir ++ [47] ++ name).

Definition custom_utils : list (list Z) :=
  [str "custom_ls"; str "custom_cat"; str "custom_grep"; str "custom_wc"; str "custom_cp"; str "custom_mv"; str "custom_rm"].

Section shell.
Context {W : Type} `{OS hcall W}.
Abbreviation UH := (U hcall W).

(** A call that returns a string or the null pointer. *)
Definition hstring (c : hcall) : UH (option (list Z)) :=
  let! a := sys c in uret (if a_ret a <? 0 then None else Some (a_data a)).
Definition perror (s : string) : UH unit := hdo (HPerror (str s)).

(** ** Built-in commands *)
Definition builtin_cd (args : list (list Z)) : UH unit :=
  match args !! 1%nat with
  | None =>
      let! home := hstring (HGetenv (str "HOME")) in
      let! r := hcall_ret (HChdir (default (str "/") home)) in
      if negb (r =? 0) then perror "custom_shell: cd" else uret tt
  | Some d =>
      let! r := hcall_ret (HChdir d) in
      if negb (r =? 0) then perror "custom_shell: cd" else uret tt
  end.
Definition builtin_pwd : UH unit :=
  let! cwd := hstring (HGetcwd (Z.of_nat MAX_PATH)) in
  match cwd with
  | Some d => puts (d ++ nl)
  | None => perror "custom_shell: pwd"
  end.
Definition rule : list Z := str "══════════════════════════════════════════════════" ++ nl.
Definition builtin_help : UH unit :=
  puts (COLOR_CYAN ++ rule ++ str "         Custom UNIX-like Shell                " ++ nl ++
        str "         Supported Commands                      " ++ nl ++ rule ++ COLOR_RESET) ;;;
  puts (COLOR_YELLOW ++ str "Built-in commands:" ++ nl ++ COLOR_RESET) ;;;
  puts (str "  cd [dir]    - Change directory" ++ nl) ;;;
  puts (str "  pwd         - Print working directory" ++ nl) ;;;
  puts (str "  help        - Show this help message" ++ nl) ;;;
  puts (str "  exit / quit - Exit the shell" ++ nl ++ nl) ;;;
  puts (COLOR_YELLOW ++ str "Custom utilities:" ++ nl ++ COLOR_RESET) ;;;
  puts (str "  custom_ls   [dir]              - List directory contents" ++ nl) ;;;
  puts (str "  custom_cat  <file> [file...]   - Display file contents" ++ nl) ;;;
  puts (str "  custom_grep <pattern> <file>   - Search pattern in file" ++ nl) ;;;
  puts (str "  custom_wc   <file> [file...]   - Word/line/char count" ++ nl) ;;;
  puts (str "  custom_cp   <src> <dst>        - Copy file" ++ nl) ;;;
  puts (str "  custom_mv   <src> <dst>        - Move / rename file" ++ nl) ;;;
  puts (str "  custom_rm   [-r] <path>        - Remove file or directory" ++ nl).

(** ** Finding a utility *)
Definition X_OK : Z := 1.
(** [if (access(out, X_OK) == 0) return 1;] and what follows. *)
Definition try_path (out : list Z) (k : UH (option (list Z))) : UH (option (list Z)) :=
  let! r := hcall_ret (HAccess out X_OK) in
  if r =? 0 then uret (Some out) else k.
Fixpoint try_dirs (fuel : nat) (name : list Z) (dir : option (list Z * list Z)) : UH (option (list Z)) :=
  match dir, fuel with
  | None, _ => uret None
  | Some _, O => ufuel
  | Some (d, rest), S n => try_path (in_dir d name) (try_dirs n name (strtok [58] rest))
  end.
(** Without room for the final nul, [path_copy] is not a string. *)
Definition try_PATH (name : list Z) : UH (option (list Z)) :=
  let! env := hstring (HGetenv (str "PATH")) in
  match env with
  | None => uret None
  | Some path =>
      if decide (PATH_COPY - 1 <= length path)%nat then ufault
      else try_dirs (S (length path)) name (strtok [58] path)
  end.
Definition try_cwd (name : list Z) : UH (option (list Z)) := try_path (in_dir [46] name) (try_PATH name).
Definition resolve_utility (name : list Z) : UH (option (list Z)) :=
  let! a := sys (HReadlink (str "/proc/self/exe") (Z.of_nat MAX_PATH - 1)) in
  if 0 <? a_ret a then
    match before_slash (cstr (take (Z.to_nat (a_ret a)) (a_data a))) with
    | Some dir => try_path (in_dir dir name) (try_cwd name)
    | None => try_cwd name
    end
  else try_cwd name.

(** ** Running a command *)
Definition run_external (args : list (list Z)) : UH unit :=
  let! pid := hcall_ret HFork in
  if pid <? 0 then perror "custom_shell: fork" else
  if pid =? 0 then
    let file := default [] (head args) in
    let! a := sys (HExecvp file args) in
    if a_ret a <? 0 then
      eputs (COLOR_RED ++ str "custom_shell: " ++ file ++ str ": " ++ a_data a ++ nl ++ COLOR_RESET) ;;;
      uexit 1
    else fun p => UExec file args p
  else hdo (HWaitpid pid).
Definition execute (args : list (list Z)) : UH unit :=
  let name := default [] (head args) in
  if existsb (streq name) custom_utils then
    let! r := resolve_utility name in
    match r with
    | None => eputs (COLOR_RED ++ str "custom_shell: '" ++ name ++ str "' not found. Run 'make' first." ++ nl ++ COLOR_RESET)
    | Some resolved => run_external (resolved :: tail args)
    end
  else run_external args.

Definition print_prompt : UH unit :=
  let! c := hstring (HGetcwd (Z.of_nat MAX_PATH)) in
  let cwd := default (str "?") c in
  let! home := hstring (HGetenv (str "HOME")) in
  let display := match home with
    | Some h => if is_prefix h cwd then snprintf MAX_PATH (126 :: drop (length h) cwd) else snprintf MAX_PATH cwd
    | None => snprintf MAX_PATH cwd
    end in
  puts (COLOR_GREEN ++ str "custom_shell" ++ COLOR_RESET ++ str ":" ++ COLOR_CYAN ++ display ++ COLOR_RESET ++ str "$ ") ;;;
  hdo (HFflush stdout).

(** The body of the loop after the line is read; the result says whether to go on. *)
Definition shell_line (input : list Z) : UH bool :=
  if bool_decide (head input = Some 10) then uret true else
  match parse_input input with
  | [] => uret true
  | (cmd :: _) as args =>
      if streq cmd (str "exit") || streq cmd (str "quit") then puts (str "Goodbye!" ++ nl) ;;; uret false
      else if streq cmd (str "cd") then builtin_cd args ;;; uret true
      else if streq cmd (str "pwd") then builtin_pwd ;;; uret true
      else if streq cmd (str "help") then builtin_help ;;; uret true
      else execute args ;;; uret true
  end.
Fixpoint shell_loop (fuel : nat) : UH unit :=
  match fuel with
  | O => ufuel
  | S n =>
      print_prompt ;;;
      let! input := fgets MAX_INPUT stdin in
      match input with
      | None => puts nl
      | Some l => let! more := shell_line l in if (more : bool) then shell_loop n else uret tt
      end
  end.
Definition shell_main (fuel : nat) : UH unit :=
  puts (COLOR_CYAN ++ str "Welcome to Custom Shell! Type 'help' for commands." ++ nl ++ COLOR_RESET) ;;;
  shell_loop fuel ;;;
  uexit 0.
End shell.

(** ** The parser splits at blanks *)
Lemma parse_loop_fields k : forall s, parse_loop k (strtok blanks s) = take k (fields (memb blanks) s).
Proof.
  induction k as [| k IH]; intros s; [by destruct (strtok blanks s) |]. cbn [parse_loop].
  pose proof (strtok_fields blanks s) as Hs. destruct (strtok blanks s) as [[t rest] |].
  - destruct Hs as [-> _]. cbn [take]. by rewrite IH.
  - by rewrite Hs.
Qed.
Lemma parse_input_fields input : parse_input input = take 63 (fields (memb blanks) (cstr input)).
Proof. apply parse_loop_fields. Qed.

(** ** The search order *)

(** What the shell relies on: [access] and [getenv] change nothing; [ok] says which
    files can be executed, [path] is the variable [PATH], [self] the target of the
    link to the running program. *)
Class Searches {W} `{OS hcall W} (st : W -> Prop) (self path : option (list Z)) (ok : list Z -> bool) : Prop := {
  self_law : forall w, st w -> exists a w', os_call (HReadlink (str "/proc/self/exe") 511) w = (a, w') /\ st w' /\
    match self with
    | Some s => nonul s /\ s <> [] /\ a_ret a = Z.of_nat (length s) /\ a_data a = s
    | None => a_ret a < 0
    end;
  path_law : forall w, st w -> exists a w', os_call (HGetenv (str "PATH")) w = (a, w') /\ st w' /\
    match path with Some v => 0 <= a_ret a /\ a_data a = v | None => a_ret a < 0 end;
  access_law : forall w f, st w -> exists a w', os_call (HAccess f X_OK) w = (a, w') /\ st w' /\ (a_ret a =? 0) = ok f;
}.

(** The files the shell looks for, in order. *)
Definition candidates (self path : option (list Z)) (name : list Z) : list (list Z) :=
  (match s ← self; before_slash s with Some d => [in_dir d name] | None => [] end) ++
  in_dir [46] name ::
  (match path with Some v => (fun d => in_dir d name) <$> fields (memb [58]) v | None => [] end).

Section search.
Context {W : Type} `{OS hcall W} (st : W -> Prop) (self path : option (list Z)) (ok : list Z -> bool) `{!Searches st self path ok}.

(** The outcome of a search: the first file of the list that can be executed. *)
Definition finds (m : U hcall W (option (list Z))) (l : list (list Z)) : Prop :=
  forall p, st (u_os p) -> exists p', m p = URet (List.find ok l) p' /\ st (u_os p').

Lemma finds_try f m l : finds m l -> finds (try_path f m) (f :: l).
Proof.
  intros Hm p Hp. unfold try_path. destruct (access_law _ f Hp) as (a & w' & E & Hst & Ha).
  rewrite (ubind_ret _ _ _ _ _ (hcall_eq _ _ _ _ E)), Ha. cbn [List.find]. destruct (ok f); [| by apply Hm].
  eexists. split; [reflexivity | done].
Qed.
Lemma finds_dirs name fuel : forall s, (length s < fuel)%nat ->
  finds (try_dirs fuel name (strtok [58] s)) ((fun d => in_dir d name) <$> fields (memb [58]) s).
Proof.
  induction fuel as [| fuel IH]; intros s Hs; [lia |]. pose proof (strtok_fields [58] s) as Hf.
  destruct (strtok [58] s) as [[t rest] |]; cbn [try_dirs].
  - destruct Hf as [-> Hl]. apply finds_try, IH. lia.
  - rewrite Hf. intros p Hp. by exists p.
Qed.
Lemma finds_PATH name : (match path with Some v => (length v < 2047)%nat | None => True end) ->
  finds (try_PATH name) (match path with Some v => (fun d => in_dir d name) <$> fields (memb [58]) v | None => [] end).
Proof.
  pose proof (finds_dirs name) as Hdirs. intros Hlen p Hp. unfold try_PATH, hstring. destruct (path_law _ Hp) as (a & w' & E & Hst & Ha). rewrite ubind_assoc.
  rewrite (ubind_ret _ _ _ _ _ (sys_eq _ _ _ _ E)). destruct path as [v |].
  - destruct Ha as [Ha ->]. rewrite (proj2 (Z.ltb_ge _ _) Ha). unfold ubind at 1. cbn [uret].
    rewrite decide_False by (unfold PATH_COPY; lia). apply Hdirs; [lia | done].
  - rewrite (proj2 (Z.ltb_lt _ _) Ha). unfold ubind at 1. cbn [uret]. eexists. split; [reflexivity | done].
Qed.
End search.

(** ** Properties *)

(** The shell finds a utility in the documented order: its own directory, the
    current directory, then the directories of [PATH] from left to right; the first
    of these files that can be executed is the result, and there is none only if
    none of them can.  [PATH] must be shorter than the copy the search makes. *)
Theorem resolve_utility_order {W} `{OS hcall W} (st : W -> Prop) self path ok `{!Searches st self path ok} name (p : uproc hcall W) :
  st (u_os p) -> (match path with Some v => (length v < 2047)%nat | None => True end) ->
  exists p', resolve_utility name p = URet (List.find ok (candidates self path name)) p' /\ st (u_os p').
Proof.
  intros Hp Hlen. unfold resolve_utility, candidates. change (Z.of_nat MAX_PATH - 1) with 511.
  pose proof (finds_try st self path ok (in_dir [46] name) _ _ (finds_PATH st self path ok name Hlen)) as Hcwd.
  destruct (self_law _ Hp) as (a & w' & E & Hst & Ha). rewrite (ubind_ret _ _ _ _ _ (sys_eq _ _ _ _ E)).
  set (p1 := mkuproc _ w'). change (st (u_os p1)) in Hst.
  assert (Htry : forall f, finds st ok (try_path f (try_cwd name)) (f :: in_dir [46] name :: match path with
    | Some v => (fun d => in_dir d name) <$> fields (memb [58]) v | None => [] end)) by (intros f; by apply (finds_try st self path ok)).
  destruct self as [s |].
  - destruct Ha as (Hn & Hne & Hr & Hd). rewrite Hr, Hd, Nat2Z.id, take_ge by done.
    rewrite (proj2 (Z.ltb_lt _ _)) by (destruct s; [done | cbn; lia]). cbn [mbind option_bind].
    rewrite cstr_nonul_id by done. destruct (before_slash s) as [d |]; [by apply Htry | by apply Hcwd].
  - rewrite (proj2 (Z.ltb_ge _ _)) by lia. by apply Hcwd.
Qed.

(** C36: A command line that names neither a built-in command nor a custom utility runs the
    program it names.  The words of the line are its maximal runs of characters other than
    blank, tab and newline, and the parser keeps the first 63 of them: the child executes
    the first word with exactly these words as arguments, any further word being dropped, and
    the shell waits for that child and goes on. *)
Theorem shell_line_executes {W} `{OS hcall W} input name ws (p : uproc hcall W) a w1 :
  take 63 (fields (memb blanks) (cstr input)) = name :: ws -> head input <> Some 10 ->
  (name ∉ [str "exit"; str "quit"; str "cd"; str "pwd"; str "help"] ++ custom_utils) ->
  os_call HFork (u_os p) = (a, w1) ->
  (forall a2 w2, a_ret a = 0 -> os_call (HExecvp name (name :: ws)) w1 = (a2, w2) -> 0 <= a_ret a2 ->
     shell_line input p = UExec name (name :: ws) (mkuproc (u_trace p ++ [HFork; HExecvp name (name :: ws)]) w2)) /\
  (0 < a_ret a -> exists w2,
     shell_line input p = URet true (mkuproc (u_trace p ++ [HFork; HWaitpid (a_ret a)]) w2)).
Proof.
  intros Hws Hnl Hn Efork. unfold shell_line. rewrite bool_decide_false by done. rewrite parse_input_fields, Hws.
  assert (Hne : forall s, s ∈ [str "exit"; str "quit"; str "cd"; str "pwd"; str "help"] ++ custom_utils -> streq name s = false).
  { intros s Hs. apply bool_decide_false. by intros ->. }
  rewrite !Hne by (unfold custom_utils; set_solver). cbn [orb]. unfold execute. cbn [head from_option id].
  assert (existsb (streq name) custom_utils = false) as ->.
  { apply not_true_is_false. intros (s & Hs & E)%existsb_exists. rewrite Hne in E; [done |]. apply elem_of_app. right. by apply list_elem_of_In. }
  unfold run_external. split.
  - intros a2 w2 Ha Eexec Ha2. rewrite ubind_assoc, (ubind_ret _ _ _ _ _ (hcall_eq _ _ _ _ Efork)), Ha. cbn [Z.ltb Z.compare Z.eqb head from_option id].
    rewrite ubind_assoc, (ubind_ret _ _ _ _ _ (sys_eq _ (mkuproc _ w1) _ _ Eexec)). rewrite (proj2 (Z.ltb_ge _ _) Ha2). unfold ubind. cbn [u_trace].
    by rewrite <- app_assoc.
  - intros Ha. rewrite ubind_assoc, (ubind_ret _ _ _ _ _ (hcall_eq _ _ _ _ Efork)).
    rewrite (proj2 (Z.ltb_ge _ _)), (proj2 (Z.eqb_neq _ _)) by lia.
    destruct (hdo_eq (HWaitpid (a_ret a)) (mkuproc (u_trace p ++ [HFork]) w1)) as [w2 E]. exists w2. rewrite (ubind_ret _ _ _ _ _ E).
    cbn [u_trace]. by rewrite <- app_assoc.
Qed.

(** ** Witnesses *)

(** A host whose link, [PATH] and executable files are fixed. *)
Definition fixed_call (c : hcall) (w : unit) : answer * unit :=
  match c with
  | HReadlink _ _ => (mkanswer 12 (str "/opt/g25/shl"), w)
  | HGetenv _ => (mkanswer 0 (str "/bin:/usr/bin"), w)
  | HAccess f _ => (mkanswer (if streq f (str "/usr/bin/custom_ls") then 0 else -1) [], w)
  | _ => (mkanswer 0 [], w)
  end.
#[local] Instance fixed_os : OS hcall unit := fixed_call.
#[local] Instance fixed_searches : Searches (fun _ => True) (Some (str "/opt/g25/shl")) (Some (str "/bin:/usr/bin"))
  (fun f => streq f (str "/usr/bin/custom_ls")).
Proof.
  split.
  - intros w _. eexists _, _. split; [reflexivity |]. split; [done |]. split; [by repeat constructor |]. done.
  - intros w _. eexists _, _. split; [reflexivity |]. done.
  - intros w f _. eexists _, _. split; [reflexivity |]. split; [done |]. cbn. by destruct (streq f _).
Qed.

Lemma resolve_utility_order_witness : exists p',
  resolve_utility (str "custom_ls") (mkuproc [] tt) = URet (Some (str "/usr/bin/custom_ls")) p' /\ True.
Proof.
  destruct (resolve_utility_order (fun _ => True) (Some (str "/opt/g25/shl")) (Some (str "/bin:/usr/bin"))
    (fun f => streq f (str "/usr/bin/custom_ls")) (str "custom_ls") (mkuproc [] tt) I) as (p' & E & _).
  - vm_compute. lia.
  - exists p'. split; [| done]. etransitivity; [exact E |]. vm_compute. reflexivity.
Defined.

(** The README promises 64 arguments: of the 64 words of this line the last is dropped. *)
Example parse_input_drops : parse_input (mjoin (replicate 64 (str "a "))) = replicate 63 (str "a").
Proof. vm_compute. reflexivity. Qed.

Lemma shell_line_executes_witness :
  shell_line (str "echo  a b" ++ [10]) (mkuproc [] tt) =
  UExec (str "echo") [str "echo"; str "a"; str "b"] (mkuproc [HFork; HExecvp (str "echo") [str "echo"; str "a"; str "b"]] tt).
Proof.
  apply (shell_line_executes (str "echo  a b" ++ [10]) (str "echo") [str "a"; str "b"] (mkuproc [] tt) (mkanswer 0 []) tt) with (a2 := mkanswer 0 []).
  - vm_compute. reflexivity.
  - vm_compute. discriminate.
  - apply (bool_decide_unpack _). vm_compute. exact I.
  - reflexivity.
  - reflexivity.
  - reflexivity.
  - cbn. lia.
Defined.
