(* ===== verification/UnixUtils.v ===== *)
(** * The UNIX utilities ([custom_wc.c], [custom_cat.c], [custom_grep.c],
    [custom_cp.c], [custom_mv.c], [custom_rm.c], [custom_ls.c])

    One program after the other.  [main] returns by ending the process with its
    result.  Loops over input have fuel; one more than the bytes of the input is
    enough. *)
From S2P Require Import Prelude CString User Posix.
From Stdlib Require Import Sorting.Sorted.
Local Open Scope Z_scope.

(** [argv[i][0] == '-']. *)
Definition is_flag (arg : list Z) : bool := bool_decide (head arg = Some 45).
(** A conditional assignment in a flag loop. *)
Definition has (arg : list Z) (c : Z) : bool := memb (tail arg) c.

(** ** custom_ls: data *)
Definition MAX_FILES : nat := 1024.
Definition COLOR_RESET : list Z := 27 :: str "[0m".
Definition COLOR_BLUE : list Z := 27 :: str "[1;34m".
Definition COLOR_GREEN : list Z := 27 :: str "[1;32m".
Definition S_IXUSR : Z := 64.
Definition S_ISDIR (mode : Z) : bool := Z.land mode 0xF000 =? 0x4000.
(** The bits [S_IRUSR], [S_IWUSR], ... [S_IXOTH], in this order. *)
Definition perm_bits : list (Z * Z) :=
  [(256, 114); (128, 119); (64, 120); (32, 114); (16, 119); (8, 120); (4, 114); (2, 119); (1, 120)].

(** [strcmp]: the difference of the first characters that differ. *)
Fixpoint strcmp (a b : list Z) : Z :=
  match a, b with
  | [], [] => 0
  | [], y :: _ => - y
  | x :: _, [] => x
  | x :: a', y :: b' => if x =? y then strcmp a' b' else x - y
  end.
(** [compare] on the entries, and [qsort]. *)
Definition compare (f1 f2 : list Z) : Z := strcmp f1 f2.
Fixpoint insert_entry (f : list Z) (l : list (list Z)) : list (list Z) :=
  match l with
  | [] => [f]
  | g :: r => if compare f g <=? 0 then f :: l else g :: insert_entry f r
  end.
Definition qsort (l : list (list Z)) : list (list Z) := foldr insert_entry [] l.

Section utils.
Context {W : Type} `{OS hcall W}.
Abbreviation UH := (U hcall W).

(** [fopen(name, "r")]. *)
Definition fopen_r (name : list Z) : UH Z := hcall_ret (HFopen name (str "r")).

(** ** custom_wc *)
Fixpoint count_loop (fuel : nat) (fp : Z) (k : counts) : UH counts :=
  match fuel with
  | O => ufuel
  | S n =>
      let! ch := hcall_ret (HFgetc fp) in
      if ch =? EOF then uret k else count_loop n fp (count_byte isspace k ch)
  end.
Definition show (b : bool) (v : Z) : UH unit := if b then puts (decimal v ++ [32]) else uret tt.
Definition count_file (fuel : nat) (fp : Z) (show_l show_w show_c : bool) : UH unit :=
  let! k := count_loop fuel fp (mkcounts 0 0 0 false) in
  show show_l (n_l k) ;;;
  show show_w (n_w k) ;;;
  show show_c (n_c k).
(** The flags, and the arguments after them: every flag argument replaces the
    ones before. *)
Fixpoint wc_flags (args : list (list Z)) (fl : bool * bool * bool) : list (list Z) * (bool * bool * bool) :=
  match args with
  | a :: r => if is_flag a then wc_flags r (has a 108, has a 119, has a 99) else (args, fl)
  | [] => ([], fl)
  end.
Definition wc_main (fuel : nat) (argv : list (list Z)) : UH unit :=
  let '(files, (show_l, show_w, show_c)) := wc_flags (tail argv) (true, true, true) in
  match files with
  | [] => count_file fuel stdin show_l show_w show_c ;;; puts nl ;;; uexit 0
  | _ =>
      ueach files (fun f =>
        let! fp := fopen_r f in
        if fp <? 0 then hdo (HPerror f) else
        count_file fuel fp show_l show_w show_c ;;;
        puts (f ++ nl) ;;;
        hdo (HFclose fp)) ;;;
      uexit 0
  end.

(** ** custom_cat *)
Fixpoint show_loop (fuel : nat) (src : Z) (flag_numbering : bool) (counter : Z) (at_line_start : bool) : UH unit :=
  match fuel with
  | O => ufuel
  | S n =>
      let! ch := hcall_ret (HFgetc src) in
      if ch =? EOF then uret tt else
      let number := at_line_start && flag_numbering in
      (if number then puts (padded 4 (decimal counter) ++ str " | ") else uret tt) ;;;
      puts [ch] ;;;
      show_loop n src flag_numbering (if number then s32 (counter + 1) else counter)
        (if ch =? 10 then true else if number then false else at_line_start)
  end.
Definition show_contents (fuel : nat) (src : Z) (flag_numbering : bool) : UH unit :=
  show_loop fuel src flag_numbering 1 true.
Definition open_and_display (fuel : nat) (filename : list Z) (flag_numbering : bool) : UH Z :=
  let! src := fopen_r filename in
  if src <? 0 then
    eputs (str "custom_cat: cannot open '" ++ filename ++ str "': ") ;;;
    hdo (HPerror []) ;;;
    uret (-1)
  else
    show_contents fuel src flag_numbering ;;;
    hdo (HFclose src) ;;;
    uret 0.
Fixpoint cat_flags (args : list (list Z)) (flag_numbering : bool) : UH (list (list Z) * bool) :=
  match args with
  | a :: r =>
      if is_flag a then
        if streq a (str "-n") then cat_flags r true
        else eputs (str "custom_cat: unknown flag '" ++ a ++ str "'" ++ nl) ;;; cat_flags r flag_numbering
      else uret (args, flag_numbering)
  | [] => uret ([], flag_numbering)
  end.
Fixpoint cat_files (fuel : nat) (files : list (list Z)) (flag_numbering : bool) (exit_status : Z) : UH Z :=
  match files with
  | [] => uret exit_status
  | f :: r =>
      let! result := open_and_display fuel f flag_numbering in
      cat_files fuel r flag_numbering (if negb (result =? 0) then 1 else exit_status)
  end.
Definition cat_main (fuel : nat) (argv : list (list Z)) : UH unit :=
  let! '(files, flag_numbering) := cat_flags (tail argv) false in
  match files with
  | [] => show_contents fuel stdin flag_numbering ;;; uexit 0
  | _ => let! st := cat_files fuel files flag_numbering 0 in uexit st
  end.

(** ** custom_grep *)
Definition MAX_LINE : nat := 1024.
Definition to_lower (s : list Z) : list Z := tolower <$> s.
(** The copies must fit their arrays. *)
Definition contains_ignore_case (line pattern : list Z) : UH bool :=
  if decide (MAX_LINE <= length line \/ MAX_LINE <= length pattern)%nat then ufault
  else uret (strstr (to_lower line) (to_lower pattern)).
Fixpoint grep_loop (fuel : nat) (file : Z) (pattern : list Z) (ignore_case : bool) (line_no : Z) : UH unit :=
  match fuel with
  | O => ufuel
  | S n =>
      let! l := fgets MAX_LINE file in
      match l with
      | None => uret tt
      | Some bytes =>
          let line := cstr bytes in
          let! m := (if ignore_case then contains_ignore_case line pattern else uret (strstr line pattern)) in
          (if (m : bool) then puts (decimal line_no ++ str ": " ++ line) else uret tt) ;;;
          grep_loop n file pattern ignore_case (s32 (line_no + 1))
      end
  end.
Definition grep_file (fuel : nat) (filename pattern : list Z) (ignore_case : bool) : UH unit :=
  let! file := fopen_r filename in
  if file <? 0 then hdo (HPerror (str "Error opening file")) ;;; uexit 1 else
  grep_loop fuel file pattern ignore_case 1 ;;;
  hdo (HFclose file) ;;;
  uexit 0.
Definition grep_main (fuel : nat) (argv : list (list Z)) : UH unit :=
  let usage :=
    let prog := default [] (head argv) in
    puts (str "Usage:" ++ nl) ;;;
    puts (str "  " ++ prog ++ str " <pattern> <filename>" ++ nl) ;;;
    puts (str "  " ++ prog ++ str " -i <pattern> <filename>" ++ nl) ;;;
    uexit 1 in
  match argv with
  | [_; pattern; filename] => grep_file fuel filename pattern false
  | [_; flag; pattern; filename] => if streq flag (str "-i") then grep_file fuel filename pattern true else usage
  | _ => usage
  end.

(** ** custom_cp *)
(** [O_WRONLY | O_CREAT | O_TRUNC] of the host. *)
Definition DST_FLAGS : Z := 0x241.
Fixpoint cp_loop (fuel : nat) (src_fd dest_fd : Z) : UH unit :=
  match fuel with
  | O => ufuel
  | S n =>
      let! a := sys (HRead src_fd 4096) in
      if 0 <? a_ret a then
        let! r := hcall_ret (HWrite dest_fd (take (Z.to_nat (a_ret a)) (a_data a))) in
        if negb (r =? a_ret a) then hdo (HPerror (str "Error writing to destination"))
        else cp_loop n src_fd dest_fd
      else uret tt
  end.
Definition cp_main (fuel : nat) (argv : list (list Z)) : UH unit :=
  match argv with
  | [_; src; dst] =>
      let! src_fd := hcall_ret (HOpen src 0 0) in
      if src_fd <? 0 then hdo (HPerror (str "Error opening source file")) ;;; uexit 1 else
      let! dest_fd := hcall_ret (HOpen dst DST_FLAGS 420) in
      if dest_fd <? 0 then
        hdo (HPerror (str "Error creating destination file")) ;;;
        hdo (HClose src_fd) ;;;
        uexit 1
      else
      cp_loop fuel src_fd dest_fd ;;;
      hdo (HClose src_fd) ;;;
      hdo (HClose dest_fd) ;;;
      puts (str "File copied successfully." ++ nl) ;;;
      uexit 0
  | _ => puts (str "Usage: " ++ default [] (head argv) ++ str " <source> <destination>" ++ nl) ;;; uexit 1
  end.

(** ** custom_mv *)
Definition mv_main (argv : list (list Z)) : UH unit :=
  match argv with
  | [_; old; new] =>
      let! r := hcall_ret (HRename old new) in
      if r =? 0 then
        puts (str "File moved/renamed successfully from " ++ old ++ str " to " ++ new ++ nl) ;;; uexit 0
      else hdo (HPerror (str "Error moving file")) ;;; uexit 1
  | _ => puts (str "Usage: " ++ default [] (head argv) ++ str " <source_file> <destination_path>" ++ nl) ;;; uexit 1
  end.

(** ** custom_rm *)

(** [scanf(" %c", &choice)]: the next character that is not white space; [junk] is
    what the uninitialised variable holds, and keeps at the end of the input. *)
Fixpoint scan_char (fuel : nat) (junk : Z) : UH Z :=
  match fuel with
  | O => ufuel
  | S n =>
      let! c := hcall_ret (HFgetc stdin) in
      if c =? EOF then uret junk else if isspace c then scan_char n junk else uret c
  end.
Definition rm_file (f : list Z) : UH unit :=
  let! r := hcall_ret (HRemove f) in
  if r =? 0 then puts (str "Deleted: " ++ f ++ nl) else hdo (HPerror f).
(** [junk i] is what the uninitialised [choice] of the prompt [i] from here on holds. *)
Fixpoint rm_files (fuel : nat) (junk : nat -> Z) (interactive : bool) (files : list (list Z)) : UH unit :=
  match files with
  | [] => uret tt
  | f :: r =>
      (if interactive then
         puts (str "Remove " ++ f ++ str "? (y/n): ") ;;;
         let! choice := scan_char fuel (junk O) in
         if negb (choice =? 121) then uret tt else rm_file f
       else rm_file f) ;;;
      rm_files fuel (fun i => junk (S i)) interactive r
  end.
Definition rm_main (fuel : nat) (junk : nat -> Z) (argv : list (list Z)) : UH unit :=
  match argv with
  | _ :: a :: r =>
      (if streq a (str "-i") then rm_files fuel junk true r else rm_files fuel junk false (a :: r)) ;;;
      uexit 0
  | _ => puts (str "Usage: custom_rm [-i] <file1> <file2> ..." ++ nl) ;;; uexit 1
  end.

(** ** custom_ls *)
Definition print_permissions (mode : Z) : UH unit :=
  puts (if S_ISDIR mode then str "d" else str "-") ;;;
  ueach perm_bits (fun b => puts (if istrue (Z.land mode b.1) then [b.2] else str "-")).
Definition print_colored_name (name : list Z) (mode : Z) : UH unit :=
  if S_ISDIR mode then puts (COLOR_BLUE ++ name ++ COLOR_RESET)
  else if istrue (Z.land mode S_IXUSR) then puts (COLOR_GREEN ++ name ++ COLOR_RESET)
  else puts name.
Definition print_size (size : Z) : UH unit :=
  if size <? 1024 then puts (decimal size ++ str "B")
  else if size <? 1024 * 1024 then puts (fixed1 size 1024 ++ str "K")
  else puts (fixed1 size (1024 * 1024) ++ str "M").

(** The names of a directory; more than fit in [files] is an access out of bounds. *)
Fixpoint read_entries (fuel : nat) (dir : Z) (flag_a : bool) (n : nat) : UH (list (list Z)) :=
  match fuel with
  | O => ufuel
  | S k =>
      let! e := sys (HReaddir dir) in
      if a_ret e <? 0 then uret [] else
      let name := a_data e in
      if negb flag_a && bool_decide (head name = Some 46) then read_entries k dir flag_a n else
      if decide (MAX_FILES <= n)%nat then ufault else
      let! r := read_entries k dir flag_a (S n) in
      uret (name :: r)
  end.
(** The fields of [struct stat] the program uses: mode, links, size, time. *)
Fixpoint print_entries (path : list Z) (flag_l flag_h : bool) (files : list (list Z)) (file_count dir_count : Z) : UH (Z * Z) :=
  match files with
  | [] => uret (file_count, dir_count)
  | name :: r =>
      let full_path := snprintf 512 (path ++ [47] ++ name) in
      let! a := sys (HStat full_path) in
      if a_ret a =? -1 then
        hdo (HPerror (str "stat")) ;;;
        print_entries path flag_l flag_h r file_count dir_count
      else
        let mode := nth 0 (a_data a) 0 in
        let st_nlink := nth 1 (a_data a) 0 in
        let st_size := nth 2 (a_data a) 0 in
        let st_mtime := nth 3 (a_data a) 0 in
        (if flag_l then
           print_permissions mode ;;;
           puts (str " " ++ decimal st_nlink) ;;;
           puts (str " ") ;;;
           (if flag_h then print_size st_size else puts (padded 5 (decimal st_size))) ;;;
           let! t := sys (HStrftime (str "%b %d %H:%M") st_mtime) in
           puts (str " " ++ a_data t ++ str " ") ;;;
           print_colored_name name mode ;;;
           puts nl
         else
           print_colored_name name mode ;;;
           puts nl) ;;;
        if S_ISDIR mode then print_entries path flag_l flag_h r file_count (s32 (dir_count + 1))
        else print_entries path flag_l flag_h r (s32 (file_count + 1)) dir_count
  end.
Definition list_directory (fuel : nat) (path : list Z) (flag_l flag_a flag_h : bool) : UH unit :=
  let! dir := hcall_ret (HOpendir path) in
  if dir <? 0 then eputs (str "custom_ls: cannot access '" ++ path ++ str "'" ++ nl) else
  let! files := read_entries fuel dir flag_a 0 in
  hdo (HClosedir dir) ;;;
  let! '(file_count, dir_count) := print_entries path flag_l flag_h (qsort files) 0 0 in
  puts (nl ++ str "Files: " ++ decimal file_count ++ str " | Directories: " ++ decimal dir_count ++ nl).

(** The characters of a flag argument. *)
Fixpoint ls_flag (l : list Z) (fl : bool * bool * bool) : UH (bool * bool * bool) :=
  match l with
  | [] => uret fl
  | c :: r =>
      let '(flag_l, flag_a, flag_h) := fl in
      if c =? 108 then ls_flag r (true, flag_a, flag_h)
      else if c =? 97 then ls_flag r (flag_l, true, flag_h)
      else if c =? 104 then ls_flag r (flag_l, flag_a, true)
      else eputs (str "custom_ls: invalid option -- '" ++ [c] ++ str "'" ++ nl) ;;; ls_flag r fl
  end.
Fixpoint ls_flags (args : list (list Z)) (fl : bool * bool * bool) : UH (list (list Z) * (bool * bool * bool)) :=
  match args with
  | a :: r => if is_flag a then let! fl := ls_flag (tail a) fl in ls_flags r fl else uret (args, fl)
  | [] => uret ([], fl)
  end.
Definition ls_main (fuel : nat) (argv : list (list Z)) : UH unit :=
  let! '(dirs, (flag_l, flag_a, flag_h)) := ls_flags (tail argv) (false, false, false) in
  match dirs with
  | [] => list_directory fuel [46] flag_l flag_a flag_h ;;; uexit 0
  | _ => ueach dirs (fun d => list_directory fuel d flag_l flag_a flag_h) ;;; uexit 0
  end.
End utils.

(** ** Copying *)

(** What [custom_cp] relies on of its two descriptors: [left w c] says that [c] is left
    to read on [src]; writing to [dst] does not touch it and takes all its bytes. *)
Class Copies {W} `{OS hcall W} (src dst : Z) (left : W -> list Z -> Prop) : Prop := {
  cp_read_law : forall w c n, left w c -> 0 < n -> exists k w',
    os_call (HRead src n) w = (mkanswer (Z.of_nat k) (take k c), w') /\ left w' (drop k c) /\
    (k <= length c)%nat /\ (c <> [] -> (0 < k)%nat);
  cp_write_law : forall w c d, left w c -> exists a w',
    os_call (HWrite dst d) w = (a, w') /\ left w' c /\ a_ret a = Z.of_nat (length d);
}.

Lemma cp_loop_eq {W} `{OS hcall W} src dst left `{!Copies src dst left} : forall fuel c (p : uproc hcall W),
  left (u_os p) c -> (length c < fuel)%nat ->
  exists p', cp_loop fuel src dst p = URet tt p' /\ left (u_os p') [] /\ hwritten dst (u_trace p') = hwritten dst (u_trace p) ++ c.
Proof.
  induction fuel as [| fuel IH]; intros c p Hl Hf; [lia |]. cbn [cp_loop].
  destruct (cp_read_law (u_os p) c 4096 Hl ltac:(lia)) as (k & w' & Er & Hl' & Hk & Hpos).
  rewrite (ubind_ret _ _ _ _ _ (sys_eq _ _ _ _ Er)). cbn [a_ret a_data].
  assert (Hw : forall t, hwritten dst (t ++ [HRead src 4096]) = hwritten dst t) by (intros t; rewrite hwritten_app; apply app_nil_r).
  destruct (decide (c = [])) as [-> | Hc].
  { destruct k as [| k]; [| cbn in Hk; lia]. eexists. split; [reflexivity |]. split; [exact Hl' |]. cbn [u_trace]. by rewrite Hw, app_nil_r. }
  specialize (Hpos Hc). rewrite (proj2 (Z.ltb_lt _ _)) by lia. rewrite Nat2Z.id, take_idemp.
  destruct (cp_write_law w' (drop k c) (take k c) Hl') as (a & w2 & Ew & Hl2 & Ha). rewrite length_take in Ha.
  rewrite (ubind_ret _ _ _ _ _ (hcall_eq _ (mkuproc _ w') _ _ Ew)), Ha. replace (Nat.min k (length c)) with k by lia. rewrite Z.eqb_refl. cbn [negb].
  destruct (IH (drop k c) (mkuproc ((u_trace p ++ [HRead src 4096]) ++ [HWrite dst (take k c)]) w2) Hl2 ltac:(rewrite length_drop; lia))
    as (p' & E & Hl3 & Hw3).
  exists p'. split; [exact E |]. split; [done |]. rewrite Hw3. cbn [u_trace]. rewrite hwritten_app, Hw.
  unfold hwritten at 2. cbn. rewrite Z.eqb_refl. cbn. by rewrite app_nil_r, <- app_assoc, take_drop.
Qed.

(** ** Numbering lines *)

(** A text cut after its newlines. *)
Fixpoint cut_lines (l : list Z) : list (list Z) :=
  match l with
  | [] => []
  | c :: r => if c =? 10 then [c] :: cut_lines r
              else match cut_lines r with
                   | [] => [[c]]
                   | w :: ws => (c :: w) :: ws
                   end
  end.
(** Each line after its number in a field of four. *)
Fixpoint numbered (n : Z) (ls : list (list Z)) : list Z :=
  match ls with
  | [] => []
  | l :: r => padded 4 (decimal n) ++ str " | " ++ l ++ numbered (n + 1) r
  end.
Lemma cut_lines_concat l : concat (cut_lines l) = l.
Proof.
  induction l as [| c r IH]; [done |]. cbn [cut_lines]. destruct (c =? 10); [cbn; by rewrite IH |].
  destruct (cut_lines r) as [| w ws]; cbn in *; by rewrite <- IH.
Qed.

(** What the loop prints from a state: the rest of a line, then numbered lines. *)
Fixpoint cat_text (n : Z) (start : bool) (l : list Z) : list Z :=
  match l with
  | [] => []
  | c :: r => (if start then padded 4 (decimal n) ++ str " | " else []) ++ c :: cat_text (if start then n + 1 else n) (c =? 10) r
  end.
Lemma cat_text_numbered l : forall n,
  cat_text n true l = numbered n (cut_lines l) /\
  cat_text n false l = match cut_lines l with
                       | [] => []
                       | w :: ws => w ++ numbered n ws
                       end.
Proof.
  induction l as [| c r IH]; intros n; [done |]. cbn [cat_text cut_lines]. destruct (Z.eqb_spec c 10) as [-> | Hc].
  - split; cbn [numbered app]; by rewrite (proj1 (IH _)), <- ?app_assoc.
  - split; rewrite (proj2 (IH _)); destruct (cut_lines r) as [| w ws]; cbn [numbered]; by rewrite ?app_nil_r, <- ?app_assoc.
Qed.

Lemma show_loop_numbers {W} `{OS hcall W} f left `{!InStream f left} : forall fuel c n start (p : uproc hcall W),
  left (u_os p) c -> Forall (fun b => 0 <= b) c -> (length c < fuel)%nat -> 0 <= n -> n + Z.of_nat (length c) < 2 ^ 31 ->
  exists p', show_loop fuel f true n start p = URet tt p' /\ left (u_os p') [] /\
    shown stdout (u_trace p') = shown stdout (u_trace p) ++ cat_text n start c.
Proof.
  induction fuel as [| fuel IH]; intros c n start p Hl Hb Hf Hn Hmax; [lia |]. cbn [show_loop].
  destruct (fgetc_eq f left c p Hl) as (p1 & E1 & Hl1 & Hs1). rewrite (ubind_ret _ _ _ _ _ E1).
  destruct c as [| b c]; cbn [head tail from_option id] in *.
  { rewrite Z.eqb_refl. exists p1. cbn. by rewrite app_nil_r. }
  apply Forall_cons in Hb as [Hb0 Hb]. rewrite (proj2 (Z.eqb_neq b EOF)) by (unfold EOF; lia). rewrite andb_true_r.
  assert (exists p2, (if start then puts (padded 4 (decimal n) ++ str " | ") else uret tt) p1 = URet tt p2 /\ left (u_os p2) c /\
    shown stdout (u_trace p2) = shown stdout (u_trace p1) ++ (if start then padded 4 (decimal n) ++ str " | " else [])) as (p2 & E2 & Hl2 & Hs2).
  { destruct start; [by apply (puts_eq f left) |]. exists p1. by rewrite app_nil_r. }
  rewrite (ubind_ret _ _ _ _ _ E2). destruct (puts_eq f left [b] c p2 Hl2) as (p3 & E3 & Hl3 & Hs3). rewrite (ubind_ret _ _ _ _ _ E3).
  cbn [length] in *.
  destruct (IH c (if start then s32 (n + 1) else n) (if b =? 10 then true else if start then false else start) p3 Hl3 Hb ltac:(lia)) as (p' & E & Hl' & Hs').
  { destruct start; [rewrite s32_small |]; lia. } { destruct start; [rewrite s32_small |]; lia. }
  exists p'. split; [exact E |]. split; [done |]. rewrite Hs', Hs3, Hs2, Hs1, <- !app_assoc. f_equal. cbn [cat_text]. f_equal. cbn [app]. f_equal.
  replace (if b =? 10 then true else if start then false else start) with (b =? 10) by (destruct (b =? 10), start; done).
  destruct start; [by rewrite s32_small by lia | done].
Qed.

(** ** Counting *)
Lemma count_loop_eq {W} `{OS hcall W} f left `{!InStream f left} : forall fuel c k (p : uproc hcall W),
  left (u_os p) c -> Forall (fun b => 0 <= b) c -> (length c < fuel)%nat ->
  exists p', count_loop fuel f k p = URet (foldl (count_byte isspace) k c) p' /\ left (u_os p') [] /\
    shown stdout (u_trace p') = shown stdout (u_trace p).
Proof.
  induction fuel as [| fuel IH]; intros c k p Hl Hb Hf; [lia |]. cbn [count_loop].
  destruct (fgetc_eq f left c p Hl) as (p1 & E1 & Hl1 & Hs1). rewrite (ubind_ret _ _ _ _ _ E1).
  destruct c as [| b c]; cbn [head tail from_option id] in *; [rewrite Z.eqb_refl; by exists p1 |].
  apply Forall_cons in Hb as [Hb0 Hb]. rewrite (proj2 (Z.eqb_neq b EOF)) by (unfold EOF; lia). cbn [length] in Hf.
  destruct (IH c (count_byte isspace k b) p1 Hl1 Hb ltac:(lia)) as (p' & E & Hl' & Hs'). exists p'. split; [exact E |]. by rewrite Hs', Hs1.
Qed.

Lemma show_eq {W} `{OS hcall W} f left `{!InStream f left} b v c (p : uproc hcall W) : left (u_os p) c ->
  exists p', show b v p = URet tt p' /\ left (u_os p') c /\
    shown stdout (u_trace p') = shown stdout (u_trace p) ++ (if b then decimal v ++ [32] else []).
Proof. intros Hl. destruct b; [by apply (puts_eq f left) |]. exists p. by rewrite app_nil_r. Qed.

(** ** Lines *)
Lemma cut_lines_cons c r : exists w ws, cut_lines (c :: r) = w :: ws /\ (0 < length w)%nat.
Proof. cbn [cut_lines]. destruct (c =? 10); [by exists [c], (cut_lines r); split; [| cbn; lia] |]. destruct (cut_lines r) as [| w ws]; eexists _, _; split; [done | cbn; lia | done | cbn; lia]. Qed.
Lemma cut_lines_rest l : cut_lines (concat (tail (cut_lines l))) = tail (cut_lines l).
Proof.
  induction l as [| c r IH]; [done |]. cbn [cut_lines]. destruct (c =? 10); [cbn [tail]; by rewrite cut_lines_concat |].
  destruct (cut_lines r) as [| w ws]; [done | exact IH].
Qed.

Section reading.
Context {W : Type} `{OS hcall W} (f : Z) (left : W -> list Z -> Prop) `{!InStream f left}.

(** [fgets] returns the next line if it fits. *)
Lemma fgets_loop_eq : forall k c (p : uproc hcall W), left (u_os p) c -> Forall (fun b => 0 <= b) c ->
  (length (hd [] (cut_lines c)) <= k)%nat ->
  exists p', fgets_loop k f p = URet (hd [] (cut_lines c)) p' /\ left (u_os p') (concat (tail (cut_lines c))) /\
    shown stdout (u_trace p') = shown stdout (u_trace p).
Proof.
  induction k as [| k IH]; intros c p Hl Hb Hk.
  { destruct c as [| b c]; [by exists p |]. destruct (cut_lines_cons b c) as (w & ws & E & Hw). rewrite E in Hk. cbn in Hk. lia. }
  cbn [fgets_loop]. destruct (fgetc_eq f left c p Hl) as (p1 & E1 & Hl1 & Hs1). rewrite (ubind_ret _ _ _ _ _ E1).
  destruct c as [| b c]; cbn [head tail from_option id] in *; [rewrite Z.eqb_refl; by exists p1 |].
  apply Forall_cons in Hb as [Hb0 Hb]. rewrite (proj2 (Z.eqb_neq b EOF)) by (unfold EOF; lia). cbn [cut_lines] in *.
  destruct (Z.eqb_spec b 10) as [-> | Hb10]; [exists p1; cbn [hd tail]; by rewrite cut_lines_concat |].
  destruct (IH c p1 Hl1 Hb) as (p2 & E2 & Hl2 & Hs2); [destruct (cut_lines c); cbn in *; lia |].
  rewrite (ubind_ret _ _ _ _ _ E2). exists p2. destruct (cut_lines c) as [| w ws]; cbn [hd tail] in *; by rewrite Hs2.
Qed.

(** What [custom_grep] prints for a list of lines. *)
Definition matches (ic : bool) (pattern line : list Z) : bool :=
  if ic then strstr (to_lower line) (to_lower pattern) else strstr line pattern.
Fixpoint grep_text (ic : bool) (pattern : list Z) (n : Z) (ls : list (list Z)) : list Z :=
  match ls with
  | [] => []
  | l :: r => (if matches ic pattern l then decimal n ++ str ": " ++ l else []) ++ grep_text ic pattern (n + 1) r
  end.

Lemma cgrep_loop_eq ic pattern : (length pattern < 1024)%nat -> forall fuel c n (p : uproc hcall W),
  left (u_os p) c -> Forall (fun b => 0 < b) c -> Forall (fun l => (length l <= 1023)%nat) (cut_lines c) ->
  (length (cut_lines c) < fuel)%nat -> 0 <= n -> n + Z.of_nat (length (cut_lines c)) < 2 ^ 31 ->
  exists p', grep_loop fuel f pattern ic n p = URet tt p' /\ left (u_os p') [] /\
    shown stdout (u_trace p') = shown stdout (u_trace p) ++ grep_text ic pattern n (cut_lines c).
Proof.
  intros Hpat. induction fuel as [| fuel IH]; intros c n p Hl Hb Hlen Hf Hn Hmax; [lia |]. cbn [grep_loop].
  assert (Hb0 : Forall (fun b => 0 <= b) c) by (eapply Forall_impl; [exact Hb | cbn; lia]).
  assert (length (hd [] (cut_lines c)) <= 1023)%nat as Hhd.
  { destruct (cut_lines c) as [| w ws]; [cbn; lia |]. by apply Forall_cons in Hlen as [Hlen _]. }
  destruct (fgets_loop_eq (MAX_LINE - 1) c p Hl Hb0 Hhd) as (p1 & E1 & Hl1 & Hs1).
  unfold fgets. rewrite ubind_assoc, (ubind_ret _ _ _ _ _ E1). unfold ubind at 1. cbn [uret].
  pose proof (cut_lines_concat c) as Hcat. pose proof (cut_lines_rest c) as Hrest.
  destruct c as [| b c0].
  { cbn [cut_lines hd]. exists p1. split; [done |]. split; [exact Hl1 |]. cbn. by rewrite app_nil_r. }
  destruct (cut_lines_cons b c0) as (w & ws & E & Hw). rewrite E in *. cbn [hd tail] in *. destruct w as [| x w']; [cbn in Hw; lia |].
  set (w := x :: w') in *. apply Forall_cons in Hlen as [Hlw Hlen]. cbn [length] in Hf, Hmax.
  rewrite <- Hcat in Hb. change (concat (w :: ws)) with (w ++ concat ws) in Hb. apply Forall_app in Hb as [Hbw Hb].
  rewrite cstr_nonul_id by (eapply Forall_impl; [exact Hbw | cbn; lia]).
  assert ((if ic then contains_ignore_case w pattern else uret (strstr w pattern)) p1 = URet (matches ic pattern w) p1) as E2.
  { destruct ic; [| done]. unfold contains_ignore_case. rewrite decide_False; [done |]. unfold MAX_LINE. lia. }
  rewrite (ubind_ret _ _ _ _ _ E2).
  assert (exists p2, (if matches ic pattern w then puts (decimal n ++ str ": " ++ w) else uret tt) p1 = URet tt p2 /\ left (u_os p2) (concat ws) /\
    shown stdout (u_trace p2) = shown stdout (u_trace p1) ++ (if matches ic pattern w then decimal n ++ str ": " ++ w else [])) as (p2 & E3 & Hl2 & Hs2).
  { destruct (matches ic pattern w); [by apply (puts_eq f left) |]. exists p1. by rewrite app_nil_r. }
  rewrite (ubind_ret _ _ _ _ _ E3).
  destruct (IH (concat ws) (s32 (n + 1)) p2 Hl2 Hb) as (p' & E4 & Hl' & Hs'); [by rewrite Hrest | rewrite Hrest; lia | rewrite s32_small; lia | rewrite Hrest, s32_small; lia |].
  exists p'. split; [exact E4 |]. split; [done |]. rewrite Hs', Hs2, Hs1, Hrest, s32_small, <- app_assoc by lia. done.
Qed.
End reading.

(** ** Confirmations *)

(** The files removed at a prompt, with the answers read from [input]; after its end
    every answer is what [junk] says. *)
Fixpoint skip_space (l : list Z) : list Z :=
  match l with [] => [] | c :: r => if isspace c then skip_space r else l end.
Fixpoint confirmed (junk : nat -> Z) (files : list (list Z)) (input : list Z) : list (list Z) :=
  match files with
  | [] => []
  | f :: r =>
      let answer := default (junk O) (head (skip_space input)) in
      (if answer =? 121 then [f] else []) ++ confirmed (fun i => junk (S i)) r (tail (skip_space input))
  end.
(** The answers of the user: the characters that are not white space; and the files whose
    answer is y. *)
Definition answers (input : list Z) : list Z := List.filter (fun c => negb (isspace c)) input.
Definition chosen (answer : nat -> Z) (files : list (list Z)) : list (list Z) :=
  fst <$> List.filter (fun fa => snd fa =? 121) (imap (fun i f => (f, answer i)) files).
Lemma answers_skip l : answers l = match skip_space l with [] => [] | c :: r => c :: answers r end.
Proof.
  induction l as [| c r IH]; [done |]. cbn [skip_space]. destruct (isspace c) eqn:E.
  - rewrite <- IH. cbn. by rewrite E.
  - cbn. by rewrite E.
Qed.
Lemma confirmed_answers files : forall junk input,
  confirmed junk files input = chosen (fun i => default (junk i) (answers input !! i)) files.
Proof.
  induction files as [| f r IH]; intros junk input; cbn [confirmed]; [done |].
  rewrite IH, (answers_skip input). unfold chosen. destruct (skip_space input) as [| c l]; cbn [imap List.filter snd].
  - cbn [lookup list_lookup default head from_option id]. by destruct (junk O =? 121).
  - cbn [lookup list_lookup default head from_option id]. by destruct (c =? 121).
Qed.
Definition removed (t : list hcall) : list (list Z) :=
  omap (fun c => match c with HRemove f => Some f | _ => None end) t.

Section confirming.
Context {W : Type} `{OS hcall W} (left : W -> list Z -> Prop) `{!InStream stdin left}.

Lemma skip_space_length l : (length (skip_space l) <= length l)%nat.
Proof. induction l as [| c r IH]; [done |]. cbn [skip_space]. destruct (isspace c); cbn; lia. Qed.

Lemma scan_char_eq junk : forall fuel c (p : uproc hcall W), left (u_os p) c -> Forall (fun b => 0 <= b) c -> (length c < fuel)%nat ->
  exists p', scan_char fuel junk p = URet (default junk (head (skip_space c))) p' /\ left (u_os p') (tail (skip_space c)) /\
    removed (u_trace p') = removed (u_trace p).
Proof.
  induction fuel as [| fuel IH]; intros c p Hl Hb Hf; [lia |]. cbn [scan_char].
  assert (Hr : forall t, removed (t ++ [HFgetc stdin]) = removed t) by (intros t; unfold removed; by rewrite omap_app, app_nil_r).
  destruct c as [| b c].
  - destruct (fgetc_end _ Hl) as (w' & d & E & Hl'). rewrite (ubind_ret _ _ _ _ _ (hcall_eq _ _ _ _ E)). cbn [a_ret]. rewrite Z.eqb_refl.
    eexists. split; [reflexivity |]. split; [exact Hl' | apply Hr].
  - destruct (fgetc_law _ _ _ Hl) as (w' & d & E & Hl'). rewrite (ubind_ret _ _ _ _ _ (hcall_eq _ _ _ _ E)). cbn [a_ret].
    apply Forall_cons in Hb as [Hb0 Hb]. rewrite (proj2 (Z.eqb_neq b EOF)) by (unfold EOF; lia). cbn [skip_space length] in *.
    destruct (isspace b); [| eexists; split; [reflexivity |]; split; [exact Hl' | apply Hr]].
    destruct (IH c (mkuproc (u_trace p ++ [HFgetc stdin]) w') Hl' Hb ltac:(lia)) as (p' & E' & Hl2 & Hr2). exists p'. split; [exact E' |].
    split; [done |]. rewrite Hr2. apply Hr.
Qed.

Lemma rm_file_eq f c (p : uproc hcall W) : left (u_os p) c ->
  exists p', rm_file f p = URet tt p' /\ left (u_os p') c /\ removed (u_trace p') = removed (u_trace p) ++ [f].
Proof.
  intros Hl. unfold rm_file, hcall_ret. destruct (aside_eq stdin left (HRemove f) c p Hl I) as (p1 & a & E1 & Hl1 & Ht1).
  rewrite ubind_assoc, (ubind_ret _ _ _ _ _ E1). unfold ubind at 1. cbn [uret].
  assert (forall x, aside x -> removed [x] = [] -> exists p', hdo x p1 = URet tt p' /\ left (u_os p') c /\ removed (u_trace p') = removed (u_trace p) ++ [f]) as Hlast.
  { intros x Hx Hn. destruct (aside_eq stdin left x c p1 Hl1 Hx) as (p2 & a2 & E2 & Hl2 & Ht2). exists p2. unfold hdo.
    rewrite (ubind_ret _ _ _ _ _ E2). split; [done |]. split; [done |]. rewrite Ht2, Ht1. unfold removed in *. rewrite !omap_app, Hn. by rewrite app_nil_r. }
  destruct (a_ret a =? 0); by apply Hlast.
Qed.

Lemma rm_files_eq fuel files : forall junk c (p : uproc hcall W), left (u_os p) c -> Forall (fun b => 0 <= b) c -> (length c < fuel)%nat ->
  exists p', rm_files fuel junk true files p = URet tt p' /\ removed (u_trace p') = removed (u_trace p) ++ confirmed junk files c.
Proof.
  induction files as [| f r IH]; intros junk c p Hl Hb Hf; cbn [rm_files confirmed]; [exists p; by rewrite app_nil_r |].
  destruct (aside_eq stdin left (HPuts stdout (str "Remove " ++ f ++ str "? (y/n): ")) c p Hl I) as (p1 & a & E1 & Hl1 & Ht1).
  unfold puts, hdo at 1. rewrite !ubind_assoc, (ubind_ret _ _ _ _ _ E1). unfold ubind at 1. cbn [uret].
  destruct (scan_char_eq (junk O) fuel c p1 Hl1 Hb Hf) as (p2 & E2 & Hl2 & Hr2). rewrite ubind_assoc, (ubind_ret _ _ _ _ _ E2).
  assert (Forall (fun b => 0 <= b) (tail (skip_space c)) /\ (length (tail (skip_space c)) < fuel)%nat) as [Hb' Hf'].
  { split; [| pose proof (skip_space_length c); destruct (skip_space c); cbn in *; lia].
    clear - Hb. induction Hb as [| x l Hx Hl IH]; [constructor |]. cbn [skip_space]. by destruct (isspace x). }
  assert (removed (u_trace p1) = removed (u_trace p)) as Hr1 by (rewrite Ht1; unfold removed; by rewrite omap_app, app_nil_r).
  set (answer := default (junk O) (head (skip_space c))). destruct (answer =? 121); cbn [negb].
  - destruct (rm_file_eq f _ p2 Hl2) as (p3 & E3 & Hl3 & Hr3). rewrite (ubind_ret _ _ _ _ _ E3).
    destruct (IH (fun i => junk (S i)) _ p3 Hl3 Hb' Hf') as (p' & E & Hr'). exists p'. split; [exact E |]. by rewrite Hr', Hr3, Hr2, Hr1, <- app_assoc.
  - unfold ubind at 1. cbn [uret]. destruct (IH (fun i => junk (S i)) _ p2 Hl2 Hb' Hf') as (p' & E & Hr'). exists p'. split; [exact E |]. by rewrite Hr', Hr2, Hr1.
Qed.
End confirming.

(** ** Sorting *)
Definition entry_le (a b : list Z) : Prop := compare a b <= 0.
Lemma entry_total a : forall b, entry_le a b \/ entry_le b a.
Proof.
  unfold entry_le, compare. induction a as [| x a IH]; intros [| y b]; cbn [strcmp]; try lia.
  destruct (Z.eqb_spec x y) as [-> | Hne]; [rewrite Z.eqb_refl; apply IH | rewrite (proj2 (Z.eqb_neq y x)) by lia; lia].
Qed.
Lemma insert_entry_perm f l : insert_entry f l ≡ₚ f :: l.
Proof.
  induction l as [| g r IH]; [done |]. cbn [insert_entry]. destruct (compare f g <=? 0); [done |]. rewrite IH. constructor.
Qed.
Lemma insert_entry_sorted f l : Sorted entry_le l -> Sorted entry_le (insert_entry f l).
Proof.
  induction 1 as [| g r Hs IH Hh]; [by repeat constructor |]. cbn [insert_entry]. destruct (Z.leb_spec (compare f g) 0) as [Hle | Hgt].
  - constructor; [by constructor | by constructor].
  - constructor; [done |]. assert (entry_le g f) as Hgf by (destruct (entry_total f g) as [H1 | H1]; [unfold entry_le in H1; lia | done]).
    destruct r as [| h r]; cbn [insert_entry]; [by constructor |]. destruct (compare f h <=? 0); constructor; [done | by inversion Hh].
Qed.
(** [qsort] sorts the entries by name. *)
Lemma qsort_sorted l : Sorted entry_le (qsort l) /\ qsort l ≡ₚ l.
Proof.
  induction l as [| f l [IHs IHp]]; [split; [constructor | done] |]. cbn [qsort foldr]. split; [by apply insert_entry_sorted |].
  rewrite insert_entry_perm. by constructor.
Qed.

(** ** Listing a directory *)

(** What [custom_ls] relies on: [left w r] says that [r] are the names [readdir] still
    returns; [mode] is what [stat] reports. *)
Class Directory {W} `{OS hcall W} (path : list Z) (d : Z) (names : list (list Z)) (start : W -> Prop)
    (left : W -> list (list Z) -> Prop) (mode : list Z -> Z) : Prop := {
  dir_fd : 0 <= d;
  dir_open : forall w, start w -> exists a w', os_call (HOpendir path) w = (mkanswer d a, w') /\ left w' names;
  dir_next : forall w n r, left w (n :: r) -> exists k w', os_call (HReaddir d) w = (mkanswer k n, w') /\ 0 <= k /\ left w' r;
  dir_end : forall w, left w [] -> exists a w', os_call (HReaddir d) w = (a, w') /\ a_ret a < 0 /\ left w' [];
  dir_stat : forall w r f, left w r -> exists b w', os_call (HStat f) w = (mkanswer 0 (mode f :: b), w') /\ left w' r;
  dir_puts : forall w r g s, left w r -> exists a w', os_call (HPuts g s) w = (a, w') /\ left w' r;
  dir_close : forall w r, left w r -> exists a w', os_call (HClosedir d) w = (a, w') /\ left w' r;
}.

Section listing.
Context {W : Type} `{OS hcall W} (path : list Z) (d : Z) (names : list (list Z)) (start : W -> Prop).
Context (left : W -> list (list Z) -> Prop) (mode : list Z -> Z) `{!Directory path d names start left mode}.

Definition visible (flag_a : bool) (name : list Z) : bool := flag_a || negb (bool_decide (head name = Some 46)).
Definition entry_mode (name : list Z) : Z := mode (snprintf 512 (path ++ [47] ++ name)).
Definition colored (name : list Z) : list Z :=
  if S_ISDIR (entry_mode name) then COLOR_BLUE ++ name ++ COLOR_RESET
  else if istrue (Z.land (entry_mode name) S_IXUSR) then COLOR_GREEN ++ name ++ COLOR_RESET else name.

Lemma read_entries_eq flag_a : forall fuel r n (p : uproc hcall W), left (u_os p) r -> (length r < fuel)%nat -> (n + length r <= MAX_FILES)%nat ->
  exists p', read_entries fuel d flag_a n p = URet (List.filter (visible flag_a) r) p' /\ left (u_os p') [] /\
    shown stdout (u_trace p') = shown stdout (u_trace p).
Proof.
  assert (Hsh : forall t, shown stdout (t ++ [HReaddir d]) = shown stdout t) by (intros t; rewrite shown_app; apply app_nil_r).
  induction fuel as [| fuel IH]; intros r n p Hl Hf Hn; [lia |]. cbn [read_entries]. destruct r as [| x r].
  { destruct (dir_end _ Hl) as (a & w' & E & Ha & Hl'). rewrite (ubind_ret _ _ _ _ _ (sys_eq _ _ _ _ E)), (proj2 (Z.ltb_lt _ _) Ha).
    eexists. split; [reflexivity |]. split; [exact Hl' | apply Hsh]. }
  destruct (dir_next _ _ _ Hl) as (k & w' & E & Hk & Hl'). rewrite (ubind_ret _ _ _ _ _ (sys_eq _ _ _ _ E)). cbn [a_ret a_data].
  rewrite (proj2 (Z.ltb_ge _ _) Hk). cbn [length List.filter] in *. set (p1 := mkuproc (u_trace p ++ [HReaddir d]) w').
  assert (visible flag_a x = negb (negb flag_a && bool_decide (head x = Some 46))) as Hv.
  { unfold visible. by rewrite negb_andb, negb_involutive. }
  rewrite Hv. destruct (negb flag_a && bool_decide (head x = Some 46)); cbn [negb].
  - destruct (IH r n p1 Hl' ltac:(lia) ltac:(lia)) as (p' & E' & Hl2 & Hs). exists p'. split; [done |]. split; [done |]. rewrite Hs. apply Hsh.
  - rewrite decide_False by lia. destruct (IH r (S n) p1 Hl' ltac:(lia) ltac:(lia)) as (p' & E' & Hl2 & Hs).
    rewrite (ubind_ret _ _ _ _ _ E'). exists p'. split; [done |]. split; [done |]. rewrite Hs. apply Hsh.
Qed.

Lemma dir_puts_eq s r (p : uproc hcall W) : left (u_os p) r ->
  exists p', puts s p = URet tt p' /\ left (u_os p') r /\ shown stdout (u_trace p') = shown stdout (u_trace p) ++ s.
Proof.
  intros Hl. destruct (dir_puts (path := path) (d := d) (names := names) (start := start) _ _ stdout s Hl) as (a & w' & E & Hl'). exists (mkuproc (u_trace p ++ [HPuts stdout s]) w').
  unfold puts, hdo. rewrite (ubind_ret _ _ _ _ _ (sys_eq _ _ _ _ E)). split; [done |]. split; [done |].
  cbn [u_trace]. rewrite shown_app. unfold shown at 2. cbn. by rewrite app_nil_r.
Qed.

(** The listing without flags, and the two counts. *)
Definition ndirs (files : list (list Z)) : nat := length (List.filter (fun f => S_ISDIR (entry_mode f)) files).
Lemma print_entries_eq : forall files r fc dc (p : uproc hcall W), left (u_os p) r -> 0 <= fc -> 0 <= dc ->
  fc + dc + Z.of_nat (length files) < 2 ^ 31 ->
  exists p', print_entries path false false files fc dc p =
    URet (fc + Z.of_nat (length files - ndirs files), dc + Z.of_nat (ndirs files)) p' /\ left (u_os p') r /\
    shown stdout (u_trace p') = shown stdout (u_trace p) ++ concat ((fun f => colored f ++ nl) <$> files).
Proof.
  assert (Hnd : forall fs, (ndirs fs <= length fs)%nat).
  { induction fs as [| f fs IHf]; [done |]. unfold ndirs in *. cbn [List.filter]. destruct (S_ISDIR _); cbn [length] in *; lia. }
  induction files as [| f files IH]; intros r fc dc p Hl Hfc Hdc Hmax.
  { exists p. cbn. by rewrite !Z.add_0_r, app_nil_r. }
  cbn [print_entries fmap list_fmap concat length] in *. destruct (dir_stat (path := path) (d := d) (names := names) (start := start) _ _ (snprintf 512 (path ++ [47] ++ f)) Hl) as (b & w' & E & Hl1).
  rewrite (ubind_ret _ _ _ _ _ (sys_eq _ _ _ _ E)). cbn [a_ret a_data nth Z.eqb]. fold (entry_mode f).
  set (p1 := mkuproc (u_trace p ++ [HStat (snprintf 512 (path ++ [47] ++ f))]) w'). change (left (u_os p1) r) in Hl1.
  assert (shown stdout (u_trace p1) = shown stdout (u_trace p)) as Hs1 by (cbn [p1 u_trace]; rewrite shown_app; apply app_nil_r).
  destruct (dir_puts_eq (colored f) r p1 Hl1) as (p2 & E2 & Hl2 & Hs2). destruct (dir_puts_eq nl r p2 Hl2) as (p3 & E3 & Hl3 & Hs3).
  assert ((print_colored_name f (entry_mode f) ;;; puts nl) p1 = URet tt p3) as E4.
  { rewrite (ubind_ret _ _ _ tt p2); [done |]. rewrite <- E2. unfold print_colored_name, colored. by destruct (S_ISDIR (entry_mode f)), (istrue (Z.land (entry_mode f) S_IXUSR)). }
  rewrite (ubind_ret _ _ _ _ _ E4). pose proof (Hnd files) as Hle. unfold ndirs in *. cbn [List.filter]. destruct (S_ISDIR (entry_mode f)); cbn [length].
  all: rewrite s32_small by lia.
  - destruct (IH r fc (dc + 1) p3 Hl3 ltac:(lia) ltac:(lia) ltac:(lia)) as (p' & E' & Hl' & Hs'). exists p'. rewrite E'.
    split; [f_equal; f_equal; lia |]. split; [done |]. rewrite Hs', Hs3, Hs2, Hs1. by rewrite <- !app_assoc.
  - destruct (IH r (fc + 1) dc p3 Hl3 ltac:(lia) ltac:(lia) ltac:(lia)) as (p' & E' & Hl' & Hs'). exists p'. rewrite E'.
    split; [f_equal; f_equal; lia |]. split; [done |]. rewrite Hs', Hs3, Hs2, Hs1. by rewrite <- !app_assoc.
Qed.
End listing.

Lemma show_loop_plain {W} `{OS hcall W} f left `{!InStream f left} : forall fuel c n start (p : uproc hcall W),
  left (u_os p) c -> Forall (fun b => 0 <= b) c -> (length c < fuel)%nat ->
  exists p', show_loop fuel f false n start p = URet tt p' /\ left (u_os p') [] /\
    shown stdout (u_trace p') = shown stdout (u_trace p) ++ c.
Proof.
  induction fuel as [| fuel IH]; intros c n start p Hl Hb Hf; [lia |]. cbn [show_loop].
  destruct (fgetc_eq f left c p Hl) as (p1 & E1 & Hl1 & Hs1). rewrite (ubind_ret _ _ _ _ _ E1).
  destruct c as [| b c]; cbn [head tail from_option id] in *.
  { rewrite Z.eqb_refl. exists p1. by rewrite app_nil_r. }
  apply Forall_cons in Hb as [Hb0 Hb]. rewrite (proj2 (Z.eqb_neq b EOF)) by (unfold EOF; lia). rewrite andb_false_r.
  unfold ubind at 1. cbn [uret]. destruct (puts_eq f left [b] c p1 Hl1) as (p3 & E3 & Hl3 & Hs3). rewrite (ubind_ret _ _ _ _ _ E3).
  cbn [length] in *. destruct (IH c n (if b =? 10 then true else start) p3 Hl3 Hb ltac:(lia)) as (p' & E & Hl' & Hs').
  exists p'. split; [exact E |]. split; [done |]. by rewrite Hs', Hs3, Hs1, <- app_assoc.
Qed.

(** ** Properties *)

(** [custom_cp] copies: when both files open and writes are complete, it exits with
    status 0 after writing to the destination exactly the bytes of the source, however
    the system cuts them into reads. *)
Theorem custom_cp_copies {W} `{OS hcall W} prog src dst s t left `{!Copies s t left} fuel content (p : uproc hcall W) a1 w1 a2 w2 :
  os_call (HOpen src 0 0) (u_os p) = (mkanswer s a1, w1) -> 0 <= s ->
  os_call (HOpen dst DST_FLAGS 420) w1 = (mkanswer t a2, w2) -> 0 <= t -> left w2 content -> (length content < fuel)%nat ->
  exists p', cp_main fuel [prog; src; dst] p = UExit 0 p' /\ hwritten t (u_trace p') = hwritten t (u_trace p) ++ content.
Proof.
  intros E1 Hs E2 Ht Hl Hf. unfold cp_main. rewrite (ubind_ret _ _ _ _ _ (hcall_eq _ _ _ _ E1)). cbn [a_ret]. rewrite (proj2 (Z.ltb_ge _ _) Hs).
  rewrite (ubind_ret _ _ _ _ _ (hcall_eq _ (mkuproc _ w1) _ _ E2)). cbn [a_ret]. rewrite (proj2 (Z.ltb_ge _ _) Ht). cbn [u_trace].
  set (p2 := mkuproc _ w2). destruct (cp_loop_eq s t left fuel content p2 Hl Hf) as (p3 & E3 & _ & Hw). rewrite (ubind_ret _ _ _ _ _ E3).
  unfold puts. do 3 hdo_step. eexists. split; [reflexivity |]. cbn [u_trace]. rewrite !hwritten_app, Hw. cbn [p2 u_trace].
  rewrite !hwritten_app. unfold hwritten at 2 3 4 5 6. cbn. by rewrite !app_nil_r.
Qed.

(** A failed write is reported as success: when a write to the destination is
    refused or incomplete, [custom_cp] prints an error, stops copying, and still prints
    that the file was copied and exits with status 0. *)
Theorem custom_cp_write_error {W} `{OS hcall W} prog src dst s t fuel (p : uproc hcall W) a1 w1 a2 w2 n d w3 a4 w4 :
  os_call (HOpen src 0 0) (u_os p) = (mkanswer s a1, w1) -> 0 <= s ->
  os_call (HOpen dst DST_FLAGS 420) w1 = (mkanswer t a2, w2) -> 0 <= t ->
  os_call (HRead s 4096) w2 = (mkanswer n d, w3) -> 0 < n ->
  os_call (HWrite t (take (Z.to_nat n) d)) w3 = (a4, w4) -> a_ret a4 <> n ->
  exists p', cp_main (S fuel) [prog; src; dst] p = UExit 0 p' /\
    u_trace p' = u_trace p ++ [HOpen src 0 0; HOpen dst DST_FLAGS 420; HRead s 4096; HWrite t (take (Z.to_nat n) d);
      HPerror (str "Error writing to destination"); HClose s; HClose t; HPuts stdout (str "File copied successfully." ++ nl)].
Proof.
  intros E1 Hs E2 Ht E3 Hn E4 Hne. unfold cp_main. rewrite (ubind_ret _ _ _ _ _ (hcall_eq _ _ _ _ E1)). cbn [a_ret]. rewrite (proj2 (Z.ltb_ge _ _) Hs).
  rewrite (ubind_ret _ _ _ _ _ (hcall_eq _ (mkuproc _ w1) _ _ E2)). cbn [a_ret]. rewrite (proj2 (Z.ltb_ge _ _) Ht). cbn [u_trace cp_loop].
  rewrite ubind_assoc, (ubind_ret _ _ _ _ _ (sys_eq _ (mkuproc _ w2) _ _ E3)). cbn [a_ret a_data]. rewrite (proj2 (Z.ltb_lt _ _) Hn).
  rewrite ubind_assoc, (ubind_ret _ _ _ _ _ (hcall_eq _ (mkuproc _ w3) _ _ E4)). rewrite (proj2 (Z.eqb_neq _ _) Hne). cbn [negb u_trace].
  unfold puts. do 4 hdo_step. eexists. split; [reflexivity |]. cbn [u_trace]. by rewrite <- !app_assoc.
Qed.

(** [custom_cat -n] numbers lines: the text is printed with every line, the last one
    without a newline included, after its number in a field of four and a bar; without
    the flag it is printed unchanged. *)
Theorem custom_cat_numbers {W} `{OS hcall W} f left `{!InStream f left} fuel c (p : uproc hcall W) :
  left (u_os p) c -> Forall (fun b => 0 <= b) c -> (length c < fuel)%nat -> 1 + Z.of_nat (length c) < 2 ^ 31 ->
  (exists p', show_contents fuel f true p = URet tt p' /\ left (u_os p') [] /\
     shown stdout (u_trace p') = shown stdout (u_trace p) ++ numbered 1 (cut_lines c)) /\
  (exists p', show_contents fuel f false p = URet tt p' /\ left (u_os p') [] /\
     shown stdout (u_trace p') = shown stdout (u_trace p) ++ c).
Proof.
  intros Hl Hb Hf Hmax. split.
  - rewrite <- (proj1 (cat_text_numbered c 1)). by apply (show_loop_numbers f left).
  - by apply (show_loop_plain f left).
Qed.

(** [custom_grep] prints the lines that contain the pattern, each after its line
    number, and no others, up to letter case with [-i]; it reads the file to its end.
    Lines must fit the buffer of 1024 bytes. *)
Theorem custom_grep_lines {W} `{OS hcall W} f left `{!InStream f left} ic pattern fuel c (p : uproc hcall W) :
  left (u_os p) c -> (length pattern < 1024)%nat -> Forall (fun b => 0 < b) c ->
  Forall (fun l => (length l <= 1023)%nat) (cut_lines c) -> (length (cut_lines c) < fuel)%nat ->
  1 + Z.of_nat (length (cut_lines c)) < 2 ^ 31 ->
  exists p', grep_loop fuel f pattern ic 1 p = URet tt p' /\ left (u_os p') [] /\
    shown stdout (u_trace p') = shown stdout (u_trace p) ++ grep_text ic pattern 1 (cut_lines c).
Proof. intros Hl Hp Hb Hc Hf Hm. by apply (cgrep_loop_eq f left). Qed.

(** C37: [custom_rm -i] calls remove on exactly the files whose answer is y, in order.  The
    answer for a file is the character of the input, white space left out, with the
    number of the file.  When the input has ended before, nothing is stored, and the answer is
    what the uninitialised variable of that prompt happens to hold. *)
Theorem custom_rm_confirms {W} `{OS hcall W} left `{!InStream stdin left} fuel junk prog files c (p : uproc hcall W) :
  left (u_os p) c -> Forall (fun b => 0 <= b) c -> (length c < fuel)%nat ->
  exists p', rm_main fuel junk (prog :: str "-i" :: files) p = UExit 0 p' /\
    removed (u_trace p') = removed (u_trace p) ++ chosen (fun i => default (junk i) (answers c !! i)) files.
Proof.
  intros Hl Hb Hf. unfold rm_main. change (streq (str "-i") (str "-i")) with true. cbv iota. rewrite <- confirmed_answers.
  destruct (rm_files_eq left fuel files junk c p Hl Hb Hf) as (p' & E & Hr). rewrite (ubind_ret _ _ _ _ _ E). by exists p'.
Qed.

(** [custom_wc] counts: it prints the number of newlines, of words (maximal runs of
    characters that are not white space) and of characters, each if its flag is set. *)
Theorem custom_wc_counts {W} `{OS hcall W} f left `{!InStream f left} fuel show_l show_w show_c c (p : uproc hcall W) :
  left (u_os p) c -> Forall (fun b => 0 <= b) c -> (length c < fuel)%nat -> Z.of_nat (length c) < 2 ^ 31 ->
  exists p', count_file fuel f show_l show_w show_c p = URet tt p' /\ left (u_os p') [] /\
    shown stdout (u_trace p') = shown stdout (u_trace p) ++
      (if show_l then decimal (Z.of_nat (count_occ Z.eq_dec c 10)) ++ [32] else []) ++
      (if show_w then decimal (Z.of_nat (length (fields isspace c))) ++ [32] else []) ++
      (if show_c then decimal (Z.of_nat (length c)) ++ [32] else []).
Proof.
  intros Hl Hb Hf Hmax. unfold count_file.
  destruct (count_loop_eq f left fuel c (mkcounts 0 0 0 false) p Hl Hb Hf) as (p1 & E1 & Hl1 & Hs1). rewrite (ubind_ret _ _ _ _ _ E1).
  destruct (count_fold isspace c (mkcounts 0 0 0 false)) as (C1 & C2 & C3); [cbn; lia ..|]. rewrite C1, C2, C3. cbn [n_l n_w n_c n_inword].
  rewrite !Z.add_0_l, (proj1 (nfields_eq isspace c)).
  destruct (show_eq f left show_l (Z.of_nat (count_occ Z.eq_dec c 10)) [] p1 Hl1) as (p2 & E2 & Hl2 & Hs2). rewrite (ubind_ret _ _ _ _ _ E2).
  destruct (show_eq f left show_w (Z.of_nat (length (fields isspace c))) [] p2 Hl2) as (p3 & E3 & Hl3 & Hs3). rewrite (ubind_ret _ _ _ _ _ E3).
  destruct (show_eq f left show_c (Z.of_nat (length c)) [] p3 Hl3) as (p4 & E4 & Hl4 & Hs4). exists p4. split; [exact E4 |]. split; [done |].
  by rewrite Hs4, Hs3, Hs2, Hs1, <- !app_assoc.
Qed.

(** [custom_ls] lists a directory: every visible entry once, sorted by name, one per
    line and coloured by its kind, then the numbers of files and directories. *)
Theorem custom_ls_lists {W} `{OS hcall W} path d names start left mode `{!Directory path d names start left mode} fuel flag_a (p : uproc hcall W) :
  start (u_os p) -> (length names < fuel)%nat -> (length names <= MAX_FILES)%nat ->
  exists files p', list_directory fuel path false flag_a false p = URet tt p' /\
    Sorted entry_le files /\ files ≡ₚ List.filter (visible flag_a) names /\
    shown stdout (u_trace p') = shown stdout (u_trace p) ++ concat ((fun f => colored path mode f ++ nl) <$> files) ++
      nl ++ str "Files: " ++ decimal (Z.of_nat (length files - ndirs path mode files)) ++
      str " | Directories: " ++ decimal (Z.of_nat (ndirs path mode files)) ++ nl.
Proof.
  intros Hst Hf Hmax. unfold list_directory. destruct (dir_open _ Hst) as (a & w1 & E1 & Hl1).
  pose proof (dir_fd (Directory := ltac:(eassumption))) as Hd. rewrite (ubind_ret _ _ _ _ _ (hcall_eq _ _ _ _ E1)). cbn [a_ret]. rewrite (proj2 (Z.ltb_ge _ _) Hd).
  set (p1 := mkuproc (u_trace p ++ [HOpendir path]) w1).
  destruct (read_entries_eq path d names start left mode flag_a fuel names 0 p1 Hl1 Hf ltac:(lia)) as (p2 & E2 & Hl2 & Hs2). rewrite (ubind_ret _ _ _ _ _ E2).
  destruct (dir_close (path := path) (names := names) (start := start) (mode := mode) _ _ Hl2) as (a3 & w3 & E3 & Hl3).
  set (files := qsort (List.filter (visible flag_a) names)). set (p3 := mkuproc (u_trace p2 ++ [HClosedir d]) w3).
  unfold hdo at 1. rewrite ubind_assoc, (ubind_ret _ _ _ _ _ (sys_eq _ _ _ _ E3)). unfold ubind at 1. cbn [uret]. fold p3.
  destruct (qsort_sorted (List.filter (visible flag_a) names)) as [Hsort Hperm]. fold files in Hsort, Hperm.
  assert (length files <= MAX_FILES)%nat as Hlen.
  { rewrite Hperm. clear - Hmax. unfold MAX_FILES in *. assert (length (List.filter (visible flag_a) names) <= length names)%nat; [| lia]. apply List.filter_length_le. }
  destruct (print_entries_eq path d names start left mode files [] 0 0 p3 Hl3 ltac:(lia) ltac:(lia) ltac:(unfold MAX_FILES in *; lia)) as (p4 & E4 & Hl4 & Hs4).
  rewrite (ubind_ret _ _ _ _ _ E4). rewrite !Z.add_0_l.
  match goal with |- context [puts ?s] => destruct (dir_puts_eq path d names start left mode s [] p4 Hl4) as (p5 & E5 & _ & Hs5) end.
  exists files, p5. split; [exact E5 |]. split; [done |]. split; [done |]. rewrite Hs5, Hs4. cbn [p3 u_trace]. rewrite shown_app, Hs2. cbn [p1 u_trace].
  rewrite shown_app, !app_nil_r. by rewrite <- app_assoc.
Qed.

(** ** Witnesses *)

(** A host with one file to read; [HWrite] takes everything if the flag is set. *)
Definition pot : Type := list Z * bool.
Definition pot_call (c : hcall) (w : pot) : answer * pot :=
  match c with
  | HOpen _ flags _ => (mkanswer (if flags =? 0 then 3 else 4) [], w)
  | HRead _ n => let k := Nat.min (Z.to_nat n) (Nat.min 2 (length (fst w))) in
                 (mkanswer (Z.of_nat k) (take k (fst w)), (drop k (fst w), snd w))
  | HWrite _ d => (mkanswer (if snd w then Z.of_nat (length d) else -1) [], w)
  | _ => (mkanswer 0 [], w)
  end.
#[local] Instance pot_os : OS hcall pot := pot_call.
#[local] Instance pot_copies : Copies 3 4 (fun (w : pot) c => fst w = c /\ snd w = true).
Proof.
  split.
  - intros [c0 b] c n [Hc Hb] Hn. cbn in Hc, Hb. subst c0 b. eexists _, _. split; [reflexivity |]. split; [done |].
    cbn [fst]. split; [lia |]. intros Hne. destruct c; [done |]. cbn [length]. lia.
  - intros [c0 b] c d [Hc Hb]. cbn in Hc, Hb. subst c0 b. eexists _, _. split; [reflexivity |]. by split.
Qed.

Lemma custom_cp_copies_witness : exists p',
  cp_main 10 [str "cp"; str "a"; str "b"] (mkuproc [] (str "hello", true)) = UExit 0 p' /\ hwritten 4 (u_trace p') = str "hello".
Proof.
  apply (custom_cp_copies (str "cp") (str "a") (str "b") 3 4 (fun (w : pot) c => fst w = c /\ snd w = true) 10 (str "hello")
    (mkuproc [] (str "hello", true)) [] (str "hello", true) [] (str "hello", true)).
  - reflexivity.
  - lia.
  - reflexivity.
  - lia.
  - split; reflexivity.
  - vm_compute. lia.
Defined.

Lemma custom_cp_write_error_witness : exists p',
  cp_main 1 [str "cp"; str "a"; str "b"] (mkuproc [] (str "hi", false)) = UExit 0 p' /\
  u_trace p' = [] ++ [HOpen (str "a") 0 0; HOpen (str "b") DST_FLAGS 420; HRead 3 4096; HWrite 4 (take (Z.to_nat 2) (str "hi"));
    HPerror (str "Error writing to destination"); HClose 3; HClose 4; HPuts stdout (str "File copied successfully." ++ nl)].
Proof.
  apply (custom_cp_write_error (str "cp") (str "a") (str "b") 3 4 0 (mkuproc [] (str "hi", false)) [] (str "hi", false) [] (str "hi", false)
    2 (str "hi") ([], false) (mkanswer (-1) []) ([], false)).
  - reflexivity.
  - lia.
  - reflexivity.
  - lia.
  - vm_compute. reflexivity.
  - lia.
  - reflexivity.
  - cbn. lia.
Defined.

Definition two_lines : list Z := str "ab" ++ nl ++ str "Abc".
Lemma custom_cat_numbers_witness :
  (exists p', show_contents 20 stdin true (mkuproc [] two_lines) = URet tt p' /\ u_os p' = [] /\
     shown stdout (u_trace p') = str "   1 | ab" ++ nl ++ str "   2 | Abc") /\
  (exists p', show_contents 20 stdin false (mkuproc [] two_lines) = URet tt p' /\ u_os p' = [] /\ shown stdout (u_trace p') = two_lines).
Proof.
  assert (Forall (fun b => 0 <= b) two_lines) as Hb by (apply (bool_decide_unpack _); vm_compute; exact I).
  destruct (custom_cat_numbers stdin (fun (w : reel) c => w = c) 20 two_lines (mkuproc [] two_lines) eq_refl Hb) as [(p1 & E1 & Hl1 & Hs1) (p2 & E2 & Hl2 & Hs2)].
  - vm_compute. lia.
  - vm_compute. reflexivity.
  - split; [exists p1 | exists p2]; (split; [done |]; split; [done |]); [etransitivity; [exact Hs1 | vm_compute; reflexivity] | etransitivity; [exact Hs2 | reflexivity]].
Defined.

Lemma custom_grep_lines_witness : exists p',
  grep_loop 20 stdin (str "AB") true 1 (mkuproc [] two_lines) = URet tt p' /\ u_os p' = [] /\
  shown stdout (u_trace p') = str "1: ab" ++ nl ++ str "2: Abc".
Proof.
  destruct (custom_grep_lines stdin (fun (w : reel) c => w = c) true (str "AB") 20 two_lines (mkuproc [] two_lines) eq_refl) as (p1 & E1 & Hl1 & Hs1).
  - vm_compute. lia.
  - apply (bool_decide_unpack _). vm_compute. exact I.
  - apply (bool_decide_unpack _). vm_compute. exact I.
  - vm_compute. lia.
  - vm_compute. reflexivity.
  - exists p1. split; [done |]. split; [done |]. etransitivity; [exact Hs1 | vm_compute; reflexivity].
Defined.

(** Two answers for two files; then one answer too few, with a y in the variable. *)
Lemma custom_rm_confirms_witness :
  (exists p', rm_main 20 (fun _ => 121) [str "rm"; str "-i"; str "a"; str "b"] (mkuproc [] (str "y n")) = UExit 0 p' /\ removed (u_trace p') = [str "a"]) /\
  (exists p', rm_main 20 (fun _ => 121) [str "rm"; str "-i"; str "a"; str "b"; str "c"] (mkuproc [] (str "n y")) = UExit 0 p' /\
    removed (u_trace p') = [str "b"; str "c"]).
Proof.
  split.
  - destruct (custom_rm_confirms (fun (w : reel) c => w = c) 20 (fun _ => 121) (str "rm") [str "a"; str "b"] (str "y n") (mkuproc [] (str "y n")) eq_refl) as (p1 & E1 & Hr).
    + apply (bool_decide_unpack _). vm_compute. exact I.
    + vm_compute. lia.
    + exists p1. split; [done |]. etransitivity; [exact Hr | vm_compute; reflexivity].
  - destruct (custom_rm_confirms (fun (w : reel) c => w = c) 20 (fun _ => 121) (str "rm") [str "a"; str "b"; str "c"] (str "n y") (mkuproc [] (str "n y")) eq_refl) as (p1 & E1 & Hr).
    + apply (bool_decide_unpack _). vm_compute. exact I.
    + vm_compute. lia.
    + exists p1. split; [done |]. etransitivity; [exact Hr | vm_compute; reflexivity].
Defined.

Lemma custom_wc_counts_witness : exists p',
  count_file 20 stdin true true true (mkuproc [] two_lines) = URet tt p' /\ u_os p' = [] /\ shown stdout (u_trace p') = str "1 2 6 ".
Proof.
  destruct (custom_wc_counts stdin (fun (w : reel) c => w = c) 20 true true true two_lines (mkuproc [] two_lines) eq_refl) as (p1 & E1 & Hl1 & Hs1).
  - apply (bool_decide_unpack _). vm_compute. exact I.
  - vm_compute. lia.
  - vm_compute. reflexivity.
  - exists p1. split; [done |]. split; [done |]. etransitivity; [exact Hs1 | vm_compute; reflexivity].
Defined.

(** A host with one directory. *)
Definition sample_names : list (list Z) := [str "b"; str ".x"; str "a"].
Definition dirhost_call (c : hcall) (w : list (list Z)) : answer * list (list Z) :=
  match c with
  | HOpendir _ => (mkanswer 5 [], sample_names)
  | HReaddir _ => match w with [] => (mkanswer (-1) [], []) | n :: r => (mkanswer 0 n, r) end
  | HStat _ => (mkanswer 0 [0x81A4], w)
  | _ => (mkanswer 0 [], w)
  end.
#[local] Instance dirhost_os : OS hcall (list (list Z)) := dirhost_call.
#[local] Instance dirhost_directory : Directory [46] 5 sample_names (fun _ => True) (fun w r => w = r) (fun _ => 0x81A4).
Proof.
  split.
  - lia.
  - intros w _. by eexists _, _.
  - intros w n r ->. by eexists _, _.
  - intros w ->. by eexists _, _.
  - intros w r f ->. by eexists _, _.
  - intros w r g s ->. by eexists _, _.
  - intros w r ->. by eexists _, _.
Qed.
Lemma custom_ls_lists_witness : exists files p',
  list_directory 10 [46] false false false (mkuproc [] []) = URet tt p' /\ Sorted entry_le files /\ files ≡ₚ [str "b"; str "a"] /\
  shown stdout (u_trace p') = concat ((fun f => colored [46] (fun _ => 0x81A4) f ++ nl) <$> files) ++
    nl ++ str "Files: " ++ decimal (Z.of_nat (length files - ndirs [46] (fun _ => 0x81A4) files)) ++
    str " | Directories: " ++ decimal (Z.of_nat (ndirs [46] (fun _ => 0x81A4) files)) ++ nl.
Proof.
  apply (custom_ls_lists [46] 5 sample_names (fun _ => True) (fun w r => w = r) (fun _ => 0x81A4) 10 false (mkuproc [] [])).
  - exact I.
  - vm_compute. lia.
  - vm_compute. lia.
Defined.
